(* ===== verification/_CoqProject ===== *)
-Q . S2P
Prelude.v
Bits.v
Mmap.v
Queue.v
Opcode.v
Hdr.v
Verbs.v
Icrc.v
Mr.v
Sge.v
Cq.v
Pool.v
Task.v
State.v
Av.v
QpState.v
Comp.v
Arbiter.v
Req.v
ReqPacket.v
Message.v
Retry.v
Resp.v
Qp.v
Post.v
QpReset.v
QpInv.v
QpConnect.v
QpDefects.v
Ack.v
RespSteps.v
Deliver.v
DeliverWrite.v
DeliverSend.v
DeliverRead.v
RespOrder.v
RespRefuse.v
RespAtomic.v
Host.v
Recv.v
Mcast.v
CompTask.v
Wire.v
Path.v
Exchange.v
Session.v
QpInit.v
QpLife.v
Srq.v
Librxe.v
LibrxeObj.v
