(* ===== verification/Prelude.v ===== *)
(** * A verification library for the Soft RoCE (rxe) RDMA stack

    The program is the software RDMA transport of this repository: the kernel
    driver in linux/drivers/infiniband/hw/rxe (called rxe/ below) and the user
    library librxe-1.0.0. A user creates a queue pair (rxe_qp.c, rxe_verbs.c),
    moves it through its states until it is connected, and posts work requests
    to its send or receive queue, in the kernel or, through librxe, from a
    process; three tasks per queue pair do the rest in software:

    - the requester (rxe_req.c) cuts the oldest send work request into packets
      and hands them to the arbiter (rxe_arbiter.c), which gives them to the
      network interface (rxe_net.c);
    - on the other side [rxe_rcv] (rxe_recv.c) checks a packet and queues it
      for the responder or the completer of the queue pair it names;
    - the responder (rxe_resp.c) executes requests on memory regions (rxe_mr.c)
      and receive queues and answers them;
    - the completer (rxe_comp.c) matches the answers with the send queue, asks
      the requester for retries, and posts completions to a completion queue
      (rxe_cq.c), which is a ring (rxe_queue.c) mapped to user space
      (rxe_mmap.c).

    The objects are elements of pools (rxe_pool.c), the tasks run one at a time
    (rxe_task.c), and queue pairs may join multicast groups (rxe_mcast.c) and
    share a receive queue (rxe_srq.c).

    ** Files

    - Prelude: machine-width integers ([u8] .. [u64], [s32], and [ulong] for
      the 32-bit target), flag tests, record update, result types, shared
      lemmas on lists and the hint databases.
    - Bits: bit fields and big-endian words of byte lists.
    - Mmap: rxe_mmap.c and do_mmap_info, over a store of shared objects.
    - Queue: rxe_queue.h and rxe_queue.c. [RingFifo] is the interface that the
      completion queue is proved against.
    - Opcode, Hdr, Verbs: the opcode tables (rxe_opcode.c), every header
      accessor (rxe_hdr.h), work requests and completions (rxe_verbs.h).
    - Icrc: rxe_icrc.c over the bitwise CRC32 of lib/crc32.c.
    - Mr, Sge: rxe_mr.c: creation and lookup of memory regions, translation of
      addresses, copies between packets and regions or scatter/gather lists.
    - Cq: rxe_cq.c and the completion queue verbs.
    - Pool: rxe_pool.c: elements, their references, the table of indices and the
      tree by index or key. The red-black tree of the kernel is the class
      [RbTree], with a tree that is not balanced as its instance.
    - Task: rxe_task.c with tasklets and the spin lock as a step relation; one
      task, any number of activations in any order.
    - State: the queue pair and the device as one state, and the monad [eng]
      the tasks are written in. [eng A] is a function from the state to an
      answer and a new state, or to [None] for an access through a pointer
      that is null, out of bounds, or of the wrong union member, and for a
      loop that outlives its fuel. [wp] is its weakest precondition; with the
      failure predicate [False] it proves that the code does return.
    - Av, QpState, Qp: address vectors (rxe_av.c), the table of transitions of
      ib_modify_qp (core/verbs.c), and the checks and effects of
      rxe_qp_from_attr (rxe_qp.c).
    - Comp, Req, Resp, Arbiter: the task functions, one definition per state of
      the state machines of the source.
    - Post: ib_post_send, ib_post_recv, ib_post_srq_recv (rxe_verbs.c).
    - QpReset, QpInv, QpConnect, QpDefects: resetting, the invariant that every
      ib_modify_qp keeps, the way from any state to a connected queue pair, and
      where it goes wrong.
    - ReqPacket, Message, Retry: what the requester sends.
    - Ack, RespSteps, Deliver, DeliverWrite, DeliverSend, DeliverRead,
      RespOrder, RespRefuse, RespAtomic: what the responder does.
    - Host, Recv: the device with all queue pairs; rxe_recv.c and rxe_net_rcv.
    - Mcast: rxe_mcast.c with the addresses the network interface listens to.
    - CompTask, Wire, Path, Exchange: a message on its way through all of these,
      between two hosts; [exchange] runs the tasks of both.
    - Session: two queue pairs that are reset, connected with ib_modify_qp and
      given a work request with ib_post_send.
    - QpInit, QpLife, Srq: creation and destruction of queue pairs and of shared
      receive queues, with the reference counts of every object they use ([life]
      is the host with its mapped buffers and these counts).
    - Librxe, LibrxeObj: the user library. [Ring] is its queue, the second
      instance of [RingFifo]; posting, polling and the doorbell work on the
      buffers of the kernel's queues; objects come with the memory, the mappings
      and the kernel objects that the process holds.

    ** What the theorems show

    - Data path. [requester_message]: a send or RDMA write becomes exactly the
      packets of its message, with the opcodes, sequence numbers, headers and
      bytes that the receiver reads. [responder_write], [responder_send],
      [responder_read], [responder_atomic]: the packets of a message that
      arrive in order have the effect on memory, receive queue and completion
      queue that the operation promises, and are answered. All four show that
      the task returns. [rcv_dispatch], [rcv_multicast]: which queue pair gets
      a packet. [completer_ack_completes], [completer_nak_completes],
      [completer_flush]: which completions the user sees.
    - Composition. [session_write]: two new queue pairs, connected to each other
      with ib_modify_qp, carry an RDMA write that is posted with ib_post_send
      into the memory of the other host, and the completion comes back.
      [exchange_write], [exchange_send]: a work request posted on one host,
      followed through the requester and arbiter there, the network, the
      reception and responder of the other host, and the acknowledgements
      back to the completer: the bytes that the sender's scatter/gather list
      describes end up in the memory of the receiver and nowhere else, and
      every completion appears once.
    - Loss and attack. [requester_retry], [responder_out_of_order]: a retry
      resends what is missing and rewinds what is behind it; a request after a
      gap and a repeated send or write are not executed (repeated reads are
      replayed, repeated atomic operations are looked up). [responder_refuses],
      [lookup_mem_safe], [mem_check_range_spec]: memory that a key does not open
      is not touched. [rcv_type_safe]: whatever arrives, only complete packets
      are queued, unless a buffer is shared, or short with an old pointer in its
      control block, which the code does not survive.
    - User space. [user_send_same], [user_recv_same]: what a process posts
      through librxe is what the kernel would have posted for it, request by
      request and error by error, but for two checks the library does not make:
      that the service has the operation, and that the queue pair is
      initialised. [shared_ring_fifo]: kernel and process work on
      one buffer, in any order. [user_cq_restored], [user_qp_restored]: objects
      of a process give back what they took, on every path.
    - Management. [modify_keeps_invariant], [reset_from_any_state],
      [create_qp_ready], [create_destroy], [srq_create_ready]: queue pairs are
      created as asked, stay consistent under every change of state that names
      the right current state, can be reset from any state (up to members that
      the reset forgets) and connected, and leave no trace when destroyed.
    - Concurrency. [task_exclusive]: in every interleaving the function of a task
      runs at most once at a time; [task_settles]: a request to run it is not
      lost, unless it asks for a tasklet that is being killed. [pool_serves]: indices are unique and references balanced in any
      order of calls. [mcast_refines], [mcast_delivers]: groups are the sets of
      members that joining and leaving describe.
    - Components. The rings and completion queues refine FIFOs; mapped buffers
      live as long as they are used; copies through scatter/gather lists move
      the stream of bytes that the lists describe and keep reference counts
      balanced; header setters and getters are inverse and do not interfere.
    - Defects. Some theorems prove that the code does not do what it means to:
      [responder_uc_livelock] (a task that never returns), [rcv_trusts_length]
      (a read behind the end of a packet), [responder_atomic] (the answer of an
      atomic operation is stored under the wrong sequence number; see also
      [atomic_retry_wrong_answer]),
      [completer_leaks_on_exit], [arbiter_strands_packet], [cq_notify_rearms],
      [limited_member_unanswered] (acknowledgements a limited member of a
      partition cannot accept), [disable_does_not_stop] (a disabled task that
      still runs), [failed_join_loses_groups], [reset_keeps_read],
      [error_forgotten], [destroy_qp_leaks] (a queue pair that is never
      released), [failed_create_drops_twice], [special_qp_once],
      [srq_resize_keeps_or_loses] (a failed resize that frees the queue).

    ** Conventions, bounds and fuel

    Integers are [Z], wrapped where the C type wraps. A function that can fail
    returns [result] with the error number, one that allocates takes the answer
    of the allocator as an argument or from a list in the state; theorems about
    success assume that the answers needed are positive, and those about
    safety hold for all answers. The answers of the network interface are a
    list of return values. The loops of the completer and the responder run on
    fuel; each theorem that states a result shows that the fuel given is
    enough, and [completer_total] gives a bound for every state, for packets
    whose payload lies in their buffers. The task loop
    [rxe_do_task] is given the number of calls. Time is an argument, and timers
    are events. The path MTU in the theorems is at most 8192 bytes, because the
    length of a packet is a 16-bit field. A union is a record with its members
    side by side; where the code reads the wrong member the model fails.
    Handlers run one after the other: a task is not preempted by another task
    of the same queue pair, which is what the locks of the source provide and
    what Task proves of the lock of a task. The destruction of a queue pair and
    the session take the number of task calls and the fuel as arguments and hold
    for every amount that is large enough. Functions of librxe that take what
    malloc, mmap or a command of libibverbs returns as arguments assume only that
    new addresses and handles are not in use.

    ** Not modelled

    - rxe.c, rxe_sample.c, rxe_net_sysfs.c, rxe_dma.c and the notifier of
      rxe_net.c: registration with the kernel, a driver for a simulated link,
      sysfs files and the empty DMA mapping; they compute nothing the protocol
      depends on.
    - The verbs of rxe_verbs.c that only copy fields: queries of the device, its
      ports and tables, user contexts and protection domains, and the verbs of
      memory regions around the functions of rxe_mr.c.
    - The locks other than that of a task, and memory barriers. So the theorem on
      atomic operations says what one of them does, not that two responders
      exclude each other.
    - The width of the offset in [copy_data], an int in the source and unbounded
      here: they differ from 2^31 on, which no transfer of a message reaches.
    - libibverbs, which marshals commands, and perftest, which measures.
    - The other parts of the Linux tree: the code is that of the kernel, and
      what the driver uses of it appears as parameters.*)

From Stdlib Require Export ZArith Lia Bool.
From stdpp Require Export base tactics option list numbers.
#[global] Open Scope Z_scope.

(** ** Machine integers

    A [w]-bit unsigned C integer is a [Z] in [[0, 2^w)]; the wrap-around of
    the C operators is written out with [u8] .. [u64], the reinterpretation
    as a signed 32-bit integer with [s32]. *)

Definition u8 (x : Z) : Z := x mod 2 ^ 8.
Definition u16 (x : Z) : Z := x mod 2 ^ 16.
Definition u32 (x : Z) : Z := x mod 2 ^ 32.
Definition u64 (x : Z) : Z := x mod 2 ^ 64.
Definition s32 (x : Z) : Z := (x + 2 ^ 31) mod 2 ^ 32 - 2 ^ 31.

(** [unsigned long] and [size_t] on the boards the driver is built for
    (32-bit ARM). *)
Definition BITS_PER_LONG : Z := 32.
Definition ulong (x : Z) : Z := x mod 2 ^ BITS_PER_LONG.

Definition PAGE_SHIFT : Z := 12.
Definition PAGE_SIZE : Z := 2 ^ PAGE_SHIFT.

(** A C truth value. *)
Definition Zbool (b : bool) : Z := if b then 1 else 0.

(** [flag_set x m] is the C test [x & m]. *)
Definition flag_set (x m : Z) : bool := negb (Z.land x m =? 0).

(** The error numbers the driver returns (as negated values in C). *)
Inductive errno : Type :=
  | EPERM | ENOENT | EAGAIN | ENOMEM | EFAULT | EBUSY | EEXIST | ENODEV
  | EINVAL | ENOSPC | ENOSYS | EMSGSIZE | EOPNOTSUPP.

#[export] Instance errno_eq_dec : EqDecision errno.
Proof. solve_decision. Defined.

(** ** Results: the value of a C function that may return a negated errno *)

Inductive result (A : Type) : Type :=
  | Ok (a : A)
  | Err (e : errno).
Arguments Ok {A} a.
Arguments Err {A} e.

#[export] Instance result_eq_dec A `{EqDecision A} : EqDecision (result A).
Proof. solve_decision. Defined.

Definition res_bind {A B} (m : result A) (f : A → result B) : result B :=
  match m with
  | Ok a => f a
  | Err e => Err e
  end.

Definition res_guard (b : bool) (e : errno) : result unit :=
  if b then Ok tt else Err e.

Declare Scope rxe_scope.
Delimit Scope rxe_scope with rxe.
Notation "'let?' x := m 'in' k" := (res_bind m (fun x => k))
  (at level 10, x pattern, m at level 100, k at level 200) : rxe_scope.
Notation "'check?' b 'else' e 'in' k" := (res_bind (res_guard b e) (fun _ => k))
  (at level 10, b at level 100, e at level 100, k at level 200) : rxe_scope.
Notation "a .| b" := (Z.lor a b) (at level 50, left associativity) : rxe_scope.
Notation "a .& b" := (Z.land a b) (at level 40, left associativity) : rxe_scope.
#[global] Open Scope rxe_scope.

(** A group of case labels of a C switch. *)
Definition one_of (x : Z) (l : list Z) : bool := existsb (Z.eqb x) l.

(** ** Functional record update

    [Eta] names the expanded identity of a record; the update of one field is
    obtained from it by abstracting that projection. *)

Class Eta (R : Type) : Type := eta_expand : R → R.

Class Field {R T : Type} (p : R → T) : Type := upd_field : (T → T) → R → R.

Ltac derive_field :=
  match goal with
  | |- @Field ?R ?T ?p =>
      let e := constr:(_ : Eta R) in
      let e := eval hnf in e in
      let e := eval unfold eta_expand in e in
      match (eval pattern p in e) with
      | ?g _ => let t := constr:(fun (f : T → T) => g (fun r => f (p r))) in
                let t := eval cbv beta in t in
                exact t
      end
  end.

#[export] Hint Extern 0 (@Field _ _ _) => derive_field : typeclass_instances.

Notation "r '<|' p ':=' v '|>'" := (upd_field (p := p) (fun _ => v) r)
  (at level 12, p at next level, left associativity) : rxe_scope.
Notation "r '<|' p '::=' f '|>'" := (upd_field (p := p) f r)
  (at level 12, p at next level, left associativity) : rxe_scope.

(** ** Arithmetic shared by the components *)

Lemma u32_range x : 0 ≤ u32 x < 2 ^ 32.
Proof. apply Z.mod_pos_bound. lia. Qed.

Lemma u32_small x : 0 ≤ x < 2 ^ 32 → u32 x = x.
Proof. apply Z.mod_small. Qed.

Lemma u64_range x : 0 ≤ u64 x < 2 ^ 64.
Proof. apply Z.mod_pos_bound. lia. Qed.

Lemma u64_small x : 0 ≤ x < 2 ^ 64 → u64 x = x.
Proof. apply Z.mod_small. Qed.

Lemma s32_small x : - 2 ^ 31 ≤ x < 2 ^ 31 → s32 x = x.
Proof. intros. unfold s32. rewrite Z.mod_small; lia. Qed.

Lemma mod_mod_pow2 x k n : 0 ≤ k ≤ n → (x mod 2 ^ n) mod 2 ^ k = x mod 2 ^ k.
Proof.
  intros ?. rewrite <- !Z.land_ones by lia. rewrite <- Z.land_assoc.
  f_equal. rewrite Z.land_comm, Z.land_ones by lia. apply Z.mod_small.
  rewrite Z.ones_equiv. pose proof (Z.pow_le_mono_r 2 k n).
  pose proof (Z.pow_pos_nonneg 2 k). lia.
Qed.

(** Masking with [2^k - 1] is reduction modulo [2^k]. *)
Lemma land_mask x k : 0 ≤ k → Z.land x (2 ^ k - 1) = x mod 2 ^ k.
Proof.
  intros ?. rewrite <- Z.land_ones by done. f_equal. rewrite Z.ones_equiv. lia.
Qed.

(** Masking a wrapped 32-bit value with a mask of at most 32 bits. *)
Lemma land_u32_mask x k :
  0 ≤ k ≤ 32 → Z.land (u32 x) (2 ^ k - 1) = x mod 2 ^ k.
Proof. intros ?. rewrite land_mask by lia. apply mod_mod_pow2. lia. Qed.

(** A test against a one-bit mask reads that bit. *)
Lemma flag_set_pow2 x n : 0 ≤ n → flag_set x (2 ^ n) = Z.testbit x n.
Proof.
  intros Hn. unfold flag_set. apply eq_true_iff_eq. rewrite negb_true_iff, Z.eqb_neq. split.
  - intros H. apply not_false_iff_true. intros E. apply H. apply Z.bits_inj'. intros i Hi.
    rewrite Z.land_spec, Z.bits_0, Z.pow2_bits_eqb by lia.
    destruct (Z.eqb_spec n i) as [<-|]; [by rewrite E|by rewrite andb_false_r].
  - intros E H. apply (f_equal (fun z => Z.testbit z n)) in H.
    rewrite Z.land_spec, E, Z.bits_0, Z.pow2_bits_true in H; done.
Qed.

Lemma flag_set_lor a b m : flag_set (Z.lor a b) m = flag_set a m || flag_set b m.
Proof.
  unfold flag_set. rewrite Z.land_lor_distr_l. apply eq_true_iff_eq.
  rewrite orb_true_iff, !negb_true_iff, !Z.eqb_neq, Z.lor_eq_0_iff.
  destruct (Z.eq_dec (Z.land a m) 0); tauto.
Qed.

(** Reduction of a value at most one modulus out of range: the case analysis
    the ring indices need. *)
Lemma mod_wrap_up a n :
  0 ≤ a < 2 * n → (a < n ∧ a mod n = a) ∨ (n ≤ a ∧ a mod n = a - n).
Proof.
  intros ?. destruct (Z.lt_ge_cases a n).
  - left. split; [done|]. apply Z.mod_small. lia.
  - right. split; [done|]. symmetry. apply Z.mod_unique_pos with 1; lia.
Qed.

Lemma mod_wrap_down a n :
  - n ≤ a < n → (0 ≤ a ∧ a mod n = a) ∨ (a < 0 ∧ a mod n = a + n).
Proof.
  intros ?. destruct (Z.lt_ge_cases a 0).
  - right. split; [done|]. symmetry. apply Z.mod_unique_pos with (-1); lia.
  - left. split; [done|]. apply Z.mod_small. lia.
Qed.

(** [zify_mod] replaces every [a mod n] of the goal and hypotheses whose
    argument is at most one modulus out of range by its two cases. *)
Ltac wrap_mod a n :=
  let H := fresh in
  let m := fresh "m" in
  first [ assert (H : 0 ≤ a < n) by lia; apply Z.mod_small in H
        | assert (H : 0 ≤ a < 2 * n) by lia; apply mod_wrap_up in H
        | assert (H : - n ≤ a < n) by lia; apply mod_wrap_down in H ];
  set (m := a mod n) in *; clearbody m;
  first [ destruct H as [[? H]|[? H]]; subst m | subst m ].

Ltac zify_mod :=
  repeat match goal with
  | |- context [?a mod ?n] => wrap_mod a n
  | _ : context [?a mod ?n] |- _ => wrap_mod a n
  end.

Create HintDb rxe.
#[export] Hint Resolve u32_range u64_range : rxe.
