(* ===== verification/Bits.v ===== *)
(** * Bit fields and byte buffers

    The header accessors of rxe_hdr.h read and write bit fields of big-endian
    words at an offset of a packet buffer. This file has the two layers they
    share: a field of [w] bits at position [s] of an integer, and big-endian
    words of a list of bytes. *)

From S2P Require Import Prelude.

(** ** Bit fields *)

(** The mask of a field, and its value in [x]. *)
Definition fmask (w s : Z) : Z := Z.shiftl (Z.ones w) s.
Definition bits (w s x : Z) : Z := Z.land (Z.shiftr x s) (Z.ones w).

Lemma fmask_testbit w s i :
  0 ≤ w → 0 ≤ s → 0 ≤ i → Z.testbit (fmask w s) i = (s <=? i) && (i <? s + w).
Proof.
  intros. unfold fmask. rewrite Z.shiftl_spec by done.
  rewrite Z.testbit_ones by done.
  destruct (Z.leb_spec s i), (Z.leb_spec 0 (i - s)), (Z.ltb_spec (i - s) w),
    (Z.ltb_spec i (s + w)); try done; lia.
Qed.

Lemma bits_testbit w s x i :
  0 ≤ w → 0 ≤ s → 0 ≤ i → Z.testbit (bits w s x) i = Z.testbit x (i + s) && (i <? w).
Proof.
  intros. unfold bits. rewrite Z.land_spec, Z.shiftr_spec, Z.testbit_ones_nonneg by done. done.
Qed.

Lemma mod_pow2_testbit x n i :
  0 ≤ n → 0 ≤ i → Z.testbit (x mod 2 ^ n) i = (i <? n) && Z.testbit x i.
Proof.
  intros. destruct (Z.ltb_spec i n).
  - by rewrite Z.mod_pow2_bits_low.
  - by rewrite Z.mod_pow2_bits_high.
Qed.

(** [zbits] proves an equality of integers built from fields by comparing
    every bit: the operations are pushed through [testbit], the positions of
    the field boundaries are compared by [lia]. *)
Ltac zbits_rw :=
  repeat first
    [ rewrite fmask_testbit by lia | rewrite bits_testbit by lia
    | rewrite mod_pow2_testbit by lia
    | rewrite Z.lor_spec | rewrite Z.land_spec | rewrite Z.lnot_spec by lia
    | rewrite Z.shiftl_spec by lia | rewrite Z.shiftr_spec by lia
    | rewrite Z.bits_0 ].

Ltac zbits_case :=
  repeat match goal with
  | |- context [?a <? ?b] => destruct (Z.ltb_spec a b); try lia
  | |- context [?a <=? ?b] => destruct (Z.leb_spec a b); try lia
  end.

Ltac zbits :=
  apply Z.bits_inj'; intros ?i ?Hi; zbits_rw; zbits_case; cbn [andb orb negb];
  rewrite ?andb_true_r, ?andb_false_r, ?orb_false_r;
  try reflexivity; try (f_equal; lia).

Section fields.
Context (w s : Z) (Hw : 0 ≤ w) (Hs : 0 ≤ s).

(** The forms in which the code reads a field. *)
Lemma bits_mask_shift x : Z.shiftr (fmask w s .& x) s = bits w s x.
Proof using Hw Hs. zbits. Qed.

Lemma bits_mask0 x : fmask w 0 .& x = bits w 0 x.
Proof using Hw. zbits. Qed.

Lemma bits_mask0_r x : x .& fmask w 0 = bits w 0 x.
Proof using Hw. rewrite Z.land_comm. apply bits_mask0. Qed.

(** A field of a word cut to [n] bits, and a field cut to [n] bits. *)
Lemma bits_mod x n : s + w ≤ n → bits w s (x mod 2 ^ n) = bits w s x.
Proof using Hw Hs. intros. zbits. Qed.

Lemma mod_bits x n : w ≤ n → bits w s x mod 2 ^ n = bits w s x.
Proof using Hw Hs. intros. zbits. Qed.

Lemma bits_range x : 0 ≤ bits w s x < 2 ^ w.
Proof using Hw.
  unfold bits. rewrite Z.land_ones by done. apply Z.mod_pos_bound.
  by apply Z.pow_pos_nonneg.
Qed.

(** What writing a field does to it and to any field beside it. *)
Lemma bits_set_same v old :
  bits w s ((fmask w s .& Z.shiftl v s) .| (Z.lnot (fmask w s) .& old)) = v mod 2 ^ w.
Proof using Hw Hs. zbits. Qed.

Lemma bits_set_other w' s' v old :
  0 ≤ w' → 0 ≤ s' → s + w ≤ s' ∨ s' + w' ≤ s →
  bits w' s' ((fmask w s .& v) .| (Z.lnot (fmask w s) .& old)) = bits w' s' old.
Proof using Hw Hs. intros ?? [?|?]; zbits. Qed.

(** Setting and clearing all bits of a field. *)
Lemma bits_or_same old : bits w s (old .| fmask w s) = Z.ones w.
Proof using Hw Hs.
  apply Z.bits_inj'. intros i Hi. rewrite Z.testbit_ones_nonneg by done.
  zbits_rw. zbits_case; cbn; by rewrite ?orb_true_r, ?andb_false_r.
Qed.

Lemma bits_or_other w' s' old :
  0 ≤ w' → 0 ≤ s' → s + w ≤ s' ∨ s' + w' ≤ s →
  bits w' s' (old .| fmask w s) = bits w' s' old.
Proof using Hw Hs. intros ?? [?|?]; zbits. Qed.

Lemma bits_clear_same old : bits w s (old .& Z.lnot (fmask w s)) = 0.
Proof using Hw Hs. zbits. Qed.

Lemma bits_clear_other w' s' old :
  0 ≤ w' → 0 ≤ s' → s + w ≤ s' ∨ s' + w' ≤ s →
  bits w' s' (old .& Z.lnot (fmask w s)) = bits w' s' old.
Proof using Hw Hs. intros ?? [?|?]; zbits. Qed.
End fields.

Lemma land_fmask0 x n : 0 ≤ n → x .& fmask n 0 = x mod 2 ^ n.
Proof. intros. unfold fmask. rewrite Z.shiftl_0_r. by apply Z.land_ones. Qed.

(** A one-bit field is set when its mask test is. *)
Lemma flag_set_bits s x : 0 ≤ s → Zbool (flag_set (fmask 1 s) x) = bits 1 s x.
Proof.
  intros Hs. rewrite <- bits_mask_shift by lia. unfold flag_set.
  pose proof (bits_range 1 s ltac:(lia) x) as Hr. rewrite <- bits_mask_shift in Hr by lia.
  destruct (Z.eqb_spec (fmask 1 s .& x) 0) as [->|Hn]; cbn.
  - by rewrite Z.shiftr_0_l.
  - assert (Z.shiftr (fmask 1 s .& x) s ≠ 0); [|lia].
    intros E. apply Hn. apply Z.bits_inj'. intros i Hi. rewrite Z.bits_0.
    destruct (decide (i = s)) as [->|].
    + apply (f_equal (fun z => Z.testbit z 0)) in E.
      rewrite Z.shiftr_spec, Z.bits_0, Z.add_0_l in E by lia. done.
    + zbits_rw. zbits_case; done.
Qed.

(** ** Big-endian words of a byte buffer *)

(** The byte at offset [o]; a load outside the buffer is not meaningful. *)
Definition byte_at (h : list Z) (o : Z) : Z := default 0 (h !! Z.to_nat o).

Fixpoint load_be (n : nat) (h : list Z) (o : Z) : Z :=
  match n with
  | O => 0
  | S n => byte_at h o * 2 ^ (8 * Z.of_nat n) + load_be n h (o + 1)
  end.

Fixpoint store_be (n : nat) (h : list Z) (o v : Z) : list Z :=
  match n with
  | O => h
  | S n => store_be n (<[Z.to_nat o := (v / 2 ^ (8 * Z.of_nat n)) mod 2 ^ 8]> h) (o + 1) v
  end.

Definition load_u8 (h : list Z) (o : Z) : Z := load_be 1 h o.
Definition load_be16 (h : list Z) (o : Z) : Z := load_be 2 h o.
Definition load_be32 (h : list Z) (o : Z) : Z := load_be 4 h o.
Definition load_be64 (h : list Z) (o : Z) : Z := load_be 8 h o.
Definition store_u8 (h : list Z) (o v : Z) : list Z := store_be 1 h o v.
Definition store_be16 (h : list Z) (o v : Z) : list Z := store_be 2 h o v.
Definition store_be32 (h : list Z) (o v : Z) : list Z := store_be 4 h o v.
Definition store_be64 (h : list Z) (o v : Z) : list Z := store_be 8 h o v.

(** Bytes are in range. *)
Definition bytes_ok (h : list Z) : Prop := Forall (λ b, 0 ≤ b < 2 ^ 8) h.

Lemma length_store_be n h o v : length (store_be n h o v) = length h.
Proof.
  revert h o. induction n as [|n IH]; intros h o; cbn; [done|].
  by rewrite IH, length_insert.
Qed.

Lemma store_be_ok n h o v : bytes_ok h → bytes_ok (store_be n h o v).
Proof.
  revert h o. induction n as [|n IH]; intros h o Hh; cbn; [done|].
  apply IH. unfold bytes_ok. apply Forall_insert; [done|]. apply Z.mod_pos_bound. lia.
Qed.

Lemma byte_at_store n h o v p :
  0 ≤ o → 0 ≤ p → p < o ∨ o + Z.of_nat n ≤ p →
  byte_at (store_be n h o v) p = byte_at h p.
Proof.
  revert h o. induction n as [|n IH]; intros h o Ho Hp Hd; cbn [store_be]; [done|].
  rewrite IH by lia. unfold byte_at. rewrite list_lookup_insert_ne by lia. done.
Qed.

Lemma load_be_frame n h h' o :
  (∀ p, o ≤ p < o + Z.of_nat n → byte_at h p = byte_at h' p) →
  load_be n h o = load_be n h' o.
Proof.
  revert o. induction n as [|n IH]; intros o H; cbn [load_be]; [done|].
  rewrite H by lia. f_equal. apply IH. intros. apply H. lia.
Qed.

(** A load does not see a store to other bytes. *)
Lemma load_store_ne n m h o p v :
  0 ≤ o → 0 ≤ p → o + Z.of_nat n ≤ p ∨ p + Z.of_nat m ≤ o →
  load_be n (store_be m h p v) o = load_be n h o.
Proof. intros. apply load_be_frame. intros. apply byte_at_store; lia. Qed.

(** A load sees the last store, cut to its width. *)
Lemma load_store_eq n h o v :
  0 ≤ o → o + Z.of_nat n ≤ Z.of_nat (length h) →
  load_be n (store_be n h o v) o = v mod 2 ^ (8 * Z.of_nat n).
Proof.
  revert h o. induction n as [|n IH]; intros h o Ho Hl.
  - cbn. by rewrite Z.mod_1_r.
  - cbn [load_be store_be]. rewrite IH by (rewrite ?length_insert; lia).
    rewrite byte_at_store by lia. unfold byte_at.
    rewrite list_lookup_insert_eq by lia. cbn [default].
    set (k := 8 * Z.of_nat n). replace (8 * Z.of_nat (S n)) with (k + 8) by lia.
    rewrite Z.pow_add_r by lia. pose proof (Z.pow_pos_nonneg 2 k).
    rewrite Z.rem_mul_r by lia. cbn [default from_option id]. lia.
Qed.

(** The first byte of a stored word is its most significant one. *)
Lemma load_store_top n h o v :
  0 ≤ o → o + Z.of_nat (S n) ≤ Z.of_nat (length h) →
  load_be 1 (store_be (S n) h o v) o = (v / 2 ^ (8 * Z.of_nat n)) mod 2 ^ 8.
Proof.
  intros Ho Hl. cbn [load_be store_be]. rewrite byte_at_store by lia. unfold byte_at.
  rewrite list_lookup_insert_eq by lia. cbn. lia.
Qed.

Lemma load_be_range n h o : bytes_ok h → 0 ≤ load_be n h o < 2 ^ (8 * Z.of_nat n).
Proof.
  intros Hh. revert o. induction n as [|n IH]; intros o; [cbn; lia|].
  cbn [load_be]. pose proof (IH (o + 1)).
  assert (Hb : 0 ≤ byte_at h o < 2 ^ 8).
  { unfold byte_at. destruct (h !! Z.to_nat o) as [b|] eqn:E; cbn; [|lia].
    by apply (Forall_lookup_1 _ _ _ _ Hh E). }
  replace (8 * Z.of_nat (S n)) with (8 * Z.of_nat n + 8) by lia.
  rewrite Z.pow_add_r by lia. nia.
Qed.

#[export] Hint Resolve store_be_ok : rxe.

#[global] Arguments load_be : simpl never.
#[global] Arguments store_be : simpl never.
#[global] Arguments bits : simpl never.
#[global] Arguments fmask : simpl never.
