(* ===== verification/Mmap.v ===== *)
(** * Queue buffers shared with user space (rxe_mmap.c, do_mmap_info)

    A queue buffer that user space maps is owned by an [rxe_mmap_info]: the
    pseudo file offset user space passes to [mmap], the size, and a reference
    count held by the queue and by each mapping. The structures live in a
    store indexed by their address, so that the queue, the pending list and
    the mappings alias the same object. *)

From stdpp Require Import gmap gmultiset.
From S2P Require Import Prelude.

Record rxe_mmap_info := MmapInfo {
  info_offset : Z;
  info_size : Z;
  ip_context : Z;
  ip_obj : Z;
  ip_ref : Z
}.

#[export] Instance eta_rxe_mmap_info : Eta rxe_mmap_info := fun r =>
  MmapInfo (info_offset r) (info_size r) (ip_context r) (ip_obj r) (ip_ref r).

(** The part of [struct rxe_dev] the mmap code works on, with the store of
    [rxe_mmap_info] structures and the list of buffers given to [vfree]. *)
Record mmap_dev := MmapDev {
  mmap_offset : Z;
  pending_mmaps : list Z;
  infos : gmap Z rxe_mmap_info;
  vfreed : list Z
}.

#[export] Instance eta_mmap_dev : Eta mmap_dev := fun r =>
  MmapDev (mmap_offset r) (pending_mmaps r) (infos r) (vfreed r).

Definition PAGE_ALIGN (x : Z) : Z :=
  Z.land (u32 (x + PAGE_SIZE - 1)) (u32 (Z.lnot (PAGE_SIZE - 1))).

(** [kmalloc] is the address the allocator returns, [None] when it fails. *)
Definition rxe_create_mmap_info (kmalloc : option Z) (rxe : mmap_dev)
    (size context obj : Z) : option Z * mmap_dev :=
  match kmalloc with
  | None => (None, rxe)
  | Some ip =>
      let size := PAGE_ALIGN size in
      let off := if mmap_offset rxe =? 0 then PAGE_SIZE else mmap_offset rxe in
      let info := MmapInfo (u64 off) size context obj 1 in
      (Some ip, rxe <| mmap_offset := s32 (off + size) |>
                    <| infos ::= <[ip := info]> |>)
  end.

Definition sizeof_mminfo : Z := 16.

(** [udata] is [Some outlen] for a call from user space, [None] from a kernel
    client; [copy_to_user] says whether the copy of the offset succeeds. The
    result is the new device state and the queue's [ip]. *)
Definition do_mmap_info (kmalloc : option Z) (copy_to_user : bool)
    (rxe : mmap_dev) (udata : option Z) (offset context buf buf_size : Z)
    : mmap_dev * result (option Z) :=
  match udata with
  | None => (rxe, Ok None)
  | Some outlen =>
      if ulong (outlen - offset) <? sizeof_mminfo then (rxe, Err EINVAL)
      else
        match rxe_create_mmap_info kmalloc rxe buf_size context buf with
        | (None, rxe) => (rxe, Err EINVAL)
        | (Some ip, rxe) =>
            if copy_to_user then
              (rxe <| pending_mmaps ::= cons ip |>, Ok (Some ip))
            else (rxe <| infos ::= delete ip |>, Err EINVAL)
        end
  end.

Definition rxe_mmap_release (rxe : mmap_dev) (ip : Z) : mmap_dev :=
  match infos rxe !! ip with
  | None => rxe
  | Some info =>
      rxe <| pending_mmaps ::= filter (λ x, x ≠ ip) |>
          <| vfreed ::= cons (ip_obj info) |>
          <| infos ::= delete ip |>
  end.

(** [kref_get] and [kref_put] on the reference count of [ip]. *)
Definition kref_get (rxe : mmap_dev) (ip : Z) : mmap_dev :=
  rxe <| infos ::= alter (λ i, i <| ip_ref ::= (λ n, n + 1) |>) ip |>.

Definition kref_put (rxe : mmap_dev) (ip : Z) : mmap_dev :=
  match infos rxe !! ip with
  | None => rxe
  | Some info =>
      let rxe' := rxe <| infos ::= <[ip := info <| ip_ref := ip_ref info - 1 |>]> |> in
      if ip_ref info =? 1 then rxe_mmap_release rxe' ip else rxe'
  end.

Definition rxe_vma_open (rxe : mmap_dev) (ip : Z) : mmap_dev := kref_get rxe ip.
Definition rxe_vma_close (rxe : mmap_dev) (ip : Z) : mmap_dev := kref_put rxe ip.

(** The search loop of [rxe_mmap]: entries of another context or offset are
    skipped, the first match is taken unless the request is larger. *)
Fixpoint find_pending (rxe : mmap_dev) (context offset size : Z)
    (l : list Z) : option Z :=
  match l with
  | [] => None
  | ip :: l =>
      match infos rxe !! ip with
      | None => find_pending rxe context offset size l
      | Some info =>
          if negb (context =? ip_context info) || negb (offset =? info_offset info)
          then find_pending rxe context offset size l
          else if size >? info_size info then None
          else Some ip
      end
  end.

(** [remap] is the value [remap_vmalloc_range] returns. On success the
    mapping's private data is [ip]. *)
Definition rxe_mmap (remap : result unit) (rxe : mmap_dev)
    (context vm_pgoff vm_start vm_end : Z) : mmap_dev * result Z :=
  let offset := ulong (Z.shiftl vm_pgoff PAGE_SHIFT) in
  let size := ulong (vm_end - vm_start) in
  match find_pending rxe context offset size (pending_mmaps rxe) with
  | None => (rxe, Err EINVAL)
  | Some ip =>
      let rxe := rxe <| pending_mmaps ::= filter (λ x, x ≠ ip) |> in
      match remap with
      | Err e => (rxe, Err e)
      | Ok _ => (rxe_vma_open rxe ip, Ok ip)
      end
  end.

(** ** Lifetime of a shared buffer

    The clients' view is the multiset [refs] of references to mapping
    information: one for the queue that owns the buffer, one for each mapping
    of it. The steps are the calls that change the device state, each made by
    a holder of the reference it uses; a newly allocated address differs from
    the live ones. *)

Inductive mmap_step : mmap_dev * gmultiset Z → mmap_dev * gmultiset Z → Prop :=
  | step_create rxe refs ip copy udata offset context buf size rxe' :
      infos rxe !! ip = None → buf ∉ vfreed rxe →
      (∀ j i, infos rxe !! j = Some i → ip_obj i ≠ buf) →
      do_mmap_info (Some ip) copy rxe udata offset context buf size
        = (rxe', Ok (Some ip)) →
      mmap_step (rxe, refs) (rxe', refs ⊎ {[+ ip +]})
  | step_create_fail rxe refs ip copy udata offset context buf size rxe' e :
      (∀ p, ip = Some p → infos rxe !! p = None) →
      do_mmap_info ip copy rxe udata offset context buf size = (rxe', Err e) →
      mmap_step (rxe, refs) (rxe', refs)
  | step_mmap rxe refs context pgoff vstart vend ip rxe' :
      rxe_mmap (Ok tt) rxe context pgoff vstart vend = (rxe', Ok ip) →
      mmap_step (rxe, refs) (rxe', refs ⊎ {[+ ip +]})
  | step_mmap_fail rxe refs remap context pgoff vstart vend rxe' e :
      rxe_mmap remap rxe context pgoff vstart vend = (rxe', Err e) →
      mmap_step (rxe, refs) (rxe', refs)
  | step_open rxe refs ip :
      ip ∈ refs → mmap_step (rxe, refs) (rxe_vma_open rxe ip, refs ⊎ {[+ ip +]})
  | step_close rxe refs ip :
      ip ∈ refs → mmap_step (rxe, refs) (rxe_vma_close rxe ip, refs ∖ {[+ ip +]}).

(** A reference count is the number of references, a structure with none is
    gone, and a buffer is freed at most once and never while it is live. *)
Record mmap_inv (s : mmap_dev * gmultiset Z) : Prop := {
  inv_count ip i :
    infos s.1 !! ip = Some i → ip_ref i = Z.of_nat (multiplicity ip s.2) ∧ 0 < ip_ref i;
  inv_dead ip : infos s.1 !! ip = None → multiplicity ip s.2 = 0%nat;
  inv_pending : NoDup (pending_mmaps s.1);
  inv_pending_live ip : ip ∈ pending_mmaps s.1 → is_Some (infos s.1 !! ip);
  inv_objs ip1 ip2 i1 i2 :
    infos s.1 !! ip1 = Some i1 → infos s.1 !! ip2 = Some i2 →
    ip_obj i1 = ip_obj i2 → ip1 = ip2;
  inv_freed ip i : infos s.1 !! ip = Some i → ip_obj i ∉ vfreed s.1;
  inv_freed_once : NoDup (vfreed s.1)
}.

Lemma mmap_inv_init : mmap_inv (MmapDev 0 [] ∅ [], ∅).
Proof.
  split; cbn; try (intros *; rewrite ?lookup_empty; done); try constructor;
    intros; set_solver.
Qed.

(** What a successful creation did. *)
Lemma do_mmap_info_ok ip copy rxe udata offset context buf size rxe' :
  do_mmap_info (Some ip) copy rxe udata offset context buf size = (rxe', Ok (Some ip)) →
  ∃ info, ip_ref info = 1 ∧ ip_obj info = buf ∧
    infos rxe' = <[ip := info]> (infos rxe) ∧
    pending_mmaps rxe' = ip :: pending_mmaps rxe ∧ vfreed rxe' = vfreed rxe.
Proof.
  unfold do_mmap_info. intros E. repeat case_match; simplify_eq. cbn in *.
  simplify_eq. eexists. by repeat split.
Qed.

(** A failed creation leaves only the offset counter changed. *)
Lemma do_mmap_info_err ip copy rxe udata offset context buf size rxe' e :
  (∀ p, ip = Some p → infos rxe !! p = None) →
  do_mmap_info ip copy rxe udata offset context buf size = (rxe', Err e) →
  infos rxe' = infos rxe ∧ pending_mmaps rxe' = pending_mmaps rxe ∧
  vfreed rxe' = vfreed rxe.
Proof.
  unfold do_mmap_info. intros Hf E. repeat case_match; simplify_eq; try done;
    destruct ip as [p|]; cbn in *; simplify_eq; try done.
  split; [|done]. cbn. by rewrite delete_insert_id by (by apply Hf).
Qed.

Lemma find_pending_spec rxe context offset size l ip :
  find_pending rxe context offset size l = Some ip →
  ip ∈ l ∧ ∃ i, infos rxe !! ip = Some i ∧ ip_context i = context ∧
    info_offset i = offset ∧ size ≤ info_size i.
Proof.
  induction l as [|p l IH]; cbn; [done|]. rewrite elem_of_cons. intros E.
  destruct (infos rxe !! p) as [i|] eqn:Hp; [|naive_solver].
  destruct (negb _ || negb _) eqn:Hm; [naive_solver|].
  apply orb_false_iff in Hm as [H1%negb_false_iff%Z.eqb_eq H2%negb_false_iff%Z.eqb_eq].
  destruct (size >? info_size i) eqn:Hs; simplify_eq.
  split; [by left|]. exists i. split; [done|]. repeat split; lia.
Qed.

Lemma mmap_inv_create rxe refs ip info rxe' :
  mmap_inv (rxe, refs) → infos rxe !! ip = None → ip_ref info = 1 →
  ip_obj info ∉ vfreed rxe → (∀ j i, infos rxe !! j = Some i → ip_obj i ≠ ip_obj info) →
  infos rxe' = <[ip := info]> (infos rxe) →
  pending_mmaps rxe' = ip :: pending_mmaps rxe → vfreed rxe' = vfreed rxe →
  mmap_inv (rxe', refs ⊎ {[+ ip +]}).
Proof.
  intros [C D P PL O F FO] Hip Href Hfr Hobj Hi Hp Hv. cbn in *. pose proof (D ip Hip).
  split; cbn; rewrite ?Hi, ?Hp, ?Hv; try done.
  - intros j i. rewrite multiplicity_disj_union. destruct (decide (j = ip)) as [->|].
    + rewrite lookup_insert_eq, multiplicity_singleton_eq. intros [= <-]. lia.
    + rewrite lookup_insert_ne, multiplicity_singleton_ne by done. intros ?%C. lia.
  - intros j. rewrite multiplicity_disj_union. destruct (decide (j = ip)) as [->|].
    + by rewrite lookup_insert_eq.
    + rewrite lookup_insert_ne, multiplicity_singleton_ne by done. intros ?%D. lia.
  - constructor; [|done]. intros [i Hx]%PL. congruence.
  - intros j. rewrite elem_of_cons. intros [->|?%PL].
    + rewrite lookup_insert_eq. by eexists.
    + destruct (decide (j = ip)) as [->|];
        [rewrite lookup_insert_eq; by eexists|by rewrite lookup_insert_ne].
  - intros j1 j2 i1 i2. rewrite !lookup_insert. repeat case_decide; naive_solver.
  - intros j i. rewrite lookup_insert. case_decide; naive_solver.
Qed.

Lemma mmap_inv_pending rxe refs p :
  mmap_inv (rxe, refs) → NoDup p → (∀ x, x ∈ p → x ∈ pending_mmaps rxe) →
  mmap_inv (rxe <| pending_mmaps := p |>, refs).
Proof.
  intros [C D P PL O F FO] Hp Hs. cbn in *. split; cbn; try done. intros ip ?%Hs. by apply PL.
Qed.

Lemma mmap_inv_get rxe refs ip :
  mmap_inv (rxe, refs) → is_Some (infos rxe !! ip) →
  mmap_inv (kref_get rxe ip, refs ⊎ {[+ ip +]}).
Proof.
  intros [C D P PL O F FO] [i0 Hip]. cbn in *.
  assert (Hl : ∀ j i, alter (λ i, i <| ip_ref ::= (λ n, n + 1) |>) ip (infos rxe) !! j = Some i →
    ∃ i', infos rxe !! j = Some i' ∧ ip_obj i = ip_obj i' ∧
      ip_ref i = ip_ref i' + Z.of_nat (multiplicity j {[+ ip +]})).
  { intros j i. rewrite lookup_alter. case_decide as Hd.
    - subst j. rewrite Hip, multiplicity_singleton_eq. intros [= <-]. by exists i0.
    - rewrite multiplicity_singleton_ne by congruence. intros ?. exists i. split; [done|]. split; [done|lia]. }
  split; cbn; try done.
  - intros j i (i' & Hj & _ & ->)%Hl. rewrite multiplicity_disj_union.
    destruct (C j i' Hj). lia.
  - intros j Hn. rewrite multiplicity_disj_union. rewrite lookup_alter in Hn.
    case_decide as Hd; [subst j; rewrite Hip in Hn; cbn in Hn; done|].
    rewrite multiplicity_singleton_ne by congruence. by rewrite (D j Hn).
  - intros j [i Hi]%PL. rewrite lookup_alter. case_decide; rewrite ?Hip, ?Hi; cbn; by eexists.
  - intros j1 j2 i1 i2 (?&?&->&_)%Hl (?&?&->&_)%Hl ?. by eapply O.
  - intros j i (?&?&->&_)%Hl. by eapply F.
Qed.

Lemma kref_put_cases rxe ip i :
  infos rxe !! ip = Some i →
  (ip_ref i = 1 ∧ infos (kref_put rxe ip) = delete ip (infos rxe) ∧
   pending_mmaps (kref_put rxe ip) = filter (λ x, x ≠ ip) (pending_mmaps rxe) ∧
   vfreed (kref_put rxe ip) = ip_obj i :: vfreed rxe)
  ∨ (ip_ref i ≠ 1 ∧
     infos (kref_put rxe ip) = <[ip := i <| ip_ref := ip_ref i - 1 |>]> (infos rxe) ∧
     pending_mmaps (kref_put rxe ip) = pending_mmaps rxe ∧
     vfreed (kref_put rxe ip) = vfreed rxe).
Proof.
  intros Hip. unfold kref_put. rewrite Hip. destruct (Z.eqb_spec (ip_ref i) 1); [left|by right].
  unfold rxe_mmap_release. cbn. rewrite lookup_insert_eq. cbn.
  by rewrite delete_insert_eq.
Qed.

Lemma mmap_inv_put rxe refs ip :
  mmap_inv (rxe, refs) → ip ∈ refs → mmap_inv (kref_put rxe ip, refs ∖ {[+ ip +]}).
Proof.
  intros [C D P PL O F FO] Hin. cbn in *.
  destruct (infos rxe !! ip) as [i|] eqn:Hip;
    [|apply D in Hip; rewrite elem_of_multiplicity in Hin; lia].
  destruct (C ip i Hip) as [Hc ?].
  assert (Hm : ∀ j, multiplicity j (refs ∖ {[+ ip +]}) =
    (multiplicity j refs - if decide (j = ip) then 1 else 0)%nat).
  { intros j. rewrite multiplicity_difference. case_decide; subst;
      [by rewrite multiplicity_singleton_eq|by rewrite multiplicity_singleton_ne]. }
  destruct (kref_put_cases rxe ip i Hip) as [(Hr & Hi & Hp & Hv)|(Hr & Hi & Hp & Hv)].
  - split; cbn; rewrite ?Hi, ?Hp, ?Hv.
    + intros j k. rewrite lookup_delete, Hm. case_decide; [done|]. intros ?%C.
      case_decide; [congruence|lia].
    + intros j. rewrite lookup_delete, Hm. case_decide; case_decide; subst; try done.
      * lia.
      * intros ?%D. lia.
    + by apply list.NoDup_filter.
    + intros j [? ?%PL]%list_elem_of_filter. by rewrite lookup_delete_ne.
    + intros j1 j2 i1 i2. rewrite !lookup_delete. repeat case_decide; naive_solver.
    + intros j k. rewrite lookup_delete, not_elem_of_cons. case_decide; naive_solver.
    + constructor; [by eapply F|done].
  - split; cbn; rewrite ?Hi, ?Hp, ?Hv; try done.
    + intros j k. rewrite lookup_insert, Hm. case_decide; subst.
      * intros [= <-]. cbn. rewrite decide_True by done. lia.
      * rewrite decide_False by done. intros ?%C. lia.
    + intros j. rewrite lookup_insert, Hm. case_decide; [done|]. intros ?%D. lia.
    + intros j [? ?]%PL. rewrite lookup_insert. case_decide; by eexists.
    + intros j1 j2 i1 i2. rewrite !lookup_insert. repeat case_decide; naive_solver.
    + intros j k. rewrite lookup_insert. case_decide; naive_solver.
Qed.

Lemma mmap_step_inv s s' : mmap_inv s → mmap_step s s' → mmap_inv s'.
Proof.
  intros Hinv Hs. destruct Hs as [????????? rxe' Hip Hb Ho E|????????? rxe' e Hip E
    |?????? ip rxe' E|???????? e E|??? Hin|??? Hin].
  - destruct (do_mmap_info_ok _ _ _ _ _ _ _ _ _ E) as (i & ? & Hob & ? & ? & ?).
    rewrite <- Hob in *. by eapply mmap_inv_create.
  - destruct (do_mmap_info_err _ _ _ _ _ _ _ _ _ _ Hip E) as (Hi & Hp & Hv).
    destruct Hinv; cbn in *. by split; cbn; rewrite ?Hi, ?Hp, ?Hv.
  - unfold rxe_mmap in E. case_match eqn:Hf; simplify_eq.
    apply find_pending_spec in Hf as [_ (i & Hi & _)].
    apply mmap_inv_get; [|by eexists]. apply mmap_inv_pending; [done|..].
    + apply list.NoDup_filter, Hinv.
    + by intros x [_ ?]%list_elem_of_filter.
  - unfold rxe_mmap in E. repeat case_match; simplify_eq; [|done].
    apply mmap_inv_pending; [done|apply list.NoDup_filter, Hinv|].
    by intros x [_ ?]%list_elem_of_filter.
  - apply mmap_inv_get; [done|]. destruct (infos rxe !! ip) eqn:Hi; [done|].
    apply (inv_dead _ Hinv) in Hi. rewrite elem_of_multiplicity in Hin. cbn in *. lia.
  - by apply mmap_inv_put.
Qed.

(** ** Properties *)

(** C37: along any sequence of creations, mappings, forks, unmappings and
    destructions, the mapping information that exists is exactly the one
    somebody references, its count is the number of references, no buffer is
    freed twice, and none is freed while a queue or a mapping refers to it. *)
Theorem mmap_lifetime rxe refs :
  rtc mmap_step (MmapDev 0 [] ∅ [], ∅) (rxe, refs) →
  (∀ ip, ip ∈ refs ↔ is_Some (infos rxe !! ip)) ∧
  (∀ ip i, infos rxe !! ip = Some i →
     ip_ref i = Z.of_nat (multiplicity ip refs) ∧ ip_obj i ∉ vfreed rxe) ∧
  NoDup (vfreed rxe).
Proof.
  intros Hs. assert (Hinv : mmap_inv (rxe, refs)).
  { revert Hs. generalize mmap_inv_init. generalize (MmapDev 0 [] ∅ [], (∅ : gmultiset Z)).
    intros s Hi Hs. remember (rxe, refs) as s' eqn:E. clear E.
    induction Hs; eauto using mmap_step_inv. }
  destruct Hinv as [C D P PL O F FO]. cbn in *. split; [|split].
  - intros ip. rewrite elem_of_multiplicity. destruct (infos rxe !! ip) eqn:Hi.
    + destruct (C _ _ Hi). split; [by eexists|lia].
    + rewrite (D _ Hi). split; [lia|by intros [? ?]].
  - intros ip i Hi. split; [apply (C _ _ Hi)|by eapply F].
  - done.
Qed.

Lemma mmap_lifetime_witness :
  vfreed (rxe_vma_close (rxe_vma_close
    (MmapDev 8192 [] {[7 := MmapInfo 4096 4096 1 99 2]} []) 7) 7) = [99] ∧
  (7 ∈ ({[+ 7 +]} : gmultiset Z) ↔
   is_Some (infos (MmapDev 8192 [7] {[7 := MmapInfo 4096 4096 1 99 1]} []) !! 7)).
Proof.
  split; [vm_compute; reflexivity|].
  apply (mmap_lifetime (MmapDev 8192 [7] {[7 := MmapInfo 4096 4096 1 99 1]} []) {[+ 7 +]}).
  apply rtc_once. replace ({[+ 7 +]} : gmultiset Z) with ((∅ : gmultiset Z) ⊎ {[+ 7 +]})
    by multiset_solver.
  apply (step_create _ _ 7 true (Some 16) 0 1 99 100); [done|set_solver|done|].
  vm_compute. reflexivity.
Defined.

(** A process maps only a buffer created for its own context, at the
    offset it was given and no larger than the buffer, and only once. *)
Theorem rxe_mmap_isolation remap rxe context vm_pgoff vm_start vm_end rxe' ip :
  rxe_mmap remap rxe context vm_pgoff vm_start vm_end = (rxe', Ok ip) →
  ip ∈ pending_mmaps rxe ∧ (ip ∉ pending_mmaps rxe') ∧
  ∃ i, infos rxe !! ip = Some i ∧ ip_context i = context ∧
    info_offset i = ulong (vm_pgoff * PAGE_SIZE) ∧
    ulong (vm_end - vm_start) ≤ info_size i ∧
    infos rxe' !! ip = Some (i <| ip_ref := ip_ref i + 1 |>).
Proof.
  unfold rxe_mmap. intros E. repeat case_match; simplify_eq.
  match goal with H : find_pending _ _ _ _ _ = _ |- _ =>
    apply find_pending_spec in H as (Hin & i & Hi & ? & Ho & ?) end.
  split; [done|]. split.
  - intros [Hx _]%list_elem_of_filter. done.
  - exists i. cbn. rewrite lookup_alter_eq, Hi.
    rewrite Z.shiftl_mul_pow2 in Ho by (unfold PAGE_SHIFT; lia). done.
Qed.

Lemma rxe_mmap_isolation_witness :
  1 = 1 ∧ ∃ i, infos (MmapDev 8192 [7] {[7 := MmapInfo 4096 4096 1 99 1]} []) !! 7 = Some i ∧
    ip_context i = 1.
Proof.
  split; [reflexivity|].
  destruct (rxe_mmap_isolation (Ok tt)
    (MmapDev 8192 [7] {[7 := MmapInfo 4096 4096 1 99 1]} []) 1 1 40960 45056
    (MmapDev 8192 [] {[7 := MmapInfo 4096 4096 1 99 2]} []) 7)
    as (_ & _ & i & Hi & Hc & _); [vm_compute; reflexivity|].
  exists i. done.
Defined.
