(* ===== verification/Queue.v ===== *)
(** * The ring queue shared by producer and consumer (rxe_queue.h, rxe_queue.c) *)

From S2P Require Import Prelude Mmap.

(** ** The kernel helpers of include/linux/log2.h *)

Definition fls_long (l : Z) : Z := if l =? 0 then 0 else Z.log2 l + 1.

Definition roundup_pow_of_two (n : Z) : Z := ulong (Z.shiftl 1 (fls_long (ulong (n - 1)))).

Definition order_base_2 (n : Z) : Z := Z.log2 (roundup_pow_of_two n).

(** ** The queue and its shared buffer

    [buf] is shared with user space: its two copies of the size parameters
    and the two indices may hold anything. The element type [A] is one slot. *)

Record rxe_queue_buf (A : Type) := QueueBuf {
  buf_log2_elem_size : Z;
  buf_index_mask : Z;
  buf_producer_index : Z;
  buf_consumer_index : Z;
  buf_data : list A
}.
Arguments QueueBuf {A} _ _ _ _ _.
Arguments buf_log2_elem_size {A} _.
Arguments buf_index_mask {A} _.
Arguments buf_producer_index {A} _.
Arguments buf_consumer_index {A} _.
Arguments buf_data {A} _.

Record rxe_queue (A : Type) := Queue {
  q_buf : rxe_queue_buf A;
  q_buf_ptr : Z;
  q_ip : option Z;
  q_buf_size : Z;
  q_elem_size : Z;
  q_log2_elem_size : Z;
  q_index_mask : Z
}.
Arguments Queue {A} _ _ _ _ _ _ _.
Arguments q_buf {A} _.
Arguments q_buf_ptr {A} _.
Arguments q_ip {A} _.
Arguments q_buf_size {A} _.
Arguments q_elem_size {A} _.
Arguments q_log2_elem_size {A} _.
Arguments q_index_mask {A} _.

#[export] Instance eta_rxe_queue_buf A : Eta (rxe_queue_buf A) := fun r =>
  QueueBuf (buf_log2_elem_size r) (buf_index_mask r) (buf_producer_index r)
    (buf_consumer_index r) (buf_data r).
#[export] Instance eta_rxe_queue A : Eta (rxe_queue A) := fun r =>
  Queue (q_buf r) (q_buf_ptr r) (q_ip r) (q_buf_size r) (q_elem_size r) (q_log2_elem_size r)
    (q_index_mask r).

Section ops.
Context {A : Type}.
Implicit Types q : rxe_queue A.

Definition next_index q (index : Z) : Z :=
  Z.land (u32 (index + 1)) (buf_index_mask (q_buf q)).

Definition queue_empty q : bool :=
  Z.land (u32 (buf_producer_index (q_buf q) - buf_consumer_index (q_buf q)))
    (q_index_mask q) =? 0.

Definition queue_full q : bool :=
  Z.land (u32 (buf_producer_index (q_buf q) + 1 - buf_consumer_index (q_buf q)))
    (q_index_mask q) =? 0.

Definition advance_producer q : rxe_queue A :=
  q <| q_buf ::= fun b => b <| buf_producer_index :=
         Z.land (u32 (buf_producer_index b + 1)) (q_index_mask q) |> |>.

Definition advance_consumer q : rxe_queue A :=
  q <| q_buf ::= fun b => b <| buf_consumer_index :=
         Z.land (u32 (buf_consumer_index b + 1)) (q_index_mask q) |> |>.

(** Addresses are byte offsets from [q->buf->data]. *)
Definition producer_addr q : Z :=
  u32 (Z.shiftl (Z.land (buf_producer_index (q_buf q)) (q_index_mask q))
         (q_log2_elem_size q)).

Definition consumer_addr q : Z :=
  u32 (Z.shiftl (Z.land (buf_consumer_index (q_buf q)) (q_index_mask q))
         (q_log2_elem_size q)).

Definition producer_index q : Z := buf_producer_index (q_buf q).

Definition consumer_index q : Z := buf_consumer_index (q_buf q).

Definition addr_from_index q (index : Z) : Z :=
  u32 (Z.shiftl (Z.land index (q_index_mask q)) (buf_log2_elem_size (q_buf q))).

Definition index_from_addr q (addr : Z) : Z :=
  Z.land (u32 (Z.shiftr addr (q_log2_elem_size q))) (q_index_mask q).

Definition queue_count q : Z :=
  Z.land (u32 (buf_producer_index (q_buf q) - buf_consumer_index (q_buf q)))
    (q_index_mask q).

Definition queue_head q : option Z :=
  if queue_empty q then None else Some (consumer_addr q).

(** The element at a byte offset of the data area, read or overwritten. *)
Definition elem_at q (addr : Z) : option A :=
  buf_data (q_buf q) !! Z.to_nat (Z.shiftr addr (q_log2_elem_size q)).

Definition store_at q (addr : Z) (x : A) : rxe_queue A :=
  q <| q_buf ::= fun b => b <| buf_data ::=
         <[Z.to_nat (Z.shiftr addr (q_log2_elem_size q)) := x]> |> |>.

Definition sizeof_rxe_queue_buf : Z := 384.

(** [zero] is the element whose bytes are all zero ([vmalloc_user] clears the
    buffer); [kmalloc_ok] says whether the allocation of the header succeeds,
    [vmalloc] is the address of the buffer, [None] when there is none. The data area holds as many whole slots as the allocation has room for. *)
Definition rxe_queue_init (zero : A) (cache_line_size : Z)
    (kmalloc_ok : bool) (vmalloc : option Z) (num_elem elem_size : Z)
    : option (rxe_queue A * Z) :=
  if num_elem <? 0 then None else
  if negb kmalloc_ok then None else
  let used := elem_size in
  let elem_size := if elem_size <? cache_line_size then cache_line_size else elem_size in
  let elem_size := u32 (roundup_pow_of_two elem_size) in
  let log2_elem_size := order_base_2 elem_size in
  let num_slots := u32 (num_elem + 1) in
  let num_slots := u32 (roundup_pow_of_two num_slots) in
  let index_mask := u32 (num_slots - 1) in
  let buf_size := ulong (sizeof_rxe_queue_buf + u32 (num_slots * elem_size)) in
  match vmalloc with
  | None => None
  | Some ptr =>
  let room := (buf_size - sizeof_rxe_queue_buf) / 2 ^ log2_elem_size in
  let buf := QueueBuf log2_elem_size index_mask 0 0 (replicate (Z.to_nat room) zero) in
  Some (Queue buf ptr None buf_size used log2_elem_size index_mask, u32 (num_slots - 1))
  end.

(** The copy loop of [resize_finish]: at most [fuel] iterations, [None] when
    the fuel runs out or an address leaves the data area. *)
Fixpoint resize_copy (fuel : nat) q new_q : option (rxe_queue A * rxe_queue A) :=
  if queue_empty q then Some (q, new_q)
  else match fuel with
       | O => None
       | S fuel =>
           match elem_at q (consumer_addr q) with
           | None => None
           | Some x =>
               let new_q := store_at new_q (producer_addr new_q) x in
               resize_copy fuel (advance_consumer q) (advance_producer new_q)
           end
       end.

(** On success the two headers are swapped: the result is the pair of the
    caller's [q] and the queue the caller then cleans up. *)
Definition resize_finish q new_q (num_elem : Z)
    : option (rxe_queue A * rxe_queue A * result unit) :=
  if negb (queue_empty q) && (num_elem <? queue_count q)
  then Some (q, new_q, Err EINVAL)
  else match resize_copy (Z.to_nat (queue_count q)) q new_q with
       | None => None
       | Some (q', new_q') => Some (new_q', q', Ok tt)
       end.

(** The buffer goes with its mapping information when it has one. *)
Definition rxe_queue_cleanup (rxe : mmap_dev) q : mmap_dev :=
  match q_ip q with
  | Some ip => kref_put rxe ip
  | None => rxe <| vfreed ::= cons (q_buf_ptr q) |>
  end.

(** What the allocators and the copy to user space answer during a call. *)
Record alloc_env := AllocEnv {
  env_kmalloc_queue : bool;
  env_vmalloc : option Z;
  env_kmalloc_ip : option Z;
  env_copy_to_user : bool
}.

Definition rxe_queue_resize (zero : A) (cache_line_size : Z) (env : alloc_env)
    (rxe : mmap_dev) q (num_elem elem_size context : Z) (udata : option Z)
    : option (mmap_dev * rxe_queue A * Z * result unit) :=
  match rxe_queue_init zero cache_line_size (env_kmalloc_queue env)
          (env_vmalloc env) num_elem elem_size with
  | None => Some (rxe, q, num_elem, Err ENOMEM)
  | Some (new_q, num_elem') =>
      match do_mmap_info (env_kmalloc_ip env) (env_copy_to_user env) rxe udata 0
              context (q_buf_ptr new_q) (q_buf_size new_q) with
      | (rxe, Err e) =>
          Some (rxe <| vfreed ::= cons (q_buf_ptr new_q) |>, q, num_elem, Err e)
      | (rxe, Ok ip) =>
          match resize_finish q (new_q <| q_ip := ip |>) num_elem' with
          | None => None
          | Some (q, dead, Err e) => Some (rxe_queue_cleanup rxe dead, q, num_elem, Err e)
          | Some (q, dead, Ok _) => Some (rxe_queue_cleanup rxe dead, q, num_elem', Ok tt)
          end
      end
  end.
End ops.

(** ** The invariant and the abstraction

    [queue_geom k q] is the part of the invariant the kernel keeps in memory
    of its own: [2^k] slots, whose byte offsets fit 32 bits. [queue_wf] adds
    that the shared indices are in range. *)

Record queue_geom {A} (k : Z) (q : rxe_queue A) : Prop := {
  geom_k : 0 ≤ k;
  geom_log2 : 0 ≤ q_log2_elem_size q;
  geom_fit : k + q_log2_elem_size q ≤ 32;
  geom_mask : q_index_mask q = 2 ^ k - 1;
  geom_data : Z.of_nat (length (buf_data (q_buf q))) = 2 ^ k
}.

Record queue_wf {A} (k : Z) (q : rxe_queue A) : Prop := {
  wf_geom :> queue_geom k q;
  wf_prod : 0 ≤ buf_producer_index (q_buf q) < 2 ^ k;
  wf_cons : 0 ≤ buf_consumer_index (q_buf q) < 2 ^ k
}.

(** The queue's contents in consumption order. *)
Definition queue_list {A} (q : rxe_queue A) : list A :=
  take (Z.to_nat (queue_count q))
    (rotate (Z.to_nat (buf_consumer_index (q_buf q))) (buf_data (q_buf q))).

Section facts.
Context {A : Type}.
Implicit Types q : rxe_queue A.

Lemma geom_pow k q : queue_geom k q → 0 < 2 ^ k ≤ 2 ^ 32.
Proof.
  intros []. split; [apply Z.pow_pos_nonneg; lia|].
  apply Z.pow_le_mono_r; lia.
Qed.

Lemma queue_count_mod k q :
  queue_geom k q →
  queue_count q =
    (buf_producer_index (q_buf q) - buf_consumer_index (q_buf q)) mod 2 ^ k.
Proof.
  intros []. unfold queue_count. rewrite geom_mask0.
  apply land_u32_mask. lia.
Qed.

Lemma queue_count_range k q : queue_geom k q → 0 ≤ queue_count q < 2 ^ k.
Proof.
  intros H. rewrite (queue_count_mod k) by done.
  apply Z.mod_pos_bound. apply geom_pow in H. lia.
Qed.

Lemma slot_addr k l i :
  0 ≤ l → 0 ≤ k → k + l ≤ 32 →
  Z.shiftr (u32 (Z.shiftl (i mod 2 ^ k) l)) l = i mod 2 ^ k.
Proof.
  intros. assert (0 < 2 ^ k) by (apply Z.pow_pos_nonneg; lia).
  assert (0 < 2 ^ l) by (apply Z.pow_pos_nonneg; lia).
  pose proof (Z.mod_pos_bound i (2 ^ k)).
  rewrite u32_small.
  - rewrite Z.shiftr_shiftl_l, Z.sub_diag by lia. apply Z.shiftl_0_r.
  - rewrite Z.shiftl_mul_pow2 by lia.
    assert (2 ^ k * 2 ^ l ≤ 2 ^ 32).
    { rewrite <- Z.pow_add_r by lia. apply Z.pow_le_mono_r; lia. }
    nia.
Qed.

Lemma producer_slot k q :
  queue_geom k q →
  Z.shiftr (producer_addr q) (q_log2_elem_size q) = buf_producer_index (q_buf q) mod 2 ^ k.
Proof.
  intros []. unfold producer_addr. rewrite geom_mask0, land_mask by lia. apply slot_addr; lia.
Qed.

Lemma consumer_slot k q :
  queue_geom k q →
  Z.shiftr (consumer_addr q) (q_log2_elem_size q) = buf_consumer_index (q_buf q) mod 2 ^ k.
Proof.
  intros []. unfold consumer_addr. rewrite geom_mask0, land_mask by lia. apply slot_addr; lia.
Qed.

(** Reading or writing through the kernel's address functions is access to
    the slot with the masked index. *)
Lemma elem_at_consumer k q :
  queue_geom k q →
  elem_at q (consumer_addr q) =
    buf_data (q_buf q) !! Z.to_nat (buf_consumer_index (q_buf q) mod 2 ^ k).
Proof.
  intros H. unfold elem_at. by rewrite (consumer_slot k).
Qed.

Lemma store_at_producer k q x :
  queue_geom k q →
  store_at q (producer_addr q) x =
    q <| q_buf ::= fun b => b <| buf_data ::=
      <[Z.to_nat (buf_producer_index (q_buf q) mod 2 ^ k) := x]> |> |>.
Proof.
  intros H. unfold store_at. by rewrite (producer_slot k).
Qed.

Lemma queue_list_length k q :
  queue_geom k q → Z.of_nat (length (queue_list q)) = queue_count q.
Proof.
  intros H. pose proof (queue_count_range k q H). destruct H.
  unfold queue_list. rewrite length_take, length_rotate. lia.
Qed.

Lemma queue_list_lookup k q (i : nat) :
  queue_wf k q → Z.of_nat i < queue_count q →
  queue_list q !! i =
    buf_data (q_buf q) !! Z.to_nat ((buf_consumer_index (q_buf q) + Z.of_nat i) mod 2 ^ k).
Proof.
  intros [Hg ? Hc] Hi. pose proof (queue_count_range k q Hg).
  pose proof (geom_data _ _ Hg). unfold queue_list.
  rewrite lookup_take_lt by lia. rewrite lookup_rotate_r by lia.
  unfold rotate_nat_add. do 2 f_equal. f_equal; lia.
Qed.

(** Two queues with the same count agree when their slots do. *)
Lemma queue_list_ext k q (l : list A) :
  queue_wf k q → Z.of_nat (length l) = queue_count q →
  (∀ i : nat, Z.of_nat i < queue_count q →
     buf_data (q_buf q) !! Z.to_nat ((buf_consumer_index (q_buf q) + Z.of_nat i) mod 2 ^ k)
     = l !! i) →
  queue_list q = l.
Proof.
  intros Hwf Hlen Hl. apply list_eq_same_length with (length l); [done| |].
  - pose proof (queue_list_length k q Hwf). lia.
  - intros i x y Hi Hx Hy. rewrite (queue_list_lookup k) in Hx by (done || lia).
    rewrite Hl in Hx by lia. congruence.
Qed.

Lemma queue_empty_count q : queue_empty q = (queue_count q =? 0).
Proof. done. Qed.

Lemma queue_full_count k q :
  queue_wf k q → queue_full q = (queue_count q =? 2 ^ k - 1).
Proof.
  intros [Hg Hp Hc]. pose proof (geom_pow _ _ Hg).
  rewrite (queue_count_mod k) by done. unfold queue_full.
  destruct Hg. rewrite geom_mask0, land_u32_mask by lia.
  apply eq_bool_prop_intro. rewrite !Is_true_true, !Z.eqb_eq.
  zify_mod; lia.
Qed.

(** Posting to a queue that is not full appends to its contents. *)
Lemma queue_push k q x :
  queue_wf k q → queue_full q = false →
  queue_wf k (advance_producer (store_at q (producer_addr q) x)) ∧
  queue_list (advance_producer (store_at q (producer_addr q) x)) = queue_list q ++ [x].
Proof.
  intros Hwf Hfull. rewrite (queue_full_count k) in Hfull by done.
  apply Z.eqb_neq in Hfull. pose proof (queue_list_length k q Hwf) as Hlen.
  pose proof (queue_count_mod k q Hwf) as Hcnt.
  pose proof (geom_pow _ _ Hwf). pose proof Hwf as [Hg Hp Hc].
  rewrite (store_at_producer k) by done. set (q' := advance_producer _).
  assert (Hp' : buf_producer_index (q_buf q') = (buf_producer_index (q_buf q) + 1) mod 2 ^ k).
  { destruct Hg. unfold q'. cbn. rewrite geom_mask0. apply land_u32_mask. lia. }
  assert (Hwf' : queue_wf k q').
  { split; [|rewrite Hp'; apply Z.mod_pos_bound; lia|done].
    destruct Hg; split; try done. cbn. by rewrite length_insert. }
  split; [done|]. assert (Hcnt' : queue_count q' = queue_count q + 1).
  { rewrite (queue_count_mod k q' Hwf'), Hp'. cbn. rewrite Hcnt in Hfull |- *. zify_mod; lia. }
  apply (queue_list_ext k); [done|rewrite length_app; cbn [length]; lia|].
  intros i Hi. cbn. destruct (decide (Z.of_nat i = queue_count q)) as [Hlast|n].
  - rewrite lookup_app_r, list_lookup_singleton by lia.
    replace (i - length (queue_list q))%nat with 0%nat by lia.
    rewrite Hlast, Hcnt. pose proof (geom_data _ _ Hg).
    rewrite <- (list_lookup_insert_eq (buf_data (q_buf q)) (Z.to_nat (buf_producer_index (q_buf q))) x) by lia.
    f_equal; [do 2 f_equal; zify_mod; lia|]. f_equal; zify_mod; lia.
  - rewrite lookup_app_l by lia. rewrite (queue_list_lookup k) by (done || lia).
    apply list_lookup_insert_ne. rewrite Hcnt', Hcnt in Hi. rewrite Hcnt in n.
    zify_mod; lia.
Qed.

(** The consumer takes the oldest element. *)
Lemma queue_pop k q :
  queue_wf k q → queue_empty q = false →
  ∃ x l, queue_list q = x :: l ∧
    elem_at q (consumer_addr q) = Some x ∧
    queue_wf k (advance_consumer q) ∧ queue_list (advance_consumer q) = l.
Proof.
  intros Hwf Hne. rewrite queue_empty_count in Hne. apply Z.eqb_neq in Hne.
  pose proof (queue_list_length k q Hwf) as Hlen.
  pose proof (queue_count_mod k q Hwf) as Hcnt.
  pose proof (queue_count_range k q Hwf) as Hr.
  pose proof (geom_pow _ _ Hwf). pose proof Hwf as [Hg Hp Hc].
  destruct (queue_list q) as [|x l] eqn:Hl; [cbn in Hlen; lia|].
  exists x, l. split; [done|]. split.
  { rewrite (elem_at_consumer k) by done. pose proof (queue_list_lookup k q 0 Hwf) as H0.
    rewrite Hl in H0. rewrite Z.add_0_r in H0. cbn in H0. symmetry. apply H0. lia. }
  set (q' := advance_consumer q).
  assert (Hc' : buf_consumer_index (q_buf q') = (buf_consumer_index (q_buf q) + 1) mod 2 ^ k).
  { destruct Hg. unfold q'. cbn. rewrite geom_mask0. apply land_u32_mask. lia. }
  assert (Hwf' : queue_wf k q').
  { split; [by destruct Hg; split|done|rewrite Hc'; apply Z.mod_pos_bound; lia]. }
  assert (Hcnt' : queue_count q' = queue_count q - 1).
  { rewrite (queue_count_mod k q' Hwf'), Hc'. cbn. rewrite Hcnt in Hne |- *. zify_mod; lia. }
  split; [done|]. apply (queue_list_ext k); [done|cbn [length] in Hlen; lia|].
  intros i Hi. pose proof (queue_list_lookup k q (S i) Hwf) as HS.
  rewrite Hl in HS. change ((x :: l) !! S i) with (l !! i) in HS. rewrite HS by lia.
  rewrite Hc'. cbn. rewrite Zplus_mod_idemp_l. do 3 f_equal. lia.
Qed.

(** Advancing the consumer, whatever the queue holds. *)
Lemma advance_consumer_wf k q :
  queue_wf k q →
  queue_wf k (advance_consumer q) ∧
  (1 ≤ queue_count q → queue_count (advance_consumer q) = queue_count q - 1).
Proof.
  intros Hwf. pose proof Hwf as [Hg Hp Hc]. pose proof (geom_pow _ _ Hg).
  assert (Hc' : buf_consumer_index (q_buf (advance_consumer q))
    = (buf_consumer_index (q_buf q) + 1) mod 2 ^ k).
  { destruct Hg. cbn. rewrite geom_mask0. apply land_u32_mask. lia. }
  assert (Hwf' : queue_wf k (advance_consumer q)).
  { split; [by destruct Hg; split|done|rewrite Hc'; apply Z.mod_pos_bound; lia]. }
  split; [done|]. intros H1. rewrite (queue_count_mod k _ Hwf'), Hc'.
  rewrite (queue_count_mod k _ Hwf) in H1 |- *. cbn. zify_mod; lia.
Qed.

(** Overwriting a slot in place keeps the geometry and the indices. *)
Lemma store_at_geom k q a x : queue_geom k q → queue_geom k (store_at q a x).
Proof. intros []. split; try done. cbn. by rewrite length_insert. Qed.

Lemma store_at_wf k q a x : queue_wf k q → queue_wf k (store_at q a x).
Proof. intros []. split; [by apply store_at_geom|done..]. Qed.

Lemma elem_at_store_is_Some q a b x : is_Some (elem_at q b) → is_Some (elem_at (store_at q a x) b).
Proof. unfold elem_at. cbn. rewrite !lookup_lt_is_Some, length_insert. done. Qed.

Lemma elem_at_store_eq q a x : is_Some (elem_at q a) → elem_at (store_at q a x) a = Some x.
Proof.
  unfold elem_at. cbn. intros Hl%lookup_lt_is_Some. by apply list_lookup_insert_eq.
Qed.

(** The consumer's view when the oldest element is changed in place. *)
Lemma queue_update_head k q x l y :
  queue_wf k q → queue_list q = x :: l →
  queue_list (store_at q (consumer_addr q) y) = y :: l.
Proof.
  intros Hwf Hl. pose proof (queue_list_length k q Hwf) as Hlen. rewrite Hl in Hlen.
  pose proof (queue_count_range k q Hwf). pose proof (geom_pow _ _ Hwf).
  pose proof (store_at_wf k q (consumer_addr q) y Hwf) as Hwf'. pose proof Hwf as [Hg Hp Hc].
  pose proof (geom_data _ _ Hg). apply (queue_list_ext k); [done|done|].
  change (queue_count (store_at q (consumer_addr q) y)) with (queue_count q).
  intros i Hi. unfold store_at. cbn. rewrite (consumer_slot k) by done.
  destruct i as [|i].
  - rewrite Z.add_0_r, (Z.mod_small (buf_consumer_index _)) by lia.
    by rewrite list_lookup_insert_eq by lia.
  - rewrite list_lookup_insert_ne by (zify_mod; lia).
    change ((y :: l) !! S i) with ((x :: l) !! S i). rewrite <- Hl.
    symmetry. by apply (queue_list_lookup k).
Qed.

(** The copies of the geometry that user space can write are intact. *)
Definition intact q : Prop :=
  buf_log2_elem_size (q_buf q) = q_log2_elem_size q ∧ buf_index_mask (q_buf q) = q_index_mask q.

(** The element [j] places behind the oldest one, by its index. *)
Lemma queue_at k q j y :
  queue_wf k q → intact q → (j < length (queue_list q))%nat →
  let a := addr_from_index q ((buf_consumer_index (q_buf q) + Z.of_nat j) mod 2 ^ k) in
  elem_at q a = queue_list q !! j ∧ queue_list (store_at q a y) = <[j := y]> (queue_list q).
Proof.
  intros Hwf [Hi _] Hj a. pose proof (queue_list_length k q Hwf) as Hlen.
  pose proof (queue_count_range k q Hwf). pose proof (geom_pow _ _ Hwf). pose proof Hwf as [Hg Hp Hc].
  assert (Hs : Z.shiftr a (q_log2_elem_size q) = (buf_consumer_index (q_buf q) + Z.of_nat j) mod 2 ^ k).
  { unfold a, addr_from_index. destruct Hg. rewrite Hi, geom_mask0, land_mask by lia.
    rewrite Z.mod_mod by lia. apply slot_addr; lia. }
  split.
  - unfold elem_at. rewrite Hs. symmetry. apply (queue_list_lookup k); [done|lia].
  - pose proof (store_at_wf k q a y Hwf) as Hwf'. apply (queue_list_ext k); [done|by rewrite length_insert|].
    change (queue_count (store_at q a y)) with (queue_count q).
    intros i Hii. unfold store_at. cbn. rewrite Hs. pose proof (geom_data _ _ Hg).
    pose proof (Z.mod_pos_bound (buf_consumer_index (q_buf q) + Z.of_nat j) (2 ^ k)).
    destruct (decide (i = j)) as [->|Hne].
    + rewrite !list_lookup_insert_eq by lia. done.
    + assert (Hm : ∀ i : nat, Z.of_nat i < 2 ^ k → ∃ m, (buf_consumer_index (q_buf q) + Z.of_nat i) mod 2 ^ k = m ∧
        0 ≤ m ∧ (m = buf_consumer_index (q_buf q) + Z.of_nat i ∨
                 m = buf_consumer_index (q_buf q) + Z.of_nat i - 2 ^ k)).
      { intros m Hlt. eexists. split; [done|]. zify_mod; lia. }
      destruct (Hm i) as (mi & Ei & ?); [lia|]. destruct (Hm j) as (mj & Ej & ?); [lia|]. rewrite Ei, Ej.
      rewrite !list_lookup_insert_ne by lia. rewrite <- Ei. symmetry. by apply (queue_list_lookup k).
Qed.

(** Walking the indices from the consumer's to the producer's. *)
Lemma queue_walk k q (j : nat) :
  queue_wf k q → intact q → Z.of_nat j ≤ queue_count q →
  next_index q ((buf_consumer_index (q_buf q) + Z.of_nat j) mod 2 ^ k)
    = (buf_consumer_index (q_buf q) + Z.of_nat (S j)) mod 2 ^ k ∧
  ((buf_consumer_index (q_buf q) + Z.of_nat j) mod 2 ^ k = producer_index q ↔ Z.of_nat j = queue_count q).
Proof.
  intros Hwf [_ Hi] Hj. pose proof (geom_pow _ _ Hwf). pose proof (queue_count_range k q Hwf) as Hr.
  rewrite (queue_count_mod k q Hwf) in Hj, Hr |- *. destruct Hwf as [[] Hp Hc]. split.
  - unfold next_index. rewrite Hi, geom_mask0, land_u32_mask by lia.
    rewrite Z.add_mod_idemp_l by lia. f_equal. lia.
  - unfold producer_index. zify_mod; lia.
Qed.

Lemma queue_head_cons k q x l :
  queue_wf k q → queue_list q = x :: l →
  queue_head q = Some (consumer_addr q) ∧ elem_at q (consumer_addr q) = Some x ∧
  queue_wf k (advance_consumer q) ∧ queue_list (advance_consumer q) = l.
Proof.
  intros Hwf Hl. assert (He : queue_empty q = false).
  { apply not_true_is_false. intros E. rewrite queue_empty_count in E. apply Z.eqb_eq in E.
    pose proof (queue_list_length k q Hwf) as Hlen. rewrite Hl, E in Hlen. cbn in Hlen. lia. }
  destruct (queue_pop k q Hwf He) as (x' & l' & Hl' & ? & ? & ?). rewrite Hl in Hl'. simplify_eq.
  unfold queue_head. by rewrite He.
Qed.

Lemma queue_head_nil k q : queue_wf k q → queue_list q = [] → queue_head q = None.
Proof.
  intros Hwf Hl. pose proof (queue_list_length k q Hwf) as Hlen. rewrite Hl in Hlen. cbn in Hlen.
  unfold queue_head. rewrite queue_empty_count, <- Hlen. done.
Qed.
End facts.

(** ** The interface the queue's clients rely on

    [RingFifo Q A] is a bounded queue of [A]: [ring_list] is its contents,
    oldest first, and [ring_wf n] says that it holds at most [n] elements.
    The kernel's queue and librxe's queue over the same buffer are instances. *)

Class RingFifo (Q A : Type) : Type := {
  ring_wf : Z → Q → Prop;
  ring_list : Q → list A;
  ring_empty : Q → bool;
  ring_full : Q → bool;
  ring_head : Q → option A;
  ring_post : Q → A → Q;
  ring_take : Q → Q;
  ring_bound n q : ring_wf n q → Z.of_nat (length (ring_list q)) ≤ n;
  ring_empty_spec n q : ring_wf n q → ring_empty q = true ↔ ring_list q = [];
  ring_full_spec n q :
    ring_wf n q → ring_full q = true ↔ Z.of_nat (length (ring_list q)) = n;
  ring_head_spec n q : ring_wf n q → ring_empty q = false → ring_head q = head (ring_list q);
  ring_post_spec n q x :
    ring_wf n q → ring_full q = false →
    ring_wf n (ring_post q x) ∧ ring_list (ring_post q x) = ring_list q ++ [x];
  ring_take_spec n q :
    ring_wf n q → ring_empty q = false →
    ring_wf n (ring_take q) ∧ ring_list (ring_take q) = tail (ring_list q)
}.

(** The producer's sequence (store at [producer_addr], then advance). *)
Definition queue_post {A} (q : rxe_queue A) (x : A) : rxe_queue A :=
  advance_producer (store_at q (producer_addr q) x).

Definition ring_slots {A} (n : Z) (q : rxe_queue A) : Prop :=
  ∃ k, queue_wf k q ∧ n = 2 ^ k - 1.

#[export] Program Instance rxe_queue_ring A : RingFifo (rxe_queue A) A := {|
  ring_wf := ring_slots;
  ring_list := queue_list;
  ring_empty := queue_empty;
  ring_full := queue_full;
  ring_head := fun q => elem_at q (consumer_addr q);
  ring_post := queue_post;
  ring_take := advance_consumer
|}.
Next Obligation.
  intros A n q (k & Hwf & ->). pose proof (queue_count_range k q Hwf).
  rewrite (queue_list_length k q) by apply Hwf. lia.
Qed.
Next Obligation.
  intros A n q (k & Hwf & ->). rewrite queue_empty_count, Z.eqb_eq.
  rewrite <- (queue_list_length k q) by apply Hwf.
  rewrite <- length_zero_iff_nil. lia.
Qed.
Next Obligation.
  intros A n q (k & Hwf & ->). rewrite (queue_full_count k), Z.eqb_eq by done.
  by rewrite (queue_list_length k q) by apply Hwf.
Qed.
Next Obligation.
  intros A n q (k & Hwf & ->) He.
  by destruct (queue_pop k q Hwf He) as (x & l & -> & -> & _).
Qed.
Next Obligation.
  intros A n q x (k & Hwf & ->) Hf.
  destruct (queue_push k q x Hwf Hf). split; [by exists k|done].
Qed.
Next Obligation.
  intros A n q (k & Hwf & ->) He.
  destruct (queue_pop k q Hwf He) as (x & l & -> & _ & Hwf' & ->).
  split; [by exists k|done].
Qed.

(** ** Traces: the ring against a list

    One producer or consumer step on the ring, guarded as the clients guard
    it, and the same step on a list of bounded length. *)

Inductive queue_op (A : Type) :=
  | OpPost (x : A)
  | OpTake.
Arguments OpPost {A} x.
Arguments OpTake {A}.

Definition ring_step {Q A} `{RingFifo Q A} (q : Q) (op : queue_op A) : Q * option A :=
  match op with
  | OpPost x => if ring_full q then (q, None) else (ring_post q x, Some x)
  | OpTake => if ring_empty q then (q, None) else (ring_take q, ring_head q)
  end.

Definition fifo_step {A} (n : Z) (l : list A) (op : queue_op A) : list A * option A :=
  match op, l with
  | OpPost x, _ => if Z.of_nat (length l) =? n then (l, None) else (l ++ [x], Some x)
  | OpTake, [] => ([], None)
  | OpTake, x :: l => (l, Some x)
  end.

Fixpoint run_ops {S A} (step : S → queue_op A → S * option A) (s : S)
    (ops : list (queue_op A)) : S * list (option A) :=
  match ops with
  | [] => (s, [])
  | op :: ops =>
      let '(s', r) := step s op in
      let '(s'', rs) := run_ops step s' ops in
      (s'', r :: rs)
  end.

Section refinement.
Context {Q A : Type} `{R : RingFifo Q A}.

Lemma ring_step_refines n q op :
  ring_wf n q →
  ring_wf n (ring_step q op).1 ∧
  fifo_step n (ring_list q) op = (ring_list (ring_step q op).1, (ring_step q op).2).
Proof.
  intros Hwf. destruct op as [x|]; cbn.
  - destruct (ring_full q) eqn:Hf; cbn.
    + apply (ring_full_spec n) in Hf; [|done]. rewrite Hf, Z.eqb_refl. done.
    + destruct (ring_post_spec n q x Hwf Hf) as [? ->].
      split; [done|]. case_eq (Z.of_nat (length (ring_list q)) =? n); [|done].
      intros E%Z.eqb_eq. apply (ring_full_spec n) in E; congruence.
  - destruct (ring_empty q) eqn:He; cbn.
    + apply (ring_empty_spec n) in He; [|done]. by rewrite He.
    + destruct (ring_take_spec n q Hwf He) as [? ->].
      rewrite (ring_head_spec n) by done. split; [done|].
      destruct (ring_list q) eqn:Hl; [|done].
      apply (ring_empty_spec n) in Hl; congruence.
Qed.

Lemma run_ops_refines n q ops :
  ring_wf n q →
  ring_wf n (run_ops ring_step q ops).1 ∧
  run_ops (fifo_step n) (ring_list q) ops =
    (ring_list (run_ops ring_step q ops).1, (run_ops ring_step q ops).2).
Proof.
  revert q. induction ops as [|op ops IH]; intros q Hwf; [done|]. cbn.
  destruct (ring_step_refines n q op Hwf) as [Hwf' ->].
  destruct (ring_step q op) as [q' r]. cbn in *.
  destruct (IH q' Hwf') as [? ->]. by destruct (run_ops ring_step q' ops).
Qed.
End refinement.

(** ** Creation *)

Lemma roundup_pow_of_two_spec n :
  1 ≤ n ≤ 2 ^ 31 →
  ∃ k, 0 ≤ k ≤ 31 ∧ roundup_pow_of_two n = 2 ^ k ∧ n ≤ 2 ^ k < 2 * n.
Proof.
  intros Hn. unfold roundup_pow_of_two, ulong, BITS_PER_LONG, fls_long.
  rewrite (Z.mod_small (n - 1)) by lia.
  destruct (Z.eqb_spec (n - 1) 0).
  - exists 0. assert (n = 1) by lia. subst n. split; [lia|]. done.
  - destruct (Z.log2_spec (n - 1)) as [Hl1 Hl2]; [lia|]. pose proof (Z.log2_nonneg (n - 1)).
    assert (Z.log2 (n - 1) < 31) by (apply Z.log2_lt_pow2; lia).
    exists (Z.log2 (n - 1) + 1). split; [lia|].
    rewrite Z.shiftl_mul_pow2, Z.mul_1_l by lia.
    rewrite Z.pow_succ_r in Hl2 by lia. rewrite Z.pow_add_r by lia.
    split; [|lia]. apply Z.mod_small. lia.
Qed.

(** [roundup_pow_of_two] and [order_base_2] are exact on powers of two. *)
Lemma roundup_pow_of_two_pow k :
  0 ≤ k ≤ 31 → roundup_pow_of_two (2 ^ k) = 2 ^ k.
Proof.
  intros Hk. assert (1 ≤ 2 ^ k) by (pose proof (Z.pow_pos_nonneg 2 k); lia).
  assert (2 ^ k ≤ 2 ^ 31) by (apply Z.pow_le_mono_r; lia).
  destruct (roundup_pow_of_two_spec (2 ^ k)) as (j & Hj & -> & Hle); [lia|].
  f_equal. apply Z.le_antisymm.
  - assert (2 ^ j < 2 ^ (k + 1)) by (rewrite Z.pow_add_r by lia; lia).
    apply Z.lt_succ_r, (Z.pow_lt_mono_r_iff 2); lia.
  - apply (Z.pow_le_mono_r_iff 2); lia.
Qed.

Section creation.
Context {A : Type} (zero : A) (cache_line_size : Z).
Implicit Types q : rxe_queue A.

(** The buffer size the two roundings ask for. *)
Definition queue_bytes (num_elem elem_size : Z) : Z :=
  sizeof_rxe_queue_buf +
  roundup_pow_of_two (num_elem + 1) *
  roundup_pow_of_two (Z.max elem_size cache_line_size).

Lemma rxe_queue_init_spec ptr num_elem elem_size :
  0 ≤ num_elem < 2 ^ 31 → 0 < elem_size ≤ 2 ^ 31 → cache_line_size ≤ 2 ^ 31 →
  queue_bytes num_elem elem_size < 2 ^ 32 →
  ∃ q n, rxe_queue_init zero cache_line_size true (Some ptr) num_elem elem_size = Some (q, n) ∧
    ring_wf n q ∧ ring_list q = [] ∧ num_elem ≤ n < 2 * num_elem + 1 ∧
    elem_size ≤ 2 ^ q_log2_elem_size q ∧ q_buf_ptr q = ptr ∧
    q_buf_size q = queue_bytes num_elem elem_size.
Proof.
  intros Hn He Hc Hfit. unfold queue_bytes, sizeof_rxe_queue_buf in *.
  destruct (roundup_pow_of_two_spec (num_elem + 1)) as (k & Hk & Hke & Hkb); [lia|].
  destruct (roundup_pow_of_two_spec (Z.max elem_size cache_line_size))
    as (l & Hl & Hle & Hlb); [lia|].
  assert (0 < 2 ^ k) by (apply Z.pow_pos_nonneg; lia).
  assert (0 < 2 ^ l) by (apply Z.pow_pos_nonneg; lia).
  assert (Hm : (if elem_size <? cache_line_size then cache_line_size else elem_size)
               = Z.max elem_size cache_line_size) by (case_match; lia).
  rewrite Hke, Hle in Hfit. unfold rxe_queue_init, order_base_2. rewrite Hm, Hle.
  rewrite (u32_small (num_elem + 1)), Hke by lia.
  assert (2 ^ k < 2 ^ 32) by (apply Z.pow_lt_mono_r; lia).
  assert (2 ^ l < 2 ^ 32) by (apply Z.pow_lt_mono_r; lia).
  rewrite !(u32_small (2 ^ _)) by lia.
  rewrite roundup_pow_of_two_pow, Z.log2_pow2 by lia.
  rewrite (u32_small (_ * _)), (u32_small (_ - 1)) by nia.
  unfold ulong, BITS_PER_LONG, sizeof_rxe_queue_buf. rewrite Z.mod_small by lia.
  destruct (Z.ltb_spec num_elem 0); [lia|]. cbn [negb].
  eexists _, _. split; [done|]. cbn [ring_wf ring_list rxe_queue_ring q_log2_elem_size].
  assert (Hroom : (384 + 2 ^ k * 2 ^ l - 384) / 2 ^ l = 2 ^ k).
  { replace (384 + 2 ^ k * 2 ^ l - 384) with (2 ^ k * 2 ^ l) by lia. apply Z.div_mul. lia. }
  split; [exists k; split; [|done]; split; [split|cbn; lia..]; cbn; try lia|].
  - assert (2 ^ (k + l) < 2 ^ 32) by (rewrite Z.pow_add_r by lia; lia).
    apply Z.lt_le_incl, (Z.pow_lt_mono_r_iff 2); lia.
  - rewrite length_replicate, Hroom. lia.
  - split; [|cbn; lia]. unfold queue_list, queue_count. cbn. by rewrite Z.land_0_l.
Qed.

Lemma rxe_queue_init_err vmalloc kmalloc_ok num_elem elem_size :
  kmalloc_ok = false ∨ vmalloc = None →
  rxe_queue_init zero cache_line_size kmalloc_ok vmalloc num_elem elem_size = None.
Proof.
  intros [-> | ->]; unfold rxe_queue_init; by repeat case_match.
Qed.

(** ** Resizing *)

Lemma resize_copy_spec m n q new_q :
  ring_wf m q → ring_wf n new_q →
  Z.of_nat (length (ring_list q)) + Z.of_nat (length (ring_list new_q)) ≤ n →
  ∃ q' new_q', resize_copy (length (ring_list q)) q new_q = Some (q', new_q') ∧
    ring_wf m q' ∧ ring_wf n new_q' ∧ ring_list q' = [] ∧
    ring_list new_q' = ring_list new_q ++ ring_list q ∧
    q_ip q' = q_ip q ∧ q_buf_ptr q' = q_buf_ptr q ∧
    q_ip new_q' = q_ip new_q ∧ q_buf_ptr new_q' = q_buf_ptr new_q.
Proof.
  remember (length (ring_list q)) as len eqn:Hlen.
  revert q new_q Hlen. induction len as [|len IH]; intros q new_q Hlen Hq Hnq Hfit.
  - assert (Hl : ring_list q = []) by (by apply length_zero_iff_nil).
    assert (He : queue_empty q = true) by (by apply (proj2 (ring_empty_spec m q Hq))).
    exists q, new_q. cbn [resize_copy]. rewrite He, Hl, app_nil_r. done.
  - assert (He : queue_empty q = false).
    { apply not_true_iff_false. intros He. apply (proj1 (ring_empty_spec m q Hq)) in He.
      rewrite He in Hlen. done. }
    assert (Hf : queue_full new_q = false).
    { apply not_true_iff_false. intros Hf. apply (proj1 (ring_full_spec n new_q Hnq)) in Hf. lia. }
    destruct (ring_take_spec m q Hq He) as [Hq' Htl].
    pose proof (ring_head_spec m q Hq He) as Hhd.
    cbn [resize_copy]. rewrite He. cbn [ring_head rxe_queue_ring] in Hhd. rewrite Hhd.
    destruct (ring_list q) as [|x l] eqn:Hl; [done|]. cbn in Hlen.
    destruct (ring_post_spec n new_q x Hnq Hf) as [Hnq' Happ].
    cbn [head]. cbn [ring_post ring_take ring_wf ring_list rxe_queue_ring] in *.
    cbn [tail] in Htl.
    destruct (IH (advance_consumer q) (queue_post new_q x)) as (q' & nq' & E & R);
      [rewrite Htl; congruence|done..|rewrite Happ, length_app; cbn; lia|].
    rewrite Htl in *. exists q', nq'. split; [exact E|].
    destruct R as (?&?&?&->&?). rewrite Happ, <- app_assoc. done.
Qed.

Lemma resize_finish_spec m n q new_q :
  ring_wf m q → ring_wf n new_q → ring_list new_q = [] →
  ∃ q' dead r, resize_finish q new_q n = Some (q', dead, r) ∧
    ring_list q' = ring_list q ∧
    ((Z.of_nat (length (ring_list q)) ≤ n ∧ r = Ok tt ∧ ring_wf n q' ∧
      q_ip q' = q_ip new_q ∧ q_buf_ptr q' = q_buf_ptr new_q ∧
      q_ip dead = q_ip q ∧ q_buf_ptr dead = q_buf_ptr q)
     ∨ (n < Z.of_nat (length (ring_list q)) ∧ r = Err EINVAL ∧ q' = q ∧ dead = new_q)).
Proof.
  intros Hq Hnq Hnil. pose proof Hq as (k & Hwf & _).
  pose proof (queue_list_length k q Hwf) as Hlen.
  pose proof (queue_count_range k q Hwf). unfold resize_finish.
  rewrite queue_empty_count, <- Hlen. change (queue_list q) with (ring_list q) in *.
  destruct (negb _ && _) eqn:Hb.
  - apply andb_true_iff in Hb as [_ Hlt%Z.ltb_lt].
    eexists _, _, _. split; [done|]. split; [done|]. right. done.
  - assert (Z.of_nat (length (ring_list q)) ≤ n).
    { apply andb_false_iff in Hb as [Hz|Hlt%Z.ltb_ge]; [|done].
      apply negb_false_iff, Z.eqb_eq in Hz. pose proof (ring_bound n new_q Hnq). lia. }
    rewrite Nat2Z.id.
    destruct (resize_copy_spec m n q new_q Hq Hnq) as (q' & nq' & -> & R);
      [rewrite Hnil; cbn [length]; lia|].
    destruct R as (? & ? & ? & Hl & ? & ? & ? & ?). rewrite Hnil in Hl.
    eexists _, _, _. split; [done|]. split; [done|]. left. done.
Qed.
End creation.

(** ** Properties *)

(** Against the operations the code performs, in any order, the ring of
    [2^k] slots behaves as a FIFO queue of at most [2^k - 1] elements: every
    post that the full test allows is delivered, once and in order, a post to
    a full queue and a take from an empty one change nothing. *)
Theorem queue_refines_fifo {A} k (q : rxe_queue A) (ops : list (queue_op A)) :
  queue_wf k q →
  queue_wf k (run_ops ring_step q ops).1 ∧
  run_ops (fifo_step (2 ^ k - 1)) (queue_list q) ops =
    (queue_list (run_ops ring_step q ops).1, (run_ops ring_step q ops).2).
Proof.
  intros Hwf. assert (Hr : ring_wf (2 ^ k - 1) q) by (by exists k).
  destruct (run_ops_refines _ _ ops Hr) as [(k' & Hwf' & Hk) E].
  split; [|exact E]. replace k with k'; [done|].
  pose proof (geom_k _ _ Hwf). pose proof (geom_k _ _ Hwf').
  apply (Z.pow_inj_r 2); lia.
Qed.

Definition example_queue : rxe_queue Z :=
  Queue (QueueBuf 6 3 1 3 [10; 11; 12; 13]) 4096 None (384 + 256) 64 6 3.

Lemma example_queue_wf : queue_wf 2 example_queue.
Proof. repeat split; cbn; lia. Qed.

Lemma queue_refines_fifo_witness :
  (run_ops ring_step example_queue [OpPost 14; OpPost 15; OpTake; OpTake]).2
  = [Some 14; None; Some 13; Some 10].
Proof.
  pose proof (queue_refines_fifo 2 example_queue
    [OpPost 14; OpPost 15; OpTake; OpTake] example_queue_wf) as [_ H].
  vm_compute in H. vm_compute. congruence.
Defined.

(** Whatever values user space leaves in the shared indices, the
    addresses the kernel computes from its own copy of the parameters lie in
    the data area: the element read and the slot written exist. *)
Theorem queue_addr_safe {A} k (q : rxe_queue A) (prod cons : Z) x :
  queue_geom k q →
  let q' := q <| q_buf ::= fun b => b <| buf_producer_index := u32 prod |>
                                      <| buf_consumer_index := u32 cons |> |> in
  is_Some (elem_at q' (consumer_addr q')) ∧
  elem_at (store_at q' (producer_addr q') x) (producer_addr q') = Some x ∧
  queue_wf k (advance_producer (advance_consumer q')).
Proof.
  intros Hg q'. pose proof (geom_pow _ _ Hg). pose proof (geom_data _ _ Hg).
  assert (Hg' : queue_geom k q') by (by destruct Hg; split).
  pose proof (Z.mod_pos_bound (u32 prod) (2 ^ k)).
  pose proof (Z.mod_pos_bound (u32 cons) (2 ^ k)).
  split; [|split].
  - rewrite (elem_at_consumer k) by done. apply lookup_lt_is_Some. cbn. lia.
  - apply list_lookup_insert_eq. rewrite (producer_slot k) by done. cbn. lia.
  - split; [by destruct Hg; split|..]; cbn;
      rewrite (geom_mask _ _ Hg), land_u32_mask by (destruct Hg; lia);
      apply Z.mod_pos_bound; lia.
Qed.

Lemma queue_addr_safe_witness :
  is_Some (elem_at example_queue (consumer_addr example_queue)).
Proof.
  destruct (queue_addr_safe 2 example_queue 1 3 0 example_queue_wf) as [H _].
  exact H.
Defined.

(** Resizing never loses, duplicates or reorders an element. The call
    returns (its copy loop ends), the contents are unchanged on every path,
    on success the capacity is at least the one asked for, on error the
    queue is the old one; it fails only when an allocation does or the
    elements do not fit; and of the old and the new buffer of a kernel queue
    exactly the one no longer in use is freed. *)
Theorem rxe_queue_resize_spec {A} (zero : A) cache_line_size env rxe
    (q : rxe_queue A) k ptr num_elem elem_size context :
  queue_wf k q → q_ip q = None → env_vmalloc env = Some ptr →
  0 ≤ num_elem < 2 ^ 31 → 0 < elem_size ≤ 2 ^ 31 → cache_line_size ≤ 2 ^ 31 →
  queue_bytes cache_line_size num_elem elem_size < 2 ^ 32 →
  ∃ rxe' q' n r,
    rxe_queue_resize zero cache_line_size env rxe q num_elem elem_size context None
      = Some (rxe', q', n, r) ∧
    queue_list q' = queue_list q ∧
    ((r = Ok tt ∧ env_kmalloc_queue env = true ∧ num_elem ≤ n ∧ ring_slots n q' ∧
      q_buf_ptr q' = ptr ∧ vfreed rxe' = q_buf_ptr q :: vfreed rxe)
     ∨ (r = Err ENOMEM ∧ env_kmalloc_queue env = false ∧ n = num_elem ∧ q' = q ∧ rxe' = rxe)
     ∨ (r = Err EINVAL ∧ num_elem < queue_count q ∧ n = num_elem ∧ q' = q ∧
        vfreed rxe' = ptr :: vfreed rxe)).
Proof.
  intros Hwf Hip Henv Hn He Hc Hfit. unfold rxe_queue_resize.
  destruct (env_kmalloc_queue env) eqn:Hk.
  - rewrite Henv.
    destruct (rxe_queue_init_spec zero cache_line_size ptr num_elem elem_size Hn He Hc Hfit)
      as (nq & n & -> & Hnwf & Hnil & Hcap & _ & Hptr & _). cbn [do_mmap_info].
    assert (Hrq : ring_wf (2 ^ k - 1) q) by (by exists k).
    pose proof (queue_list_length k q Hwf) as Hlen.
    destruct Hnwf as (k' & Hk' & Hn').
    assert (Hnq : ring_wf n (nq <| q_ip := None |>)).
    { exists k'. split; [|done]. destruct Hk' as [[] ??]. split; [split|..]; done. }
    destruct (resize_finish_spec _ n q (nq <| q_ip := None |>) Hrq Hnq)
      as (q' & dead & r & -> & Hl & [HR|HR]); [done|..].
    + destruct HR as (? & -> & ? & ? & ? & Hdip & Hdp).
      eexists _, _, _, _. split; [done|]. split; [done|]. left.
      unfold rxe_queue_cleanup. rewrite Hdip, Hip. cbn. rewrite Hdp.
      repeat split; try done; try lia. cbn in *. congruence.
    + destruct HR as (? & -> & -> & ->).
      eexists _, _, _, _. split; [done|]. split; [done|]. right. right.
      cbn. rewrite Hptr. cbn in *. repeat split; try done. lia.
  - unfold rxe_queue_init. destruct (Z.ltb_spec num_elem 0); [lia|].
    eexists _, _, _, _. split; [done|]. split; [done|]. right. left. done.
Qed.

Definition example_env : alloc_env := AllocEnv true (Some 8192) None true.

Lemma rxe_queue_resize_spec_witness :
  ∃ rxe' q' n, rxe_queue_resize 0 64 example_env (MmapDev 0 [] ∅ []) example_queue 5 64 0 None
    = Some (rxe', q', n, Ok tt) ∧ queue_list q' = [13; 10] ∧ n = 7.
Proof.
  destruct (rxe_queue_resize_spec 0 64 example_env (MmapDev 0 [] ∅ []) example_queue 2
    8192 5 64 0) as (rxe' & q' & n & r & E & Hl & _);
    [apply example_queue_wf|done|done|lia..|vm_compute; done|].
  vm_compute in E. injection E as <- <- <- <-. eexists _, _, _.
  split; [vm_compute; reflexivity|]. split; [exact Hl|done].
Defined.

(** [addr_from_index] shifts by the copy of [log2_elem_size] that user
    space can write. While that copy is intact the address is the slot of the
    masked index; after user space adds one to it, the address of the last
    slot is outside the data area. *)
Theorem addr_from_index_trusts_buf {A} k (q : rxe_queue A) index :
  queue_geom k q → 1 ≤ k → k + q_log2_elem_size q < 32 → 0 ≤ index →
  (buf_log2_elem_size (q_buf q) = q_log2_elem_size q →
   elem_at q (addr_from_index q index) = buf_data (q_buf q) !! Z.to_nat (index mod 2 ^ k)) ∧
  let q' := q <| q_buf ::= fun b => b <| buf_log2_elem_size := q_log2_elem_size q + 1 |> |> in
  elem_at q' (addr_from_index q' (2 ^ k - 1)) = None.
Proof.
  intros Hg Hk Hfit Hi. pose proof (geom_pow _ _ Hg). destruct Hg. split.
  - intros E. unfold elem_at, addr_from_index.
    by rewrite E, geom_mask0, land_mask, slot_addr by lia.
  - apply lookup_ge_None. unfold addr_from_index. cbn.
    rewrite geom_mask0, land_mask, Z.mod_small by lia.
    rewrite Z.shiftl_mul_pow2, Z.pow_add_r by lia.
    assert (0 < 2 ^ q_log2_elem_size q) by (apply Z.pow_pos_nonneg; lia).
    assert (2 ^ k * 2 ^ q_log2_elem_size q ≤ 2 ^ 31)
      by (rewrite <- Z.pow_add_r by lia; apply Z.pow_le_mono_r; lia).
    rewrite u32_small by nia. rewrite Z.shiftr_div_pow2 by lia.
    replace ((2 ^ k - 1) * (2 ^ q_log2_elem_size q * 2 ^ 1))
      with (((2 ^ k - 1) * 2) * 2 ^ q_log2_elem_size q) by lia.
    rewrite Z.div_mul by lia.
    assert (2 ^ 1 ≤ 2 ^ k) by (apply Z.pow_le_mono_r; lia). lia.
Qed.

Lemma addr_from_index_trusts_buf_witness :
  elem_at example_queue (addr_from_index example_queue 5) = Some 11.
Proof.
  destruct (addr_from_index_trusts_buf 2 example_queue 5) as [H _];
    [apply example_queue_wf|lia|vm_compute; done|lia|]. by apply H.
Defined.
