(* ===== verification/Opcode.v ===== *)
(** * Opcodes, header masks and the opcode tables

    The packet opcodes of include/rdma/ib_pack.h, the work request opcodes and
    queue pair types of include/rdma/ib_verbs.h, and the two tables of
    rxe_opcode.c: what a work request may do on a queue pair, and which
    headers a packet with a given opcode carries, at which offset. *)

From Stdlib Require Import String.
From S2P Require Import Prelude.

(** ** Packet opcodes (ib_pack.h) *)

Definition IB_OPCODE_RC : Z := 0.
Definition IB_OPCODE_UC : Z := 32.
Definition IB_OPCODE_RD : Z := 64.
Definition IB_OPCODE_UD : Z := 96.
Definition IB_OPCODE_CN : Z := 128.

Definition IB_OPCODE_SEND_FIRST : Z := 0.
Definition IB_OPCODE_SEND_MIDDLE : Z := 1.
Definition IB_OPCODE_SEND_LAST : Z := 2.
Definition IB_OPCODE_SEND_LAST_WITH_IMMEDIATE : Z := 3.
Definition IB_OPCODE_SEND_ONLY : Z := 4.
Definition IB_OPCODE_SEND_ONLY_WITH_IMMEDIATE : Z := 5.
Definition IB_OPCODE_RDMA_WRITE_FIRST : Z := 6.
Definition IB_OPCODE_RDMA_WRITE_MIDDLE : Z := 7.
Definition IB_OPCODE_RDMA_WRITE_LAST : Z := 8.
Definition IB_OPCODE_RDMA_WRITE_LAST_WITH_IMMEDIATE : Z := 9.
Definition IB_OPCODE_RDMA_WRITE_ONLY : Z := 10.
Definition IB_OPCODE_RDMA_WRITE_ONLY_WITH_IMMEDIATE : Z := 11.
Definition IB_OPCODE_RDMA_READ_REQUEST : Z := 12.
Definition IB_OPCODE_RDMA_READ_RESPONSE_FIRST : Z := 13.
Definition IB_OPCODE_RDMA_READ_RESPONSE_MIDDLE : Z := 14.
Definition IB_OPCODE_RDMA_READ_RESPONSE_LAST : Z := 15.
Definition IB_OPCODE_RDMA_READ_RESPONSE_ONLY : Z := 16.
Definition IB_OPCODE_ACKNOWLEDGE : Z := 17.
Definition IB_OPCODE_ATOMIC_ACKNOWLEDGE : Z := 18.
Definition IB_OPCODE_COMPARE_SWAP : Z := 19.
Definition IB_OPCODE_FETCH_ADD : Z := 20.
Definition IB_OPCODE_RESYNC : Z := 21.
Definition IB_OPCODE_SEND_LAST_INV : Z := 22.
Definition IB_OPCODE_SEND_ONLY_INV : Z := 23.
Definition IB_OPCODE_CNP : Z := 0.

Definition IB_OPCODE_RC_SEND_FIRST : Z := IB_OPCODE_RC + IB_OPCODE_SEND_FIRST.
Definition IB_OPCODE_RC_SEND_MIDDLE : Z := IB_OPCODE_RC + IB_OPCODE_SEND_MIDDLE.
Definition IB_OPCODE_RC_SEND_LAST : Z := IB_OPCODE_RC + IB_OPCODE_SEND_LAST.
Definition IB_OPCODE_RC_SEND_LAST_WITH_IMMEDIATE : Z :=
  IB_OPCODE_RC + IB_OPCODE_SEND_LAST_WITH_IMMEDIATE.
Definition IB_OPCODE_RC_SEND_ONLY : Z := IB_OPCODE_RC + IB_OPCODE_SEND_ONLY.
Definition IB_OPCODE_RC_SEND_ONLY_WITH_IMMEDIATE : Z :=
  IB_OPCODE_RC + IB_OPCODE_SEND_ONLY_WITH_IMMEDIATE.
Definition IB_OPCODE_RC_RDMA_WRITE_FIRST : Z :=
  IB_OPCODE_RC + IB_OPCODE_RDMA_WRITE_FIRST.
Definition IB_OPCODE_RC_RDMA_WRITE_MIDDLE : Z :=
  IB_OPCODE_RC + IB_OPCODE_RDMA_WRITE_MIDDLE.
Definition IB_OPCODE_RC_RDMA_WRITE_LAST : Z := IB_OPCODE_RC + IB_OPCODE_RDMA_WRITE_LAST.
Definition IB_OPCODE_RC_RDMA_WRITE_LAST_WITH_IMMEDIATE : Z :=
  IB_OPCODE_RC + IB_OPCODE_RDMA_WRITE_LAST_WITH_IMMEDIATE.
Definition IB_OPCODE_RC_RDMA_WRITE_ONLY : Z := IB_OPCODE_RC + IB_OPCODE_RDMA_WRITE_ONLY.
Definition IB_OPCODE_RC_RDMA_WRITE_ONLY_WITH_IMMEDIATE : Z :=
  IB_OPCODE_RC + IB_OPCODE_RDMA_WRITE_ONLY_WITH_IMMEDIATE.
Definition IB_OPCODE_RC_RDMA_READ_REQUEST : Z :=
  IB_OPCODE_RC + IB_OPCODE_RDMA_READ_REQUEST.
Definition IB_OPCODE_RC_RDMA_READ_RESPONSE_FIRST : Z :=
  IB_OPCODE_RC + IB_OPCODE_RDMA_READ_RESPONSE_FIRST.
Definition IB_OPCODE_RC_RDMA_READ_RESPONSE_MIDDLE : Z :=
  IB_OPCODE_RC + IB_OPCODE_RDMA_READ_RESPONSE_MIDDLE.
Definition IB_OPCODE_RC_RDMA_READ_RESPONSE_LAST : Z :=
  IB_OPCODE_RC + IB_OPCODE_RDMA_READ_RESPONSE_LAST.
Definition IB_OPCODE_RC_RDMA_READ_RESPONSE_ONLY : Z :=
  IB_OPCODE_RC + IB_OPCODE_RDMA_READ_RESPONSE_ONLY.
Definition IB_OPCODE_RC_ACKNOWLEDGE : Z := IB_OPCODE_RC + IB_OPCODE_ACKNOWLEDGE.
Definition IB_OPCODE_RC_ATOMIC_ACKNOWLEDGE : Z :=
  IB_OPCODE_RC + IB_OPCODE_ATOMIC_ACKNOWLEDGE.
Definition IB_OPCODE_RC_COMPARE_SWAP : Z := IB_OPCODE_RC + IB_OPCODE_COMPARE_SWAP.
Definition IB_OPCODE_RC_FETCH_ADD : Z := IB_OPCODE_RC + IB_OPCODE_FETCH_ADD.
Definition IB_OPCODE_RC_SEND_LAST_INV : Z := IB_OPCODE_RC + IB_OPCODE_SEND_LAST_INV.
Definition IB_OPCODE_RC_SEND_ONLY_INV : Z := IB_OPCODE_RC + IB_OPCODE_SEND_ONLY_INV.
Definition IB_OPCODE_UC_SEND_FIRST : Z := IB_OPCODE_UC + IB_OPCODE_SEND_FIRST.
Definition IB_OPCODE_UC_SEND_MIDDLE : Z := IB_OPCODE_UC + IB_OPCODE_SEND_MIDDLE.
Definition IB_OPCODE_UC_SEND_LAST : Z := IB_OPCODE_UC + IB_OPCODE_SEND_LAST.
Definition IB_OPCODE_UC_SEND_LAST_WITH_IMMEDIATE : Z :=
  IB_OPCODE_UC + IB_OPCODE_SEND_LAST_WITH_IMMEDIATE.
Definition IB_OPCODE_UC_SEND_ONLY : Z := IB_OPCODE_UC + IB_OPCODE_SEND_ONLY.
Definition IB_OPCODE_UC_SEND_ONLY_WITH_IMMEDIATE : Z :=
  IB_OPCODE_UC + IB_OPCODE_SEND_ONLY_WITH_IMMEDIATE.
Definition IB_OPCODE_UC_RDMA_WRITE_FIRST : Z :=
  IB_OPCODE_UC + IB_OPCODE_RDMA_WRITE_FIRST.
Definition IB_OPCODE_UC_RDMA_WRITE_MIDDLE : Z :=
  IB_OPCODE_UC + IB_OPCODE_RDMA_WRITE_MIDDLE.
Definition IB_OPCODE_UC_RDMA_WRITE_LAST : Z := IB_OPCODE_UC + IB_OPCODE_RDMA_WRITE_LAST.
Definition IB_OPCODE_UC_RDMA_WRITE_LAST_WITH_IMMEDIATE : Z :=
  IB_OPCODE_UC + IB_OPCODE_RDMA_WRITE_LAST_WITH_IMMEDIATE.
Definition IB_OPCODE_UC_RDMA_WRITE_ONLY : Z := IB_OPCODE_UC + IB_OPCODE_RDMA_WRITE_ONLY.
Definition IB_OPCODE_UC_RDMA_WRITE_ONLY_WITH_IMMEDIATE : Z :=
  IB_OPCODE_UC + IB_OPCODE_RDMA_WRITE_ONLY_WITH_IMMEDIATE.
Definition IB_OPCODE_RD_SEND_FIRST : Z := IB_OPCODE_RD + IB_OPCODE_SEND_FIRST.
Definition IB_OPCODE_RD_SEND_MIDDLE : Z := IB_OPCODE_RD + IB_OPCODE_SEND_MIDDLE.
Definition IB_OPCODE_RD_SEND_LAST : Z := IB_OPCODE_RD + IB_OPCODE_SEND_LAST.
Definition IB_OPCODE_RD_SEND_LAST_WITH_IMMEDIATE : Z :=
  IB_OPCODE_RD + IB_OPCODE_SEND_LAST_WITH_IMMEDIATE.
Definition IB_OPCODE_RD_SEND_ONLY : Z := IB_OPCODE_RD + IB_OPCODE_SEND_ONLY.
Definition IB_OPCODE_RD_SEND_ONLY_WITH_IMMEDIATE : Z :=
  IB_OPCODE_RD + IB_OPCODE_SEND_ONLY_WITH_IMMEDIATE.
Definition IB_OPCODE_RD_RDMA_WRITE_FIRST : Z :=
  IB_OPCODE_RD + IB_OPCODE_RDMA_WRITE_FIRST.
Definition IB_OPCODE_RD_RDMA_WRITE_MIDDLE : Z :=
  IB_OPCODE_RD + IB_OPCODE_RDMA_WRITE_MIDDLE.
Definition IB_OPCODE_RD_RDMA_WRITE_LAST : Z := IB_OPCODE_RD + IB_OPCODE_RDMA_WRITE_LAST.
Definition IB_OPCODE_RD_RDMA_WRITE_LAST_WITH_IMMEDIATE : Z :=
  IB_OPCODE_RD + IB_OPCODE_RDMA_WRITE_LAST_WITH_IMMEDIATE.
Definition IB_OPCODE_RD_RDMA_WRITE_ONLY : Z := IB_OPCODE_RD + IB_OPCODE_RDMA_WRITE_ONLY.
Definition IB_OPCODE_RD_RDMA_WRITE_ONLY_WITH_IMMEDIATE : Z :=
  IB_OPCODE_RD + IB_OPCODE_RDMA_WRITE_ONLY_WITH_IMMEDIATE.
Definition IB_OPCODE_RD_RDMA_READ_REQUEST : Z :=
  IB_OPCODE_RD + IB_OPCODE_RDMA_READ_REQUEST.
Definition IB_OPCODE_RD_RDMA_READ_RESPONSE_FIRST : Z :=
  IB_OPCODE_RD + IB_OPCODE_RDMA_READ_RESPONSE_FIRST.
Definition IB_OPCODE_RD_RDMA_READ_RESPONSE_MIDDLE : Z :=
  IB_OPCODE_RD + IB_OPCODE_RDMA_READ_RESPONSE_MIDDLE.
Definition IB_OPCODE_RD_RDMA_READ_RESPONSE_LAST : Z :=
  IB_OPCODE_RD + IB_OPCODE_RDMA_READ_RESPONSE_LAST.
Definition IB_OPCODE_RD_RDMA_READ_RESPONSE_ONLY : Z :=
  IB_OPCODE_RD + IB_OPCODE_RDMA_READ_RESPONSE_ONLY.
Definition IB_OPCODE_RD_ACKNOWLEDGE : Z := IB_OPCODE_RD + IB_OPCODE_ACKNOWLEDGE.
Definition IB_OPCODE_RD_ATOMIC_ACKNOWLEDGE : Z :=
  IB_OPCODE_RD + IB_OPCODE_ATOMIC_ACKNOWLEDGE.
Definition IB_OPCODE_RD_COMPARE_SWAP : Z := IB_OPCODE_RD + IB_OPCODE_COMPARE_SWAP.
Definition IB_OPCODE_RD_FETCH_ADD : Z := IB_OPCODE_RD + IB_OPCODE_FETCH_ADD.
Definition IB_OPCODE_RD_RESYNC : Z := IB_OPCODE_RD + IB_OPCODE_RESYNC.
Definition IB_OPCODE_UD_SEND_ONLY : Z := IB_OPCODE_UD + IB_OPCODE_SEND_ONLY.
Definition IB_OPCODE_UD_SEND_ONLY_WITH_IMMEDIATE : Z :=
  IB_OPCODE_UD + IB_OPCODE_SEND_ONLY_WITH_IMMEDIATE.
Definition IB_OPCODE_CN_CNP : Z := IB_OPCODE_CN + IB_OPCODE_CNP.

(** ** Work request opcodes and queue pair types (ib_verbs.h) *)

Definition IB_WR_RDMA_WRITE : Z := 0.
Definition IB_WR_RDMA_WRITE_WITH_IMM : Z := 1.
Definition IB_WR_SEND : Z := 2.
Definition IB_WR_SEND_WITH_IMM : Z := 3.
Definition IB_WR_RDMA_READ : Z := 4.
Definition IB_WR_ATOMIC_CMP_AND_SWP : Z := 5.
Definition IB_WR_ATOMIC_FETCH_AND_ADD : Z := 6.
Definition IB_WR_LSO : Z := 7.
Definition IB_WR_SEND_WITH_INV : Z := 8.
Definition IB_WR_RDMA_READ_WITH_INV : Z := 9.
Definition IB_WR_LOCAL_INV : Z := 10.
Definition IB_WR_FAST_REG_MR : Z := 11.

Definition IB_QPT_SMI : Z := 0.
Definition IB_QPT_GSI : Z := 1.
Definition IB_QPT_RC : Z := 2.
Definition IB_QPT_UC : Z := 3.
Definition IB_QPT_UD : Z := 4.
Definition IB_QPT_RAW_IPV6 : Z := 5.
Definition IB_QPT_RAW_ETHERTYPE : Z := 6.

(** ** Work request masks (enum rxe_wr_mask) *)

Definition WR_INLINE_MASK : Z := Z.shiftl 1 0.
Definition WR_ATOMIC_MASK : Z := Z.shiftl 1 1.
Definition WR_SEND_MASK : Z := Z.shiftl 1 2.
Definition WR_READ_MASK : Z := Z.shiftl 1 3.
Definition WR_WRITE_MASK : Z := Z.shiftl 1 4.
Definition WR_LOCAL_MASK : Z := Z.shiftl 1 5.
Definition WR_READ_OR_WRITE_MASK : Z := WR_READ_MASK .| WR_WRITE_MASK.
Definition WR_READ_WRITE_OR_SEND_MASK : Z := WR_READ_OR_WRITE_MASK .| WR_SEND_MASK.
Definition WR_WRITE_OR_SEND_MASK : Z := WR_WRITE_MASK .| WR_SEND_MASK.
Definition WR_ATOMIC_OR_READ_MASK : Z := WR_ATOMIC_MASK .| WR_READ_MASK.

(** ** Header types and packet masks (enum rxe_hdr_type, enum rxe_hdr_mask) *)

Inductive rxe_hdr_type : Type :=
  | RXE_LRH | RXE_GRH | RXE_BTH | RXE_RETH | RXE_AETH | RXE_ATMETH
  | RXE_ATMACK | RXE_IETH | RXE_RDETH | RXE_DETH | RXE_IMMDT | RXE_PAYLOAD.

#[export] Instance rxe_hdr_type_eq_dec : EqDecision rxe_hdr_type.
Proof. solve_decision. Defined.

Definition hdr_index (t : rxe_hdr_type) : Z :=
  match t with
  | RXE_LRH => 0 | RXE_GRH => 1 | RXE_BTH => 2 | RXE_RETH => 3 | RXE_AETH => 4
  | RXE_ATMETH => 5 | RXE_ATMACK => 6 | RXE_IETH => 7 | RXE_RDETH => 8
  | RXE_DETH => 9 | RXE_IMMDT => 10 | RXE_PAYLOAD => 11
  end.

Definition NUM_HDR_TYPES : Z := 12.

Definition RXE_LRH_MASK : Z := Z.shiftl 1 (hdr_index RXE_LRH).
Definition RXE_GRH_MASK : Z := Z.shiftl 1 (hdr_index RXE_GRH).
Definition RXE_BTH_MASK : Z := Z.shiftl 1 (hdr_index RXE_BTH).
Definition RXE_IMMDT_MASK : Z := Z.shiftl 1 (hdr_index RXE_IMMDT).
Definition RXE_RETH_MASK : Z := Z.shiftl 1 (hdr_index RXE_RETH).
Definition RXE_AETH_MASK : Z := Z.shiftl 1 (hdr_index RXE_AETH).
Definition RXE_ATMETH_MASK : Z := Z.shiftl 1 (hdr_index RXE_ATMETH).
Definition RXE_ATMACK_MASK : Z := Z.shiftl 1 (hdr_index RXE_ATMACK).
Definition RXE_IETH_MASK : Z := Z.shiftl 1 (hdr_index RXE_IETH).
Definition RXE_RDETH_MASK : Z := Z.shiftl 1 (hdr_index RXE_RDETH).
Definition RXE_DETH_MASK : Z := Z.shiftl 1 (hdr_index RXE_DETH).
Definition RXE_PAYLOAD_MASK : Z := Z.shiftl 1 (hdr_index RXE_PAYLOAD).

Definition RXE_REQ_MASK : Z := Z.shiftl 1 (NUM_HDR_TYPES + 0).
Definition RXE_ACK_MASK : Z := Z.shiftl 1 (NUM_HDR_TYPES + 1).
Definition RXE_SEND_MASK : Z := Z.shiftl 1 (NUM_HDR_TYPES + 2).
Definition RXE_WRITE_MASK : Z := Z.shiftl 1 (NUM_HDR_TYPES + 3).
Definition RXE_READ_MASK : Z := Z.shiftl 1 (NUM_HDR_TYPES + 4).
Definition RXE_ATOMIC_MASK : Z := Z.shiftl 1 (NUM_HDR_TYPES + 5).
Definition RXE_RWR_MASK : Z := Z.shiftl 1 (NUM_HDR_TYPES + 6).
Definition RXE_COMP_MASK : Z := Z.shiftl 1 (NUM_HDR_TYPES + 7).
Definition RXE_START_MASK : Z := Z.shiftl 1 (NUM_HDR_TYPES + 8).
Definition RXE_MIDDLE_MASK : Z := Z.shiftl 1 (NUM_HDR_TYPES + 9).
Definition RXE_END_MASK : Z := Z.shiftl 1 (NUM_HDR_TYPES + 10).
Definition RXE_CNP_MASK : Z := Z.shiftl 1 (NUM_HDR_TYPES + 11).
Definition RXE_LOOPBACK_MASK : Z := Z.shiftl 1 (NUM_HDR_TYPES + 12).
Definition RXE_READ_OR_ATOMIC : Z := RXE_READ_MASK .| RXE_ATOMIC_MASK.
Definition RXE_WRITE_OR_SEND : Z := RXE_WRITE_MASK .| RXE_SEND_MASK.

Definition OPCODE_NONE : Z := -1.
Definition RXE_NUM_OPCODE : Z := 256.

(** ** Header lengths (rxe_hdr.h) *)

Definition RXE_LRH_BYTES : Z := 8.
Definition RXE_GRH_BYTES : Z := 40.
Definition RXE_BTH_BYTES : Z := 12.
Definition RXE_DETH_BYTES : Z := 8.
Definition RXE_IMMDT_BYTES : Z := 4.
Definition RXE_RETH_BYTES : Z := 16.
Definition RXE_AETH_BYTES : Z := 4.
Definition RXE_ATMACK_BYTES : Z := 8.
Definition RXE_ATMETH_BYTES : Z := 28.
Definition RXE_IETH_BYTES : Z := 4.
Definition RXE_RDETH_BYTES : Z := 4.

(** ** The work request table

    [rxe_wr_opcode_info opcode qpt] is the mask of the entry; a queue pair
    type the entry does not list has mask 0. *)

Definition rxe_wr_opcode_info (opcode qpt : Z) : Z :=
  let rc := qpt =? IB_QPT_RC in
  let uc := qpt =? IB_QPT_UC in
  let ud := qpt =? IB_QPT_UD in
  let smi := qpt =? IB_QPT_SMI in
  let gsi := qpt =? IB_QPT_GSI in
  if one_of opcode [IB_WR_RDMA_WRITE; IB_WR_RDMA_WRITE_WITH_IMM] then
    if rc || uc then WR_INLINE_MASK .| WR_WRITE_MASK else 0
  else if one_of opcode [IB_WR_SEND; IB_WR_SEND_WITH_IMM] then
    if smi || gsi || rc || uc || ud then WR_INLINE_MASK .| WR_SEND_MASK else 0
  else if opcode =? IB_WR_RDMA_READ then
    if rc then WR_READ_MASK else 0
  else if one_of opcode [IB_WR_ATOMIC_CMP_AND_SWP; IB_WR_ATOMIC_FETCH_AND_ADD] then
    if rc then WR_ATOMIC_MASK else 0
  else if opcode =? IB_WR_SEND_WITH_INV then
    if rc || uc || ud then WR_INLINE_MASK .| WR_SEND_MASK else 0
  else if opcode =? IB_WR_RDMA_READ_WITH_INV then
    if rc then WR_READ_MASK .| WR_READ_MASK else 0
  else 0.

(** ** The packet opcode table *)

Record rxe_opcode_info := OpInfo {
  oi_name : string;
  oi_mask : Z;
  oi_length : Z;
  oi_offsets : list (rxe_hdr_type * Z)
}.

Definition rc_send_opcodes : list (Z * rxe_opcode_info) := [
  (IB_OPCODE_RC_SEND_FIRST,
   OpInfo "IB_OPCODE_RC_SEND_FIRST"
     (RXE_PAYLOAD_MASK .| RXE_REQ_MASK .| RXE_RWR_MASK .| RXE_SEND_MASK .| RXE_START_MASK)
     (RXE_BTH_BYTES)
     [(RXE_BTH, 0); (RXE_PAYLOAD, RXE_BTH_BYTES)]);
  (IB_OPCODE_RC_SEND_MIDDLE,
   OpInfo "IB_OPCODE_RC_SEND_MIDDLE]"
     (RXE_PAYLOAD_MASK .| RXE_REQ_MASK .| RXE_SEND_MASK .| RXE_MIDDLE_MASK)
     (RXE_BTH_BYTES)
     [(RXE_BTH, 0); (RXE_PAYLOAD, RXE_BTH_BYTES)]);
  (IB_OPCODE_RC_SEND_LAST,
   OpInfo "IB_OPCODE_RC_SEND_LAST"
     (RXE_PAYLOAD_MASK .| RXE_REQ_MASK .| RXE_COMP_MASK .| RXE_SEND_MASK .| RXE_END_MASK)
     (RXE_BTH_BYTES)
     [(RXE_BTH, 0); (RXE_PAYLOAD, RXE_BTH_BYTES)]);
  (IB_OPCODE_RC_SEND_LAST_WITH_IMMEDIATE,
   OpInfo "IB_OPCODE_RC_SEND_LAST_WITH_IMMEDIATE"
     (RXE_IMMDT_MASK .| RXE_PAYLOAD_MASK .| RXE_REQ_MASK .| RXE_COMP_MASK .| RXE_SEND_MASK
      .| RXE_END_MASK)
     (RXE_BTH_BYTES + RXE_IMMDT_BYTES)
     [(RXE_BTH, 0); (RXE_IMMDT, RXE_BTH_BYTES); (RXE_PAYLOAD, RXE_BTH_BYTES +
      RXE_IMMDT_BYTES)]);
  (IB_OPCODE_RC_SEND_ONLY,
   OpInfo "IB_OPCODE_RC_SEND_ONLY"
     (RXE_PAYLOAD_MASK .| RXE_REQ_MASK .| RXE_COMP_MASK .| RXE_RWR_MASK .| RXE_SEND_MASK .|
      RXE_START_MASK .| RXE_END_MASK)
     (RXE_BTH_BYTES)
     [(RXE_BTH, 0); (RXE_PAYLOAD, RXE_BTH_BYTES)]);
  (IB_OPCODE_RC_SEND_ONLY_WITH_IMMEDIATE,
   OpInfo "IB_OPCODE_RC_SEND_ONLY_WITH_IMMEDIATE"
     (RXE_IMMDT_MASK .| RXE_PAYLOAD_MASK .| RXE_REQ_MASK .| RXE_COMP_MASK .| RXE_RWR_MASK .|
      RXE_SEND_MASK .| RXE_START_MASK .| RXE_END_MASK)
     (RXE_BTH_BYTES + RXE_IMMDT_BYTES)
     [(RXE_BTH, 0); (RXE_IMMDT, RXE_BTH_BYTES); (RXE_PAYLOAD, RXE_BTH_BYTES +
      RXE_IMMDT_BYTES)])].

Definition rc_write_opcodes : list (Z * rxe_opcode_info) := [
  (IB_OPCODE_RC_RDMA_WRITE_FIRST,
   OpInfo "IB_OPCODE_RC_RDMA_WRITE_FIRST"
     (RXE_RETH_MASK .| RXE_PAYLOAD_MASK .| RXE_REQ_MASK .| RXE_WRITE_MASK .| RXE_START_MASK)
     (RXE_BTH_BYTES + RXE_RETH_BYTES)
     [(RXE_BTH, 0); (RXE_RETH, RXE_BTH_BYTES); (RXE_PAYLOAD, RXE_BTH_BYTES + RXE_RETH_BYTES)]);
  (IB_OPCODE_RC_RDMA_WRITE_MIDDLE,
   OpInfo "IB_OPCODE_RC_RDMA_WRITE_MIDDLE"
     (RXE_PAYLOAD_MASK .| RXE_REQ_MASK .| RXE_WRITE_MASK .| RXE_MIDDLE_MASK)
     (RXE_BTH_BYTES)
     [(RXE_BTH, 0); (RXE_PAYLOAD, RXE_BTH_BYTES)]);
  (IB_OPCODE_RC_RDMA_WRITE_LAST,
   OpInfo "IB_OPCODE_RC_RDMA_WRITE_LAST"
     (RXE_PAYLOAD_MASK .| RXE_REQ_MASK .| RXE_WRITE_MASK .| RXE_END_MASK)
     (RXE_BTH_BYTES)
     [(RXE_BTH, 0); (RXE_PAYLOAD, RXE_BTH_BYTES)]);
  (IB_OPCODE_RC_RDMA_WRITE_LAST_WITH_IMMEDIATE,
   OpInfo "IB_OPCODE_RC_RDMA_WRITE_LAST_WITH_IMMEDIATE"
     (RXE_IMMDT_MASK .| RXE_PAYLOAD_MASK .| RXE_REQ_MASK .| RXE_WRITE_MASK .| RXE_COMP_MASK
      .| RXE_RWR_MASK .| RXE_END_MASK)
     (RXE_BTH_BYTES + RXE_IMMDT_BYTES)
     [(RXE_BTH, 0); (RXE_IMMDT, RXE_BTH_BYTES); (RXE_PAYLOAD, RXE_BTH_BYTES +
      RXE_IMMDT_BYTES)]);
  (IB_OPCODE_RC_RDMA_WRITE_ONLY,
   OpInfo "IB_OPCODE_RC_RDMA_WRITE_ONLY"
     (RXE_RETH_MASK .| RXE_PAYLOAD_MASK .| RXE_REQ_MASK .| RXE_WRITE_MASK .| RXE_START_MASK
      .| RXE_END_MASK)
     (RXE_BTH_BYTES + RXE_RETH_BYTES)
     [(RXE_BTH, 0); (RXE_RETH, RXE_BTH_BYTES); (RXE_PAYLOAD, RXE_BTH_BYTES + RXE_RETH_BYTES)]);
  (IB_OPCODE_RC_RDMA_WRITE_ONLY_WITH_IMMEDIATE,
   OpInfo "IB_OPCODE_RC_RDMA_WRITE_ONLY_WITH_IMMEDIATE"
     (RXE_RETH_MASK .| RXE_IMMDT_MASK .| RXE_PAYLOAD_MASK .| RXE_REQ_MASK .| RXE_WRITE_MASK
      .| RXE_COMP_MASK .| RXE_RWR_MASK .| RXE_START_MASK .| RXE_END_MASK)
     (RXE_BTH_BYTES + RXE_IMMDT_BYTES + RXE_RETH_BYTES)
     [(RXE_BTH, 0); (RXE_RETH, RXE_BTH_BYTES); (RXE_IMMDT, RXE_BTH_BYTES + RXE_RETH_BYTES);
      (RXE_PAYLOAD, RXE_BTH_BYTES + RXE_RETH_BYTES + RXE_IMMDT_BYTES)])].

Definition rc_response_opcodes : list (Z * rxe_opcode_info) := [
  (IB_OPCODE_RC_RDMA_READ_REQUEST,
   OpInfo "IB_OPCODE_RC_RDMA_READ_REQUEST"
     (RXE_RETH_MASK .| RXE_REQ_MASK .| RXE_READ_MASK .| RXE_START_MASK .| RXE_END_MASK)
     (RXE_BTH_BYTES + RXE_RETH_BYTES)
     [(RXE_BTH, 0); (RXE_RETH, RXE_BTH_BYTES); (RXE_PAYLOAD, RXE_BTH_BYTES + RXE_RETH_BYTES)]);
  (IB_OPCODE_RC_RDMA_READ_RESPONSE_FIRST,
   OpInfo "IB_OPCODE_RC_RDMA_READ_RESPONSE_FIRST"
     (RXE_AETH_MASK .| RXE_PAYLOAD_MASK .| RXE_ACK_MASK .| RXE_START_MASK)
     (RXE_BTH_BYTES + RXE_AETH_BYTES)
     [(RXE_BTH, 0); (RXE_AETH, RXE_BTH_BYTES); (RXE_PAYLOAD, RXE_BTH_BYTES + RXE_AETH_BYTES)]);
  (IB_OPCODE_RC_RDMA_READ_RESPONSE_MIDDLE,
   OpInfo "IB_OPCODE_RC_RDMA_READ_RESPONSE_MIDDLE"
     (RXE_PAYLOAD_MASK .| RXE_ACK_MASK .| RXE_MIDDLE_MASK)
     (RXE_BTH_BYTES)
     [(RXE_BTH, 0); (RXE_PAYLOAD, RXE_BTH_BYTES)]);
  (IB_OPCODE_RC_RDMA_READ_RESPONSE_LAST,
   OpInfo "IB_OPCODE_RC_RDMA_READ_RESPONSE_LAST"
     (RXE_AETH_MASK .| RXE_PAYLOAD_MASK .| RXE_ACK_MASK .| RXE_END_MASK)
     (RXE_BTH_BYTES + RXE_AETH_BYTES)
     [(RXE_BTH, 0); (RXE_AETH, RXE_BTH_BYTES); (RXE_PAYLOAD, RXE_BTH_BYTES + RXE_AETH_BYTES)]);
  (IB_OPCODE_RC_RDMA_READ_RESPONSE_ONLY,
   OpInfo "IB_OPCODE_RC_RDMA_READ_RESPONSE_ONLY"
     (RXE_AETH_MASK .| RXE_PAYLOAD_MASK .| RXE_ACK_MASK .| RXE_START_MASK .| RXE_END_MASK)
     (RXE_BTH_BYTES + RXE_AETH_BYTES)
     [(RXE_BTH, 0); (RXE_AETH, RXE_BTH_BYTES); (RXE_PAYLOAD, RXE_BTH_BYTES + RXE_AETH_BYTES)]);
  (IB_OPCODE_RC_ACKNOWLEDGE,
   OpInfo "IB_OPCODE_RC_ACKNOWLEDGE"
     (RXE_AETH_MASK .| RXE_ACK_MASK .| RXE_START_MASK .| RXE_END_MASK)
     (RXE_BTH_BYTES + RXE_AETH_BYTES)
     [(RXE_BTH, 0); (RXE_AETH, RXE_BTH_BYTES); (RXE_PAYLOAD, RXE_BTH_BYTES + RXE_AETH_BYTES)]);
  (IB_OPCODE_RC_ATOMIC_ACKNOWLEDGE,
   OpInfo "IB_OPCODE_RC_ATOMIC_ACKNOWLEDGE"
     (RXE_AETH_MASK .| RXE_ATMACK_MASK .| RXE_ACK_MASK .| RXE_START_MASK .| RXE_END_MASK)
     (RXE_BTH_BYTES + RXE_ATMACK_BYTES + RXE_AETH_BYTES)
     [(RXE_BTH, 0); (RXE_AETH, RXE_BTH_BYTES); (RXE_ATMACK, RXE_BTH_BYTES + RXE_AETH_BYTES);
      (RXE_PAYLOAD, RXE_BTH_BYTES + RXE_ATMACK_BYTES + RXE_AETH_BYTES)])].

Definition rc_atomic_opcodes : list (Z * rxe_opcode_info) := [
  (IB_OPCODE_RC_COMPARE_SWAP,
   OpInfo "IB_OPCODE_RC_COMPARE_SWAP"
     (RXE_ATMETH_MASK .| RXE_REQ_MASK .| RXE_ATOMIC_MASK .| RXE_START_MASK .| RXE_END_MASK)
     (RXE_BTH_BYTES + RXE_ATMETH_BYTES)
     [(RXE_BTH, 0); (RXE_ATMETH, RXE_BTH_BYTES); (RXE_PAYLOAD, RXE_BTH_BYTES +
      RXE_ATMETH_BYTES)]);
  (IB_OPCODE_RC_FETCH_ADD,
   OpInfo "IB_OPCODE_RC_FETCH_ADD"
     (RXE_ATMETH_MASK .| RXE_REQ_MASK .| RXE_ATOMIC_MASK .| RXE_START_MASK .| RXE_END_MASK)
     (RXE_BTH_BYTES + RXE_ATMETH_BYTES)
     [(RXE_BTH, 0); (RXE_ATMETH, RXE_BTH_BYTES); (RXE_PAYLOAD, RXE_BTH_BYTES +
      RXE_ATMETH_BYTES)]);
  (IB_OPCODE_RC_SEND_LAST_INV,
   OpInfo "IB_OPCODE_RC_SEND_LAST_INV"
     (RXE_IETH_MASK .| RXE_PAYLOAD_MASK .| RXE_REQ_MASK .| RXE_COMP_MASK .| RXE_SEND_MASK .|
      RXE_END_MASK)
     (RXE_BTH_BYTES + RXE_IETH_BYTES)
     [(RXE_BTH, 0); (RXE_IETH, RXE_BTH_BYTES); (RXE_PAYLOAD, RXE_BTH_BYTES + RXE_IETH_BYTES)]);
  (IB_OPCODE_RC_SEND_ONLY_INV,
   OpInfo "IB_OPCODE_RC_SEND_ONLY_INV"
     (RXE_IETH_MASK .| RXE_PAYLOAD_MASK .| RXE_REQ_MASK .| RXE_COMP_MASK .| RXE_RWR_MASK .|
      RXE_SEND_MASK .| RXE_END_MASK)
     (RXE_BTH_BYTES + RXE_IETH_BYTES)
     [(RXE_BTH, 0); (RXE_IETH, RXE_BTH_BYTES); (RXE_PAYLOAD, RXE_BTH_BYTES + RXE_IETH_BYTES)])].

Definition uc_send_opcodes : list (Z * rxe_opcode_info) := [
  (IB_OPCODE_UC_SEND_FIRST,
   OpInfo "IB_OPCODE_UC_SEND_FIRST"
     (RXE_PAYLOAD_MASK .| RXE_REQ_MASK .| RXE_RWR_MASK .| RXE_SEND_MASK .| RXE_START_MASK)
     (RXE_BTH_BYTES)
     [(RXE_BTH, 0); (RXE_PAYLOAD, RXE_BTH_BYTES)]);
  (IB_OPCODE_UC_SEND_MIDDLE,
   OpInfo "IB_OPCODE_UC_SEND_MIDDLE"
     (RXE_PAYLOAD_MASK .| RXE_REQ_MASK .| RXE_SEND_MASK .| RXE_MIDDLE_MASK)
     (RXE_BTH_BYTES)
     [(RXE_BTH, 0); (RXE_PAYLOAD, RXE_BTH_BYTES)]);
  (IB_OPCODE_UC_SEND_LAST,
   OpInfo "IB_OPCODE_UC_SEND_LAST"
     (RXE_PAYLOAD_MASK .| RXE_REQ_MASK .| RXE_COMP_MASK .| RXE_SEND_MASK .| RXE_END_MASK)
     (RXE_BTH_BYTES)
     [(RXE_BTH, 0); (RXE_PAYLOAD, RXE_BTH_BYTES)]);
  (IB_OPCODE_UC_SEND_LAST_WITH_IMMEDIATE,
   OpInfo "IB_OPCODE_UC_SEND_LAST_WITH_IMMEDIATE"
     (RXE_IMMDT_MASK .| RXE_PAYLOAD_MASK .| RXE_REQ_MASK .| RXE_COMP_MASK .| RXE_SEND_MASK
      .| RXE_END_MASK)
     (RXE_BTH_BYTES + RXE_IMMDT_BYTES)
     [(RXE_BTH, 0); (RXE_IMMDT, RXE_BTH_BYTES); (RXE_PAYLOAD, RXE_BTH_BYTES +
      RXE_IMMDT_BYTES)]);
  (IB_OPCODE_UC_SEND_ONLY,
   OpInfo "IB_OPCODE_UC_SEND_ONLY"
     (RXE_PAYLOAD_MASK .| RXE_REQ_MASK .| RXE_COMP_MASK .| RXE_RWR_MASK .| RXE_SEND_MASK .|
      RXE_START_MASK .| RXE_END_MASK)
     (RXE_BTH_BYTES)
     [(RXE_BTH, 0); (RXE_PAYLOAD, RXE_BTH_BYTES)]);
  (IB_OPCODE_UC_SEND_ONLY_WITH_IMMEDIATE,
   OpInfo "IB_OPCODE_UC_SEND_ONLY_WITH_IMMEDIATE"
     (RXE_IMMDT_MASK .| RXE_PAYLOAD_MASK .| RXE_REQ_MASK .| RXE_COMP_MASK .| RXE_RWR_MASK .|
      RXE_SEND_MASK .| RXE_START_MASK .| RXE_END_MASK)
     (RXE_BTH_BYTES + RXE_IMMDT_BYTES)
     [(RXE_BTH, 0); (RXE_IMMDT, RXE_BTH_BYTES); (RXE_PAYLOAD, RXE_BTH_BYTES +
      RXE_IMMDT_BYTES)])].

Definition uc_write_opcodes : list (Z * rxe_opcode_info) := [
  (IB_OPCODE_UC_RDMA_WRITE_FIRST,
   OpInfo "IB_OPCODE_UC_RDMA_WRITE_FIRST"
     (RXE_RETH_MASK .| RXE_PAYLOAD_MASK .| RXE_REQ_MASK .| RXE_WRITE_MASK .| RXE_START_MASK)
     (RXE_BTH_BYTES + RXE_RETH_BYTES)
     [(RXE_BTH, 0); (RXE_RETH, RXE_BTH_BYTES); (RXE_PAYLOAD, RXE_BTH_BYTES + RXE_RETH_BYTES)]);
  (IB_OPCODE_UC_RDMA_WRITE_MIDDLE,
   OpInfo "IB_OPCODE_UC_RDMA_WRITE_MIDDLE"
     (RXE_PAYLOAD_MASK .| RXE_REQ_MASK .| RXE_WRITE_MASK .| RXE_MIDDLE_MASK)
     (RXE_BTH_BYTES)
     [(RXE_BTH, 0); (RXE_PAYLOAD, RXE_BTH_BYTES)]);
  (IB_OPCODE_UC_RDMA_WRITE_LAST,
   OpInfo "IB_OPCODE_UC_RDMA_WRITE_LAST"
     (RXE_PAYLOAD_MASK .| RXE_REQ_MASK .| RXE_WRITE_MASK .| RXE_END_MASK)
     (RXE_BTH_BYTES)
     [(RXE_BTH, 0); (RXE_PAYLOAD, RXE_BTH_BYTES)]);
  (IB_OPCODE_UC_RDMA_WRITE_LAST_WITH_IMMEDIATE,
   OpInfo "IB_OPCODE_UC_RDMA_WRITE_LAST_WITH_IMMEDIATE"
     (RXE_IMMDT_MASK .| RXE_PAYLOAD_MASK .| RXE_REQ_MASK .| RXE_WRITE_MASK .| RXE_COMP_MASK
      .| RXE_RWR_MASK .| RXE_END_MASK)
     (RXE_BTH_BYTES + RXE_IMMDT_BYTES)
     [(RXE_BTH, 0); (RXE_IMMDT, RXE_BTH_BYTES); (RXE_PAYLOAD, RXE_BTH_BYTES +
      RXE_IMMDT_BYTES)]);
  (IB_OPCODE_UC_RDMA_WRITE_ONLY,
   OpInfo "IB_OPCODE_UC_RDMA_WRITE_ONLY"
     (RXE_RETH_MASK .| RXE_PAYLOAD_MASK .| RXE_REQ_MASK .| RXE_WRITE_MASK .| RXE_START_MASK
      .| RXE_END_MASK)
     (RXE_BTH_BYTES + RXE_RETH_BYTES)
     [(RXE_BTH, 0); (RXE_RETH, RXE_BTH_BYTES); (RXE_PAYLOAD, RXE_BTH_BYTES + RXE_RETH_BYTES)]);
  (IB_OPCODE_UC_RDMA_WRITE_ONLY_WITH_IMMEDIATE,
   OpInfo "IB_OPCODE_UC_RDMA_WRITE_ONLY_WITH_IMMEDIATE"
     (RXE_RETH_MASK .| RXE_IMMDT_MASK .| RXE_PAYLOAD_MASK .| RXE_REQ_MASK .| RXE_WRITE_MASK
      .| RXE_COMP_MASK .| RXE_RWR_MASK .| RXE_START_MASK .| RXE_END_MASK)
     (RXE_BTH_BYTES + RXE_IMMDT_BYTES + RXE_RETH_BYTES)
     [(RXE_BTH, 0); (RXE_RETH, RXE_BTH_BYTES); (RXE_IMMDT, RXE_BTH_BYTES + RXE_RETH_BYTES);
      (RXE_PAYLOAD, RXE_BTH_BYTES + RXE_RETH_BYTES + RXE_IMMDT_BYTES)])].

Definition rd_send_opcodes : list (Z * rxe_opcode_info) := [
  (IB_OPCODE_RD_SEND_FIRST,
   OpInfo "IB_OPCODE_RD_SEND_FIRST"
     (RXE_RDETH_MASK .| RXE_DETH_MASK .| RXE_PAYLOAD_MASK .| RXE_REQ_MASK .| RXE_RWR_MASK .|
      RXE_SEND_MASK .| RXE_START_MASK)
     (RXE_BTH_BYTES + RXE_DETH_BYTES + RXE_RDETH_BYTES)
     [(RXE_BTH, 0); (RXE_RDETH, RXE_BTH_BYTES); (RXE_DETH, RXE_BTH_BYTES + RXE_RDETH_BYTES);
      (RXE_PAYLOAD, RXE_BTH_BYTES + RXE_RDETH_BYTES + RXE_DETH_BYTES)]);
  (IB_OPCODE_RD_SEND_MIDDLE,
   OpInfo "IB_OPCODE_RD_SEND_MIDDLE"
     (RXE_RDETH_MASK .| RXE_DETH_MASK .| RXE_PAYLOAD_MASK .| RXE_REQ_MASK .| RXE_SEND_MASK
      .| RXE_MIDDLE_MASK)
     (RXE_BTH_BYTES + RXE_DETH_BYTES + RXE_RDETH_BYTES)
     [(RXE_BTH, 0); (RXE_RDETH, RXE_BTH_BYTES); (RXE_DETH, RXE_BTH_BYTES + RXE_RDETH_BYTES);
      (RXE_PAYLOAD, RXE_BTH_BYTES + RXE_RDETH_BYTES + RXE_DETH_BYTES)]);
  (IB_OPCODE_RD_SEND_LAST,
   OpInfo "IB_OPCODE_RD_SEND_LAST"
     (RXE_RDETH_MASK .| RXE_DETH_MASK .| RXE_PAYLOAD_MASK .| RXE_REQ_MASK .| RXE_COMP_MASK
      .| RXE_SEND_MASK .| RXE_END_MASK)
     (RXE_BTH_BYTES + RXE_DETH_BYTES + RXE_RDETH_BYTES)
     [(RXE_BTH, 0); (RXE_RDETH, RXE_BTH_BYTES); (RXE_DETH, RXE_BTH_BYTES + RXE_RDETH_BYTES);
      (RXE_PAYLOAD, RXE_BTH_BYTES + RXE_RDETH_BYTES + RXE_DETH_BYTES)]);
  (IB_OPCODE_RD_SEND_LAST_WITH_IMMEDIATE,
   OpInfo "IB_OPCODE_RD_SEND_LAST_WITH_IMMEDIATE"
     (RXE_RDETH_MASK .| RXE_DETH_MASK .| RXE_IMMDT_MASK .| RXE_PAYLOAD_MASK .| RXE_REQ_MASK
      .| RXE_COMP_MASK .| RXE_SEND_MASK .| RXE_END_MASK)
     (RXE_BTH_BYTES + RXE_IMMDT_BYTES + RXE_DETH_BYTES + RXE_RDETH_BYTES)
     [(RXE_BTH, 0); (RXE_RDETH, RXE_BTH_BYTES); (RXE_DETH, RXE_BTH_BYTES + RXE_RDETH_BYTES);
      (RXE_IMMDT, RXE_BTH_BYTES + RXE_RDETH_BYTES + RXE_DETH_BYTES); (RXE_PAYLOAD,
      RXE_BTH_BYTES + RXE_RDETH_BYTES + RXE_DETH_BYTES + RXE_IMMDT_BYTES)]);
  (IB_OPCODE_RD_SEND_ONLY,
   OpInfo "IB_OPCODE_RD_SEND_ONLY"
     (RXE_RDETH_MASK .| RXE_DETH_MASK .| RXE_PAYLOAD_MASK .| RXE_REQ_MASK .| RXE_COMP_MASK
      .| RXE_RWR_MASK .| RXE_SEND_MASK .| RXE_START_MASK .| RXE_END_MASK)
     (RXE_BTH_BYTES + RXE_DETH_BYTES + RXE_RDETH_BYTES)
     [(RXE_BTH, 0); (RXE_RDETH, RXE_BTH_BYTES); (RXE_DETH, RXE_BTH_BYTES + RXE_RDETH_BYTES);
      (RXE_PAYLOAD, RXE_BTH_BYTES + RXE_RDETH_BYTES + RXE_DETH_BYTES)]);
  (IB_OPCODE_RD_SEND_ONLY_WITH_IMMEDIATE,
   OpInfo "IB_OPCODE_RD_SEND_ONLY_WITH_IMMEDIATE"
     (RXE_RDETH_MASK .| RXE_DETH_MASK .| RXE_IMMDT_MASK .| RXE_PAYLOAD_MASK .| RXE_REQ_MASK
      .| RXE_COMP_MASK .| RXE_RWR_MASK .| RXE_SEND_MASK .| RXE_START_MASK .| RXE_END_MASK)
     (RXE_BTH_BYTES + RXE_IMMDT_BYTES + RXE_DETH_BYTES + RXE_RDETH_BYTES)
     [(RXE_BTH, 0); (RXE_RDETH, RXE_BTH_BYTES); (RXE_DETH, RXE_BTH_BYTES + RXE_RDETH_BYTES);
      (RXE_IMMDT, RXE_BTH_BYTES + RXE_RDETH_BYTES + RXE_DETH_BYTES); (RXE_PAYLOAD,
      RXE_BTH_BYTES + RXE_RDETH_BYTES + RXE_DETH_BYTES + RXE_IMMDT_BYTES)])].

Definition rd_write_opcodes : list (Z * rxe_opcode_info) := [
  (IB_OPCODE_RD_RDMA_WRITE_FIRST,
   OpInfo "IB_OPCODE_RD_RDMA_WRITE_FIRST"
     (RXE_RDETH_MASK .| RXE_DETH_MASK .| RXE_RETH_MASK .| RXE_PAYLOAD_MASK .| RXE_REQ_MASK
      .| RXE_WRITE_MASK .| RXE_START_MASK)
     (RXE_BTH_BYTES + RXE_RETH_BYTES + RXE_DETH_BYTES + RXE_RDETH_BYTES)
     [(RXE_BTH, 0); (RXE_RDETH, RXE_BTH_BYTES); (RXE_DETH, RXE_BTH_BYTES + RXE_RDETH_BYTES);
      (RXE_RETH, RXE_BTH_BYTES + RXE_RDETH_BYTES + RXE_DETH_BYTES); (RXE_PAYLOAD,
      RXE_BTH_BYTES + RXE_RDETH_BYTES + RXE_DETH_BYTES + RXE_RETH_BYTES)]);
  (IB_OPCODE_RD_RDMA_WRITE_MIDDLE,
   OpInfo "IB_OPCODE_RD_RDMA_WRITE_MIDDLE"
     (RXE_RDETH_MASK .| RXE_DETH_MASK .| RXE_PAYLOAD_MASK .| RXE_REQ_MASK .| RXE_WRITE_MASK
      .| RXE_MIDDLE_MASK)
     (RXE_BTH_BYTES + RXE_DETH_BYTES + RXE_RDETH_BYTES)
     [(RXE_BTH, 0); (RXE_RDETH, RXE_BTH_BYTES); (RXE_DETH, RXE_BTH_BYTES + RXE_RDETH_BYTES);
      (RXE_PAYLOAD, RXE_BTH_BYTES + RXE_RDETH_BYTES + RXE_DETH_BYTES)]);
  (IB_OPCODE_RD_RDMA_WRITE_LAST,
   OpInfo "IB_OPCODE_RD_RDMA_WRITE_LAST"
     (RXE_RDETH_MASK .| RXE_DETH_MASK .| RXE_PAYLOAD_MASK .| RXE_REQ_MASK .| RXE_WRITE_MASK
      .| RXE_END_MASK)
     (RXE_BTH_BYTES + RXE_DETH_BYTES + RXE_RDETH_BYTES)
     [(RXE_BTH, 0); (RXE_RDETH, RXE_BTH_BYTES); (RXE_DETH, RXE_BTH_BYTES + RXE_RDETH_BYTES);
      (RXE_PAYLOAD, RXE_BTH_BYTES + RXE_RDETH_BYTES + RXE_DETH_BYTES)]);
  (IB_OPCODE_RD_RDMA_WRITE_LAST_WITH_IMMEDIATE,
   OpInfo "IB_OPCODE_RD_RDMA_WRITE_LAST_WITH_IMMEDIATE"
     (RXE_RDETH_MASK .| RXE_DETH_MASK .| RXE_IMMDT_MASK .| RXE_PAYLOAD_MASK .| RXE_REQ_MASK
      .| RXE_WRITE_MASK .| RXE_COMP_MASK .| RXE_RWR_MASK .| RXE_END_MASK)
     (RXE_BTH_BYTES + RXE_IMMDT_BYTES + RXE_DETH_BYTES + RXE_RDETH_BYTES)
     [(RXE_BTH, 0); (RXE_RDETH, RXE_BTH_BYTES); (RXE_DETH, RXE_BTH_BYTES + RXE_RDETH_BYTES);
      (RXE_IMMDT, RXE_BTH_BYTES + RXE_RDETH_BYTES + RXE_DETH_BYTES); (RXE_PAYLOAD,
      RXE_BTH_BYTES + RXE_RDETH_BYTES + RXE_DETH_BYTES + RXE_IMMDT_BYTES)]);
  (IB_OPCODE_RD_RDMA_WRITE_ONLY,
   OpInfo "IB_OPCODE_RD_RDMA_WRITE_ONLY"
     (RXE_RDETH_MASK .| RXE_DETH_MASK .| RXE_RETH_MASK .| RXE_PAYLOAD_MASK .| RXE_REQ_MASK
      .| RXE_WRITE_MASK .| RXE_START_MASK .| RXE_END_MASK)
     (RXE_BTH_BYTES + RXE_RETH_BYTES + RXE_DETH_BYTES + RXE_RDETH_BYTES)
     [(RXE_BTH, 0); (RXE_RDETH, RXE_BTH_BYTES); (RXE_DETH, RXE_BTH_BYTES + RXE_RDETH_BYTES);
      (RXE_RETH, RXE_BTH_BYTES + RXE_RDETH_BYTES + RXE_DETH_BYTES); (RXE_PAYLOAD,
      RXE_BTH_BYTES + RXE_RDETH_BYTES + RXE_DETH_BYTES + RXE_RETH_BYTES)]);
  (IB_OPCODE_RD_RDMA_WRITE_ONLY_WITH_IMMEDIATE,
   OpInfo "IB_OPCODE_RD_RDMA_WRITE_ONLY_WITH_IMMEDIATE"
     (RXE_RDETH_MASK .| RXE_DETH_MASK .| RXE_RETH_MASK .| RXE_IMMDT_MASK .| RXE_PAYLOAD_MASK
      .| RXE_REQ_MASK .| RXE_WRITE_MASK .| RXE_COMP_MASK .| RXE_RWR_MASK .| RXE_START_MASK
      .| RXE_END_MASK)
     (RXE_BTH_BYTES + RXE_IMMDT_BYTES + RXE_RETH_BYTES + RXE_DETH_BYTES + RXE_RDETH_BYTES)
     [(RXE_BTH, 0); (RXE_RDETH, RXE_BTH_BYTES); (RXE_DETH, RXE_BTH_BYTES + RXE_RDETH_BYTES);
      (RXE_RETH, RXE_BTH_BYTES + RXE_RDETH_BYTES + RXE_DETH_BYTES); (RXE_IMMDT,
      RXE_BTH_BYTES + RXE_RDETH_BYTES + RXE_DETH_BYTES + RXE_RETH_BYTES); (RXE_PAYLOAD,
      RXE_BTH_BYTES + RXE_RDETH_BYTES + RXE_DETH_BYTES + RXE_RETH_BYTES + RXE_IMMDT_BYTES)])].

Definition rd_response_opcodes : list (Z * rxe_opcode_info) := [
  (IB_OPCODE_RD_RDMA_READ_REQUEST,
   OpInfo "IB_OPCODE_RD_RDMA_READ_REQUEST"
     (RXE_RDETH_MASK .| RXE_DETH_MASK .| RXE_RETH_MASK .| RXE_REQ_MASK .| RXE_READ_MASK .|
      RXE_START_MASK .| RXE_END_MASK)
     (RXE_BTH_BYTES + RXE_RETH_BYTES + RXE_DETH_BYTES + RXE_RDETH_BYTES)
     [(RXE_BTH, 0); (RXE_RDETH, RXE_BTH_BYTES); (RXE_DETH, RXE_BTH_BYTES + RXE_RDETH_BYTES);
      (RXE_RETH, RXE_BTH_BYTES + RXE_RDETH_BYTES + RXE_DETH_BYTES); (RXE_PAYLOAD,
      RXE_BTH_BYTES + RXE_RETH_BYTES + RXE_DETH_BYTES + RXE_RDETH_BYTES)]);
  (IB_OPCODE_RD_RDMA_READ_RESPONSE_FIRST,
   OpInfo "IB_OPCODE_RD_RDMA_READ_RESPONSE_FIRST"
     (RXE_RDETH_MASK .| RXE_AETH_MASK .| RXE_PAYLOAD_MASK .| RXE_ACK_MASK .| RXE_START_MASK)
     (RXE_BTH_BYTES + RXE_AETH_BYTES + RXE_RDETH_BYTES)
     [(RXE_BTH, 0); (RXE_RDETH, RXE_BTH_BYTES); (RXE_AETH, RXE_BTH_BYTES + RXE_RDETH_BYTES);
      (RXE_PAYLOAD, RXE_BTH_BYTES + RXE_RDETH_BYTES + RXE_AETH_BYTES)]);
  (IB_OPCODE_RD_RDMA_READ_RESPONSE_MIDDLE,
   OpInfo "IB_OPCODE_RD_RDMA_READ_RESPONSE_MIDDLE"
     (RXE_RDETH_MASK .| RXE_PAYLOAD_MASK .| RXE_ACK_MASK .| RXE_MIDDLE_MASK)
     (RXE_BTH_BYTES + RXE_RDETH_BYTES)
     [(RXE_BTH, 0); (RXE_RDETH, RXE_BTH_BYTES); (RXE_PAYLOAD, RXE_BTH_BYTES +
      RXE_RDETH_BYTES)]);
  (IB_OPCODE_RD_RDMA_READ_RESPONSE_LAST,
   OpInfo "IB_OPCODE_RD_RDMA_READ_RESPONSE_LAST"
     (RXE_RDETH_MASK .| RXE_AETH_MASK .| RXE_PAYLOAD_MASK .| RXE_ACK_MASK .| RXE_END_MASK)
     (RXE_BTH_BYTES + RXE_AETH_BYTES + RXE_RDETH_BYTES)
     [(RXE_BTH, 0); (RXE_RDETH, RXE_BTH_BYTES); (RXE_AETH, RXE_BTH_BYTES + RXE_RDETH_BYTES);
      (RXE_PAYLOAD, RXE_BTH_BYTES + RXE_RDETH_BYTES + RXE_AETH_BYTES)]);
  (IB_OPCODE_RD_RDMA_READ_RESPONSE_ONLY,
   OpInfo "IB_OPCODE_RD_RDMA_READ_RESPONSE_ONLY"
     (RXE_RDETH_MASK .| RXE_AETH_MASK .| RXE_PAYLOAD_MASK .| RXE_ACK_MASK .| RXE_START_MASK
      .| RXE_END_MASK)
     (RXE_BTH_BYTES + RXE_AETH_BYTES + RXE_RDETH_BYTES)
     [(RXE_BTH, 0); (RXE_RDETH, RXE_BTH_BYTES); (RXE_AETH, RXE_BTH_BYTES + RXE_RDETH_BYTES);
      (RXE_PAYLOAD, RXE_BTH_BYTES + RXE_RDETH_BYTES + RXE_AETH_BYTES)]);
  (IB_OPCODE_RD_ACKNOWLEDGE,
   OpInfo "IB_OPCODE_RD_ACKNOWLEDGE"
     (RXE_RDETH_MASK .| RXE_AETH_MASK .| RXE_ACK_MASK .| RXE_START_MASK .| RXE_END_MASK)
     (RXE_BTH_BYTES + RXE_AETH_BYTES + RXE_RDETH_BYTES)
     [(RXE_BTH, 0); (RXE_RDETH, RXE_BTH_BYTES); (RXE_AETH, RXE_BTH_BYTES + RXE_RDETH_BYTES)]);
  (IB_OPCODE_RD_ATOMIC_ACKNOWLEDGE,
   OpInfo "IB_OPCODE_RD_ATOMIC_ACKNOWLEDGE"
     (RXE_RDETH_MASK .| RXE_AETH_MASK .| RXE_ATMACK_MASK .| RXE_ACK_MASK .| RXE_START_MASK
      .| RXE_END_MASK)
     (RXE_BTH_BYTES + RXE_ATMACK_BYTES + RXE_AETH_BYTES + RXE_RDETH_BYTES)
     [(RXE_BTH, 0); (RXE_RDETH, RXE_BTH_BYTES); (RXE_AETH, RXE_BTH_BYTES + RXE_RDETH_BYTES);
      (RXE_ATMACK, RXE_BTH_BYTES + RXE_RDETH_BYTES + RXE_AETH_BYTES)])].

Definition rd_atomic_opcodes : list (Z * rxe_opcode_info) := [
  (IB_OPCODE_RD_COMPARE_SWAP,
   OpInfo "RD_COMPARE_SWAP"
     (RXE_RDETH_MASK .| RXE_DETH_MASK .| RXE_ATMETH_MASK .| RXE_REQ_MASK .| RXE_ATOMIC_MASK
      .| RXE_START_MASK .| RXE_END_MASK)
     (RXE_BTH_BYTES + RXE_ATMETH_BYTES + RXE_DETH_BYTES + RXE_RDETH_BYTES)
     [(RXE_BTH, 0); (RXE_RDETH, RXE_BTH_BYTES); (RXE_DETH, RXE_BTH_BYTES + RXE_RDETH_BYTES);
      (RXE_ATMETH, RXE_BTH_BYTES + RXE_RDETH_BYTES + RXE_DETH_BYTES); (RXE_PAYLOAD,
      RXE_BTH_BYTES + RXE_ATMETH_BYTES + RXE_DETH_BYTES + RXE_RDETH_BYTES)]);
  (IB_OPCODE_RD_FETCH_ADD,
   OpInfo "IB_OPCODE_RD_FETCH_ADD"
     (RXE_RDETH_MASK .| RXE_DETH_MASK .| RXE_ATMETH_MASK .| RXE_REQ_MASK .| RXE_ATOMIC_MASK
      .| RXE_START_MASK .| RXE_END_MASK)
     (RXE_BTH_BYTES + RXE_ATMETH_BYTES + RXE_DETH_BYTES + RXE_RDETH_BYTES)
     [(RXE_BTH, 0); (RXE_RDETH, RXE_BTH_BYTES); (RXE_DETH, RXE_BTH_BYTES + RXE_RDETH_BYTES);
      (RXE_ATMETH, RXE_BTH_BYTES + RXE_RDETH_BYTES + RXE_DETH_BYTES); (RXE_PAYLOAD,
      RXE_BTH_BYTES + RXE_ATMETH_BYTES + RXE_DETH_BYTES + RXE_RDETH_BYTES)]);
  (IB_OPCODE_RD_RESYNC,
   OpInfo "RD_RESYNC"
     (RXE_RDETH_MASK .| RXE_DETH_MASK .| RXE_REQ_MASK .| RXE_START_MASK .| RXE_END_MASK)
     (RXE_BTH_BYTES + RXE_DETH_BYTES + RXE_RDETH_BYTES)
     [(RXE_BTH, 0); (RXE_RDETH, RXE_BTH_BYTES); (RXE_DETH, RXE_BTH_BYTES + RXE_RDETH_BYTES)])].

Definition ud_cn_opcodes : list (Z * rxe_opcode_info) := [
  (IB_OPCODE_UD_SEND_ONLY,
   OpInfo "IB_OPCODE_UD_SEND_ONLY"
     (RXE_DETH_MASK .| RXE_PAYLOAD_MASK .| RXE_REQ_MASK .| RXE_COMP_MASK .| RXE_RWR_MASK .|
      RXE_SEND_MASK .| RXE_START_MASK .| RXE_END_MASK)
     (RXE_BTH_BYTES + RXE_DETH_BYTES)
     [(RXE_BTH, 0); (RXE_DETH, RXE_BTH_BYTES); (RXE_PAYLOAD, RXE_BTH_BYTES + RXE_DETH_BYTES)]);
  (IB_OPCODE_UD_SEND_ONLY_WITH_IMMEDIATE,
   OpInfo "IB_OPCODE_UD_SEND_ONLY_WITH_IMMEDIATE"
     (RXE_DETH_MASK .| RXE_IMMDT_MASK .| RXE_PAYLOAD_MASK .| RXE_REQ_MASK .| RXE_COMP_MASK
      .| RXE_RWR_MASK .| RXE_SEND_MASK .| RXE_START_MASK .| RXE_END_MASK)
     (RXE_BTH_BYTES + RXE_IMMDT_BYTES + RXE_DETH_BYTES)
     [(RXE_BTH, 0); (RXE_DETH, RXE_BTH_BYTES); (RXE_IMMDT, RXE_BTH_BYTES + RXE_DETH_BYTES);
      (RXE_PAYLOAD, RXE_BTH_BYTES + RXE_DETH_BYTES + RXE_IMMDT_BYTES)]);
  (IB_OPCODE_CN_CNP,
   OpInfo "IB_OPCODE_CN_CNP"
     (RXE_CNP_MASK)
     (RXE_BTH_BYTES)
     [(RXE_BTH, 0)])].

Definition rxe_opcode_table : list (Z * rxe_opcode_info) :=
  rc_send_opcodes ++ rc_write_opcodes ++ rc_response_opcodes ++ rc_atomic_opcodes ++
  uc_send_opcodes ++ uc_write_opcodes ++ rd_send_opcodes ++ rd_write_opcodes ++
  rd_response_opcodes ++ rd_atomic_opcodes ++ ud_cn_opcodes.

(** An opcode the table does not name has an all-zero entry. *)
Definition rxe_opcode (opcode : Z) : rxe_opcode_info :=
  match list_find (λ e, e.1 = opcode) rxe_opcode_table with
  | Some (_, e) => e.2
  | None => OpInfo "" 0 0 []
  end.

Definition opcode_mask (opcode : Z) : Z := oi_mask (rxe_opcode opcode).

Definition opcode_length (opcode : Z) : Z := oi_length (rxe_opcode opcode).

Definition opcode_offset (opcode : Z) (t : rxe_hdr_type) : Z :=
  match list_find (λ e, e.1 = t) (oi_offsets (rxe_opcode opcode)) with
  | Some (_, e) => e.2
  | None => 0
  end.

(** ** What the table must say

    The extension headers of a packet follow the base header in the order of
    the InfiniBand wire format. *)

Definition hdr_bytes (t : rxe_hdr_type) : Z :=
  match t with
  | RXE_LRH => RXE_LRH_BYTES | RXE_GRH => RXE_GRH_BYTES | RXE_BTH => RXE_BTH_BYTES
  | RXE_RETH => RXE_RETH_BYTES | RXE_AETH => RXE_AETH_BYTES
  | RXE_ATMETH => RXE_ATMETH_BYTES | RXE_ATMACK => RXE_ATMACK_BYTES
  | RXE_IETH => RXE_IETH_BYTES | RXE_RDETH => RXE_RDETH_BYTES
  | RXE_DETH => RXE_DETH_BYTES | RXE_IMMDT => RXE_IMMDT_BYTES | RXE_PAYLOAD => 0
  end.

Definition wire_order : list rxe_hdr_type :=
  [RXE_RDETH; RXE_DETH; RXE_RETH; RXE_ATMETH; RXE_AETH; RXE_ATMACK; RXE_IMMDT; RXE_IETH].

Definition has_hdr (opcode : Z) (t : rxe_hdr_type) : bool :=
  flag_set (opcode_mask opcode) (Z.shiftl 1 (hdr_index t)).

Definition wire_headers (opcode : Z) : list rxe_hdr_type :=
  RXE_BTH :: filter (λ t, has_hdr opcode t = true) wire_order.

Definition hdrs_bytes (l : list rxe_hdr_type) : Z := fold_right Z.add 0 (map hdr_bytes l).

Fixpoint layout_from (opcode start : Z) (l : list rxe_hdr_type) : bool :=
  match l with
  | [] => start =? opcode_length opcode
  | t :: l => (opcode_offset opcode t =? start) && layout_from opcode (start + hdr_bytes t) l
  end.

Lemma layout_from_offset opcode start l :
  layout_from opcode start l = true →
  opcode_length opcode = start + hdrs_bytes l ∧
  ∀ i t, l !! i = Some t → opcode_offset opcode t = start + hdrs_bytes (take i l).
Proof.
  revert start. induction l as [|t l IH]; intros start; cbn.
  - intros E%Z.eqb_eq. split; [lia|]. intros i t Ht; by rewrite lookup_nil in Ht.
  - intros [E%Z.eqb_eq [Hlen Hl]%IH]%andb_prop. split; [unfold hdrs_bytes in *; cbn; lia|].
    intros [|i] t' Ht; cbn in *; simplify_eq; [lia|].
    rewrite (Hl i t' Ht). unfold hdrs_bytes. cbn. lia.
Qed.

Definition defined_opcodes : list Z := map fst rxe_opcode_table.

Definition layout_ok (opcode : Z) : bool :=
  layout_from opcode 0 (wire_headers opcode) &&
  (negb (has_hdr opcode RXE_PAYLOAD) ||
   (opcode_offset opcode RXE_PAYLOAD =? opcode_length opcode)).

Lemma all_layout_ok : forallb layout_ok defined_opcodes = true.
Proof. vm_compute. reflexivity. Qed.

Lemma opcode_layout_of_table opcode :
  opcode ∈ defined_opcodes →
  opcode_length opcode = hdrs_bytes (wire_headers opcode) ∧
  (∀ i t, wire_headers opcode !! i = Some t →
     opcode_offset opcode t = hdrs_bytes (take i (wire_headers opcode))) ∧
  (has_hdr opcode RXE_PAYLOAD = true →
     opcode_offset opcode RXE_PAYLOAD = opcode_length opcode).
Proof.
  intros Hin. pose proof all_layout_ok as H. rewrite forallb_forall in H.
  apply list_elem_of_In in Hin. apply H in Hin. apply andb_prop in Hin as [Hl Hp].
  apply layout_from_offset in Hl as [Hlen Hoff]. rewrite Z.add_0_l in Hlen.
  split; [done|]. split; [intros i t Ht; by rewrite (Hoff i t Ht)|].
  intros E. rewrite E in Hp. by apply Z.eqb_eq.
Qed.

(** For every packet opcode of the table, the headers its mask names lie
    one after the other from offset 0 in wire order, without gap or overlap,
    the header length is the sum of their lengths, and a payload starts right
    after them. *)
Theorem opcode_layout opcode :
  opcode ∈ defined_opcodes →
  opcode_length opcode = hdrs_bytes (wire_headers opcode) ∧
  (∀ i t, wire_headers opcode !! i = Some t →
     opcode_offset opcode t = hdrs_bytes (take i (wire_headers opcode))) ∧
  (has_hdr opcode RXE_PAYLOAD = true →
     opcode_offset opcode RXE_PAYLOAD = opcode_length opcode).
Proof. apply opcode_layout_of_table. Qed.

Lemma opcode_layout_witness :
  opcode_offset IB_OPCODE_RC_RDMA_WRITE_ONLY_WITH_IMMEDIATE RXE_PAYLOAD = 32 ∧
  opcode_length IB_OPCODE_RC_RDMA_WRITE_ONLY_WITH_IMMEDIATE = 32.
Proof.
  destruct (opcode_layout IB_OPCODE_RC_RDMA_WRITE_ONLY_WITH_IMMEDIATE)
    as (Hl & _ & Hp); [apply list_elem_of_In; vm_compute; tauto|].
  rewrite Hp by (vm_compute; reflexivity). rewrite Hl. split; vm_compute; reflexivity.
Defined.

(** The role bits of an entry: a request or a response, of one kind. *)
Definition role_ok (opcode : Z) : bool :=
  let m := opcode_mask opcode in
  let has x := flag_set m x in
  if opcode =? IB_OPCODE_CN_CNP then m =? RXE_CNP_MASK else
  xorb (has RXE_REQ_MASK) (has RXE_ACK_MASK) &&
  eqb (has RXE_MIDDLE_MASK) (negb (has RXE_START_MASK) && negb (has RXE_END_MASK)) &&
  (negb (has RXE_COMP_MASK) || (has RXE_END_MASK && has RXE_REQ_MASK)) &&
  (negb (has RXE_IMMDT_MASK) || has RXE_COMP_MASK) &&
  (negb (has RXE_SEND_MASK) || eqb (has RXE_COMP_MASK) (has RXE_END_MASK)) &&
  eqb (has RXE_ATMETH_MASK) (has RXE_ATOMIC_MASK) &&
  (negb (has RXE_RETH_MASK) ||
   (has RXE_START_MASK && (has RXE_READ_MASK || has RXE_WRITE_MASK))).

Lemma all_role_ok : forallb role_ok defined_opcodes = true.
Proof. vm_compute. reflexivity. Qed.
