(* ===== verification/Hdr.v ===== *)
(** * Packet headers (rxe_hdr.h)

    A packet is the list of its bytes from [pkt->hdr] on. The accessors named
    [__hhh_fff] take the buffer and the offset of header [hhh]; those named
    [hhh_fff] take a packet and find the header through its opcode. A setter
    returns the new buffer or packet. *)

From S2P Require Import Prelude Bits Opcode.

(** What the driver keeps about a packet. The device and queue pair pointers
    are the context in which the handlers run. *)
Record rxe_pkt_info := PktInfo {
  pkt_hdr : list Z;
  pkt_mask : Z;
  pkt_psn : Z;
  pkt_pkey_index : Z;
  pkt_paylen : Z;
  pkt_port_num : Z;
  pkt_opcode : Z;
  pkt_offset : Z
}.

#[export] Instance eta_rxe_pkt_info : Eta rxe_pkt_info := fun r =>
  PktInfo (pkt_hdr r) (pkt_mask r) (pkt_psn r) (pkt_pkey_index r) (pkt_paylen r)
    (pkt_port_num r) (pkt_opcode r) (pkt_offset r).

Definition RXE_ICRC_SIZE : Z := 4.
Definition RXE_MAX_HDR_LENGTH : Z := 80.

(** The offset of an extension header: the table entry of the opcode. *)
Definition ext_offset (pkt : rxe_pkt_info) (t : rxe_hdr_type) : Z :=
  pkt_offset pkt + opcode_offset (pkt_opcode pkt) t.

(** ** Local Route Header: vlver 0, slnh 1, dlid 2, length 4, slid 6 *)

Definition LRH_VL_MASK : Z := 0xf0.
Definition LRH_LVER_MASK : Z := 0x0f.
Definition LRH_SL_MASK : Z := 0xf0.
Definition LRH_LNH_MASK : Z := 0x03.
Definition LRH_LENGTH_MASK : Z := 0x07ff.

Definition __lrh_vl (h : list Z) (o : Z) : Z := u8 (Z.shiftr (load_u8 h o) 4).

Definition __lrh_set_vl (h : list Z) (o vl : Z) : list Z :=
  store_u8 h o (Z.shiftl vl 4 .| (Z.lnot LRH_VL_MASK .& load_u8 h o)).

Definition __lrh_lver (h : list Z) (o : Z) : Z := u8 (load_u8 h o .& LRH_LVER_MASK).

Definition __lrh_set_lver (h : list Z) (o lver : Z) : list Z :=
  store_u8 h o ((lver .& LRH_LVER_MASK) .| (Z.lnot LRH_LVER_MASK .& load_u8 h o)).

Definition __lrh_sl (h : list Z) (o : Z) : Z := u8 (Z.shiftr (load_u8 h (o + 1)) 4).

Definition __lrh_set_sl (h : list Z) (o sl : Z) : list Z :=
  store_u8 h (o + 1) (Z.shiftl sl 4 .| (Z.lnot LRH_SL_MASK .& load_u8 h (o + 1))).

Definition __lrh_lnh (h : list Z) (o : Z) : Z := u8 (load_u8 h (o + 1) .& LRH_LNH_MASK).

Definition __lrh_set_lnh (h : list Z) (o lnh : Z) : list Z :=
  store_u8 h (o + 1) ((lnh .& LRH_LNH_MASK) .| (Z.lnot LRH_LNH_MASK .& load_u8 h (o + 1))).

Definition __lrh_dlid (h : list Z) (o : Z) : Z := u8 (load_be16 h (o + 2)).

Definition __lrh_set_dlid (h : list Z) (o dlid : Z) : list Z := store_be16 h (o + 2) dlid.

Definition __lrh_length (h : list Z) (o : Z) : Z := u8 (load_be16 h (o + 4) .& LRH_LENGTH_MASK).

Definition __lrh_set_length (h : list Z) (o length : Z) : list Z :=
  let was := load_be16 h (o + 4) in
  store_be16 h (o + 4) ((length .& LRH_LENGTH_MASK) .| (Z.lnot LRH_LENGTH_MASK .& was)).

Definition __lrh_slid (h : list Z) (o : Z) : Z := u8 (load_be16 h (o + 6)).

Definition __lrh_set_slid (h : list Z) (o slid : Z) : list Z := store_be16 h (o + 6) slid.

Definition lrh_init (pkt : rxe_pkt_info) (vl sl lnh length dlid slid : Z) : rxe_pkt_info :=
  pkt <| pkt_hdr ::= fun h =>
    let h := store_u8 h 0 (Z.shiftl vl 4) in
    let h := store_u8 h 1 (Z.shiftl sl 4 .| (lnh .& LRH_LNH_MASK)) in
    let h := store_be16 h 4 (length .& LRH_LENGTH_MASK) in
    let h := store_be16 h 2 dlid in
    store_be16 h 6 slid |>.

(** ** Global Route Header: vflow 0, paylen 4, next_hdr 6, hop_limit 7,
    sgid 8, dgid 24 *)

Definition GRH_IPV6 : Z := 6.
Definition GRH_RXE_NEXT_HDR : Z := 0x1b.
Definition GRH_IPVER_MASK : Z := 0xf0000000.
Definition GRH_TCLASS_MASK : Z := 0x0ff00000.
Definition GRH_FLOW_MASK : Z := 0x000fffff.

Definition __grh_ipver (h : list Z) (o : Z) : Z :=
  u8 (Z.shiftr (GRH_IPVER_MASK .& load_be32 h o) 28).

Definition __grh_set_ipver (h : list Z) (o ipver : Z) : list Z :=
  let vflow := load_be32 h o in
  store_be32 h o ((GRH_IPVER_MASK .& Z.shiftl ipver 28) .| (Z.lnot GRH_IPVER_MASK .& vflow)).

Definition __grh_tclass (h : list Z) (o : Z) : Z :=
  u8 (Z.shiftr (GRH_TCLASS_MASK .& load_be32 h o) 20).

Definition __grh_set_tclass (h : list Z) (o tclass : Z) : list Z :=
  let vflow := load_be32 h o in
  store_be32 h o ((GRH_TCLASS_MASK .& Z.shiftl tclass 20) .| (Z.lnot GRH_TCLASS_MASK .& vflow)).

Definition __grh_flow (h : list Z) (o : Z) : Z := GRH_FLOW_MASK .& load_be32 h o.

Definition __grh_set_flow (h : list Z) (o flow : Z) : list Z :=
  let vflow := load_be32 h o in
  store_be32 h o ((GRH_FLOW_MASK .& flow) .| (Z.lnot GRH_FLOW_MASK .& vflow)).

Definition __grh_set_vflow (h : list Z) (o tclass flow : Z) : list Z :=
  store_be32 h o (Z.shiftl GRH_IPV6 28 .| Z.shiftl tclass 20 .| (flow .& GRH_FLOW_MASK)).

Definition __grh_paylen (h : list Z) (o : Z) : Z := load_be16 h (o + 4).

Definition __grh_set_paylen (h : list Z) (o paylen : Z) : list Z := store_be16 h (o + 4) paylen.

Definition __grh_next_hdr (h : list Z) (o : Z) : Z := load_u8 h (o + 6).

Definition __grh_set_next_hdr (h : list Z) (o next_hdr : Z) : list Z :=
  store_u8 h (o + 6) next_hdr.

Definition __grh_hop_limit (h : list Z) (o : Z) : Z := load_u8 h (o + 7).

Definition __grh_set_hop_limit (h : list Z) (o hop_limit : Z) : list Z :=
  store_u8 h (o + 7) hop_limit.

(** A pointer to a GID is its offset; a GID is two big-endian 64-bit words. *)
Definition __grh_sgid (o : Z) : Z := o + 8.

Definition __grh_set_sgid (h : list Z) (o prefix guid : Z) : list Z :=
  store_be64 (store_be64 h (o + 8) prefix) (o + 16) guid.

Definition __grh_dgid (o : Z) : Z := o + 24.

Definition __grh_set_dgid (h : list Z) (o prefix guid : Z) : list Z :=
  store_be64 (store_be64 h (o + 24) prefix) (o + 32) guid.

(** Where the accessors below look for the GRH. *)
Definition grh_offset (pkt : rxe_pkt_info) : Z := pkt_offset pkt - RXE_GRH_BYTES.

Definition grh_ipver (pkt : rxe_pkt_info) : Z := __grh_ipver (pkt_hdr pkt) 0.

Definition grh_set_ipver (pkt : rxe_pkt_info) (ipver : Z) : rxe_pkt_info :=
  pkt <| pkt_hdr ::= fun h => __grh_set_ipver h 0 ipver |>.

Definition grh_tclass (pkt : rxe_pkt_info) : Z := __grh_tclass (pkt_hdr pkt) (grh_offset pkt).

Definition grh_set_tclass (pkt : rxe_pkt_info) (tclass : Z) : rxe_pkt_info :=
  pkt <| pkt_hdr ::= fun h => __grh_set_tclass h (grh_offset pkt) tclass |>.

Definition grh_flow (pkt : rxe_pkt_info) : Z := __grh_flow (pkt_hdr pkt) (grh_offset pkt).

Definition grh_set_flow (pkt : rxe_pkt_info) (flow : Z) : rxe_pkt_info :=
  pkt <| pkt_hdr ::= fun h => __grh_set_flow h (grh_offset pkt) flow |>.

Definition grh_paylen (pkt : rxe_pkt_info) : Z := __grh_paylen (pkt_hdr pkt) (grh_offset pkt).

Definition grh_set_paylen (pkt : rxe_pkt_info) (paylen : Z) : rxe_pkt_info :=
  pkt <| pkt_hdr ::= fun h => __grh_set_paylen h (grh_offset pkt) paylen |>.

Definition grh_next_hdr (pkt : rxe_pkt_info) : Z := __grh_next_hdr (pkt_hdr pkt) (grh_offset pkt).

Definition grh_set_next_hdr (pkt : rxe_pkt_info) (next_hdr : Z) : rxe_pkt_info :=
  pkt <| pkt_hdr ::= fun h => __grh_set_next_hdr h (grh_offset pkt) next_hdr |>.

Definition grh_hop_limit (pkt : rxe_pkt_info) : Z := __grh_hop_limit (pkt_hdr pkt) (grh_offset pkt).

Definition grh_set_hop_limit (pkt : rxe_pkt_info) (hop_limit : Z) : rxe_pkt_info :=
  pkt <| pkt_hdr ::= fun h => __grh_set_hop_limit h (grh_offset pkt) hop_limit |>.

Definition grh_sgid (pkt : rxe_pkt_info) : Z := __grh_sgid (grh_offset pkt).

Definition grh_set_sgid (pkt : rxe_pkt_info) (prefix guid : Z) : rxe_pkt_info :=
  pkt <| pkt_hdr ::= fun h => __grh_set_sgid h (grh_offset pkt) prefix guid |>.

Definition grh_dgid (pkt : rxe_pkt_info) : Z := __grh_dgid (grh_offset pkt).

Definition grh_set_dgid (pkt : rxe_pkt_info) (prefix guid : Z) : rxe_pkt_info :=
  pkt <| pkt_hdr ::= fun h => __grh_set_dgid h (grh_offset pkt) prefix guid |>.

(** The cast binds tighter than the addition: the offset is counted in
    headers, not in bytes. *)
Definition grh_init (pkt : rxe_pkt_info) (tclass flow paylen hop_limit : Z) : rxe_pkt_info :=
  let o := (pkt_offset pkt - RXE_GRH_BYTES) * RXE_GRH_BYTES in
  pkt <| pkt_hdr ::= fun h =>
    let h := store_be32 h o (Z.shiftl GRH_IPV6 28 .| Z.shiftl tclass 20
                               .| (flow .& GRH_FLOW_MASK)) in
    let h := store_be16 h (o + 4) paylen in
    let h := store_u8 h (o + 6) GRH_RXE_NEXT_HDR in
    store_u8 h (o + 7) hop_limit |>.

(** ** Base Transport Header: opcode 0, flags 1, pkey 2, qpn 4, apsn 8 *)

Definition BTH_TVER : Z := 0.
Definition BTH_DEF_PKEY : Z := 0xffff.
Definition BTH_SE_MASK : Z := 0x80.
Definition BTH_MIG_MASK : Z := 0x40.
Definition BTH_PAD_MASK : Z := 0x30.
Definition BTH_TVER_MASK : Z := 0x0f.
Definition BTH_FECN_MASK : Z := 0x80000000.
Definition BTH_BECN_MASK : Z := 0x40000000.
Definition BTH_RESV6A_MASK : Z := 0x3f000000.
Definition BTH_QPN_MASK : Z := 0x00ffffff.
Definition BTH_ACK_MASK : Z := 0x80000000.
Definition BTH_RESV7_MASK : Z := 0x7f000000.
Definition BTH_PSN_MASK : Z := 0x00ffffff.

Definition __bth_opcode (h : list Z) (o : Z) : Z := load_u8 h o.

Definition __bth_set_opcode (h : list Z) (o opcode : Z) : list Z := store_u8 h o opcode.

Definition __bth_se (h : list Z) (o : Z) : Z :=
  Zbool (flag_set BTH_SE_MASK (load_u8 h (o + 1))).

Definition __bth_set_se (h : list Z) (o se : Z) : list Z :=
  if negb (se =? 0) then store_u8 h (o + 1) (load_u8 h (o + 1) .| BTH_SE_MASK)
  else store_u8 h (o + 1) (load_u8 h (o + 1) .& Z.lnot BTH_SE_MASK).

Definition __bth_mig (h : list Z) (o : Z) : Z :=
  Zbool (flag_set BTH_MIG_MASK (load_u8 h (o + 1))).

Definition __bth_set_mig (h : list Z) (o mig : Z) : list Z :=
  if negb (mig =? 0) then store_u8 h (o + 1) (load_u8 h (o + 1) .| BTH_MIG_MASK)
  else store_u8 h (o + 1) (load_u8 h (o + 1) .& Z.lnot BTH_MIG_MASK).

Definition __bth_pad (h : list Z) (o : Z) : Z :=
  u8 (Z.shiftr (BTH_PAD_MASK .& load_u8 h (o + 1)) 4).

Definition __bth_set_pad (h : list Z) (o pad : Z) : list Z :=
  store_u8 h (o + 1) ((BTH_PAD_MASK .& Z.shiftl pad 4) .| (Z.lnot BTH_PAD_MASK .& load_u8 h (o + 1))).

Definition __bth_tver (h : list Z) (o : Z) : Z := u8 (BTH_TVER_MASK .& load_u8 h (o + 1)).

Definition __bth_set_tver (h : list Z) (o tver : Z) : list Z :=
  store_u8 h (o + 1) ((BTH_TVER_MASK .& tver) .| (Z.lnot BTH_TVER_MASK .& load_u8 h (o + 1))).

Definition __bth_pkey (h : list Z) (o : Z) : Z := load_be16 h (o + 2).

Definition __bth_set_pkey (h : list Z) (o pkey : Z) : list Z := store_be16 h (o + 2) pkey.

Definition __bth_qpn (h : list Z) (o : Z) : Z := BTH_QPN_MASK .& load_be32 h (o + 4).

Definition __bth_set_qpn (h : list Z) (o qpn : Z) : list Z :=
  let resvqpn := load_be32 h (o + 4) in
  store_be32 h (o + 4) ((BTH_QPN_MASK .& qpn) .| (Z.lnot BTH_QPN_MASK .& resvqpn)).

Definition __bth_fecn (h : list Z) (o : Z) : Z :=
  Zbool (flag_set BTH_FECN_MASK (load_be32 h (o + 4))).

Definition __bth_set_fecn (h : list Z) (o fecn : Z) : list Z :=
  if negb (fecn =? 0) then store_be32 h (o + 4) (load_be32 h (o + 4) .| BTH_FECN_MASK)
  else store_be32 h (o + 4) (load_be32 h (o + 4) .& Z.lnot BTH_FECN_MASK).

Definition __bth_becn (h : list Z) (o : Z) : Z :=
  Zbool (flag_set BTH_BECN_MASK (load_be32 h (o + 4))).

Definition __bth_set_becn (h : list Z) (o becn : Z) : list Z :=
  if negb (becn =? 0) then store_be32 h (o + 4) (load_be32 h (o + 4) .| BTH_BECN_MASK)
  else store_be32 h (o + 4) (load_be32 h (o + 4) .& Z.lnot BTH_BECN_MASK).

Definition __bth_resv6a (h : list Z) (o : Z) : Z :=
  u8 (Z.shiftr (BTH_RESV6A_MASK .& load_be32 h (o + 4)) 24).

Definition __bth_set_resv6a (h : list Z) (o : Z) : list Z :=
  store_be32 h (o + 4) (Z.lnot BTH_RESV6A_MASK).

Definition __bth_ack (h : list Z) (o : Z) : Z :=
  Zbool (flag_set BTH_ACK_MASK (load_be32 h (o + 8))).

Definition __bth_set_ack (h : list Z) (o ack : Z) : list Z :=
  if negb (ack =? 0) then store_be32 h (o + 8) (load_be32 h (o + 8) .| BTH_ACK_MASK)
  else store_be32 h (o + 8) (load_be32 h (o + 8) .& Z.lnot BTH_ACK_MASK).

Definition __bth_set_resv7 (h : list Z) (o : Z) : list Z :=
  store_be32 h (o + 8) (load_be32 h (o + 8) .& Z.lnot BTH_RESV7_MASK).

Definition __bth_psn (h : list Z) (o : Z) : Z := BTH_PSN_MASK .& load_be32 h (o + 8).

Definition __bth_set_psn (h : list Z) (o psn : Z) : list Z :=
  let apsn := load_be32 h (o + 8) in
  store_be32 h (o + 8) ((BTH_PSN_MASK .& psn) .| (Z.lnot BTH_PSN_MASK .& apsn)).

Definition bth_opcode (pkt : rxe_pkt_info) : Z := __bth_opcode (pkt_hdr pkt) (pkt_offset pkt).

Definition bth_set_opcode (pkt : rxe_pkt_info) (opcode : Z) : rxe_pkt_info :=
  pkt <| pkt_hdr ::= fun h => __bth_set_opcode h (pkt_offset pkt) opcode |>.

Definition bth_se (pkt : rxe_pkt_info) : Z := __bth_se (pkt_hdr pkt) (pkt_offset pkt).

Definition bth_set_se (pkt : rxe_pkt_info) (se : Z) : rxe_pkt_info :=
  pkt <| pkt_hdr ::= fun h => __bth_set_se h (pkt_offset pkt) se |>.

Definition bth_mig (pkt : rxe_pkt_info) : Z := __bth_mig (pkt_hdr pkt) (pkt_offset pkt).

Definition bth_set_mig (pkt : rxe_pkt_info) (mig : Z) : rxe_pkt_info :=
  pkt <| pkt_hdr ::= fun h => __bth_set_mig h (pkt_offset pkt) mig |>.

Definition bth_pad (pkt : rxe_pkt_info) : Z := __bth_pad (pkt_hdr pkt) (pkt_offset pkt).

Definition bth_set_pad (pkt : rxe_pkt_info) (pad : Z) : rxe_pkt_info :=
  pkt <| pkt_hdr ::= fun h => __bth_set_pad h (pkt_offset pkt) pad |>.

Definition bth_tver (pkt : rxe_pkt_info) : Z := __bth_tver (pkt_hdr pkt) (pkt_offset pkt).

Definition bth_set_tver (pkt : rxe_pkt_info) (tver : Z) : rxe_pkt_info :=
  pkt <| pkt_hdr ::= fun h => __bth_set_tver h (pkt_offset pkt) tver |>.

Definition bth_pkey (pkt : rxe_pkt_info) : Z := __bth_pkey (pkt_hdr pkt) (pkt_offset pkt).

Definition bth_set_pkey (pkt : rxe_pkt_info) (pkey : Z) : rxe_pkt_info :=
  pkt <| pkt_hdr ::= fun h => __bth_set_pkey h (pkt_offset pkt) pkey |>.

Definition bth_qpn (pkt : rxe_pkt_info) : Z := __bth_qpn (pkt_hdr pkt) (pkt_offset pkt).

Definition bth_set_qpn (pkt : rxe_pkt_info) (qpn : Z) : rxe_pkt_info :=
  pkt <| pkt_hdr ::= fun h => __bth_set_qpn h (pkt_offset pkt) qpn |>.

Definition bth_fecn (pkt : rxe_pkt_info) : Z := __bth_fecn (pkt_hdr pkt) (pkt_offset pkt).

Definition bth_set_fecn (pkt : rxe_pkt_info) (fecn : Z) : rxe_pkt_info :=
  pkt <| pkt_hdr ::= fun h => __bth_set_fecn h (pkt_offset pkt) fecn |>.

Definition bth_becn (pkt : rxe_pkt_info) : Z := __bth_becn (pkt_hdr pkt) (pkt_offset pkt).

Definition bth_set_becn (pkt : rxe_pkt_info) (becn : Z) : rxe_pkt_info :=
  pkt <| pkt_hdr ::= fun h => __bth_set_becn h (pkt_offset pkt) becn |>.

Definition bth_resv6a (pkt : rxe_pkt_info) : Z := __bth_resv6a (pkt_hdr pkt) (pkt_offset pkt).

Definition bth_set_resv6a (pkt : rxe_pkt_info) : rxe_pkt_info :=
  pkt <| pkt_hdr ::= fun h => __bth_set_resv6a h (pkt_offset pkt) |>.

Definition bth_ack (pkt : rxe_pkt_info) : Z := __bth_ack (pkt_hdr pkt) (pkt_offset pkt).

Definition bth_set_ack (pkt : rxe_pkt_info) (ack : Z) : rxe_pkt_info :=
  pkt <| pkt_hdr ::= fun h => __bth_set_ack h (pkt_offset pkt) ack |>.

Definition bth_set_resv7 (pkt : rxe_pkt_info) : rxe_pkt_info :=
  pkt <| pkt_hdr ::= fun h => __bth_set_resv7 h (pkt_offset pkt) |>.

Definition bth_psn (pkt : rxe_pkt_info) : Z := __bth_psn (pkt_hdr pkt) (pkt_offset pkt).

Definition bth_set_psn (pkt : rxe_pkt_info) (psn : Z) : rxe_pkt_info :=
  pkt <| pkt_hdr ::= fun h => __bth_set_psn h (pkt_offset pkt) psn |>.

Definition bth_init (pkt : rxe_pkt_info) (opcode se mig pad pkey qpn ack_req psn : Z)
    : rxe_pkt_info :=
  let o := pkt_offset pkt in
  pkt <| pkt_hdr ::= fun h =>
    let h := store_u8 h o opcode in
    let h := store_u8 h (o + 1) (Z.shiftl pad 4 .& BTH_PAD_MASK) in
    let h := if negb (se =? 0) then store_u8 h (o + 1) (load_u8 h (o + 1) .| BTH_SE_MASK) else h in
    let h := if negb (mig =? 0) then store_u8 h (o + 1) (load_u8 h (o + 1) .| BTH_MIG_MASK) else h in
    let h := store_be16 h (o + 2) pkey in
    let h := store_be32 h (o + 4) (qpn .& BTH_QPN_MASK) in
    let psn := psn .& BTH_PSN_MASK in
    let psn := if negb (ack_req =? 0) then psn .| BTH_ACK_MASK else psn in
    store_be32 h (o + 8) psn |>.

(** ** Reliable Datagram Extended Transport Header *)

Definition RDETH_EEN_MASK : Z := 0x00ffffff.

Definition __rdeth_een (h : list Z) (o : Z) : Z := u8 (RDETH_EEN_MASK .& load_be32 h o).

Definition __rdeth_set_een (h : list Z) (o een : Z) : list Z :=
  store_be32 h o (RDETH_EEN_MASK .& een).

Definition rdeth_een (pkt : rxe_pkt_info) : Z := __rdeth_een (pkt_hdr pkt) (ext_offset pkt RXE_RDETH).

Definition rdeth_set_een (pkt : rxe_pkt_info) (een : Z) : rxe_pkt_info :=
  pkt <| pkt_hdr ::= fun h => __rdeth_set_een h (ext_offset pkt RXE_RDETH) een |>.

(** ** Datagram Extended Transport Header: qkey 0, sqp 4 *)

Definition GSI_QKEY : Z := 0x80010000.
Definition DETH_SQP_MASK : Z := 0x00ffffff.

Definition __deth_qkey (h : list Z) (o : Z) : Z := load_be32 h o.

Definition __deth_set_qkey (h : list Z) (o qkey : Z) : list Z := store_be32 h o qkey.

Definition __deth_sqp (h : list Z) (o : Z) : Z := DETH_SQP_MASK .& load_be32 h (o + 4).

Definition __deth_set_sqp (h : list Z) (o sqp : Z) : list Z :=
  store_be32 h (o + 4) (DETH_SQP_MASK .& sqp).

Definition deth_qkey (pkt : rxe_pkt_info) : Z := __deth_qkey (pkt_hdr pkt) (ext_offset pkt RXE_DETH).

Definition deth_set_qkey (pkt : rxe_pkt_info) (qkey : Z) : rxe_pkt_info :=
  pkt <| pkt_hdr ::= fun h => __deth_set_qkey h (ext_offset pkt RXE_DETH) qkey |>.

Definition deth_sqp (pkt : rxe_pkt_info) : Z := __deth_sqp (pkt_hdr pkt) (ext_offset pkt RXE_DETH).

Definition deth_set_sqp (pkt : rxe_pkt_info) (sqp : Z) : rxe_pkt_info :=
  pkt <| pkt_hdr ::= fun h => __deth_set_sqp h (ext_offset pkt RXE_DETH) sqp |>.

(** ** RDMA Extended Transport Header: va 0, rkey 8, len 12 *)

Definition __reth_va (h : list Z) (o : Z) : Z := load_be64 h o.

Definition __reth_set_va (h : list Z) (o va : Z) : list Z := store_be64 h o va.

Definition __reth_rkey (h : list Z) (o : Z) : Z := load_be32 h (o + 8).

Definition __reth_set_rkey (h : list Z) (o rkey : Z) : list Z := store_be32 h (o + 8) rkey.

Definition __reth_len (h : list Z) (o : Z) : Z := load_be32 h (o + 12).

Definition __reth_set_len (h : list Z) (o len : Z) : list Z := store_be32 h (o + 12) len.

Definition reth_va (pkt : rxe_pkt_info) : Z := __reth_va (pkt_hdr pkt) (ext_offset pkt RXE_RETH).

Definition reth_set_va (pkt : rxe_pkt_info) (va : Z) : rxe_pkt_info :=
  pkt <| pkt_hdr ::= fun h => __reth_set_va h (ext_offset pkt RXE_RETH) va |>.

Definition reth_rkey (pkt : rxe_pkt_info) : Z := __reth_rkey (pkt_hdr pkt) (ext_offset pkt RXE_RETH).

Definition reth_set_rkey (pkt : rxe_pkt_info) (rkey : Z) : rxe_pkt_info :=
  pkt <| pkt_hdr ::= fun h => __reth_set_rkey h (ext_offset pkt RXE_RETH) rkey |>.

Definition reth_len (pkt : rxe_pkt_info) : Z := __reth_len (pkt_hdr pkt) (ext_offset pkt RXE_RETH).

Definition reth_set_len (pkt : rxe_pkt_info) (len : Z) : rxe_pkt_info :=
  pkt <| pkt_hdr ::= fun h => __reth_set_len h (ext_offset pkt RXE_RETH) len |>.

(** ** Atomic Extended Transport Header (packed): va 0, rkey 8, swap_add 12, comp 20 *)

Definition __atmeth_va (h : list Z) (o : Z) : Z := load_be64 h o.

Definition __atmeth_set_va (h : list Z) (o va : Z) : list Z := store_be64 h o va.

Definition __atmeth_rkey (h : list Z) (o : Z) : Z := load_be32 h (o + 8).

Definition __atmeth_set_rkey (h : list Z) (o rkey : Z) : list Z := store_be32 h (o + 8) rkey.

Definition __atmeth_swap_add (h : list Z) (o : Z) : Z := load_be64 h (o + 12).

Definition __atmeth_set_swap_add (h : list Z) (o swap_add : Z) : list Z :=
  store_be64 h (o + 12) swap_add.

Definition __atmeth_comp (h : list Z) (o : Z) : Z := load_be64 h (o + 20).

Definition __atmeth_set_comp (h : list Z) (o comp : Z) : list Z := store_be64 h (o + 20) comp.

Definition atmeth_va (pkt : rxe_pkt_info) : Z := __atmeth_va (pkt_hdr pkt) (ext_offset pkt RXE_ATMETH).

Definition atmeth_set_va (pkt : rxe_pkt_info) (va : Z) : rxe_pkt_info :=
  pkt <| pkt_hdr ::= fun h => __atmeth_set_va h (ext_offset pkt RXE_ATMETH) va |>.

Definition atmeth_rkey (pkt : rxe_pkt_info) : Z := __atmeth_rkey (pkt_hdr pkt) (ext_offset pkt RXE_ATMETH).

Definition atmeth_set_rkey (pkt : rxe_pkt_info) (rkey : Z) : rxe_pkt_info :=
  pkt <| pkt_hdr ::= fun h => __atmeth_set_rkey h (ext_offset pkt RXE_ATMETH) rkey |>.

Definition atmeth_swap_add (pkt : rxe_pkt_info) : Z := __atmeth_swap_add (pkt_hdr pkt) (ext_offset pkt RXE_ATMETH).

Definition atmeth_set_swap_add (pkt : rxe_pkt_info) (swap_add : Z) : rxe_pkt_info :=
  pkt <| pkt_hdr ::= fun h => __atmeth_set_swap_add h (ext_offset pkt RXE_ATMETH) swap_add |>.

Definition atmeth_comp (pkt : rxe_pkt_info) : Z := __atmeth_comp (pkt_hdr pkt) (ext_offset pkt RXE_ATMETH).

Definition atmeth_set_comp (pkt : rxe_pkt_info) (comp : Z) : rxe_pkt_info :=
  pkt <| pkt_hdr ::= fun h => __atmeth_set_comp h (ext_offset pkt RXE_ATMETH) comp |>.

(** ** Ack Extended Transport Header *)

Definition AETH_SYN_MASK : Z := 0xff000000.
Definition AETH_MSN_MASK : Z := 0x00ffffff.

Definition AETH_TYPE_MASK : Z := 0xe0.
Definition AETH_ACK : Z := 0x00.
Definition AETH_RNR_NAK : Z := 0x20.
Definition AETH_RSVD : Z := 0x40.
Definition AETH_NAK : Z := 0x60.
Definition AETH_ACK_UNLIMITED : Z := 0x1f.
Definition AETH_NAK_PSN_SEQ_ERROR : Z := 0x60.
Definition AETH_NAK_INVALID_REQ : Z := 0x61.
Definition AETH_NAK_REM_ACC_ERR : Z := 0x62.
Definition AETH_NAK_REM_OP_ERR : Z := 0x63.
Definition AETH_NAK_INV_RD_REQ : Z := 0x64.

Definition __aeth_syn (h : list Z) (o : Z) : Z :=
  u8 (Z.shiftr (AETH_SYN_MASK .& load_be32 h o) 24).

Definition __aeth_set_syn (h : list Z) (o syn : Z) : list Z :=
  let smsn := load_be32 h o in
  store_be32 h o ((AETH_SYN_MASK .& Z.shiftl syn 24) .| (Z.lnot AETH_SYN_MASK .& smsn)).

Definition __aeth_msn (h : list Z) (o : Z) : Z := AETH_MSN_MASK .& load_be32 h o.

Definition __aeth_set_msn (h : list Z) (o msn : Z) : list Z :=
  let smsn := load_be32 h o in
  store_be32 h o ((AETH_MSN_MASK .& msn) .| (Z.lnot AETH_MSN_MASK .& smsn)).

Definition aeth_syn (pkt : rxe_pkt_info) : Z := __aeth_syn (pkt_hdr pkt) (ext_offset pkt RXE_AETH).

Definition aeth_set_syn (pkt : rxe_pkt_info) (syn : Z) : rxe_pkt_info :=
  pkt <| pkt_hdr ::= fun h => __aeth_set_syn h (ext_offset pkt RXE_AETH) syn |>.

Definition aeth_msn (pkt : rxe_pkt_info) : Z := __aeth_msn (pkt_hdr pkt) (ext_offset pkt RXE_AETH).

Definition aeth_set_msn (pkt : rxe_pkt_info) (msn : Z) : rxe_pkt_info :=
  pkt <| pkt_hdr ::= fun h => __aeth_set_msn h (ext_offset pkt RXE_AETH) msn |>.

(** ** Atomic Ack, Immediate and Invalidate Extended Transport Headers *)

Definition __atmack_orig (h : list Z) (o : Z) : Z := load_be64 h o.

Definition __atmack_set_orig (h : list Z) (o orig : Z) : list Z := store_be64 h o orig.

Definition atmack_orig (pkt : rxe_pkt_info) : Z := __atmack_orig (pkt_hdr pkt) (ext_offset pkt RXE_ATMACK).

Definition atmack_set_orig (pkt : rxe_pkt_info) (orig : Z) : rxe_pkt_info :=
  pkt <| pkt_hdr ::= fun h => __atmack_set_orig h (ext_offset pkt RXE_ATMACK) orig |>.

Definition __immdt_imm (h : list Z) (o : Z) : Z := load_be32 h o.

Definition __immdt_set_imm (h : list Z) (o imm : Z) : list Z := store_be32 h o imm.

Definition immdt_imm (pkt : rxe_pkt_info) : Z := __immdt_imm (pkt_hdr pkt) (ext_offset pkt RXE_IMMDT).

Definition immdt_set_imm (pkt : rxe_pkt_info) (imm : Z) : rxe_pkt_info :=
  pkt <| pkt_hdr ::= fun h => __immdt_set_imm h (ext_offset pkt RXE_IMMDT) imm |>.

Definition __ieth_rkey (h : list Z) (o : Z) : Z := load_be32 h o.

Definition __ieth_set_rkey (h : list Z) (o rkey : Z) : list Z := store_be32 h o rkey.

Definition ieth_rkey (pkt : rxe_pkt_info) : Z := __ieth_rkey (pkt_hdr pkt) (ext_offset pkt RXE_IETH).

Definition ieth_set_rkey (pkt : rxe_pkt_info) (rkey : Z) : rxe_pkt_info :=
  pkt <| pkt_hdr ::= fun h => __ieth_set_rkey h (ext_offset pkt RXE_IETH) rkey |>.

(** ** Sizes *)

Definition header_size (pkt : rxe_pkt_info) : Z :=
  pkt_offset pkt + opcode_length (pkt_opcode pkt).

(** The payload's address is its offset in the packet. *)
Definition payload_addr (pkt : rxe_pkt_info) : Z := ext_offset pkt RXE_PAYLOAD.

Definition payload_size (pkt : rxe_pkt_info) : Z :=
  ulong (pkt_paylen pkt - opcode_offset (pkt_opcode pkt) RXE_PAYLOAD
         - bth_pad pkt - RXE_ICRC_SIZE).

(** ** Fields as bits of the words of the header *)

(** The fields of a base transport header. *)
Record bth_fields := BthFields {
  f_opcode : Z; f_se : Z; f_mig : Z; f_pad : Z; f_tver : Z; f_pkey : Z; f_qpn : Z;
  f_fecn : Z; f_becn : Z; f_resv6a : Z; f_ack : Z; f_psn : Z
}.

#[export] Instance eta_bth_fields : Eta bth_fields := fun r =>
  BthFields (f_opcode r) (f_se r) (f_mig r) (f_pad r) (f_tver r) (f_pkey r) (f_qpn r)
    (f_fecn r) (f_becn r) (f_resv6a r) (f_ack r) (f_psn r).

Definition bth_view (h : list Z) (o : Z) : bth_fields :=
  BthFields (__bth_opcode h o) (__bth_se h o) (__bth_mig h o) (__bth_pad h o)
    (__bth_tver h o) (__bth_pkey h o) (__bth_qpn h o) (__bth_fecn h o) (__bth_becn h o)
    (__bth_resv6a h o) (__bth_ack h o) (__bth_psn h o).

(** The same fields read from the five words. *)
Definition bth_decode (opcode flags pkey qpn apsn : Z) : bth_fields :=
  BthFields opcode (bits 1 7 flags) (bits 1 6 flags) (bits 2 4 flags) (bits 4 0 flags) pkey
    (bits 24 0 qpn) (bits 1 31 qpn) (bits 1 30 qpn) (bits 6 24 qpn)
    (bits 1 31 apsn) (bits 24 0 apsn).

Lemma bth_view_decode h o :
  bth_view h o = bth_decode (load_be 1 h o) (load_be 1 h (o + 1)) (load_be 2 h (o + 2))
                   (load_be 4 h (o + 4)) (load_be 4 h (o + 8)).
Proof.
  unfold bth_view, bth_decode. f_equal.
  - apply (flag_set_bits 7). lia.
  - apply (flag_set_bits 6). lia.
  - unfold __bth_pad, u8. rewrite (bits_mask_shift 2 4) by lia. by rewrite mod_bits by lia.
  - unfold __bth_tver, u8. rewrite (bits_mask0 4) by lia. by rewrite mod_bits by lia.
  - apply (bits_mask0 24). lia.
  - apply (flag_set_bits 31). lia.
  - apply (flag_set_bits 30). lia.
  - unfold __bth_resv6a, u8. rewrite (bits_mask_shift 6 24) by lia. by rewrite mod_bits by lia.
  - apply (flag_set_bits 31). lia.
  - apply (bits_mask0 24). lia.
Qed.

(** [mem_simpl] evaluates the loads of a header after the stores of a setter. *)
Ltac mem_simpl :=
  unfold load_u8, load_be16, load_be32, load_be64,
    store_u8, store_be16, store_be32, store_be64;
  repeat first
    [ rewrite load_store_ne by lia
    | rewrite load_store_eq by (rewrite ?length_store_be; lia) ];
  change (8 * Z.of_nat 1) with 8; change (8 * Z.of_nat 2) with 16;
  change (8 * Z.of_nat 4) with 32; change (8 * Z.of_nat 8) with 64.

(** [field_simpl] reads fields out of an updated word. *)
Ltac field_simpl :=
  repeat first
    [ rewrite bits_mod by lia
    | rewrite bits_set_same by lia | rewrite bits_set_other by lia
    | rewrite bits_or_same by lia | rewrite bits_or_other by lia
    | rewrite bits_clear_same by lia | rewrite bits_clear_other by lia ].

Section bth.
Context (h : list Z) (o : Z) (Ho : 0 ≤ o) (Hl : o + 12 ≤ Z.of_nat (length h)).

Ltac bth_set :=
  rewrite !bth_view_decode; mem_simpl; unfold bth_decode; cbn; field_simpl; try reflexivity.

Lemma bth_view_set_opcode v :
  bth_view (__bth_set_opcode h o v) o = bth_view h o <| f_opcode := u8 v |>.
Proof using Ho Hl. unfold __bth_set_opcode. bth_set. Qed.

Lemma bth_view_set_se v :
  bth_view (__bth_set_se h o v) o = bth_view h o <| f_se := Zbool (negb (v =? 0)) |>.
Proof using Ho Hl.
  unfold __bth_set_se. change BTH_SE_MASK with (fmask 1 7). destruct (v =? 0); cbn; bth_set.
Qed.

Lemma bth_view_set_mig v :
  bth_view (__bth_set_mig h o v) o = bth_view h o <| f_mig := Zbool (negb (v =? 0)) |>.
Proof using Ho Hl.
  unfold __bth_set_mig. change BTH_MIG_MASK with (fmask 1 6). destruct (v =? 0); cbn; bth_set.
Qed.

Lemma bth_view_set_pad v :
  bth_view (__bth_set_pad h o v) o = bth_view h o <| f_pad := v mod 2 ^ 2 |>.
Proof using Ho Hl. unfold __bth_set_pad. change BTH_PAD_MASK with (fmask 2 4). bth_set. Qed.

Lemma bth_view_set_tver v :
  bth_view (__bth_set_tver h o v) o = bth_view h o <| f_tver := v mod 2 ^ 4 |>.
Proof using Ho Hl.
  unfold __bth_set_tver. change BTH_TVER_MASK with (fmask 4 0).
  replace (fmask 4 0 .& v) with (fmask 4 0 .& Z.shiftl v 0) by (by rewrite Z.shiftl_0_r). bth_set.
Qed.

Lemma bth_view_set_pkey v :
  bth_view (__bth_set_pkey h o v) o = bth_view h o <| f_pkey := u16 v |>.
Proof using Ho Hl. unfold __bth_set_pkey. bth_set. Qed.

Lemma bth_view_set_qpn v :
  bth_view (__bth_set_qpn h o v) o = bth_view h o <| f_qpn := v mod 2 ^ 24 |>.
Proof using Ho Hl.
  unfold __bth_set_qpn. change BTH_QPN_MASK with (fmask 24 0).
  replace (fmask 24 0 .& v) with (fmask 24 0 .& Z.shiftl v 0) by (by rewrite Z.shiftl_0_r). bth_set.
Qed.

Lemma bth_view_set_fecn v :
  bth_view (__bth_set_fecn h o v) o = bth_view h o <| f_fecn := Zbool (negb (v =? 0)) |>.
Proof using Ho Hl.
  unfold __bth_set_fecn. change BTH_FECN_MASK with (fmask 1 31). destruct (v =? 0); cbn; bth_set.
Qed.

Lemma bth_view_set_becn v :
  bth_view (__bth_set_becn h o v) o = bth_view h o <| f_becn := Zbool (negb (v =? 0)) |>.
Proof using Ho Hl.
  unfold __bth_set_becn. change BTH_BECN_MASK with (fmask 1 30). destruct (v =? 0); cbn; bth_set.
Qed.

Lemma bth_view_set_ack v :
  bth_view (__bth_set_ack h o v) o = bth_view h o <| f_ack := Zbool (negb (v =? 0)) |>.
Proof using Ho Hl.
  unfold __bth_set_ack. change BTH_ACK_MASK with (fmask 1 31). destruct (v =? 0); cbn; bth_set.
Qed.

Lemma bth_view_set_resv7 : bth_view (__bth_set_resv7 h o) o = bth_view h o.
Proof using Ho Hl. unfold __bth_set_resv7. change BTH_RESV7_MASK with (fmask 7 24). bth_set. Qed.

Lemma bth_view_set_psn v :
  bth_view (__bth_set_psn h o v) o = bth_view h o <| f_psn := v mod 2 ^ 24 |>.
Proof using Ho Hl.
  unfold __bth_set_psn. change BTH_PSN_MASK with (fmask 24 0).
  replace (fmask 24 0 .& v) with (fmask 24 0 .& Z.shiftl v 0) by (by rewrite Z.shiftl_0_r). bth_set.
Qed.

(** The header [bth_init] writes. *)
Lemma bth_init_decode opcode se mig pad pkey qpn ack_req psn pkt :
  pkt_hdr pkt = h → pkt_offset pkt = o →
  bth_view (pkt_hdr (bth_init pkt opcode se mig pad pkey qpn ack_req psn)) o =
    BthFields (u8 opcode) (Zbool (negb (se =? 0))) (Zbool (negb (mig =? 0))) (pad mod 2 ^ 2) 0
      (u16 pkey) (qpn mod 2 ^ 24) 0 0 0 (Zbool (negb (ack_req =? 0))) (psn mod 2 ^ 24).
Proof using Ho Hl.
  intros <- <-. rewrite bth_view_decode. unfold bth_init. cbn [pkt_hdr upd_field].
  change BTH_SE_MASK with (fmask 1 7). change BTH_MIG_MASK with (fmask 1 6).
  change BTH_PAD_MASK with (fmask 2 4). change BTH_QPN_MASK with (fmask 24 0).
  change BTH_PSN_MASK with (fmask 24 0). change BTH_ACK_MASK with (fmask 1 31).
  rewrite !(land_fmask0 _ 24) by lia.
  destruct (se =? 0), (mig =? 0), (ack_req =? 0); cbn; mem_simpl; unfold bth_decode; f_equal;
    field_simpl; try reflexivity; zbits.
Qed.
End bth.

(** Every setter of the base transport header makes its field read back
    as the value given, cut to the width of the field, and leaves every other
    field of the header as it was. *)
Theorem bth_set_get h o v :
  0 ≤ o → o + RXE_BTH_BYTES ≤ Z.of_nat (length h) →
  bth_view (__bth_set_opcode h o v) o = bth_view h o <| f_opcode := u8 v |> ∧
  bth_view (__bth_set_se h o v) o = bth_view h o <| f_se := Zbool (negb (v =? 0)) |> ∧
  bth_view (__bth_set_mig h o v) o = bth_view h o <| f_mig := Zbool (negb (v =? 0)) |> ∧
  bth_view (__bth_set_pad h o v) o = bth_view h o <| f_pad := v mod 2 ^ 2 |> ∧
  bth_view (__bth_set_tver h o v) o = bth_view h o <| f_tver := v mod 2 ^ 4 |> ∧
  bth_view (__bth_set_pkey h o v) o = bth_view h o <| f_pkey := u16 v |> ∧
  bth_view (__bth_set_qpn h o v) o = bth_view h o <| f_qpn := v mod 2 ^ 24 |> ∧
  bth_view (__bth_set_fecn h o v) o = bth_view h o <| f_fecn := Zbool (negb (v =? 0)) |> ∧
  bth_view (__bth_set_becn h o v) o = bth_view h o <| f_becn := Zbool (negb (v =? 0)) |> ∧
  bth_view (__bth_set_ack h o v) o = bth_view h o <| f_ack := Zbool (negb (v =? 0)) |> ∧
  bth_view (__bth_set_resv7 h o) o = bth_view h o ∧
  bth_view (__bth_set_psn h o v) o = bth_view h o <| f_psn := v mod 2 ^ 24 |>.
Proof.
  unfold RXE_BTH_BYTES. intros Ho Hl.
  repeat apply conj; auto using bth_view_set_opcode, bth_view_set_se, bth_view_set_mig,
    bth_view_set_pad, bth_view_set_tver, bth_view_set_pkey, bth_view_set_qpn,
    bth_view_set_fecn, bth_view_set_becn, bth_view_set_ack, bth_view_set_resv7,
    bth_view_set_psn.
Qed.

Lemma bth_set_get_witness :
  __bth_psn (__bth_set_ack (__bth_set_psn (replicate 12 0xff) 0 0x1234567) 0 1) 0 = 0x234567 ∧
  f_psn (bth_view (__bth_set_psn (replicate 12 0xff) 0 0x1234567) 0) = 0x234567.
Proof.
  split; [vm_compute; reflexivity|].
  destruct (bth_set_get (replicate 12 0xff) 0 0x1234567) as (_&_&_&_&_&_&_&_&_&_&_&->);
    [lia|vm_compute; discriminate|]. reflexivity.
Defined.

(** After [bth_init] each field of the base transport header holds the
    value given, the reserved and congestion bits are zero, and no byte
    outside the twelve of the header has changed. *)
Theorem bth_init_spec pkt opcode se mig pad pkey qpn ack_req psn :
  0 ≤ pkt_offset pkt → pkt_offset pkt + RXE_BTH_BYTES ≤ Z.of_nat (length (pkt_hdr pkt)) →
  let pkt' := bth_init pkt opcode se mig pad pkey qpn ack_req psn in
  bth_view (pkt_hdr pkt') (pkt_offset pkt) =
    BthFields (u8 opcode) (Zbool (negb (se =? 0))) (Zbool (negb (mig =? 0))) (pad mod 2 ^ 2) 0
      (u16 pkey) (qpn mod 2 ^ 24) 0 0 0 (Zbool (negb (ack_req =? 0))) (psn mod 2 ^ 24) ∧
  ∀ p, 0 ≤ p → p < pkt_offset pkt ∨ pkt_offset pkt + RXE_BTH_BYTES ≤ p →
    byte_at (pkt_hdr pkt') p = byte_at (pkt_hdr pkt) p.
Proof.
  intros Ho Hl pkt'. unfold RXE_BTH_BYTES in *. split; [by eapply bth_init_decode|].
  intros p Hp Hd. unfold pkt', bth_init. cbn [pkt_hdr upd_field].
  unfold store_u8, store_be16, store_be32. rewrite !byte_at_store by lia.
  repeat case_match; rewrite ?byte_at_store by lia; done.
Qed.

Lemma bth_init_spec_witness :
  let pkt := PktInfo (replicate 16 0xaa) 0 0 0 0 1 0 0 in
  bth_psn (bth_init pkt IB_OPCODE_RC_SEND_ONLY 1 0 3 0xffff 17 1 0x2000005) = 5.
Proof.
  intros pkt.
  destruct (bth_init_spec pkt IB_OPCODE_RC_SEND_ONLY 1 0 3 0xffff 17 1 0x2000005)
    as [H _]; [done|vm_compute; discriminate|].
  apply (f_equal f_psn) in H. exact H.
Defined.

(** [__bth_set_resv6a], meant to clear the reserved bits, overwrites the
    whole word: whatever the header held, the destination queue pair becomes
    the multicast number and both congestion bits are set. *)
Theorem bth_set_resv6a_clobbers h o :
  0 ≤ o → o + RXE_BTH_BYTES ≤ Z.of_nat (length h) →
  bth_view (__bth_set_resv6a h o) o =
    bth_view h o <| f_resv6a := 0 |> <| f_qpn := 0xffffff |> <| f_fecn := 1 |> <| f_becn := 1 |>.
Proof.
  unfold RXE_BTH_BYTES. intros Ho Hl. rewrite !bth_view_decode.
  unfold __bth_set_resv6a. mem_simpl. reflexivity.
Qed.

Lemma bth_set_resv6a_clobbers_witness :
  __bth_qpn (__bth_set_resv6a (__bth_set_qpn (replicate 12 0) 0 17) 0) 0 = 0xffffff.
Proof.
  pose proof (bth_set_resv6a_clobbers (__bth_set_qpn (replicate 12 0) 0 17) 0) as H.
  specialize (H ltac:(lia) ltac:(vm_compute; discriminate)).
  apply (f_equal f_qpn) in H. exact H.
Defined.

(** ** Extension headers *)

(** The getters and setters of each header a transport packet carries. *)
Definition hdr_getters (t : rxe_hdr_type) : list (rxe_pkt_info → Z) :=
  match t with
  | RXE_BTH => [bth_opcode; bth_se; bth_mig; bth_pad; bth_tver; bth_pkey; bth_qpn;
                bth_fecn; bth_becn; bth_resv6a; bth_ack; bth_psn]
  | RXE_RETH => [reth_va; reth_rkey; reth_len]
  | RXE_AETH => [aeth_syn; aeth_msn]
  | RXE_ATMETH => [atmeth_va; atmeth_rkey; atmeth_swap_add; atmeth_comp]
  | RXE_ATMACK => [atmack_orig]
  | RXE_IETH => [ieth_rkey]
  | RXE_RDETH => [rdeth_een]
  | RXE_DETH => [deth_qkey; deth_sqp]
  | RXE_IMMDT => [immdt_imm]
  | _ => []
  end.

Definition hdr_setters (t : rxe_hdr_type) : list (rxe_pkt_info → Z → rxe_pkt_info) :=
  match t with
  | RXE_BTH => [bth_set_opcode; bth_set_se; bth_set_mig; bth_set_pad; bth_set_tver;
                bth_set_pkey; bth_set_qpn; bth_set_fecn; bth_set_becn; bth_set_ack; bth_set_psn]
  | RXE_RETH => [reth_set_va; reth_set_rkey; reth_set_len]
  | RXE_AETH => [aeth_set_syn; aeth_set_msn]
  | RXE_ATMETH => [atmeth_set_va; atmeth_set_rkey; atmeth_set_swap_add; atmeth_set_comp]
  | RXE_ATMACK => [atmack_set_orig]
  | RXE_IETH => [ieth_set_rkey]
  | RXE_RDETH => [rdeth_set_een]
  | RXE_DETH => [deth_set_qkey; deth_set_sqp]
  | RXE_IMMDT => [immdt_set_imm]
  | _ => []
  end.

(** A packet whose buffer has room for the headers of its opcode. *)
Record pkt_ok (pkt : rxe_pkt_info) : Prop := {
  pkt_ok_opcode : pkt_opcode pkt ∈ defined_opcodes;
  pkt_ok_offset : 0 ≤ pkt_offset pkt;
  pkt_ok_room : header_size pkt ≤ Z.of_nat (length (pkt_hdr pkt))
}.

(** The headers of an opcode do not overlap and lie within its length. *)
Definition ranges_ok (opcode : Z) : bool :=
  forallb (fun t =>
    (0 <=? opcode_offset opcode t) &&
    (opcode_offset opcode t + hdr_bytes t <=? opcode_length opcode) &&
    forallb (fun t' => bool_decide (t = t') ||
      (opcode_offset opcode t + hdr_bytes t <=? opcode_offset opcode t') ||
      (opcode_offset opcode t' + hdr_bytes t' <=? opcode_offset opcode t))
      (wire_headers opcode))
    (wire_headers opcode).

Lemma all_ranges_ok : forallb ranges_ok defined_opcodes = true.
Proof. vm_compute. reflexivity. Qed.

Lemma hdr_range pkt t :
  pkt_ok pkt → t ∈ wire_headers (pkt_opcode pkt) →
  0 ≤ ext_offset pkt t ∧ ext_offset pkt t + hdr_bytes t ≤ Z.of_nat (length (pkt_hdr pkt)) ∧
  ∀ t', t' ∈ wire_headers (pkt_opcode pkt) → t ≠ t' →
    ext_offset pkt t + hdr_bytes t ≤ ext_offset pkt t' ∨
    ext_offset pkt t' + hdr_bytes t' ≤ ext_offset pkt t.
Proof.
  intros [Hop Hoff Hroom] Ht. unfold header_size, ext_offset in *.
  pose proof all_ranges_ok as H. rewrite forallb_forall in H.
  apply list_elem_of_In, H in Hop. unfold ranges_ok in Hop. rewrite forallb_forall in Hop.
  apply list_elem_of_In, Hop in Ht. rewrite !andb_true_iff, !Z.leb_le in Ht.
  destruct Ht as [[? ?] Hd]. rewrite forallb_forall in Hd.
  split; [lia|]. split; [lia|]. intros t' Ht' Hne. apply list_elem_of_In, Hd in Ht'.
  rewrite !orb_true_iff, bool_decide_eq_true, !Z.leb_le in Ht'. destruct Ht' as [[?|?]|?]; [done|lia..].
Qed.

Lemma bth_ext_offset pkt : pkt_ok pkt → ext_offset pkt RXE_BTH = pkt_offset pkt.
Proof.
  intros [Hop _ _]. apply opcode_layout_of_table in Hop as (_ & Hoff & _).
  unfold ext_offset. rewrite (Hoff 0%nat RXE_BTH) by done. cbn. lia.
Qed.

(** A setter writes only bytes of its header. *)
Lemma hdr_setter_frame pkt t set v :
  pkt_ok pkt → t ∈ wire_headers (pkt_opcode pkt) → set ∈ hdr_setters t →
  pkt_opcode (set pkt v) = pkt_opcode pkt ∧ pkt_offset (set pkt v) = pkt_offset pkt ∧
  length (pkt_hdr (set pkt v)) = length (pkt_hdr pkt) ∧
  ∀ p, 0 ≤ p → p < ext_offset pkt t ∨ ext_offset pkt t + hdr_bytes t ≤ p →
    byte_at (pkt_hdr (set pkt v)) p = byte_at (pkt_hdr pkt) p.
Proof.
  intros Hok Ht Hs. destruct (hdr_range pkt t Hok Ht) as (Hlo & _ & _).
  pose proof (bth_ext_offset pkt Hok) as Hb. destruct t; cbn [hdr_setters] in Hs;
    repeat (apply elem_of_cons in Hs as [->|Hs]);
    try (by apply not_elem_of_nil in Hs); cbn [hdr_bytes] in *.
  all: repeat split; try done; cbn.
  all: repeat (unfold __bth_set_se, __bth_set_mig, __bth_set_fecn, __bth_set_becn, __bth_set_ack;
               case_match).
  all: try (intros p ? ?); unfold RXE_BTH_BYTES, RXE_RETH_BYTES, RXE_AETH_BYTES, RXE_ATMETH_BYTES,
    RXE_ATMACK_BYTES, RXE_IETH_BYTES, RXE_RDETH_BYTES, RXE_DETH_BYTES, RXE_IMMDT_BYTES in *.
  all: try apply length_store_be; apply byte_at_store; lia.
Qed.

(** A getter reads only bytes of its header. *)
Lemma hdr_getter_local pkt pkt' t get :
  pkt_ok pkt → t ∈ wire_headers (pkt_opcode pkt) → get ∈ hdr_getters t →
  pkt_opcode pkt' = pkt_opcode pkt → pkt_offset pkt' = pkt_offset pkt →
  (∀ p, ext_offset pkt t ≤ p < ext_offset pkt t + hdr_bytes t →
     byte_at (pkt_hdr pkt') p = byte_at (pkt_hdr pkt) p) →
  get pkt' = get pkt.
Proof.
  intros Hok Ht Hg Hop Hoff Hby. pose proof (bth_ext_offset pkt Hok) as Hb.
  assert (Hld : ∀ n d, 0 ≤ d → d + Z.of_nat n ≤ hdr_bytes t →
    load_be n (pkt_hdr pkt') (ext_offset pkt t + d) = load_be n (pkt_hdr pkt) (ext_offset pkt t + d)).
  { intros n d ? ?. apply load_be_frame. intros. apply Hby. lia. }
  assert (Hext : ext_offset pkt' t = ext_offset pkt t) by (unfold ext_offset; congruence).
  pose proof (Hld 4%nat 0) as H40. pose proof (Hld 8%nat 0) as H80. pose proof (Hld 1%nat 0) as H10.
  rewrite Z.add_0_r in H40, H80, H10.
  destruct t; cbn [hdr_getters] in Hg; repeat (apply elem_of_cons in Hg as [->|Hg]);
    try (by apply not_elem_of_nil in Hg); cbn [hdr_bytes] in *.
  all: unfold RXE_BTH_BYTES, RXE_RETH_BYTES, RXE_AETH_BYTES, RXE_ATMETH_BYTES,
    RXE_ATMACK_BYTES, RXE_IETH_BYTES, RXE_RDETH_BYTES, RXE_DETH_BYTES, RXE_IMMDT_BYTES in *.
  all: rewrite ?Hb in *.
  all: unfold bth_opcode, bth_se, bth_mig, bth_pad, bth_tver, bth_pkey, bth_qpn, bth_fecn, bth_becn,
    bth_resv6a, bth_ack, bth_psn, reth_va, reth_rkey, reth_len, aeth_syn, aeth_msn, atmeth_va,
    atmeth_rkey, atmeth_swap_add, atmeth_comp, atmack_orig, ieth_rkey, rdeth_een, deth_qkey,
    deth_sqp, immdt_imm.
  all: rewrite ?Hoff, ?Hext; cbv delta [__bth_opcode __bth_se __bth_mig __bth_pad __bth_tver __bth_pkey
    __bth_qpn __bth_fecn __bth_becn __bth_resv6a __bth_ack __bth_psn __reth_va __reth_rkey __reth_len
    __aeth_syn __aeth_msn __atmeth_va __atmeth_rkey __atmeth_swap_add __atmeth_comp __atmack_orig
    __ieth_rkey __rdeth_een __deth_qkey __deth_sqp __immdt_imm load_u8 load_be16 load_be32 load_be64]
    beta.
  all: first [rewrite Hld by (cbn; lia) | rewrite H40 by (cbn; lia) | rewrite H80 by (cbn; lia)
             | rewrite H10 by (cbn; lia)]; reflexivity.
Qed.

(** In a packet of any opcode of the table, writing a field of one header
    the opcode carries never changes a field of another header. *)
Theorem hdr_noninterference pkt t t' set get v :
  pkt_ok pkt → t ∈ wire_headers (pkt_opcode pkt) → t' ∈ wire_headers (pkt_opcode pkt) →
  t ≠ t' → set ∈ hdr_setters t → get ∈ hdr_getters t' →
  pkt_ok (set pkt v) ∧ get (set pkt v) = get pkt.
Proof.
  intros Hok Ht Ht' Hne Hs Hg.
  destruct (hdr_setter_frame pkt t set v Hok Ht Hs) as (Hop & Hoff & Hlen & Hfr). split.
  - destruct Hok. split; unfold header_size in *; rewrite ?Hop, ?Hoff, ?Hlen; done.
  - eapply hdr_getter_local; try done. intros p Hp. apply Hfr.
    + pose proof (hdr_range pkt t' Hok Ht') as [? _]. lia.
    + destruct (hdr_range pkt t Hok Ht) as (_ & _ & Hd). destruct (Hd t' Ht' Hne); lia.
Qed.

Lemma hdr_noninterference_witness :
  let pkt := PktInfo (replicate 32 0) 0 0 0 0 1 IB_OPCODE_RC_RDMA_WRITE_ONLY_WITH_IMMEDIATE 0 in
  immdt_imm (reth_set_len pkt 77) = immdt_imm pkt.
Proof.
  intros pkt.
  destruct (hdr_noninterference pkt RXE_RETH RXE_IMMDT reth_set_len immdt_imm 77) as [_ H];
    [split; [apply list_elem_of_In; vm_compute; tauto|done|vm_compute; discriminate]
    |apply list_elem_of_In; vm_compute; tauto|apply list_elem_of_In; vm_compute; tauto|done
    |apply list_elem_of_In; cbn; tauto|apply list_elem_of_In; cbn; tauto|].
  exact H.
Defined.

Lemma ext_offset_upd pkt f t : ext_offset (pkt <| pkt_hdr ::= f |>) t = ext_offset pkt t.
Proof. reflexivity. Qed.

(** For every extension header the opcode of the packet carries, a value
    written to a field is the value read from it, cut to the field's width. *)
Theorem ext_set_get pkt v :
  pkt_ok pkt →
  let has t := has_hdr (pkt_opcode pkt) t = true in
  (has RXE_RETH → reth_va (reth_set_va pkt v) = u64 v ∧
     reth_rkey (reth_set_rkey pkt v) = u32 v ∧ reth_len (reth_set_len pkt v) = u32 v) ∧
  (has RXE_ATMETH → atmeth_va (atmeth_set_va pkt v) = u64 v ∧
     atmeth_rkey (atmeth_set_rkey pkt v) = u32 v ∧
     atmeth_swap_add (atmeth_set_swap_add pkt v) = u64 v ∧
     atmeth_comp (atmeth_set_comp pkt v) = u64 v) ∧
  (has RXE_AETH → aeth_syn (aeth_set_syn pkt v) = u8 v ∧ aeth_msn (aeth_set_syn pkt v) = aeth_msn pkt ∧
     aeth_msn (aeth_set_msn pkt v) = v mod 2 ^ 24 ∧ aeth_syn (aeth_set_msn pkt v) = aeth_syn pkt) ∧
  (has RXE_ATMACK → atmack_orig (atmack_set_orig pkt v) = u64 v) ∧
  (has RXE_IMMDT → immdt_imm (immdt_set_imm pkt v) = u32 v) ∧
  (has RXE_IETH → ieth_rkey (ieth_set_rkey pkt v) = u32 v) ∧
  (has RXE_DETH → deth_qkey (deth_set_qkey pkt v) = u32 v ∧ deth_sqp (deth_set_sqp pkt v) = v mod 2 ^ 24).
Proof.
  intros Hok has.
  assert (Hr : ∀ t, t ∈ wire_order → has t → 0 ≤ ext_offset pkt t ∧
    ext_offset pkt t + hdr_bytes t ≤ Z.of_nat (length (pkt_hdr pkt))).
  { intros t Hw Ht. destruct (hdr_range pkt t Hok) as (? & ? & _); [|done].
    apply elem_of_cons. right. by apply list_elem_of_filter. }
  repeat apply conj; intros Ht; apply Hr in Ht as [? Hroom]; try (apply list_elem_of_In; cbn; tauto);
    cbn in Hroom; try repeat apply conj.
  all: unfold RXE_RETH_BYTES, RXE_AETH_BYTES, RXE_ATMETH_BYTES, RXE_ATMACK_BYTES, RXE_IETH_BYTES,
    RXE_DETH_BYTES, RXE_IMMDT_BYTES in Hroom.
  all: unfold reth_va, reth_rkey, reth_len, atmeth_va, atmeth_rkey, atmeth_swap_add, atmeth_comp,
    aeth_syn, aeth_msn, atmack_orig, immdt_imm, ieth_rkey, deth_qkey, deth_sqp,
    reth_set_va, reth_set_rkey, reth_set_len, atmeth_set_va, atmeth_set_rkey, atmeth_set_swap_add,
    atmeth_set_comp, aeth_set_syn, aeth_set_msn, atmack_set_orig, immdt_set_imm, ieth_set_rkey,
    deth_set_qkey, deth_set_sqp.
  all: rewrite ?ext_offset_upd; cbn [pkt_hdr upd_field].
  all: try (apply (load_store_eq 8); cbn; lia); try (apply (load_store_eq 4); cbn; lia).
  all: unfold __aeth_syn, __aeth_msn, __aeth_set_syn, __aeth_set_msn, __deth_sqp, __deth_set_sqp, u8.
  all: change AETH_SYN_MASK with (fmask 8 24); change AETH_MSN_MASK with (fmask 24 0);
    change DETH_SQP_MASK with (fmask 24 0); mem_simpl.
  all: rewrite ?(bits_mask_shift 8 24), ?(bits_mask0 24) by lia; field_simpl;
    rewrite ?mod_bits by lia; try reflexivity; zbits.
Qed.

Lemma ext_set_get_witness :
  let pkt := PktInfo (replicate 44 0) 0 0 0 0 1 IB_OPCODE_RC_COMPARE_SWAP 4 in
  atmeth_comp (atmeth_set_comp pkt (2 ^ 64 + 9)) = 9.
Proof.
  intros pkt. destruct (ext_set_get pkt (2 ^ 64 + 9)) as (_ & H & _);
    [split; [apply list_elem_of_In; vm_compute; tauto|vm_compute; discriminate
            |vm_compute; discriminate]|].
  destruct (H ltac:(vm_compute; reflexivity)) as (_ & _ & _ & ->). reflexivity.
Defined.

(** The getters of the LRH addresses and packet length and of the RDETH
    end-to-end context return a byte, so that only the low eight bits of what
    the setter stored are read back. *)
Theorem byte_getters_truncate h o v :
  0 ≤ o → o + RXE_LRH_BYTES ≤ Z.of_nat (length h) →
  __lrh_dlid (__lrh_set_dlid h o v) o = u8 v ∧
  __lrh_slid (__lrh_set_slid h o v) o = u8 v ∧
  __lrh_length (__lrh_set_length h o v) o = u8 v ∧
  __rdeth_een (__rdeth_set_een h o v) o = u8 v.
Proof.
  unfold RXE_LRH_BYTES. intros Ho Hl.
  unfold __lrh_dlid, __lrh_set_dlid, __lrh_slid, __lrh_set_slid, __lrh_length, __lrh_set_length,
    __rdeth_een, __rdeth_set_een, u8.
  change LRH_LENGTH_MASK with (fmask 11 0). change RDETH_EEN_MASK with (fmask 24 0).
  mem_simpl. repeat split; zbits.
Qed.

Lemma byte_getters_truncate_witness :
  __lrh_dlid (__lrh_set_dlid (replicate 8 0) 0 0x1234) 0 = 0x34.
Proof.
  destruct (byte_getters_truncate (replicate 8 0) 0 0x1234) as [-> _];
    [lia|vm_compute; discriminate|reflexivity].
Defined.
