(* ===== verification/Verbs.v ===== *)
(** * The verbs objects (rxe_verbs.h, include/rdma/ib_verbs.h)

    Work requests, work queue elements, completions and the comparison
    helpers the protocol engines share. A C union whose members the code
    distinguishes by opcode is a record with the members side by side. *)

From S2P Require Import Prelude.

(** ** Constants of ib_verbs.h *)

Definition IB_WC_SUCCESS : Z := 0.
Definition IB_WC_LOC_LEN_ERR : Z := 1.
Definition IB_WC_LOC_QP_OP_ERR : Z := 2.
Definition IB_WC_LOC_PROT_ERR : Z := 4.
Definition IB_WC_WR_FLUSH_ERR : Z := 5.
Definition IB_WC_BAD_RESP_ERR : Z := 7.
Definition IB_WC_REM_INV_REQ_ERR : Z := 9.
Definition IB_WC_REM_ACCESS_ERR : Z := 10.
Definition IB_WC_REM_OP_ERR : Z := 11.
Definition IB_WC_RETRY_EXC_ERR : Z := 12.
Definition IB_WC_RNR_RETRY_EXC_ERR : Z := 13.
Definition IB_WC_REM_INV_RD_REQ_ERR : Z := 15.

Definition IB_WC_SEND : Z := 0.
Definition IB_WC_RDMA_WRITE : Z := 1.
Definition IB_WC_RDMA_READ : Z := 2.
Definition IB_WC_COMP_SWAP : Z := 3.
Definition IB_WC_FETCH_ADD : Z := 4.
Definition IB_WC_LSO : Z := 6.
Definition IB_WC_LOCAL_INV : Z := 7.
Definition IB_WC_FAST_REG_MR : Z := 8.
Definition IB_WC_RECV : Z := 128.
Definition IB_WC_RECV_RDMA_WITH_IMM : Z := 129.

Definition IB_WC_GRH : Z := 1.
Definition IB_WC_WITH_IMM : Z := 2.
Definition IB_WC_WITH_INVALIDATE : Z := 4.

Definition IB_SEND_FENCE : Z := 1.
Definition IB_SEND_SIGNALED : Z := 2.
Definition IB_SEND_SOLICITED : Z := 4.
Definition IB_SEND_INLINE : Z := 8.

Definition IB_ACCESS_LOCAL_WRITE : Z := 1.
Definition IB_ACCESS_REMOTE_WRITE : Z := 2.
Definition IB_ACCESS_REMOTE_READ : Z := 4.
Definition IB_ACCESS_REMOTE_ATOMIC : Z := 8.

Definition IB_CQ_SOLICITED : Z := 1.
Definition IB_CQ_NEXT_COMP : Z := 2.
Definition IB_CQ_SOLICITED_MASK : Z := 3.
Definition IB_CQ_REPORT_MISSED_EVENTS : Z := 4.

Definition IB_SIGNAL_ALL_WR : Z := 0.
Definition IB_SIGNAL_REQ_WR : Z := 1.

Definition IB_MULTICAST_QPN : Z := 0xffffff.

(** ** Helpers of rxe_verbs.h *)

Definition pkey_match (key1 key2 : Z) : bool :=
  negb (key1 .& 0x7fff =? 0) && (key1 .& 0x7fff =? key2 .& 0x7fff) &&
  (flag_set key1 0x8000 || flag_set key2 0x8000).

(** The difference of two 24-bit sequence numbers in the top bits of a signed
    32-bit integer. *)
Definition psn_compare (psn_a psn_b : Z) : Z :=
  s32 (Z.shiftl (u32 (psn_a - psn_b)) 8).

(** ** Scatter/gather lists and transfers in progress *)

Record ib_sge := Sge {
  sge_addr : Z;
  sge_length : Z;
  sge_lkey : Z
}.

(** The inline data and the scatter/gather list share their place in C; a
    send flag tells which one is in use. *)
Record rxe_dma_info := Dma {
  dma_length : Z;
  dma_resid : Z;
  dma_cur_sge : Z;
  dma_num_sge : Z;
  dma_sge_offset : Z;
  dma_inline_data : list Z;
  dma_sge : list ib_sge
}.

#[export] Instance eta_rxe_dma_info : Eta rxe_dma_info := fun r =>
  Dma (dma_length r) (dma_resid r) (dma_cur_sge r) (dma_num_sge r) (dma_sge_offset r)
    (dma_inline_data r) (dma_sge r).

(** ** Work requests and work queue elements *)

Record ib_send_wr := SendWr {
  wr_id : Z;
  wr_opcode : Z;
  wr_send_flags : Z;
  wr_imm_data : Z;
  wr_invalidate_rkey : Z;
  wr_remote_addr : Z;
  wr_rkey : Z;
  wr_compare_add : Z;
  wr_swap : Z;
  wr_remote_qpn : Z;
  wr_remote_qkey : Z;
  wr_pkey_index : Z
}.

#[export] Instance eta_ib_send_wr : Eta ib_send_wr := fun r =>
  SendWr (wr_id r) (wr_opcode r) (wr_send_flags r) (wr_imm_data r) (wr_invalidate_rkey r)
    (wr_remote_addr r) (wr_rkey r) (wr_compare_add r) (wr_swap r) (wr_remote_qpn r)
    (wr_remote_qkey r) (wr_pkey_index r).

Inductive wqe_state : Type :=
  | wqe_state_posted | wqe_state_processing | wqe_state_pending
  | wqe_state_done | wqe_state_error.

#[export] Instance wqe_state_eq_dec : EqDecision wqe_state.
Proof. solve_decision. Defined.

Definition IB_AH_GRH : Z := 1.

(** [struct ib_ah_attr] with its route, and the address vector. *)
Record ib_ah_attr := AhAttr {
  ah_dgid_prefix : Z;
  ah_dgid_guid : Z;
  ah_flow_label : Z;
  ah_sgid_index : Z;
  ah_hop_limit : Z;
  ah_traffic_class : Z;
  ah_dlid : Z;
  ah_sl : Z;
  ah_src_path_bits : Z;
  ah_static_rate : Z;
  ah_ah_flags : Z;
  ah_port_num : Z
}.

#[export] Instance eta_ib_ah_attr : Eta ib_ah_attr := fun r =>
  AhAttr (ah_dgid_prefix r) (ah_dgid_guid r) (ah_flow_label r) (ah_sgid_index r) (ah_hop_limit r)
    (ah_traffic_class r) (ah_dlid r) (ah_sl r) (ah_src_path_bits r) (ah_static_rate r) (ah_ah_flags r)
    (ah_port_num r).

Record rxe_av := Av {
  av_attr : ib_ah_attr;
  av_ll_addr : list Z
}.

#[export] Instance eta_rxe_av : Eta rxe_av := fun r => Av (av_attr r) (av_ll_addr r).

Record rxe_send_wqe := SendWqe {
  wqe_ibwr : ib_send_wr;
  wqe_av : rxe_av;
  wqe_status : Z;
  wqe_st : wqe_state;
  wqe_iova : Z;
  wqe_mask : Z;
  wqe_first_psn : Z;
  wqe_last_psn : Z;
  wqe_ack_length : Z;
  wqe_ssn : Z;
  wqe_has_rd_atomic : bool;
  wqe_dma : rxe_dma_info
}.

#[export] Instance eta_rxe_send_wqe : Eta rxe_send_wqe := fun r =>
  SendWqe (wqe_ibwr r) (wqe_av r) (wqe_status r) (wqe_st r) (wqe_iova r) (wqe_mask r)
    (wqe_first_psn r) (wqe_last_psn r) (wqe_ack_length r) (wqe_ssn r) (wqe_has_rd_atomic r)
    (wqe_dma r).

Record rxe_recv_wqe := RecvWqe {
  rwqe_wr_id : Z;
  rwqe_num_sge : Z;
  rwqe_dma : rxe_dma_info
}.

#[export] Instance eta_rxe_recv_wqe : Eta rxe_recv_wqe := fun r =>
  RecvWqe (rwqe_wr_id r) (rwqe_num_sge r) (rwqe_dma r).

(** A completion; the kernel and the user layout of the union have these
    fields in common. *)
Record ib_wc := Wc {
  wc_wr_id : Z;
  wc_status : Z;
  wc_opcode : Z;
  wc_byte_len : Z;
  wc_qp_num : Z;
  wc_imm_data : Z;
  wc_invalidate_rkey : Z;
  wc_src_qp : Z;
  wc_flags : Z;
  wc_pkey_index : Z;
  wc_slid : Z;
  wc_sl : Z;
  wc_port_num : Z
}.

#[export] Instance eta_ib_wc : Eta ib_wc := fun r =>
  Wc (wc_wr_id r) (wc_status r) (wc_opcode r) (wc_byte_len r) (wc_qp_num r) (wc_imm_data r)
    (wc_invalidate_rkey r) (wc_src_qp r) (wc_flags r) (wc_pkey_index r) (wc_slid r) (wc_sl r)
    (wc_port_num r).

Definition zero_wc : ib_wc := Wc 0 0 0 0 0 0 0 0 0 0 0 0 0.

(** ** Packet sequence numbers as a circle of [2^24] points *)

(** The signed distance from [b] to [a] around the circle. *)
Definition psn_dist (a b : Z) : Z := (a - b + 2 ^ 23) mod 2 ^ 24 - 2 ^ 23.

Lemma psn_compare_dist a b : psn_compare a b = 2 ^ 8 * psn_dist a b.
Proof.
  unfold psn_compare, psn_dist, s32, u32. rewrite Z.shiftl_mul_pow2 by lia.
  Z.div_mod_to_equations. lia.
Qed.

(** [psn_compare] orders sequence numbers around the circle: it is zero
    exactly for equal numbers, and for two numbers less than half the circle
    apart its sign says which one is ahead, whether or not the counter has
    wrapped between them. *)
Theorem psn_compare_spec a n :
  0 ≤ a < 2 ^ 24 → - 2 ^ 23 < n < 2 ^ 23 →
  let b := (a + n) mod 2 ^ 24 in
  (0 < psn_compare b a ↔ 0 < n) ∧ (psn_compare b a < 0 ↔ n < 0) ∧
  (psn_compare b a = 0 ↔ b = a) ∧ psn_compare a b = - psn_compare b a.
Proof.
  intros Ha Hn b. assert (E1 : psn_dist b a = n).
  { unfold b, psn_dist. Z.div_mod_to_equations. lia. }
  assert (E2 : psn_dist a b = - n).
  { unfold b, psn_dist. Z.div_mod_to_equations. lia. }
  rewrite !psn_compare_dist, E1, E2. unfold b.
  repeat split; try lia; intros; Z.div_mod_to_equations; lia.
Qed.

Lemma psn_compare_spec_witness : 0 < psn_compare 2 0xfffffe.
Proof. destruct (psn_compare_spec 0xfffffe 4) as [H _]; [lia..|]. by apply H. Defined.

(** Two partition keys match when their low 15 bits agree and are not
    zero and at least one has full membership; the relation is symmetric. *)
Theorem pkey_match_spec key1 key2 :
  0 ≤ key1 < 2 ^ 16 → 0 ≤ key2 < 2 ^ 16 →
  (pkey_match key1 key2 = true ↔
     key1 mod 2 ^ 15 = key2 mod 2 ^ 15 ∧ key1 mod 2 ^ 15 ≠ 0 ∧
     (2 ^ 15 ≤ key1 ∨ 2 ^ 15 ≤ key2)) ∧
  pkey_match key1 key2 = pkey_match key2 key1.
Proof.
  assert (Hf : ∀ k, 0 ≤ k < 2 ^ 16 → flag_set k 0x8000 = true ↔ 2 ^ 15 ≤ k).
  { intros k Hk. change 0x8000 with (2 ^ 15). rewrite flag_set_pow2, Z.testbit_true by lia.
    Z.div_mod_to_equations. lia. }
  intros H1 H2. unfold pkey_match. change 0x7fff with (2 ^ 15 - 1). rewrite !land_mask by lia.
  split.
  - rewrite !andb_true_iff, orb_true_iff, negb_true_iff, Z.eqb_neq, Z.eqb_eq, !Hf by done. tauto.
  - apply eq_true_iff_eq. rewrite !andb_true_iff, !orb_true_iff, !negb_true_iff, !Z.eqb_neq, !Z.eqb_eq.
    intuition congruence.
Qed.

Lemma pkey_match_spec_witness : pkey_match 0x8001 0x0001 = true.
Proof.
  destruct (pkey_match_spec 0x8001 0x0001) as [H _]; [lia..|]. apply H.
  split; [reflexivity|]. split; [discriminate|left; lia].
Defined.
