(* ===== verification/Icrc.v ===== *)
(** * CRC32 and the invariant CRC (lib/crc32.c, rxe_icrc.c)

    The bit-by-bit form of the little-endian CRC is the reference all the
    table-driven variants of lib/crc32.c compute. *)

From S2P Require Import Prelude Bits Opcode Hdr.

Definition CRCPOLY_LE : Z := 0xedb88320.

Definition crc_bit (crc : Z) : Z :=
  Z.lxor (Z.shiftr crc 1) (if flag_set crc 1 then CRCPOLY_LE else 0).

Definition crc_byte (crc b : Z) : Z := Nat.iter 8 crc_bit (Z.lxor crc b).

Definition crc32_le (crc : Z) (p : list Z) : Z := fold_left crc_byte p crc.

(** Computing the CRC of a buffer in pieces gives the CRC of the whole. *)
Lemma crc32_le_app crc p q : crc32_le crc (p ++ q) = crc32_le (crc32_le crc p) q.
Proof. apply fold_left_app. Qed.

(** The bytes [n] from offset [o] on. *)
Definition slice (h : list Z) (o n : Z) : list Z := take (Z.to_nat n) (drop (Z.to_nat o) h).

(** The header lengths in front of the BTH, and the masked copy of the
    headers the CRC starts with. *)
Definition rxe_icrc_hdr (pkt : rxe_pkt_info) : Z :=
  let crc := 0xdebb20e3 in
  let lrh := flag_set (pkt_mask pkt) RXE_LRH_MASK in
  let grh := flag_set (pkt_mask pkt) RXE_GRH_MASK in
  let length := RXE_BTH_BYTES + (if lrh then RXE_LRH_BYTES else 0)
                + (if grh then RXE_GRH_BYTES else 0) in
  let grh_offset := if lrh then RXE_LRH_BYTES else 0 in
  let bth_offset := (if lrh then RXE_LRH_BYTES else 0) + (if grh then RXE_GRH_BYTES else 0) in
  let tmp := slice (pkt_hdr pkt) 0 length in
  let tmp := if grh then
      let tmp := store_u8 tmp grh_offset (load_u8 tmp grh_offset .| 0x0f) in
      let tmp := store_u8 tmp (grh_offset + 1) 0xff in
      let tmp := store_u8 tmp (grh_offset + 2) 0xff in
      let tmp := store_u8 tmp (grh_offset + 3) 0xff in
      store_u8 tmp (grh_offset + 7) 0xff
    else tmp in
  let tmp := store_u8 tmp (bth_offset + 4) 0xff in
  let crc := crc32_le crc (slice tmp grh_offset (length - grh_offset)) in
  crc32_le crc (slice (pkt_hdr pkt) length (opcode_length (pkt_opcode pkt) - RXE_BTH_BYTES)).

Definition not32 (x : Z) : Z := Z.lxor x 0xffffffff.

Definition rxe_icrc_pkt (pkt : rxe_pkt_info) : Z :=
  let crc := rxe_icrc_hdr pkt in
  let size := pkt_paylen pkt - opcode_length (pkt_opcode pkt) - RXE_ICRC_SIZE in
  not32 (crc32_le crc (slice (pkt_hdr pkt) (payload_addr pkt) size)).

(** The seed of the header CRC is the CRC of the eight bytes of a masked
    local route header, started from all ones. *)
Theorem icrc_seed : ∀ pkt,
  pkt_mask pkt .& (RXE_LRH_MASK .| RXE_GRH_MASK) = 0 → opcode_length (pkt_opcode pkt) = RXE_BTH_BYTES →
  rxe_icrc_hdr pkt =
    crc32_le 0xffffffff (replicate 8 0xff ++ store_u8 (slice (pkt_hdr pkt) 0 RXE_BTH_BYTES) 4 0xff).
Proof.
  intros pkt Hm Hl. rewrite crc32_le_app.
  replace (crc32_le 0xffffffff (replicate 8 0xff)) with 0xdebb20e3 by (vm_compute; reflexivity).
  assert (Hb : ∀ i, 0 ≤ i → Z.testbit (RXE_LRH_MASK .| RXE_GRH_MASK) i = true →
    Z.testbit (pkt_mask pkt) i = false).
  { intros i Hi Hx. apply (f_equal (fun z => Z.testbit z i)) in Hm.
    rewrite Z.land_spec, Hx, Z.bits_0, andb_true_r in Hm. done. }
  unfold rxe_icrc_hdr.
  replace (flag_set (pkt_mask pkt) RXE_LRH_MASK) with false
    by (symmetry; rewrite (flag_set_pow2 _ 0) by lia; apply Hb; [lia|done]).
  replace (flag_set (pkt_mask pkt) RXE_GRH_MASK) with false
    by (symmetry; rewrite (flag_set_pow2 _ 1) by lia; apply Hb; [lia|done]).
  rewrite Hl. unfold RXE_BTH_BYTES. rewrite !Z.add_0_r, Z.sub_0_r, Z.sub_diag, Z.add_0_l.
  unfold slice at 1 3. cbn [Z.to_nat take]. rewrite drop_0, take_ge; [done|].
  unfold store_u8, slice. rewrite length_store_be, length_take. lia.
Qed.

Lemma icrc_seed_witness :
  let pkt := PktInfo (0x81 :: replicate 11 0) 0 0 0 16 1 0x04 0 in
  rxe_icrc_hdr pkt =
    crc32_le 0xffffffff (replicate 8 0xff ++ store_u8 (slice (pkt_hdr pkt) 0 RXE_BTH_BYTES) 4 0xff).
Proof. apply icrc_seed; vm_compute; reflexivity. Defined.
