(* ===== verification/Mr.v ===== *)
(** * Memory regions (rxe_mr.c)

    A memory region translates I/O virtual addresses to the buffers of a
    two-level page list. This file has its creation, the translation, the
    copy between a region and a packet, the copy under the control of a
    scatter/gather list, and the lookup of a region by its key. *)

From stdpp Require Import gmap.
From S2P Require Import Prelude Verbs Icrc.

Inductive rxe_mem_state : Type :=
  | RXE_MEM_STATE_ZOMBIE | RXE_MEM_STATE_INVALID | RXE_MEM_STATE_FREE | RXE_MEM_STATE_VALID.

Inductive rxe_mem_type : Type :=
  | RXE_MEM_TYPE_NONE | RXE_MEM_TYPE_DMA | RXE_MEM_TYPE_MR | RXE_MEM_TYPE_FMR | RXE_MEM_TYPE_MW.

#[export] Instance rxe_mem_state_eq_dec : EqDecision rxe_mem_state.
Proof. solve_decision. Defined.
#[export] Instance rxe_mem_type_eq_dec : EqDecision rxe_mem_type.
Proof. solve_decision. Defined.

Record ib_phys_buf := PhysBuf { pb_addr : Z; pb_size : Z }.

(** [PAGE_SIZE / sizeof(struct ib_phys_buf)]. *)
Definition RXE_BUF_PER_MAP : Z := 256.

(** The pool element (its index and reference count) comes first. *)
Record rxe_mem := Mem {
  mem_index : Z;
  mem_ref : Z;
  mem_pd : option Z;
  mem_umem : option Z;
  mem_lkey : Z;
  mem_rkey : Z;
  mem_state : rxe_mem_state;
  mem_type : rxe_mem_type;
  mem_va : Z;
  mem_iova : Z;
  mem_length : Z;
  mem_offset : Z;
  mem_access : Z;
  mem_page_shift : Z;
  mem_page_mask : Z;
  mem_map_shift : Z;
  mem_map_mask : Z;
  mem_num_buf : Z;
  mem_max_buf : Z;
  mem_num_map : Z;
  mem_map : option (list (list ib_phys_buf))
}.

#[export] Instance eta_rxe_mem : Eta rxe_mem := fun r =>
  Mem (mem_index r) (mem_ref r) (mem_pd r) (mem_umem r) (mem_lkey r) (mem_rkey r) (mem_state r)
    (mem_type r) (mem_va r) (mem_iova r) (mem_length r) (mem_offset r) (mem_access r)
    (mem_page_shift r) (mem_page_mask r) (mem_map_shift r) (mem_map_mask r) (mem_num_buf r)
    (mem_max_buf r) (mem_num_map r) (mem_map r).

(** ** Keys *)

(** The static variable [key] is the state; the new state is the result. *)
Definition rxe_get_key (key : Z) : Z :=
  let key := u32 (Z.shiftl key 1) in
  let bit := xorb (xorb (xorb (flag_set key 0x100) (flag_set key 0x10)) (flag_set key 0x80))
               (flag_set key 0x40) in
  (key .| Zbool bit) .& 0xff.

(** ** Creation *)

Definition mem_check_range (mem : rxe_mem) (iova length : Z) : result unit :=
  match mem_type mem with
  | RXE_MEM_TYPE_DMA => Ok tt
  | RXE_MEM_TYPE_MR | RXE_MEM_TYPE_FMR =>
      if (iova <? mem_iova mem) || (u64 (iova + length) >? u64 (mem_iova mem + mem_length mem))
      then Err EFAULT else Ok tt
  | _ => Err EFAULT
  end.

Definition IB_ACCESS_REMOTE : Z :=
  IB_ACCESS_REMOTE_READ .| IB_ACCESS_REMOTE_WRITE .| IB_ACCESS_REMOTE_ATOMIC.

(** The copies of the keys in [ibmr] or [ibfmr] are those of the region. *)
Definition rxe_mem_init (key access : Z) (mem : rxe_mem) : rxe_mem * Z :=
  let key := rxe_get_key key in
  let lkey := u32 (Z.shiftl (mem_index mem) 8) .| key in
  let rkey := if flag_set access IB_ACCESS_REMOTE then lkey else 0 in
  (Mem (mem_index mem) (mem_ref mem) None None lkey rkey RXE_MEM_STATE_INVALID RXE_MEM_TYPE_NONE
     0 0 0 0 0 0 0 (Z.log2 RXE_BUF_PER_MAP) 0 0 0 0 None, key).

(** What the driver gives back to the allocator. *)
Inductive mem_free : Type :=
  | FreeUmem (umem : Z)
  | FreeMapEntry (i : nat)
  | FreeMap.

Definition rxe_mem_cleanup (mem : rxe_mem) : list mem_free :=
  match mem_umem mem with Some u => [FreeUmem u] | None => [] end ++
  match mem_map mem with
  | Some _ => map FreeMapEntry (seq 0 (Z.to_nat (mem_num_map mem))) ++ [FreeMap]
  | None => []
  end.

(** [avail] is the number of allocations that succeed; [junk] is what a fresh
    page list entry holds. On failure of a later allocation the pages and the
    map are freed, and [mem->map] still points to the map. *)
Definition rxe_mem_alloc (avail : Z) (junk : ib_phys_buf) (mem : rxe_mem) (num_buf : Z)
    : rxe_mem * list mem_free * result unit :=
  let num_map := (num_buf + RXE_BUF_PER_MAP - 1) / RXE_BUF_PER_MAP in
  if avail <? 1 then (mem <| mem_map := None |>, [], Err ENOMEM) else
  let page := replicate (Z.to_nat RXE_BUF_PER_MAP) junk in
  if avail <? 1 + num_map then
    let n := Z.to_nat (avail - 1) in
    (mem <| mem_map := Some (replicate n page) |>,
     map FreeMapEntry (rev (seq 0 n)) ++ [FreeMap], Err ENOMEM)
  else
    (mem <| mem_map := Some (replicate (Z.to_nat num_map) page) |>
         <| mem_map_shift := Z.log2 RXE_BUF_PER_MAP |>
         <| mem_map_mask := RXE_BUF_PER_MAP - 1 |>
         <| mem_num_buf := num_buf |>
         <| mem_num_map := num_map |>
         <| mem_max_buf := num_map * RXE_BUF_PER_MAP |>, [], Ok tt).

Definition rxe_mem_init_dma (key : Z) (pd access : Z) (mem : rxe_mem) : rxe_mem * Z :=
  let '(mem, key) := rxe_mem_init key access mem in
  (mem <| mem_pd := Some pd |> <| mem_access := access |>
       <| mem_state := RXE_MEM_STATE_VALID |> <| mem_type := RXE_MEM_TYPE_DMA |>, key).

(** The fill loop of the three functions that store buffers into the page
    list: [m], [n] are the positions of [map] and [buf]; the last component
    says that [map] was advanced past the end of the page list and read. *)
Fixpoint fill_bufs (mp : list (list ib_phys_buf)) (m n : nat) (bufs : list ib_phys_buf)
    : list (list ib_phys_buf) * bool :=
  match bufs with
  | [] => (mp, false)
  | b :: bufs =>
      let mp := alter (<[n := b]>) m mp in
      if (Z.of_nat n + 1 =? RXE_BUF_PER_MAP) then
        let '(mp', oob) := fill_bufs mp (S m) 0 bufs in
        (mp', oob || (length mp <=? S m)%nat)
      else fill_bufs mp m (S n) bufs
  end.

(** The running [max_t(int, ..)] and [min_t(int, ..)] of the buffer sizes. *)
Definition max_min_size (bufs : list ib_phys_buf) : Z * Z :=
  fold_left (fun '(mx, mn) b =>
      (ulong (Z.max (s32 mx) (s32 (pb_size b))), ulong (Z.min (s32 mn) (s32 (pb_size b)))))
    bufs (0, ulong (-1)).

Definition is_power_of_2 (n : Z) : bool := negb (n =? 0) && (n .& (n - 1) =? 0).

Definition rxe_mem_init_phys (key avail : Z) (junk : ib_phys_buf) (pd access iova : Z)
    (bufs : list ib_phys_buf) (mem : rxe_mem) : rxe_mem * Z * list mem_free * result unit :=
  let num_buf := Z.of_nat (length bufs) in
  let '(mem, key) := rxe_mem_init key access mem in
  match rxe_mem_alloc avail junk mem num_buf with
  | (mem, fr, Err e) => (mem, key, fr, Err e)
  | (mem, fr, Ok _) =>
      let '(mx, mn) := max_min_size bufs in
      let mem := mem <| mem_map ::= fmap (fun mp => (fill_bufs mp 0 0 bufs).1) |> in
      let mem := if (mx =? mn) && is_power_of_2 mx
        then mem <| mem_page_shift := Z.log2 mx |> <| mem_page_mask := mx - 1 |> else mem in
      (mem <| mem_pd := Some pd |> <| mem_access := access |> <| mem_iova := iova |>
           <| mem_va := iova |>
           <| mem_length := ulong (fold_left (fun l b => ulong (l + pb_size b)) bufs 0) |>
           <| mem_state := RXE_MEM_STATE_VALID |> <| mem_type := RXE_MEM_TYPE_MR |>,
       key, fr, Ok tt)
  end.

(** A pinned user buffer: the pages of its chunks with their kernel addresses
    ([None] for a page that has none), the page size and the offset of the
    first byte. *)
Record ib_umem := Umem {
  umem_ptr : Z;
  umem_page_size : Z;
  umem_offset : Z;
  umem_chunks : list (list (option Z))
}.

Definition umem_pages (u : ib_umem) : list (option Z) := concat (umem_chunks u).

Definition rxe_mem_init_user (key avail : Z) (junk : ib_phys_buf) (umem : result ib_umem)
    (pd start length iova access : Z) (mem : rxe_mem)
    : rxe_mem * Z * list mem_free * result unit :=
  match umem with
  | Err _ => (mem, key, [], Err EINVAL)
  | Ok u =>
      let num_buf := Z.of_nat (List.length (umem_pages u)) in
      let mem := mem <| mem_umem := Some (umem_ptr u) |> in
      let '(mem, key) := rxe_mem_init key access mem in
      match rxe_mem_alloc avail junk mem num_buf with
      | (mem, fr, Err e) => (mem, key, fr, Err e)
      | (mem, fr, Ok _) =>
          let mem := mem <| mem_page_shift := Z.log2 (umem_page_size u) |>
                         <| mem_page_mask := umem_page_size u - 1 |> in
          let pages := if length >? 0 then umem_pages u else [] in
          let good := omap id pages in
          let bufs := map (fun a => PhysBuf a (umem_page_size u)) in
          match list_find (eq None) pages with
          | Some (i, _) =>
              (mem <| mem_map ::= fmap (fun mp => (fill_bufs mp 0 0 (bufs (omap id (take i pages)))).1) |>,
               key, fr, Err ENOMEM)
          | None =>
              (mem <| mem_map ::= fmap (fun mp => (fill_bufs mp 0 0 (bufs good)).1) |>
                   <| mem_pd := Some pd |> <| mem_umem := Some (umem_ptr u) |>
                   <| mem_access := access |> <| mem_length := ulong length |>
                   <| mem_iova := iova |> <| mem_va := start |>
                   <| mem_offset := umem_offset u |>
                   <| mem_state := RXE_MEM_STATE_VALID |> <| mem_type := RXE_MEM_TYPE_MR |>,
               key, fr, Ok tt)
          end
      end
  end.

Definition rxe_mem_init_fast (key avail : Z) (junk : ib_phys_buf) (pd max_pages : Z) (mem : rxe_mem)
    : rxe_mem * Z * list mem_free * result unit :=
  let '(mem, key) := rxe_mem_init key 0 mem in
  match rxe_mem_alloc avail junk mem max_pages with
  | (mem, fr, Err e) => (mem, key, fr, Err e)
  | (mem, fr, Ok _) =>
      (mem <| mem_pd := Some pd |> <| mem_max_buf := max_pages |>
           <| mem_state := RXE_MEM_STATE_FREE |> <| mem_type := RXE_MEM_TYPE_MR |>, key, fr, Ok tt)
  end.

Definition rxe_mem_init_mw (key pd : Z) (mem : rxe_mem) : rxe_mem * Z :=
  let '(mem, key) := rxe_mem_init key 0 mem in
  (mem <| mem_pd := Some pd |> <| mem_state := RXE_MEM_STATE_FREE |>
       <| mem_type := RXE_MEM_TYPE_MW |>, key).

Record ib_fmr_attr := FmrAttr { fmr_max_pages : Z; fmr_max_maps : Z; fmr_page_shift : Z }.

Definition rxe_mem_init_fmr (max_map_per_fmr key avail : Z) (junk : ib_phys_buf) (pd access : Z)
    (attr : ib_fmr_attr) (mem : rxe_mem) : rxe_mem * Z * list mem_free * result unit :=
  if fmr_max_maps attr >? max_map_per_fmr then (mem, key, [], Err EINVAL) else
  let '(mem, key) := rxe_mem_init key access mem in
  match rxe_mem_alloc avail junk mem (fmr_max_pages attr) with
  | (mem, fr, Err e) => (mem, key, fr, Err e)
  | (mem, fr, Ok _) =>
      (mem <| mem_pd := Some pd |> <| mem_access := access |>
           <| mem_page_shift := fmr_page_shift attr |>
           <| mem_page_mask := Z.shiftl 1 (fmr_page_shift attr) - 1 |>
           <| mem_max_buf := fmr_max_pages attr |>
           <| mem_state := RXE_MEM_STATE_FREE |> <| mem_type := RXE_MEM_TYPE_FMR |>, key, fr, Ok tt)
  end.

Definition rxe_mem_map_pages (mem : rxe_mem) (pages : list Z) (iova : Z) : rxe_mem * result unit :=
  let num_pages := Z.of_nat (length pages) in
  if num_pages >? mem_max_buf mem then (mem, Err EINVAL) else
  let page_size := Z.shiftl 1 (mem_page_shift mem) in
  (mem <| mem_map ::= fmap (fun mp => (fill_bufs mp 0 0 (map (fun a => PhysBuf a page_size) pages)).1) |>
       <| mem_iova := iova |> <| mem_va := iova |>
       <| mem_length := ulong (Z.shiftl num_pages (mem_page_shift mem)) |>
       <| mem_state := RXE_MEM_STATE_VALID |>, Ok tt).

(** ** Translation *)

Definition buf_at (mem : rxe_mem) (m n : Z) : option ib_phys_buf :=
  mp ← mem_map mem; page ← mp !! Z.to_nat m; page !! Z.to_nat n.

(** The search of [lookup_iova] from position [(m, n)]; [None] when it runs
    past the page list. *)
Fixpoint lookup_search (fuel : nat) (mem : rxe_mem) (m n offset : Z) : option (Z * Z * Z) :=
  match fuel, buf_at mem m n with
  | S fuel, Some b =>
      if offset >=? pb_size b then
        let '(m, n) := if n + 1 =? RXE_BUF_PER_MAP then (m + 1, 0) else (m, n + 1) in
        lookup_search fuel mem m n (offset - pb_size b)
      else Some (m, n, offset)
  | _, _ => None
  end.

Definition mem_bufs (mem : rxe_mem) : list ib_phys_buf := concat (default [] (mem_map mem)).

Definition lookup_iova (mem : rxe_mem) (iova : Z) : option (Z * Z * Z) :=
  let offset := ulong (iova - mem_iova mem + mem_offset mem) in
  if negb (mem_page_shift mem =? 0) then
    let off := offset .& mem_page_mask mem in
    let offset := Z.shiftr offset (mem_page_shift mem) in
    Some (Z.shiftr offset (mem_map_shift mem), offset .& mem_map_mask mem, off)
  else lookup_search (S (length (mem_bufs mem))) mem 0 0 offset.

(** [None] for a wild access, [Some None] for a null result. *)
Definition iova_to_vaddr (mem : rxe_mem) (iova length : Z) : option (option Z) :=
  if negb (bool_decide (mem_state mem = RXE_MEM_STATE_VALID)) then Some None else
  match mem_map mem with
  | None => Some (Some iova)
  | Some _ =>
      match mem_check_range mem iova length with
      | Err _ => Some None
      | Ok _ =>
          '(m, n, offset) ← lookup_iova mem iova;
          b ← buf_at mem m n;
          Some (if offset + length >? pb_size b then None else Some (pb_addr b + offset))
      end
  end.

(** ** Copying

    [phys] is the memory the buffers lie in, byte by byte. The buffer on the
    other side is a list of bytes: the data to store for [direction_in], the
    room that is overwritten for [direction_out]. *)

Inductive copy_direction : Type := direction_in | direction_out.

Notation memory := (gmap Z Z).

Definition mread (phys : memory) (a : Z) : Z := default 0 (phys !! a).

Definition mwrite (phys : memory) (addrs data : list Z) : memory :=
  fold_left (fun p '(a, b) => <[a := b]> p) (zip addrs data) phys.

(** One [memcpy] between the [n] bytes at [va] and the front of [addr], with
    the running CRC of the source; the result has the bytes of the front. *)
Definition xfer (dir : copy_direction) (phys : memory) (va n : Z) (addr : list Z) (crc : option Z)
    : memory * list Z * option Z :=
  let addrs := seqZ va n in
  let front := take (Z.to_nat n) addr in
  let src := match dir with direction_in => front | direction_out => mread phys <$> addrs end in
  (match dir with direction_in => mwrite phys addrs front | direction_out => phys end,
   src, (fun c => crc32_le c src) <$> crc).

Fixpoint mem_copy_loop (fuel : nat) (mem : rxe_mem) (m i offset : Z) (phys : memory)
    (addr : list Z) (length : Z) (dir : copy_direction) (crc : option Z)
    : option (memory * list Z * option Z) :=
  if length <=? 0 then Some (phys, addr, crc) else
  match fuel, buf_at mem m i with
  | S fuel, Some b =>
      let bytes := s32 (pb_size b - offset) in
      let bytes := if bytes >? length then length else bytes in
      if bytes <? 0 then None else
      let '(phys, front, crc) := xfer dir phys (pb_addr b + offset) bytes addr crc in
      let '(m, i) := if i + 1 =? RXE_BUF_PER_MAP then (m + 1, 0) else (m, i + 1) in
      '(phys, rest, crc) ← mem_copy_loop fuel mem m i 0 phys (drop (Z.to_nat bytes) addr)
                             (length - bytes) dir crc;
      Some (phys, front ++ rest, crc)
  | _, _ => None
  end.

(** [None] for a wild access or a missing page list. *)
Definition rxe_mem_copy (mem : rxe_mem) (iova : Z) (phys : memory) (addr : list Z) (length : Z)
    (dir : copy_direction) (crc : option Z) : option (memory * list Z * option Z * result unit) :=
  match mem_type mem with
  | RXE_MEM_TYPE_DMA =>
      let '(phys, front, crc) := xfer dir phys iova length addr crc in
      Some (phys, front ++ drop (Z.to_nat length) addr, crc, Ok tt)
  | _ =>
      match mem_map mem with
      | None => None
      | Some _ =>
          match mem_check_range mem iova length with
          | Err _ => Some (phys, addr, crc, Err EFAULT)
          | Ok _ =>
              '(m, i, offset) ← lookup_iova mem iova;
              '(phys, addr, crc) ← mem_copy_loop (S (List.length (mem_bufs mem))) mem m i offset
                                     phys addr length dir crc;
              Some (phys, addr, crc, Ok tt)
          end
      end
  end.

(** ** Lookup by key

    The three pools are the finite maps from index to element their trees
    implement; an element carries its reference count. *)

Definition RXE_MIN_MR_INDEX : Z := 0x00000001.
Definition RXE_MAX_MR_INDEX : Z := 0x00020000.
Definition RXE_MIN_FMR_INDEX : Z := 0x00020001.
Definition RXE_MAX_FMR_INDEX : Z := 0x00040000.
Definition RXE_MIN_MW_INDEX : Z := 0x00040001.
Definition RXE_MAX_MW_INDEX : Z := 0x00060000.

Inductive mem_pool : Type := mr_pool | fmr_pool | mw_pool.

#[export] Instance mem_pool_eq_dec : EqDecision mem_pool.
Proof. solve_decision. Defined.

Record mem_dev := MemDev {
  dev_mr : gmap Z rxe_mem;
  dev_fmr : gmap Z rxe_mem;
  dev_mw : gmap Z rxe_mem;
  dev_phys : memory
}.

#[export] Instance eta_mem_dev : Eta mem_dev := fun r =>
  MemDev (dev_mr r) (dev_fmr r) (dev_mw r) (dev_phys r).

Definition pool_of (dev : mem_dev) (p : mem_pool) : gmap Z rxe_mem :=
  match p with mr_pool => dev_mr dev | fmr_pool => dev_fmr dev | mw_pool => dev_mw dev end.

Definition upd_pool (dev : mem_dev) (p : mem_pool) (f : gmap Z rxe_mem → gmap Z rxe_mem) : mem_dev :=
  match p with
  | mr_pool => dev <| dev_mr ::= f |>
  | fmr_pool => dev <| dev_fmr ::= f |>
  | mw_pool => dev <| dev_mw ::= f |>
  end.

(** A reference to an element of a pool. *)
Definition mem_handle : Type := mem_pool * Z.

(** [rxe_pool_get_index] takes a reference, [rxe_drop_ref] returns it; the
    element leaves the pool with its last reference. *)
Definition mem_get_index (dev : mem_dev) (p : mem_pool) (index : Z) : mem_dev * option rxe_mem :=
  match pool_of dev p !! index with
  | None => (dev, None)
  | Some mem =>
      let mem := mem <| mem_ref ::= (λ n, n + 1) |> in
      (upd_pool dev p <[index := mem]>, Some mem)
  end.

Definition mem_drop_ref (dev : mem_dev) (h : mem_handle) : mem_dev :=
  match pool_of dev h.1 !! h.2 with
  | None => dev
  | Some mem =>
      if mem_ref mem =? 1 then upd_pool dev h.1 (delete h.2)
      else upd_pool dev h.1 <[h.2 := mem <| mem_ref ::= (λ n, n - 1) |>]>
  end.

Inductive lookup_type : Type := lookup_local | lookup_remote.

Definition key_pool (index : Z) : option mem_pool :=
  if (index >=? RXE_MIN_MR_INDEX) && (index <=? RXE_MAX_MR_INDEX) then Some mr_pool
  else if (index >=? RXE_MIN_FMR_INDEX) && (index <=? RXE_MAX_FMR_INDEX) then Some fmr_pool
  else if (index >=? RXE_MIN_MW_INDEX) && (index <=? RXE_MAX_MW_INDEX) then Some mw_pool
  else None.

Definition lookup_mem (dev : mem_dev) (pd access key : Z) (type : lookup_type)
    : mem_dev * option (mem_handle * rxe_mem) :=
  let index := Z.shiftr key 8 in
  match key_pool index with
  | None => (dev, None)
  | Some p =>
      match mem_get_index dev p index with
      | (dev, None) => (dev, None)
      | (dev, Some mem) =>
          let bad_key := match type with
            | lookup_local => negb (mem_lkey mem =? key)
            | lookup_remote => negb (mem_rkey mem =? key)
            end in
          if bad_key || negb (bool_decide (mem_pd mem = Some pd))
             || (negb (access =? 0) && negb (flag_set access (mem_access mem)))
             || negb (bool_decide (mem_state mem = RXE_MEM_STATE_VALID))
          then (mem_drop_ref dev (p, index), None)
          else (dev, Some ((p, index), mem))
      end
  end.

(** ** Scatter/gather copies *)

Definition drop_opt (dev : mem_dev) (h : option (mem_handle * rxe_mem)) : mem_dev :=
  match h with Some (h, _) => mem_drop_ref dev h | None => dev end.

Record copy_out := CopyOut {
  co_dev : mem_dev;
  co_dma : rxe_dma_info;
  co_addr : list Z;
  co_crc : option Z;
  co_res : result unit
}.

(** The transfer at the end of an iteration of [copy_data]'s loop, from the
    current entry [sge]; [continue] is the rest of the loop. *)
Definition copy_transfer
    (continue : mem_dev → rxe_dma_info → Z → Z → option (mem_handle * rxe_mem) → list Z → Z →
                option Z → option copy_out)
    (dev : mem_dev) (dma : rxe_dma_info) (sge : ib_sge) (offset resid : Z)
    (mem : option (mem_handle * rxe_mem)) (addr : list Z) (length : Z)
    (dir : copy_direction) (crc : option Z) : option copy_out :=
  let bytes := if length >? sge_length sge - offset then sge_length sge - offset else length in
  if bytes >? 0 then
    '(h, m) ← mem;
    '(phys, addr', crc, r) ← rxe_mem_copy m (u64 (sge_addr sge + offset)) (dev_phys dev)
                               addr bytes dir crc;
    let dev := dev <| dev_phys := phys |> in
    match r with
    | Err e => Some (CopyOut (mem_drop_ref dev h) dma addr' crc (Err e))
    | Ok _ =>
        o ← continue dev dma (offset + bytes) (resid - bytes) (Some (h, m))
              (drop (Z.to_nat bytes) addr') (length - bytes) crc;
        Some (CopyOut (co_dev o) (co_dma o) (take (Z.to_nat bytes) addr' ++ co_addr o)
                (co_crc o) (co_res o))
    end
  else continue dev dma offset resid mem addr length crc.

(** The loop of [copy_data]; [mem] is the region of the current entry, when
    one is held. [None] for a wild access or when [fuel] runs out. *)
Fixpoint copy_loop (fuel : nat) (pd access : Z) (dir : copy_direction) (dev : mem_dev)
    (dma : rxe_dma_info) (offset resid : Z) (mem : option (mem_handle * rxe_mem)) (addr : list Z)
    (length : Z) (crc : option Z) : option copy_out :=
  if length <=? 0 then
    Some (CopyOut (drop_opt dev mem) (dma <| dma_sge_offset := offset |> <| dma_resid := resid |>)
            addr crc (Ok tt))
  else match fuel with
  | O => None
  | S fuel =>
    let continue := copy_loop fuel pd access dir in
    sge ← dma_sge dma !! Z.to_nat (dma_cur_sge dma);
    if offset >=? sge_length sge then
      let dev := drop_opt dev mem in
      let dma := dma <| dma_cur_sge ::= (λ n, n + 1) |> in
      if dma_cur_sge dma >=? dma_num_sge dma then Some (CopyOut dev dma addr crc (Err ENOSPC))
      else
        sge ← dma_sge dma !! Z.to_nat (dma_cur_sge dma);
        if negb (sge_length sge =? 0) then
          match lookup_mem dev pd access (sge_lkey sge) lookup_local with
          | (dev, None) => Some (CopyOut dev dma addr crc (Err EINVAL))
          | (dev, Some hm) => copy_transfer continue dev dma sge 0 resid (Some hm) addr length dir crc
          end
        else continue dev dma 0 resid None addr length crc
    else copy_transfer continue dev dma sge offset resid mem addr length dir crc
  end.

Definition copy_data (dev : mem_dev) (pd access : Z) (dma : rxe_dma_info) (addr : list Z)
    (length : Z) (dir : copy_direction) (crc : option Z) : option copy_out :=
  if length =? 0 then Some (CopyOut dev dma addr crc (Ok tt)) else
  if length >? s32 (dma_resid dma) then Some (CopyOut dev dma addr crc (Err EINVAL)) else
  sge ← dma_sge dma !! Z.to_nat (dma_cur_sge dma);
  let fuel := S (S (List.length (dma_sge dma))) in
  if negb (sge_length sge =? 0) && (dma_sge_offset dma <? sge_length sge) then
    match lookup_mem dev pd access (sge_lkey sge) lookup_local with
    | (dev, None) => Some (CopyOut dev dma addr crc (Err EINVAL))
    | (dev, Some hm) =>
        copy_loop fuel pd access dir dev dma (dma_sge_offset dma) (dma_resid dma) (Some hm) addr
          length crc
    end
  else copy_loop fuel pd access dir dev dma (dma_sge_offset dma) (dma_resid dma) None addr length crc.

(** The same walk without a copy. *)
Fixpoint advance_loop (fuel : nat) (dma : rxe_dma_info) (offset resid length : Z)
    : option (rxe_dma_info * result unit) :=
  if length =? 0 then
    Some (dma <| dma_sge_offset := offset |> <| dma_resid := resid |>, Ok tt)
  else match fuel with
  | O => None
  | S fuel =>
    sge ← dma_sge dma !! Z.to_nat (dma_cur_sge dma);
    let move (dma : rxe_dma_info) (sge : ib_sge) (offset : Z) :=
      let bytes := if length >? sge_length sge - offset then sge_length sge - offset else length in
      advance_loop fuel dma (offset + bytes) (resid - bytes) (length - bytes) in
    if offset >=? sge_length sge then
      let dma := dma <| dma_cur_sge ::= (λ n, n + 1) |> in
      if dma_cur_sge dma >=? dma_num_sge dma then Some (dma, Err ENOSPC)
      else sge ← dma_sge dma !! Z.to_nat (dma_cur_sge dma); move dma sge 0
    else move dma sge offset
  end.

Definition advance_dma_data (dma : rxe_dma_info) (length : Z) : option (rxe_dma_info * result unit) :=
  advance_loop (S (S (List.length (dma_sge dma)))) dma (dma_sge_offset dma) (dma_resid dma) length.

(** ** The linear view of a region

    The addresses of the bytes of a list of buffers, one after the other, and
    the position of a byte offset in it. *)

Definition buf_addrs (b : ib_phys_buf) : list Z := seqZ (pb_addr b) (pb_size b).

Definition bufs_addrs (bs : list ib_phys_buf) : list Z := concat (map buf_addrs bs).

Fixpoint locate (bs : list ib_phys_buf) (offset : Z) : option (Z * Z) :=
  match bs with
  | [] => None
  | b :: bs =>
      if offset >=? pb_size b
      then '(k, off) ← locate bs (offset - pb_size b); Some (k + 1, off)
      else Some (0, offset)
  end.

(** A page list in full pages, and the buffer at a flat index. *)
Definition full_pages (mp : list (list ib_phys_buf)) : Prop :=
  Forall (λ p, length p = Z.to_nat RXE_BUF_PER_MAP) mp.

Lemma concat_lookup_uniform {A} (ls : list (list A)) (w m n : nat) :
  Forall (λ l, length l = w) ls → (n < w)%nat →
  concat ls !! (m * w + n)%nat = (l ← ls !! m; l !! n).
Proof.
  intros Hf Hn. revert m. induction Hf as [|l ls Hl Hls IH]; intros m; [by rewrite !lookup_nil|].
  cbn [concat]. destruct m as [|m]; cbn.
  - rewrite lookup_app_l by lia. done.
  - rewrite lookup_app_r by lia. rewrite <- IH. f_equal. lia.
Qed.

Lemma buf_at_flat mem mp k :
  mem_map mem = Some mp → full_pages mp → 0 ≤ k →
  buf_at mem (k / RXE_BUF_PER_MAP) (k mod RXE_BUF_PER_MAP) = concat mp !! Z.to_nat k.
Proof.
  intros Hmp Hf Hk. unfold buf_at. rewrite Hmp. cbn. unfold RXE_BUF_PER_MAP in *.
  pose proof (Z.mod_pos_bound k 256). pose proof (Z.div_pos k 256).
  rewrite <- (concat_lookup_uniform mp (Z.to_nat 256)) by (done || lia).
  f_equal. pose proof (Z.div_mod k 256). lia.
Qed.

(** Stepping [(m, n)] to the next entry is adding one to the flat index. *)
Lemma flat_step k :
  0 ≤ k →
  (if k mod RXE_BUF_PER_MAP + 1 =? RXE_BUF_PER_MAP
   then (k / RXE_BUF_PER_MAP + 1, 0) else (k / RXE_BUF_PER_MAP, k mod RXE_BUF_PER_MAP + 1))
  = ((k + 1) / RXE_BUF_PER_MAP, (k + 1) mod RXE_BUF_PER_MAP).
Proof.
  intros Hk. unfold RXE_BUF_PER_MAP. destruct (Z.eqb_spec (k mod 256 + 1) 256);
    f_equal; Z.div_mod_to_equations; lia.
Qed.

Section region.
Context (mem : rxe_mem) (mp : list (list ib_phys_buf)).
Context (Hmp : mem_map mem = Some mp) (Hfull : full_pages mp).
Implicit Types (bs : list ib_phys_buf).

Lemma lookup_search_locate fuel bs k offset :
  0 ≤ k → drop (Z.to_nat k) (concat mp) = bs → (length bs < fuel)%nat →
  lookup_search fuel mem (k / RXE_BUF_PER_MAP) (k mod RXE_BUF_PER_MAP) offset =
    '(j, off) ← locate bs offset;
    Some ((k + j) / RXE_BUF_PER_MAP, (k + j) mod RXE_BUF_PER_MAP, off).
Proof using Hmp Hfull.
  revert bs k offset. induction fuel as [|fuel IH]; intros bs k offset Hk Hbs Hfuel; [lia|].
  cbn [lookup_search]. rewrite (buf_at_flat mem mp) by done.
  assert (Hl : concat mp !! Z.to_nat k = head bs).
  { rewrite <- Hbs, <- (Nat.add_0_r (Z.to_nat k)), <- lookup_drop at 1. by destruct (drop _ _). }
  rewrite Hl. destruct bs as [|b bs]; cbn [head locate]; [done|].
  destruct (offset >=? pb_size b); cbn; [|by rewrite Z.add_0_r].
  rewrite flat_step by done. rewrite (IH bs); [|lia| |cbn in Hfuel; lia].
  - destruct (locate bs (offset - pb_size b)) as [[j off]|]; cbn; [|done].
    by replace (k + 1 + j) with (k + (j + 1)) by lia.
  - replace (Z.to_nat (k + 1)) with (S (Z.to_nat k)) by lia.
    by rewrite <- Nat.add_1_r, <- drop_drop, Hbs.
Qed.
End region.

(** In a list of buffers of one size the position is a division. *)
Lemma locate_uniform bs size offset :
  0 < size → Forall (λ b, pb_size b = size) bs →
  0 ≤ offset < size * Z.of_nat (length bs) →
  locate bs offset = Some (offset / size, offset mod size).
Proof.
  intros Hs Hf. revert offset. induction Hf as [|b bs Hb Hbs IH]; intros offset Ho.
  - cbn in Ho. lia.
  - cbn [locate]. rewrite Hb. cbn [length] in Ho.
    destruct (Z.geb_spec offset size).
    + rewrite IH by lia. cbn.
      replace offset with ((offset - size) + 1 * size) at 3 4 by lia.
      rewrite Z.div_add, Z.mod_add by lia. done.
    + by rewrite Z.div_small, Z.mod_small by lia.
Qed.

Lemma locate_app bs bs' offset k off :
  locate bs offset = Some (k, off) → locate (bs ++ bs') offset = Some (k, off).
Proof.
  revert offset k off. induction bs as [|b bs IH]; intros offset k off; cbn; [done|].
  destruct (offset >=? pb_size b); [|done].
  destruct (locate bs (offset - pb_size b)) as [[j o]|] eqn:E; cbn; [|done].
  intros [= <- <-]. by rewrite (IH _ _ _ E).
Qed.

Lemma drop_seqZ a n d : 0 ≤ d → drop (Z.to_nat d) (seqZ a n) = seqZ (a + d) (n - d).
Proof.
  intros Hd. destruct (Z.lt_ge_cases d n).
  - replace n with (d + (n - d)) at 1 by lia. rewrite seqZ_app by lia.
    rewrite drop_app_length' by (rewrite length_seqZ; lia). done.
  - rewrite drop_ge by (rewrite length_seqZ; lia). by rewrite seqZ_nil by lia.
Qed.

Lemma take_seqZ a n d : 0 ≤ d ≤ n → take (Z.to_nat d) (seqZ a n) = seqZ a d.
Proof.
  intros Hd. replace n with (d + (n - d)) by lia. rewrite seqZ_app by lia.
  rewrite take_app_length' by (rewrite length_seqZ; lia). done.
Qed.

Definition bufs_size (bs : list ib_phys_buf) : Z := Z.of_nat (length (bufs_addrs bs)).

Lemma bufs_size_cons b bs :
  0 ≤ pb_size b → bufs_size (b :: bs) = pb_size b + bufs_size bs.
Proof.
  intros ?. unfold bufs_size, bufs_addrs. cbn [map concat].
  rewrite length_app, Nat2Z.inj_add. unfold buf_addrs at 1. rewrite length_seqZ. lia.
Qed.

Definition bufs_ok (bs : list ib_phys_buf) : Prop := Forall (λ b, 0 < pb_size b < 2 ^ 31) bs.

(** Where [locate] points: the suffix of the address list from the offset on. *)
Lemma locate_spec bs offset :
  bufs_ok bs → 0 ≤ offset < bufs_size bs →
  ∃ k off, locate bs offset = Some (k, off) ∧ 0 ≤ k ∧ 0 ≤ off ∧
    drop (Z.to_nat offset) (bufs_addrs bs) = drop (Z.to_nat off) (bufs_addrs (drop (Z.to_nat k) bs)) ∧
    ∃ b, bs !! Z.to_nat k = Some b ∧ off < pb_size b.
Proof.
  intros Hok. revert offset. induction Hok as [|b bs Hb Hbs IH]; intros offset Ho.
  - unfold bufs_size in Ho. cbn in Ho. lia.
  - rewrite bufs_size_cons in Ho by lia. cbn [locate].
    destruct (Z.geb_spec offset (pb_size b)).
    + destruct (IH (offset - pb_size b)) as (k & off & -> & ? & ? & Hd & b' & Hb' & ?); [lia|].
      exists (k + 1), off. replace (Z.to_nat (k + 1)) with (S (Z.to_nat k)) by lia.
      repeat split; try (done || lia); [|by exists b'].
      cbn [drop]. rewrite <- Hd. unfold bufs_addrs. cbn [map concat].
      rewrite drop_app_ge by (unfold buf_addrs; rewrite length_seqZ; lia).
      f_equal. unfold buf_addrs. rewrite length_seqZ. lia.
    + exists 0, offset. repeat split; try (done || lia). exists b. split; [done|lia].
Qed.

(** What a copy of [n] bytes between the addresses [addrs] and a buffer does. *)
Definition copy_spec (dir : copy_direction) (phys : memory) (addrs : list Z) (n : Z)
    (addr : list Z) (crc : option Z) : memory * list Z * option Z :=
  let addrs := take (Z.to_nat n) addrs in
  let data := match dir with
    | direction_in => take (Z.to_nat n) addr
    | direction_out => mread phys <$> addrs
    end in
  (match dir with direction_in => mwrite phys addrs data | direction_out => phys end,
   data ++ drop (Z.to_nat n) addr, (fun c => crc32_le c data) <$> crc).

Lemma mwrite_app phys a1 a2 d1 d2 :
  length a1 = length d1 → mwrite phys (a1 ++ a2) (d1 ++ d2) = mwrite (mwrite phys a1 d1) a2 d2.
Proof. intros. unfold mwrite. by rewrite zip_with_app, fold_left_app. Qed.

(** Copying [n1] bytes and then the rest is copying all of them. *)
Lemma copy_spec_step dir phys a1 a2 n1 n addr crc :
  0 ≤ n1 ≤ n → n ≤ Z.of_nat (length addr) → Z.of_nat (length a1) = n1 →
  copy_spec dir phys (a1 ++ a2) n addr crc =
    (let '(phys1, front, crc1) := (match dir with
       | direction_in => (mwrite phys a1 (take (Z.to_nat n1) addr), take (Z.to_nat n1) addr,
                          (fun c => crc32_le c (take (Z.to_nat n1) addr)) <$> crc)
       | direction_out => (phys, mread phys <$> a1, (fun c => crc32_le c (mread phys <$> a1)) <$> crc)
       end) in
     let '(phys2, rest, crc2) := copy_spec dir phys1 a2 (n - n1) (drop (Z.to_nat n1) addr) crc1 in
     (phys2, front ++ rest, crc2)).
Proof.
  intros Hn Hl Ha. unfold copy_spec.
  assert (Ht : take (Z.to_nat n) (a1 ++ a2) = a1 ++ take (Z.to_nat (n - n1)) a2).
  { rewrite take_app_ge by lia. f_equal. f_equal. lia. }
  assert (Hd : take (Z.to_nat n) addr
    = take (Z.to_nat n1) addr ++ take (Z.to_nat (n - n1)) (drop (Z.to_nat n1) addr)).
  { rewrite take_take_drop. f_equal. lia. }
  assert (Hr : drop (Z.to_nat (n - n1)) (drop (Z.to_nat n1) addr) = drop (Z.to_nat n) addr).
  { rewrite drop_drop. f_equal. lia. }
  rewrite Ht, Hr. destruct dir; cbn; rewrite ?Hd, ?fmap_app, <- ?app_assoc.
  - rewrite mwrite_app by (rewrite length_take; lia).
    f_equal. destruct crc; cbn; [|done]. by rewrite crc32_le_app.
  - f_equal. destruct crc; cbn; [|done]. by rewrite crc32_le_app.
Qed.

Lemma copy_spec_0 dir phys addrs addr crc : copy_spec dir phys addrs 0 addr crc = (phys, addr, crc).
Proof. unfold copy_spec. cbn. by destruct dir, crc. Qed.

Lemma xfer_spec dir phys va n addr crc :
  xfer dir phys va n addr crc = (match dir with
       | direction_in => (mwrite phys (seqZ va n) (take (Z.to_nat n) addr), take (Z.to_nat n) addr,
                          (fun c => crc32_le c (take (Z.to_nat n) addr)) <$> crc)
       | direction_out => (phys, mread phys <$> seqZ va n,
                           (fun c => crc32_le c (mread phys <$> seqZ va n)) <$> crc)
       end).
Proof. by destruct dir. Qed.

Lemma bufs_addrs_drop b bs off :
  0 ≤ off ≤ pb_size b →
  drop (Z.to_nat off) (bufs_addrs (b :: bs))
  = seqZ (pb_addr b + off) (pb_size b - off) ++ bufs_addrs bs.
Proof.
  intros Ho. unfold bufs_addrs. cbn [map concat]. unfold buf_addrs at 1.
  rewrite drop_app_le by (rewrite length_seqZ; lia). by rewrite drop_seqZ by lia.
Qed.

Section copying.
Context (mem : rxe_mem) (mp : list (list ib_phys_buf)).
Context (Hmp : mem_map mem = Some mp) (Hfull : full_pages mp).

Lemma mem_copy_loop_spec fuel bs rest k off phys addr len dir crc :
  0 ≤ k → drop (Z.to_nat k) (concat mp) = bs ++ rest → bufs_ok bs → (length bs < fuel)%nat →
  0 ≤ off → (∀ b, head bs = Some b → off ≤ pb_size b) →
  0 ≤ len ≤ Z.of_nat (length (drop (Z.to_nat off) (bufs_addrs bs))) →
  len ≤ Z.of_nat (length addr) →
  mem_copy_loop fuel mem (k / RXE_BUF_PER_MAP) (k mod RXE_BUF_PER_MAP) off phys addr len dir crc
  = Some (copy_spec dir phys (drop (Z.to_nat off) (bufs_addrs bs)) len addr crc).
Proof using Hmp Hfull.
  revert bs k off phys addr len crc.
  induction fuel as [|fuel IH]; intros bs k off phys addr len crc Hk Hd Hok Hfuel Ho Hhd Hlen Haddr;
    [lia|].
  cbn [mem_copy_loop]. destruct (Z.leb_spec len 0) as [|Hpos].
  { replace len with 0 by lia. by rewrite copy_spec_0. }
  rewrite (buf_at_flat mem mp) by done.
  assert (Hl : concat mp !! Z.to_nat k = head (bs ++ rest)).
  { rewrite <- Hd, <- (Nat.add_0_r (Z.to_nat k)), <- lookup_drop at 1. by destruct (drop _ _). }
  rewrite Hl. destruct bs as [|b bs];
    [change (bufs_addrs []) with (@nil Z) in Hlen; rewrite drop_nil in Hlen; cbn in Hlen; lia|].
  cbn [head app].
  apply Forall_cons_1 in Hok as [Hb Hok]. specialize (Hhd b eq_refl).
  rewrite bufs_addrs_drop in Hlen |- * by lia.
  rewrite length_app, length_seqZ in Hlen.
  replace (s32 (pb_size b - off)) with (pb_size b - off)
    by (unfold s32; rewrite Z.mod_small; lia).
  set (bytes := if _ >? len then len else _).
  assert (Hbytes : bytes = Z.min len (pb_size b - off)) by (unfold bytes; case_match; lia).
  clearbody bytes. destruct (Z.ltb_spec bytes 0); [lia|].
  rewrite flat_step by done. rewrite xfer_spec.
  assert (Hsplit : seqZ (pb_addr b + off) (pb_size b - off)
    = seqZ (pb_addr b + off) bytes ++ seqZ (pb_addr b + off + bytes) (pb_size b - off - bytes)).
  { rewrite <- seqZ_app by lia. f_equal. lia. }
  rewrite Hsplit, <- app_assoc.
  rewrite (copy_spec_step _ _ _ _ bytes) by (rewrite ?length_seqZ; lia).
  assert (Hd' : drop (Z.to_nat (k + 1)) (concat mp) = bs ++ rest).
  { replace (Z.to_nat (k + 1)) with (Z.to_nat k + 1)%nat by lia. by rewrite <- drop_drop, Hd. }
  assert (Hrec : ∀ ph cr, mem_copy_loop fuel mem ((k + 1) / RXE_BUF_PER_MAP)
      ((k + 1) mod RXE_BUF_PER_MAP) 0 ph (drop (Z.to_nat bytes) addr) (len - bytes) dir cr
    = Some (copy_spec dir ph (seqZ (pb_addr b + off + bytes) (pb_size b - off - bytes) ++ bufs_addrs bs)
              (len - bytes) (drop (Z.to_nat bytes) addr) cr)).
  { intros ph cr. rewrite (IH bs); try done; try lia.
    - rewrite drop_0. destruct (decide (bytes = pb_size b - off)) as [->|].
      + by rewrite (seqZ_nil _ (_ - _)) by lia.
      + replace (len - bytes) with 0 by lia. by rewrite !copy_spec_0.
    - cbn in Hfuel. lia.
    - intros b' Hb'. destruct bs; [done|]. cbn in Hb'. simplify_eq.
      apply Forall_cons_1 in Hok as [? _]. lia.
    - rewrite drop_0. lia.
    - rewrite length_drop. lia. }
  destruct dir; rewrite Hrec; cbn [mbind option_bind]; by destruct (copy_spec _ _ _ _ _ _) as [[??]?].
Qed.
End copying.

(** ** Well-formed regions

    [mem_region mem mp bs]: the page list [mp] holds the buffers [bs] (what
    follows is unused), they have room for the region, the region does not
    wrap around the 64-bit address space, and when the region has a page
    shift all its buffers are pages of that size. *)

Record mem_region (mem : rxe_mem) (mp : list (list ib_phys_buf)) (bs : list ib_phys_buf) : Prop := {
  reg_map : mem_map mem = Some mp;
  reg_full : full_pages mp;
  reg_bufs : ∃ unused, concat mp = bs ++ unused;
  reg_ok : bufs_ok bs;
  reg_type : mem_type mem = RXE_MEM_TYPE_MR ∨ mem_type mem = RXE_MEM_TYPE_FMR;
  reg_nonneg : 0 ≤ mem_offset mem ∧ 0 ≤ mem_length mem ∧ 0 ≤ mem_iova mem;
  reg_fit : mem_offset mem + mem_length mem ≤ bufs_size bs;
  reg_size : bufs_size bs < 2 ^ 32;
  reg_nowrap : mem_iova mem + mem_length mem < 2 ^ 64;
  reg_page : mem_page_shift mem ≠ 0 →
    0 < mem_page_shift mem ∧ mem_page_mask mem = 2 ^ mem_page_shift mem - 1 ∧
    mem_map_shift mem = 8 ∧ mem_map_mask mem = 2 ^ 8 - 1 ∧
    Forall (λ b, pb_size b = 2 ^ mem_page_shift mem) bs
}.

(** The addresses of the bytes of the region from [iova] on. *)
Definition region_addrs (mem : rxe_mem) (bs : list ib_phys_buf) (iova : Z) : list Z :=
  drop (Z.to_nat (iova - mem_iova mem + mem_offset mem)) (bufs_addrs bs).

Lemma bufs_size_uniform bs size :
  0 < size → Forall (λ b, pb_size b = size) bs → bufs_size bs = size * Z.of_nat (length bs).
Proof.
  intros Hs Hf. induction Hf as [|b bs Hb Hbs IH]; [unfold bufs_size; cbn; lia|].
  rewrite bufs_size_cons, IH, Hb by lia. cbn [length]. lia.
Qed.

Lemma lookup_iova_locate mem mp bs iova :
  mem_region mem mp bs → mem_iova mem ≤ iova < mem_iova mem + mem_length mem →
  ∃ k off, locate bs (iova - mem_iova mem + mem_offset mem) = Some (k, off) ∧
    lookup_iova mem iova = Some (k / RXE_BUF_PER_MAP, k mod RXE_BUF_PER_MAP, off).
Proof.
  intros [Hmp Hfull [un Hun] Hok Hty Hnn Hfit Hsz Hnw Hpg] Hi.
  set (o := iova - mem_iova mem + mem_offset mem).
  destruct (locate_spec bs o Hok) as (k & off & Hloc & Hk & _); [lia|].
  exists k, off. split; [done|]. unfold lookup_iova, ulong, BITS_PER_LONG.
  change (iova - mem_iova mem + mem_offset mem) with o. rewrite Z.mod_small by lia.
  destruct (Z.eqb_spec (mem_page_shift mem) 0) as [Hz|Hnz]; cbn [negb].
  - assert (Hb : mem_bufs mem = bs ++ un) by (unfold mem_bufs; rewrite Hmp; done).
    rewrite (lookup_search_locate mem mp Hmp Hfull _ (bs ++ un) 0 o); [|lia|done|rewrite Hb; lia].
    by rewrite (locate_app _ un _ _ _ Hloc).
  - destruct (Hpg Hnz) as (Hps & -> & -> & -> & Hu).
    assert (Hp : 0 < 2 ^ mem_page_shift mem) by (apply Z.pow_pos_nonneg; lia).
    rewrite (locate_uniform bs (2 ^ mem_page_shift mem)) in Hloc;
      [|done|done|rewrite <- bufs_size_uniform by done; lia].
    injection Hloc as <- <-. rewrite !land_mask by lia.
    by rewrite !Z.shiftr_div_pow2 by lia.
Qed.

(** The shift-and-mask translation of a region of equal pages finds the
    same buffer and the same offset in it as the search through the page
    list does. *)
Theorem lookup_iova_page_equiv mem mp bs iova :
  mem_region mem mp bs → mem_iova mem ≤ iova < mem_iova mem + mem_length mem →
  lookup_iova mem iova = lookup_iova (mem <| mem_page_shift := 0 |>) iova ∧
  is_Some (lookup_iova mem iova).
Proof.
  intros Hr Hi.
  destruct (lookup_iova_locate _ _ _ _ Hr Hi) as (k & off & Hl & ->).
  assert (Hr' : mem_region (mem <| mem_page_shift := 0 |>) mp bs).
  { destruct Hr. split; try done. }
  destruct (lookup_iova_locate _ _ _ _ Hr' Hi) as (k' & off' & Hl' & ->).
  cbn in Hl'. rewrite Hl in Hl'. by simplify_eq.
Qed.

Lemma rxe_mem_copy_region mem mp bs iova phys addr length dir crc :
  mem_region mem mp bs → mem_iova mem ≤ iova → 0 < length →
  iova + length ≤ mem_iova mem + mem_length mem → length ≤ Z.of_nat (List.length addr) →
  rxe_mem_copy mem iova phys addr length dir crc =
    let '(phys', addr', crc') := copy_spec dir phys (region_addrs mem bs iova) length addr crc in
    Some (phys', addr', crc', Ok tt).
Proof.
  intros Hr Hlo Hpos Hhi Haddr. pose proof Hr as [Hmp Hfull [un Hun] Hok Hty Hnn Hfit Hsz Hnw Hpg].
  destruct (lookup_iova_locate _ _ _ iova Hr) as (k & off & Hloc & Hlk); [lia|].
  destruct (locate_spec bs (iova - mem_iova mem + mem_offset mem) Hok)
    as (k' & off' & Hloc' & Hk & Hoff & Hd & b & Hb & Hbo); [lia|].
  rewrite Hloc in Hloc'. injection Hloc' as <- <-.
  assert (Hc : mem_check_range mem iova length = Ok tt).
  { unfold mem_check_range. rewrite !u64_small by lia.
    destruct (Z.ltb_spec iova (mem_iova mem)); [lia|].
    destruct (Z.gtb_spec (iova + length) (mem_iova mem + mem_length mem)); [lia|].
    by destruct Hty as [-> | ->]. }
  assert (Hlp : mem_copy_loop (S (List.length (mem_bufs mem))) mem (k / RXE_BUF_PER_MAP)
      (k mod RXE_BUF_PER_MAP) off phys addr length dir crc
    = Some (copy_spec dir phys (region_addrs mem bs iova) length addr crc)).
  { unfold region_addrs. rewrite Hd.
    assert (Hlt : (Z.to_nat k < List.length bs)%nat) by (eapply lookup_lt_Some; done).
    apply (mem_copy_loop_spec mem mp Hmp Hfull _ _ un); try (done || lia).
    - rewrite Hun. apply drop_app_le. lia.
    - by apply Forall_drop.
    - unfold mem_bufs. rewrite Hmp. cbn. rewrite Hun, length_app, length_drop. lia.
    - intros b' Hb'. rewrite <- (Nat.add_0_r (Z.to_nat k)), <- lookup_drop in Hb.
      destruct (drop (Z.to_nat k) bs); [done|]. cbn in *. simplify_eq. lia.
    - rewrite <- Hd, length_drop. unfold bufs_size in *. lia. }
  unfold rxe_mem_copy. rewrite Hmp, Hc, Hlk. cbn [mbind option_bind]. rewrite Hlp. cbn [mbind option_bind].
  destruct (copy_spec _ _ _ _ _ _) as [[??]?]. by destruct Hty as [-> | ->].
Qed.

(** C22: a copy to or from a region touches exactly the bytes of the region
    from [iova] on, in order, whatever pages they lie on, and the CRC is that
    of the bytes copied; it returns without a wild access for every range
    inside the region. *)
Theorem rxe_mem_copy_spec mem mp bs iova phys addr length dir crc :
  mem_region mem mp bs → mem_iova mem ≤ iova → 0 < length →
  iova + length ≤ mem_iova mem + mem_length mem → length ≤ Z.of_nat (List.length addr) →
  rxe_mem_copy mem iova phys addr length dir crc =
    let '(phys', addr', crc') := copy_spec dir phys (region_addrs mem bs iova) length addr crc in
    Some (phys', addr', crc', Ok tt).
Proof. apply rxe_mem_copy_region. Qed.

(** A region of seven bytes on two four-byte pages, for the examples. *)
Definition example_bufs : list ib_phys_buf := [PhysBuf 100 4; PhysBuf 200 4].

Definition example_mem : rxe_mem :=
  Mem 1 1 (Some 5) None 0x102 0x102 RXE_MEM_STATE_VALID RXE_MEM_TYPE_MR 1000 1000 7 1 7 2 3 8 255
    2 256 1 (Some [example_bufs ++ replicate 254 (PhysBuf 0 0)]).

Definition example_phys : memory :=
  list_to_map (zip (seqZ 100 4 ++ seqZ 200 4) [1; 2; 3; 4; 5; 6; 7; 8]).

Lemma example_region :
  mem_region example_mem [example_bufs ++ replicate 254 (PhysBuf 0 0)] example_bufs.
Proof.
  split; try done.
  - by repeat constructor.
  - exists (replicate 254 (PhysBuf 0 0)). cbn [concat]. by rewrite app_nil_r.
  - repeat constructor; cbn; lia.
  - by left.
  - intros _. repeat split; try done. by repeat constructor.
Qed.

Lemma lookup_iova_page_equiv_witness :
  lookup_iova example_mem 1002 = Some (0, 0, 3) ∧ lookup_iova example_mem 1003 = Some (0, 1, 0).
Proof.
  destruct (lookup_iova_page_equiv example_mem _ example_bufs 1002 example_region) as [-> _];
    [cbn; lia|]. split; vm_compute; reflexivity.
Defined.

Lemma rxe_mem_copy_spec_witness :
  rxe_mem_copy example_mem 1002 example_phys [0; 0; 0; 9] 3 direction_out None
  = Some (example_phys, [4; 5; 6; 9], None, Ok tt).
Proof.
  rewrite (rxe_mem_copy_spec example_mem _ example_bufs 1002 example_phys [0; 0; 0; 9] 3
             direction_out None example_region) by (cbn; lia).
  vm_compute. reflexivity.
Defined.

Lemma mem_check_range_iff mem mp bs iova length :
  mem_region mem mp bs → 0 ≤ iova < 2 ^ 64 → 0 ≤ length < 2 ^ 32 →
  mem_check_range mem iova length = Ok tt ↔
    mem_iova mem ≤ iova ∧
    (iova + length ≤ mem_iova mem + mem_length mem ∨
     (2 ^ 64 ≤ iova + length ∧ iova + length ≤ 2 ^ 64 + mem_iova mem + mem_length mem)).
Proof.
  intros [Hmp Hfull Hun Hok Hty Hnn Hfit Hsz Hnw Hpg] Hi Hl.
  assert (E : mem_check_range mem iova length =
    if (iova <? mem_iova mem) || (u64 (iova + length) >? u64 (mem_iova mem + mem_length mem))
    then Err EFAULT else Ok tt) by (unfold mem_check_range; by destruct Hty as [-> | ->]).
  rewrite E, (u64_small (mem_iova mem + mem_length mem)) by lia. unfold u64.
  destruct (Z.ltb_spec iova (mem_iova mem)); cbn [orb]; [split; [done|lia]|].
  destruct (mod_wrap_up (iova + length) (2 ^ 64)) as [[? ->]|[? ->]]; [lia|..];
    match goal with |- context [?a >? ?b] => destruct (Z.gtb_spec a b) end; split; done || lia.
Qed.

(** C38: what [mem_check_range] accepts for a region: the ranges inside it, and
    besides those every range above its start whose end wraps around the
    64-bit address space and lands below the end of the region. *)
Theorem mem_check_range_spec mem mp bs iova length :
  mem_region mem mp bs → 0 ≤ iova < 2 ^ 64 → 0 ≤ length < 2 ^ 32 →
  mem_check_range mem iova length = Ok tt ↔
    mem_iova mem ≤ iova ∧
    (iova + length ≤ mem_iova mem + mem_length mem ∨
     (2 ^ 64 ≤ iova + length ∧ iova + length ≤ 2 ^ 64 + mem_iova mem + mem_length mem)).
Proof. apply mem_check_range_iff. Qed.

Lemma mem_check_range_spec_witness :
  mem_check_range example_mem (2 ^ 64 - 4) 8 = Ok tt ∧
  rxe_mem_copy example_mem (2 ^ 64 - 4) example_phys (replicate 8 0) 8 direction_out None = None.
Proof.
  split; [|vm_compute; reflexivity].
  apply (mem_check_range_spec example_mem _ example_bufs (2 ^ 64 - 4) 8 example_region); cbn; lia.
Defined.

(** ** Reference counts *)

Definition refs_pos (dev : mem_dev) : Prop :=
  ∀ p i mem, pool_of dev p !! i = Some mem → 0 < mem_ref mem.

(** [dev] with one more reference to [h]. *)
Definition held (dev : mem_dev) (h : mem_handle) (m : rxe_mem) (dev' : mem_dev) : Prop :=
  ∃ m0, pool_of dev h.1 !! h.2 = Some m0 ∧ m = m0 <| mem_ref ::= (λ n, n + 1) |> ∧
    dev' = upd_pool dev h.1 <[h.2 := m]>.

Lemma pool_of_upd dev p f : pool_of (upd_pool dev p f) p = f (pool_of dev p).
Proof. by destruct p. Qed.

Lemma upd_pool_twice dev p f g : upd_pool (upd_pool dev p f) p g = upd_pool dev p (g ∘ f).
Proof. by destruct p. Qed.

Lemma upd_pool_id dev p f : f (pool_of dev p) = pool_of dev p → upd_pool dev p f = dev.
Proof. destruct dev, p; cbn; unfold upd_field; cbn; by intros ->. Qed.

Lemma upd_pool_ext dev p f g : f (pool_of dev p) = g (pool_of dev p) → upd_pool dev p f = upd_pool dev p g.
Proof. destruct dev, p; cbn; unfold upd_field; cbn; by intros ->. Qed.

Lemma eta_mem (m : rxe_mem) : m <| mem_ref := mem_ref m |> = m.
Proof. by destruct m. Qed.

(** Returning a reference undoes taking it. *)
Lemma held_drop dev h m dev' : refs_pos dev → held dev h m dev' → mem_drop_ref dev' h = dev.
Proof.
  intros Hpos (m0 & Hm & -> & ->). unfold mem_drop_ref.
  rewrite pool_of_upd, lookup_insert_eq. cbn [mem_ref upd_field].
  apply Hpos in Hm as Hr. destruct (Z.eqb_spec (mem_ref m0 + 1) 1); [lia|].
  rewrite upd_pool_twice. apply upd_pool_id. cbn. rewrite insert_insert_eq.
  apply insert_id. rewrite Hm. f_equal. destruct m0. unfold upd_field. cbn. f_equal. lia.
Qed.

(** The checks of [lookup_mem] on the element it finds. *)
Definition mem_permits (mem : rxe_mem) (pd access key : Z) (type : lookup_type) : Prop :=
  (match type with lookup_local => mem_lkey mem | lookup_remote => mem_rkey mem end) = key ∧
  mem_pd mem = Some pd ∧ (access ≠ 0 → flag_set access (mem_access mem) = true) ∧
  mem_state mem = RXE_MEM_STATE_VALID.

Lemma lookup_mem_cases dev pd access key type :
  refs_pos dev →
  (lookup_mem dev pd access key type = (dev, None) ∧
     ∀ p m, key_pool (Z.shiftr key 8) = Some p → pool_of dev p !! Z.shiftr key 8 = Some m →
       ¬ mem_permits m pd access key type)
  ∨ ∃ p m0 m dev', lookup_mem dev pd access key type = (dev', Some ((p, Z.shiftr key 8), m)) ∧
      key_pool (Z.shiftr key 8) = Some p ∧ pool_of dev p !! Z.shiftr key 8 = Some m0 ∧
      mem_permits m0 pd access key type ∧ held dev (p, Z.shiftr key 8) m dev'.
Proof.
  intros Hpos. unfold lookup_mem. destruct (key_pool _) as [p|] eqn:Hk; [|left; naive_solver].
  unfold mem_get_index. destruct (pool_of dev p !! _) as [m0|] eqn:Hm; [|left; naive_solver].
  assert (Hh : held dev (p, Z.shiftr key 8) (m0 <| mem_ref ::= (λ n, n + 1) |>)
    (upd_pool dev p <[Z.shiftr key 8 := m0 <| mem_ref ::= (λ n, n + 1) |>]>)) by (by exists m0).
  cbn [mem_lkey mem_rkey mem_pd mem_access mem_state upd_field].
  destruct (_ || _ || _ || _) eqn:Hb.
  - left. split; [by rewrite (held_drop dev _ _ _ Hpos Hh)|].
    intros p' m' [= <-] Hm' (Hkey & Hpd & Hacc & Hst). rewrite Hm in Hm'. injection Hm' as <-.
    rewrite Hpd, Hst, !bool_decide_true in Hb by done. cbn in Hb.
    rewrite !orb_false_r in Hb. apply orb_true_iff in Hb as [Hb|Hb].
    + destruct type; rewrite Hkey, Z.eqb_refl in Hb; done.
    + apply andb_true_iff in Hb as [Ha%negb_true_iff%Z.eqb_neq Hf%negb_true_iff].
      rewrite (Hacc Ha) in Hf. done.
  - right. eexists p, m0, _, _. split; [done|]. split; [done|]. split; [done|]. split; [|done].
    rewrite !orb_false_iff in Hb. destruct Hb as [[[Hb1 Hb2] Hb3] Hb4].
    apply negb_false_iff, bool_decide_eq_true in Hb2, Hb4. repeat split; try done.
    + destruct type; by apply negb_false_iff, Z.eqb_eq in Hb1.
    + intros Ha. apply Z.eqb_neq in Ha. rewrite Ha in Hb3. cbn in Hb3. by apply negb_false_iff in Hb3.
Qed.

(** C21: a region is given out only for its own key, in the protection domain
    it belongs to, with an access right it has, and while it is valid; the
    reference counts are unchanged when the lookup fails, and when it succeeds
    exactly one reference to the region is taken, which [rxe_drop_ref] undoes. *)
Theorem lookup_mem_safe dev pd access key type :
  refs_pos dev →
  match lookup_mem dev pd access key type with
  | (dev', None) => dev' = dev
  | (dev', Some (h, mem)) =>
      mem_permits mem pd access key type ∧
      pool_of dev h.1 !! h.2 = Some (mem <| mem_ref ::= (λ n, n - 1) |>) ∧
      h.2 = Z.shiftr key 8 ∧ mem_drop_ref dev' h = dev
  end.
Proof.
  intros Hpos. destruct (lookup_mem_cases dev pd access key type Hpos)
    as [[-> _]|(p & m0 & m & dev' & -> & Hk & Hm & Hp & Hh)]; [done|].
  pose proof (held_drop _ _ _ _ Hpos Hh). destruct Hh as (m1 & Hm1 & -> & ->).
  cbn in Hm1. rewrite Hm in Hm1. injection Hm1 as <-. cbn.
  split; [by destruct Hp|]. split; [|done].
  rewrite Hm. f_equal. destruct m0. unfold upd_field. cbn. f_equal. lia.
Qed.

Definition example_dev : mem_dev := MemDev {[1 := example_mem]} ∅ ∅ example_phys.

Lemma example_refs_pos : refs_pos example_dev.
Proof.
  intros p i mem Hm. destruct p; cbn in Hm; [|by rewrite lookup_empty in Hm..].
  apply lookup_singleton_Some in Hm as [_ <-]. done.
Qed.

Lemma lookup_mem_safe_witness :
  (lookup_mem example_dev 5 1 0x102 lookup_local).2 ≠ None ∧
  (lookup_mem example_dev 6 1 0x102 lookup_local) = (example_dev, None).
Proof.
  split; [vm_compute; discriminate|].
  pose proof (lookup_mem_safe example_dev 6 1 0x102 lookup_local example_refs_pos) as H.
  destruct (lookup_mem example_dev 6 1 0x102 lookup_local) as [dev' [[h m]|]] eqn:E;
    [vm_compute in E; discriminate E|]. by rewrite H.
Defined.

(** ** [copy_data] returns every reference it takes *)

Definition with_phys (dev : mem_dev) (ph : memory) : mem_dev := dev <| dev_phys := ph |>.

Lemma refs_pos_phys dev ph : refs_pos dev → refs_pos (with_phys dev ph).
Proof. intros H p i m. specialize (H p i m). by destruct p. Qed.

(** [dev] is [dev0] up to memory, with one more reference when one is held. *)
Definition holding (dev0 dev : mem_dev) (mem : option (mem_handle * rxe_mem)) : Prop :=
  ∃ ph, match mem with
        | None => dev = with_phys dev0 ph
        | Some (h, m) => held (with_phys dev0 ph) h m dev
        end.

Lemma holding_drop dev0 dev mem :
  refs_pos dev0 → holding dev0 dev mem → holding dev0 (drop_opt dev mem) None.
Proof.
  intros Hpos [ph H]. exists ph. destruct mem as [[h m]|]; cbn; [|done].
  eapply held_drop; [|done]. by apply refs_pos_phys.
Qed.

Lemma holding_phys dev0 dev mem ph : holding dev0 dev mem → holding dev0 (with_phys dev ph) mem.
Proof.
  intros [ph0 H]. exists ph. destruct mem as [[h m]|]; [|by subst].
  destruct H as (m0 & Hm & -> & ->). exists m0. destruct h as [[] i]; cbn in *; done.
Qed.

Lemma holding_lookup dev0 dev pd access key type dev' r :
  refs_pos dev0 → holding dev0 dev None → lookup_mem dev pd access key type = (dev', r) →
  holding dev0 dev' r.
Proof.
  intros Hpos [ph ->] E.
  destruct (lookup_mem_cases (with_phys dev0 ph) pd access key type) as [[El _]|
    (p & m0 & m & d & El & _ & _ & _ & Hh)]; [by apply refs_pos_phys|..];
    rewrite El in E; injection E as <- <-; by exists ph.
Qed.

Lemma copy_transfer_balanced continue dev0 dev dma sge offset resid mem addr length dir crc o :
  refs_pos dev0 →
  (∀ dev dma offset resid mem addr length crc o, holding dev0 dev mem →
     continue dev dma offset resid mem addr length crc = Some o → holding dev0 (co_dev o) None) →
  holding dev0 dev mem →
  copy_transfer continue dev dma sge offset resid mem addr length dir crc = Some o →
  holding dev0 (co_dev o) None.
Proof.
  intros Hpos IH Hh. unfold copy_transfer. destruct (_ >? 0); [|by apply IH].
  destruct mem as [[h m]|]; cbn [mbind option_bind]; [|done].
  destruct (rxe_mem_copy _ _ _ _ _ _ _) as [[[[ph ad] cr] [u|e]]|]; cbn [mbind option_bind]; [|..|done].
  - destruct (continue _ _ _ _ _ _ _ _) as [o'|] eqn:E; cbn [mbind option_bind]; [|done].
    intros [= <-]. cbn. eapply IH; [|exact E]. by apply (holding_phys _ _ (Some (h, m))).
  - intros [= <-]. cbn. apply (holding_drop _ _ (Some (h, m))); [done|].
    by apply (holding_phys _ _ (Some (h, m))).
Qed.

Lemma copy_loop_balanced fuel pd access dir dev0 dev dma offset resid mem addr length crc o :
  refs_pos dev0 → holding dev0 dev mem →
  copy_loop fuel pd access dir dev dma offset resid mem addr length crc = Some o →
  holding dev0 (co_dev o) None.
Proof.
  intros Hpos. revert dev dma offset resid mem addr length crc o.
  induction fuel as [|fuel IH]; intros dev dma offset resid mem addr length crc o Hh; cbn [copy_loop].
  { destruct (length <=? 0); [|done]. intros [= <-]. by apply holding_drop. }
  destruct (length <=? 0); [intros [= <-]; by apply holding_drop|].
  destruct (dma_sge dma !! _) as [sge|]; cbn [mbind option_bind]; [|done].
  apply (holding_drop _ _ _ Hpos) in Hh as Hd.
  destruct (offset >=? sge_length sge); [|by apply copy_transfer_balanced].
  destruct (_ >=? dma_num_sge _); [by intros [= <-]|].
  destruct (dma_sge _ !! _) as [sge'|]; cbn [mbind option_bind]; [|done].
  destruct (negb _); [|by apply IH].
  destruct (lookup_mem _ _ _ _ _) as [d [hm|]] eqn:E; apply (holding_lookup dev0) in E; try done.
  - by apply copy_transfer_balanced.
  - by intros [= <-].
Qed.

(** On every path through [copy_data], successful or not, each reference
    taken on a memory region is returned: the pools are as before the call. *)
Theorem copy_data_balanced dev pd access dma addr length dir crc o :
  refs_pos dev → copy_data dev pd access dma addr length dir crc = Some o →
  dev_mr (co_dev o) = dev_mr dev ∧ dev_fmr (co_dev o) = dev_fmr dev ∧ dev_mw (co_dev o) = dev_mw dev.
Proof.
  intros Hpos E. assert (H0 : holding dev dev None) by (exists (dev_phys dev); by destruct dev).
  assert (H : holding dev (co_dev o) None); [|destruct H as [ph ->]; done].
  unfold copy_data in E. destruct (length =? 0); [by simplify_eq|].
  destruct (length >? _); [by simplify_eq|].
  destruct (dma_sge _ !! _) as [sge|]; cbn [mbind option_bind] in E; [|done].
  destruct (_ && _); [|by eapply copy_loop_balanced].
  destruct (lookup_mem _ _ _ _ _) as [d [hm|]] eqn:El; apply (holding_lookup dev) in El; try done.
  - by eapply copy_loop_balanced in E.
  - by simplify_eq.
Qed.

(** ** [copy_data] and [advance_dma_data] walk alike *)

Definition sges_ok (dma : rxe_dma_info) : Prop := Forall (λ s, 0 ≤ sge_length s) (dma_sge dma).

Lemma copy_loop_advance fuel pd access dir dev dma offset resid mem addr length crc o :
  sges_ok dma → 0 ≤ length →
  copy_loop fuel pd access dir dev dma offset resid mem addr length crc = Some o →
  co_res o = Ok tt →
  advance_loop fuel dma offset resid length = Some (co_dma o, Ok tt).
Proof.
  revert dev dma offset resid mem addr length crc o.
  induction fuel as [|fuel IH]; intros dev dma offset resid mem addr length crc o Hs Hl;
    cbn [copy_loop advance_loop];
    destruct (Z.leb_spec length 0), (Z.eqb_spec length 0); try lia;
    try (by intros [= <-]).
  destruct (dma_sge dma !! _) as [sge|] eqn:Hsge; cbn [mbind option_bind]; [|done].
  assert (Ht : ∀ dev dma sge offset mem, sges_ok dma → offset < sge_length sge →
    copy_transfer (copy_loop fuel pd access dir) dev dma sge offset resid mem addr length dir crc = Some o →
    co_res o = Ok tt →
    let bytes := if length >? sge_length sge - offset then sge_length sge - offset else length in
    advance_loop fuel dma (offset + bytes) (resid - bytes) (length - bytes) = Some (co_dma o, Ok tt)).
  { intros d dm sg off me Hs' Hlt. unfold copy_transfer.
    set (bytes := if length >? sge_length sg - off then sge_length sg - off else length).
    assert (0 < bytes ≤ length) by (unfold bytes; case_match; lia).
    destruct (Z.gtb_spec bytes 0); [|lia].
    destruct me as [[h m]|]; cbn [mbind option_bind]; [|done].
    destruct (rxe_mem_copy _ _ _ _ _ _ _) as [[[[ph ad] cr] [u|e]]|]; cbn [mbind option_bind];
      [|by intros [= <-]|done].
    destruct (copy_loop _ _ _ _ _ _ _ _ _ _ _) as [o'|] eqn:E; cbn [mbind option_bind]; [|done].
    intros [= <-] Ho. cbn in *. by eapply IH; [| |exact E|]; try lia. }
  destruct (Z.geb_spec offset (sge_length sge)); [|by apply Ht].
  cbn [dma_cur_sge dma_num_sge dma_sge upd_field]. destruct (_ >=? dma_num_sge dma); [by intros [= <-]|].
  destruct (dma_sge dma !! Z.to_nat (dma_cur_sge dma + 1)) as [sge'|] eqn:Hsge';
    cbn [mbind option_bind]; [|done].
  assert (0 ≤ sge_length sge') by (eapply (Forall_lookup_1 _ _ _ _ Hs Hsge')).
  destruct (Z.eqb_spec (sge_length sge') 0) as [Hz|]; cbn [negb].
  - intros E Ho. rewrite Hz, Z.sub_0_r. destruct (Z.gtb_spec length 0); [|lia].
    rewrite !Z.sub_0_r. by eapply IH; [| |exact E|].
  - destruct (lookup_mem _ _ _ _ _) as [d [hm|]]; [|by intros [= <-]].
    intros E Ho. by eapply (Ht _ _ _ 0); [| |exact E|]; try lia.
Qed.

Lemma copy_data_moves dev pd access dma addr length dir crc o :
  sges_ok dma → 0 ≤ length →
  copy_data dev pd access dma addr length dir crc = Some o → co_res o = Ok tt →
  advance_dma_data dma length = Some (co_dma o, Ok tt).
Proof.
  intros Hs Hl E Ho. unfold copy_data in E. unfold advance_dma_data.
  destruct (Z.eqb_spec length 0) as [->|].
  { simplify_eq. cbn. by destruct dma. }
  destruct (length >? _); [by simplify_eq|].
  destruct (dma_sge _ !! _) as [sge|]; cbn [mbind option_bind] in E; [|done].
  destruct (_ && _); [|by eapply copy_loop_advance].
  destruct (lookup_mem _ _ _ _ _) as [d [hm|]]; [|by simplify_eq].
  by eapply copy_loop_advance.
Qed.

(** After a successful [copy_data] the transfer descriptor is in the state
    [advance_dma_data] would have left it in: skipping data on a retry and
    sending it move the scatter/gather position alike. *)
Theorem copy_data_advance dev pd access dma addr length dir crc o :
  sges_ok dma → 0 ≤ length →
  copy_data dev pd access dma addr length dir crc = Some o → co_res o = Ok tt →
  advance_dma_data dma length = Some (co_dma o, Ok tt).
Proof. apply copy_data_moves. Qed.

(** ** [copy_data] terminates without a wild access *)

Definition mem_good (m : rxe_mem) : Prop :=
  mem_type m = RXE_MEM_TYPE_DMA ∨ ∃ mp bs, mem_region m mp bs.

(** Every valid region of the device is well formed. *)
Definition dev_good (dev : mem_dev) : Prop :=
  ∀ p i m, pool_of dev p !! i = Some m → 0 < mem_ref m ∧
    (mem_state m = RXE_MEM_STATE_VALID → mem_good m).

Lemma mem_good_ref m f : mem_good m → mem_good (m <| mem_ref ::= f |>).
Proof. intros [?|(mp & bs & [])]; [by left|]. right. exists mp, bs. by split. Qed.

Lemma rxe_mem_copy_total m iova phys addr length dir crc :
  mem_good m → 0 ≤ iova → 0 < length < 2 ^ 32 → iova + length < 2 ^ 64 →
  length ≤ Z.of_nat (List.length addr) →
  ∃ phys' addr' crc' r, rxe_mem_copy m iova phys addr length dir crc = Some (phys', addr', crc', r) ∧
    List.length addr' = List.length addr.
Proof.
  intros [Hd|(mp & bs & Hr)] Hi Hl Hw Ha.
  - unfold rxe_mem_copy. rewrite Hd. destruct (xfer _ _ _ _ _ _) as [[ph fr] cr] eqn:E.
    eexists _, _, _, _. split; [done|]. rewrite xfer_spec in E.
    rewrite length_app, length_drop.
    destruct dir; simplify_eq; rewrite ?length_take, ?length_fmap, ?length_seqZ; lia.
  - destruct (decide (mem_check_range m iova length = Ok tt)) as [Hc|Hc].
    + apply (mem_check_range_iff m mp bs) in Hc as [? [?|?]]; [|lia|done|lia..].
      rewrite (rxe_mem_copy_region m mp bs) by done || lia.
      destruct (copy_spec _ _ _ _ _ _) as [[ph ad] cr] eqn:E. eexists _, _, _, _. split; [done|].
      unfold copy_spec in E. destruct dir; simplify_eq; rewrite length_app, length_drop;
        rewrite ?length_fmap, length_take; [lia|].
      unfold region_addrs. rewrite length_drop. destruct Hr. unfold bufs_size in *. lia.
    + unfold rxe_mem_copy. destruct (mem_check_range m iova length) as [[]|e]; [done|].
      destruct Hr. rewrite reg_map0. destruct reg_type0 as [-> | ->]; by eexists _, _, _, _.
Qed.

(** The steps the walk has left: the entries after the current one, and one
    more when the current one has data left. *)
Definition walk_left (dma : rxe_dma_info) (offset : Z) : Z :=
  dma_num_sge dma - dma_cur_sge dma +
  match dma_sge dma !! Z.to_nat (dma_cur_sge dma) with
  | Some sge => Zbool (offset <? sge_length sge)
  | None => 0
  end.

(** A transfer descriptor at a valid position of a list of sane entries. *)
Record dma_ok (dma : rxe_dma_info) : Prop := {
  dma_ok_cur : 0 ≤ dma_cur_sge dma < dma_num_sge dma;
  dma_ok_num : dma_num_sge dma = Z.of_nat (length (dma_sge dma));
  dma_ok_sge : Forall (λ s, 0 ≤ sge_addr s ∧ 0 ≤ sge_length s < 2 ^ 32 ∧
                            sge_addr s + sge_length s < 2 ^ 64) (dma_sge dma)
}.

(** The region held is the one the rest of the current entry needs. *)
Definition mem_for (dma : rxe_dma_info) (offset : Z) (mem : option (mem_handle * rxe_mem)) : Prop :=
  (∀ h m, mem = Some (h, m) → mem_good m) ∧
  (∀ sge, dma_sge dma !! Z.to_nat (dma_cur_sge dma) = Some sge → offset < sge_length sge →
     mem ≠ None).

Lemma lookup_mem_good dev0 dev pd access key type dev' h m :
  dev_good dev0 → holding dev0 dev None → lookup_mem dev pd access key type = (dev', Some (h, m)) →
  mem_good m.
Proof.
  intros Hg [ph ->] E.
  assert (Hpos : refs_pos (with_phys dev0 ph)).
  { apply refs_pos_phys. intros p i mm Hm. by destruct (Hg p i mm Hm). }
  destruct (lookup_mem_cases _ pd access key type Hpos)
    as [[El _]|(p & m0 & m' & d & El & _ & Hm & Hp & Hh)]; rewrite El in E; simplify_eq.
  destruct Hh as (m1 & Hm1 & -> & _). cbn in Hm1. rewrite Hm in Hm1. simplify_eq.
  apply mem_good_ref. destruct (Hg p (Z.shiftr key 8) m1) as [_ Hgood].
  - by destruct p.
  - apply Hgood. by destruct Hp as (_ & _ & _ & ?).
Qed.

Section total.
Context (dev0 : mem_dev) (Hgood : dev_good dev0) (pd access : Z) (dir : copy_direction).

Lemma dev_good_pos : refs_pos dev0.
Proof using Hgood. intros p i m Hm. by destruct (Hgood p i m Hm). Qed.

Definition loop_total (continue : mem_dev → rxe_dma_info → Z → Z → option (mem_handle * rxe_mem) →
    list Z → Z → option Z → option copy_out) (steps : Z) : Prop :=
  ∀ dev dma offset resid mem addr length crc,
    holding dev0 dev mem → dma_ok dma → 0 ≤ offset → 0 ≤ length ≤ Z.of_nat (List.length addr) →
    length = 0 ∨ walk_left dma offset ≤ steps → mem_for dma offset mem →
    is_Some (continue dev dma offset resid mem addr length crc).

Lemma copy_transfer_total continue steps dev dma sge offset resid hm addr length crc :
  loop_total continue steps → holding dev0 dev (Some hm) → dma_ok dma → mem_good hm.2 →
  dma_sge dma !! Z.to_nat (dma_cur_sge dma) = Some sge → 0 ≤ offset < sge_length sge →
  0 < length ≤ Z.of_nat (List.length addr) →
  dma_num_sge dma - dma_cur_sge dma ≤ steps →
  is_Some (copy_transfer continue dev dma sge offset resid (Some hm) addr length dir crc).
Proof using Hgood.
  intros HI Hh Hd Hm Hsge Ho Hl Hw. destruct hm as [h m]. unfold copy_transfer.
  set (bytes := if length >? sge_length sge - offset then sge_length sge - offset else length).
  assert (Hb : 0 < bytes ≤ length ∧ offset + bytes ≤ sge_length sge ∧
    (bytes = length ∨ offset + bytes = sge_length sge)) by (unfold bytes; case_match; lia).
  clearbody bytes. destruct (Z.gtb_spec bytes 0); [|lia]. cbn [mbind option_bind].
  pose proof (Forall_lookup_1 _ _ _ _ (dma_ok_sge _ Hd) Hsge) as (? & ? & ?).
  destruct (rxe_mem_copy_total m (u64 (sge_addr sge + offset)) (dev_phys dev) addr bytes dir crc)
    as (ph & ad & cr & r & -> & Hlen); [done|apply u64_range|lia|rewrite u64_small; lia|lia|].
  cbn [mbind option_bind]. destruct r as [u|e]; [|by eexists].
  destruct (HI (dev <| dev_phys := ph |>) dma (offset + bytes) (resid - bytes) (Some (h, m))
    (drop (Z.to_nat bytes) ad) (length - bytes) cr) as [o ->]; cbn; [..|by eexists].
  - by apply (holding_phys _ _ (Some (h, m))).
  - done.
  - lia.
  - rewrite length_drop. lia.
  - unfold walk_left. rewrite Hsge. destruct (Z.ltb_spec (offset + bytes) (sge_length sge)); cbn; lia.
  - split; [by intros ?? [= <- <-]|done].
Qed.

Lemma copy_loop_total fuel : loop_total (copy_loop fuel pd access dir) (Z.of_nat fuel).
Proof using Hgood.
  induction fuel as [|fuel IH]; intros dev dma offset resid mem addr length crc Hh Hd Ho Hl Hw Hm;
    cbn [copy_loop]; (destruct (Z.leb_spec length 0); [by eexists|]).
  { destruct Hw; [lia|]. unfold walk_left in *. destruct Hd. case_match; [|lia].
    destruct (_ <? _); cbn in *; lia. }
  pose proof Hd as [Hcur Hnum Hsg]. destruct Hw as [|Hw]; [lia|]. unfold walk_left in Hw.
  destruct (dma_sge dma !! _) as [sge|] eqn:Hsge;
    [|apply lookup_ge_None in Hsge; lia]. cbn [mbind option_bind].
  destruct (Z.geb_spec offset (sge_length sge)) as [Hge|Hlt].
  - destruct (Z.ltb_spec offset (sge_length sge)); [lia|]. cbn [Zbool] in Hw.
    cbn [dma_cur_sge dma_num_sge dma_sge upd_field].
    apply (holding_drop _ _ _ dev_good_pos) in Hh.
    destruct (Z.geb_spec (dma_cur_sge dma + 1) (dma_num_sge dma)); [by eexists|].
    assert (Hd' : dma_ok (dma <| dma_cur_sge ::= (λ n, n + 1) |>)) by (split; cbn; done || lia).
    destruct (dma_sge dma !! Z.to_nat (dma_cur_sge dma + 1)) as [sge'|] eqn:Hsge';
      [|apply lookup_ge_None in Hsge'; lia]. cbn [mbind option_bind].
    pose proof (Forall_lookup_1 _ _ _ _ Hsg Hsge') as (? & ? & ?).
    destruct (Z.eqb_spec (sge_length sge') 0) as [Hz|]; cbn [negb].
    + apply IH; try done; [right|split; [done|cbn; rewrite Hsge'; intros ? [= <-] ?; lia]].
      unfold walk_left. cbn. rewrite Hsge', Hz. cbn. lia.
    + destruct (lookup_mem _ _ _ _ _) as [d [[h m]|]] eqn:E; [|by eexists].
      eapply copy_transfer_total; try done; [|by eapply lookup_mem_good|lia|lia|cbn; lia].
      eapply holding_lookup; [apply dev_good_pos|done|exact E].
  - destruct mem as [[h m]|]; [|by destruct (proj2 Hm sge Hsge Hlt)].
    destruct (Z.ltb_spec offset (sge_length sge)); [|lia]. cbn in Hw.
    eapply copy_transfer_total; try done; [by eapply (proj1 Hm)|lia..].
Qed.
End total.

Lemma copy_loop_neg fuel pd access dir dev dma offset resid mem addr length crc :
  length < 0 → is_Some (copy_loop fuel pd access dir dev dma offset resid mem addr length crc).
Proof.
  intros Hl. destruct fuel; cbn [copy_loop]; (destruct (Z.leb_spec length 0); [by eexists|lia]).
Qed.

Lemma copy_data_is_Some dev pd access dma addr length dir crc :
  dev_good dev → dma_ok dma → 0 ≤ dma_sge_offset dma →
  length ≤ Z.of_nat (List.length addr) →
  is_Some (copy_data dev pd access dma addr length dir crc).
Proof.
  intros Hg Hd Ho Hl. unfold copy_data. destruct (Z.eqb_spec length 0); [by eexists|].
  destruct (length >? _); [by eexists|]. pose proof Hd as [Hcur Hnum Hsg].
  destruct (dma_sge dma !! _) as [sge|] eqn:Hsge; [|apply lookup_ge_None in Hsge; lia].
  cbn [mbind option_bind].
  assert (H0 : holding dev dev None) by (exists (dev_phys dev); by destruct dev).
  assert (Hw : walk_left dma (dma_sge_offset dma) ≤ Z.of_nat (S (S (List.length (dma_sge dma))))).
  { unfold walk_left. rewrite Hsge. destruct (_ <? _); cbn [Zbool]; lia. }
  destruct (negb _ && _) eqn:Hb.
  - destruct (lookup_mem _ _ _ _ _) as [d [[h m]|]] eqn:E; [|by eexists].
    destruct (Z.lt_ge_cases length 0); [by apply copy_loop_neg|].
    apply (copy_loop_total dev Hg); try done; [|by right|].
    + eapply holding_lookup; [by apply dev_good_pos|done|exact E].
    + split; [|done]. intros ?? [= <- <-]. by eapply lookup_mem_good.
  - destruct (Z.lt_ge_cases length 0); [by apply copy_loop_neg|].
    apply (copy_loop_total dev Hg); try done; [by right|].
    split; [done|]. intros sge' Hs Hlt. rewrite Hsge in Hs. simplify_eq.
    apply andb_false_iff in Hb as [Hb%negb_false_iff%Z.eqb_eq|Hb%Z.ltb_ge]; lia.
Qed.

(** [copy_data] returns: for a descriptor at a valid position, over a
    device whose valid regions are well formed, the loop ends and no access
    leaves the buffers of a region, whatever the keys and lengths are. *)
Theorem copy_data_total dev pd access dma addr length dir crc :
  dev_good dev → dma_ok dma → 0 ≤ dma_sge_offset dma →
  0 ≤ length ≤ Z.of_nat (List.length addr) →
  is_Some (copy_data dev pd access dma addr length dir crc).
Proof. intros Hg Hd Ho Hl. apply copy_data_is_Some; [done..|lia]. Qed.

(** A receive of five bytes into two scatter/gather entries of the example. *)
Definition example_dma : rxe_dma_info :=
  Dma 6 6 0 3 0 [] [Sge 1000 2 0x102; Sge 0 0 0; Sge 1003 4 0x102].

Lemma example_dev_good : dev_good example_dev.
Proof.
  intros p i m Hm. destruct p; cbn in Hm; [|by rewrite lookup_empty in Hm..].
  apply lookup_singleton_Some in Hm as [_ <-]. split; [done|]. intros _. right.
  eexists _, _. apply example_region.
Qed.

Lemma example_dma_ok : dma_ok example_dma.
Proof. split; [cbn; lia|done|]. repeat constructor; cbn; lia. Qed.

Lemma copy_data_total_witness :
  is_Some (copy_data example_dev 5 1 example_dma [21; 22; 23; 24; 25] 5 direction_in (Some 0)).
Proof.
  apply copy_data_total; [apply example_dev_good|apply example_dma_ok|cbn; lia|cbn; lia].
Defined.

Lemma copy_data_balanced_witness :
  ∃ o, copy_data example_dev 5 1 example_dma [21; 22; 23; 24; 25] 5 direction_in (Some 0) = Some o ∧
    dev_mr (co_dev o) = {[1 := example_mem]}.
Proof.
  destruct (copy_data example_dev 5 1 example_dma [21; 22; 23; 24; 25] 5 direction_in (Some 0))
    as [o|] eqn:E; [|vm_compute in E; discriminate E].
  exists o. split; [reflexivity|].
  destruct (copy_data_balanced _ _ _ _ _ _ _ _ _ example_refs_pos E) as [-> _]. reflexivity.
Defined.

Lemma copy_data_advance_witness :
  ∃ o, copy_data example_dev 5 1 example_dma [21; 22; 23; 24; 25] 5 direction_in (Some 0) = Some o ∧
    advance_dma_data example_dma 5 = Some (co_dma o, Ok tt) ∧ dma_cur_sge (co_dma o) = 2.
Proof.
  destruct (copy_data example_dev 5 1 example_dma [21; 22; 23; 24; 25] 5 direction_in (Some 0))
    as [o|] eqn:E; [|vm_compute in E; discriminate E].
  exists o. split; [reflexivity|].
  assert (Hs : sges_ok example_dma) by (repeat constructor; cbn; lia).
  split.
  - apply (copy_data_advance example_dev 5 1 example_dma [21; 22; 23; 24; 25] 5 direction_in
             (Some 0) o Hs ltac:(lia) E).
    vm_compute in E. injection E as <-. reflexivity.
  - vm_compute in E. injection E as <-. reflexivity.
Defined.

(** ** Filling the page list *)

Lemma full_pages_alter mp m n b : full_pages mp → full_pages (alter (<[n := b]>) m mp).
Proof.
  intros Hf. unfold full_pages. apply Forall_alter; [done|]. intros p Hp Hl.
  rewrite length_insert. done.
Qed.

Lemma concat_alter_insert (mp : list (list ib_phys_buf)) (w m n : nat) b :
  Forall (λ p, length p = w) mp → (n < w)%nat → (m < length mp)%nat →
  concat (alter (<[n := b]>) m mp) = <[(m * w + n)%nat := b]> (concat mp).
Proof.
  intros Hf Hn. revert m. induction Hf as [|p mp Hp Hmp IH]; intros m Hm; [cbn in Hm; lia|].
  destruct m as [|m]; cbn [alter list_alter concat].
  - rewrite insert_app_l by lia. done.
  - cbn in Hm. change (list_alter _ m mp) with (alter (<[n := b]>) m mp). rewrite IH by lia.
    replace (S m * w + n)%nat with (length p + (m * w + n))%nat by lia.
    by rewrite insert_app_r.
Qed.

Lemma concat_length_uniform {A} (ls : list (list A)) (w : nat) :
  Forall (λ l, length l = w) ls → length (concat ls) = (length ls * w)%nat.
Proof. induction 1 as [|l ls Hl Hls IH]; cbn; [done|]. rewrite length_app. lia. Qed.

Lemma fill_bufs_spec bufs mp m n :
  full_pages mp → (n < 256)%nat → (m * 256 + n + length bufs ≤ length mp * 256)%nat →
  full_pages (fill_bufs mp m n bufs).1 ∧
  concat (fill_bufs mp m n bufs).1 =
    take (m * 256 + n) (concat mp) ++ bufs ++ drop (m * 256 + n + length bufs) (concat mp).
Proof.
  revert mp m n. induction bufs as [|b bufs IH]; intros mp m n Hf Hn Hl.
  - cbn. split; [done|]. by rewrite Nat.add_0_r, take_drop.
  - cbn [fill_bufs length] in *. set (mp' := alter (<[n := b]>) m mp).
    assert (Hf' : full_pages mp') by (by apply full_pages_alter).
    assert (Hlen : length mp' = length mp) by apply length_alter.
    assert (Hcl : length (concat mp) = (length mp * 256)%nat) by (by apply concat_length_uniform).
    assert (Hc : concat mp' = take (m * 256 + n) (concat mp) ++ b :: drop (S (m * 256 + n)) (concat mp)).
    { unfold mp'. rewrite (concat_alter_insert mp 256) by (done || lia).
      apply insert_take_drop. lia. }
    assert (Hfin : take (S (m * 256 + n)) (concat mp') ++ bufs
                     ++ drop (S (m * 256 + n) + length bufs) (concat mp')
      = take (m * 256 + n) (concat mp) ++ (b :: bufs) ++ drop (m * 256 + n + S (length bufs)) (concat mp)).
    { rewrite Hc. set (pre := take (m * 256 + n) (concat mp)). assert (Hp : length pre = (m * 256 + n)%nat)
        by (unfold pre; rewrite length_take; lia).
      rewrite <- Hp. rewrite take_app_ge, drop_app_ge by lia.
      replace (S (length pre) - length pre)%nat with 1%nat by lia.
      replace (S (length pre) + length bufs - length pre)%nat with (S (length bufs)) by lia.
      cbn [take drop]. rewrite take_0, drop_drop, <- app_assoc. cbn. do 3 f_equal. f_equal. lia. }
    rewrite <- Hfin. unfold RXE_BUF_PER_MAP. destruct (Z.eqb_spec (Z.of_nat n + 1) 256) as [Hw|Hw].
    + destruct (IH mp' (S m) 0%nat) as [H1 H2]; [done|lia|lia|].
      destruct (fill_bufs mp' (S m) 0 bufs) as [r oob]. cbn in *. split; [done|]. rewrite H2.
      do 2 f_equal; [|f_equal]; lia.
    + destruct (IH mp' m (S n)) as [H1 H2]; [done|lia|lia|]. split; [done|]. rewrite H2.
      do 2 f_equal; [|f_equal]; lia.
Qed.

(** The page list [rxe_mem_alloc] makes has room for the buffers asked for. *)
Lemma rxe_mem_alloc_ok avail junk mem num_buf :
  0 ≤ num_buf → 1 + (num_buf + 255) / 256 ≤ avail →
  ∃ mem' mp, rxe_mem_alloc avail junk mem num_buf = (mem', [], Ok tt) ∧
    mem' = mem <| mem_map := Some mp |> <| mem_map_shift := 8 |> <| mem_map_mask := 255 |>
               <| mem_num_buf := num_buf |> <| mem_num_map := (num_buf + 255) / 256 |>
               <| mem_max_buf := (num_buf + 255) / 256 * 256 |> ∧
    full_pages mp ∧ num_buf ≤ Z.of_nat (length mp) * 256.
Proof.
  intros Hn Ha. unfold rxe_mem_alloc, RXE_BUF_PER_MAP.
  replace (num_buf + 256 - 1) with (num_buf + 255) by lia.
  assert (0 ≤ (num_buf + 255) / 256) by (apply Z.div_pos; lia).
  destruct (Z.ltb_spec avail 1); [lia|]. destruct (Z.ltb_spec avail (1 + (num_buf + 255) / 256)); [lia|].
  eexists _, _. split; [done|]. split; [done|]. split.
  - apply Forall_replicate. by rewrite length_replicate.
  - rewrite length_replicate. Z.div_mod_to_equations. lia.
Qed.

Lemma bufs_size_pages l size : 0 < size → bufs_size (map (fun a => PhysBuf a size) l) = size * Z.of_nat (length l).
Proof.
  intros Hs. rewrite (bufs_size_uniform _ size), length_map; [done|done|].
  apply Forall_map, Forall_true. done.
Qed.

Lemma omap_id_Some {A} (l : list A) : omap id (map Some l) = l.
Proof. induction l as [|x l IH]; cbn; [done|]. by rewrite IH. Qed.

Lemma list_find_None_Some (l : list Z) : list_find (eq None) (map Some l) = None.
Proof. induction l as [|x l IH]; cbn; [done|]. by rewrite IH. Qed.

Lemma bufs_ok_pages l size : 0 < size < 2 ^ 31 → bufs_ok (map (fun a => PhysBuf a size) l).
Proof. intros Hs. apply Forall_map, Forall_true. cbn. lia. Qed.

(** Registering pinned user memory yields a valid region of the caller's
    protection domain over exactly those pages, with the access rights,
    start and length asked for; its key names its index. *)
Theorem rxe_mem_init_user_region key avail junk u addrs ps pd start length iova access mem :
  umem_pages u = map Some addrs → umem_page_size u = 2 ^ ps → 0 < ps < 31 →
  0 ≤ umem_offset u → 0 < length → umem_offset u + length ≤ 2 ^ ps * Z.of_nat (List.length addrs) →
  2 ^ ps * Z.of_nat (List.length addrs) < 2 ^ 32 → 0 ≤ iova → iova + length < 2 ^ 64 →
  1 + (Z.of_nat (List.length addrs) + 255) / 256 ≤ avail →
  ∃ mem' key' mp,
    rxe_mem_init_user key avail junk (Ok u) pd start length iova access mem = (mem', key', [], Ok tt) ∧
    mem_region mem' mp (map (fun a => PhysBuf a (2 ^ ps)) addrs) ∧
    mem_state mem' = RXE_MEM_STATE_VALID ∧ mem_pd mem' = Some pd ∧ mem_access mem' = access ∧
    mem_iova mem' = iova ∧ mem_length mem' = length ∧
    mem_lkey mem' = u32 (Z.shiftl (mem_index mem) 8) .| key' ∧ key' = rxe_get_key key.
Proof.
  intros Hp Hps Hr Ho Hl Hfit Hsz Hi Hw Hav.
  unfold rxe_mem_init_user. rewrite Hp, List.length_map. unfold rxe_mem_init.
  match goal with |- context [rxe_mem_alloc avail junk ?m ?n] =>
    destruct (rxe_mem_alloc_ok avail junk m n) as (m' & mp & -> & -> & Hf & Hroom); [lia|done|] end.
  destruct (Z.gtb_spec length 0); [|lia]. rewrite list_find_None_Some, omap_id_Some, Hps.
  destruct (fill_bufs_spec (map (fun a => PhysBuf a (2 ^ ps)) addrs) mp 0 0 Hf) as [Hf' Hc];
    [lia|rewrite List.length_map; lia|].
  assert (0 < 2 ^ ps < 2 ^ 31) by (split; [apply Z.pow_pos_nonneg|apply Z.pow_lt_mono_r]; lia).
  eexists _, _, _. split; [done|]. split; [|cbn; unfold ulong, BITS_PER_LONG; rewrite Z.mod_small by lia; done].
  split; cbn; unfold ulong, BITS_PER_LONG; rewrite ?Z.mod_small by lia;
    rewrite ?bufs_size_pages by lia; try (done || lia).
  - eexists. exact Hc.
  - by apply bufs_ok_pages.
  - by left.
  - intros _. rewrite Z.log2_pow2 by lia. repeat split; try (done || lia).
    apply Forall_map, Forall_true. done.
Qed.

Lemma rxe_mem_init_user_region_witness :
  ∃ mem' key' mp,
    rxe_mem_init_user 1 2 (PhysBuf 0 0) (Ok (Umem 9 4096 100 [[Some 8192]; [Some 40960]])) 5
      100 5000 100 7 (Mem 3 1 None None 0 0 RXE_MEM_STATE_INVALID RXE_MEM_TYPE_NONE
                        0 0 0 0 0 0 0 0 0 0 0 0 None) = (mem', key', [], Ok tt) ∧
    mem_region mem' mp [PhysBuf 8192 4096; PhysBuf 40960 4096].
Proof.
  destruct (rxe_mem_init_user_region 1 2 (PhysBuf 0 0) (Umem 9 4096 100 [[Some 8192]; [Some 40960]])
    [8192; 40960] 12 5 100 5000 100 7 (Mem 3 1 None None 0 0 RXE_MEM_STATE_INVALID RXE_MEM_TYPE_NONE
                        0 0 0 0 0 0 0 0 0 0 0 0 None)) as (m & k & mp & E & R & _);
    try done; try lia; cbn; try lia.
  exists m, k, mp. split; [exact E|exact R].
Defined.

(** When the allocation of a page of the page list fails, [rxe_mem_alloc]
    frees the list of pages but leaves the pointer to it in place, and the
    clean-up of the region frees it a second time. *)
Theorem rxe_mem_alloc_double_free avail junk mem num_buf :
  mem_num_map mem = 0 → mem_umem mem = None →
  1 ≤ avail < 1 + (num_buf + RXE_BUF_PER_MAP - 1) / RXE_BUF_PER_MAP →
  ∃ mem' fr, rxe_mem_alloc avail junk mem num_buf = (mem', fr, Err ENOMEM) ∧
    FreeMap ∈ fr ∧ rxe_mem_cleanup mem' = [FreeMap].
Proof.
  intros Hn Hu Ha. unfold rxe_mem_alloc. destruct (Z.ltb_spec avail 1); [lia|].
  destruct (Z.ltb_spec avail (1 + (num_buf + RXE_BUF_PER_MAP - 1) / RXE_BUF_PER_MAP)); [|lia].
  eexists _, _. split; [done|]. split.
  - apply elem_of_app. right. by apply list_elem_of_singleton.
  - unfold rxe_mem_cleanup. cbn. by rewrite Hu, Hn.
Qed.

Lemma rxe_mem_alloc_double_free_witness :
  ∃ mem' fr, rxe_mem_alloc 1 (PhysBuf 0 0) (example_mem <| mem_num_map := 0 |>) 4
    = (mem', fr, Err ENOMEM) ∧ FreeMap ∈ fr ∧ rxe_mem_cleanup mem' = [FreeMap].
Proof.
  apply (rxe_mem_alloc_double_free 1 (PhysBuf 0 0) (example_mem <| mem_num_map := 0 |>) 4);
    [done|done|vm_compute; split; [discriminate|reflexivity]].
Defined.

(** The key generator repeats after 15 steps, not after the 255 its comment
    announces: from the initial key it runs through 15 different nonzero bytes
    and is back where it started. *)
Theorem rxe_get_key_period :
  Nat.iter 15 rxe_get_key 1 = 1 ∧
  ∀ i j : nat, (i < j < 15)%nat → Nat.iter i rxe_get_key 1 ≠ Nat.iter j rxe_get_key 1 ∧
    1 ≤ Nat.iter i rxe_get_key 1 ≤ 255.
Proof.
  split; [vm_compute; reflexivity|].
  set (keys := (fun n => Nat.iter n rxe_get_key 1) <$> seq 0 15).
  assert (Hnd : NoDup keys) by (apply (bool_decide_unpack _); vm_compute; exact I).
  assert (Hr : Forall (λ k, 1 ≤ k ≤ 255) keys) by (apply (bool_decide_unpack _); vm_compute; exact I).
  assert (Hk : ∀ n, (n < 15)%nat → keys !! n = Some (Nat.iter n rxe_get_key 1)).
  { intros n Hn. unfold keys.
    rewrite list_lookup_fmap, lookup_seq_lt by lia. done. }
  intros i j Hij. split.
  - intros E. assert (i = j); [|lia].
    apply (NoDup_lookup keys i j (Nat.iter i rxe_get_key 1) Hnd); [apply Hk; lia|].
    rewrite E. apply Hk. lia.
  - apply (Forall_lookup_1 _ _ _ _ Hr (Hk i ltac:(lia))).
Qed.

Lemma rxe_get_key_period_witness : Nat.iter 3 rxe_get_key 1 ≠ Nat.iter 14 rxe_get_key 1.
Proof. apply rxe_get_key_period. lia. Defined.
