(* ===== verification/Sge.v ===== *)
(** * Copies through a scatter/gather list (rxe_mr.c)

    What [copy_data] transfers, in terms of the bytes the entries of the list
    describe: the addresses of the entries from the current position on, one
    after the other, are the stream the copy reads or writes. *)

From stdpp Require Import gmap.
From S2P Require Import Prelude Verbs Icrc Mr.

(** The bytes of an entry lie in the region [m], at the addresses [a]. *)
Definition sge_in (m : rxe_mem) (sge : ib_sge) (a : list Z) : Prop :=
  ∃ mp bs, mem_region m mp bs ∧ mem_iova m ≤ sge_addr sge ∧
    sge_addr sge + sge_length sge ≤ mem_iova m + mem_length m ∧
    a = take (Z.to_nat (sge_length sge)) (region_addrs m bs (sge_addr sge)).

(** The entry may be used by the protection domain, for the access. *)
Definition sge_at (dev : mem_dev) (pd access : Z) (sge : ib_sge) (a : list Z) : Prop :=
  Z.of_nat (length a) = sge_length sge ∧
  (sge_length sge ≠ 0 → ∃ p m,
     key_pool (Z.shiftr (sge_lkey sge) 8) = Some p ∧
     pool_of dev p !! Z.shiftr (sge_lkey sge) 8 = Some m ∧
     mem_permits m pd access (sge_lkey sge) lookup_local ∧ sge_in m sge a).

(** From [offset] in the current entry on, the list describes [addrs]. *)
Definition stream (dev : mem_dev) (pd access : Z) (dma : rxe_dma_info) (offset : Z)
    (addrs : list Z) : Prop :=
  0 ≤ dma_cur_sge dma ∧ dma_num_sge dma = Z.of_nat (length (dma_sge dma)) ∧
  ∃ a rest, Forall2 (sge_at dev pd access) (drop (Z.to_nat (dma_cur_sge dma)) (dma_sge dma)) (a :: rest) ∧
    0 ≤ offset ≤ Z.of_nat (length a) ∧ addrs = drop (Z.to_nat offset) a ++ concat rest.

Lemma copy_spec_take dir phys a a' n addr crc :
  take (Z.to_nat n) a = take (Z.to_nat n) a' →
  copy_spec dir phys a n addr crc = copy_spec dir phys a' n addr crc.
Proof. intros E. unfold copy_spec. by rewrite E. Qed.

Lemma copy_spec_app dir phys a1 a2 n1 n addr crc phys1 addr1 crc1 :
  0 ≤ n1 ≤ n → n ≤ Z.of_nat (length addr) → Z.of_nat (length a1) = n1 →
  copy_spec dir phys a1 n1 addr crc = (phys1, addr1, crc1) →
  copy_spec dir phys (a1 ++ a2) n addr crc =
    (let '(phys2, rest, crc2) := copy_spec dir phys1 a2 (n - n1) (drop (Z.to_nat n1) addr1) crc1 in
     (phys2, take (Z.to_nat n1) addr1 ++ rest, crc2)) ∧ length addr1 = length addr.
Proof.
  intros Hn Hl Ha E. rewrite (copy_spec_step dir phys a1 a2 n1 n) by done.
  unfold copy_spec in E. rewrite (take_ge a1) in E by lia.
  destruct dir; injection E as <- <- <-;
    rewrite take_app_length', drop_app_length' by (rewrite ?length_take, ?length_fmap; lia);
    rewrite length_app, length_drop, ?length_take, ?length_fmap; (split; [done|lia]).
Qed.

(** The copy of a part of an entry. *)
Lemma sge_copy m sge a offset bytes phys addr dir crc :
  sge_in m sge a → 0 ≤ offset → 0 < bytes → offset + bytes ≤ sge_length sge →
  bytes ≤ Z.of_nat (length addr) →
  ∃ phys' addr' crc',
    rxe_mem_copy m (u64 (sge_addr sge + offset)) phys addr bytes dir crc
      = Some (phys', addr', crc', Ok tt) ∧
    copy_spec dir phys (take (Z.to_nat bytes) (drop (Z.to_nat offset) a)) bytes addr crc
      = (phys', addr', crc').
Proof.
  intros (mp & bs & Hr & Hlo & Hhi & ->) Ho Hb Hob Hl.
  pose proof Hr as []. rewrite u64_small by lia.
  rewrite (rxe_mem_copy_region m mp bs) by done || lia.
  destruct (copy_spec _ _ (region_addrs _ _ _) _ _ _) as [[ph ad] cr] eqn:E.
  exists ph, ad, cr. split; [done|]. rewrite <- E. apply copy_spec_take.
  rewrite take_take, Nat.min_id, take_drop_commute, take_take.
  rewrite Nat.min_l by lia. rewrite <- take_drop_commute. unfold region_addrs.
  rewrite drop_drop. do 2 f_equal. lia.
Qed.

Lemma sge_in_ref m f sge a : sge_in m sge a → sge_in (m <| mem_ref ::= f |>) sge a.
Proof. intros (mp & bs & Hr & ? & ? & ->). exists mp, bs. split; [|done]. destruct Hr. by split. Qed.

(** [m] is the region the key of the entry names, up to its references. *)
Definition keyed (dev : mem_dev) (sge : ib_sge) (m : rxe_mem) : Prop :=
  ∃ p m0 f, key_pool (Z.shiftr (sge_lkey sge) 8) = Some p ∧
    pool_of dev p !! Z.shiftr (sge_lkey sge) 8 = Some m0 ∧ m = m0 <| mem_ref ::= f |>.

Lemma keyed_in dev pd access sge a m :
  keyed dev sge m → sge_at dev pd access sge a → sge_length sge ≠ 0 → sge_in m sge a.
Proof.
  intros (p & m0 & f & Hk & Hm & ->) [_ Hs] Hz. destruct (Hs Hz) as (p' & m' & Hk' & Hm' & _ & Hi).
  apply sge_in_ref. rewrite Hk in Hk'. injection Hk' as <-. rewrite Hm in Hm'. by injection Hm' as <-.
Qed.

(** The key of a usable entry leads to its region. *)
Lemma lookup_sge dev0 dev pd access sge a :
  refs_pos dev0 → holding dev0 dev None → sge_at dev0 pd access sge a → sge_length sge ≠ 0 →
  ∃ dev' h m, lookup_mem dev pd access (sge_lkey sge) lookup_local = (dev', Some (h, m)) ∧
    holding dev0 dev' (Some (h, m)) ∧ dev_phys dev' = dev_phys dev ∧ keyed dev0 sge m.
Proof.
  intros Hpos Hh [_ Hs] Hz. destruct (Hs Hz) as (p & m & Hk & Hm & Hp & Hi).
  destruct (lookup_mem dev pd access (sge_lkey sge) lookup_local) as [dev' r] eqn:E.
  pose proof (holding_lookup _ _ _ _ _ _ _ _ Hpos Hh E) as Hh'. destruct Hh as [ph ->].
  destruct (lookup_mem_cases (with_phys dev0 ph) pd access (sge_lkey sge) lookup_local)
    as [[El Hn]|(p' & m0 & m1 & d & El & Hk' & Hm' & _ & Hd)]; [by apply refs_pos_phys| |].
  - exfalso. apply (Hn p m Hk); [by destruct p|done].
  - rewrite El in E. injection E as <- <-. rewrite Hk in Hk'. injection Hk' as <-.
    assert (m0 = m) as -> by (destruct p; cbn in *; congruence).
    destruct Hd as (m2 & Hm2 & -> & ->). cbn in Hm2. rewrite Hm' in Hm2. injection Hm2 as <-.
    eexists _, _, _. split; [done|]. split; [done|]. split; [by destruct p|]. by eexists p, m, _.
Qed.

(** ** The walk *)

Section walk.
Context (dev0 : mem_dev) (Hpos : refs_pos dev0) (pd access : Z) (dir : copy_direction).

(** The region held serves what is left of the current entry. *)
Definition serves (dma : rxe_dma_info) (offset : Z) (mem : option (mem_handle * rxe_mem)) : Prop :=
  ∀ sge, dma_sge dma !! Z.to_nat (dma_cur_sge dma) = Some sge → offset < sge_length sge →
    ∃ h m, mem = Some (h, m) ∧ keyed dev0 sge m.

(** The result of copying [length] bytes of the stream [addrs]. *)
Definition copied (o : copy_out) (dma : rxe_dma_info) (phys : memory) (addrs : list Z) (resid : Z)
    (addr : list Z) (length : Z) (crc : option Z) : Prop :=
  co_res o = Ok tt ∧ holding dev0 (co_dev o) None ∧
  (dev_phys (co_dev o), co_addr o, co_crc o) = copy_spec dir phys addrs length addr crc ∧
  stream dev0 pd access (co_dma o) (dma_sge_offset (co_dma o)) (drop (Z.to_nat length) addrs) ∧
  ∃ cur off, co_dma o = dma <| dma_cur_sge := cur |> <| dma_sge_offset := off |>
                            <| dma_resid := resid - length |>.

Definition loop_copies (continue : mem_dev → rxe_dma_info → Z → Z → option (mem_handle * rxe_mem) →
    list Z → Z → option Z → option copy_out) (steps : Z) : Prop :=
  ∀ dev dma offset resid mem addr length crc addrs,
    holding dev0 dev mem → stream dev0 pd access dma offset addrs → serves dma offset mem →
    0 ≤ length ≤ Z.of_nat (List.length addrs) → length ≤ Z.of_nat (List.length addr) →
    length = 0 ∨ walk_left dma offset ≤ steps →
    ∃ o, continue dev dma offset resid mem addr length crc = Some o ∧
      copied o dma (dev_phys dev) addrs resid addr length crc.

Lemma stream_sge dma offset addrs :
  stream dev0 pd access dma offset addrs →
  ∃ sge a rest, dma_sge dma !! Z.to_nat (dma_cur_sge dma) = Some sge ∧ sge_at dev0 pd access sge a ∧
    Forall2 (sge_at dev0 pd access) (drop (S (Z.to_nat (dma_cur_sge dma))) (dma_sge dma)) rest ∧
    0 ≤ offset ≤ sge_length sge ∧ addrs = drop (Z.to_nat offset) a ++ concat rest ∧
    0 ≤ dma_cur_sge dma < dma_num_sge dma ∧ dma_num_sge dma = Z.of_nat (length (dma_sge dma)).
Proof.
  intros (Hc & Hn & a & rest & Hf & Ho & ->). apply Forall2_cons_inv_r in Hf as (sge & l & Hs & Hl & E).
  exists sge, a, rest. assert (Hk : dma_sge dma !! Z.to_nat (dma_cur_sge dma) = Some sge).
  { rewrite <- (Nat.add_0_r (Z.to_nat _)), <- lookup_drop, E. done. }
  pose proof (lookup_lt_Some _ _ _ Hk). split; [done|]. split; [done|].
  split; [|destruct Hs; repeat split; lia].
  rewrite (drop_S _ sge) in E by done. by injection E as ->.
Qed.

Lemma copy_transfer_copies continue steps dev dma sge a rest offset resid h m addr length crc :
  loop_copies continue steps → holding dev0 dev (Some (h, m)) → keyed dev0 sge m →
  dma_sge dma !! Z.to_nat (dma_cur_sge dma) = Some sge → sge_at dev0 pd access sge a →
  Forall2 (sge_at dev0 pd access) (drop (S (Z.to_nat (dma_cur_sge dma))) (dma_sge dma)) rest →
  0 ≤ dma_cur_sge dma < dma_num_sge dma → dma_num_sge dma = Z.of_nat (List.length (dma_sge dma)) →
  0 ≤ offset < sge_length sge →
  0 < length ≤ Z.of_nat (List.length (drop (Z.to_nat offset) a ++ concat rest)) →
  length ≤ Z.of_nat (List.length addr) → dma_num_sge dma - dma_cur_sge dma ≤ steps →
  ∃ o, copy_transfer continue dev dma sge offset resid (Some (h, m)) addr length dir crc = Some o ∧
    copied o dma (dev_phys dev) (drop (Z.to_nat offset) a ++ concat rest) resid addr length crc.
Proof using Hpos.
  intros HI Hh Hin Hsge Hat Hrest Hcur Hnum Ho Hl Hla Hw. unfold copy_transfer.
  set (bytes := if length >? sge_length sge - offset then sge_length sge - offset else length).
  assert (Hb : 0 < bytes ≤ length ∧ offset + bytes ≤ sge_length sge ∧
    (bytes = length ∨ offset + bytes = sge_length sge)) by (unfold bytes; case_match; lia).
  clearbody bytes. destruct (Z.gtb_spec bytes 0); [|lia]. cbn [mbind option_bind].
  destruct (sge_copy m sge a offset bytes (dev_phys dev) addr dir crc) as (ph & ad & cr & -> & Hc);
    [eapply keyed_in; [done..|lia]|lia..|]. cbn [mbind option_bind].
  set (a1 := take (Z.to_nat bytes) (drop (Z.to_nat offset) a)) in Hc.
  assert (Ha : List.length a = Z.to_nat (sge_length sge)) by (destruct Hat; lia).
  assert (Ha1 : Z.of_nat (List.length a1) = bytes).
  { unfold a1. rewrite length_take, length_drop. lia. }
  assert (Hsp : drop (Z.to_nat offset) a ++ concat rest
    = a1 ++ drop (Z.to_nat (offset + bytes)) a ++ concat rest).
  { rewrite app_assoc. f_equal. unfold a1. rewrite Z2Nat.inj_add, <- drop_drop by lia.
    symmetry. apply take_drop. }
  destruct (copy_spec_app dir (dev_phys dev) a1 (drop (Z.to_nat (offset + bytes)) a ++ concat rest)
    bytes length addr crc ph ad cr) as [Hcs Hlen]; [lia|lia|done|done|].
  rewrite Hsp in Hl |- *. rewrite length_app in Hl.
  destruct (HI (dev <| dev_phys := ph |>) dma (offset + bytes) (resid - bytes) (Some (h, m))
    (drop (Z.to_nat bytes) ad) (length - bytes) cr (drop (Z.to_nat (offset + bytes)) a ++ concat rest))
    as (o & -> & Hr & Hh' & Hco & Hst & c & f & Hdma).
  - by apply (holding_phys _ _ (Some (h, m))).
  - split; [lia|]. split; [done|]. exists a, rest. split; [|split; [lia|done]].
    rewrite (drop_S _ sge) by done. by constructor.
  - intros sge' E Hlt. rewrite Hsge in E. injection E as <-. by exists h, m.
  - lia.
  - rewrite length_drop. lia.
  - unfold walk_left. rewrite Hsge. destruct (Z.ltb_spec (offset + bytes) (sge_length sge)); cbn; lia.
  - cbn. eexists. split; [done|]. split; [done|]. split; [done|]. rewrite Hcs. cbn [co_dev co_addr co_crc].
    split; [|split; [|exists c, f; cbn; rewrite Hdma;
      by replace (resid - bytes - (length - bytes)) with (resid - length) by lia]].
    + cbn [dev_phys upd_field] in Hco. rewrite <- Hco. done.
    + cbn [co_dma]. rewrite drop_app_ge by lia. replace (Z.to_nat length - List.length a1)%nat
        with (Z.to_nat (length - bytes)) by lia. done.
Qed.

Lemma drop_opt_phys dev mem : dev_phys (drop_opt dev mem) = dev_phys dev.
Proof.
  destruct mem as [[h m]|]; cbn; [|done]. unfold mem_drop_ref. case_match; [|done].
  case_match; destruct h as [[] ?]; done.
Qed.

Lemma copied_next o dma phys addrs resid addr length crc :
  copied o (dma <| dma_cur_sge ::= (λ n, n + 1) |>) phys addrs resid addr length crc →
  copied o dma phys addrs resid addr length crc.
Proof. intros (? & ? & ? & ? & c & f & E). do 4 (split; [done|]). exists c, f. by rewrite E. Qed.

Lemma copied_0 dev dma offset resid mem addr addrs crc length :
  holding dev0 dev mem → stream dev0 pd access dma offset addrs → length = 0 →
  copied (CopyOut (drop_opt dev mem) (dma <| dma_sge_offset := offset |> <| dma_resid := resid |>)
            addr crc (Ok tt)) dma (dev_phys dev) addrs resid addr length crc.
Proof using Hpos.
  intros Hh Hs ->. split; [done|]. split; [by apply holding_drop|]. rewrite copy_spec_0. cbn.
  split; [|split; [done|]].
  - by rewrite drop_opt_phys.
  - exists (dma_cur_sge dma), offset. rewrite Z.sub_0_r. by destruct dma.
Qed.

Lemma copy_loop_copies fuel : loop_copies (copy_loop fuel pd access dir) (Z.of_nat fuel).
Proof using Hpos.
  induction fuel as [|fuel IH]; intros dev dma offset resid mem addr length crc addrs Hh Hst Hm Hl Hla Hw;
    cbn [copy_loop]; (destruct (Z.leb_spec length 0);
      [eexists; split; [done|]; apply copied_0; [done..|lia]|]);
    destruct (stream_sge _ _ _ Hst) as (sge & a & rest & Hsge & Hat & Hrest & Ho & -> & Hcur & Hnum);
    (destruct Hw as [|Hw]; [lia|]); unfold walk_left in Hw; rewrite Hsge in Hw.
  { destruct (_ <? _); cbn in *; lia. }
  rewrite Hsge. cbn [mbind option_bind].
  destruct (Z.geb_spec offset (sge_length sge)) as [Hge|Hlt].
  - destruct (Z.ltb_spec offset (sge_length sge)); [lia|]. cbn [Zbool] in Hw.
    cbn [dma_cur_sge dma_num_sge dma_sge upd_field].
    apply (holding_drop _ _ _ Hpos) in Hh as Hd.
    assert (Ha : drop (Z.to_nat offset) a = []) by (apply drop_ge; destruct Hat; lia).
    rewrite Ha in Hl |- *. cbn [app] in *.
    destruct rest as [|b rest]; [cbn in Hl; lia|]. cbn [concat] in *.
    apply Forall2_cons_inv_r in Hrest as (sge' & l & Hat' & Hl' & E).
    assert (Hk : dma_sge dma !! S (Z.to_nat (dma_cur_sge dma)) = Some sge').
    { rewrite <- (Nat.add_0_r (S _)), <- lookup_drop, E. done. }
    pose proof (lookup_lt_Some _ _ _ Hk). rewrite (drop_S _ sge') in E by done. injection E as <-.
    destruct (Z.geb_spec (dma_cur_sge dma + 1) (dma_num_sge dma)); [lia|].
    assert (Hi : Z.to_nat (dma_cur_sge dma + 1) = S (Z.to_nat (dma_cur_sge dma))) by lia.
    rewrite Hi, Hk. cbn [mbind option_bind].
    rewrite <- (drop_opt_phys dev mem).
    set (dma' := dma <| dma_cur_sge ::= (λ n, n + 1) |>).
    assert (Hw' : walk_left dma' 0 ≤ Z.of_nat (S fuel)
      ∧ (sge_length sge' = 0 → walk_left dma' 0 ≤ Z.of_nat fuel)).
    { unfold walk_left, dma'. cbn. rewrite Hi, Hk. destruct (Z.ltb_spec 0 (sge_length sge')); cbn; lia. }
    destruct (Z.eqb_spec (sge_length sge') 0) as [Hz|Hz]; cbn [negb].
    + destruct (IH (drop_opt dev mem) dma' 0 resid None addr length crc (b ++ concat rest))
        as (o & -> & Ho'); try done.
      * split; [cbn; lia|]. split; [done|]. exists b, rest. cbn. rewrite Hi, (drop_S _ sge') by done.
        split; [by constructor|]. split; [lia|done].
      * intros s Es Hlt. cbn in Es. rewrite Hi, Hk in Es. injection Es as <-. lia.
      * right. by apply Hw'.
      * eexists. split; [done|]. by apply copied_next.
    + destruct (lookup_sge dev0 (drop_opt dev mem) pd access sge' b) as (d & h & m & -> & Hh' & <- & Hin);
        [done..|]. destruct Hat' as [Hlen Hat'].
      destruct (copy_transfer_copies (copy_loop fuel pd access dir) (Z.of_nat fuel) d dma' sge' b rest 0
        resid h m addr length crc) as (o & -> & Ho'); try (done || (cbn; lia) ||
        (change (drop (Z.to_nat 0) b) with b; lia)).
      * cbn. by rewrite Hi.
      * cbn. by rewrite Hi.
      * eexists. split; [done|]. by apply copied_next.
  - destruct (Hm sge Hsge Hlt) as (h & m & -> & Hk).
    destruct (Z.ltb_spec offset (sge_length sge)); [|lia]. cbn [Zbool] in Hw.
    eapply copy_transfer_copies; try done; lia.
Qed.
End walk.

Lemma copy_data_copied dev pd access dma addrs addr length dir crc :
  refs_pos dev → stream dev pd access dma (dma_sge_offset dma) addrs →
  0 ≤ length ≤ Z.of_nat (List.length addrs) → length ≤ dma_resid dma < 2 ^ 31 →
  length ≤ Z.of_nat (List.length addr) →
  ∃ o, copy_data dev pd access dma addr length dir crc = Some o ∧
    copied dev pd access dir o dma (dev_phys dev) addrs (dma_resid dma) addr length crc.
Proof.
  intros Hpos Hst Hl Hr Ha. assert (Hh : holding dev dev None) by (exists (dev_phys dev); by destruct dev).
  unfold copy_data. destruct (Z.eqb_spec length 0) as [->|Hz].
  { pose proof (copied_0 dev Hpos pd access dir dev dma (dma_sge_offset dma) (dma_resid dma) None addr addrs
      crc 0 Hh Hst eq_refl) as Hc. eexists. split; [done|]. by destruct dma. }
  replace (s32 (dma_resid dma)) with (dma_resid dma) by (unfold s32; rewrite Z.mod_small; lia).
  destruct (Z.gtb_spec length (dma_resid dma)); [lia|].
  destruct (stream_sge _ _ _ _ _ _ Hst) as (sge & a & rest & Hsge & Hat & Hrest & Ho & _ & Hcur & Hnum).
  rewrite Hsge. cbn [mbind option_bind].
  assert (Hw : walk_left dma (dma_sge_offset dma) ≤ Z.of_nat (S (S (List.length (dma_sge dma))))).
  { unfold walk_left. rewrite Hsge. destruct (_ <? _); cbn [Zbool]; lia. }
  destruct (Z.ltb_spec (dma_sge_offset dma) (sge_length sge)) as [Hlt|Hge].
  - destruct (Z.eqb_spec (sge_length sge) 0); [lia|]. cbn [negb andb].
    destruct (lookup_sge dev dev pd access sge a) as (d & h & m & -> & Hh' & <- & Hk); [done..|].
    apply copy_loop_copies; try (done || lia). intros s Es _. rewrite Hsge in Es. injection Es as <-.
    by exists h, m.
  - rewrite andb_false_r. apply copy_loop_copies; try (done || lia).
    intros s Es Hlt. rewrite Hsge in Es. injection Es as <-. lia.
Qed.

(** C19: a copy to or from a scatter/gather list whose entries lie in regions the
    protection domain may use succeeds for every length the list still has
    room for: it moves exactly the next bytes of the stream the entries
    describe, across entries and pages and past empty entries, the CRC is that
    of these bytes, the descriptor is left at the rest of the stream, and no
    reference is kept. *)
Theorem copy_data_stream dev pd access dma addrs addr length dir crc :
  refs_pos dev → stream dev pd access dma (dma_sge_offset dma) addrs →
  0 ≤ length ≤ Z.of_nat (List.length addrs) → length ≤ dma_resid dma < 2 ^ 31 →
  length ≤ Z.of_nat (List.length addr) →
  ∃ o, copy_data dev pd access dma addr length dir crc = Some o ∧ co_res o = Ok tt ∧
    (let '(phys, addr', crc') := copy_spec dir (dev_phys dev) addrs length addr crc in
     co_dev o = dev <| dev_phys := phys |> ∧ co_addr o = addr' ∧ co_crc o = crc') ∧
    stream dev pd access (co_dma o) (dma_sge_offset (co_dma o)) (drop (Z.to_nat length) addrs) ∧
    dma_resid (co_dma o) = dma_resid dma - length ∧ dma_length (co_dma o) = dma_length dma.
Proof.
  intros Hpos Hst Hl Hr Ha.
  destruct (copy_data_copied dev pd access dma addrs addr length dir crc)
    as (o & E & Ho & [ph Hh] & Hc & Hs & c & f & Hd); [done..|].
  exists o. do 2 (split; [done|]). destruct (copy_spec _ _ _ _ _ _) as [[p a'] c'].
  injection Hc as Hp Ha' Hc'. rewrite Hd. rewrite Hd in Hs.
  split; [|done]. split; [|done]. rewrite Hh in Hp |- *. cbn in Hp. by subst.
Qed.

Lemma example_stream access :
  access = 0 ∨ access = 1 → stream example_dev 5 access example_dma 0 [101; 102; 200; 201; 202; 203].
Proof.
  intros Hacc. split; [done|]. split; [done|]. exists [101; 102], [[]; [200; 201; 202; 203]].
  split; [|split; [cbn; lia|done]]. cbn [drop example_dma dma_cur_sge dma_sge Z.to_nat].
  assert (H : ∀ addr len a, 1000 ≤ addr → addr + len ≤ 1007 → len ≠ 0 → Z.of_nat (length a) = len →
    a = take (Z.to_nat len) (region_addrs example_mem example_bufs addr) →
    sge_at example_dev 5 access (Sge addr len 0x102) a).
  { intros addr len a Hlo Hhi Hz Hl ->. split; [done|]. intros _. exists mr_pool, example_mem.
    split; [done|]. split; [done|]. split; [by destruct Hacc as [-> | ->]; repeat split|].
    eexists _, example_bufs. split; [apply example_region|]. cbn. done. }
  apply Forall2_cons_2; [apply H; [lia..|reflexivity|reflexivity]|].
  apply Forall2_cons_2; [by split|].
  apply Forall2_cons_2; [apply H; [lia..|reflexivity|reflexivity]|constructor].
Qed.

Lemma copy_data_stream_witness :
  ∃ o, copy_data example_dev 5 1 example_dma (replicate 5 0) 5 direction_out None = Some o ∧
    co_res o = Ok tt ∧ co_addr o = mread example_phys <$> [101; 102; 200; 201; 202] ∧
    stream example_dev 5 1 (co_dma o) (dma_sge_offset (co_dma o)) [203].
Proof.
  destruct (copy_data_stream example_dev 5 1 example_dma [101; 102; 200; 201; 202; 203] (replicate 5 0)
    5 direction_out None) as (o & E & Ho & (_ & Ha & _) & Hs & _);
    [apply example_refs_pos|apply example_stream; by right|cbn; lia|cbn; lia|cbn; lia|].
  exists o. split; [exact E|]. split; [exact Ho|]. split; [exact Ha|exact Hs].
Defined.
