(* ===== verification/Cq.v ===== *)
(** * Completion queues (rxe_cq.c and the CQ verbs of rxe_verbs.c)

    A completion queue is a ring of completions with the notification request
    of the consumer. What a call does outside the queue (the asynchronous
    error event, the scheduling of the completion tasklet) is returned as a
    list of events. The queue's proofs use the ring only through [RingFifo]. *)

From stdpp Require Import sets.
From S2P Require Import Prelude Mmap Queue Verbs.

Record rxe_cq := Cq {
  cq_queue : rxe_queue ib_wc;
  cq_notify : Z;
  cq_is_user : bool;
  cq_cqe : Z;
  cq_has_event_handler : bool
}.

#[export] Instance eta_rxe_cq : Eta rxe_cq := fun r =>
  Cq (cq_queue r) (cq_notify r) (cq_is_user r) (cq_cqe r) (cq_has_event_handler r).

Inductive cq_event : Type :=
  | CQ_ERR_EVENT
  | CQ_COMP_TASK.

#[export] Instance cq_event_eq_dec : EqDecision cq_event.
Proof. solve_decision. Defined.

(** ** Operations *)

Definition rxe_cq_chk_attr (max_cqe : Z) (cq : option rxe_cq) (cqe : Z) : result unit :=
  check? negb (cqe <=? 0) else EINVAL in
  check? negb (cqe >? max_cqe) else EINVAL in
  match cq with
  | None => Ok tt
  | Some cq => check? negb (cqe <? queue_count (cq_queue cq)) else EINVAL in Ok tt
  end.

(** [handler] is what the consumer's completion handler, and whatever runs
    beside it, does to the queue during one call. *)
Fixpoint rxe_send_complete (handler : nat → rxe_cq → rxe_cq) (fuel : nat) (cq : rxe_cq)
    : option rxe_cq :=
  match fuel with
  | O => None
  | S fuel =>
      let notify := cq_notify cq in
      let cq := handler fuel cq in
      if notify =? cq_notify cq then Some cq else rxe_send_complete handler fuel cq
  end.

Definition sizeof_rxe_cqe : Z := 56.

(** The result is the CQ and the value returned; the device's list of freed
    buffers says whether the buffer the CQ points to is still allocated. *)
Definition rxe_cq_from_init (cache_line_size : Z) (env : alloc_env) (rxe : mmap_dev) (cq : rxe_cq)
    (cqe context : Z) (udata : option Z) : mmap_dev * rxe_cq * result unit :=
  match rxe_queue_init zero_wc cache_line_size (env_kmalloc_queue env) (env_vmalloc env)
          cqe sizeof_rxe_cqe with
  | None => (rxe, cq, Err ENOMEM)
  | Some (queue, cqe) =>
      let '(rxe, err) := do_mmap_info (env_kmalloc_ip env) (env_copy_to_user env) rxe udata 0
                           context (q_buf_ptr queue) (q_buf_size queue) in
      let '(rxe, queue) :=
        match err with
        | Err _ => (rxe <| vfreed ::= cons (q_buf_ptr queue) |>, queue)
        | Ok ip => (rxe, queue <| q_ip := ip |>)
        end in
      let cq := cq <| cq_queue := queue |> in
      let cq := match udata with Some _ => cq <| cq_is_user := true |> | None => cq end in
      (rxe, cq <| cq_cqe := cqe |>, Ok tt)
  end.

Definition rxe_cq_resize_queue (cache_line_size : Z) (env : alloc_env) (rxe : mmap_dev) (cq : rxe_cq)
    (cqe context : Z) (udata : option Z) : option (mmap_dev * rxe_cq * result unit) :=
  match rxe_queue_resize zero_wc cache_line_size env rxe (cq_queue cq) cqe sizeof_rxe_cqe
          context udata with
  | None => None
  | Some (rxe, q, cqe, err) =>
      let cq := cq <| cq_queue := q |> in
      Some (rxe, match err with Ok _ => cq <| cq_cqe := cqe |> | Err _ => cq end, err)
  end.

Definition rxe_resize_cq (max_cqe cache_line_size : Z) (env : alloc_env) (rxe : mmap_dev)
    (cq : rxe_cq) (cqe context : Z) (udata : option Z) : option (mmap_dev * rxe_cq * result unit) :=
  match rxe_cq_chk_attr max_cqe (Some cq) cqe with
  | Err e => Some (rxe, cq, Err e)
  | Ok _ => rxe_cq_resize_queue cache_line_size env rxe cq cqe context udata
  end.

Definition rxe_cq_post (cq : rxe_cq) (cqe : ib_wc) (solicited : bool)
    : rxe_cq * list cq_event * result unit :=
  if queue_full (cq_queue cq) then
    (cq, if cq_has_event_handler cq then [CQ_ERR_EVENT] else [], Err EBUSY)
  else
    let cq := cq <| cq_queue ::= fun q => store_at q (producer_addr q) cqe |> in
    let cq := cq <| cq_queue ::= advance_producer |> in
    if (cq_notify cq =? IB_CQ_NEXT_COMP) || ((cq_notify cq =? IB_CQ_SOLICITED) && solicited)
    then (cq <| cq_notify ::= fun n => u8 (n + 1) |>, [CQ_COMP_TASK], Ok tt)
    else (cq, [], Ok tt).

Definition rxe_cq_cleanup (rxe : mmap_dev) (cq : rxe_cq) : mmap_dev :=
  rxe_queue_cleanup rxe (cq_queue cq).

(** [None] when the head of the queue is not in the data area. *)
Fixpoint rxe_poll_cq (num_entries : nat) (cq : rxe_cq) : option (rxe_cq * list ib_wc) :=
  match num_entries with
  | O => Some (cq, [])
  | S n =>
      match queue_head (cq_queue cq) with
      | None => Some (cq, [])
      | Some cqe =>
          match elem_at (cq_queue cq) cqe with
          | None => None
          | Some wc =>
              match rxe_poll_cq n (cq <| cq_queue ::= advance_consumer |>) with
              | None => None
              | Some (cq, wcs) => Some (cq, wc :: wcs)
              end
          end
      end
  end.

Definition rxe_peek_cq (cq : rxe_cq) (wc_cnt : Z) : Z :=
  let count := queue_count (cq_queue cq) in
  if count >? wc_cnt then wc_cnt else count.

Definition rxe_req_notify_cq (cq : rxe_cq) (flags : Z) : rxe_cq :=
  if cq_notify cq =? IB_CQ_NEXT_COMP then cq
  else cq <| cq_notify := flags .& IB_CQ_SOLICITED_MASK |>.

(** ** Lemmas *)

Definition cq_wf (n : Z) (cq : rxe_cq) : Prop := ring_wf n (cq_queue cq).

Definition cq_list (cq : rxe_cq) : list ib_wc := ring_list (cq_queue cq).

Lemma rxe_cq_post_full n cq wc solicited :
  cq_wf n cq → Z.of_nat (length (cq_list cq)) = n →
  rxe_cq_post cq wc solicited =
    (cq, if cq_has_event_handler cq then [CQ_ERR_EVENT] else [], Err EBUSY).
Proof.
  intros Hwf Hl. unfold rxe_cq_post.
  assert (E : queue_full (cq_queue cq) = true) by exact (proj2 (ring_full_spec n _ Hwf) Hl).
  by rewrite E.
Qed.

(** A post to a queue with room appends the completion; only the notification
    request changes besides. *)
Lemma rxe_cq_post_room n cq wc solicited :
  cq_wf n cq → Z.of_nat (length (cq_list cq)) < n →
  ∃ cq' ev, rxe_cq_post cq wc solicited = (cq', ev, Ok tt) ∧
    cq_wf n cq' ∧ cq_list cq' = cq_list cq ++ [wc] ∧ (CQ_ERR_EVENT ∉ ev) ∧
    cq_has_event_handler cq' = cq_has_event_handler cq ∧
    ((cq_notify cq' = cq_notify cq ∧ ev = []) ∨
     (cq_notify cq' = u8 (cq_notify cq + 1) ∧ ev = [CQ_COMP_TASK])).
Proof.
  intros Hwf Hl. unfold rxe_cq_post.
  assert (E : queue_full (cq_queue cq) = false).
  { apply not_true_is_false. intros E. apply (ring_full_spec n _ Hwf) in E.
    unfold cq_list in Hl. lia. }
  rewrite E. destruct (ring_post_spec n (cq_queue cq) wc Hwf E) as [Hwf' Hl'].
  case_match; eexists _, _; (split; [done|]); (split; [exact Hwf'|]); (split; [exact Hl'|]);
    (split; [set_solver|]); (split; [done|]); [right|left]; done.
Qed.

Lemma rxe_poll_cq_spec n (num : nat) cq :
  cq_wf n cq →
  ∃ cq', rxe_poll_cq num cq = Some (cq', take num (cq_list cq)) ∧
    cq_wf n cq' ∧ cq_list cq' = drop num (cq_list cq) ∧
    cq_notify cq' = cq_notify cq ∧ cq_has_event_handler cq' = cq_has_event_handler cq.
Proof.
  revert cq. induction num as [|num IH]; intros cq Hwf; [by exists cq|].
  cbn [rxe_poll_cq]. unfold queue_head. destruct (queue_empty (cq_queue cq)) eqn:E.
  - exists cq. assert (El : cq_list cq = []) by exact (proj1 (ring_empty_spec n _ Hwf) E). by rewrite El.
  - pose proof (ring_head_spec n (cq_queue cq) Hwf E) as Hh. cbn [ring_head rxe_queue_ring] in Hh.
    destruct (ring_take_spec n (cq_queue cq) Hwf E) as [Hwf' Hl'].
    rewrite Hh. fold (cq_list cq) in *. destruct (cq_list cq) as [|wc l] eqn:El.
    { apply (ring_empty_spec n _ Hwf) in El. cbn in El. congruence. }
    set (cq1 := cq <| cq_queue ::= advance_consumer |>).
    assert (Hwf1 : cq_wf n cq1) by exact Hwf'.
    assert (Hl1 : cq_list cq1 = l) by exact Hl'.
    cbn [head]. destruct (IH cq1 Hwf1) as (cq' & -> & ? & Hd & ?).
    exists cq'. rewrite Hd, Hl1. done.
Qed.

(** ** Posting and polling against a bounded list *)

Inductive cq_op : Type :=
  | CqPost (wc : ib_wc) (solicited : bool)
  | CqPoll (num_entries : nat)
  | CqNotify (flags : Z).

(** What the caller of an operation sees: the code of a post and whether the
    error event was raised, the completions of a poll. *)
Inductive cq_out : Type :=
  | CqPosted (r : result unit) (err_event : bool)
  | CqPolled (wcs : list ib_wc)
  | CqArmed.

Definition cq_step (cq : rxe_cq) (op : cq_op) : option (rxe_cq * cq_out) :=
  match op with
  | CqPost wc solicited =>
      let '(cq, ev, r) := rxe_cq_post cq wc solicited in
      Some (cq, CqPosted r (bool_decide (CQ_ERR_EVENT ∈ ev)))
  | CqPoll n =>
      match rxe_poll_cq n cq with
      | Some (cq, wcs) => Some (cq, CqPolled wcs)
      | None => None
      end
  | CqNotify flags => Some (rxe_req_notify_cq cq flags, CqArmed)
  end.

Fixpoint cq_run (cq : rxe_cq) (ops : list cq_op) : option (rxe_cq * list cq_out) :=
  match ops with
  | [] => Some (cq, [])
  | op :: ops =>
      match cq_step cq op with
      | None => None
      | Some (cq, o) =>
          match cq_run cq ops with
          | None => None
          | Some (cq, os) => Some (cq, o :: os)
          end
      end
  end.

(** The promise: completions come out in the order they went in, each once;
    a completion is refused, with the error event, only when [n] are waiting. *)
Definition cq_spec_step (n : Z) (handler : bool) (l : list ib_wc) (op : cq_op) : list ib_wc * cq_out :=
  match op with
  | CqPost wc _ =>
      if Z.of_nat (length l) =? n then (l, CqPosted (Err EBUSY) handler)
      else (l ++ [wc], CqPosted (Ok tt) false)
  | CqPoll k => (drop k l, CqPolled (take k l))
  | CqNotify _ => (l, CqArmed)
  end.

Fixpoint cq_spec_run (n : Z) (handler : bool) (l : list ib_wc) (ops : list cq_op)
    : list ib_wc * list cq_out :=
  match ops with
  | [] => (l, [])
  | op :: ops =>
      let '(l, o) := cq_spec_step n handler l op in
      let '(l, os) := cq_spec_run n handler l ops in
      (l, o :: os)
  end.

Lemma cq_step_refines n cq op :
  cq_wf n cq →
  ∃ cq' o, cq_step cq op = Some (cq', o) ∧ cq_wf n cq' ∧
    cq_has_event_handler cq' = cq_has_event_handler cq ∧
    cq_spec_step n (cq_has_event_handler cq) (cq_list cq) op = (cq_list cq', o).
Proof.
  intros Hwf. destruct op as [wc solicited|k|flags]; cbn [cq_step cq_spec_step].
  - pose proof (ring_bound n (cq_queue cq) Hwf) as Hb. fold (cq_list cq) in Hb.
    destruct (Z.eqb_spec (Z.of_nat (length (cq_list cq))) n) as [Hn|Hn].
    + rewrite (rxe_cq_post_full n) by done. eexists _, _. split; [done|].
      repeat split; try done. by destruct (cq_has_event_handler cq).
    + destruct (rxe_cq_post_room n cq wc solicited Hwf) as (cq' & ev & -> & ? & Hl & He & Hh & _);
        [lia|]. eexists _, _. split; [done|]. rewrite bool_decide_eq_false_2, Hl by done. done.
  - destruct (rxe_poll_cq_spec n k cq Hwf) as (cq' & -> & ? & Hl & _ & ?).
    eexists _, _. rewrite Hl. done.
  - eexists _, _. split; [done|]. unfold rxe_req_notify_cq. by case_match.
Qed.

Lemma cq_run_refines n cq ops :
  cq_wf n cq →
  ∃ cq' os, cq_run cq ops = Some (cq', os) ∧ cq_wf n cq' ∧
    cq_spec_run n (cq_has_event_handler cq) (cq_list cq) ops = (cq_list cq', os).
Proof.
  revert cq. induction ops as [|op ops IH]; intros cq Hwf; cbn [cq_run cq_spec_run]; [by eexists _, _|].
  destruct (cq_step_refines n cq op Hwf) as (cq1 & o & -> & Hwf1 & Hh & ->).
  destruct (IH cq1 Hwf1) as (cq' & os & -> & ? & Hs). rewrite Hh in Hs. rewrite Hs. by eexists _, _.
Qed.

(** C25: along any sequence of posts, polls and notification requests the
    completion queue behaves as a list of at most [n] completions: polls
    return the oldest completions in the order they were posted, each exactly
    once, no operation fails otherwise, and a completion is refused (with the
    asynchronous error event if a handler is registered) only when the queue
    is full. *)
Theorem cq_refines_fifo n cq ops :
  cq_wf n cq →
  ∃ cq' os, cq_run cq ops = Some (cq', os) ∧ cq_wf n cq' ∧
    cq_spec_run n (cq_has_event_handler cq) (cq_list cq) ops = (cq_list cq', os).
Proof. apply cq_run_refines. Qed.

Definition example_cq (notify : Z) : rxe_cq :=
  Cq (Queue (QueueBuf 6 3 3 3 (replicate 4 zero_wc)) 7 None 640 56 6 3) notify false 3 true.

Lemma example_cq_wf notify : cq_wf 3 (example_cq notify).
Proof. exists 2. split; [|done]. split; [split|..]; cbn; lia || done. Qed.

Definition example_wc (i : Z) : ib_wc := zero_wc <| wc_wr_id := i |>.

Lemma cq_refines_fifo_witness :
  ∃ cq', cq_run (example_cq 0) (map (fun i => CqPost (example_wc i) false) [1; 2; 3; 4] ++ [CqPoll 2])
    = Some (cq', [CqPosted (Ok tt) false; CqPosted (Ok tt) false; CqPosted (Ok tt) false;
                  CqPosted (Err EBUSY) true; CqPolled [example_wc 1; example_wc 2]]).
Proof.
  destruct (cq_refines_fifo 3 (example_cq 0)
    (map (fun i => CqPost (example_wc i) false) [1; 2; 3; 4] ++ [CqPoll 2])
    (example_cq_wf 0)) as (cq' & os & -> & _ & E).
  exists cq'. f_equal. f_equal. apply (f_equal snd) in E. cbn [snd] in E. rewrite <- E.
  vm_compute. reflexivity.
Defined.

(** ** Notification *)

(** Whether each post of a sequence schedules the completion tasklet. *)
Fixpoint cq_fired (cq : rxe_cq) (posts : list (ib_wc * bool)) : list bool :=
  match posts with
  | [] => []
  | (wc, solicited) :: posts =>
      let '(cq, ev, _) := rxe_cq_post cq wc solicited in
      bool_decide (CQ_COMP_TASK ∈ ev) :: cq_fired cq posts
  end.

(** What a sequence of posts that fit does from each notification state. *)
Fixpoint fired_from (notify : Z) (posts : list (ib_wc * bool)) : list bool :=
  match posts with
  | [] => []
  | (_, solicited) :: posts =>
      if (notify =? IB_CQ_NEXT_COMP) || ((notify =? IB_CQ_SOLICITED) && solicited)
      then true :: fired_from (u8 (notify + 1)) posts
      else false :: fired_from notify posts
  end.

Lemma cq_fired_spec n cq posts :
  cq_wf n cq → Z.of_nat (length (cq_list cq) + length posts) ≤ n →
  cq_fired cq posts = fired_from (cq_notify cq) posts.
Proof.
  revert cq. induction posts as [|[wc s] posts IH]; intros cq Hwf Hn; [done|].
  cbn [length] in Hn. cbn [cq_fired fired_from].
  destruct (rxe_cq_post_room n cq wc s Hwf) as (cq' & ev & E & Hwf' & Hl & _); [lia|].
  rewrite E. assert (Hn' : Z.of_nat (length (cq_list cq') + length posts) ≤ n)
    by (rewrite Hl, length_app; cbn [length]; lia).
  rewrite (IH cq' Hwf' Hn'). unfold rxe_cq_post in E.
  destruct (queue_full (cq_queue cq)); [done|].
  cbn [cq_notify upd_field] in E.
  case_match; simplify_eq; done.
Qed.

Lemma fired_off posts : fired_from 3 posts = replicate (length posts) false.
Proof. induction posts as [|[wc s] posts IH]; [done|]. cbn. by rewrite IH. Qed.

(** With room in the queue, a consumer that asked for the next completion
    is notified exactly once, at the first post. A consumer that asked for the
    next solicited completion is notified at the first solicited post, but
    that post turns the request into one for any completion: the next post
    notifies a second time even when it is not solicited. *)
Theorem cq_notify_rearms n cq p posts :
  cq_wf n cq → Z.of_nat (length (cq_list cq) + S (length posts)) ≤ n →
  (cq_notify cq = IB_CQ_NEXT_COMP →
     cq_fired cq (p :: posts) = true :: replicate (length posts) false) ∧
  (cq_notify cq = IB_CQ_SOLICITED → p.2 = true →
     cq_fired cq (p :: posts) =
       true :: match posts with [] => [] | _ :: posts => true :: replicate (length posts) false end) ∧
  (cq_notify cq = IB_CQ_SOLICITED → Forall (λ p, p.2 = false) (p :: posts) →
     cq_fired cq (p :: posts) = replicate (S (length posts)) false).
Proof.
  intros Hwf Hn. rewrite (cq_fired_spec n cq (p :: posts) Hwf Hn). destruct p as [wc s].
  split; [|split]; intros ->.
  - cbn. by rewrite fired_off.
  - intros Hs. cbn in Hs. subst s. cbn. f_equal. destruct posts as [|[wc' s'] posts]; [done|].
    cbn. by rewrite fired_off.
  - revert wc s Hn. induction posts as [|[wc' s'] posts IH]; intros wc s Hn Hf;
      apply Forall_cons_1 in Hf as [Hs Hp]; cbn in Hs; subst s; [done|].
    change (false :: fired_from 1 ((wc', s') :: posts) = replicate (S (S (length posts))) false).
    cbn [replicate]. f_equal. apply IH; [cbn [length] in Hn; lia|done].
Qed.

Lemma cq_notify_rearms_witness :
  cq_fired (example_cq IB_CQ_SOLICITED) [(example_wc 1, true); (example_wc 2, false); (example_wc 3, false)]
    = [true; true; false].
Proof.
  apply (cq_notify_rearms 3 (example_cq IB_CQ_SOLICITED) (example_wc 1, true)
    [(example_wc 2, false); (example_wc 3, false)]); [apply example_cq_wf|vm_compute; discriminate|done|done].
Defined.

(** When the mapping information of a new completion queue cannot be
    created, [rxe_cq_from_init] frees the buffer and still reports success:
    the queue it leaves behind points to freed memory. *)
Theorem cq_from_init_use_after_free cache_line_size env rxe cq cqe context outlen q n rxe' e :
  rxe_queue_init zero_wc cache_line_size (env_kmalloc_queue env) (env_vmalloc env)
    cqe sizeof_rxe_cqe = Some (q, n) →
  do_mmap_info (env_kmalloc_ip env) (env_copy_to_user env) rxe (Some outlen) 0 context
    (q_buf_ptr q) (q_buf_size q) = (rxe', Err e) →
  ∃ rxe'' cq', rxe_cq_from_init cache_line_size env rxe cq cqe context (Some outlen)
    = (rxe'', cq', Ok tt) ∧ q_buf_ptr (cq_queue cq') ∈ vfreed rxe''.
Proof.
  intros E1 E2. unfold rxe_cq_from_init. rewrite E1, E2. eexists _, _. split; [done|]. cbn.
  apply elem_of_cons. by left.
Qed.

Lemma cq_from_init_use_after_free_witness :
  ∃ rxe'' cq', rxe_cq_from_init 64 (AllocEnv true (Some 7) (Some 8) false) (MmapDev 0 [] ∅ [])
      (example_cq 0) 3 5 (Some 16) = (rxe'', cq', Ok tt) ∧ q_buf_ptr (cq_queue cq') ∈ vfreed rxe''.
Proof. eapply cq_from_init_use_after_free; [vm_compute; reflexivity|vm_compute; reflexivity]. Defined.
