(* ===== verification/Pool.v ===== *)
(** * Object pools (rxe_pool.c, rxe_pool.h)

    Every object of the driver comes from a pool, which counts them and keeps
    them by index or key in a search tree. Indices are taken from a bitmap. *)

From stdpp Require Import gmap sorting.
From S2P Require Import Prelude.

(** ** Parameters (rxe_param.h) *)

Definition RXE_MIN_QP_INDEX : Z := 16.
Definition RXE_MAX_QP_INDEX : Z := 0x00020000.
Definition RXE_MIN_SRQ_INDEX : Z := 0x00020001.
Definition RXE_MAX_SRQ_INDEX : Z := 0x00040000.
Definition RXE_MIN_MR_INDEX : Z := 0x00000001.
Definition RXE_MAX_MR_INDEX : Z := 0x00020000.
Definition RXE_MIN_FMR_INDEX : Z := 0x00020001.
Definition RXE_MAX_FMR_INDEX : Z := 0x00040000.
Definition RXE_MIN_MW_INDEX : Z := 0x00040001.
Definition RXE_MAX_MW_INDEX : Z := 0x00060000.

Definition RXE_POOL_ATOMIC : Z := 1.
Definition RXE_POOL_INDEX : Z := 2.
Definition RXE_POOL_KEY : Z := 4.

Inductive rxe_elem_type : Type :=
  | RXE_TYPE_UC | RXE_TYPE_PD | RXE_TYPE_AH | RXE_TYPE_SRQ | RXE_TYPE_QP | RXE_TYPE_CQ
  | RXE_TYPE_MR | RXE_TYPE_MW | RXE_TYPE_FMR | RXE_TYPE_MC_GRP | RXE_TYPE_MC_ELEM.

Record type_info := TypeInfo { ty_flags : Z; ty_max_index : Z; ty_min_index : Z }.

Definition rxe_type_info (type : rxe_elem_type) : type_info :=
  match type with
  | RXE_TYPE_UC | RXE_TYPE_PD | RXE_TYPE_CQ => TypeInfo 0 0 0
  | RXE_TYPE_AH | RXE_TYPE_MC_ELEM => TypeInfo RXE_POOL_ATOMIC 0 0
  | RXE_TYPE_SRQ => TypeInfo RXE_POOL_INDEX RXE_MAX_SRQ_INDEX RXE_MIN_SRQ_INDEX
  | RXE_TYPE_QP => TypeInfo RXE_POOL_INDEX RXE_MAX_QP_INDEX RXE_MIN_QP_INDEX
  | RXE_TYPE_MR => TypeInfo RXE_POOL_INDEX RXE_MAX_MR_INDEX RXE_MIN_MR_INDEX
  | RXE_TYPE_FMR => TypeInfo RXE_POOL_INDEX RXE_MAX_FMR_INDEX RXE_MIN_FMR_INDEX
  | RXE_TYPE_MW => TypeInfo RXE_POOL_INDEX RXE_MAX_MW_INDEX RXE_MIN_MW_INDEX
  | RXE_TYPE_MC_GRP => TypeInfo RXE_POOL_KEY 0 0
  end.

(** ** Trees

    A node is the address of the element it is part of. *)

Inductive tree : Type := Leaf | Node (rb_left : tree) (elem : Z) (rb_right : tree).

Fixpoint inorder (t : tree) : list Z :=
  match t with Leaf => [] | Node l x r => inorder l ++ x :: inorder r end.

(** The kernel's red-black trees (lib/rbtree.c): [rb_insert_color] may change
    the shape of the tree but not the order of its nodes, [rb_erase] takes one
    node out. *)
Class RbTree : Type := {
  rb_insert_color : Z → tree → tree;
  rb_erase : Z → tree → tree;
  rb_insert_order x t : inorder (rb_insert_color x t) = inorder t;
  rb_erase_order x t : inorder (rb_erase x t) = filter (.≠ x) (inorder t)
}.

(** ** Pools *)

(** An element is known by its address. A key is a 16-byte GID as a number,
    whose order is that of [memcmp]. *)
Record elem := Elem { el_ref : Z; el_index : Z; el_key : Z }.

#[export] Instance eta_elem : Eta elem := fun r => Elem (el_ref r) (el_index r) (el_key r).

(** [pool_rxe_ref] is the reference count of the device, [pool_elems] are the
    elements that are allocated. *)
Record rxe_pool := Pool {
  pool_valid : bool;
  pool_ref : Z;
  pool_rxe_ref : Z;
  pool_flags : Z;
  pool_max_elem : Z;
  pool_num_elem : Z;
  pool_tree : tree;
  pool_table : option (list bool);
  pool_max_index : Z;
  pool_min_index : Z;
  pool_last : Z;
  pool_elems : gmap Z elem
}.

#[export] Instance eta_rxe_pool : Eta rxe_pool := fun r =>
  Pool (pool_valid r) (pool_ref r) (pool_rxe_ref r) (pool_flags r) (pool_max_elem r) (pool_num_elem r) (pool_tree r)
    (pool_table r) (pool_max_index r) (pool_min_index r) (pool_last r) (pool_elems r).

(** *** Creation *)

Definition BITS_TO_LONGS (n : Z) : Z := (n + 31) / 32.

Definition rxe_pool_init_index (pool : rxe_pool) (max min : Z) (kmalloc_ok : bool) : rxe_pool * result unit :=
  let range := u32 (max - min + 1) in
  if range <? pool_max_elem pool then (pool, Err EINVAL)
  else
    let pool := pool <| pool_max_index := max |> <| pool_min_index := min |> in
    if negb kmalloc_ok then (pool <| pool_table := None |>, Err ENOMEM)
    else (pool <| pool_table := Some (replicate (Z.to_nat (32 * BITS_TO_LONGS range)) false) |>, Ok tt).

Definition rxe_pool_init (type : rxe_elem_type) (max_elem rxe_ref : Z) (kmalloc_ok : bool) : rxe_pool * result unit :=
  let info := rxe_type_info type in
  let pool := Pool false 1 rxe_ref (ty_flags info) max_elem 0 Leaf None 0 0 0 ∅ in
  let '(pool, err) :=
    if flag_set (ty_flags info) RXE_POOL_INDEX
    then rxe_pool_init_index pool (ty_max_index info) (ty_min_index info) kmalloc_ok
    else (pool, Ok tt) in
  match err with
  | Err e => (pool, Err e)
  | Ok _ => (pool <| pool_valid := true |>, Ok tt)
  end.

Definition rxe_pool_release (pool : rxe_pool) : rxe_pool := pool <| pool_valid := false |> <| pool_table := None |>.

(** [kref_put(&pool->ref_cnt, rxe_pool_release)]. *)
Definition pool_put (pool : rxe_pool) : rxe_pool :=
  let pool := pool <| pool_ref ::= (λ n, n - 1) |> in
  if pool_ref pool =? 0 then rxe_pool_release pool else pool.

Definition rxe_pool_cleanup (pool : rxe_pool) : rxe_pool := pool_put (pool <| pool_valid := false |>).

(** *** Indices and keys *)

Definition find_next_zero_bit (table : list bool) (size offset : Z) : Z :=
  match list_find (λ b, b = false) (drop (Z.to_nat offset) (take (Z.to_nat size) table)) with
  | Some (i, _) => if offset <? size then offset + Z.of_nat i else size
  | None => size
  end.

Definition find_first_zero_bit (table : list bool) (size : Z) : Z := find_next_zero_bit table size 0.

(** [set_bit]; [None] outside of the table. *)
Definition put_bit (table : list bool) (i : Z) (b : bool) : option (list bool) :=
  if i <? Z.of_nat (length table) then Some (<[Z.to_nat i := b]> table) else None.

Definition alloc_index (pool : rxe_pool) : option (rxe_pool * Z) :=
  let range := u32 (pool_max_index pool - pool_min_index pool + 1) in
  table ← pool_table pool;
  let index := find_next_zero_bit table range (pool_last pool) in
  let index := if index >=? range then find_first_zero_bit table range else index in
  table ← put_bit table index true;
  Some (pool <| pool_table := Some table |> <| pool_last := index |>, u32 (index + pool_min_index pool)).

(** The value an element is sorted by. *)
Definition by_index (pool : rxe_pool) (x : Z) : Z := default 0 (el_index <$> pool_elems pool !! x).
Definition by_key (pool : rxe_pool) (x : Z) : Z := default 0 (el_key <$> pool_elems pool !! x).

(** The loops of [insert_index] and [insert_key], which end without a place for
    an element that is there already, and those of the two lookups. *)
Fixpoint insert_node (key : Z → Z) (new : Z) (t : tree) : option tree :=
  match t with
  | Leaf => Some (Node Leaf new Leaf)
  | Node l x r =>
      if key x =? key new then None
      else if key x >? key new then l' ← insert_node key new l; Some (Node l' x r)
      else r' ← insert_node key new r; Some (Node l x r')
  end.

Fixpoint find_node (key : Z → Z) (k : Z) (t : tree) : option Z :=
  match t with
  | Leaf => None
  | Node l x r =>
      if key x >? k then find_node key k l
      else if key x <? k then find_node key k r
      else Some x
  end.

Section ops.
Context `{RbTree}.

(** The tree is left alone when it has an element with this value. *)
Definition insert_by (key : Z → Z) (new : Z) (t : tree) : tree :=
  match insert_node key new t with
  | None => t
  | Some t => rb_insert_color new t
  end.

Definition insert_index (pool : rxe_pool) (new : Z) : rxe_pool :=
  pool <| pool_tree := insert_by (by_index pool) new (pool_tree pool) |>.

Definition insert_key (pool : rxe_pool) (new : Z) : rxe_pool :=
  pool <| pool_tree := insert_by (by_key pool) new (pool_tree pool) |>.

Definition set_elem (x : Z) (f : elem → elem) (pool : rxe_pool) : rxe_pool := pool <| pool_elems ::= alter f x |>.

(** The operations on an element that is not allocated are wild. *)
Definition rxe_add_key (x key : Z) (pool : rxe_pool) : option rxe_pool :=
  _ ← pool_elems pool !! x;
  Some (insert_key (set_elem x (λ e, e <| el_key := key |>) pool) x).

Definition erase (x : Z) (pool : rxe_pool) : option rxe_pool :=
  if decide (x ∈ inorder (pool_tree pool)) then Some (pool <| pool_tree ::= rb_erase x |>) else None.

Definition rxe_drop_key (x : Z) (pool : rxe_pool) : option rxe_pool := _ ← pool_elems pool !! x; erase x pool.

Definition rxe_add_index (x : Z) (pool : rxe_pool) : option rxe_pool :=
  _ ← pool_elems pool !! x;
  '(pool, index) ← alloc_index pool;
  Some (insert_index (set_elem x (λ e, e <| el_index := index |>) pool) x).

Definition rxe_drop_index (x : Z) (pool : rxe_pool) : option rxe_pool :=
  e ← pool_elems pool !! x;
  table ← pool_table pool;
  table ← put_bit table (u32 (el_index e - pool_min_index pool)) false;
  erase x (pool <| pool_table := Some table |>).

(** *** Elements and references *)

(** [mem] is what [kmem_cache_zalloc] returns, which is not checked: the first
    write to the element is wild when there is none. *)
Definition rxe_alloc (mem : option Z) (pool : rxe_pool) : option (rxe_pool * option Z) :=
  if negb (pool_valid pool) then Some (pool, None)
  else if pool_num_elem pool + 1 >? pool_max_elem pool then Some (pool, None)
  else
    x ← mem;
    Some (pool <| pool_ref ::= (λ n, n + 1) |> <| pool_rxe_ref ::= (λ n, n + 1) |> <| pool_num_elem ::= (λ n, n + 1) |>
               <| pool_elems ::= <[x := Elem 1 0 0]> |>, Some x).

(** The type's own cleanup function, which is called first, is part of the
    component that the type belongs to. *)
Definition rxe_elem_release (x : Z) (pool : rxe_pool) : rxe_pool :=
  pool_put (pool <| pool_elems ::= delete x |> <| pool_num_elem ::= (λ n, n - 1) |> <| pool_rxe_ref ::= (λ n, n - 1) |>).

Definition rxe_add_ref (x : Z) (pool : rxe_pool) : option rxe_pool :=
  _ ← pool_elems pool !! x;
  Some (set_elem x (λ e, e <| el_ref ::= (λ n, n + 1) |>) pool).

(** The second component says whether the element was released. *)
Definition rxe_drop_ref (x : Z) (pool : rxe_pool) : option (rxe_pool * bool) :=
  e ← pool_elems pool !! x;
  let pool := set_elem x (λ e, e <| el_ref ::= (λ n, n - 1) |>) pool in
  if el_ref e - 1 =? 0 then Some (rxe_elem_release x pool, true) else Some (pool, false).

Definition get_by (key : Z → Z) (k : Z) (pool : rxe_pool) : rxe_pool * option Z :=
  if negb (pool_valid pool) then (pool, None)
  else match find_node key k (pool_tree pool) with
       | Some x => (set_elem x (λ e, e <| el_ref ::= (λ n, n + 1) |>) pool, Some x)
       | None => (pool, None)
       end.

Definition rxe_pool_get_index (index : Z) (pool : rxe_pool) : rxe_pool * option Z := get_by (by_index pool) index pool.
Definition rxe_pool_get_key (key : Z) (pool : rxe_pool) : rxe_pool * option Z := get_by (by_key pool) key pool.
End ops.

(** ** Trees in order *)

Definition ordered (key : Z → Z) (l : list Z) : Prop := StronglySorted Z.lt (key <$> l).

Lemma ordered_app key l x r :
  ordered key (l ++ x :: r) ↔ ordered key l ∧ ordered key r ∧ Forall (λ y, key y < key x) l ∧ Forall (λ y, key x < key y) r.
Proof.
  unfold ordered. rewrite fmap_app. cbn [fmap list_fmap]. induction l as [|y l IH]; cbn.
  - split.
    + intros Hs. apply StronglySorted_inv in Hs as [Hs Hf]. split; [constructor|]. split; [done|]. split; [constructor|]. by rewrite Forall_fmap in Hf.
    + intros (_ & Hs & _ & Hf). constructor; [done|]. by rewrite Forall_fmap.
  - split.
    + intros Hs. apply StronglySorted_inv in Hs as [Hs Hf]. apply IH in Hs as (H1 & H2 & H3 & H4).
      apply Forall_app in Hf as [Hf1 Hf2]. apply Forall_cons_1 in Hf2 as [Hf2 _]. split; [by constructor|]. auto.
    + intros (Hs & H2 & H3 & H4). apply StronglySorted_inv in Hs as [Hs Hf]. apply Forall_cons_1 in H3 as [H3 H5].
      constructor; [by apply IH|]. apply Forall_app. split; [done|]. constructor; [done|]. rewrite Forall_fmap.
      eapply Forall_impl; [|exact H4]. cbn. intros z Hz. lia.
Qed.

Lemma find_node_spec key k x t : ordered key (inorder t) → find_node key k t = Some x ↔ x ∈ inorder t ∧ key x = k.
Proof.
  induction t as [|l IHl y r IHr]; cbn; [split; [done|by intros [?%not_elem_of_nil _]]|].
  intros (Hl & Hr & Fl & Fr)%ordered_app. rewrite list.Forall_forall in Fl, Fr. rewrite elem_of_app, elem_of_cons, Z.gtb_ltb.
  destruct (Z.ltb_spec k (key y)) as [Hk|Hk]; [|destruct (Z.ltb_spec (key y) k) as [Hk'|Hk']].
  - rewrite (IHl Hl). split; [tauto|]. intros [[?|[->|Hx]] Ek]; [done|lia|]. specialize (Fr x Hx). lia.
  - rewrite (IHr Hr). split; [tauto|]. intros [[Hx|[->|?]] Ek]; [|lia|done]. specialize (Fl x Hx). lia.
  - split; [intros [= <-]; split; [tauto|lia]|]. intros [[Hx|[->|Hx]] Ek]; [specialize (Fl x Hx); lia|done|specialize (Fr x Hx); lia].
Qed.

Lemma insert_node_spec key new t :
  ordered key (inorder t) → (∀ x, x ∈ inorder t → key x ≠ key new) →
  ∃ t', insert_node key new t = Some t' ∧ ordered key (inorder t') ∧ ∀ x, x ∈ inorder t' ↔ x = new ∨ x ∈ inorder t.
Proof.
  induction t as [|l IHl y r IHr]; cbn.
  { intros _ _. eexists. split; [done|]. cbn. split; [repeat constructor|]. intros x. rewrite elem_of_cons. done. }
  intros (Hl & Hr & Fl & Fr)%ordered_app Hn. destruct (Z.eqb_spec (key y) (key new)) as [E|E].
  { exfalso. apply (Hn y); [rewrite elem_of_app, elem_of_cons; auto|done]. }
  rewrite Z.gtb_ltb. destruct (Z.ltb_spec (key new) (key y)) as [Hk|Hk].
  - destruct IHl as (l' & -> & Ho & Hi); [done|intros x Hx; apply Hn; rewrite elem_of_app; auto|]. eexists. split; [done|]. cbn.
    split; [|intros x; rewrite !elem_of_app, Hi; tauto]. apply ordered_app. split; [done|]. split; [done|]. split; [|done].
    apply list.Forall_forall. intros x [->|Hx]%Hi; [done|]. by apply (proj1 (list.Forall_forall _ _) Fl).
  - destruct IHr as (r' & -> & Ho & Hi); [done|intros x Hx; apply Hn; rewrite elem_of_app, elem_of_cons; auto|]. eexists. split; [done|]. cbn.
    split; [|intros x; rewrite !elem_of_app, !elem_of_cons, Hi; tauto]. apply ordered_app. split; [done|]. split; [done|]. split; [done|].
    apply list.Forall_forall. intros x [->|Hx]%Hi; [lia|]. by apply (proj1 (list.Forall_forall _ _) Fr).
Qed.

Lemma ordered_filter key (P : Z → Prop) `{∀ x, Decision (P x)} l : ordered key l → ordered key (filter P l).
Proof.
  unfold ordered. induction l as [|x l IH]; [done|]. cbn [fmap list_fmap]. intros [Hs Hf]%StronglySorted_inv. rewrite filter_cons.
  case_decide; [|by apply IH]. cbn. constructor; [by apply IH|]. rewrite Forall_fmap in *.
  apply list.Forall_forall. intros y [_ Hy]%list_elem_of_filter. by apply (proj1 (list.Forall_forall _ _) Hf).
Qed.

(** ** The bitmap *)

Lemma find_next_spec t size offset :
  0 ≤ offset → 0 ≤ size ≤ Z.of_nat (length t) → let j := find_next_zero_bit t size offset in
  (j = size ∧ ∀ i, offset ≤ i < size → t !! Z.to_nat i = Some true) ∨ (0 ≤ j < size ∧ t !! Z.to_nat j = Some false).
Proof.
  intros Ho Hs. unfold find_next_zero_bit. destruct (list_find _ _) as [[i b]|] eqn:E.
  - apply list_find_Some in E as (Hi & -> & _). rewrite lookup_drop in Hi. apply lookup_take_Some in Hi as [Hi Hlt].
    destruct (Z.ltb_spec offset size); [|lia]. right. split; [lia|]. by rewrite <- Hi; f_equal; lia.
  - left. split; [done|]. intros i Hi. apply list_find_None in E. rewrite list.Forall_forall in E.
    destruct (t !! Z.to_nat i) as [b|] eqn:Hb; [|apply lookup_ge_None in Hb; lia].
    destruct b; [done|]. exfalso. apply (E false); [|done]. apply list_elem_of_lookup. exists (Z.to_nat i - Z.to_nat offset)%nat.
    rewrite lookup_drop. apply lookup_take_Some. split; [|lia]. by rewrite <- Hb; f_equal; lia.
Qed.

(** ** The invariant of an indexed pool *)

Local Abbreviation nodes p := (inorder (pool_tree p)).

Record pool_inv (p : rxe_pool) : Prop := {
  pv_num : pool_num_elem p = Z.of_nat (size (pool_elems p)) ∧ pool_num_elem p ≤ pool_max_elem p;
  pv_ref : pool_ref p = pool_num_elem p + Z.b2z (pool_valid p);
  pv_refs : map_Forall (λ _ e, 1 ≤ el_ref e) (pool_elems p);
  pv_live : ∀ x, x ∈ nodes p → is_Some (pool_elems p !! x);
  pv_order : ordered (by_index p) (nodes p);
  pv_range : 0 ≤ pool_min_index p ≤ pool_max_index p ∧ pool_max_index p < 2 ^ 31 ∧
    pool_max_elem p ≤ pool_max_index p - pool_min_index p + 1;
  pv_index : ∀ x, x ∈ nodes p → pool_min_index p ≤ by_index p x ≤ pool_max_index p;
  pv_table : 0 < pool_ref p → ∃ t, pool_table p = Some t ∧
    pool_max_index p - pool_min_index p + 1 ≤ Z.of_nat (length t) ∧
    ∀ i, pool_min_index p ≤ i ≤ pool_max_index p →
      t !! Z.to_nat (i - pool_min_index p) = Some true ↔ ∃ x, x ∈ nodes p ∧ by_index p x = i;
  pv_last : 0 ≤ pool_last p
}.

Lemma ordered_NoDup key l : ordered key l → NoDup l.
Proof.
  unfold ordered. induction l as [|x l IH]; [constructor|]. cbn. intros [Hs Hf]%StronglySorted_inv. constructor; [|by apply IH].
  intros Hx. rewrite Forall_fmap, list.Forall_forall in Hf. specialize (Hf x Hx). cbn in Hf. lia.
Qed.

(** There are not more nodes than elements, and fewer than that when one
    element is no node. *)
Lemma nodes_count (m : gmap Z elem) (l : list Z) y :
  NoDup l → (∀ x, x ∈ l → is_Some (m !! x)) → is_Some (m !! y) → y ∉ l → (length l < size m)%nat.
Proof.
  intros Hn Hl Hy Hny. rewrite <- size_dom. rewrite <- (size_list_to_set (C := gset Z) l Hn).
  apply subset_size. split.
  - intros x Hx%elem_of_list_to_set. by apply elem_of_dom, Hl.
  - intros Hsub. apply Hny. apply (elem_of_list_to_set (C := gset Z)), Hsub. by apply elem_of_dom.
Qed.

(** So that some index is free. *)
Lemma index_free p y : pool_inv p → is_Some (pool_elems p !! y) → y ∉ nodes p →
  ∃ i, pool_min_index p ≤ i ≤ pool_max_index p ∧ ∀ x, x ∈ nodes p → by_index p x ≠ i.
Proof.
  intros Hi Hy Hny. destruct (pv_num _ Hi) as [Hn Hm]. destruct (pv_range _ Hi) as (R1 & R2 & R3).
  pose proof (nodes_count _ _ _ (ordered_NoDup _ _ (pv_order _ Hi)) (pv_live _ Hi) Hy Hny) as Hc.
  set (idx := by_index p <$> nodes p). set (all := seqZ (pool_min_index p) (pool_max_index p - pool_min_index p + 1)).
  destruct (decide (Forall (.∈ idx) all)) as [Hall|Hnot].
  - exfalso. assert (Hsub : (length all ≤ length idx)%nat).
    { apply submseteq_length, NoDup_submseteq; [apply NoDup_seqZ|]. intros i Hia. by rewrite list.Forall_forall in Hall; apply Hall. }
    unfold all, idx in Hsub. rewrite length_fmap, length_seqZ in Hsub. lia.
  - apply not_Forall_Exists, Exists_exists in Hnot as (i & Hia & Hni); [|apply _]. apply list_elem_of_In, elem_of_seqZ in Hia.
    exists i. split; [lia|]. intros x Hx E. apply Hni. rewrite <- E. by apply list_elem_of_fmap_2.
Qed.

Lemma pool_table_some p y : pool_inv p → is_Some (pool_elems p !! y) → 0 < pool_ref p.
Proof.
  intros Hi [e He]. rewrite (pv_ref _ Hi), (proj1 (pv_num _ Hi)). pose proof (Z.b2z_bit0 (pool_valid p)).
  assert (size (pool_elems p) ≠ 0%nat) by (intros E%map_size_empty_iff; by rewrite E in He). destruct (pool_valid p); cbn; lia.
Qed.

(** An index that is given out is free. *)
Lemma alloc_index_spec p y : pool_inv p → is_Some (pool_elems p !! y) → y ∉ nodes p →
  ∃ t i, pool_table p = Some t ∧
    alloc_index p = Some (p <| pool_table := Some (<[Z.to_nat (i - pool_min_index p) := true]> t) |>
                            <| pool_last := i - pool_min_index p |>, i) ∧
    pool_min_index p ≤ i ≤ pool_max_index p ∧ ∀ x, x ∈ nodes p → by_index p x ≠ i.
Proof.
  intros Hi Hy Hny. destruct (pv_table _ Hi (pool_table_some _ _ Hi Hy)) as (t & Et & Hlen & Hbits).
  destruct (pv_range _ Hi) as (R1 & R2 & R3). set (range := pool_max_index p - pool_min_index p + 1) in *.
  assert (Hr : u32 range = range) by (unfold range; apply u32_small; lia).
  set (j := let i := find_next_zero_bit t range (pool_last p) in if i >=? range then find_first_zero_bit t range else i).
  assert (Hj : 0 ≤ j < range ∧ t !! Z.to_nat j = Some false).
  { unfold j. cbv zeta. pose proof (find_next_spec t range (pool_last p) (pv_last _ Hi) ltac:(lia)) as Hf. cbv zeta in Hf.
    rewrite Z.geb_leb. destruct (Z.leb_spec range (find_next_zero_bit t range (pool_last p))) as [Hge|]; [|by destruct Hf as [[? _]|?]; [lia|]].
    destruct (find_next_spec t range 0 ltac:(lia) ltac:(lia)) as [[_ Hfull]|Hf0]; [|exact Hf0].
    exfalso. destruct (index_free p y Hi Hy Hny) as (i & Hir & Hin). destruct (proj1 (Hbits i Hir)) as (x & Hx & E); [apply Hfull; lia|].
    by apply (Hin x). }
  destruct Hj as [Hj Hz]. exists t, (j + pool_min_index p). split; [done|]. split; [|split; [lia|]].
  - unfold alloc_index. fold range. rewrite Hr, Et. cbn [mbind option_bind]. fold j. unfold put_bit.
    destruct (Z.ltb_spec j (Z.of_nat (length t))); [|lia]. cbn [mbind option_bind]. rewrite Z.add_simpl_r, u32_small by lia. done.
  - intros x Hx E. assert (t !! Z.to_nat (j + pool_min_index p - pool_min_index p) = Some true) as Hb by (apply Hbits; [lia|eauto]).
    rewrite Z.add_simpl_r in Hb. congruence.
Qed.

Section laws.
Context `{RbTree}.

(** *** Each operation keeps it *)

Lemma by_index_alter p x f y : by_index (set_elem x f p) y = if decide (y = x) then default 0 (el_index ∘ f <$> pool_elems p !! y) else by_index p y.
Proof.
  unfold by_index, set_elem. cbn. case_decide as E; [subst y; rewrite lookup_alter_eq|by rewrite lookup_alter_ne].
  by destruct (pool_elems p !! x).
Qed.

Lemma rxe_add_index_ok p x : pool_inv p → is_Some (pool_elems p !! x) → x ∉ nodes p →
  ∃ p', rxe_add_index x p = Some p' ∧ pool_inv p' ∧ (∀ y, y ∈ nodes p' ↔ y = x ∨ y ∈ nodes p) ∧
    (∀ y, y ∈ nodes p → by_index p y ≠ by_index p' x ∧ by_index p' y = by_index p y) ∧
    pool_valid p' = pool_valid p ∧ dom (pool_elems p') = dom (pool_elems p).
Proof.
  intros Hi Hx Hn. destruct (alloc_index_spec p x Hi Hx Hn) as (t & i & Et & Ea & Hir & Hfree). pose proof Hx as [e He].
  unfold rxe_add_index. rewrite He, Ea. cbn [mbind option_bind]. eexists. split; [done|].
  set (p1 := set_elem x _ _). assert (E1 : ∀ y, by_index p1 y = if decide (y = x) then i else by_index p y).
  { intros y. unfold p1. rewrite by_index_alter. case_decide; [subst y; cbn; by rewrite He|done]. }
  assert (Ho : ordered (by_index p1) (nodes p)).
  { unfold ordered. erewrite list_fmap_ext; [apply (pv_order _ Hi)|]. intros j y Hy%list_elem_of_lookup_2. rewrite E1. case_decide; [|done]. by subst. }
  destruct (insert_node_spec (by_index p1) x (pool_tree p) Ho) as (t' & Ei & Ho' & Hin).
  { intros y Hy. rewrite !E1, (decide_True (P := x = x)) by done. case_decide; [by subst|]. by apply Hfree. }
  assert (Et' : insert_by (by_index p1) x (pool_tree p) = rb_insert_color x t') by (unfold insert_by; by rewrite Ei).
  unfold insert_index. change (pool_tree p1) with (pool_tree p). rewrite Et'. clear Et' Ei.
  set (p2 := p1 <| pool_tree := _ |>). assert (E2 : ∀ y, by_index p2 y = if decide (y = x) then i else by_index p y) by exact E1.
  assert (Hnodes : ∀ y, y ∈ nodes p2 ↔ y = x ∨ y ∈ nodes p) by (intros y; cbn; rewrite rb_insert_order; apply Hin).
  assert (Hel : pool_elems p2 = alter (λ e, e <| el_index := i |>) x (pool_elems p)) by done.
  destruct Hi as [V1 V2 V3 V4 V5 V6 V7 V8 V9]. split; [|split; [done|split; [|split; [done|by rewrite Hel, dom_alter_L]]]].
  - split; try done.
    + rewrite Hel. cbn. rewrite <- size_dom, dom_alter_L, size_dom. exact V1.
    + rewrite Hel. intros y e' Hy. rewrite lookup_alter_Some in Hy. destruct Hy as [(-> & e0 & He0 & ->)|[_ Hy]]; [by apply (V3 _ _ He0)|by apply (V3 y)].
    + intros y [->|Hy]%Hnodes; rewrite Hel, lookup_alter_is_Some; [done|by apply V4].
    + cbn. rewrite rb_insert_order. exact Ho'.
    + intros y Hy. rewrite E2. case_decide; [exact Hir|]. apply Hnodes in Hy as [?|Hy]; [done|by apply V7].
    + intros _. destruct (V8 (pool_table_some _ _ (Build_pool_inv _ V1 V2 V3 V4 V5 V6 V7 V8 V9) Hx)) as (t0 & Et0 & Hl & Hb). assert (t0 = t) as -> by congruence.
      eexists. split; [done|]. rewrite length_insert. split; [exact Hl|]. intros k Hk. change (pool_min_index p2) with (pool_min_index p) in *.
      change (pool_max_index p2) with (pool_max_index p) in *. destruct (decide (k = i)) as [->|Hne].
      * rewrite list_lookup_insert_eq by lia. split; [|done]. intros _. exists x. rewrite E2, decide_True by done. split; [apply Hnodes; by left|done].
      * rewrite list_lookup_insert_ne by lia. rewrite (Hb k Hk). split; intros (y & Hy & E); exists y; rewrite E2 in *.
        -- rewrite decide_False by congruence. split; [apply Hnodes; by right|done].
        -- case_decide; [congruence|]. apply Hnodes in Hy as [?|Hy]; [done|]. done.
    + cbn. lia.
  - intros y Hy. rewrite !E2, (decide_True (P := x = x)) by done. rewrite decide_False by congruence. split; [by apply Hfree|done].
Qed.

(** A change of the elements that keeps those of the tree. *)
Lemma elems_ok p p' :
  pool_inv p →
  (pool_tree p', pool_min_index p', pool_max_index p', pool_max_elem p', pool_last p', pool_table p')
    = (pool_tree p, pool_min_index p, pool_max_index p, pool_max_elem p, pool_last p, pool_table p) →
  (0 < pool_ref p' → 0 < pool_ref p) →
  pool_num_elem p' = Z.of_nat (size (pool_elems p')) ∧ pool_num_elem p' ≤ pool_max_elem p →
  pool_ref p' = pool_num_elem p' + Z.b2z (pool_valid p') → map_Forall (λ _ e, 1 ≤ el_ref e) (pool_elems p') →
  (∀ x, x ∈ nodes p → is_Some (pool_elems p' !! x) ∧ by_index p' x = by_index p x) → pool_inv p'.
Proof.
  intros [V1 V2 V3 V4 V5 V6 V7 V8 V9] Hs Hr H1 H2 H3 E. injection Hs as S1 S2 S3 S4 S5 S6. split; rewrite ?S1, ?S2, ?S3, ?S4, ?S5, ?S6; try done.
  - intros y Hy. by apply E.
  - unfold ordered. erewrite list_fmap_ext; [exact V5|]. intros j y Hy%list_elem_of_lookup_2. by apply E.
  - intros y Hy. rewrite (proj2 (E y Hy)). by apply V7.
  - intros Hr'. destruct (V8 (Hr Hr')) as (t & Et & Hl & Hb). exists t. split; [done|]. split; [done|]. intros i Hi. rewrite (Hb i Hi).
    split; intros (y & Hy & <-); exists y; (split; [done|]); [by apply E|symmetry; by apply E].
Qed.

(** References taken and given back. *)
Lemma set_ref_ok p x g :
  pool_inv p → (∀ e, pool_elems p !! x = Some e → 1 ≤ g (el_ref e)) → pool_inv (set_elem x (λ e, e <| el_ref ::= g |>) p).
Proof.
  intros Hi Hg. pose proof Hi as [V1 V2 V3 V4 _ _ _ _ _]. apply (elems_ok p); try done.
  - cbn. by rewrite <- size_dom, dom_alter_L, size_dom.
  - intros y e' Hy. cbn in Hy. rewrite lookup_alter_Some in Hy. destruct Hy as [(-> & e0 & He0 & ->)|[_ Hy]]; [by apply Hg|by apply (V3 y)].
  - intros y Hy. split; [cbn; rewrite lookup_alter_is_Some; by apply V4|]. rewrite by_index_alter. case_decide; [|done].
    unfold by_index. by destruct (pool_elems p !! y).
Qed.

Lemma rxe_add_ref_ok p x : pool_inv p → is_Some (pool_elems p !! x) → ∃ p', rxe_add_ref x p = Some p' ∧ pool_inv p'.
Proof.
  intros Hi [e He]. unfold rxe_add_ref. rewrite He. cbn [mbind option_bind]. eexists. split; [done|]. apply set_ref_ok; [done|].
  intros e' He'. assert (1 ≤ el_ref e') by (by apply (pv_refs _ Hi x)). lia.
Qed.

(** The element with an index is found, if there is one. *)
Lemma rxe_pool_get_index_ok p i : pool_inv p →
  ∃ p' r, rxe_pool_get_index i p = (p', r) ∧ pool_inv p' ∧ nodes p' = nodes p ∧ (∀ y, by_index p' y = by_index p y) ∧
  match r with
  | Some x => pool_valid p = true ∧ x ∈ nodes p ∧ by_index p x = i ∧ p' = set_elem x (λ e, e <| el_ref ::= (λ n, n + 1) |>) p
  | None => (pool_valid p = true → ∀ x, x ∈ nodes p → by_index p x ≠ i) ∧ p' = p
  end.
Proof.
  intros Hi. unfold rxe_pool_get_index, get_by. destruct (pool_valid p) eqn:Ev; cbn [negb]; [|by eexists _, _; do 5 (split; [done|])].
  destruct (find_node (by_index p) i (pool_tree p)) as [x|] eqn:E.
  - apply find_node_spec in E as [Hx Ex]; [|apply Hi]. eexists _, _. split; [done|]. split.
    { apply set_ref_ok; [done|]. intros e He. assert (1 ≤ el_ref e) by (by apply (pv_refs _ Hi x)). lia. }
    split; [done|]. split; [|done]. intros y. rewrite by_index_alter. case_decide; [|done]. unfold by_index. by destruct (pool_elems p !! y).
  - eexists _, _. split; [done|]. split; [done|]. split; [done|]. split; [done|]. split; [|done]. intros _ x Hx Ex.
    assert (find_node (by_index p) i (pool_tree p) = Some x) as E' by (apply find_node_spec; [apply Hi|done]). congruence.
Qed.

Lemma rxe_drop_index_ok p x : pool_inv p → x ∈ nodes p →
  ∃ p', rxe_drop_index x p = Some p' ∧ pool_inv p' ∧ (∀ y, y ∈ nodes p' ↔ y ≠ x ∧ y ∈ nodes p) ∧
    pool_elems p' = pool_elems p ∧ pool_valid p' = pool_valid p.
Proof.
  intros Hi Hx. destruct (pv_live _ Hi x Hx) as [e He]. destruct (pv_table _ Hi (pool_table_some _ _ Hi (pv_live _ Hi x Hx))) as (t & Et & Hl & Hb).
  destruct (pv_range _ Hi) as (R1 & R2 & R3). pose proof (pv_index _ Hi x Hx) as Hir.
  assert (Hix : by_index p x = el_index e) by (unfold by_index; by rewrite He). rewrite Hix in Hir.
  unfold rxe_drop_index. rewrite He, Et. cbn [mbind option_bind]. unfold put_bit. rewrite u32_small by lia.
  destruct (Z.ltb_spec (el_index e - pool_min_index p) (Z.of_nat (length t))); [|lia]. cbn [mbind option_bind].
  unfold erase. rewrite decide_True by done. eexists. split; [done|]. set (p' := _ <| pool_tree ::= _ |>).
  assert (Hn : ∀ y, y ∈ nodes p' ↔ y ≠ x ∧ y ∈ nodes p) by (intros y; cbn; by rewrite rb_erase_order, list_elem_of_filter).
  split; [|done]. destruct Hi as [V1 V2 V3 V4 V5 V6 V7 V8 V9]. split; try done.
  - intros y [_ Hy]%Hn. by apply V4.
  - cbn. rewrite rb_erase_order. by apply ordered_filter.
  - intros y [_ Hy]%Hn. by apply V7.
  - intros _. eexists. split; [done|]. rewrite length_insert. split; [exact Hl|]. intros i Hi.
    change (pool_min_index p') with (pool_min_index p) in *. change (pool_max_index p') with (pool_max_index p) in *.
    destruct (decide (i = el_index e)) as [->|Hne].
    + rewrite list_lookup_insert_eq by lia. split; [done|]. intros (y & [Hy1 Hy2]%Hn & Ey). exfalso. apply Hy1.
      assert (find_node (by_index p) (el_index e) (pool_tree p) = Some x) as F1 by (by apply find_node_spec).
      assert (find_node (by_index p) (el_index e) (pool_tree p) = Some y) as F2 by (by apply find_node_spec). congruence.
    + rewrite list_lookup_insert_ne by lia. rewrite (Hb i Hi). split; intros (y & Hy & Ey); exists y; rewrite Hn in *; [|tauto].
      split; [split; [congruence|done]|done].
Qed.

(** A pool that lost its last reference has no table any more. *)
Lemma pool_put_ok p : pool_inv (p <| pool_ref ::= (λ n, n - 1) |>) → pool_inv (pool_put p) ∧ nodes (pool_put p) = nodes p ∧ pool_elems (pool_put p) = pool_elems p.
Proof.
  intros Hi. unfold pool_put. destruct (Z.eqb_spec (pool_ref (p <| pool_ref ::= (λ n, n - 1) |>)) 0) as [E|]; [|done].
  split; [|done]. destruct Hi as [V1 V2 V3 V4 V5 V6 V7 V8 V9]. split; try done; cbn in *; [destruct (pool_valid p); cbn in *; lia|lia].
Qed.

Lemma rxe_pool_cleanup_ok p : pool_inv p → pool_valid p = true → pool_inv (rxe_pool_cleanup p) ∧ pool_valid (rxe_pool_cleanup p) = false.
Proof.
  intros Hi Hv. pose proof Hi as [V1 V2 V3 V4 _ _ _ _ _]. unfold rxe_pool_cleanup. split; [|unfold pool_put; by destruct (_ =? 0)].
  apply pool_put_ok. rewrite Hv in V2. apply (elems_ok p); try done; cbn in *; [lia|lia|]. intros y Hy. split; [by apply V4|done].
Qed.

(** The memory of a new element is not in use. *)
Lemma rxe_alloc_ok p x : pool_inv p → pool_elems p !! x = None →
  ∃ p' r, rxe_alloc (Some x) p = Some (p', r) ∧ pool_inv p' ∧ nodes p' = nodes p ∧ pool_valid p' = pool_valid p ∧
    (r = Some x ∧ is_Some (pool_elems p' !! x) ∧ x ∉ nodes p' ∧ pool_num_elem p < pool_max_elem p ∨
     r = None ∧ p' = p ∧ (pool_valid p = true → pool_num_elem p = pool_max_elem p)).
Proof.
  intros Hi Hx. unfold rxe_alloc. pose proof Hi as [[V1 V1'] V2 V3 V4 _ _ _ _ _].
  destruct (pool_valid p) eqn:Hv; cbn [negb]; [|eexists _, _; do 4 (split; [done|]); by right].
  rewrite Z.gtb_ltb. destruct (Z.ltb_spec (pool_max_elem p) (pool_num_elem p + 1)) as [Hm|Hm].
  { eexists _, _. do 4 (split; [done|]). right. split; [done|]. split; [done|]. intros _. lia. }
  assert (Hnx : x ∉ nodes p) by (intros [? He]%V4; congruence).
  cbn [mbind option_bind]. eexists _, _. split; [done|]. split; [|split; [done|split; [done|left; split; [done|split; [|split; [done|lia]]]]]].
  - cbn in V2. apply (elems_ok p); try done; cbn.
    + lia.
    + rewrite map_size_insert_None by done. lia.
    + rewrite Hv. cbn. lia.
    + apply map_Forall_insert_2; [cbn; lia|done].
    + intros y Hy. unfold by_index. cbn. rewrite lookup_insert_ne by congruence. split; [by apply V4|done].
  - cbn. rewrite lookup_insert_eq. by eexists.
Qed.

(** The last reference may only be dropped by an element that is no node. *)
Lemma rxe_drop_ref_ok p x e : pool_inv p → pool_elems p !! x = Some e → (el_ref e = 1 → x ∉ nodes p) →
  ∃ p' b, rxe_drop_ref x p = Some (p', b) ∧ pool_inv p' ∧ nodes p' = nodes p ∧ b = (el_ref e =? 1) ∧
    (b = true → pool_elems p' = delete x (pool_elems p)).
Proof.
  intros Hi He Hn. unfold rxe_drop_ref. rewrite He. cbn [mbind option_bind]. pose proof Hi as [[V1 V1'] V2 V3 V4 _ _ _ _ _].
  assert (Hr : 1 ≤ el_ref e) by (by apply (V3 x)).
  destruct (Z.eqb_spec (el_ref e) 1) as [E1|E1]; destruct (Z.eqb_spec (el_ref e - 1) 0); try lia.
  - eexists _, _. split; [done|]. specialize (Hn E1). unfold rxe_elem_release.
    match goal with |- context [pool_put ?q] => set (q0 := q) end.
    assert (Eel : pool_elems q0 = delete x (pool_elems p)) by (unfold q0; cbn; by rewrite delete_alter_eq).
    assert (Hsz : Z.of_nat (size (pool_elems p)) - 1 = Z.of_nat (size (delete x (pool_elems p)))).
    { rewrite map_size_delete, He. cbn. assert (size (pool_elems p) ≠ 0%nat) by (intros Hz%map_size_empty_iff; by rewrite Hz in He). lia. }
    destruct (pool_put_ok q0) as (P1 & P2 & P3); [|split; [done|split; [done|split; [done|intros _; by rewrite P3]]]].
    apply (elems_ok p); try done; cbn in Eel |- *; rewrite ?Eel; [lia|lia|lia|by apply map_Forall_delete|].
    intros y Hy. unfold by_index. cbn. rewrite Eel, lookup_delete_ne by congruence. split; [by apply V4|done].
  - eexists _, _. split; [done|]. split; [|done]. apply set_ref_ok; [done|]. intros e' He'. assert (e' = e) as -> by congruence. lia.
Qed.
End laws.

(** ** A pool in use *)

Inductive pool_op : Type :=
  | OpAlloc (x : Z)
  | OpAddIndex (x : Z)
  | OpDropIndex (x : Z)
  | OpGet (index : Z)
  | OpAddRef (x : Z)
  | OpDropRef (x : Z)
  | OpCleanup.

Section use.
Context `{RbTree}.

Definition pool_exec (op : pool_op) (p : rxe_pool) : option rxe_pool :=
  match op with
  | OpAlloc x => fst <$> rxe_alloc (Some x) p
  | OpAddIndex x => rxe_add_index x p
  | OpDropIndex x => rxe_drop_index x p
  | OpGet index => Some (rxe_pool_get_index index p).1
  | OpAddRef x => rxe_add_ref x p
  | OpDropRef x => fst <$> rxe_drop_ref x p
  | OpCleanup => Some (rxe_pool_cleanup p)
  end.

Fixpoint pool_run (ops : list pool_op) (p : rxe_pool) : option rxe_pool :=
  match ops with
  | [] => Some p
  | op :: ops => p ← pool_exec op p; pool_run ops p
  end.

(** How the driver uses a pool: memory of an element that is alive is not
    handed out again, an element gets one index and gives it back before its
    last reference goes, and the pool is cleaned up once. *)
Definition allowed (op : pool_op) (p : rxe_pool) : Prop :=
  match op with
  | OpAlloc x => pool_elems p !! x = None
  | OpAddIndex x => is_Some (pool_elems p !! x) ∧ x ∉ nodes p
  | OpDropIndex x => x ∈ nodes p
  | OpGet _ => True
  | OpAddRef x => is_Some (pool_elems p !! x)
  | OpDropRef x => ∃ e, pool_elems p !! x = Some e ∧ (el_ref e = 1 → x ∉ nodes p)
  | OpCleanup => pool_valid p = true
  end.

Fixpoint allowed_run (ops : list pool_op) (p : rxe_pool) : Prop :=
  match ops with
  | [] => True
  | op :: ops => allowed op p ∧ ∀ p', pool_exec op p = Some p' → allowed_run ops p'
  end.

Lemma pool_exec_ok op p : pool_inv p → allowed op p → ∃ p', pool_exec op p = Some p' ∧ pool_inv p'.
Proof.
  intros Hi Ha. destruct op as [x|x|x|i|x|x|]; cbn in *.
  - destruct (rxe_alloc_ok p x Hi Ha) as (p' & r & -> & Hi' & _). by exists p'.
  - destruct Ha as [Hx Hn]. destruct (rxe_add_index_ok p x Hi Hx Hn) as (p' & -> & Hi' & _). by exists p'.
  - destruct (rxe_drop_index_ok p x Hi Ha) as (p' & -> & Hi' & _). by exists p'.
  - destruct (rxe_pool_get_index_ok p i Hi) as (p' & r & -> & Hi' & _). by exists p'.
  - by apply rxe_add_ref_ok.
  - destruct Ha as (e & He & Hn). destruct (rxe_drop_ref_ok p x e Hi He Hn) as (p' & b & -> & Hi' & _). by exists p'.
  - eexists. split; [done|]. by apply rxe_pool_cleanup_ok.
Qed.

Lemma pool_run_ok ops : ∀ p, pool_inv p → allowed_run ops p → ∃ p', pool_run ops p = Some p' ∧ pool_inv p'.
Proof.
  induction ops as [|op ops IH]; intros p Hi Ha; [by exists p|]. destruct Ha as [Ha Har]. cbn.
  destruct (pool_exec_ok op p Hi Ha) as (p' & E & Hi'). rewrite E. cbn. apply IH; [done|]. by apply Har.
Qed.

#[export] Instance allowed_dec op p : Decision (allowed op p).
Proof.
  destruct op as [x|x|x|i|x|x|]; cbn; try apply _. destruct (pool_elems p !! x) as [e|] eqn:E.
  - destruct (decide (el_ref e = 1 → x ∉ nodes p)); [left; by exists e|right; intros (e' & [= <-] & ?); done].
  - right. by intros (e & ? & _).
Defined.

(** The same as a function. *)
Fixpoint allowed_all (ops : list pool_op) (p : rxe_pool) : bool :=
  match ops with
  | [] => true
  | op :: ops => bool_decide (allowed op p) && match pool_exec op p with Some p => allowed_all ops p | None => true end
  end.

Lemma allowed_all_ok ops : ∀ p, allowed_all ops p = true → allowed_run ops p.
Proof.
  induction ops as [|op ops IH]; intros p; cbn; [done|]. intros [Ha Hr]%andb_true_iff. split; [by apply bool_decide_eq_true in Ha|].
  intros p' E. rewrite E in Hr. by apply IH.
Qed.

(** The types that have indices. *)
Definition indexed (type : rxe_elem_type) : bool := flag_set (ty_flags (rxe_type_info type)) RXE_POOL_INDEX.

Lemma pool_init_ok type max_elem rxe_ref p :
  indexed type = true → 0 ≤ max_elem → rxe_pool_init type max_elem rxe_ref true = (p, Ok tt) → pool_inv p ∧
  pool_min_index p = ty_min_index (rxe_type_info type) ∧ pool_max_index p = ty_max_index (rxe_type_info type) ∧ pool_max_elem p = max_elem.
Proof.
  intros Ht Hm. unfold rxe_pool_init, rxe_pool_init_index. unfold indexed in Ht. rewrite Ht. cbn [negb].
  set (mx := ty_max_index (rxe_type_info type)). set (mn := ty_min_index (rxe_type_info type)).
  assert (Hr : 0 ≤ mn ≤ mx ∧ mx < 2 ^ 31) by (unfold mx, mn; destruct type; done || (cbn; lia)).
  rewrite u32_small by lia. cbn [pool_max_elem]. destruct (Z.ltb_spec (mx - mn + 1) max_elem) as [Hlt|Hge]; [done|].
  intros [= <-]. split; [|done]. unfold BITS_TO_LONGS. split; cbn; try done; try lia.
  - intros x Hx. by apply not_elem_of_nil in Hx.
  - constructor.
  - intros x Hx. by apply not_elem_of_nil in Hx.
  - intros _. eexists. split; [done|]. rewrite length_replicate.
    pose proof (Z.div_mod (mx - mn + 1 + 31) 32 ltac:(lia)). pose proof (Z.mod_pos_bound (mx - mn + 1 + 31) 32 ltac:(lia)).
    split; [lia|]. intros i Hi. split; [|by intros (x & Hx%not_elem_of_nil & _)]. by intros [E _]%lookup_replicate_1.
Qed.

(** No operation changes the limits of a pool. *)
Definition limits (p : rxe_pool) : Z * Z * Z := (pool_min_index p, pool_max_index p, pool_max_elem p).

Lemma pool_exec_limits op p p' : pool_exec op p = Some p' → limits p' = limits p.
Proof.
  destruct op as [x|x|x|i|x|x|]; cbn.
  - unfold rxe_alloc. repeat case_match; intros E; simplify_eq/=; done.
  - unfold rxe_add_index, alloc_index. destruct (pool_elems p !! x); [|done]. destruct (pool_table p); [|done]. cbn.
    destruct (put_bit _ _ _); [|done]. cbn. by intros [= <-].
  - unfold rxe_drop_index, erase. destruct (pool_elems p !! x); [|done]. destruct (pool_table p); [|done]. cbn.
    destruct (put_bit _ _ _); [|done]. cbn. case_decide; [|done]. by intros [= <-].
  - intros [= <-]. unfold rxe_pool_get_index, get_by. by repeat case_match.
  - unfold rxe_add_ref. destruct (pool_elems p !! x); [|done]. by intros [= <-].
  - unfold rxe_drop_ref. destruct (pool_elems p !! x); [|done]. cbn. unfold rxe_elem_release, pool_put.
    repeat case_match; intros E; simplify_eq/=; done.
  - intros [= <-]. unfold rxe_pool_cleanup, pool_put. by case_match.
Qed.

Lemma pool_run_limits ops : ∀ p p', pool_run ops p = Some p' → limits p' = limits p.
Proof.
  induction ops as [|op ops IH]; intros p p'; cbn; [by intros [= <-]|]. destruct (pool_exec op p) as [p1|] eqn:E; [|done].
  intros E1. by rewrite (IH p1 p' E1), (pool_exec_limits op p p1 E).
Qed.

(** What a pool of a type with at most [max_elem] elements does next, and how its
    elements and indices are. *)
Record serving (type : rxe_elem_type) (max_elem : Z) (p : rxe_pool) : Prop := {
  sv_num : pool_num_elem p = Z.of_nat (size (pool_elems p)) ∧ pool_num_elem p ≤ max_elem;
  sv_alive : ∀ x, x ∈ nodes p → is_Some (pool_elems p !! x);
  sv_unique : ∀ x y, x ∈ nodes p → y ∈ nodes p → by_index p x = by_index p y → x = y;
  sv_range : ∀ x, x ∈ nodes p → ty_min_index (rxe_type_info type) ≤ by_index p x ≤ ty_max_index (rxe_type_info type);
  sv_find : ∀ i x, (rxe_pool_get_index i p).2 = Some x ↔ pool_valid p = true ∧ x ∈ nodes p ∧ by_index p x = i;
  sv_alloc : ∀ x, pool_elems p !! x = None → ∃ p', rxe_alloc (Some x) p = Some (p',
    if pool_valid p && (pool_num_elem p <? max_elem) then Some x else None) ∧
    pool_elems p' = (if pool_valid p && (pool_num_elem p <? max_elem) then <[x := Elem 1 0 0]> (pool_elems p) else pool_elems p);
  sv_add : ∀ x, is_Some (pool_elems p !! x) → x ∉ nodes p → ∃ p', rxe_add_index x p = Some p' ∧
    (∀ y, y ∈ nodes p' ↔ y = x ∨ y ∈ nodes p) ∧ (∀ y, y ∈ nodes p → by_index p' y = by_index p y ∧ by_index p' x ≠ by_index p y) ∧
    ty_min_index (rxe_type_info type) ≤ by_index p' x ≤ ty_max_index (rxe_type_info type);
  sv_drop : ∀ x, x ∈ nodes p → ∃ p', rxe_drop_index x p = Some p' ∧ (∀ y, y ∈ nodes p' ↔ y ≠ x ∧ y ∈ nodes p) ∧
    pool_elems p' = pool_elems p;
  sv_release : ∀ x e, pool_elems p !! x = Some e → (el_ref e = 1 → x ∉ nodes p) → ∃ p', rxe_drop_ref x p = Some (p', el_ref e =? 1) ∧
    (el_ref e = 1 → pool_elems p' = delete x (pool_elems p))
}.

Lemma inv_serving type max_elem p :
  pool_inv p → limits p = (ty_min_index (rxe_type_info type), ty_max_index (rxe_type_info type), max_elem) → serving type max_elem p.
Proof.
  intros Hp [= L1 L2 L3]. destruct (pv_num _ Hp) as [N1 N2]. rewrite L3 in N2.
  assert (Hu : ∀ x y, x ∈ nodes p → y ∈ nodes p → by_index p x = by_index p y → x = y).
  { intros x y Hx Hy Exy. assert (find_node (by_index p) (by_index p x) (pool_tree p) = Some x) as F1 by (by apply find_node_spec; [apply Hp|]).
    assert (find_node (by_index p) (by_index p x) (pool_tree p) = Some y) as F2 by (by apply find_node_spec; [apply Hp|]). congruence. }
  split; [done|apply Hp|done| | | | | |].
  - intros x Hx. rewrite <- L1, <- L2. by apply Hp.
  - intros i x. unfold rxe_pool_get_index, get_by. destruct (pool_valid p); cbn [negb]; [|split; [done|by intros [? _]]].
    rewrite <- (find_node_spec (by_index p) i x (pool_tree p)) by apply Hp. destruct (find_node _ _ _); cbn; naive_solver.
  - intros x Hx. unfold rxe_alloc. rewrite L3. destruct (pool_valid p); cbn [negb andb]; [|by eexists]. rewrite Z.gtb_ltb.
    destruct (Z.ltb_spec max_elem (pool_num_elem p + 1)), (Z.ltb_spec (pool_num_elem p) max_elem); [lia|by eexists|by eexists|lia].
  - intros x Hx Hn. destruct (rxe_add_index_ok p x Hp Hx Hn) as (p' & E & Hi' & Hnodes & Hothers & _). exists p'. split; [done|].
    pose proof (pool_exec_limits (OpAddIndex x) p p' E) as Hl. unfold limits in Hl. rewrite L1, L2 in Hl. injection Hl as M1 M2 _.
    split; [done|]. split; [|rewrite <- M1, <- M2; apply Hi', Hnodes; by left].
    intros y Hy. destruct (Hothers y Hy) as [H1 H2]. by split; [|apply not_eq_sym].
  - intros x Hx. destruct (rxe_drop_index_ok p x Hp Hx) as (p' & E & _ & H1 & H2 & _). by exists p'.
  - intros x e He Hn. destruct (rxe_drop_ref_ok p x e Hp He Hn) as (p' & b & E & _ & _ & -> & Hd). exists p'. split; [done|].
    intros E1. apply Hd. by rewrite E1.
Qed.

(** C13: pools. A pool of one of the types with indices, used as the driver uses
    it: whatever the order of the calls, every call returns, and afterwards there
    are not more elements than the limit; no two elements have the same index, and
    all are in the range of the type; a lookup finds exactly the element with the
    index, as long as the pool is valid; a new element is handed out exactly when
    the pool is valid and not full; an element without an index that asks for one
    gets one in the range that nobody has, and the others keep theirs; it can be
    given back; and an element is released with its last reference. *)
Theorem pool_serves type max_elem rxe_ref p0 ops :
  indexed type = true → 0 ≤ max_elem → rxe_pool_init type max_elem rxe_ref true = (p0, Ok tt) → allowed_run ops p0 →
  ∃ p, pool_run ops p0 = Some p ∧ serving type max_elem p.
Proof.
  intros Ht Hm E Ha. destruct (pool_init_ok type max_elem rxe_ref p0 Ht Hm E) as (Hi & L1 & L2 & L3).
  destruct (pool_run_ok ops p0 Hi Ha) as (p & Er & Hp). exists p. split; [done|]. apply inv_serving; [done|].
  rewrite (pool_run_limits _ _ _ Er). unfold limits. by rewrite L1, L2, L3.
Qed.
End use.

(** ** Trees without balancing *)

Fixpoint join (l r : tree) : tree := match l with Leaf => r | Node a x b => Node a x (join b r) end.

Fixpoint take_out (x : Z) (t : tree) : tree :=
  match t with
  | Leaf => Leaf
  | Node l y r => if decide (y = x) then join (take_out x l) (take_out x r) else Node (take_out x l) y (take_out x r)
  end.

Lemma join_inorder l r : inorder (join l r) = inorder l ++ inorder r.
Proof. induction l as [|a IHa x b IHb]; [done|]. cbn. by rewrite IHb, <- app_assoc. Qed.

Lemma take_out_inorder x t : inorder (take_out x t) = filter (.≠ x) (inorder t).
Proof.
  induction t as [|l IHl y r IHr]; [done|]. cbn. rewrite list.filter_app, filter_cons. case_decide as E.
  - subst y. rewrite decide_False by tauto. by rewrite join_inorder, IHl, IHr.
  - rewrite decide_True by done. cbn. by rewrite IHl, IHr.
Qed.

#[export] Instance plain_tree : RbTree := {
  rb_insert_color _ t := t;
  rb_erase := take_out;
  rb_insert_order _ _ := eq_refl;
  rb_erase_order := take_out_inorder
}.

(** ** Example: queue pairs that come and go *)

Definition example_ops : list pool_op :=
  [OpAlloc 100; OpAddIndex 100; OpAlloc 200; OpAddIndex 200; OpGet 17; OpDropRef 200; OpDropIndex 100; OpDropRef 100; OpAlloc 300; OpAddIndex 300].

Lemma pool_serves_witness :
  let p0 := (rxe_pool_init RXE_TYPE_QP 100 1 true).1 in
  ∃ p, pool_run example_ops p0 = Some p ∧ serving RXE_TYPE_QP 100 p ∧
    (rxe_pool_get_index 17 p).2 = Some 200 ∧ (rxe_pool_get_index 18 p).2 = Some 300.
Proof.
  intros p0. destruct (pool_serves RXE_TYPE_QP 100 1 p0 example_ops) as (p & E & Hn).
  - reflexivity.
  - lia.
  - rewrite (surjective_pairing (rxe_pool_init _ _ _ _)). by f_equal.
  - apply allowed_all_ok. vm_compute. reflexivity.
  - exists p. split; [exact E|]. split; [exact Hn|].
    assert (Hg : (λ p, ((rxe_pool_get_index 17 p).2, (rxe_pool_get_index 18 p).2)) <$> pool_run example_ops p0 = Some (Some 200, Some 300))
      by (vm_compute; reflexivity).
    rewrite E in Hg. clear E. cbn in Hg. injection Hg as G1 G2. split; [exact G1|exact G2].
Defined.
