(* ===== verification/Task.v ===== *)
(** * Tasks (rxe_task.c)

    A task is a function that returns 0 as long as it wants to be called again.
    Any number of threads may ask for it to run at the same time, directly or
    through a tasklet. This file models the threads inside [rxe_do_task] step by
    step, with the spin lock and the tasklet, and every order of their steps. *)

From stdpp Require Import gmap.
From S2P Require Import Prelude.

(** ** The task *)

Definition TASK_STATE_START : Z := 0.
Definition TASK_STATE_BUSY : Z := 1.
Definition TASK_STATE_ARMED : Z := 2.

(** [task_lock] is the activation that holds [state_lock]. Of the tasklet,
    [tl_sched] is the flag SCHED, [tl_count] the number of times it has been
    disabled, [tl_run] the activation that runs it, [tl_queued] whether it is in
    the list of a processor, and [tl_kill] whether a thread in [tasklet_kill] has
    set SCHED and waits for the tasklet to end. *)
Record rxe_task := RxeTask {
  task_state : Z;
  task_lock : option nat;
  task_ret : Z;
  tl_sched : bool;
  tl_count : Z;
  tl_run : option nat;
  tl_queued : bool;
  tl_kill : bool
}.

#[export] Instance eta_rxe_task : Eta rxe_task := fun r =>
  RxeTask (task_state r) (task_lock r) (task_ret r) (tl_sched r) (tl_count r) (tl_run r) (tl_queued r) (tl_kill r).

(** Where an activation of [rxe_do_task] or of [__rxe_do_task] is. *)
Inductive point : Type :=
  | AtLock                  (* before the first spin_lock_bh *)
  | AtSwitch                (* lock held, before the first switch *)
  | AtCall                  (* before the call of func *)
  | InFunc                  (* inside func *)
  | AtRelock (ret : Z)      (* func has returned, before the second spin_lock_bh *)
  | AtAgain (ret : Z)       (* lock held, before the second switch *)
  | AtExit (ret : Z)        (* after the loop *)
  | RawCall                 (* __rxe_do_task, before the call of func *)
  | RawFunc                 (* __rxe_do_task, inside func *)
  | RawExit (ret : Z).      (* __rxe_do_task, after the loop *)

#[export] Instance point_eq_dec : EqDecision point.
Proof. solve_decision. Defined.

(** What has happened, the latest first. *)
Inductive event : Type :=
  | Ran                     (* rxe_run_task was called *)
  | RanKilled               (* rxe_run_task found the tasklet being killed *)
  | Called (a : nat)        (* func was entered *)
  | Returned (a : nat) (ret : Z).

Record config := Config {
  c_task : rxe_task;
  c_acts : gmap nat point;
  c_log : list event
}.

#[export] Instance eta_config : Eta config := fun r => Config (c_task r) (c_acts r) (c_log r).

(** ** Operations *)

Definition rxe_init_task (task : rxe_task) : rxe_task :=
  task <| task_state := TASK_STATE_START |> <| task_lock := None |> <| tl_sched := false |> <| tl_count := 0 |>
       <| tl_run := None |> <| tl_queued := false |> <| tl_kill := false |>.

Definition rxe_fast_path_ok (fast : Z) (in_irq irqs_disabled : bool) : bool :=
  negb ((fast =? 0) || ((fast =? 1) && (in_irq || irqs_disabled))).

(** An activation goes on at [p], or has returned; the tasklet it may have run
    in is unlocked then. *)
Definition goto (a : nat) (p : point) (c : config) : config := c <| c_acts ::= <[a := p]> |>.

Definition leave (a : nat) (c : config) : config :=
  c <| c_acts ::= delete a |>
    <| c_task ::= λ t, t <| tl_run ::= λ r, if decide (r = Some a) then None else r |> |>.

Definition record (e : event) (c : config) : config := c <| c_log ::= cons e |>.

Definition set_state (st : Z) (c : config) : config := c <| c_task ::= λ t, t <| task_state := st |> |>.

(** [spin_lock_bh] waits while another holds the lock. *)
Definition spin_lock (a : nat) (c : config) : option config :=
  match task_lock (c_task c) with
  | None => Some (c <| c_task ::= λ t, t <| task_lock := Some a |> |>)
  | Some _ => None
  end.

Definition spin_unlock (c : config) : config := c <| c_task ::= λ t, t <| task_lock := None |> |>.

(** The two switches of [rxe_do_task]. *)
Definition first_switch (a : nat) (c : config) : config :=
  let st := task_state (c_task c) in
  if st =? TASK_STATE_START then goto a AtCall (spin_unlock (set_state TASK_STATE_BUSY c))
  else if st =? TASK_STATE_BUSY then leave a (spin_unlock (set_state TASK_STATE_ARMED c))
  else leave a (spin_unlock c).

Definition second_switch (a : nat) (ret : Z) (c : config) : config :=
  let st := task_state (c_task c) in
  if st =? TASK_STATE_BUSY then
    if negb (ret =? 0) then goto a (AtExit ret) (spin_unlock (set_state TASK_STATE_START c))
    else goto a AtCall (spin_unlock c)
  else if st =? TASK_STATE_ARMED then goto a AtCall (spin_unlock (set_state TASK_STATE_BUSY c))
  else goto a (AtExit ret) (spin_unlock c).

(** One step of activation [a]; [ret] is what func returns in this step. *)
Definition rxe_do_task (a : nat) (ret : Z) (c : config) : option config :=
  p ← c_acts c !! a;
  match p with
  | AtLock => c ← spin_lock a c; Some (goto a AtSwitch c)
  | AtSwitch => Some (first_switch a c)
  | AtCall => Some (record (Called a) (goto a InFunc c))
  | InFunc => Some (record (Returned a ret) (goto a (AtRelock ret) c))
  | AtRelock ret => c ← spin_lock a c; Some (goto a (AtAgain ret) c)
  | AtAgain ret => Some (second_switch a ret c)
  | AtExit ret | RawExit ret => Some (leave a (c <| c_task ::= λ t, t <| task_ret := ret |> |>))
  | RawCall => Some (record (Called a) (goto a RawFunc c))
  | RawFunc => Some (record (Returned a ret) (goto a (if ret =? 0 then RawCall else RawExit ret) c))
  end.

(** [tasklet_schedule] puts the tasklet into a list if SCHED was not set. *)
Definition tasklet_schedule (c : config) : config :=
  c <| c_task ::= λ t, if tl_sched t then t else t <| tl_sched := true |> <| tl_queued := true |> |>.

(** [tasklet_action] for this tasklet. When it runs elsewhere or is disabled, it is
    put back into the list. *)
Definition tasklet_action (a : nat) (c : config) : option config :=
  let t := c_task c in
  match c_acts c !! a, tl_run t with
  | None, None =>
      if tl_queued t && (tl_count t =? 0)
      then Some (goto a AtLock (c <| c_task ::= λ t, t <| tl_sched := false |> <| tl_queued := false |> <| tl_run := Some a |> |>))
      else None
  | _, _ => None
  end.

(** [rxe_run_task], by a new activation [a] when it does not use the tasklet. *)
Definition rxe_run_task (fast : Z) (a : nat) (sched in_irq irqs_disabled : bool) (c : config) : option config :=
  if sched || negb (rxe_fast_path_ok fast in_irq irqs_disabled) 
  then Some (record (if tl_kill (c_task c) then RanKilled else Ran) (tasklet_schedule c))
  else match c_acts c !! a with
       | None => Some (record Ran (goto a AtLock c))
       | Some _ => None
       end.

(** [tasklet_disable] then waits for the tasklet to end, which is in the guard of
    [raw_do_task]. *)
Definition rxe_disable_task (c : config) : config := c <| c_task ::= λ t, t <| tl_count ::= (λ n, n + 1) |> |>.
Definition rxe_enable_task (c : config) : config := c <| c_task ::= λ t, t <| tl_count ::= (λ n, n - 1) |> |>.

(** [rxe_cleanup_task] is [tasklet_kill]: it waits until it can set SCHED, then
    until the tasklet does not run, and clears SCHED. *)
Definition tasklet_kill (c : config) : option config :=
  if tl_sched (c_task c) then None
  else Some (c <| c_task ::= λ t, t <| tl_sched := true |> <| tl_kill := true |> |>).

Definition tasklet_killed (c : config) : option config :=
  match tl_run (c_task c) with
  | None => if tl_kill (c_task c) then Some (c <| c_task ::= λ t, t <| tl_sched := false |> <| tl_kill := false |> |>) else None
  | Some _ => None
  end.

(** [__rxe_do_task], by a thread that has disabled the tasklet and waited. *)
Definition raw_do_task (a : nat) (c : config) : option config :=
  match c_acts c !! a, tl_run (c_task c) with
  | None, None => if 0 <? tl_count (c_task c) then Some (goto a RawCall c) else None
  | _, _ => None
  end.

(** ** Steps *)

Inductive label : Type :=
  | Run (a : nat) (sched in_irq irqs_disabled : bool)
  | Step (a : nat) (ret : Z)
  | Tasklet (a : nat)
  | Disable
  | Enable
  | Kill
  | Killed
  | Raw (a : nat).

Definition step (fast : Z) (l : label) (c : config) : option config :=
  match l with
  | Run a sched in_irq irqs_disabled => rxe_run_task fast a sched in_irq irqs_disabled c
  | Step a ret => rxe_do_task a ret c
  | Tasklet a => tasklet_action a c
  | Disable => Some (rxe_disable_task c)
  | Enable => if 0 <? tl_count (c_task c) then Some (rxe_enable_task c) else None
  | Kill => tasklet_kill c
  | Killed => tasklet_killed c
  | Raw a => raw_do_task a c
  end.

Fixpoint steps (fast : Z) (ls : list label) (c : config) : option config :=
  match ls with
  | [] => Some c
  | l :: ls => c ← step fast l c; steps fast ls c
  end.

Definition initial (ret : Z) : config := Config (rxe_init_task (RxeTask 0 None ret false 0 None false false)) ∅ [].

(** ** The invariant *)

(** Points that hold the lock, that belong to the activation whose turn it is,
    and from which func is going to be called. *)
Definition locked (p : point) : bool := match p with AtSwitch | AtAgain _ => true | _ => false end.
Definition owner (p : point) : bool := match p with AtCall | InFunc | AtRelock _ | AtAgain _ => true | _ => false end.
Definition coming (p : point) : bool := match p with AtLock | AtSwitch | AtCall => true | _ => false end.
Definition raw (p : point) : bool := match p with RawCall | RawFunc | RawExit _ => true | _ => false end.
Definition back_with (ret : Z) (p : point) : Prop := p = AtRelock ret ∨ p = AtAgain ret.

(** A request has not been followed by a call of func. *)
Fixpoint unserved (log : list event) : bool :=
  match log with
  | [] => false
  | Ran :: _ => true
  | RanKilled :: log => unserved log
  | Called _ :: _ => false
  | Returned _ _ :: log => unserved log
  end.

(** What func returned last. *)
Fixpoint last_ret (log : list event) : option Z :=
  match log with
  | [] => None
  | Returned _ ret :: _ => Some ret
  | _ :: log => last_ret log
  end.

Definition some_at (f : point → bool) (m : gmap nat point) : Prop := ∃ a p, m !! a = Some p ∧ f p = true.
Definition none_at (f : point → bool) (m : gmap nat point) : Prop := map_Forall (λ _ p, f p = false) m.

Definition lock_ok (lk : option nat) (m : gmap nat point) : Prop :=
  ∀ a, lk = Some a ↔ ∃ p, m !! a = Some p ∧ locked p = true.

Definition one_owner (m : gmap nat point) : Prop :=
  ∀ a b p p', m !! a = Some p → m !! b = Some p' → owner p = true → owner p' = true → a = b.

Definition state_ok (st : Z) (m : gmap nat point) : Prop :=
  st = TASK_STATE_START ∧ none_at owner m ∨ (st = TASK_STATE_BUSY ∨ st = TASK_STATE_ARMED) ∧ some_at owner m.

(** SCHED is set for one reason. *)
Definition sched_ok (sched queued kill : bool) : Prop := sched = xorb queued kill ∧ (queued && kill = false).

Record task_inv (c : config) : Prop := {
  ti_raw : none_at raw (c_acts c);
  ti_lock : lock_ok (task_lock (c_task c)) (c_acts c);
  ti_owner : one_owner (c_acts c);
  ti_state : state_ok (task_state (c_task c)) (c_acts c);
  ti_pending : unserved (c_log c) = true →
    tl_queued (c_task c) = true ∨ task_state (c_task c) = TASK_STATE_ARMED ∨ some_at coming (c_acts c);
  ti_ret : ∀ a p ret, c_acts c !! a = Some p → back_with ret p → last_ret (c_log c) = Some ret;
  ti_done : task_state (c_task c) = TASK_STATE_START → last_ret (c_log c) ≠ Some 0;
  ti_run : ∀ a, tl_run (c_task c) = Some a → is_Some (c_acts c !! a);
  ti_sched : sched_ok (tl_sched (c_task c)) (tl_queued (c_task c)) (tl_kill (c_task c))
}.

(** An activation moves to [p'] ([None] when it returns). *)
Definition moved (a : nat) (p' : option point) (m : gmap nat point) : gmap nat point :=
  match p' with Some p' => <[a := p']> m | None => delete a m end.

Definition at_new (f : point → bool) (p' : option point) : bool := match p' with Some p' => f p' | None => false end.

Lemma moved_lookup a p' m b q : moved a p' m !! b = Some q ↔ (b = a ∧ p' = Some q) ∨ (b ≠ a ∧ m !! b = Some q).
Proof.
  destruct p' as [p'|]; cbn.
  - rewrite lookup_insert_Some. split; [intros [[<- <-]|[? ?]]; [by left|right; auto]|intros [[-> [= ->]]|[? ?]]; [by left|right; auto]].
  - rewrite lookup_delete_Some. split; [intros [? ?]; right; auto|intros [[_ ?]|[? ?]]; [done|auto]].
Qed.

Section move.
Context (a : nat) (p' : option point) (m : gmap nat point).
Local Abbreviation m' := (moved a p' m).

Lemma some_here f : at_new f p' = true → some_at f m'.
Proof. destruct p' as [q|]; [|done]. intros Hq. exists a, q. split; [apply lookup_insert_eq|done]. Qed.

Lemma some_moved f : (∀ p, m !! a = Some p → f p = true → at_new f p' = true) → some_at f m → some_at f m'.
Proof.
  intros Hf (b & q & Hb & Hq). destruct (decide (b = a)) as [->|Hne]; [by apply some_here, (Hf q)|].
  exists b, q. rewrite moved_lookup. auto.
Qed.

Lemma none_moved f : at_new f p' = false → none_at f m → none_at f m'.
Proof. intros Hf Hn b q [[-> ->]|[_ Hb]]%moved_lookup; [done|by apply (Hn b)]. Qed.

Lemma none_owner_moved p : m !! a = Some p → owner p = true → at_new owner p' = false → one_owner m → none_at owner m'.
Proof.
  intros Hp Ho Hf Hn b q [[-> ->]|[Hne Hb]]%moved_lookup; [done|]. destruct (owner q) eqn:E; [|done].
  by destruct Hne; apply (Hn b a q p).
Qed.

Lemma lock_same lk p : m !! a = Some p → locked p = at_new locked p' → lock_ok lk m → lock_ok lk m'.
Proof.
  intros Hp Hl Hk b. rewrite (Hk b). split; intros (q & Hb & Hq).
  - destruct (decide (b = a)) as [->|Hne]; [|exists q; rewrite moved_lookup; auto].
    assert (q = p) as -> by congruence. rewrite Hl in Hq. destruct p' as [q'|]; [|done]. exists q'. rewrite moved_lookup. auto.
  - apply moved_lookup in Hb as [[-> E]|[_ Hb]]; [|by exists q]. exists p. rewrite Hl, E. auto.
Qed.

Lemma lock_new lk : m !! a = None → at_new locked p' = false → lock_ok lk m → lock_ok lk m'.
Proof.
  intros Hp Hl Hk b. rewrite (Hk b). split; intros (q & Hb & Hq).
  - exists q. rewrite moved_lookup. split; [right; split; [congruence|done]|done].
  - apply moved_lookup in Hb as [[-> E]|[_ Hb]]; [rewrite E in Hl; cbn in Hl; congruence|by exists q].
Qed.

Lemma lock_taken : at_new locked p' = true → lock_ok None m → lock_ok (Some a) m'.
Proof.
  intros Hl Hk b. split.
  - intros [= <-]. destruct p' as [q|]; [|done]. exists q. rewrite moved_lookup. auto.
  - intros (q & [[-> _]|[_ Hb]]%moved_lookup & Hq); [done|].
    assert (None = Some b) by (apply Hk; eauto). done.
Qed.

Lemma lock_released lk p : m !! a = Some p → locked p = true → at_new locked p' = false → lock_ok lk m → lock_ok None m'.
Proof.
  intros Hp Hl Hl' Hk b. split; [done|]. intros (q & [[-> E]|[Hne Hb]]%moved_lookup & Hq).
  - rewrite E in Hl'. cbn in Hl'. congruence.
  - assert (lk = Some a) by (apply Hk; eauto). assert (lk = Some b) by (apply Hk; eauto). congruence.
Qed.

Lemma owner_same : (at_new owner p' = true → ∃ p, m !! a = Some p ∧ owner p = true) → one_owner m → one_owner m'.
Proof.
  intros Hp Ho b b' q q' Hb Hb' Hq Hq'. apply moved_lookup in Hb, Hb'.
  destruct Hb as [[-> E]|[Hne Hb]], Hb' as [[-> E']|[Hne' Hb']]; [done| | |by eapply Ho].
  - rewrite E in Hp. destruct (Hp Hq) as (p & Hp1 & Hp2). by apply (Ho a b' p q').
  - rewrite E' in Hp. destruct (Hp Hq') as (p & Hp1 & Hp2). by apply (Ho b a q p).
Qed.

Lemma owner_first : none_at owner m → one_owner m'.
Proof.
  intros Hn b b' q q' Hb Hb' Hq Hq'. apply moved_lookup in Hb, Hb'.
  destruct Hb as [[-> E]|[Hne Hb]], Hb' as [[-> E']|[Hne' Hb']]; [done|..].
  - rewrite (Hn b' q' Hb') in Hq'. done.
  - rewrite (Hn b q Hb) in Hq. done.
  - rewrite (Hn b q Hb) in Hq. done.
Qed.

Lemma ret_moved (log : list event) :
  (∀ ret, p' = Some (AtRelock ret) ∨ p' = Some (AtAgain ret) → last_ret log = Some ret) →
  (∀ b p ret, b ≠ a → m !! b = Some p → back_with ret p → last_ret log = Some ret) →
  ∀ b p ret, m' !! b = Some p → back_with ret p → last_ret log = Some ret.
Proof.
  intros Hn Ho b p ret [[-> E]|[Hne Hb]]%moved_lookup Hp; [|by eapply Ho]. apply Hn. destruct Hp as [-> | ->]; auto.
Qed.
End move.

(** ** Every step keeps it *)

#[local] Arguments moved : simpl never.

Lemma run_moved (rn : option nat) a p' m :
  (∀ b, rn = Some b → is_Some (m !! b)) → (p' = None → rn ≠ Some a) → ∀ b, rn = Some b → is_Some (moved a p' m !! b).
Proof.
  intros Hr Hn b Hb. destruct (decide (b = a)) as [->|Hne].
  - destruct p' as [q|]; [exists q; rewrite moved_lookup; auto|by destruct Hn].
  - destruct (Hr b Hb) as [q Hq]. exists q. rewrite moved_lookup. auto.
Qed.

Section keeps.
Context (m : gmap nat point) (log : list event) (st : Z) (lk : option nat) (ret : Z) (sc : bool) (ct : Z) (rn : option nat) (qu ki : bool).
Context (a : nat) (p : point) (Hp : m !! a = Some p).
Context (Hinv : task_inv (Config (RxeTask st lk ret sc ct rn qu ki) m log)).

(** The lock is taken at the same point of the code. *)
Lemma keeps_acquire q :
  lk = None → locked q = true → owner q = owner p → coming q = coming p → raw q = false → (∀ r, back_with r q → back_with r p) →
  task_inv (Config (RxeTask st (Some a) ret sc ct rn qu ki) (moved a (Some q) m) log).
Proof using Hp Hinv.
  destruct Hinv as [Hraw Hlk Hone Hst Hpe Hre Hdo Hru Hso]. cbn in *. intros -> Hlq Hoq Hcq Hrq Hbq. split; cbn.
  - by apply none_moved.
  - by apply lock_taken.
  - apply owner_same; [|done]. intros Hq. exists p. split; [done|]. cbn in Hq. congruence.
  - destruct Hst as [[Hs Hn]|[Hs Hn]]; [left|right]; (split; [done|]).
    + apply none_moved; [|done]. cbn. rewrite Hoq. by apply (Hn a).
    + apply some_moved; [|done]. intros p0 Hp0 Ho. cbn. congruence.
  - intros Hu. destruct (Hpe Hu) as [?|[?|Hc]]; [by left|by right; left|]. right. right. apply some_moved; [|done].
    intros p0 Hp0 Ho. cbn. congruence.
  - apply ret_moved; [|by intros b p0 r _; apply Hre]. intros r Hq. apply (Hre a p r Hp), Hbq. by destruct Hq as [[= ->]|[= ->]]; [left|right].
  - done.
  - by apply run_moved.
  - done.
Qed.

(** Func is entered and left. *)
Lemma keeps_call : p = AtCall → task_inv (Config (RxeTask st lk ret sc ct rn qu ki) (moved a (Some InFunc) m) (Called a :: log)).
Proof using Hp Hinv.
  destruct Hinv as [Hraw Hlk Hone Hst Hpe Hre Hdo Hru Hso]. cbn in *. intros ->. split; cbn.
  - by apply none_moved.
  - by apply (lock_same _ _ _ _ AtCall).
  - apply owner_same; [|done]. by exists AtCall.
  - destruct Hst as [[Hs Hn]|[Hs Hn]]; [by discriminate (Hn a _ Hp)|]. right. split; [done|]. by apply some_here.
  - done.
  - apply ret_moved; [by intros r [|]|by intros b p0 r _; apply Hre].
  - done.
  - by apply run_moved.
  - done.
Qed.

Lemma keeps_return r : p = InFunc → task_inv (Config (RxeTask st lk ret sc ct rn qu ki) (moved a (Some (AtRelock r)) m) (Returned a r :: log)).
Proof using Hp Hinv.
  destruct Hinv as [Hraw Hlk Hone Hst Hpe Hre Hdo Hru Hso]. cbn in *. intros ->. split; cbn.
  - by apply none_moved.
  - by apply (lock_same _ _ _ _ InFunc).
  - apply owner_same; [|done]. by exists InFunc.
  - destruct Hst as [[Hs Hn]|[Hs Hn]]; [by discriminate (Hn a _ Hp)|]. right. split; [done|]. by apply some_here.
  - intros Hu. destruct (Hpe Hu) as [?|[?|Hc]]; [by left|by right; left|]. right. right. apply some_moved; [|done].
    intros p0 Hp0. rewrite Hp in Hp0. by injection Hp0 as <-.
  - intros b p0 r' [[-> [= <-]]|[Hne Hb]]%moved_lookup Hr'; [by destruct Hr' as [[= ->]|]|]. destruct Hne. apply (Hone b a p0 InFunc); [done..| |done].
    by destruct Hr' as [-> | ->].
  - intros ->. destruct Hst as [[_ Hn]|[[|] _]]; [by discriminate (Hn a _ Hp)|done|done].
  - by apply run_moved.
  - done.
Qed.

(** The first switch: the activation takes over, or leaves the work to the one
    whose turn it is. *)
Lemma keeps_start : p = AtSwitch → st = TASK_STATE_START →
  task_inv (Config (RxeTask TASK_STATE_BUSY None ret sc ct rn qu ki) (moved a (Some AtCall) m) log).
Proof using Hp Hinv.
  destruct Hinv as [Hraw Hlk Hone Hst Hpe Hre Hdo Hru Hso]. cbn in *. intros -> ->. destruct Hst as [[_ Hn]|[[|] _]]; [|done..]. split; cbn.
  - by apply none_moved.
  - by apply (lock_released _ _ _ lk AtSwitch).
  - by apply owner_first.
  - right. split; [by left|]. by apply some_here.
  - intros _. right. right. by apply some_here.
  - apply ret_moved; [by intros r [|]|by intros b p0 r _; apply Hre].
  - done.
  - by apply run_moved.
  - done.
Qed.

Lemma keeps_arm rn' : p = AtSwitch → st = TASK_STATE_BUSY ∨ st = TASK_STATE_ARMED →
  (∀ b, rn' = Some b → rn = Some b ∧ b ≠ a) →
  task_inv (Config (RxeTask TASK_STATE_ARMED None ret sc ct rn' qu ki) (moved a None m) log).
Proof using Hp Hinv.
  destruct Hinv as [Hraw Hlk Hone Hst Hpe Hre Hdo Hru Hso]. cbn in *. intros -> Hs Hrn. split; cbn.
  - by apply none_moved.
  - by apply (lock_released _ _ _ lk AtSwitch).
  - by apply owner_same.
  - right. split; [by right|]. destruct Hst as [[-> _]|[_ Ho]]; [by destruct Hs|]. apply some_moved; [|done].
    intros p0 Hp0. rewrite Hp in Hp0. by injection Hp0 as <-.
  - intros _. by right; left.
  - apply ret_moved; [by intros r [|]|by intros b p0 r _; apply Hre].
  - done.
  - intros b Hb. destruct (Hrn b Hb) as [Hb1 Hb2]. destruct (Hru b Hb1) as [q Hq]. exists q. rewrite moved_lookup. auto.
  - done.
Qed.

(** The second switch: func is called again, or the activation is done. *)
Lemma keeps_again r : p = AtAgain r → st = TASK_STATE_BUSY ∨ st = TASK_STATE_ARMED →
  task_inv (Config (RxeTask TASK_STATE_BUSY None ret sc ct rn qu ki) (moved a (Some AtCall) m) log).
Proof using Hp Hinv.
  destruct Hinv as [Hraw Hlk Hone Hst Hpe Hre Hdo Hru Hso]. cbn in *. intros -> Hs. split; cbn.
  - by apply none_moved.
  - by apply (lock_released _ _ _ lk (AtAgain r)).
  - apply owner_same; [|done]. by exists (AtAgain r).
  - right. split; [by left|]. by apply some_here.
  - intros _. right. right. by apply some_here.
  - apply ret_moved; [by intros r' [|]|by intros b p0 r' _; apply Hre].
  - done.
  - by apply run_moved.
  - done.
Qed.

Lemma keeps_finish r : p = AtAgain r → r ≠ 0 → st = TASK_STATE_BUSY →
  task_inv (Config (RxeTask TASK_STATE_START None ret sc ct rn qu ki) (moved a (Some (AtExit r)) m) log).
Proof using Hp Hinv.
  destruct Hinv as [Hraw Hlk Hone Hst Hpe Hre Hdo Hru Hso]. cbn in *. intros -> Hr0 ->.
  assert (Hno : none_at owner (moved a (Some (AtExit r)) m)) by (by apply (none_owner_moved _ _ _ (AtAgain r))). split; cbn.
  - by apply none_moved.
  - by apply (lock_released _ _ _ lk (AtAgain r)).
  - by apply owner_same.
  - by left.
  - intros Hu. destruct (Hpe Hu) as [?|[?|Hc]]; [by left|done|]. right. right. apply some_moved; [|done].
    intros p0 Hp0. rewrite Hp in Hp0. by injection Hp0 as <-.
  - apply ret_moved; [by intros r' [|]|by intros b p0 r' _; apply Hre].
  - intros _. rewrite (Hre a _ r Hp) by by right. congruence.
  - by apply run_moved.
  - done.
Qed.

(** The activation returns. *)
Lemma keeps_exit r rn' : p = AtExit r → (∀ b, rn' = Some b → rn = Some b ∧ b ≠ a) →
  task_inv (Config (RxeTask st lk r sc ct rn' qu ki) (moved a None m) log).
Proof using Hp Hinv.
  destruct Hinv as [Hraw Hlk Hone Hst Hpe Hre Hdo Hru Hso]. cbn in *. intros -> Hrn. split; cbn.
  - by apply none_moved.
  - by apply (lock_same _ _ _ _ (AtExit r)).
  - by apply owner_same.
  - destruct Hst as [[Hs Hn]|[Hs Hn]]; [left|right]; (split; [done|]); [by apply none_moved|]. apply some_moved; [|done].
    intros p0 Hp0. rewrite Hp in Hp0. by injection Hp0 as <-.
  - intros Hu. destruct (Hpe Hu) as [?|[?|Hc]]; [by left|by right; left|]. right. right. apply some_moved; [|done].
    intros p0 Hp0. rewrite Hp in Hp0. by injection Hp0 as <-.
  - apply ret_moved; [by intros r' [|]|by intros b p0 r' _; apply Hre].
  - done.
  - intros b Hb. destruct (Hrn b Hb) as [Hb1 Hb2]. destruct (Hru b Hb1) as [q Hq]. exists q. rewrite moved_lookup. auto.
  - done.
Qed.
End keeps.

Lemma leave_run (rn : option nat) a b :
  (if decide (rn = Some a) then None else rn) = Some b → rn = Some b ∧ b ≠ a.
Proof. case_decide; [done|]. intros ->. split; [done|]. congruence. Qed.

Lemma do_task_keeps a ret c c' : task_inv c → rxe_do_task a ret c = Some c' → task_inv c'.
Proof.
  destruct c as [[st lk rt sc ct rn qu ki] m log]. intros Hi. unfold rxe_do_task. cbn [c_acts]. destruct (m !! a) as [p|] eqn:Hp; [|done].
  cbn [mbind option_bind]. pose proof (ti_raw _ Hi a p Hp) as Hraw.
  assert (Hst : owner p = true → st = TASK_STATE_BUSY ∨ st = TASK_STATE_ARMED).
  { intros Ho. destruct (ti_state _ Hi) as [[_ Hn]|[Hs _]]; [|exact Hs]. pose proof (Hn a p Hp). congruence. }
  destruct p; try done; cbn in *.
  - destruct lk; [done|]. intros [= <-]. by apply (keeps_acquire m log st None rt sc ct rn qu ki a AtLock Hp Hi AtSwitch); try intros r [|].
  - unfold first_switch. cbn. destruct (Z.eqb_spec st TASK_STATE_START) as [->|Hs].
    { intros [= <-]. exact (keeps_start m log _ lk rt sc ct rn qu ki a _ Hp Hi eq_refl eq_refl). }
    destruct (Z.eqb_spec st TASK_STATE_BUSY) as [->|Hb]; intros [= <-].
    + apply (keeps_arm m log _ lk rt sc ct rn qu ki a _ Hp Hi); [done|by left|apply leave_run].
    + destruct (ti_state _ Hi) as [[? _]|[[?|E] _]]; [done..|]. cbn in E. subst st.
      apply (keeps_arm m log _ lk rt sc ct rn qu ki a _ Hp Hi); [done|by right|apply leave_run].
  - intros [= <-]. by apply (keeps_call m log st lk rt sc ct rn qu ki a AtCall Hp Hi).
  - intros [= <-]. by apply (keeps_return m log st lk rt sc ct rn qu ki a InFunc Hp Hi).
  - destruct lk; [done|]. intros [= <-].
    apply (keeps_acquire m log st None rt sc ct rn qu ki a (AtRelock ret0) Hp Hi (AtAgain ret0)); try done. intros r [|[= <-]]; [done|by left].
  - unfold second_switch. cbn. destruct (Z.eqb_spec st TASK_STATE_BUSY) as [->|Hb].
    + destruct (Z.eqb_spec ret0 0) as [->|Hr]; intros [= <-].
      * apply (keeps_again m log _ lk rt sc ct rn qu ki a _ Hp Hi 0); [done|by left].
      * by apply (keeps_finish m log _ lk rt sc ct rn qu ki a _ Hp Hi ret0).
    + destruct (Hst eq_refl) as [?| ->]; [done|]. cbn. intros [= <-].
      apply (keeps_again m log _ lk rt sc ct rn qu ki a _ Hp Hi ret0); [done|by right].
  - intros [= <-]. apply (keeps_exit m log st lk rt sc ct rn qu ki a _ Hp Hi ret0); [done|apply leave_run].
Qed.

(** A new activation. *)
Lemma keeps_enter m log log' st lk ret sc sc' ct rn rn' qu qu' ki a :
  task_inv (Config (RxeTask st lk ret sc ct rn qu ki) m log) → m !! a = None → last_ret log' = last_ret log → (rn' = rn ∨ rn' = Some a) → sched_ok sc' qu' ki →
  task_inv (Config (RxeTask st lk ret sc' ct rn' qu' ki) (moved a (Some AtLock) m) log').
Proof.
  intros [Hraw Hlk Hone Hst Hpe Hre Hdo Hru _] Hp Hl Hrn Hso. cbn in *. split; cbn; rewrite ?Hl.
  - by apply none_moved.
  - by apply lock_new.
  - by apply owner_same.
  - destruct Hst as [[Hs Hn]|[Hs Hn]]; [left|right]; (split; [done|]); [by apply none_moved|]. apply some_moved; [|done]. congruence.
  - intros _. right. right. by apply some_here.
  - intros b p r [[-> [= <-]]|[Hne Hb]]%moved_lookup Hr; [by destruct Hr|]. by apply (Hre b p).
  - done.
  - intros b Hb. destruct Hrn as [-> | ->]; [by apply run_moved with (rn := rn)|]. injection Hb as <-. exists AtLock. rewrite moved_lookup. auto.
  - done.
Qed.

Definition is_raw (l : label) : bool := match l with Raw _ => true | _ => false end.

Lemma step_keeps fast l c c' : is_raw l = false → task_inv c → step fast l c = Some c' → task_inv c'.
Proof.
  intros Hl Hi. destruct l as [a sched in_irq irqs|a ret|a| | | | |]; cbn; [| |..].
  - destruct c as [[st lk rt sc ct rn qu ki] m log]. pose proof (ti_sched _ Hi) as [Hs1 Hs2]. cbn in Hs1, Hs2.
    unfold rxe_run_task, tasklet_schedule. destruct (sched || _).
    + intros [= <-]. destruct Hi. destruct qu, ki; try done; subst sc; split; cbn in *; try done; by left.
    + cbn. destruct (m !! a) eqn:Hp; [done|]. intros [= <-].
      apply (keeps_enter m log _ st lk rt sc _ ct rn _ qu _ ki a); try done; by left.
  - by apply do_task_keeps.
  - destruct c as [[st lk rt sc ct rn qu ki] m log]. unfold tasklet_action. cbn. destruct (m !! a) eqn:Hp; [done|]. destruct rn; [done|].
    pose proof (ti_sched _ Hi) as [Hs1 Hs2]. cbn in Hs1, Hs2. destruct qu; [|done]. destruct ki; [done|]. destruct (ct =? 0); [|done]. cbn.
    intros [= <-]. apply (keeps_enter m log _ st lk rt sc _ ct None _ true _ false a); try done; by right.
  - intros [= <-]. by destruct c, Hi.
  - destruct (0 <? _); [|done]. intros [= <-]. by destruct c, Hi.
  - destruct c as [[st lk rt sc ct rn qu ki] m log]. pose proof (ti_sched _ Hi) as [Hs1 Hs2]. unfold tasklet_kill. cbn in *. destruct sc; [done|].
    intros [= <-]. destruct Hi, qu, ki; by split.
  - destruct c as [[st lk rt sc ct rn qu ki] m log]. pose proof (ti_sched _ Hi) as [Hs1 Hs2]. unfold tasklet_killed. cbn in *. destruct rn; [done|].
    destruct ki; [|done]. intros [= <-]. destruct Hi, qu; by split.
  - done.
Qed.

Lemma steps_keep fast ls : ∀ c c', Forall (λ l, is_raw l = false) ls → task_inv c → steps fast ls c = Some c' → task_inv c'.
Proof.
  induction ls as [|l ls IH]; intros c c' Hl Hi; cbn; [by intros [= <-]|]. apply Forall_cons_1 in Hl as [Hl1 Hl2].
  destruct (step fast l c) as [c1|] eqn:E; [|done]. apply IH; [done|]. by eapply step_keeps.
Qed.

Lemma initial_inv ret : task_inv (initial ret).
Proof.
  split; cbn; try done.
  - intros a. split; [done|]. by intros (p & Hp & _).
  - by left.
Qed.

(** ** Threads exclude each other, and no request is lost *)

Lemma served log l1 l2 : unserved log = false → log = l1 ++ Ran :: l2 → ∃ a, Called a ∈ l1.
Proof.
  intros Hu ->. induction l1 as [|e l1 IH]; [done|]. destruct e as [| |a|a r]; cbn in Hu; [done| |exists a; left|].
  all: destruct (IH Hu) as [b Hb]; exists b; by right.
Qed.

(** Nothing runs or is about to. *)
Definition idle (c : config) : Prop := c_acts c = ∅ ∧ tl_sched (c_task c) = false.

#[export] Instance idle_dec c : Decision (idle c).
Proof. unfold idle. apply _. Defined.

Lemma idle_served c l1 l2 : task_inv c → idle c → c_log c = l1 ++ Ran :: l2 → ∃ a, Called a ∈ l1.
Proof.
  intros [_ _ _ Hs Hp _ _ _ Hso] [He Hsc]. apply served. destruct (unserved (c_log c)) eqn:Eu; [|done].
  destruct (Hp eq_refl) as [Hq|[Ha|(a & p & Ha & _)]]; [| |by rewrite He in Ha].
  { destruct Hso as [H1 H2]. rewrite Hsc, Hq in H1. rewrite Hq in H2. by destruct (tl_kill (c_task c)). }
  destruct Hs as [[Hs _]|[_ (a & p & Hb & _)]]; [by rewrite Ha in Hs|by rewrite He in Hb].
Qed.

(** C10: tasks. Whatever the threads do that call [rxe_run_task], disable, enable and
    kill the tasklet, in whatever order their steps come, but without a thread in
    [__rxe_do_task]: at most one activation is inside the function of the task at
    any time. When all activations have returned and the tasklet is not scheduled,
    the task is in its start state, the last call of the function returned a value
    other than 0, and every request to run was followed by a call of the function,
    but for those that asked for the tasklet while a thread was waiting in
    [tasklet_kill], which are marked as such and only they can be lost. *)
Theorem task_exclusive fast ret ls c :
  Forall (λ l, is_raw l = false) ls → steps fast ls (initial ret) = Some c →
  (∀ a b, c_acts c !! a = Some InFunc → c_acts c !! b = Some InFunc → a = b) ∧
  (idle c → task_state (c_task c) = TASK_STATE_START ∧ last_ret (c_log c) ≠ Some 0 ∧
     ∀ l1 l2, c_log c = l1 ++ Ran :: l2 → ∃ a, Called a ∈ l1) ∧
  (∀ a sched in_irq irqs c', rxe_run_task fast a sched in_irq irqs c = Some c' →
     c_log c' = (if tl_kill (c_task c) && (sched || negb (rxe_fast_path_ok fast in_irq irqs)) then RanKilled else Ran) :: c_log c).
Proof.
  intros Hl E. pose proof (steps_keep _ _ _ _ Hl (initial_inv ret) E) as Hi. split; [|split].
  - intros a b Ha Hb. by apply (ti_owner _ Hi a b InFunc InFunc).
  - intros Hid. destruct (ti_state _ Hi) as [[Hs _]|[_ (a & p & Ha & _)]]; [|by rewrite (proj1 Hid) in Ha].
    split; [done|]. split; [by apply Hi|]. intros l1 l2. by apply idle_served.
  - intros a sched in_irq irqs c'. unfold rxe_run_task. destruct (sched || _); [|destruct (c_acts c !! a); [done|]].
    all: intros [= <-]; cbn; by destruct (tl_kill (c_task c)).
Qed.

(** ** Termination *)

(** The steps an activation has left, when func is done each time, those a
    request causes that comes while func runs, and those of the tasklet. *)
Definition ahead (p : point) : nat :=
  match p with
  | AtLock => 8 | AtSwitch => 7 | AtCall => 5 | InFunc => 4
  | AtRelock ret => if ret =? 0 then 7 else 3
  | AtAgain ret => if ret =? 0 then 6 else 2
  | AtExit _ => 1
  | RawCall | RawFunc | RawExit _ => 0
  end.

Definition total_ahead (m : gmap nat point) : nat := map_fold (λ _ p n, (ahead p + n)%nat) 0%nat m.

Definition work (c : config) : nat :=
  total_ahead (c_acts c) + (if task_state (c_task c) =? TASK_STATE_ARMED then 4 else 0)
  + (if tl_sched (c_task c) then 9 else 0).

Lemma total_insert m a p : m !! a = None → total_ahead (<[a := p]> m) = (ahead p + total_ahead m)%nat.
Proof. intros Ha. unfold total_ahead. by rewrite (map_fold_insert_L (λ _ p n, (ahead p + n)%nat)) by (done || lia). Qed.

Lemma total_delete m a p : m !! a = Some p → total_ahead m = (ahead p + total_ahead (delete a m))%nat.
Proof. intros Ha. rewrite <- (total_insert (delete a m) a) by apply lookup_delete_eq. by rewrite insert_delete_id. Qed.

Lemma total_moved m a p p' : m !! a = Some p → total_ahead m = (ahead p + total_ahead (delete a m))%nat ∧
  total_ahead (<[a := p']> m) = (ahead p' + total_ahead (delete a m))%nat.
Proof.
  intros Ha. split; [by apply total_delete|]. rewrite <- insert_delete_eq. apply total_insert, lookup_delete_eq.
Qed.

(** Steps of activations, of the tasklet and of a thread that kills it, func being
    done. *)
Definition own_step (l : label) : bool :=
  match l with Step _ ret => negb (ret =? 0) | Tasklet _ | Killed => true | _ => false end.

Lemma do_task_works a ret c c' : task_inv c → ret ≠ 0 → rxe_do_task a ret c = Some c' → (work c' < work c)%nat.
Proof.
  destruct c as [[st lk rt sc ct rn qu ki] m log]. intros Hi Hr. unfold rxe_do_task. cbn [c_acts]. destruct (m !! a) as [p|] eqn:Hp; [|done].
  cbn [mbind option_bind]. pose proof (ti_raw _ Hi a p Hp) as Hraw. pose proof (total_delete m a p Hp) as Hd.
  assert (Hm : ∀ p', total_ahead (<[a := p']> m) = (ahead p' + total_ahead (delete a m))%nat) by (intros p'; by apply (total_moved m a p p')).
  unfold work. apply Z.eqb_neq in Hr. destruct p; try done; cbn in *.
  - destruct lk; [done|]. intros [= <-]. cbn. rewrite Hm, Hd. cbn. lia.
  - unfold first_switch. cbn. destruct (Z.eqb_spec st TASK_STATE_START) as [->|Hs].
    { intros [= <-]. cbn. rewrite Hm, Hd. cbn. lia. }
    destruct (Z.eqb_spec st TASK_STATE_BUSY) as [->|Hb]; intros [= <-]; cbn; rewrite Hd; cbn; lia.
  - intros [= <-]. cbn. rewrite Hm, Hd. cbn. lia.
  - intros [= <-]. cbn. rewrite Hm, Hd. cbn. rewrite Hr. lia.
  - destruct lk; [done|]. intros [= <-]. cbn. rewrite Hm, Hd. cbn. destruct (ret0 =? 0); lia.
  - unfold second_switch. cbn. destruct (Z.eqb_spec st TASK_STATE_BUSY) as [->|Hb].
    + destruct (ret0 =? 0); intros [= <-]; cbn; rewrite Hm, Hd; cbn; lia.
    + destruct (ti_state _ Hi) as [[_ Hn]|[[?|E] _]]; [by discriminate (Hn a _ Hp)|done|]. cbn in E. subst st.
      intros [= <-]. cbn. rewrite Hm, Hd. cbn. destruct (ret0 =? 0); lia.
  - intros [= <-]. cbn. rewrite Hd. lia.
Qed.

Lemma own_works fast l c c' : own_step l = true → task_inv c → step fast l c = Some c' → (work c' < work c)%nat.
Proof.
  intros Ho Hi. destruct l as [|a ret|a| | | | |]; try done; cbn in *.
  - apply do_task_works; [done|]. apply negb_true_iff in Ho. by apply Z.eqb_neq.
  - destruct c as [[st lk rt sc ct rn qu ki] m log]. unfold tasklet_action, work. cbn. destruct (m !! a) eqn:Hp; [done|]. destruct rn; [done|].
    pose proof (ti_sched _ Hi) as [Hs1 Hs2]. cbn in Hs1, Hs2. destruct qu; [|done]. destruct ki; [done|]. subst sc.
    destruct (ct =? 0); [|done]. cbn. intros [= <-]. cbn. rewrite total_insert by done. cbn. lia.
  - destruct c as [[st lk rt sc ct rn qu ki] m log]. unfold tasklet_killed, work. cbn. destruct rn; [done|].
    pose proof (ti_sched _ Hi) as [Hs1 Hs2]. cbn in Hs1, Hs2. destruct ki; [|done]. destruct qu; [done|]. subst sc. intros [= <-]. cbn. lia.
Qed.

(** Someone can go on as long as there is something to do. *)
Lemma task_progress fast c : task_inv c → tl_count (c_task c) = 0 → ¬ idle c →
  ∃ l c', own_step l = true ∧ step fast l c = Some c'.
Proof.
  intros Hi Hc Hn. destruct (task_lock (c_task c)) as [a|] eqn:El.
  - destruct (proj1 (ti_lock _ Hi a) El) as (p & Hp & Hl). exists (Step a 1). cbn. unfold rxe_do_task. rewrite Hp.
    destruct p; try done; cbn; eexists; split; done.
  - destruct (decide (c_acts c = ∅)) as [He|He].
    + assert (Hs : tl_sched (c_task c) = true) by (destruct (tl_sched (c_task c)) eqn:E; [done|by destruct Hn]).
      assert (Hr : tl_run (c_task c) = None).
      { destruct (tl_run (c_task c)) as [a|] eqn:E; [|done]. destruct (ti_run _ Hi a E) as [p Hp]. by rewrite He in Hp. }
      destruct (ti_sched _ Hi) as [H1 H2]. destruct (tl_queued (c_task c)) eqn:Eq.
      * exists (Tasklet 0). cbn. unfold tasklet_action. rewrite He, lookup_empty, Hr, Eq, Hc. cbn. eexists. done.
      * exists Killed. cbn. unfold tasklet_killed. rewrite Hr. rewrite Hs in H1. destruct (tl_kill (c_task c)); [|done]. eexists. done.
    + apply map_choose in He as (a & p & Hp). pose proof (ti_raw _ Hi a p Hp) as Hraw. exists (Step a 1). cbn.
      unfold rxe_do_task, spin_lock. rewrite Hp. destruct p; try done; cbn; rewrite ?El; cbn; eexists; split; done.
Qed.

Lemma own_count fast l c c' : own_step l = true → step fast l c = Some c' → tl_count (c_task c') = tl_count (c_task c).
Proof.
  intros Ho. destruct l as [|a ret|a| | | | |]; try done; cbn.
  - unfold rxe_do_task. destruct (c_acts c !! a) as [p|]; [|done]. cbn.
    destruct p; cbn; unfold spin_lock, first_switch, second_switch; repeat case_match; intros; simplify_eq/=; done.
  - unfold tasklet_action. repeat case_match; intros; simplify_eq/=; done.
  - unfold tasklet_killed. repeat case_match; intros; simplify_eq/=; done.
Qed.

(** C27: tasks come to an end. Once no more requests come in, the tasklet is not
    disabled and the function of the task is done whenever it is called, the
    activations and the tasklet can make no more steps than a number fixed at
    the start, and they go on until all of them have returned and every request,
    but for those made while a thread was killing the tasklet, was followed by a
    call of the function. *)
Theorem task_settles fast ret ls c ls' c' :
  Forall (λ l, is_raw l = false) ls → steps fast ls (initial ret) = Some c → tl_count (c_task c) = 0 →
  Forall (λ l, own_step l = true) ls' → steps fast ls' c = Some c' →
  (length ls' + work c' ≤ work c)%nat ∧
  (idle c' ∧ (∀ l1 l2, c_log c' = l1 ++ Ran :: l2 → ∃ a, Called a ∈ l1) ∨
   ∃ l c2, own_step l = true ∧ step fast l c' = Some c2).
Proof.
  intros Hl E Hc Ho E'. pose proof (steps_keep _ _ _ _ Hl (initial_inv ret) E) as Hi. clear E Hl.
  revert c Hi Hc E'. induction Ho as [|l ls' Ho1 Ho IH]; intros c Hi Hc E'.
  - injection E' as <-. split; [cbn; lia|]. destruct (decide (idle c)) as [Hid|Hn]; [left|right; by apply task_progress].
    split; [done|]. intros l1 l2. by apply idle_served.
  - cbn in E'. destruct (step fast l c) as [c1|] eqn:E1; [|done]. cbn in E'.
    destruct (IH c1) as [Hw Hr]; [eapply step_keeps; [|done..]; by destruct l|by rewrite (own_count fast l c c1)|done|].
    pose proof (own_works fast l c c1 Ho1 Hi E1). cbn [length]. split; [lia|done].
Qed.

(** ** Disabling a task *)

(** C36: [rxe_disable_task] only disables the tasklet. With the default value 2 of
    the module parameters, [rxe_run_task] calls the function directly: in every
    state in which a thread is in [__rxe_do_task] between disabling and
    enabling the task, as a reset of the queue pair is, another thread that asks
    for the task, which is not running, gets into the function as well. *)
Theorem disable_does_not_stop c a b ret :
  0 < tl_count (c_task c) → c_acts c !! a = Some RawFunc → c_acts c !! b = None →
  task_lock (c_task c) = None → task_state (c_task c) = TASK_STATE_START →
  ∃ c', steps 2 [Run b false false false; Step b ret; Step b ret; Step b ret] c = Some c' ∧
    0 < tl_count (c_task c') ∧ c_acts c' !! a = Some RawFunc ∧ c_acts c' !! b = Some InFunc.
Proof.
  intros Hc Ha Hb Hl Hs. assert (Hab : a ≠ b) by congruence.
  destruct c as [[st lk rt sc ct rn qu ki] m log]. cbn in *. subst st lk.
  eexists. split.
  { cbn [steps step]. unfold rxe_run_task. cbn. rewrite Hb. cbn. unfold rxe_do_task at 3. cbn. rewrite lookup_insert_eq. cbn.
    unfold rxe_do_task at 2. cbn. rewrite lookup_insert_eq. cbn. unfold rxe_do_task. cbn. rewrite lookup_insert_eq. cbn. reflexivity. }
  cbn. by rewrite !lookup_insert_ne, lookup_insert_eq by done.
Qed.

(** ** Examples *)

(** A request comes while func runs and is armed; func is called again. *)
Definition example_schedule : list label :=
  [Run 0 false false false; Step 0 0; Step 0 0; Step 0 0; Run 1 false false false; Step 1 0; Step 1 0; Step 0 (-11); Step 0 0; Step 0 0;
   Step 0 0; Step 0 (-11); Step 0 0; Step 0 0; Step 0 0].

Lemma task_exclusive_witness : ∃ c, steps 2 example_schedule (initial 0) = Some c ∧ idle c ∧
  c_log c = [Returned 0 (-11); Called 0; Returned 0 (-11); Ran; Called 0; Ran] ∧ ∃ a, Called a ∈ [Returned 0 (-11); Called 0; Returned 0 (-11)].
Proof.
  destruct (steps 2 example_schedule (initial 0)) as [c|] eqn:E; [|by vm_compute in E].
  destruct (task_exclusive 2 0 example_schedule c) as (_ & Hi & _); [by repeat constructor|exact E|].
  assert (Hid : idle c ∧ c_log c = [Returned 0 (-11); Called 0; Returned 0 (-11); Ran; Called 0; Ran]).
  { vm_compute in E. injection E as <-. by split. }
  destruct Hid as [Hid Hlog]. exists c. split; [done|]. split; [done|]. split; [done|]. destruct (Hi Hid) as (_ & _ & Hs).
  by apply (Hs _ [Called 0; Ran]).
Defined.

Lemma task_settles_witness : ∃ c c', steps 2 (take 6 example_schedule) (initial 0) = Some c ∧
  steps 2 (Step 1 1 :: replicate 8 (Step 0 1)) c = Some c' ∧ (9 + work c' ≤ work c)%nat ∧ idle c'.
Proof.
  destruct (steps 2 (take 6 example_schedule) (initial 0)) as [c|] eqn:E; [|by vm_compute in E].
  destruct (steps 2 (Step 1 1 :: replicate 8 (Step 0 1)) c) as [c'|] eqn:E'; [|vm_compute in E; injection E as <-; by vm_compute in E'].
  exists c, c'. split; [done|]. split; [done|].
  destruct (task_settles 2 0 (take 6 example_schedule) c (Step 1 1 :: replicate 8 (Step 0 1)) c') as [Hw _].
  - by repeat constructor.
  - exact E.
  - vm_compute in E. by injection E as <-.
  - by repeat constructor.
  - exact E'.
  - split; [exact Hw|]. vm_compute in E. injection E as <-. vm_compute in E'. injection E' as <-. by split.
Defined.

Lemma disable_does_not_stop_witness : ∃ c c', steps 2 [Disable; Raw 0; Step 0 0] (initial 0) = Some c ∧
  steps 2 [Run 1 false false false; Step 1 0; Step 1 0; Step 1 0] c = Some c' ∧
  c_acts c' !! 0%nat = Some RawFunc ∧ c_acts c' !! 1%nat = Some InFunc.
Proof.
  destruct (steps 2 [Disable; Raw 0; Step 0 0] (initial 0)) as [c|] eqn:E; [|by vm_compute in E].
  destruct (disable_does_not_stop c 0 1 0) as (c' & E' & _ & H1 & H2).
  - vm_compute in E. by injection E as <-.
  - vm_compute in E. by injection E as <-.
  - vm_compute in E. by injection E as <-.
  - vm_compute in E. by injection E as <-.
  - vm_compute in E. by injection E as <-.
  - by exists c, c'.
Defined.

(** A request for the tasklet that comes while another thread kills it is lost. *)
Lemma kill_loses_request : ∃ c, steps 0 [Kill; Run 0 true false false; Killed] (initial 0) = Some c ∧
  idle c ∧ c_log c = [RanKilled].
Proof. eexists. split; [vm_compute; reflexivity|]. by split. Qed.
