(* ===== verification/State.v ===== *)
(** * Queue pairs and the device as the protocol engines see them
    (rxe_verbs.h, rxe_loc.h)

    The requester, the completer and the responder work on one queue pair and
    on what it shares with others: memory regions, completion queues, shared
    receive queues and the arbiter. They are written in the monad [eng], which
    passes this state along, records what leaves the engine (tasks run, timer
    and user events) in order, and takes the answers of the skb allocator and
    of the network interface from lists. [None] stands for an access through a
    pointer that is null, out of bounds or of the wrong union member, and for a
    loop that outlives its fuel. *)

From stdpp Require Import gmap.
From S2P Require Import Prelude Queue Opcode Hdr Verbs Mr Cq.

(** ** Queue pair data *)

Inductive rxe_qp_state : Type :=
  | QP_STATE_RESET | QP_STATE_INIT | QP_STATE_READY | QP_STATE_DRAIN
  | QP_STATE_DRAINED | QP_STATE_ERROR.

#[export] Instance rxe_qp_state_eq_dec : EqDecision rxe_qp_state.
Proof. solve_decision. Defined.

Record rxe_req_info := ReqInfo {
  req_state : rxe_qp_state;
  req_wqe_index : Z;
  req_psn : Z;
  req_opcode : Z;
  req_rd_atomic : Z;
  req_wait_fence : bool;
  req_need_rd_atomic : bool;
  req_wait_psn : bool;
  req_need_retry : bool;
  req_noack_pkts : Z
}.

#[export] Instance eta_rxe_req_info : Eta rxe_req_info := fun r =>
  ReqInfo (req_state r) (req_wqe_index r) (req_psn r) (req_opcode r) (req_rd_atomic r)
    (req_wait_fence r) (req_need_rd_atomic r) (req_wait_psn r) (req_need_retry r)
    (req_noack_pkts r).

Record rxe_comp_info := CompInfo {
  comp_psn : Z;
  comp_opcode : Z;
  comp_timeout : bool;
  comp_timeout_retry : bool;
  comp_retry_cnt : Z;
  comp_rnr_retry : Z
}.

#[export] Instance eta_rxe_comp_info : Eta rxe_comp_info := fun r =>
  CompInfo (comp_psn r) (comp_opcode r) (comp_timeout r) (comp_timeout_retry r)
    (comp_retry_cnt r) (comp_rnr_retry r).

Inductive rdatm_res_state : Type :=
  | rdatm_res_state_next | rdatm_res_state_new | rdatm_res_state_replay.

#[export] Instance rdatm_res_state_eq_dec : EqDecision rdatm_res_state.
Proof. solve_decision. Defined.

(** The first word of the union in [struct resp_res] is the stored packet of an
    atomic operation or the region of a read; the other members are the
    read's alone and keep their values when an atomic reuses the resource. *)
Inductive res_union : Type :=
  | res_null
  | res_skb (skb : rxe_pkt_info)
  | res_mr (mr : mem_handle).

Record resp_res := RespRes {
  res_type : Z;
  res_first_psn : Z;
  res_last_psn : Z;
  res_cur_psn : Z;
  res_state : rdatm_res_state;
  res_ptr : res_union;
  res_va_org : Z;
  res_rkey : Z;
  res_length : Z;
  res_va : Z;
  res_resid : Z
}.

#[export] Instance eta_resp_res : Eta resp_res := fun r =>
  RespRes (res_type r) (res_first_psn r) (res_last_psn r) (res_cur_psn r) (res_state r) (res_ptr r)
    (res_va_org r) (res_rkey r) (res_length r) (res_va r) (res_resid r).

(** [qp->resp.wqe] points into the receive queue or to the copy of an element
    of a shared receive queue; [resp_res] is an index into the resources. *)
Inductive rwqe_ptr : Type := rwqe_rq (addr : Z) | rwqe_srq.

Record rxe_resp_info := RespInfo {
  resp_state : rxe_qp_state;
  resp_msn : Z;
  resp_psn : Z;
  resp_opcode : Z;
  resp_drop_msg : bool;
  resp_goto_error : bool;
  resp_sent_psn_nak : bool;
  resp_status : Z;
  resp_aeth_syndrome : Z;
  resp_wqe : option rwqe_ptr;
  resp_va : Z;
  resp_mr : option mem_handle;
  resp_resid : Z;
  resp_rkey : Z;
  resp_atomic_orig : Z;
  resp_srq_wqe : rxe_recv_wqe;
  resp_resources : option (list resp_res);
  resp_res_head : Z;
  resp_res_tail : Z;
  resp_cur_res : option nat
}.

#[export] Instance eta_rxe_resp_info : Eta rxe_resp_info := fun r =>
  RespInfo (resp_state r) (resp_msn r) (resp_psn r) (resp_opcode r) (resp_drop_msg r)
    (resp_goto_error r) (resp_sent_psn_nak r) (resp_status r) (resp_aeth_syndrome r) (resp_wqe r)
    (resp_va r) (resp_mr r) (resp_resid r) (resp_rkey r) (resp_atomic_orig r) (resp_srq_wqe r)
    (resp_resources r) (resp_res_head r) (resp_res_tail r) (resp_cur_res r).

(** The members of [struct ib_qp_attr] the driver keeps and uses. *)
Record ib_qp_attr := QpAttr {
  qa_qp_state : Z;
  qa_cur_qp_state : Z;
  qa_path_mtu : Z;
  qa_path_mig_state : Z;
  qa_qkey : Z;
  qa_rq_psn : Z;
  qa_sq_psn : Z;
  qa_dest_qp_num : Z;
  qa_qp_access_flags : Z;
  qa_pkey_index : Z;
  qa_en_sqd_async_notify : Z;
  qa_sq_draining : bool;
  qa_max_rd_atomic : Z;
  qa_max_dest_rd_atomic : Z;
  qa_min_rnr_timer : Z;
  qa_port_num : Z;
  qa_timeout : Z;
  qa_retry_cnt : Z;
  qa_rnr_retry : Z;
  qa_alt_port_num : Z;
  qa_alt_pkey_index : Z;
  qa_alt_timeout : Z
}.

#[export] Instance eta_ib_qp_attr : Eta ib_qp_attr := fun r =>
  QpAttr (qa_qp_state r) (qa_cur_qp_state r) (qa_path_mtu r) (qa_path_mig_state r) (qa_qkey r)
    (qa_rq_psn r) (qa_sq_psn r) (qa_dest_qp_num r) (qa_qp_access_flags r) (qa_pkey_index r)
    (qa_en_sqd_async_notify r) (qa_sq_draining r) (qa_max_rd_atomic r) (qa_max_dest_rd_atomic r)
    (qa_min_rnr_timer r) (qa_port_num r) (qa_timeout r) (qa_retry_cnt r) (qa_rnr_retry r)
    (qa_alt_port_num r) (qa_alt_pkey_index r) (qa_alt_timeout r).

(** [struct ib_qp_cap]; a queue pair keeps them as the limits of its queues. *)
Record ib_qp_cap := QpCap {
  cap_max_send_wr : Z;
  cap_max_recv_wr : Z;
  cap_max_send_sge : Z;
  cap_max_recv_sge : Z;
  cap_max_inline_data : Z
}.

#[export] Instance eta_ib_qp_cap : Eta ib_qp_cap := fun r =>
  QpCap (cap_max_send_wr r) (cap_max_recv_wr r) (cap_max_send_sge r) (cap_max_recv_sge r)
    (cap_max_inline_data r).

(** [qp_ref] is the reference count of the pool element. [qp_on_arbiter] says
    whether the queue pair is linked into the arbiter's list. A timer is the
    time it expires, [None] when it is not pending. [qp_grp_list] names the
    multicast groups joined by their GIDs. *)
Record rxe_qp := Qp {
  qp_qp_num : Z;
  qp_qp_type : Z;
  qp_ref : Z;
  qp_attr : ib_qp_attr;
  qp_valid : bool;
  qp_mtu_bytes : Z;
  qp_is_user : bool;
  qp_pd : Z;
  qp_srq : option Z;
  qp_scq : Z;
  qp_rcq : Z;
  qp_sq_sig_type : Z;
  qp_has_event_handler : bool;
  qp_sq : rxe_queue rxe_send_wqe;
  qp_rq : option (rxe_queue rxe_recv_wqe);
  qp_pri_av : rxe_av;
  qp_req_pkts : list rxe_pkt_info;
  qp_resp_pkts : list rxe_pkt_info;
  qp_send_pkts : list rxe_pkt_info;
  qp_req : rxe_req_info;
  qp_comp : rxe_comp_info;
  qp_resp : rxe_resp_info;
  qp_on_arbiter : bool;
  qp_ssn : Z;
  qp_req_skb_in : Z;
  qp_req_skb_out : Z;
  qp_resp_skb_out : Z;
  qp_need_req_skb : bool;
  qp_retrans_timer : option Z;
  qp_timeout_jiffies : Z;
  qp_rnr_nak_timer : option Z;
  qp_alt_av : rxe_av;
  qp_grp_list : list (Z * Z);
  qp_cap : ib_qp_cap
}.

#[export] Instance eta_rxe_qp : Eta rxe_qp := fun r =>
  Qp (qp_qp_num r) (qp_qp_type r) (qp_ref r) (qp_attr r) (qp_valid r) (qp_mtu_bytes r) (qp_is_user r)
    (qp_pd r) (qp_srq r) (qp_scq r) (qp_rcq r) (qp_sq_sig_type r) (qp_has_event_handler r) (qp_sq r)
    (qp_rq r) (qp_pri_av r) (qp_req_pkts r) (qp_resp_pkts r) (qp_send_pkts r) (qp_req r) (qp_comp r)
    (qp_resp r) (qp_on_arbiter r) (qp_ssn r) (qp_req_skb_in r) (qp_req_skb_out r) (qp_resp_skb_out r)
    (qp_need_req_skb r) (qp_retrans_timer r) (qp_timeout_jiffies r) (qp_rnr_nak_timer r)
    (qp_alt_av r) (qp_grp_list r) (qp_cap r).

Definition qp_type (qp : rxe_qp) : Z := qp_qp_type qp.

(** ** The device *)

Record rxe_srq := Srq {
  srq_queue : rxe_queue rxe_recv_wqe;
  srq_max_wr : Z;
  srq_max_sge : Z;
  srq_limit : Z;
  srq_error : bool;
  srq_has_event_handler : bool
}.

#[export] Instance eta_rxe_srq : Eta rxe_srq := fun r =>
  Srq (srq_queue r) (srq_max_wr r) (srq_max_sge r) (srq_limit r) (srq_error r)
    (srq_has_event_handler r).

Record rxe_port := Port {
  port_lid : Z;
  port_max_mtu : Z;
  port_pkey_tbl : list Z;
  port_guid_tbl : list Z;
  port_subnet_prefix : Z;
  port_mtu_cap : Z;
  port_qp_smi_index : Z;
  port_qp_gsi_index : Z;
  port_bad_pkey_cntr : Z;
  port_qkey_viol_cntr : Z
}.

#[export] Instance eta_rxe_port : Eta rxe_port := fun r =>
  Port (port_lid r) (port_max_mtu r) (port_pkey_tbl r) (port_guid_tbl r) (port_subnet_prefix r)
    (port_mtu_cap r) (port_qp_smi_index r) (port_qp_gsi_index r) (port_bad_pkey_cntr r)
    (port_qkey_viol_cntr r).

(** The limits of the device: [struct ib_device_attr] and [max_inline_data]. *)
Record ib_device_attr := DeviceAttr {
  da_max_qp_wr : Z;
  da_max_sge : Z;
  da_max_inline_data : Z;
  da_max_qp_rd_atom : Z;
  da_max_mcast_qp_attach : Z;
  da_max_srq_wr : Z;
  da_max_srq_sge : Z
}.

(** [rdev_arbiter] is the arbiter's list of queue pairs with packets to send. *)
Record rxe_dev := Rdev {
  rdev_mem : mem_dev;
  rdev_cqs : gmap Z rxe_cq;
  rdev_srqs : gmap Z rxe_srq;
  rdev_ports : list rxe_port;
  rdev_arbiter : list Z;
  rdev_req_skb_in : Z;
  rdev_resp_skb_in : Z;
  rdev_req_skb_out : Z;
  rdev_resp_skb_out : Z;
  rdev_xmit_errors : Z;
  rdev_attr : ib_device_attr
}.

#[export] Instance eta_rxe_dev : Eta rxe_dev := fun r =>
  Rdev (rdev_mem r) (rdev_cqs r) (rdev_srqs r) (rdev_ports r) (rdev_arbiter r) (rdev_req_skb_in r)
    (rdev_resp_skb_in r) (rdev_req_skb_out r) (rdev_resp_skb_out r) (rdev_xmit_errors r)
    (rdev_attr r).

(** ** Parameters: module parameters, and the kernel functions the engines
    call. [skb_junk] is what a freshly allocated packet buffer contains. *)

Class Params : Type := {
  rxe_crc_disable : bool;
  rxe_bypass_arbiter : bool;
  rxe_max_skb_per_qp : Z;
  rxe_max_req_comp_gap : Z;
  rxe_max_pkt_per_ack : Z;
  usecs_to_jiffies : Z → Z;
  skb_junk : Z → Z;
  rxe_loopback_mad_grh_fix : bool
}.

(** ** Events *)

Inductive task_id : Type := task_req | task_comp | task_resp | task_arbiter.

#[export] Instance task_id_eq_dec : EqDecision task_id.
Proof. solve_decision. Defined.

(** [EvTask t sched] is a call of [rxe_run_task]; [EvSent] is a packet handed
    to the interface (or to the loopback), [EvFree] a packet freed. *)
Inductive qp_event : Type :=
  | EvTask (t : task_id) (sched : bool)
  | EvSqDrained
  | EvSrqLimit
  | EvCq (cq : Z) (e : cq_event)
  | EvSent (pkt : rxe_pkt_info)
  | EvFree (pkt : rxe_pkt_info).

(** ** The engine monad *)

Record eng_state := Es {
  es_dev : rxe_dev;
  es_qp : rxe_qp;
  es_alloc : list bool;
  es_send : list Z;
  es_jiffies : Z;
  es_ev : list qp_event
}.

#[export] Instance eta_eng_state : Eta eng_state := fun r =>
  Es (es_dev r) (es_qp r) (es_alloc r) (es_send r) (es_jiffies r) (es_ev r).

Definition eng (A : Type) : Type := eng_state → option (A * eng_state).

#[export] Instance eng_ret : MRet eng := λ A a s, Some (a, s).
#[export] Instance eng_bind : MBind eng := λ A B f m s,
  match m s with
  | Some (a, s') => f a s'
  | None => None
  end.

Definition wild {A} : eng A := λ _, None.
Definition gets {A} (f : eng_state → A) : eng A := λ s, Some (f s, s).
Definition modify (f : eng_state → eng_state) : eng unit := λ s, Some (tt, f s).

Definition get_qp : eng rxe_qp := gets es_qp.
Definition get_dev : eng rxe_dev := gets es_dev.
Definition mod_qp (f : rxe_qp → rxe_qp) : eng unit := modify (λ s, s <| es_qp ::= f |>).
Definition mod_dev (f : rxe_dev → rxe_dev) : eng unit := modify (λ s, s <| es_dev ::= f |>).
Definition mod_req (f : rxe_req_info → rxe_req_info) : eng unit := mod_qp (λ q, q <| qp_req ::= f |>).
Definition mod_comp (f : rxe_comp_info → rxe_comp_info) : eng unit :=
  mod_qp (λ q, q <| qp_comp ::= f |>).
Definition mod_resp (f : rxe_resp_info → rxe_resp_info) : eng unit :=
  mod_qp (λ q, q <| qp_resp ::= f |>).
Definition emit (e : qp_event) : eng unit := modify (λ s, s <| es_ev ::= (λ l, l ++ [e]) |>).
Definition rxe_run_task (t : task_id) (sched : bool) : eng unit := emit (EvTask t sched).

(** The value of a pointer that must not be null. *)
Definition deref {A} (o : option A) : eng A := match o with Some a => mret a | None => wild end.

Definition when (b : bool) (m : eng unit) : eng unit := if b then m else mret tt.

(** The next answer of the allocator; it succeeds once the list is used up. *)
Definition next_alloc : eng bool :=
  λ s, match es_alloc s with
       | [] => Some (true, s)
       | b :: l => Some (b, s <| es_alloc := l |>)
       end.

(** The next answer of the interface's send operation, 0 by default. *)
Definition next_send : eng Z :=
  λ s, match es_send s with
       | [] => Some (0, s)
       | b :: l => Some (b, s <| es_send := l |>)
       end.

(** *** Objects reached through the queue pair *)

Definition sq_wqe (addr : Z) : eng rxe_send_wqe :=
  q ← get_qp; deref (elem_at (qp_sq q) addr).

Definition upd_wqe (addr : Z) (f : rxe_send_wqe → rxe_send_wqe) : eng unit :=
  w ← sq_wqe addr; mod_qp (λ q, q <| qp_sq ::= λ sq, store_at sq addr (f w) |>).

(** A list of skbs: [skb_dequeue]. *)
Definition dequeue_resp_pkt : eng (option rxe_pkt_info) :=
  q ← get_qp;
  match qp_resp_pkts q with
  | [] => mret None
  | p :: l => mod_qp (λ q, q <| qp_resp_pkts := l |>);; mret (Some p)
  end.

Definition dequeue_req_pkt : eng (option rxe_pkt_info) :=
  q ← get_qp;
  match qp_req_pkts q with
  | [] => mret None
  | p :: l => mod_qp (λ q, q <| qp_req_pkts := l |>);; mret (Some p)
  end.

Definition qp_drop_ref : eng unit := mod_qp (λ q, q <| qp_ref ::= (λ n, n - 1) |>).
Definition qp_add_ref : eng unit := mod_qp (λ q, q <| qp_ref ::= (λ n, n + 1) |>).

Fixpoint emit_cq (cq : Z) (l : list cq_event) : eng unit :=
  match l with
  | [] => mret tt
  | e :: l => emit (EvCq cq e);; emit_cq cq l
  end.

(** [rxe_cq_post] on a completion queue of the device. *)
Definition cq_post (id : Z) (wc : ib_wc) (solicited : bool) : eng (result unit) :=
  dev ← get_dev;
  cq ← deref (rdev_cqs dev !! id);
  let '(cq, ev, r) := rxe_cq_post cq wc solicited in
  mod_dev (λ d, d <| rdev_cqs ::= <[id := cq]> |>);;
  emit_cq id ev;;
  mret r.

Definition mem_unref (h : mem_handle) : eng unit :=
  mod_dev (λ d, d <| rdev_mem ::= λ m, mem_drop_ref m h |>).

Definition mem_get (h : mem_handle) : eng rxe_mem :=
  dev ← get_dev; deref (pool_of (rdev_mem dev) h.1 !! h.2).

(** [copy_data] on the device's memory. *)
Definition eng_copy_data (access : Z) (dma : rxe_dma_info) (addr : list Z) (length : Z)
    (dir : copy_direction) (crc : option Z) : eng (rxe_dma_info * list Z * option Z * result unit) :=
  q ← get_qp; dev ← get_dev;
  o ← deref (copy_data (rdev_mem dev) (qp_pd q) access dma addr length dir crc);
  mod_dev (λ d, d <| rdev_mem := co_dev o |>);;
  mret (co_dma o, co_addr o, co_crc o, co_res o).

(** ** rxe_qp_error (rxe_qp.c): [comp_task] is [__rxe_do_task(&qp->comp.task)] *)
Definition rxe_qp_error (comp_task : eng unit) : eng unit :=
  mod_req (λ r, r <| req_state := QP_STATE_ERROR |>);;
  mod_resp (λ r, r <| resp_state := QP_STATE_ERROR |>);;
  rxe_run_task task_resp true;;
  q ← get_qp;
  (if qp_type q =? IB_QPT_RC then rxe_run_task task_comp true else comp_task);;
  rxe_run_task task_req true.

(** ** Reasoning about engine code

    [wp F m Q s]: running [m] from [s] gives a result that satisfies [Q], or
    none at all if [F] holds. With [F := False] it says that [m] returns, with
    [F := True] what is the case when it does. *)

Definition wp {A} (F : Prop) (m : eng A) (Q : A → eng_state → Prop) (s : eng_state) : Prop :=
  match m s with Some (a, s') => Q a s' | None => F end.

Section wp.
Context {A B : Type} (F : Prop).

Lemma wp_bind (m : eng A) (f : A → eng B) Q s :
  wp F m (λ a s', wp F (f a) Q s') s → wp F (x ← m; f x) Q s.
Proof. unfold wp, mbind, eng_bind. by destruct (m s) as [[a s']|]. Qed.

Lemma wp_mono (m : eng A) (Q Q' : A → eng_state → Prop) s :
  wp F m Q s → (∀ a s', Q a s' → Q' a s') → wp F m Q' s.
Proof. unfold wp. destruct (m s) as [[a s']|]; auto. Qed.

Lemma wp_and (m : eng A) (Q Q' : A → eng_state → Prop) s :
  wp F m Q s → wp True m Q' s → wp F m (λ a s', Q a s' ∧ Q' a s') s.
Proof. unfold wp. destruct (m s) as [[a s']|]; auto. Qed.

Lemma wp_ret (a : A) (Q : A → eng_state → Prop) s : Q a s → wp F (mret a) Q s.
Proof. done. Qed.

Lemma wp_wild (Q : A → eng_state → Prop) s : F → wp F wild Q s.
Proof. done. Qed.

Lemma wp_gets (f : eng_state → A) Q s : Q (f s) s → wp F (gets f) Q s.
Proof. done. Qed.

Lemma wp_modify f Q s : Q tt (f s) → wp F (modify f) Q s.
Proof. done. Qed.

Lemma wp_deref (o : option A) Q s :
  (o = None → F) → (∀ a, o = Some a → Q a s) → wp F (deref o) Q s.
Proof. unfold wp, deref, wild, mret, eng_ret. destruct o; auto. Qed.

Lemma wp_when b m Q s :
  (b = true → wp F m Q s) → (b = false → Q tt s) → wp F (when b m) Q s.
Proof. unfold when. destruct b; cbn; auto. Qed.

Lemma wp_if (b : bool) (m1 m2 : eng A) Q s :
  (b = true → wp F m1 Q s) → (b = false → wp F m2 Q s) → wp F (if b then m1 else m2) Q s.
Proof. destruct b; auto. Qed.

Lemma wp_use (m : eng A) Q s a s' : wp F m Q s → m s = Some (a, s') → Q a s'.
Proof. unfold wp. intros Hw E. by rewrite E in Hw. Qed.

Lemma wp_total (m : eng A) Q s : wp False m Q s → ∃ a s', m s = Some (a, s') ∧ Q a s'.
Proof. unfold wp. destruct (m s) as [[a s']|]; [eauto|done]. Qed.

Lemma wp_weaken (m : eng A) Q s : wp False m Q s → wp F m Q s.
Proof. unfold wp. by destruct (m s) as [[a s']|]. Qed.
End wp.

(** The primitives in terms of the state. *)
Lemma wp_get_qp F Q s : Q (es_qp s) s → wp F get_qp Q s.
Proof. done. Qed.
Lemma wp_get_dev F Q s : Q (es_dev s) s → wp F get_dev Q s.
Proof. done. Qed.
Lemma wp_mod_qp F f Q s : Q tt (s <| es_qp ::= f |>) → wp F (mod_qp f) Q s.
Proof. done. Qed.
Lemma wp_mod_dev F f Q s : Q tt (s <| es_dev ::= f |>) → wp F (mod_dev f) Q s.
Proof. done. Qed.
Lemma wp_emit F e Q s : Q tt (s <| es_ev ::= (λ l, l ++ [e]) |>) → wp F (emit e) Q s.
Proof. done. Qed.
Lemma wp_mod_req F f Q s : Q tt (s <| es_qp ::= λ q, q <| qp_req ::= f |> |>) → wp F (mod_req f) Q s.
Proof. done. Qed.
Lemma wp_mod_comp F f Q s : Q tt (s <| es_qp ::= λ q, q <| qp_comp ::= f |> |>) → wp F (mod_comp f) Q s.
Proof. done. Qed.
Lemma wp_mod_resp F f Q s : Q tt (s <| es_qp ::= λ q, q <| qp_resp ::= f |> |>) → wp F (mod_resp f) Q s.
Proof. done. Qed.
Lemma wp_run_task F t b Q s :
  Q tt (s <| es_ev ::= (λ l, l ++ [EvTask t b]) |>) → wp F (rxe_run_task t b) Q s.
Proof. done. Qed.

(** [wp_step] runs one primitive; [wp_run] runs the code up to the first call
    or branch. *)
Ltac wp_step :=
  lazymatch goal with
  | |- wp _ (mbind _ _) _ _ => apply wp_bind
  | |- wp _ (mret _) _ _ => apply wp_ret
  | |- wp _ (deref (Some _)) _ _ => apply wp_ret
  | |- wp _ (when false _) _ _ => apply wp_ret
  | |- wp _ (when true _) _ _ => unfold when
  | |- wp _ (gets _) _ _ => apply wp_gets
  | |- wp _ get_qp _ _ => apply wp_get_qp
  | |- wp _ get_dev _ _ => apply wp_get_dev
  | |- wp _ (mod_qp _) _ _ => apply wp_mod_qp
  | |- wp _ (mod_dev _) _ _ => apply wp_mod_dev
  | |- wp _ (mod_req _) _ _ => apply wp_mod_req
  | |- wp _ (mod_comp _) _ _ => apply wp_mod_comp
  | |- wp _ (mod_resp _) _ _ => apply wp_mod_resp
  | |- wp _ (emit _) _ _ => apply wp_emit
  | |- wp _ (rxe_run_task _ _) _ _ => apply wp_run_task
  end.

Ltac wp_run := repeat wp_step.

(** *** What code leaves alone

    [keeps f m]: running [m] does not change the part [f] of the state. The
    hint database [keeps] closes under the monad; an update keeps [f] when
    this holds by computation. *)

Definition keeps {A B} (f : eng_state → B) (m : eng A) : Prop :=
  ∀ s, wp True m (λ _ s', f s' = f s) s.

Section keeps.
Context {C : Type} (f : eng_state → C).

Lemma keeps_bind {A B} (m : eng A) (g : A → eng B) :
  keeps f m → (∀ a, keeps f (g a)) → keeps f (x ← m; g x).
Proof.
  intros Hm Hg s. apply wp_bind. eapply wp_mono; [apply Hm|]. intros a s' E.
  eapply wp_mono; [apply Hg|]. intros b s'' E'. cbn in *. congruence.
Qed.

Lemma keeps_ret {A} (a : A) : keeps f (mret a).
Proof. by intros s. Qed.

Lemma keeps_wild {A} : keeps f (wild (A := A)).
Proof. by intros s. Qed.

Lemma keeps_gets {A} (g : eng_state → A) : keeps f (gets g).
Proof. by intros s. Qed.

Lemma keeps_deref {A} (o : option A) : keeps f (deref o).
Proof. destruct o; by intros s. Qed.

Lemma keeps_modify g : (∀ s, f (g s) = f s) → keeps f (modify g).
Proof. intros E s. apply E. Qed.

Lemma keeps_when b m : keeps f m → keeps f (when b m).
Proof. intros E. destruct b; [done|by intros s]. Qed.

Lemma keeps_use {A} (m : eng A) s a s' : keeps f m → m s = Some (a, s') → f s' = f s.
Proof. intros E. apply (wp_use True m (λ _ s', f s' = f s)), E. Qed.
End keeps.

Ltac keeps_step :=
  match goal with
  | |- keeps _ (mbind _ _) => apply keeps_bind; [|intros ?]
  | |- keeps _ (mret _) => apply keeps_ret
  | |- keeps _ wild => apply keeps_wild
  | |- keeps _ (gets _) => apply keeps_gets
  | |- keeps _ get_qp => apply keeps_gets
  | |- keeps _ get_dev => apply keeps_gets
  | |- keeps _ (deref _) => apply keeps_deref
  | |- keeps _ (when _ _) => apply keeps_when
  | |- keeps _ (modify _) => apply keeps_modify; intros s; reflexivity
  | |- keeps _ (mod_qp _) => apply keeps_modify; intros s; reflexivity
  | |- keeps _ (mod_dev _) => apply keeps_modify; intros s; reflexivity
  | |- keeps _ (mod_req _) => apply keeps_modify; intros s; reflexivity
  | |- keeps _ (mod_comp _) => apply keeps_modify; intros s; reflexivity
  | |- keeps _ (mod_resp _) => apply keeps_modify; intros s; reflexivity
  | |- keeps _ (emit _) => apply keeps_modify; intros s; reflexivity
  | |- keeps _ (rxe_run_task _ _) => apply keeps_modify; intros s; reflexivity
  | |- keeps _ (let '(_, _) := ?x in _) => destruct x
  | |- keeps _ (if ?b then _ else _) => destruct b
  | |- keeps _ (match ?x with _ => _ end) => destruct x
  end.

Create HintDb keeps.
Ltac keeps_auto := repeat first [keeps_step | progress auto with keeps nocore].

(** The shared operations, for any part of the state their updates keep. *)
Section keeps_ops.
Context {C : Type} (f : eng_state → C).

Lemma keeps_sq_wqe a : keeps f (sq_wqe a).
Proof. unfold sq_wqe. keeps_auto. Qed.

Lemma keeps_upd_wqe a g :
  (∀ s h, f (s <| es_qp ::= λ q, q <| qp_sq ::= h |> |>) = f s) → keeps f (upd_wqe a g).
Proof.
  intros E. unfold upd_wqe. apply keeps_bind; [apply keeps_sq_wqe|]. intros w.
  apply keeps_modify. intros s. apply (E s (λ sq, store_at sq a (g w))).
Qed.

Lemma keeps_cq_post id wc sol :
  (∀ s h, f (s <| es_dev ::= λ d, d <| rdev_cqs ::= h |> |>) = f s) →
  (∀ s e, f (s <| es_ev ::= (λ l, l ++ [e]) |>) = f s) → keeps f (cq_post id wc sol).
Proof.
  intros E1 E2. unfold cq_post. apply keeps_bind; [apply keeps_gets|]. intros dev.
  apply keeps_bind; [apply keeps_deref|]. intros cq. destruct (rxe_cq_post cq wc sol) as [[cq' ev] r].
  apply keeps_bind; [apply keeps_modify; intros s; apply (E1 s <[id := cq']>)|]. intros _.
  apply keeps_bind; [|intros _; apply keeps_ret].
  induction ev as [|e ev IH]; cbn [emit_cq]; [apply keeps_ret|].
  apply keeps_bind; [apply keeps_modify; intros s; apply E2|done].
Qed.

Lemma keeps_copy_data access dma addr length dir crc :
  (∀ s h, f (s <| es_dev ::= λ d, d <| rdev_mem := h |> |>) = f s) →
  keeps f (eng_copy_data access dma addr length dir crc).
Proof.
  intros E. unfold eng_copy_data. do 2 (apply keeps_bind; [apply keeps_gets|]; intros ?).
  apply keeps_bind; [apply keeps_deref|]. intros o.
  apply keeps_bind; [apply keeps_modify; intros s; apply (E s (co_dev o))|intros _; apply keeps_ret].
Qed.
End keeps_ops.

#[export] Hint Resolve keeps_sq_wqe : keeps.
#[export] Hint Extern 1 (keeps _ (upd_wqe _ _)) => (apply keeps_upd_wqe; intros; reflexivity) : keeps.
#[export] Hint Extern 1 (keeps _ (cq_post _ _ _)) => (apply keeps_cq_post; intros; reflexivity) : keeps.
#[export] Hint Extern 1 (keeps _ (eng_copy_data _ _ _ _ _ _)) =>
  (apply keeps_copy_data; intros; reflexivity) : keeps.

(** *** What code can return *)

Definition returns {A} (P : A → Prop) (m : eng A) : Prop := ∀ s, wp True m (λ a _, P a) s.

Lemma returns_bind {A B} (P : A → Prop) (R : B → Prop) (m : eng A) (g : A → eng B) :
  returns P m → (∀ a, P a → returns R (g a)) → returns R (x ← m; g x).
Proof. intros Hm Hg s. apply wp_bind. eapply wp_mono; [apply Hm|]. intros a s' Ha. by apply Hg. Qed.

Lemma returns_then {A B} (R : B → Prop) (m : eng A) (g : A → eng B) :
  (∀ a, returns R (g a)) → returns R (x ← m; g x).
Proof. intros Hg. apply (returns_bind (λ _, True)); [|auto]. intros s. unfold wp. by repeat case_match. Qed.

Lemma returns_ret {A} (P : A → Prop) a : P a → returns P (mret a).
Proof. by intros ? s. Qed.

Lemma returns_wild {A} (P : A → Prop) : returns P wild.
Proof. by intros s. Qed.

Lemma returns_deref {A} (o : option A) : returns (λ a, o = Some a) (deref o).
Proof. destruct o; by intros s. Qed.

Create HintDb returns.
#[export] Hint Resolve returns_deref : returns.
Ltac returns_step :=
  match goal with
  | |- returns _ (mret _) => apply returns_ret
  | |- returns _ wild => apply returns_wild
  | |- returns _ (mbind _ _) =>
      first [eapply returns_bind; [solve [auto with returns nocore]|cbv beta; intros ? ?]
            |apply returns_then; intros ?]
  | |- returns _ (if ?b then _ else _) => destruct b
  | |- returns _ (match ?x with _ => _ end) => destruct x
  end.
Ltac returns_auto := repeat returns_step; auto with returns.

(** *** Code that cannot go wrong

    [slot s a w]: the element at address [a] of the send queue is [w].
    [safe a m]: [m] returns from every state in which [a] is the address of an
    element and the completion queue of the queue pair exists, and leaves them
    in place. *)

Definition slot (s : eng_state) (a : Z) (w : rxe_send_wqe) : Prop :=
  elem_at (qp_sq (es_qp s)) a = Some w.

Definition valid (a : Z) (s : eng_state) : Prop :=
  is_Some (elem_at (qp_sq (es_qp s)) a) ∧ is_Some (rdev_cqs (es_dev s) !! qp_scq (es_qp s)).

Definition safe {A} (a : Z) (m : eng A) : Prop :=
  ∀ s, valid a s → wp False m (λ _ s', valid a s') s.

Lemma wp_sq_wqe F s a w Q : slot s a w → Q w s → wp F (sq_wqe a) Q s.
Proof. intros Hs HQ. unfold sq_wqe. wp_run. rewrite Hs. by apply wp_ret. Qed.

Lemma wp_upd_wqe F s a w f Q :
  slot s a w →
  (∀ s', s' = s <| es_qp ::= λ q, q <| qp_sq ::= λ sq, store_at sq a (f w) |> |> →
     slot s' a (f w) → Q tt s') →
  wp F (upd_wqe a f) Q s.
Proof.
  intros Hs HQ. unfold upd_wqe. wp_run. eapply wp_sq_wqe; [done|]. wp_run.
  apply HQ; [done|]. apply elem_at_store_eq. by eexists.
Qed.

Section safe.
Context (a : Z).

Lemma safe_bind {A B} (m : eng A) (g : A → eng B) :
  safe a m → (∀ x, safe a (g x)) → safe a (x ← m; g x).
Proof. intros Hm Hg s Hs. apply wp_bind. eapply wp_mono; [by apply Hm|]. intros x s' Hs'. by apply Hg. Qed.

Lemma safe_ret {A} (x : A) : safe a (mret x).
Proof. by intros s. Qed.

Lemma safe_gets {A} (g : eng_state → A) : safe a (gets g).
Proof. by intros s. Qed.

Lemma safe_deref_Some {A} (x : A) : safe a (deref (Some x)).
Proof. by intros s. Qed.

Lemma safe_modify g : (∀ s, valid a s → valid a (g s)) → safe a (modify g).
Proof. intros E s Hs. by apply E. Qed.

Lemma safe_when b m : safe a m → safe a (when b m).
Proof. intros E. destruct b; [done|by intros s]. Qed.

Lemma safe_sq_wqe : safe a (sq_wqe a).
Proof. intros s Hs. destruct Hs as [[w Hw] Hc] eqn:E. by eapply wp_sq_wqe. Qed.

Lemma safe_upd_wqe f : safe a (upd_wqe a f).
Proof.
  intros s [[w Hw] Hc]. eapply wp_upd_wqe; [done|]. intros s' -> Hs'. split; [by eexists|done].
Qed.

Lemma safe_use {A} (m : eng A) s : safe a m → valid a s → ∃ x s', m s = Some (x, s') ∧ valid a s'.
Proof. intros Hm Hs. by apply wp_total, Hm. Qed.
End safe.

Create HintDb safe.
#[export] Hint Resolve safe_sq_wqe safe_upd_wqe : safe.

Ltac safe_step :=
  match goal with
  | |- safe _ (mbind _ _) => apply safe_bind; [|intros ?]
  | |- safe _ (mret _) => apply safe_ret
  | |- safe _ (gets _) => apply safe_gets
  | |- safe _ get_qp => apply safe_gets
  | |- safe _ get_dev => apply safe_gets
  | |- safe _ (deref (Some _)) => apply safe_deref_Some
  | |- safe _ (when _ _) => apply safe_when
  | |- safe _ (modify _) => apply safe_modify; intros s Hs; exact Hs
  | |- safe _ (mod_qp _) => apply safe_modify; intros s Hs; exact Hs
  | |- safe _ (mod_dev _) => apply safe_modify; intros s Hs; exact Hs
  | |- safe _ (mod_req _) => apply safe_modify; intros s Hs; exact Hs
  | |- safe _ (mod_comp _) => apply safe_modify; intros s Hs; exact Hs
  | |- safe _ (mod_resp _) => apply safe_modify; intros s Hs; exact Hs
  | |- safe _ (emit _) => apply safe_modify; intros s Hs; exact Hs
  | |- safe _ (rxe_run_task _ _) => apply safe_modify; intros s Hs; exact Hs
  | |- safe _ (if ?b then _ else _) => destruct b
  | |- safe _ (match ?x with _ => _ end) => destruct x
  end.
Ltac safe_auto := repeat first [safe_step | progress auto with safe nocore].

(** ** A small queue pair for examples: two sends of a reliable connection *)

Definition example_params : Params :=
  Build_Params false false 64 128 64 (λ us, us / 1000) (λ _, 0xa5) true.

Definition example_av : rxe_av := Av (AhAttr 0x11 0x22 0 0 0 0 0 0 0 0 1 1) [].

Definition example_send (opcode flags : Z) (st : wqe_state) (mask first last : Z) (dma : rxe_dma_info)
    : rxe_send_wqe :=
  SendWqe (SendWr 11 opcode flags 0 0 0x1000 0x122 0 0 0 0 0) example_av 0 st 0x1000 mask first last
    0 0 false dma.

Definition example_sq (consumer producer : Z) (wqes : list rxe_send_wqe) : rxe_queue rxe_send_wqe :=
  Queue (QueueBuf 8 3 producer consumer wqes) 9 None 1408 200 8 3.

Definition example_attr : ib_qp_attr := QpAttr 3 3 1 0 0 0 0 17 15 0 0 false 4 4 12 1 14 7 7 0 0 0.

Definition example_qp (sq : rxe_queue rxe_send_wqe) (resp_pkts : list rxe_pkt_info) (req comp : Z)
    : rxe_qp :=
  Qp 16 IB_QPT_RC 5 example_attr true 256 false 5 None 1 1 IB_SIGNAL_ALL_WR true sq None example_av
    [] resp_pkts []
    (ReqInfo QP_STATE_READY 0 req (-1) 4 false false false false 0)
    (CompInfo comp (-1) false false 3 3)
    (RespInfo QP_STATE_READY 0 0 (-1) false false false 0 0 None 0 None 0 0 0
       (RecvWqe 0 0 (Dma 0 0 0 0 0 [] [])) None 0 0 None)
    false 0 0 0 0 false None 10 None example_av [] (QpCap 3 3 4 4 0).

Definition example_rdev : rxe_dev :=
  Rdev example_dev {[1 := example_cq 0]} ∅ [Port 0 3 [0xffff] [0x33] 0x11 4096 0 1 0 0] [] 0 1 0 0 0
    (DeviceAttr 0x4000 32 64 128 56 0x4000 27).

Definition example_es (q : rxe_qp) : eng_state := Es example_rdev q [] [] 1000 [].

(** An acknowledgement with a syndrome, its transport header at offset 0. *)
Definition example_ack (syndrome psn : Z) : rxe_pkt_info :=
  PktInfo (replicate 12 0 ++ [syndrome; 0; 0; 0] ++ replicate 4 0)
    (oi_mask (rxe_opcode IB_OPCODE_RC_ACKNOWLEDGE)) psn 0 20 1 IB_OPCODE_RC_ACKNOWLEDGE 0.
