(* ===== verification/Av.v ===== *)
(** * Address vectors and path MTUs (rxe_av.c, rxe_param.h, init_av of rxe_net.c)

    An address vector is the route to another port with the Ethernet address
    that belongs to its GID. The driver only reaches ports of its own link. *)

From stdpp Require Import gmap.
From S2P Require Import Prelude Bits Hdr Verbs State.

(** ** MTUs *)

Definition RXE_MAX_HDR_LENGTH : Z := 80.

Definition RXE_MTU_256 : Z := 1.
Definition RXE_MTU_512 : Z := 2.
Definition RXE_MTU_1024 : Z := 3.
Definition RXE_MTU_2048 : Z := 4.
Definition RXE_MTU_4096 : Z := 5.
Definition RXE_MTU_8192 : Z := 6.

Definition rxe_mtu_enum_to_int (mtu : Z) : Z :=
  if mtu =? RXE_MTU_256 then 256
  else if mtu =? RXE_MTU_512 then 512
  else if mtu =? RXE_MTU_1024 then 1024
  else if mtu =? RXE_MTU_2048 then 2048
  else if mtu =? RXE_MTU_4096 then 4096
  else if mtu =? RXE_MTU_8192 then 8192
  else -1.

Definition rxe_mtu_int_to_enum (mtu : Z) : Z :=
  if mtu <? 256 then 0
  else if mtu <? 512 then RXE_MTU_256
  else if mtu <? 1024 then RXE_MTU_512
  else if mtu <? 2048 then RXE_MTU_1024
  else if mtu <? 4096 then RXE_MTU_2048
  else if mtu <? 8192 then RXE_MTU_4096
  else RXE_MTU_8192.

Definition eth_mtu_int_to_enum (mtu : Z) : Z := rxe_mtu_int_to_enum (s32 (mtu - RXE_MAX_HDR_LENGTH)).

(** The largest MTU of InfiniBand that fits. *)
Lemma rxe_mtu_fits mtu e :
  256 ≤ mtu → RXE_MTU_256 ≤ e ≤ RXE_MTU_8192 →
  rxe_mtu_enum_to_int e ≤ mtu ↔ e ≤ rxe_mtu_int_to_enum mtu.
Proof.
  intros Hm He. unfold RXE_MTU_256, RXE_MTU_8192 in He.
  assert (Hc : e = 1 ∨ e = 2 ∨ e = 3 ∨ e = 4 ∨ e = 5 ∨ e = 6) by lia. unfold rxe_mtu_int_to_enum.
  destruct Hc as [->|[->|[->|[->|[->| ->]]]]]; cbn; unfold RXE_MTU_256, RXE_MTU_512, RXE_MTU_1024, RXE_MTU_2048, RXE_MTU_4096,
    RXE_MTU_8192; repeat case_match; lia.
Qed.

Lemma rxe_mtu_enum_bytes e :
  RXE_MTU_256 ≤ e ≤ RXE_MTU_8192 → rxe_mtu_enum_to_int e = 2 ^ (7 + e).
Proof.
  unfold RXE_MTU_256, RXE_MTU_8192. intros He.
  assert (Hc : e = 1 ∨ e = 2 ∨ e = 3 ∨ e = 4 ∨ e = 5 ∨ e = 6) by lia.
  by destruct Hc as [->|[->|[->|[->|[->| ->]]]]].
Qed.

(** ** GIDs as Internet addresses (rdma/ib_addr.h)

    A GID is its two halves; [s6_addr] are its bytes in network order. *)

Definition s6_addr (prefix guid : Z) (i : Z) : Z :=
  if i <? 8 then Z.shiftr prefix (8 * (7 - i)) .& 0xff else Z.shiftr guid (8 * (15 - i)) .& 0xff.

Definition rdma_link_local_addr (prefix : Z) : bool :=
  (Z.shiftr prefix 32 =? 0xfe800000) && (prefix .& 0xffffffff =? 0).

Definition rdma_get_ll_mac (prefix guid : Z) : list Z :=
  let b := s6_addr prefix guid in [Z.lxor (b 8) 2; b 9; b 10; b 13; b 14; b 15].

Definition rdma_is_multicast_addr (prefix guid : Z) : bool := s6_addr prefix guid 0 =? 0xff.

Definition rdma_get_mcast_mac (prefix guid : Z) : list Z :=
  [0x33; 0x33] ++ ((λ i, s6_addr prefix guid (i + 10)) <$> [2; 3; 4; 5]).

(** The GUID of a port, made from the Ethernet address of the device. *)
Definition rxe_mac_to_eui64 (mac_addr : list Z) : Z :=
  let m i := nth i mac_addr 0 in
  load_be64 [Z.lxor (m 0%nat) 2; m 1%nat; m 2%nat; 0xff; 0xfe; m 3%nat; m 4%nat; m 5%nat] 0.

Lemma s6_addr_guid prefix b0 b1 b2 b3 b4 b5 b6 b7 i :
  Forall (λ b, 0 ≤ b < 256) [b0; b1; b2; b3; b4; b5; b6; b7] → 8 ≤ i < 16 →
  s6_addr prefix (load_be64 [b0; b1; b2; b3; b4; b5; b6; b7] 0) i = nth (Z.to_nat (i - 8)) [b0; b1; b2; b3; b4; b5; b6; b7] 0.
Proof.
  intros Hb Hi. repeat (apply Forall_cons_1 in Hb as [? Hb]); cbv beta in *.
  unfold s6_addr. destruct (Z.ltb_spec i 8); [lia|]. change 0xff with (Z.ones 8).
  rewrite Z.land_ones, Z.shiftr_div_pow2 by lia.
  assert (E : load_be64 [b0; b1; b2; b3; b4; b5; b6; b7] 0 = b0 * 2 ^ 56 + (b1 * 2 ^ 48 + (b2 * 2 ^ 40 + (b3 * 2 ^ 32 +
    (b4 * 2 ^ 24 + (b5 * 2 ^ 16 + (b6 * 2 ^ 8 + (b7 * 2 ^ 0 + 0)))))))) by reflexivity. rewrite E. clear E.
  assert (Hc : i = 8 ∨ i = 9 ∨ i = 10 ∨ i = 11 ∨ i = 12 ∨ i = 13 ∨ i = 14 ∨ i = 15) by lia.
  destruct Hc as [->|[->|[->|[->|[->|[->|[->| ->]]]]]]].
  all: match goal with |- context [2 ^ (8 * ?e)] => let v := eval vm_compute in (2 ^ (8 * e)) in change (2 ^ (8 * e)) with v end.
  all: match goal with |- _ = nth ?n ?l 0 => let v := eval cbv in (nth n l 0) in change (nth n l 0) with v end.
  all: Z.to_euclidean_division_equations; lia.
Qed.

(** The Ethernet address in an address vector. A port takes its GUID from the
    address of its network device, with one bit inverted and two bytes inserted;
    an address vector for the link-local GID with this GUID has the address of
    the device. *)
Theorem ll_mac_of_guid prefix mac :
  length mac = 6%nat → Forall (λ b, 0 ≤ b < 256) mac → rdma_get_ll_mac prefix (rxe_mac_to_eui64 mac) = mac.
Proof.
  intros Hl Hb. destruct mac as [|m0 [|m1 [|m2 [|m3 [|m4 [|m5 [|]]]]]]]; try done.
  repeat (apply Forall_cons_1 in Hb as [? Hb]); cbv beta in *. assert (0 ≤ Z.lxor m0 2 < 256).
  { split; [apply Z.lxor_nonneg; lia|]. destruct (Z.eq_dec (Z.lxor m0 2) 0) as [->|Hz]; [lia|].
    assert (0 ≤ Z.lxor m0 2) by (apply Z.lxor_nonneg; lia). apply (Z.log2_lt_pow2 _ 8); [lia|].
    pose proof (Z.log2_lxor m0 2). assert (Z.log2 m0 < 8); [|cbn in *; lia].
    destruct (Z.eq_dec m0 0) as [->|]; [done|]. by apply Z.log2_lt_pow2; lia. }
  unfold rdma_get_ll_mac, rxe_mac_to_eui64. cbn [nth].
  assert (Hf : Forall (λ b, 0 ≤ b < 256) [Z.lxor m0 2; m1; m2; 0xff; 0xfe; m3; m4; m5]) by (repeat constructor; lia).
  pose proof (λ i, s6_addr_guid prefix _ _ _ _ _ _ _ _ i Hf) as E.
  rewrite (E 8), (E 9), (E 10), (E 13), (E 14), (E 15) by lia.
  change ([Z.lxor (Z.lxor m0 2) 2; m1; m2; m3; m4; m5] = [m0; m1; m2; m3; m4; m5]). by rewrite Z.lxor_assoc, Z.lxor_nilpotent, Z.lxor_0_r.
Qed.

Lemma ll_mac_of_guid_witness :
  rdma_get_ll_mac 0 (rxe_mac_to_eui64 [0x02; 0x1e; 0x06; 0xc0; 0x11; 0x7f]) = [0x02; 0x1e; 0x06; 0xc0; 0x11; 0x7f].
Proof. apply ll_mac_of_guid; [reflexivity|]. repeat constructor; lia. Defined.

(** ** Address vectors *)

Section av.
Context `{Params}.

(** [gid_tbl_len] is the length of the table of GUIDs. *)
Definition rxe_av_chk_attr (attr : ib_ah_attr) : eng (result unit) :=
  dev ← get_dev;
  if (ah_port_num attr <? 1) || (ah_port_num attr >? Z.of_nat (length (rdev_ports dev))) then mret (Err EINVAL)
  else
    port ← deref (rdev_ports dev !! Z.to_nat (ah_port_num attr - 1));
    if flag_set (ah_ah_flags attr) IB_AH_GRH
       && (ah_sgid_index attr >? Z.of_nat (length (port_guid_tbl port))) then mret (Err EINVAL)
    else mret (Ok tt).

(** The attributes of the caller, the address vector, and the value returned. A
    route without global header is replaced by one to the port itself. *)
Definition init_av (attr : ib_ah_attr) (av : rxe_av) : eng (ib_ah_attr * rxe_av * result unit) :=
  dev ← get_dev;
  let local := negb (flag_set (ah_ah_flags attr) IB_AH_GRH) in
  if local && negb rxe_loopback_mad_grh_fix then mret (attr, av, Err EINVAL)
  else
    '(attr, av) ←
      (if local then
         port ← deref (rdev_ports dev !! 0%nat);
         guid ← deref (port_guid_tbl port !! 0%nat);
         let attr := attr <| ah_ah_flags ::= (λ f, f .| IB_AH_GRH) |>
                          <| ah_dgid_prefix := port_subnet_prefix port |> <| ah_dgid_guid := guid |> in
         mret (attr, av <| av_attr := attr |>)
       else mret (attr, av));
    let prefix := ah_dgid_prefix attr in
    let guid := ah_dgid_guid attr in
    if rdma_link_local_addr prefix then
      mret (attr, av <| av_ll_addr := rdma_get_ll_mac prefix guid |>, Ok tt)
    else if rdma_is_multicast_addr prefix guid then
      mret (attr, av <| av_ll_addr := rdma_get_mcast_mac prefix guid |>, Ok tt)
    else mret (attr, av, Err EINVAL).

Definition rxe_av_from_attr (port_num : Z) (attr : ib_ah_attr) : eng (rxe_av * result unit) :=
  '(_, av, err) ← init_av attr (Av (attr <| ah_port_num := port_num |>) (replicate 6 0));
  mret (av, err).

Definition rxe_av_to_attr (av : rxe_av) : ib_ah_attr := av_attr av.

(** The address vector of a link-local route. *)
Definition route_of (port_num : Z) (ah : ib_ah_attr) : rxe_av :=
  Av (ah <| ah_port_num := port_num |>) (rdma_get_ll_mac (ah_dgid_prefix ah) (ah_dgid_guid ah)).

Lemma wp_av_from_attr F port_num attr Q s :
  flag_set (ah_ah_flags attr) IB_AH_GRH = true → rdma_link_local_addr (ah_dgid_prefix attr) = true →
  Q (route_of port_num attr, Ok tt) s →
  wp F (rxe_av_from_attr port_num attr) Q s.
Proof.
  intros Hg Hl HQ. unfold rxe_av_from_attr, init_av. wp_run. rewrite Hg. cbn [negb andb]. wp_run. rewrite Hl. wp_run. exact HQ.
Qed.
End av.
