(* ===== verification/QpState.v ===== *)
(** * The states of a queue pair (core/verbs.c, ib_modify_qp_is_ok)

    The verbs layer keeps a table of the transitions a queue pair may make, with
    the attributes each of them needs and those it allows. *)

From S2P Require Import Prelude Opcode.

Definition IB_QPS_RESET : Z := 0.
Definition IB_QPS_INIT : Z := 1.
Definition IB_QPS_RTR : Z := 2.
Definition IB_QPS_RTS : Z := 3.
Definition IB_QPS_SQD : Z := 4.
Definition IB_QPS_SQE : Z := 5.
Definition IB_QPS_ERR : Z := 6.

Definition IB_QP_STATE : Z := 1.
Definition IB_QP_CUR_STATE : Z := Z.shiftl 1 1.
Definition IB_QP_EN_SQD_ASYNC_NOTIFY : Z := Z.shiftl 1 2.
Definition IB_QP_ACCESS_FLAGS : Z := Z.shiftl 1 3.
Definition IB_QP_PKEY_INDEX : Z := Z.shiftl 1 4.
Definition IB_QP_PORT : Z := Z.shiftl 1 5.
Definition IB_QP_QKEY : Z := Z.shiftl 1 6.
Definition IB_QP_AV : Z := Z.shiftl 1 7.
Definition IB_QP_PATH_MTU : Z := Z.shiftl 1 8.
Definition IB_QP_TIMEOUT : Z := Z.shiftl 1 9.
Definition IB_QP_RETRY_CNT : Z := Z.shiftl 1 10.
Definition IB_QP_RNR_RETRY : Z := Z.shiftl 1 11.
Definition IB_QP_RQ_PSN : Z := Z.shiftl 1 12.
Definition IB_QP_MAX_QP_RD_ATOMIC : Z := Z.shiftl 1 13.
Definition IB_QP_ALT_PATH : Z := Z.shiftl 1 14.
Definition IB_QP_MIN_RNR_TIMER : Z := Z.shiftl 1 15.
Definition IB_QP_SQ_PSN : Z := Z.shiftl 1 16.
Definition IB_QP_MAX_DEST_RD_ATOMIC : Z := Z.shiftl 1 17.
Definition IB_QP_PATH_MIG_STATE : Z := Z.shiftl 1 18.
Definition IB_QP_CAP : Z := Z.shiftl 1 19.
Definition IB_QP_DEST_QPN : Z := Z.shiftl 1 20.

(** ** The table *)

(** A row of masks by type of queue pair; the other types have none. *)
Definition by_type (ud uc rc smi gsi type : Z) : Z :=
  if type =? IB_QPT_UD then ud
  else if type =? IB_QPT_UC then uc
  else if type =? IB_QPT_RC then rc
  else if type =? IB_QPT_SMI then smi
  else if type =? IB_QPT_GSI then gsi
  else 0.

(** A valid entry of the table; an entry that is not in it is not valid. *)
Record qp_transition := Transition { req_param : Z → Z; opt_param : Z → Z }.

Definition no_param : Z → Z := λ _, 0.
Definition all_types (m : Z) : Z → Z := by_type m m m m m.

Definition from_reset (next_state : Z) : option qp_transition :=
  if next_state =? IB_QPS_RESET then Some (Transition no_param no_param)
  else if next_state =? IB_QPS_INIT then
    Some (Transition
      (by_type (IB_QP_PKEY_INDEX .| IB_QP_PORT .| IB_QP_QKEY)
         (IB_QP_PKEY_INDEX .| IB_QP_PORT .| IB_QP_ACCESS_FLAGS)
         (IB_QP_PKEY_INDEX .| IB_QP_PORT .| IB_QP_ACCESS_FLAGS)
         (IB_QP_PKEY_INDEX .| IB_QP_QKEY) (IB_QP_PKEY_INDEX .| IB_QP_QKEY)) no_param)
  else None.

(** Every other state may go back to reset or to error. *)
Definition stop (next_state : Z) : option qp_transition :=
  if one_of next_state [IB_QPS_RESET; IB_QPS_ERR] then Some (Transition no_param no_param) else None.

Definition from_init (next_state : Z) : option qp_transition :=
  if next_state =? IB_QPS_INIT then
    Some (Transition no_param
      (by_type (IB_QP_PKEY_INDEX .| IB_QP_PORT .| IB_QP_QKEY)
         (IB_QP_PKEY_INDEX .| IB_QP_PORT .| IB_QP_ACCESS_FLAGS)
         (IB_QP_PKEY_INDEX .| IB_QP_PORT .| IB_QP_ACCESS_FLAGS)
         (IB_QP_PKEY_INDEX .| IB_QP_QKEY) (IB_QP_PKEY_INDEX .| IB_QP_QKEY)))
  else if next_state =? IB_QPS_RTR then
    Some (Transition
      (by_type 0 (IB_QP_AV .| IB_QP_PATH_MTU .| IB_QP_DEST_QPN .| IB_QP_RQ_PSN)
         (IB_QP_AV .| IB_QP_PATH_MTU .| IB_QP_DEST_QPN .| IB_QP_RQ_PSN .| IB_QP_MAX_DEST_RD_ATOMIC
          .| IB_QP_MIN_RNR_TIMER) 0 0)
      (by_type (IB_QP_PKEY_INDEX .| IB_QP_QKEY) (IB_QP_ALT_PATH .| IB_QP_ACCESS_FLAGS .| IB_QP_PKEY_INDEX)
         (IB_QP_ALT_PATH .| IB_QP_ACCESS_FLAGS .| IB_QP_PKEY_INDEX)
         (IB_QP_PKEY_INDEX .| IB_QP_QKEY) (IB_QP_PKEY_INDEX .| IB_QP_QKEY)))
  else stop next_state.

Definition from_rtr (next_state : Z) : option qp_transition :=
  if next_state =? IB_QPS_RTS then
    Some (Transition
      (by_type IB_QP_SQ_PSN IB_QP_SQ_PSN
         (IB_QP_TIMEOUT .| IB_QP_RETRY_CNT .| IB_QP_RNR_RETRY .| IB_QP_SQ_PSN .| IB_QP_MAX_QP_RD_ATOMIC)
         IB_QP_SQ_PSN IB_QP_SQ_PSN)
      (by_type (IB_QP_CUR_STATE .| IB_QP_QKEY)
         (IB_QP_CUR_STATE .| IB_QP_ALT_PATH .| IB_QP_ACCESS_FLAGS .| IB_QP_PATH_MIG_STATE)
         (IB_QP_CUR_STATE .| IB_QP_ALT_PATH .| IB_QP_ACCESS_FLAGS .| IB_QP_MIN_RNR_TIMER
          .| IB_QP_PATH_MIG_STATE)
         (IB_QP_CUR_STATE .| IB_QP_QKEY) (IB_QP_CUR_STATE .| IB_QP_QKEY)))
  else stop next_state.

Definition from_rts (next_state : Z) : option qp_transition :=
  if next_state =? IB_QPS_RTS then
    Some (Transition no_param
      (by_type (IB_QP_CUR_STATE .| IB_QP_QKEY)
         (IB_QP_CUR_STATE .| IB_QP_ACCESS_FLAGS .| IB_QP_ALT_PATH .| IB_QP_PATH_MIG_STATE)
         (IB_QP_CUR_STATE .| IB_QP_ACCESS_FLAGS .| IB_QP_ALT_PATH .| IB_QP_PATH_MIG_STATE
          .| IB_QP_MIN_RNR_TIMER)
         (IB_QP_CUR_STATE .| IB_QP_QKEY) (IB_QP_CUR_STATE .| IB_QP_QKEY)))
  else if next_state =? IB_QPS_SQD then Some (Transition no_param (all_types IB_QP_EN_SQD_ASYNC_NOTIFY))
  else stop next_state.

Definition from_sqd (next_state : Z) : option qp_transition :=
  if next_state =? IB_QPS_RTS then
    Some (Transition no_param
      (by_type (IB_QP_CUR_STATE .| IB_QP_QKEY)
         (IB_QP_CUR_STATE .| IB_QP_ALT_PATH .| IB_QP_ACCESS_FLAGS .| IB_QP_PATH_MIG_STATE)
         (IB_QP_CUR_STATE .| IB_QP_ALT_PATH .| IB_QP_ACCESS_FLAGS .| IB_QP_MIN_RNR_TIMER
          .| IB_QP_PATH_MIG_STATE)
         (IB_QP_CUR_STATE .| IB_QP_QKEY) (IB_QP_CUR_STATE .| IB_QP_QKEY)))
  else if next_state =? IB_QPS_SQD then
    Some (Transition no_param
      (by_type (IB_QP_PKEY_INDEX .| IB_QP_QKEY)
         (IB_QP_AV .| IB_QP_ALT_PATH .| IB_QP_ACCESS_FLAGS .| IB_QP_PKEY_INDEX .| IB_QP_PATH_MIG_STATE)
         (IB_QP_PORT .| IB_QP_AV .| IB_QP_TIMEOUT .| IB_QP_RETRY_CNT .| IB_QP_RNR_RETRY
          .| IB_QP_MAX_QP_RD_ATOMIC .| IB_QP_MAX_DEST_RD_ATOMIC .| IB_QP_ALT_PATH .| IB_QP_ACCESS_FLAGS
          .| IB_QP_PKEY_INDEX .| IB_QP_MIN_RNR_TIMER .| IB_QP_PATH_MIG_STATE)
         (IB_QP_PKEY_INDEX .| IB_QP_QKEY) (IB_QP_PKEY_INDEX .| IB_QP_QKEY)))
  else stop next_state.

Definition from_sqe (next_state : Z) : option qp_transition :=
  if next_state =? IB_QPS_RTS then
    Some (Transition no_param
      (by_type (IB_QP_CUR_STATE .| IB_QP_QKEY) (IB_QP_CUR_STATE .| IB_QP_ACCESS_FLAGS) 0
         (IB_QP_CUR_STATE .| IB_QP_QKEY) (IB_QP_CUR_STATE .| IB_QP_QKEY)))
  else stop next_state.

Definition qp_state_table (cur_state next_state : Z) : option qp_transition :=
  if cur_state =? IB_QPS_RESET then from_reset next_state
  else if cur_state =? IB_QPS_INIT then from_init next_state
  else if cur_state =? IB_QPS_RTR then from_rtr next_state
  else if cur_state =? IB_QPS_RTS then from_rts next_state
  else if cur_state =? IB_QPS_SQD then from_sqd next_state
  else if cur_state =? IB_QPS_SQE then from_sqe next_state
  else stop next_state.

(** ** The check *)

Definition ib_modify_qp_is_ok (cur_state next_state type mask : Z) : bool :=
  if (cur_state <? 0) || (cur_state >? IB_QPS_ERR) || (next_state <? 0) || (next_state >? IB_QPS_ERR) then false
  else if flag_set mask IB_QP_CUR_STATE
          && negb (one_of cur_state [IB_QPS_RTR; IB_QPS_RTS; IB_QPS_SQD; IB_QPS_SQE]) then false
  else match qp_state_table cur_state next_state with
  | None => false
  | Some t =>
      let req := req_param t type in
      let opt := opt_param t type in
      (mask .& req =? req) && (mask .& Z.lnot (req .| opt .| IB_QP_STATE) =? 0)
  end.
