(* ===== verification/Comp.v ===== *)
(** * The completer (rxe_comp.c)

    The state machine that matches acknowledgements with the work queue
    elements of the send queue. [rxe_completer] is the task function: [Ok]
    stands for its return value 0 (call again), [Err EAGAIN] for the exit. *)

From stdpp Require Import gmap.
From S2P Require Import Prelude Queue Opcode Hdr Verbs Mr Cq State.

Inductive comp_state : Type :=
  | COMPST_GET_ACK | COMPST_GET_WQE | COMPST_COMP_WQE | COMPST_COMP_ACK
  | COMPST_CHECK_PSN | COMPST_CHECK_ACK | COMPST_READ | COMPST_ATOMIC
  | COMPST_WRITE_SEND | COMPST_UPDATE_COMP | COMPST_ERROR_RETRY
  | COMPST_RNR_RETRY | COMPST_ERROR | COMPST_EXIT | COMPST_DONE.

#[export] Instance comp_state_eq_dec : EqDecision comp_state.
Proof. solve_decision. Defined.

(** Indexed by the 5-bit timer code of an RNR NAK. *)
Definition rnrnak_usec : list Z :=
  [655360; 10; 20; 30; 40; 60; 80; 120; 160; 240; 320; 480; 640; 960; 1280; 1920; 2560; 3840; 5120;
   7680; 10240; 15360; 20480; 30720; 40960; 61410; 81920; 122880; 163840; 245760; 327680; 491520].

Definition wr_to_wc_opcode (opcode : Z) : Z :=
  if one_of opcode [IB_WR_RDMA_WRITE; IB_WR_RDMA_WRITE_WITH_IMM] then IB_WC_RDMA_WRITE
  else if one_of opcode [IB_WR_SEND; IB_WR_SEND_WITH_IMM; IB_WR_SEND_WITH_INV] then IB_WC_SEND
  else if one_of opcode [IB_WR_RDMA_READ; IB_WR_RDMA_READ_WITH_INV] then IB_WC_RDMA_READ
  else if opcode =? IB_WR_ATOMIC_CMP_AND_SWP then IB_WC_COMP_SWAP
  else if opcode =? IB_WR_ATOMIC_FETCH_AND_ADD then IB_WC_FETCH_ADD
  else if opcode =? IB_WR_LSO then IB_WC_LSO
  else if opcode =? IB_WR_LOCAL_INV then IB_WC_LOCAL_INV
  else if opcode =? IB_WR_FAST_REG_MR then IB_WC_FAST_REG_MR
  else 0xff.

Section completer.
Context `{Params}.

Definition rnrnak_jiffies (timeout : Z) : eng Z :=
  usec ← deref (rnrnak_usec !! Z.to_nat timeout);
  mret (Z.max (usecs_to_jiffies usec) 1).

Definition retransmit_timer : eng unit :=
  q ← get_qp;
  when (qp_valid q)
    (mod_comp (λ c, c <| comp_timeout := true |>);; rxe_run_task task_comp true).

Definition rxe_comp_queue_pkt (skb : rxe_pkt_info) : eng unit :=
  mod_dev (λ d, d <| rdev_resp_skb_in ::= (λ n, n + 1) |>);;
  mod_qp (λ q, q <| qp_resp_pkts ::= (λ l, l ++ [skb]) |>);;
  q ← get_qp;
  rxe_run_task task_comp (bool_decide (1 < length (qp_resp_pkts q))%nat).

(** The work queue element is a pointer into the send queue, null for none. *)
Definition get_wqe (pkt : option rxe_pkt_info) : eng (comp_state * option Z) :=
  q ← get_qp;
  let no_more := match pkt with Some _ => COMPST_DONE | None => COMPST_EXIT end in
  match queue_head (qp_sq q) with
  | None => mret (no_more, None)
  | Some wqe =>
      w ← sq_wqe wqe;
      mret (match wqe_st w with
            | wqe_state_posted => no_more
            | wqe_state_done => COMPST_COMP_WQE
            | wqe_state_error => COMPST_ERROR
            | _ => match pkt with Some _ => COMPST_CHECK_PSN | None => COMPST_EXIT end
            end, Some wqe)
  end.

Definition reset_retry_counters : eng unit :=
  q ← get_qp;
  mod_comp (λ c, c <| comp_retry_cnt := qa_retry_cnt (qp_attr q) |>
                   <| comp_rnr_retry := qa_rnr_retry (qp_attr q) |>).

Definition check_psn (pkt : rxe_pkt_info) (wqe : Z) : eng comp_state :=
  w ← sq_wqe wqe; q ← get_qp;
  if psn_compare (pkt_psn pkt) (wqe_last_psn w) >? 0 then
    if bool_decide (wqe_st w = wqe_state_pending) then
      if flag_set (wqe_mask w) WR_ATOMIC_OR_READ_MASK then mret COMPST_ERROR_RETRY
      else reset_retry_counters;; mret COMPST_COMP_WQE
    else mret COMPST_DONE
  else
    let diff := psn_compare (pkt_psn pkt) (comp_psn (qp_comp q)) in
    if diff <? 0 then
      mret (if pkt_psn pkt =? wqe_last_psn w then COMPST_COMP_ACK else COMPST_DONE)
    else if (diff >? 0) && flag_set (wqe_mask w) WR_ATOMIC_OR_READ_MASK then mret COMPST_ERROR_RETRY
    else mret COMPST_CHECK_ACK.

(** [check_ack], first the sequence of opcodes, then the acknowledgement. *)
Definition ack_out_of_sequence (opcode : Z) (pkt : rxe_pkt_info) : bool :=
  if opcode =? -1 then negb (flag_set (pkt_mask pkt) RXE_START_MASK)
  else if one_of opcode [IB_OPCODE_RC_RDMA_READ_RESPONSE_FIRST; IB_OPCODE_RC_RDMA_READ_RESPONSE_MIDDLE]
  then negb (one_of (pkt_opcode pkt)
               [IB_OPCODE_RC_RDMA_READ_RESPONSE_MIDDLE; IB_OPCODE_RC_RDMA_READ_RESPONSE_LAST])
  else false.

Definition set_status (wqe status : Z) : eng unit := upd_wqe wqe (λ w, w <| wqe_status := status |>).

(** A wake-up of the requester that waits for a condition. *)
Definition wake_wait_psn : eng unit :=
  q ← get_qp;
  when (req_wait_psn (qp_req q))
    (mod_req (λ r, r <| req_wait_psn := false |>);; rxe_run_task task_req true).

Definition check_nak (pkt : rxe_pkt_info) (wqe syn : Z) : eng comp_state :=
  if syn =? AETH_NAK_PSN_SEQ_ERROR then
    q ← get_qp;
    when (psn_compare (pkt_psn pkt) (comp_psn (qp_comp q)) >? 0)
      (mod_comp (λ c, c <| comp_psn := pkt_psn pkt |>);; wake_wait_psn);;
    mret COMPST_ERROR_RETRY
  else
    set_status wqe (if syn =? AETH_NAK_INVALID_REQ then IB_WC_REM_INV_REQ_ERR
                    else if syn =? AETH_NAK_REM_ACC_ERR then IB_WC_REM_ACCESS_ERR
                    else IB_WC_REM_OP_ERR);;
    mret COMPST_ERROR.

Definition check_ack (pkt : rxe_pkt_info) (wqe : Z) : eng comp_state :=
  q ← get_qp; w ← sq_wqe wqe;
  if ack_out_of_sequence (comp_opcode (qp_comp q)) pkt then mret COMPST_ERROR
  else
    let syn := aeth_syn pkt in
    let type := syn .& AETH_TYPE_MASK in
    if one_of (pkt_opcode pkt)
         [IB_OPCODE_RC_RDMA_READ_RESPONSE_FIRST; IB_OPCODE_RC_RDMA_READ_RESPONSE_LAST;
          IB_OPCODE_RC_RDMA_READ_RESPONSE_ONLY; IB_OPCODE_RC_RDMA_READ_RESPONSE_MIDDLE] then
      if negb (pkt_opcode pkt =? IB_OPCODE_RC_RDMA_READ_RESPONSE_MIDDLE) && negb (type =? AETH_ACK)
      then mret COMPST_ERROR
      else if negb (one_of (wr_opcode (wqe_ibwr w)) [IB_WR_RDMA_READ; IB_WR_RDMA_READ_WITH_INV])
      then mret COMPST_ERROR
      else reset_retry_counters;; mret COMPST_READ
    else if pkt_opcode pkt =? IB_OPCODE_RC_ATOMIC_ACKNOWLEDGE then
      if negb (type =? AETH_ACK) then mret COMPST_ERROR
      else if negb (one_of (wr_opcode (wqe_ibwr w))
                      [IB_WR_ATOMIC_CMP_AND_SWP; IB_WR_ATOMIC_FETCH_AND_ADD])
      then mret COMPST_ERROR
      else reset_retry_counters;; mret COMPST_ATOMIC
    else if pkt_opcode pkt =? IB_OPCODE_RC_ACKNOWLEDGE then
      if type =? AETH_ACK then reset_retry_counters;; mret COMPST_WRITE_SEND
      else if type =? AETH_RNR_NAK then mret COMPST_RNR_RETRY
      else if type =? AETH_NAK then check_nak pkt wqe syn
      else mret COMPST_ERROR
    else mret COMPST_ERROR.

(** The bytes a packet holds at an offset. *)
Definition pkt_bytes (pkt : rxe_pkt_info) (o n : Z) : list Z :=
  take (Z.to_nat n) (drop (Z.to_nat o) (pkt_hdr pkt)).

(** A copy into the buffers of a work queue element. *)
Definition copy_to_wqe (wqe : Z) (bytes : list Z) (length : Z) : eng (result unit) :=
  w ← sq_wqe wqe;
  '(dma, _, _, r) ← eng_copy_data IB_ACCESS_LOCAL_WRITE (wqe_dma w) bytes length direction_in None;
  upd_wqe wqe (λ w, w <| wqe_dma := dma |>);;
  mret r.

Definition do_read (pkt : rxe_pkt_info) (wqe : Z) : eng comp_state :=
  let length := s32 (payload_size pkt) in
  ret ← copy_to_wqe wqe (pkt_bytes pkt (payload_addr pkt) length) length;
  match ret with
  | Err _ => mret COMPST_ERROR
  | Ok _ =>
      w ← sq_wqe wqe;
      mret (if (dma_resid (wqe_dma w) =? 0) && flag_set (pkt_mask pkt) RXE_END_MASK
            then COMPST_COMP_ACK else COMPST_UPDATE_COMP)
  end.

(** The bytes of a [u64] in memory (little endian). *)
Definition u64_bytes (x : Z) : list Z :=
  map (λ i, Z.land (Z.shiftr x (8 * i)) 0xff) [0; 1; 2; 3; 4; 5; 6; 7].

Definition do_atomic (pkt : rxe_pkt_info) (wqe : Z) : eng comp_state :=
  ret ← copy_to_wqe wqe (u64_bytes (atmack_orig pkt)) 8;
  mret (match ret with Err _ => COMPST_ERROR | Ok _ => COMPST_COMP_ACK end).

Definition make_send_cqe (q : rxe_qp) (w : rxe_send_wqe) : ib_wc :=
  zero_wc <| wc_wr_id := wr_id (wqe_ibwr w) |>
          <| wc_status := wqe_status w |>
          <| wc_opcode := wr_to_wc_opcode (wr_opcode (wqe_ibwr w)) |>
          <| wc_byte_len := dma_length (wqe_dma w) |>
          <| wc_qp_num := qp_qp_num q |>.

Definition do_complete (wqe : Z) : eng unit :=
  q ← get_qp; w ← sq_wqe wqe;
  when ((qp_sq_sig_type q =? IB_SIGNAL_ALL_WR) || flag_set (wr_send_flags (wqe_ibwr w)) IB_SEND_SIGNALED)
    (cq_post (qp_scq q) (make_send_cqe q w) false;; mret tt);;
  mod_qp (λ q, q <| qp_sq ::= advance_consumer |>);;
  when (req_wait_fence (qp_req q))
    (mod_req (λ r, r <| req_wait_fence := false |>);; rxe_run_task task_req true).

(** The send queue of a draining queue pair is drained when the last packet
    sent is acknowledged. *)
Definition check_drained : eng unit :=
  q ← get_qp;
  when (bool_decide (req_state (qp_req q) = QP_STATE_DRAIN)
        && (comp_psn (qp_comp q) =? req_psn (qp_req q)))
    (mod_req (λ r, r <| req_state := QP_STATE_DRAINED |>);;
     when (qp_has_event_handler q) (emit EvSqDrained)).

Definition complete_ack (pkt : rxe_pkt_info) (wqe : Z) : eng comp_state :=
  w ← sq_wqe wqe;
  when (wqe_has_rd_atomic w)
    (upd_wqe wqe (λ w, w <| wqe_has_rd_atomic := false |>);;
     mod_req (λ r, r <| req_rd_atomic ::= (λ n, n + 1) |>);;
     q ← get_qp;
     when (req_need_rd_atomic (qp_req q))
       (mod_comp (λ c, c <| comp_timeout_retry := false |>);;
        mod_req (λ r, r <| req_need_rd_atomic := false |>);;
        rxe_run_task task_req true));;
  check_drained;;
  do_complete wqe;;
  q ← get_qp;
  mret (if psn_compare (pkt_psn pkt) (comp_psn (qp_comp q)) >=? 0 then COMPST_UPDATE_COMP
        else COMPST_DONE).

(** The next sequence number expected after the response in hand. *)
Definition advance_comp_psn (pkt : rxe_pkt_info) : eng unit :=
  q ← get_qp;
  when (psn_compare (pkt_psn pkt) (comp_psn (qp_comp q)) >=? 0)
    (mod_comp (λ c, c <| comp_psn := u32 (pkt_psn pkt + 1) .& BTH_PSN_MASK |>)).

Definition complete_wqe (pkt : option rxe_pkt_info) (wqe : Z) : eng comp_state :=
  mod_comp (λ c, c <| comp_opcode := -1 |>);;
  (match pkt with
   | Some pkt => advance_comp_psn pkt;; wake_wait_psn
   | None => mret tt
   end);;
  do_complete wqe;;
  mret COMPST_GET_WQE.

(** ** The task function *)

Inductive comp_next : Type :=
  | CompGoto (st : comp_state) (pkt : option rxe_pkt_info) (wqe : option Z)
  | CompExit
  | CompDone.

Definition comp_free_pkt (pkt : rxe_pkt_info) : eng unit :=
  qp_drop_ref;;
  emit (EvFree pkt);;
  mod_dev (λ d, d <| rdev_resp_skb_in ::= (λ n, n - 1) |>).

(** Case COMPST_EXIT. *)
Definition comp_exit (pkt : option rxe_pkt_info) (wqe : option Z) : eng comp_next :=
  q ← get_qp;
  match wqe with
  | Some _ =>
      if comp_timeout_retry (qp_comp q) then mret (CompGoto COMPST_ERROR_RETRY pkt wqe) else
      mret CompExit
  | None => mret CompExit
  end.

Definition comp_rearm_timer : eng unit :=
  q ← get_qp; now ← gets es_jiffies;
  when ((qp_type q =? IB_QPT_RC) && bool_decide (req_state (qp_req q) = QP_STATE_READY)
        && (psn_compare (req_psn (qp_req q)) (comp_psn (qp_comp q)) >? 0)
        && negb (qp_timeout_jiffies q =? 0))
    (mod_qp (λ q, q <| qp_retrans_timer := Some (ulong (now + qp_timeout_jiffies q)) |>)).

(** Case COMPST_ERROR_RETRY. *)
Definition comp_error_retry (pkt : option rxe_pkt_info) (wqe : option Z) : eng comp_next :=
  match wqe with
  | None => mret CompExit
  | Some a =>
      w ← sq_wqe a; q ← get_qp;
      if bool_decide (wqe_st w = wqe_state_posted) then mret CompExit
      else if comp_retry_cnt (qp_comp q) >? 0 then
        when (negb (comp_retry_cnt (qp_comp q) =? 7))
          (mod_comp (λ c, c <| comp_retry_cnt ::= (λ n, n - 1) |>));;
        when (psn_compare (req_psn (qp_req q)) (comp_psn (qp_comp q)) >? 0)
          (mod_req (λ r, r <| req_need_retry := true |>);; rxe_run_task task_req true);;
        mret CompExit
      else
        set_status a IB_WC_RETRY_EXC_ERR;;
        mret (CompGoto COMPST_ERROR pkt wqe)
  end.

(** Case COMPST_RNR_RETRY. *)
Definition comp_rnr_retry_case (pkt : rxe_pkt_info) (wqe : Z) : eng comp_next :=
  q ← get_qp;
  if comp_rnr_retry (qp_comp q) >? 0 then
    when (negb (comp_rnr_retry (qp_comp q) =? 7))
      (mod_comp (λ c, c <| comp_rnr_retry ::= (λ n, n - 1) |>));;
    mod_req (λ r, r <| req_need_retry := true |>);;
    now ← gets es_jiffies;
    j ← rnrnak_jiffies (aeth_syn pkt .& Z.lnot AETH_TYPE_MASK);
    mod_qp (λ q, q <| qp_rnr_nak_timer := Some (ulong (now + j)) |>);;
    mret CompExit
  else
    set_status wqe IB_WC_RNR_RETRY_EXC_ERR;;
    mret (CompGoto COMPST_ERROR (Some pkt) (Some wqe)).

(** One iteration of the loop; [qp_error] is [rxe_qp_error]. *)
Definition comp_step (qp_error : eng unit) (st : comp_state) (pkt : option rxe_pkt_info)
    (wqe : option Z) : eng comp_next :=
  match st with
  | COMPST_GET_ACK =>
      skb ← dequeue_resp_pkt;
      match skb with
      | Some p =>
          mod_comp (λ c, c <| comp_timeout_retry := false |>);;
          mret (CompGoto COMPST_GET_WQE (Some p) wqe)
      | None => mret (CompGoto COMPST_GET_WQE pkt wqe)
      end
  | COMPST_GET_WQE => '(st, wqe) ← get_wqe pkt; mret (CompGoto st pkt wqe)
  | COMPST_CHECK_PSN =>
      p ← deref pkt; a ← deref wqe; st ← check_psn p a; mret (CompGoto st pkt wqe)
  | COMPST_CHECK_ACK =>
      p ← deref pkt; a ← deref wqe; st ← check_ack p a; mret (CompGoto st pkt wqe)
  | COMPST_READ => p ← deref pkt; a ← deref wqe; st ← do_read p a; mret (CompGoto st pkt wqe)
  | COMPST_ATOMIC => p ← deref pkt; a ← deref wqe; st ← do_atomic p a; mret (CompGoto st pkt wqe)
  | COMPST_WRITE_SEND =>
      p ← deref pkt; a ← deref wqe; w ← sq_wqe a;
      mret (CompGoto (if bool_decide (wqe_st w = wqe_state_pending)
                         && (wqe_last_psn w =? pkt_psn p)
                      then COMPST_COMP_ACK else COMPST_UPDATE_COMP) pkt wqe)
  | COMPST_COMP_ACK => p ← deref pkt; a ← deref wqe; st ← complete_ack p a; mret (CompGoto st pkt wqe)
  | COMPST_COMP_WQE => a ← deref wqe; st ← complete_wqe pkt a; mret (CompGoto st pkt wqe)
  | COMPST_UPDATE_COMP =>
      p ← deref pkt;
      mod_comp (λ c, c <| comp_opcode := if flag_set (pkt_mask p) RXE_END_MASK then -1
                                         else pkt_opcode p |>);;
      advance_comp_psn p;;
      wake_wait_psn;;
      mret (CompGoto COMPST_DONE pkt wqe)
  | COMPST_DONE =>
      (match pkt with Some p => comp_free_pkt p | None => mret tt end);;
      mret CompDone
  | COMPST_EXIT =>
      n ← comp_exit pkt wqe;
      (match n with CompExit => comp_rearm_timer | _ => mret tt end);;
      mret n
  | COMPST_ERROR_RETRY => comp_error_retry pkt wqe
  | COMPST_RNR_RETRY => p ← deref pkt; a ← deref wqe; comp_rnr_retry_case p a
  | COMPST_ERROR => a ← deref wqe; do_complete a;; qp_error;; mret CompExit
  end.

Fixpoint comp_loop (qp_error : eng unit) (fuel : nat) (st : comp_state) (pkt : option rxe_pkt_info)
    (wqe : option Z) : eng (result unit) :=
  match fuel with
  | O => wild
  | S fuel =>
      n ← comp_step qp_error st pkt wqe;
      match n with
      | CompGoto st pkt wqe => comp_loop qp_error fuel st pkt wqe
      | CompExit => mret (Err EAGAIN)
      | CompDone => mret (Ok tt)
      end
  end.

(** The loops that empty the packet queue and the send queue. *)
Fixpoint comp_drain_pkts (fuel : nat) : eng unit :=
  skb ← dequeue_resp_pkt;
  match skb with
  | None => mret tt
  | Some p => match fuel with O => wild | S fuel => comp_free_pkt p;; comp_drain_pkts fuel end
  end.

Fixpoint comp_drain_sq (fuel : nat) : eng unit :=
  q ← get_qp;
  match queue_head (qp_sq q) with
  | None => mret tt
  | Some _ =>
      match fuel with
      | O => wild
      | S fuel => mod_qp (λ q, q <| qp_sq ::= advance_consumer |>);; comp_drain_sq fuel
      end
  end.

Fixpoint comp_flush_sq (fuel : nat) : eng unit :=
  q ← get_qp;
  match queue_head (qp_sq q) with
  | None => mret tt
  | Some wqe =>
      match fuel with
      | O => wild
      | S fuel => set_status wqe IB_WC_WR_FLUSH_ERR;; do_complete wqe;; comp_flush_sq fuel
      end
  end.

(** As many iterations as there are packets and elements to remove. *)
Definition comp_drain : eng unit :=
  q ← get_qp;
  comp_drain_pkts (length (qp_resp_pkts q));; comp_drain_sq (Z.to_nat (queue_count (qp_sq q))).

Definition comp_flush : eng unit :=
  q ← get_qp;
  comp_drain_pkts (length (qp_resp_pkts q));; comp_flush_sq (Z.to_nat (queue_count (qp_sq q))).

Definition completer_body (qp_error : eng unit) (fuel : nat) : eng (result unit) :=
  q ← get_qp;
  if negb (qp_valid q) then comp_drain;; mret (Err EAGAIN)
  else if bool_decide (req_state (qp_req q) = QP_STATE_ERROR) then comp_flush;; mret (Err EAGAIN)
  else if bool_decide (req_state (qp_req q) = QP_STATE_RESET) then comp_drain;; mret (Err EAGAIN)
  else
    (if comp_timeout (qp_comp q)
     then mod_comp (λ c, c <| comp_timeout_retry := true |> <| comp_timeout := false |>)
     else mod_comp (λ c, c <| comp_timeout_retry := false |>));;
    if req_need_retry (qp_req q) then mret (Err EAGAIN)
    else comp_loop qp_error fuel COMPST_GET_ACK None None.

(** [__rxe_do_task]: call the function until it asks to stop. *)
Fixpoint __rxe_do_task (func : eng (result unit)) (fuel : nat) : eng unit :=
  match fuel with
  | O => wild
  | S fuel =>
      ret ← func;
      match ret with
      | Ok _ => __rxe_do_task func fuel
      | Err _ => mret tt
      end
  end.

(** The completer runs itself when it moves a queue pair that is not reliable
    to the error state. *)
Fixpoint rxe_completer (depth fuel : nat) : eng (result unit) :=
  match depth with
  | O => wild
  | S depth => completer_body (rxe_qp_error (__rxe_do_task (rxe_completer depth fuel) fuel)) fuel
  end.

(** ** Packet accounting

    Every packet in the response queue is counted in [resp_skb_in] and holds a
    reference to the queue pair. [own] is what is counted but not queued, and
    the references not accounted for by packets. *)

Definition own (s : eng_state) : Z * Z :=
  (rdev_resp_skb_in (es_dev s) - Z.of_nat (length (qp_resp_pkts (es_qp s))),
   qp_ref (es_qp s) - rdev_resp_skb_in (es_dev s)).

Lemma keeps_own_do_complete a : keeps own (do_complete a).
Proof. unfold do_complete. keeps_auto. Qed.

Lemma keeps_own_set_status a st : keeps own (set_status a st).
Proof. unfold set_status. keeps_auto. Qed.

Lemma keeps_own_reset : keeps own reset_retry_counters.
Proof. unfold reset_retry_counters. keeps_auto. Qed.

Lemma keeps_own_wake : keeps own wake_wait_psn.
Proof. unfold wake_wait_psn. keeps_auto. Qed.

Lemma keeps_own_advance p : keeps own (advance_comp_psn p).
Proof. unfold advance_comp_psn. keeps_auto. Qed.

Lemma keeps_own_copy_to_wqe a b n : keeps own (copy_to_wqe a b n).
Proof. unfold copy_to_wqe. keeps_auto. Qed.

#[local] Hint Resolve keeps_own_do_complete keeps_own_set_status keeps_own_reset keeps_own_wake
  keeps_own_advance keeps_own_copy_to_wqe : keeps.

Ltac keeps_own :=
  unfold get_wqe, check_psn, check_ack, check_nak, do_read, do_atomic, complete_ack, check_drained,
    complete_wqe, comp_exit, comp_rearm_timer, comp_error_retry, comp_rnr_retry_case, rnrnak_jiffies;
  keeps_auto.

(** The states a step can lead to. *)
Definition onward (st : comp_state) : Prop := st ≠ COMPST_GET_ACK.

Lemma returns_get_wqe pkt : returns (λ r, onward r.1) (get_wqe pkt).
Proof. unfold get_wqe. returns_auto; unfold onward; cbn; repeat case_match; done. Qed.

Lemma returns_check_psn p a : returns onward (check_psn p a).
Proof. unfold check_psn. returns_auto; unfold onward; repeat case_match; done. Qed.

Lemma returns_check_ack p a : returns onward (check_ack p a).
Proof. unfold check_ack, check_nak. returns_auto; done. Qed.

Lemma returns_do_read p a : returns onward (do_read p a).
Proof. unfold do_read. returns_auto; unfold onward; repeat case_match; done. Qed.

Lemma returns_do_atomic p a : returns onward (do_atomic p a).
Proof. unfold do_atomic. returns_auto; unfold onward; repeat case_match; done. Qed.

Lemma returns_complete_ack p a : returns onward (complete_ack p a).
Proof. unfold complete_ack. returns_auto; unfold onward; repeat case_match; done. Qed.

Lemma returns_complete_wqe p a : returns onward (complete_wqe p a).
Proof. unfold complete_wqe. returns_auto; done. Qed.

Lemma returns_comp_exit pkt wqe :
  returns (λ n, n = CompExit ∨ n = CompGoto COMPST_ERROR_RETRY pkt wqe) (comp_exit pkt wqe).
Proof. unfold comp_exit. returns_auto. Qed.

#[local] Hint Resolve returns_comp_exit returns_get_wqe returns_check_psn returns_check_ack returns_do_read
  returns_do_atomic returns_complete_ack returns_complete_wqe : returns.

(** No step but the first takes a packet from the queue, no step goes back to
    the first, and only COMPST_DONE gives the packet back. *)
Lemma comp_step_keeps qe st pkt wqe :
  st ≠ COMPST_GET_ACK → st ≠ COMPST_DONE → keeps own qe → keeps own (comp_step qe st pkt wqe).
Proof.
  intros H1 H2 Hq. destruct st; try done; cbn [comp_step]; keeps_own.
Qed.

Lemma comp_step_next qe st pkt wqe :
  st ≠ COMPST_GET_ACK → st ≠ COMPST_DONE →
  returns (λ n, n ≠ CompDone ∧ ∀ st' pkt' wqe', n = CompGoto st' pkt' wqe' → pkt' = pkt ∧ onward st')
    (comp_step qe st pkt wqe).
Proof.
  intros H1 H2. destruct st; try done; cbn [comp_step];
    unfold comp_error_retry, comp_rnr_retry_case; returns_auto;
    try match goal with H : _ ∨ _ |- _ => destruct H as [-> | ->] end;
    (split; [done|]); intros ??? [= <- <- <-]; cbn in *; repeat case_match; done.
Qed.

Lemma comp_loop_own qe fuel st pkt wqe s :
  st ≠ COMPST_GET_ACK → keeps own qe →
  wp True (comp_loop qe fuel st pkt wqe) (λ r s',
    own s' = match r with
             | Ok _ => ((own s).1 - match pkt with Some _ => 1 | None => 0 end, (own s).2)
             | Err _ => own s
             end) s.
Proof.
  intros Hst Hq. revert st pkt wqe s Hst. induction fuel as [|fuel IH]; intros st pkt wqe s Hst; [done|].
  cbn [comp_loop]. apply wp_bind. destruct (decide (st = COMPST_DONE)) as [->|Hd].
  - cbn [comp_step]. destruct pkt as [p|]; unfold comp_free_pkt, qp_drop_ref; wp_run;
      unfold own; cbn; f_equal; lia.
  - eapply wp_mono; [apply wp_and; [apply (comp_step_keeps qe st pkt wqe Hst Hd Hq)|
      apply (comp_step_next qe st pkt wqe Hst Hd)]|].
    intros n s' (E & Hn & Hg). destruct n as [st' pkt' wqe'| |]; [|by apply wp_ret|done].
    destruct (Hg _ _ _ eq_refl) as [-> Hst']. eapply wp_mono; [by apply IH|].
    intros r s'' E'. rewrite E' , E. done.
Qed.

Lemma keeps_own_drain_pkts fuel : keeps own (comp_drain_pkts fuel).
Proof.
  induction fuel as [|fuel IH]; intros s; cbn [comp_drain_pkts]; unfold dequeue_resp_pkt;
    wp_run; destruct (qp_resp_pkts (es_qp s)) as [|p l] eqn:E; wp_run; try done.
  unfold comp_free_pkt, qp_drop_ref. wp_run. eapply wp_mono; [apply IH|]. intros _ s' ->.
  unfold own. cbn. rewrite E. cbn [length]. f_equal; lia.
Qed.

Lemma keeps_own_drain_sq fuel : keeps own (comp_drain_sq fuel).
Proof. induction fuel; cbn [comp_drain_sq]; keeps_auto. Qed.

Lemma keeps_own_flush_sq fuel : keeps own (comp_flush_sq fuel).
Proof. induction fuel; cbn [comp_flush_sq]; keeps_auto. Qed.

#[local] Hint Resolve keeps_own_drain_pkts keeps_own_drain_sq keeps_own_flush_sq : keeps.

(** A queue pair that takes part in the protocol. *)
Definition alive (q : rxe_qp) : bool :=
  qp_valid q && negb (bool_decide (req_state (qp_req q) = QP_STATE_ERROR))
  && negb (bool_decide (req_state (qp_req q) = QP_STATE_RESET)).

Lemma completer_dead_own depth fuel s :
  alive (es_qp s) = false →
  wp True (rxe_completer depth fuel) (λ r s', own s' = own s ∧ r = Err EAGAIN) s.
Proof.
  intros Ha. destruct depth as [|depth]; [done|]. cbn [rxe_completer]. unfold completer_body.
  wp_run. unfold alive in Ha.
  assert (Hk : keeps own comp_drain ∧ keeps own comp_flush).
  { split; unfold comp_drain, comp_flush; keeps_auto. }
  destruct Hk as [Hd Hf].
  destruct (qp_valid _); cbn [negb andb] in Ha |- *;
    [destruct (bool_decide (_ = QP_STATE_ERROR)); cbn [negb andb] in Ha |- *;
      [|destruct (bool_decide (_ = QP_STATE_RESET)); [|done]]|];
    (wp_run; eapply wp_mono; [apply Hd || apply Hf|]; intros ? s' E; by wp_run).
Qed.

Lemma keeps_own_qp_error depth fuel n :
  keeps own (rxe_qp_error (__rxe_do_task (rxe_completer depth fuel) n)).
Proof.
  intros s. unfold rxe_qp_error. wp_run. apply wp_if; intros _; wp_run; [done|].
  destruct n as [|n]; [done|]. cbn [__rxe_do_task]. wp_run.
  eapply wp_mono; [apply completer_dead_own|].
  - unfold alive. cbn. by rewrite andb_false_r.
  - intros r s' [E ->]. by wp_run.
Qed.

(** What a call that exits leaves behind. *)
Definition leaked (q : rxe_qp) : Z :=
  if req_need_retry (qp_req q) then 0 else match qp_resp_pkts q with [] => 0 | _ => 1 end.

Lemma completer_alive_own depth fuel s :
  alive (es_qp s) = true →
  wp True (rxe_completer depth fuel) (λ r s',
    own s' = ((own s).1 + match r with Ok _ => 0 | Err _ => leaked (es_qp s) end, (own s).2)) s.
Proof.
  intros Ha. destruct depth as [|depth]; [done|]. cbn [rxe_completer]. unfold completer_body. wp_run.
  unfold alive in Ha.
  apply andb_true_iff in Ha as [[Hv He%negb_true_iff]%andb_true_iff Hr%negb_true_iff].
  rewrite Hv, He, Hr. cbn [negb]. set (qe := rxe_qp_error _).
  assert (Hq : keeps own qe) by apply keeps_own_qp_error. clearbody qe. unfold leaked.
  apply wp_bind, (wp_mono _ _ (λ _ s1, own s1 = own s ∧ qp_resp_pkts (es_qp s1) = qp_resp_pkts (es_qp s))).
  { apply wp_if; intros _; by wp_run. }
  intros _ s1 [E1 Hp1]. rewrite <- E1, <- Hp1. clear E1 Hp1. apply wp_if; intros ->; wp_run.
  { destruct (own s1). cbn. f_equal. lia. }
  destruct fuel as [|fuel]; [done|]. cbn [comp_loop comp_step]. unfold dequeue_resp_pkt. wp_run.
  destruct (qp_resp_pkts (es_qp s1)) as [|p l] eqn:E; wp_run.
  - eapply wp_mono; [by apply comp_loop_own|]. intros r s' ->. destruct (own s1), r; cbn; f_equal; lia.
  - eapply wp_mono; [by apply comp_loop_own|]. intros r s' ->. unfold own. cbn. rewrite E. cbn [length].
    destruct r; f_equal; lia.
Qed.

(** Every response packet the completer takes from its queue is freed
    again, with its reference to the queue pair, when the call returns 0; when
    a call on a live queue pair exits after it took a packet (it is out of
    retries, or starts one, or hits an error) the packet and its reference
    stay behind: nothing counts them down any more. *)
Theorem completer_leaks_on_exit depth fuel s r s' :
  rxe_completer depth fuel s = Some (r, s') →
  (alive (es_qp s) = false ∨ r = Ok tt → own s' = own s) ∧
  (alive (es_qp s) = true → r ≠ Ok tt → own s' = ((own s).1 + leaked (es_qp s), (own s).2)).
Proof.
  intros E. destruct (alive (es_qp s)) eqn:Ha.
  - pose proof (wp_use _ _ _ _ _ _ (completer_alive_own depth fuel s Ha) E) as E'. cbv beta in E'.
    destruct r as [[]|e]; [|split; [by intros []|by intros _ _]]. split; [|by intros _ []]. intros _. rewrite E', Z.add_0_r.
    symmetry. apply surjective_pairing.
  - destruct (wp_use _ _ _ _ _ _ (completer_dead_own depth fuel s Ha) E) as [E' _].
    split; [by intros _|done].
Qed.

(** ** Acknowledgements and the elements they complete

    [view k n s wl cl]: the send queue of [s] holds the elements [wl], the
    completion queue of its queue pair the completions [cl]. *)

Definition view (k n : Z) (s : eng_state) (wl : list rxe_send_wqe) (cl : list ib_wc) : Prop :=
  queue_wf k (qp_sq (es_qp s)) ∧ queue_list (qp_sq (es_qp s)) = wl ∧
  ∃ cq, rdev_cqs (es_dev s) !! qp_scq (es_qp s) = Some cq ∧ cq_wf n cq ∧ cq_list cq = cl.

(** The rest of the state a completion depends on. *)
Definition fixed (s : eng_state) :=
  (qp_sq_sig_type (es_qp s), qp_scq (es_qp s), qp_qp_num (es_qp s), qp_resp_pkts (es_qp s),
   qp_attr (es_qp s), req_state (qp_req (es_qp s)), req_psn (qp_req (es_qp s)),
   qp_valid (es_qp s), req_need_retry (qp_req (es_qp s))).

Definition signaled (q : rxe_qp) (w : rxe_send_wqe) : bool :=
  (qp_sq_sig_type q =? IB_SIGNAL_ALL_WR) || flag_set (wr_send_flags (wqe_ibwr w)) IB_SEND_SIGNALED.

(** The completions a list of elements gives rise to, in order. *)
Definition completions (q : rxe_qp) (ws : list rxe_send_wqe) : list ib_wc :=
  make_send_cqe q <$> filter (λ w, signaled q w) ws.

Lemma wp_sq_wqe_head F k n s a w wl cl Q :
  a = consumer_addr (qp_sq (es_qp s)) → view k n s (w :: wl) cl → Q w s → wp F (sq_wqe a) Q s.
Proof.
  intros -> (Hwf & Hl & _) HQ. unfold sq_wqe. wp_run.
  destruct (queue_head_cons k _ w wl Hwf Hl) as (_ & -> & _). by apply wp_ret.
Qed.

Lemma wp_emit_cq F id l s Q :
  (∀ s', es_qp s' = es_qp s → es_dev s' = es_dev s → es_alloc s' = es_alloc s →
     es_send s' = es_send s → Q tt s') →
  wp F (emit_cq id l) Q s.
Proof.
  revert s. induction l as [|e l IH]; intros s HQ; cbn [emit_cq]; wp_run; [by apply HQ|].
  apply IH. intros s' E1 E2 E3 E4. by apply HQ.
Qed.

Lemma wp_cq_post F k n s wl cl wc sol Q :
  view k n s wl cl → Z.of_nat (length cl) < n →
  (∀ s', view k n s' wl (cl ++ [wc]) → es_qp s' = es_qp s → Q (Ok tt) s') →
  wp F (cq_post (qp_scq (es_qp s)) wc sol) Q s.
Proof.
  intros (Hwf & Hl & cq & Hcq & Hcwf & <-) Hn HQ. unfold cq_post. wp_run. rewrite Hcq. wp_run.
  destruct (rxe_cq_post_room n cq wc sol Hcwf Hn) as (cq' & ev & -> & Hwf' & Hl' & _).
  wp_run. apply wp_emit_cq. intros s' E1 E2 _ _. wp_run. apply HQ; [|done].
  unfold view. rewrite E1, E2. cbn. rewrite lookup_insert_eq. eauto 8.
Qed.

Lemma wp_do_complete F k n s a w wl cl Q :
  a = consumer_addr (qp_sq (es_qp s)) → view k n s (w :: wl) cl → Z.of_nat (length cl + length (completions (es_qp s) [w])) ≤ n →
  (∀ s', view k n s' wl (cl ++ completions (es_qp s) [w]) → fixed s' = fixed s →
     qp_comp (es_qp s') = qp_comp (es_qp s) → Q tt s') →
  wp F (do_complete a) Q s.
Proof.
  intros -> Hv Hn HQ. unfold do_complete. wp_run. eapply wp_sq_wqe_head; [done|done|].
  fold (signaled (es_qp s) w). unfold completions in *. cbn [filter list_filter] in *.
  wp_run. apply (wp_mono _ _ (λ _ s1, view k n s1 (w :: wl)
    (cl ++ completions (es_qp s) [w]) ∧ es_qp s1 = es_qp s)).
  { unfold completions. cbn [filter list_filter]. apply wp_when; intros Hs; rewrite Hs in *.
    - wp_run. eapply wp_cq_post; [done| |by intros; wp_run]. rewrite decide_True in Hn by done.
      cbn in Hn. lia.
    - rewrite decide_False by naive_solver. by rewrite app_nil_r. }
  intros _ s1 [(Hwf & Hl & Hc) E]. wp_run. rewrite E in *.
  destruct (queue_head_cons k _ w wl Hwf Hl) as (_ & _ & Hwf' & Hl').
  apply wp_when; intros _; wp_run; apply HQ; unfold view, fixed; cbn; rewrite ?E; done.
Qed.

(** *** One response for many requests *)

Definition next_psn (p : rxe_pkt_info) : Z := u32 (pkt_psn p + 1) .& BTH_PSN_MASK.

Lemma psn_compare_next p : psn_compare (pkt_psn p) (next_psn p) < 0.
Proof.
  rewrite psn_compare_dist. unfold next_psn, BTH_PSN_MASK, psn_dist.
  change 0x00ffffff with (2 ^ 24 - 1). rewrite land_u32_mask by lia. Z.div_mod_to_equations. lia.
Qed.

Lemma psn_compare_refl a : psn_compare a a = 0.
Proof. unfold psn_compare. by rewrite Z.sub_diag. Qed.

(** A send or write whose packets are out and that holds no credit. *)
Definition waiting (w : rxe_send_wqe) : Prop :=
  wqe_st w = wqe_state_pending ∧ flag_set (wqe_mask w) WR_ATOMIC_OR_READ_MASK = false ∧
  wqe_has_rd_atomic w = false.

Lemma wp_get_wqe F k n s w wl cl p Q :
  view k n s (w :: wl) cl → wqe_st w = wqe_state_pending →
  Q (COMPST_CHECK_PSN, Some (consumer_addr (qp_sq (es_qp s)))) s → wp F (get_wqe (Some p)) Q s.
Proof.
  intros Hv Hst HQ. unfold get_wqe. wp_run. pose proof Hv as (Hwf & Hl & _).
  destruct (queue_head_cons k _ w wl Hwf Hl) as (-> & _). wp_run.
  eapply wp_sq_wqe_head; [done|done|]. by rewrite Hst.
Qed.

Lemma wp_comp_loop F qe fuel st pkt wqe Q s :
  wp F (comp_step qe st pkt wqe) (λ n s', match n with
    | CompGoto st pkt wqe => wp F (comp_loop qe fuel st pkt wqe) Q s'
    | CompExit => Q (Err EAGAIN) s'
    | CompDone => Q (Ok tt) s'
    end) s → wp F (comp_loop qe (S fuel) st pkt wqe) Q s.
Proof.
  intros Hw. cbn [comp_loop]. apply wp_bind. eapply wp_mono; [exact Hw|]. by intros [].
Qed.

Ltac comp_go := apply wp_comp_loop; cbn [comp_step]; wp_run.

Lemma completions_fixed s s' : fixed s' = fixed s → completions (es_qp s') = completions (es_qp s).
Proof.
  unfold fixed, completions, signaled, make_send_cqe. intros Hf. injection Hf as E1 E2 E3 _ _ _ _ _ _.
  by rewrite E1, E3.
Qed.

(** An element before the one the response is for is completed, and the
    completer counts the response's packet as acknowledged. *)
Lemma wp_pass_one F qe fuel k n s w wl cl p a Q :
  view k n s (w :: wl) cl → waiting w → 0 < psn_compare (pkt_psn p) (wqe_last_psn w) →
  Z.of_nat (length cl + length (completions (es_qp s) [w])) ≤ n →
  0 ≤ psn_compare (pkt_psn p) (comp_psn (qp_comp (es_qp s)))
    ∨ comp_psn (qp_comp (es_qp s)) = next_psn p →
  (∀ s1 a', view k n s1 wl (cl ++ completions (es_qp s) [w]) → fixed s1 = fixed s →
     comp_psn (qp_comp (es_qp s1)) = next_psn p →
     wp F (comp_loop qe fuel COMPST_GET_WQE (Some p) a') Q s1) →
  wp F (comp_loop qe (S (S (S fuel))) COMPST_GET_WQE (Some p) a) Q s.
Proof.
  intros Hv (Hst & Hm & _) Hgt Hn Hpsn HQ. comp_go.
  eapply wp_get_wqe; [done..|]. wp_run. comp_go. unfold check_psn. wp_run. eapply wp_sq_wqe_head; [done|done|].
  wp_run. rewrite Hst, Hm. destruct (Z.gtb_spec (psn_compare (pkt_psn p) (wqe_last_psn w)) 0); [|lia].
  cbn. unfold reset_retry_counters. wp_run. comp_go. unfold complete_wqe. wp_run. unfold advance_comp_psn. wp_run.
  apply (wp_mono _ _ (λ _ s1, view k n s1 (w :: wl) cl ∧ fixed s1 = fixed s ∧
    comp_psn (qp_comp (es_qp s1)) = next_psn p ∧ qp_sq (es_qp s1) = qp_sq (es_qp s))).
  - apply wp_when; cbn; intros Hb; wp_run; [done|]. repeat split; try apply Hv.
    destruct Hpsn as [Hp|Hp]; [|exact Hp]. destruct (Z.geb_spec (psn_compare (pkt_psn p)
      (comp_psn (qp_comp (es_qp s)))) 0); [done|lia].
  - intros _ s1 (Hv1 & Hf1 & Hp1 & Hsq). unfold wake_wait_psn. wp_run.
    apply (wp_mono _ _ (λ _ s2, view k n s2 (w :: wl) cl ∧ fixed s2 = fixed s ∧
      comp_psn (qp_comp (es_qp s2)) = next_psn p ∧ qp_sq (es_qp s2) = qp_sq (es_qp s))).
    { apply wp_when; intros _; by wp_run. }
    intros _ s2 (Hv2 & Hf2 & Hp2 & <-).
    rewrite <- (completions_fixed s s2) in * by done.
    wp_run. eapply wp_do_complete; [done..|]. intros s3 Hv3 Hf3 Hp3. wp_run.
    apply HQ; congruence.
Qed.

Lemma wp_complete_ack F k n s a w wl cl p Q :
  a = consumer_addr (qp_sq (es_qp s)) → view k n s (w :: wl) cl → wqe_has_rd_atomic w = false → req_state (qp_req (es_qp s)) ≠ QP_STATE_DRAIN →
  Z.of_nat (length cl + length (completions (es_qp s) [w])) ≤ n →
  (∀ s', view k n s' wl (cl ++ completions (es_qp s) [w]) → fixed s' = fixed s →
     qp_comp (es_qp s') = qp_comp (es_qp s) →
     Q (if psn_compare (pkt_psn p) (comp_psn (qp_comp (es_qp s))) >=? 0 then COMPST_UPDATE_COMP
        else COMPST_DONE) s') →
  wp F (complete_ack p a) Q s.
Proof.
  intros -> Hv Hrd Hd Hn HQ. unfold complete_ack. wp_run. eapply wp_sq_wqe_head; [done|done|].
  rewrite Hrd. wp_run. unfold check_drained. wp_run. rewrite bool_decide_eq_false_2 by done. cbn [andb]. wp_run.
  eapply wp_do_complete; [done..|]. intros s' Hv' Hf Hc. wp_run. rewrite Hc. by apply HQ.
Qed.

(** The element the response is for. *)
Lemma wp_last F qe fuel k n s w wl cl p a Q :
  view k n s (w :: wl) cl → waiting w → wqe_last_psn w = pkt_psn p →
  req_state (qp_req (es_qp s)) ≠ QP_STATE_DRAIN →
  Z.of_nat (length cl + length (completions (es_qp s) [w])) ≤ n →
  comp_psn (qp_comp (es_qp s)) = next_psn p
    ∨ (0 ≤ psn_compare (pkt_psn p) (comp_psn (qp_comp (es_qp s))) ∧
       comp_opcode (qp_comp (es_qp s)) = -1 ∧ pkt_opcode p = IB_OPCODE_RC_ACKNOWLEDGE ∧
       flag_set (pkt_mask p) RXE_START_MASK = true ∧ aeth_syn p .& AETH_TYPE_MASK = AETH_ACK) →
  (∀ s', view k n s' wl (cl ++ completions (es_qp s) [w]) → fixed s' = fixed s →
     comp_psn (qp_comp (es_qp s')) = next_psn p → Q (Ok tt) s') →
  wp F (comp_loop qe (7 + fuel)%nat COMPST_GET_WQE (Some p) a) Q s.
Proof.
  intros Hv (Hst & Hm & Hrd) Hp Hd Hn Hpsn HQ. cbn [Nat.add]. comp_go.
  eapply wp_get_wqe; [done..|]. wp_run. comp_go. unfold check_psn. wp_run.
  eapply wp_sq_wqe_head; [done|done|]. wp_run. rewrite Hp, psn_compare_refl, Hst, Hm, Z.eqb_refl. cbn [Z.gtb Z.compare].
  destruct Hpsn as [Hpsn|(Hge & Hop & Hack & Hstart & Hsyn)].
  - rewrite Hpsn. pose proof (psn_compare_next p). destruct (Z.ltb_spec (psn_compare (pkt_psn p) (next_psn p)) 0); [|lia].
    wp_run. comp_go. eapply wp_complete_ack; [done..|]. intros s1 Hv1 Hf1 Hc1. wp_run.
    rewrite Hpsn. destruct (Z.geb_spec (psn_compare (pkt_psn p) (next_psn p)) 0); [lia|].
    comp_go. unfold comp_free_pkt, qp_drop_ref. wp_run. apply HQ; [done|done|cbn; congruence].
  - destruct (Z.ltb_spec (psn_compare (pkt_psn p) (comp_psn (qp_comp (es_qp s)))) 0); [lia|].
    rewrite andb_false_r. wp_run. comp_go. unfold check_ack. wp_run. eapply wp_sq_wqe_head; [done|done|].
    unfold ack_out_of_sequence. rewrite Hop, Hack, Hstart, Hsyn. cbn -[comp_loop]. wp_run.
    unfold reset_retry_counters. wp_run. comp_go. eapply (wp_sq_wqe_head _ k n); [done|done|]. wp_run.
    rewrite Hst, Hp, Z.eqb_refl, bool_decide_eq_true_2 by done. cbn [andb]. comp_go.
    eapply (wp_complete_ack _ k n _ _ w wl cl); [done..|]. intros s1 Hv1 Hf1 Hc1. wp_run.
    cbn -[comp_loop]. destruct (Z.geb_spec (psn_compare (pkt_psn p) (comp_psn (qp_comp (es_qp s)))) 0); [|lia].
    comp_go. unfold advance_comp_psn. wp_run.
    apply (wp_mono _ _ (λ _ s2, view k n s2 wl (cl ++ completions (es_qp s) [w]) ∧ fixed s2 = fixed s ∧
      comp_psn (qp_comp (es_qp s2)) = next_psn p)).
    { apply wp_when; cbn; rewrite Hc1; cbn; intros Hb; [by wp_run|].
      destruct (Z.geb_spec (psn_compare (pkt_psn p) (comp_psn (qp_comp (es_qp s)))) 0); [done|lia]. }
    intros _ s2 (Hv2 & Hf2 & Hp2). unfold wake_wait_psn. wp_run.
    apply (wp_mono _ _ (λ _ s3, view k n s3 wl (cl ++ completions (es_qp s) [w]) ∧ fixed s3 = fixed s ∧
      comp_psn (qp_comp (es_qp s3)) = next_psn p)).
    { apply wp_when; intros _; by wp_run. }
    intros _ s3 (Hv3 & Hf3 & Hp3). wp_run. comp_go. unfold comp_free_pkt, qp_drop_ref. wp_run.
    by apply HQ.
Qed.

Lemma completions_cons q w ws : completions q (w :: ws) = completions q [w] ++ completions q ws.
Proof. unfold completions. rewrite <- fmap_app. f_equal. apply (list.filter_app _ [w]). Qed.

Lemma wp_coalesce F qe k n p w rest ws : ∀ s cl a fuel Q,
  view k n s (ws ++ w :: rest) cl →
  Forall (λ w, waiting w ∧ 0 < psn_compare (pkt_psn p) (wqe_last_psn w)) ws →
  waiting w → wqe_last_psn w = pkt_psn p →
  req_state (qp_req (es_qp s)) ≠ QP_STATE_DRAIN →
  Z.of_nat (length cl + length (completions (es_qp s) (ws ++ [w]))) ≤ n →
  comp_psn (qp_comp (es_qp s)) = next_psn p
    ∨ (0 ≤ psn_compare (pkt_psn p) (comp_psn (qp_comp (es_qp s))) ∧
       (ws = [] → comp_opcode (qp_comp (es_qp s)) = -1 ∧ pkt_opcode p = IB_OPCODE_RC_ACKNOWLEDGE ∧
          flag_set (pkt_mask p) RXE_START_MASK = true ∧ aeth_syn p .& AETH_TYPE_MASK = AETH_ACK)) →
  (∀ s', view k n s' rest (cl ++ completions (es_qp s) (ws ++ [w])) → fixed s' = fixed s →
     comp_psn (qp_comp (es_qp s')) = next_psn p → Q (Ok tt) s') →
  wp F (comp_loop qe (3 * length ws + (7 + fuel))%nat COMPST_GET_WQE (Some p) a) Q s.
Proof.
  induction ws as [|w1 ws IH]; intros s cl a fuel Q Hv Hws Hw Hl Hd Hn Hp HQ.
  { change (3 * length [] + (7 + fuel))%nat with (7 + fuel)%nat.
    eapply wp_last; try done. destruct Hp as [?|[? Hx]]; [by left|right]. naive_solver. }
  replace (3 * length (w1 :: ws) + (7 + fuel))%nat with (S (S (S (3 * length ws + (7 + fuel)))))
    by (cbn [length]; lia).
  apply Forall_cons_1 in Hws as [[Hw1 Hlt] Hws]. cbn [app] in *.
  rewrite completions_cons in Hn, HQ. rewrite length_app in Hn.
  eapply wp_pass_one; [done..|lia|tauto|]. intros s1 a' Hv1 Hf1 Hp1.
  assert (Hd1 : req_state (qp_req (es_qp s1)) = req_state (qp_req (es_qp s))).
  { unfold fixed in Hf1. congruence. }
  eapply IH; try done; [congruence| |by left|]; rewrite (completions_fixed s s1 Hf1).
  - rewrite length_app. lia.
  - intros s' Hv' Hf' Hp'. apply HQ; [by rewrite app_assoc|congruence|done].
Qed.

(** The situation in which a response meets several outstanding sends and
    writes: those in [ws] come before the one it is for, [w]. *)
Record outstanding (k n : Z) (s : eng_state) (p : rxe_pkt_info) (pkts : list rxe_pkt_info)
    (ws : list rxe_send_wqe) (w : rxe_send_wqe) (rest : list rxe_send_wqe) (cl : list ib_wc) : Prop := {
  out_alive : alive (es_qp s) = true;
  out_retry : req_need_retry (qp_req (es_qp s)) = false;
  out_drain : req_state (qp_req (es_qp s)) ≠ QP_STATE_DRAIN;
  out_pkts : qp_resp_pkts (es_qp s) = p :: pkts;
  out_view : view k n s (ws ++ w :: rest) cl;
  out_before : Forall (λ w, waiting w ∧ 0 < psn_compare (pkt_psn p) (wqe_last_psn w)) ws;
  out_for : waiting w ∧ wqe_last_psn w = pkt_psn p;
  out_new : 0 ≤ psn_compare (pkt_psn p) (comp_psn (qp_comp (es_qp s)));
  out_room : Z.of_nat (length cl + length (completions (es_qp s) (ws ++ [w]))) ≤ n
}.

(** The next packet of a queue pair that takes part in the protocol. *)
Lemma wp_completer_pkt F depth fuel s p pkts Q :
  alive (es_qp s) = true → req_need_retry (qp_req (es_qp s)) = false → qp_resp_pkts (es_qp s) = p :: pkts →
  (∀ qe c s1, s1 = s <| es_qp ::= λ q, q <| qp_comp := c |> <| qp_resp_pkts := pkts |> |> →
     comp_psn c = comp_psn (qp_comp (es_qp s)) → comp_opcode c = comp_opcode (qp_comp (es_qp s)) →
     wp F (comp_loop qe fuel COMPST_GET_WQE (Some p) None) Q s1) →
  wp F (rxe_completer (S depth) (S fuel)) Q s.
Proof.
  intros Ha Hr Hp HQ. cbn [rxe_completer]. unfold completer_body. wp_run. unfold alive in Ha.
  apply andb_true_iff in Ha as [[Hva He%negb_true_iff]%andb_true_iff Hre%negb_true_iff].
  rewrite Hva, He, Hre, Hr. cbn [negb]. wp_run. set (qe := rxe_qp_error _). clearbody qe.
  apply (wp_mono _ _ (λ _ s1, ∃ c, s1 = s <| es_qp ::= λ q, q <| qp_comp := c |> |> ∧
    comp_psn c = comp_psn (qp_comp (es_qp s)) ∧ comp_opcode c = comp_opcode (qp_comp (es_qp s)))).
  { apply wp_if; intros _; wp_run; by eexists. }
  intros _ s1 (c & -> & Hc1 & Hc2). comp_go. unfold dequeue_resp_pkt. wp_run. cbn. rewrite Hp. wp_run.
  by eapply (HQ qe (c <| comp_timeout_retry := false |>)).
Qed.

Lemma completer_coalesced k n s p pkts ws w rest cl depth fuel :
  outstanding k n s p pkts ws w rest cl →
  ws ≠ [] ∨ (comp_opcode (qp_comp (es_qp s)) = -1 ∧ pkt_opcode p = IB_OPCODE_RC_ACKNOWLEDGE ∧
    flag_set (pkt_mask p) RXE_START_MASK = true ∧ aeth_syn p .& AETH_TYPE_MASK = AETH_ACK) →
  ∃ s', rxe_completer (S depth) (3 * length ws + 8 + fuel) s = Some (Ok tt, s') ∧
    view k n s' rest (cl ++ completions (es_qp s) (ws ++ [w])) ∧
    comp_psn (qp_comp (es_qp s')) = (pkt_psn p + 1) mod 2 ^ 24 ∧ qp_resp_pkts (es_qp s') = pkts.
Proof.
  intros [Ha Hr Hd Hp Hv Hb [Hw Hl] Hn Hroom] Hcase.
  enough (Hwp : wp False (rxe_completer (S depth) (3 * length ws + 8 + fuel)) (λ r s', r = Ok tt ∧
    view k n s' rest (cl ++ completions (es_qp s) (ws ++ [w])) ∧
    comp_psn (qp_comp (es_qp s')) = (pkt_psn p + 1) mod 2 ^ 24 ∧ qp_resp_pkts (es_qp s') = pkts) s).
  { apply wp_total in Hwp as (r & s' & E & -> & ?). by exists s'. }
  replace (3 * length ws + 8 + fuel)%nat with (S (3 * length ws + (7 + fuel))) by lia.
  eapply wp_completer_pkt; [done..|]. intros qe c s1 -> Hc1 Hc2.
  eapply (wp_coalesce _ _ k n p w rest ws); try done.
  - cbn. rewrite Hc1, Hc2. right. split; [done|]. intros ->. by destruct Hcase.
  - intros s' Hv' Hf' Hp'. split; [done|]. split; [done|]. split.
    + rewrite Hp'. unfold next_psn, BTH_PSN_MASK. change 0x00ffffff with (2 ^ 24 - 1).
      apply land_u32_mask. lia.
    + unfold fixed in Hf'. cbn in Hf'. congruence.
Qed.

(** C8: an acknowledgement completes every outstanding send and write up to
    and including the one whose last packet it names, in the order they were
    posted and with one completion for each that asked for one; the expected
    sequence number moves past it, and the call returns 0 within the fuel,
    three steps for each element that precedes. *)
Theorem completer_ack_completes k n s p pkts ws w rest cl depth fuel :
  outstanding k n s p pkts ws w rest cl → comp_opcode (qp_comp (es_qp s)) = -1 →
  pkt_opcode p = IB_OPCODE_RC_ACKNOWLEDGE → flag_set (pkt_mask p) RXE_START_MASK = true →
  aeth_syn p .& AETH_TYPE_MASK = AETH_ACK →
  ∃ s', rxe_completer (S depth) (3 * length ws + 8 + fuel) s = Some (Ok tt, s') ∧
    view k n s' rest (cl ++ completions (es_qp s) (ws ++ [w])) ∧
    comp_psn (qp_comp (es_qp s')) = (pkt_psn p + 1) mod 2 ^ 24 ∧ qp_resp_pkts (es_qp s') = pkts.
Proof. intros Ho. intros. apply (completer_coalesced k n s p); [done|by right]. Qed.

(** A negative acknowledgement that meets an earlier outstanding send or
    write is not looked at: the earlier elements complete, and so does, as a
    success, the very element it refuses. *)
Theorem completer_nak_completes k n s p pkts ws w rest cl depth fuel :
  outstanding k n s p pkts ws w rest cl → ws ≠ [] → wqe_status w = IB_WC_SUCCESS →
  pkt_opcode p = IB_OPCODE_RC_ACKNOWLEDGE →
  aeth_syn p .& AETH_TYPE_MASK = AETH_NAK ∨ aeth_syn p .& AETH_TYPE_MASK = AETH_RNR_NAK →
  ∃ s', rxe_completer (S depth) (3 * length ws + 8 + fuel) s = Some (Ok tt, s') ∧
    view k n s' rest (cl ++ completions (es_qp s) (ws ++ [w])) ∧
    comp_psn (qp_comp (es_qp s')) = (pkt_psn p + 1) mod 2 ^ 24 ∧
    (signaled (es_qp s) w = true → ∃ l wc, completions (es_qp s) (ws ++ [w]) = l ++ [wc] ∧
       wc_wr_id wc = wr_id (wqe_ibwr w) ∧ wc_status wc = IB_WC_SUCCESS).
Proof.
  intros Ho Hws Hst _ _. destruct (completer_coalesced k n s p pkts ws w rest cl depth fuel Ho)
    as (s' & E & Hv & Hp & _); [by left|]. exists s'. do 3 (split; [done|]). intros Hs.
  exists (completions (es_qp s) ws), (make_send_cqe (es_qp s) w). split; [|done]. unfold completions.
  rewrite list.filter_app, fmap_app. cbn [filter list_filter]. by rewrite decide_True by by rewrite Hs.
Qed.

(** *** Flushing a queue pair in the error state *)

Definition flushed (w : rxe_send_wqe) : rxe_send_wqe := w <| wqe_status := IB_WC_WR_FLUSH_ERR |>.

Lemma wp_set_status F k n s a w wl cl st Q :
  a = consumer_addr (qp_sq (es_qp s)) → view k n s (w :: wl) cl →
  (∀ s', view k n s' (w <| wqe_status := st |> :: wl) cl → fixed s' = fixed s →
     consumer_addr (qp_sq (es_qp s')) = a → Q tt s') →
  wp F (set_status a st) Q s.
Proof.
  intros -> Hv HQ. unfold set_status, upd_wqe. wp_run. eapply wp_sq_wqe_head; [done|done|]. wp_run.
  destruct Hv as (Hwf & Hl & Hc). apply HQ; [|done|done].
  split; [by apply store_at_wf|]. split; [by eapply queue_update_head|done].
Qed.

Lemma wp_flush_sq F k n wl : ∀ s cl fuel Q,
  view k n s wl cl → (length wl ≤ fuel)%nat →
  Z.of_nat (length cl + length (completions (es_qp s) (flushed <$> wl))) ≤ n →
  (∀ s', view k n s' [] (cl ++ completions (es_qp s) (flushed <$> wl)) → fixed s' = fixed s → Q tt s') →
  wp F (comp_flush_sq fuel) Q s.
Proof.
  induction wl as [|w wl IH]; intros s cl fuel Q Hv Hf Hn HQ; pose proof Hv as (Hwf & Hl & _).
  { destruct fuel; cbn [comp_flush_sq]; wp_run; rewrite (queue_head_nil k) by done; wp_run;
      apply HQ; by rewrite ?app_nil_r. }
  destruct fuel as [|fuel]; [cbn in Hf; lia|]. cbn [comp_flush_sq]. wp_run.
  destruct (queue_head_cons k _ w wl Hwf Hl) as (-> & _). wp_run.
  cbn [fmap list_fmap] in Hn, HQ. rewrite completions_cons in Hn, HQ. rewrite length_app in Hn.
  eapply wp_set_status; [done|done|]. intros s1 Hv1 Hf1 Ha1. wp_run.
  rewrite <- (completions_fixed s s1 Hf1) in Hn, HQ.
  eapply wp_do_complete; [done|done|unfold flushed in Hn; lia|]. intros s2 Hv2 Hf2 _.
  rewrite <- (completions_fixed s1 s2 Hf2) in *.
  eapply IH; [done|cbn in Hf; lia|rewrite length_app; unfold flushed in *; lia|].
  intros s3 Hv3 Hf3. apply HQ; [by rewrite app_assoc|congruence].
Qed.

Lemma wp_drain_pkts F k n wl cl : ∀ s fuel Q,
  view k n s wl cl → (length (qp_resp_pkts (es_qp s)) ≤ fuel)%nat →
  (∀ s', view k n s' wl cl → qp_resp_pkts (es_qp s') = [] →
     completions (es_qp s') = completions (es_qp s) → Q tt s') →
  wp F (comp_drain_pkts fuel) Q s.
Proof.
  intros s fuel. revert s. induction fuel as [|fuel IH]; intros s Q Hv Hf HQ; cbn [comp_drain_pkts];
    unfold dequeue_resp_pkt; wp_run; destruct (qp_resp_pkts (es_qp s)) as [|p l] eqn:E;
    try (wp_run; by apply HQ); [cbn in Hf; lia|].
  wp_run. unfold comp_free_pkt, qp_drop_ref. wp_run. apply IH; [done|cbn in *; lia|].
  intros s' Hv' Hp' Hc'. by apply HQ.
Qed.

(** On a queue pair in the error state the completer frees every response
    packet and completes every element of the send queue with a flush error,
    in the order they were posted; it needs no fuel besides what the two
    queues hold, and leaves no packet or reference behind. *)
Theorem completer_flush k n s wl cl depth fuel :
  qp_valid (es_qp s) = true → req_state (qp_req (es_qp s)) = QP_STATE_ERROR → view k n s wl cl →
  Z.of_nat (length cl + length (completions (es_qp s) (flushed <$> wl))) ≤ n →
  ∃ s', rxe_completer (S depth) fuel s = Some (Err EAGAIN, s') ∧
    view k n s' [] (cl ++ completions (es_qp s) (flushed <$> wl)) ∧
    qp_resp_pkts (es_qp s') = [] ∧ own s' = own s.
Proof.
  intros Hva He Hv Hn.
  enough (Hwp : wp False (rxe_completer (S depth) fuel) (λ r s', r = Err EAGAIN ∧
    view k n s' [] (cl ++ completions (es_qp s) (flushed <$> wl)) ∧ qp_resp_pkts (es_qp s') = []) s).
  { apply wp_total in Hwp as (r & s' & E & -> & Hv' & Hp'). exists s'. repeat (split; [done|]).
    refine (proj1 (wp_use _ _ _ _ _ _ (completer_dead_own (S depth) fuel s _) E)).
    unfold alive. by rewrite Hva, He. }
  cbn [rxe_completer]. unfold completer_body. wp_run. rewrite Hva. cbn [negb].
  rewrite bool_decide_eq_true_2 by done. unfold comp_flush. wp_run.
  eapply wp_drain_pkts; [done|done|]. intros s1 Hv1 Hp1 Hc1. pose proof Hv as (Hwf & Hl & _).
  eapply wp_flush_sq; [done| |by rewrite Hc1|].
  - pose proof (queue_list_length k _ Hwf) as Hlen. rewrite Hl in Hlen. lia.
  - intros s2 Hv2 Hf2. wp_run. rewrite Hc1 in Hv2. split; [done|]. split; [done|].
    unfold fixed in Hf2. congruence.
Qed.

(** ** The completer returns

    [base]: the send queue is well formed and the completion queue exists;
    [copyable]: a copy into the buffers of any element of the send queue
    returns; [pkt_sane]: the payload of a packet lies inside it. *)

Definition base (k : Z) (s : eng_state) : Prop :=
  queue_wf k (qp_sq (es_qp s)) ∧ is_Some (rdev_cqs (es_dev s) !! qp_scq (es_qp s)).

Definition copyable (s : eng_state) : Prop :=
  dev_good (rdev_mem (es_dev s)) ∧
  Forall (λ w, dma_ok (wqe_dma w) ∧ 0 ≤ dma_sge_offset (wqe_dma w)) (buf_data (q_buf (qp_sq (es_qp s)))).

Definition pkt_sane (p : rxe_pkt_info) : Prop :=
  0 ≤ payload_addr p ∧ s32 (payload_size p) ≤ Z.of_nat (length (pkt_hdr p)) - payload_addr p.

(** What the two depend on besides the completion queue. *)
Definition frame (s : eng_state) :=
  (rdev_mem (es_dev s), wqe_dma <$> buf_data (q_buf (qp_sq (es_qp s))),
   qp_sq (es_qp s) <| q_buf ::= λ b, b <| buf_data := [] |> |>,
   qp_scq (es_qp s), dom (rdev_cqs (es_dev s))).

Lemma frame_base k s s' : frame s' = frame s → base k s → base k s'.
Proof.
  unfold frame, base. intros E [[[] ? ?] Hc]. apply pair_eq in E as [[[[E1 E2]%pair_eq E3]%pair_eq E4]%pair_eq E5].
  split; [|by apply elem_of_dom; rewrite E4, E5; apply elem_of_dom].
  assert (Hl : length (buf_data (q_buf (qp_sq (es_qp s')))) = length (buf_data (q_buf (qp_sq (es_qp s))))).
  { by rewrite <- !(length_fmap wqe_dma), E2. }
  destruct (qp_sq (es_qp s')) as [[]], (qp_sq (es_qp s)) as [[]]. unfold upd_field in E3. cbn in *.
  inversion E3. subst. split; [split|..]; cbn; done || lia.
Qed.

Lemma frame_count s s' : frame s' = frame s → queue_count (qp_sq (es_qp s')) = queue_count (qp_sq (es_qp s)).
Proof.
  unfold frame. intros E. apply pair_eq in E as [[[[E1 E2]%pair_eq E3]%pair_eq E4]%pair_eq E5].
  destruct (qp_sq (es_qp s')) as [[]], (qp_sq (es_qp s)) as [[]]. unfold upd_field in E3. cbn in *.
  by inversion E3.
Qed.

Lemma frame_copyable s s' : frame s' = frame s → copyable s → copyable s'.
Proof.
  unfold frame, copyable. intros E [Hg Hf]. apply pair_eq in E as [[[[E1 E2]%pair_eq E3]%pair_eq E4]%pair_eq E5]. split; [by rewrite E1|].
  apply (Forall_fmap wqe_dma (λ d, dma_ok d ∧ 0 ≤ dma_sge_offset d)). rewrite E2. by apply Forall_fmap.
Qed.

Lemma keeps_frame_upd a f : (∀ w, wqe_dma (f w) = wqe_dma w) → keeps frame (upd_wqe a f).
Proof.
  intros Hf s. unfold upd_wqe, sq_wqe. wp_run. apply wp_deref; [done|]. intros w Hw. wp_run.
  unfold frame. cbn. do 4 f_equal. rewrite list_fmap_insert, Hf. apply list_insert_id.
  rewrite list_lookup_fmap. unfold elem_at in Hw. by rewrite Hw.
Qed.

#[local] Hint Extern 1 (keeps frame (upd_wqe _ _)) => (apply keeps_frame_upd; intros; reflexivity) : keeps.

Lemma keeps_frame_check_psn p a : keeps frame (check_psn p a).
Proof. unfold check_psn, reset_retry_counters. keeps_auto. Qed.

Lemma keeps_frame_check_ack p a : keeps frame (check_ack p a).
Proof.
  unfold check_ack, check_nak, set_status, wake_wait_psn, reset_retry_counters. keeps_auto.
Qed.

Lemma safe_check_psn p a : safe a (check_psn p a).
Proof. unfold check_psn, reset_retry_counters. safe_auto. Qed.

Lemma safe_check_ack p a : safe a (check_ack p a).
Proof.
  unfold check_ack, check_nak, set_status, wake_wait_psn, reset_retry_counters. safe_auto.
Qed.

Lemma wp_cq_post_total F s id wc sol Q :
  is_Some (rdev_cqs (es_dev s) !! id) →
  (∀ r s', es_qp s' = es_qp s → rdev_mem (es_dev s') = rdev_mem (es_dev s) →
     dom (rdev_cqs (es_dev s')) = dom (rdev_cqs (es_dev s)) → Q r s') →
  wp F (cq_post id wc sol) Q s.
Proof.
  intros [cq Hcq] HQ. unfold cq_post. wp_run. rewrite Hcq. wp_run.
  destruct (rxe_cq_post cq wc sol) as [[cq' ev] r]. wp_run. apply wp_emit_cq. intros s' E1 E2 _ _. wp_run.
  apply HQ; rewrite ?E1, ?E2; [done..|]. cbn. rewrite dom_insert_L.
  apply elem_of_dom_2 in Hcq. set_solver.
Qed.

(** A completion removes the oldest element. *)
Lemma wp_do_complete_total F k s a Q :
  base k s → is_Some (elem_at (qp_sq (es_qp s)) a) →
  (∀ s', base k s' → (1 ≤ queue_count (qp_sq (es_qp s)) →
       queue_count (qp_sq (es_qp s')) = queue_count (qp_sq (es_qp s)) - 1) →
     (copyable s → copyable s') →
     (∀ b, is_Some (elem_at (qp_sq (es_qp s)) b) → is_Some (elem_at (qp_sq (es_qp s')) b)) →
     qp_comp (es_qp s') = qp_comp (es_qp s) → Q tt s') →
  wp F (do_complete a) Q s.
Proof.
  intros [Hwf Hc] [w Hw] HQ. unfold do_complete. wp_run. eapply wp_sq_wqe; [exact Hw|]. wp_run.
  apply (wp_mono _ _ (λ _ s1, es_qp s1 = es_qp s ∧ rdev_mem (es_dev s1) = rdev_mem (es_dev s) ∧
    dom (rdev_cqs (es_dev s1)) = dom (rdev_cqs (es_dev s)))).
  { apply wp_when; intros _; [|done]. wp_run. apply wp_cq_post_total; [done|]. intros. by wp_run. }
  intros _ s1 (E1 & E2 & E3). wp_run.
  assert (Hb : queue_wf k (advance_consumer (qp_sq (es_qp s1))) ∧
    (1 ≤ queue_count (qp_sq (es_qp s)) →
     queue_count (advance_consumer (qp_sq (es_qp s1))) = queue_count (qp_sq (es_qp s)) - 1)).
  { rewrite E1. by apply advance_consumer_wf. }
  destruct Hb as [Hwf' Hcnt]. apply elem_of_dom in Hc.
  apply wp_when; intros _; wp_run; (apply HQ; [split; [done|] | done | | | ]; cbn).
  all: try (apply elem_of_dom; rewrite E3; congruence).
  all: unfold copyable; cbn; rewrite ?E1, ?E2; done.
Qed.

Lemma queue_head_base k s :
  base k s →
  (queue_head (qp_sq (es_qp s)) = None ∧ queue_count (qp_sq (es_qp s)) = 0) ∨
  (∃ a, queue_head (qp_sq (es_qp s)) = Some a ∧ is_Some (elem_at (qp_sq (es_qp s)) a) ∧
     1 ≤ queue_count (qp_sq (es_qp s))).
Proof.
  intros [Hwf _]. unfold queue_head. destruct (queue_empty (qp_sq (es_qp s))) eqn:E.
  - left. rewrite queue_empty_count in E. apply Z.eqb_eq in E. done.
  - right. eexists. split; [done|]. destruct (queue_pop k _ Hwf E) as (x & l & _ & -> & _).
    split; [by eexists|]. pose proof (queue_count_range k _ Hwf). rewrite queue_empty_count in E.
    apply Z.eqb_neq in E. lia.
Qed.

Lemma wp_upd_base F k s a f Q :
  base k s → is_Some (elem_at (qp_sq (es_qp s)) a) →
  (∀ s', base k s' → queue_count (qp_sq (es_qp s')) = queue_count (qp_sq (es_qp s)) →
     is_Some (elem_at (qp_sq (es_qp s')) a) → Q tt s') →
  wp F (upd_wqe a f) Q s.
Proof.
  intros [Hwf Hc] [w Hw] HQ. eapply wp_upd_wqe; [exact Hw|]. intros s' -> Hs'.
  apply HQ; [split; [by apply store_at_wf|done]|done|by eexists].
Qed.

Lemma wp_flush_total F k fuel : ∀ s Q,
  base k s → queue_count (qp_sq (es_qp s)) ≤ Z.of_nat fuel → (∀ s', base k s' → Q tt s') →
  wp F (comp_flush_sq fuel) Q s.
Proof.
  induction fuel as [|fuel IH]; intros s Q Hb Hf HQ; cbn [comp_flush_sq]; wp_run;
    destruct (queue_head_base k s Hb) as [[-> _]|(a & -> & Ha & Hn)]; try (wp_run; by apply HQ); [lia|].
  unfold set_status. wp_run. eapply wp_upd_base; [done..|]. intros s1 Hb1 Hc1 Ha1. wp_run.
  eapply wp_do_complete_total; [done..|]. intros s2 Hb2 Hc2 _ _ _. apply IH; [done|lia|done].
Qed.

Lemma wp_drain_sq_total F k fuel : ∀ s Q,
  base k s → queue_count (qp_sq (es_qp s)) ≤ Z.of_nat fuel → (∀ s', base k s' → Q tt s') →
  wp F (comp_drain_sq fuel) Q s.
Proof.
  induction fuel as [|fuel IH]; intros s Q Hb Hf HQ; cbn [comp_drain_sq]; wp_run;
    destruct (queue_head_base k s Hb) as [[-> _]|(a & -> & Ha & Hn)]; try (wp_run; by apply HQ); [lia|].
  wp_run. destruct Hb as [Hwf Hc]. destruct (advance_consumer_wf k _ Hwf) as [Hwf' Hcnt].
  apply IH; [by split|cbn; rewrite Hcnt; lia|done].
Qed.

Lemma wp_drain_pkts_total F k fuel : ∀ s Q,
  base k s → (length (qp_resp_pkts (es_qp s)) ≤ fuel)%nat →
  (∀ s', base k s' → queue_count (qp_sq (es_qp s')) = queue_count (qp_sq (es_qp s)) → Q tt s') →
  wp F (comp_drain_pkts fuel) Q s.
Proof.
  induction fuel as [|fuel IH]; intros s Q Hb Hf HQ; cbn [comp_drain_pkts]; unfold dequeue_resp_pkt;
    wp_run; destruct (qp_resp_pkts (es_qp s)) as [|p l] eqn:E; try (wp_run; by apply HQ); [cbn in Hf; lia|].
  wp_run. unfold comp_free_pkt, qp_drop_ref. wp_run. apply IH; [done|cbn in *; lia|].
  intros s' Hb' Hc'. by apply HQ.
Qed.

Lemma completer_dead_total F k depth fuel s :
  base k s → alive (es_qp s) = false →
  wp F (rxe_completer (S depth) fuel) (λ r s', r = Err EAGAIN ∧ base k s') s.
Proof.
  intros Hb Ha. cbn [rxe_completer]. unfold completer_body. wp_run. unfold alive in Ha.
  assert (Hd : ∀ n, queue_count (qp_sq (es_qp s)) = queue_count (qp_sq (es_qp n)) →
    queue_count (qp_sq (es_qp n)) ≤ Z.of_nat (Z.to_nat (queue_count (qp_sq (es_qp s))))) by lia.
  assert (Hdr : wp F comp_drain (λ _ s', base k s') s).
  { unfold comp_drain. wp_run. eapply wp_drain_pkts_total; [done..|]. intros s1 Hb1 Hc1.
    eapply wp_drain_sq_total; [done|by apply Hd|done]. }
  assert (Hfl : wp F comp_flush (λ _ s', base k s') s).
  { unfold comp_flush. wp_run. eapply wp_drain_pkts_total; [done..|]. intros s1 Hb1 Hc1.
    eapply wp_flush_total; [done|by apply Hd|done]. }
  destruct (qp_valid _); cbn [negb andb] in Ha |- *;
    [destruct (bool_decide (_ = QP_STATE_ERROR)); cbn [negb andb] in Ha |- *;
      [|destruct (bool_decide (_ = QP_STATE_RESET)); [|done]]|];
    (wp_run; eapply wp_mono; [apply Hdr || apply Hfl|]; intros ? s' Hb'; by wp_run).
Qed.

Lemma wp_qp_error_total F k depth fuel n s Q :
  base k s → (∀ s', base k s' → Q tt s') →
  wp F (rxe_qp_error (__rxe_do_task (rxe_completer (S depth) fuel) (S n))) Q s.
Proof.
  intros Hb HQ. unfold rxe_qp_error. wp_run. apply wp_if; intros _; wp_run; [by apply HQ|].
  cbn [__rxe_do_task]. wp_run. eapply wp_mono; [eapply (completer_dead_total F k)|].
  - done.
  - unfold alive. cbn. by rewrite andb_false_r.
  - intros r s' [-> Hb']. wp_run. by apply HQ.
Qed.

Lemma wp_copy_to_wqe_total F k s a bytes n Q :
  base k s → copyable s → is_Some (elem_at (qp_sq (es_qp s)) a) → n ≤ Z.of_nat (length bytes) →
  (∀ r s', base k s' → is_Some (elem_at (qp_sq (es_qp s')) a) → Q r s') →
  wp F (copy_to_wqe a bytes n) Q s.
Proof.
  intros Hb [Hg Hd] [w Hw] Hn HQ. unfold copy_to_wqe. wp_run. eapply wp_sq_wqe; [exact Hw|]. wp_run.
  unfold eng_copy_data. wp_run. unfold elem_at in Hw.
  destruct (Forall_lookup_1 _ _ _ _ Hd Hw) as [Hok Ho].
  destruct (copy_data_is_Some (rdev_mem (es_dev s)) (qp_pd (es_qp s)) IB_ACCESS_LOCAL_WRITE (wqe_dma w)
    bytes n direction_in None Hg Hok Ho Hn) as [o ->]. wp_run.
  eapply wp_upd_base; [done|by eexists|]. intros s1 Hb1 _ Ha1. wp_run. by apply HQ.
Qed.

(** An upper bound for the iterations left, for [c] elements in the queue. *)
Definition comp_rank (st : comp_state) (c : Z) : Z :=
  match st with
  | COMPST_GET_ACK => 3 * c + 9
  | COMPST_GET_WQE => 3 * c + 8
  | COMPST_CHECK_PSN => 3 * c + 7
  | COMPST_COMP_WQE => 3 * c + 6
  | COMPST_CHECK_ACK => 5
  | COMPST_READ | COMPST_ATOMIC | COMPST_WRITE_SEND => 4
  | COMPST_COMP_ACK | COMPST_EXIT => 3
  | COMPST_UPDATE_COMP | COMPST_ERROR_RETRY | COMPST_RNR_RETRY => 2
  | COMPST_DONE | COMPST_ERROR => 1
  end.

(** What holds when the loop is in a state. *)
Definition comp_inv (st : comp_state) (pkt : option rxe_pkt_info) (wqe : option Z) (s : eng_state) : Prop :=
  let ok a := is_Some (elem_at (qp_sq (es_qp s)) a) in
  let has_wqe := ∃ a, wqe = Some a ∧ ok a in
  match st with
  | COMPST_GET_ACK => copyable s ∧ pkt = None ∧ Forall pkt_sane (qp_resp_pkts (es_qp s))
  | COMPST_GET_WQE => copyable s ∧ ∀ p, pkt = Some p → pkt_sane p
  | COMPST_CHECK_PSN | COMPST_CHECK_ACK | COMPST_READ | COMPST_ATOMIC =>
      copyable s ∧ (∃ p, pkt = Some p ∧ pkt_sane p) ∧ has_wqe ∧ 1 ≤ queue_count (qp_sq (es_qp s))
  | COMPST_WRITE_SEND | COMPST_COMP_ACK | COMPST_RNR_RETRY => is_Some pkt ∧ has_wqe
  | COMPST_UPDATE_COMP => is_Some pkt
  | COMPST_COMP_WQE =>
      copyable s ∧ (∀ p, pkt = Some p → pkt_sane p) ∧ has_wqe ∧ 1 ≤ queue_count (qp_sq (es_qp s))
  | COMPST_ERROR => has_wqe
  | COMPST_EXIT | COMPST_ERROR_RETRY => ∀ a, wqe = Some a → ok a
  | COMPST_DONE => True
  end.

(** A step either ends the loop or leads to a state of lower rank. *)
Definition steps_down (k : Z) (st : comp_state) (s : eng_state) (n : comp_next) (s' : eng_state) : Prop :=
  match n with
  | CompGoto st' pkt' wqe' =>
      base k s' ∧ comp_inv st' pkt' wqe' s' ∧
      comp_rank st' (queue_count (qp_sq (es_qp s'))) < comp_rank st (queue_count (qp_sq (es_qp s)))
  | _ => True
  end.

Lemma steps_get_wqe F k qe pkt wqe s :
  base k s → comp_inv COMPST_GET_WQE pkt wqe s →
  wp F (comp_step qe COMPST_GET_WQE pkt wqe) (steps_down k COMPST_GET_WQE s) s.
Proof.
  intros Hb [Hcp Hp]. cbn [comp_step]. wp_run. unfold get_wqe. wp_run.
  pose proof (queue_count_range k _ (proj1 Hb)) as Hr.
  destruct (queue_head_base k s Hb) as [[-> _]|(a & -> & [w Hw] & Hn)]; wp_run.
  { unfold steps_down. split; [done|]. destruct pkt; cbn; (split; [done|lia]). }
  eapply wp_sq_wqe; [exact Hw|]. wp_run. unfold steps_down. split; [done|].
  assert (Ha : is_Some (elem_at (qp_sq (es_qp s)) a)) by by eexists.
  destruct (wqe_st w), pkt; cbn; (split; [naive_solver|lia]).
Qed.

Lemma returns_check_psn_in p a :
  returns (λ st, st = COMPST_ERROR_RETRY ∨ st = COMPST_COMP_WQE ∨ st = COMPST_DONE ∨
    st = COMPST_COMP_ACK ∨ st = COMPST_CHECK_ACK) (check_psn p a).
Proof. unfold check_psn. returns_auto; repeat case_match; tauto. Qed.

Lemma returns_check_ack_in p a :
  returns (λ st, st = COMPST_ERROR ∨ st = COMPST_READ ∨ st = COMPST_ATOMIC ∨
    st = COMPST_WRITE_SEND ∨ st = COMPST_RNR_RETRY ∨ st = COMPST_ERROR_RETRY) (check_ack p a).
Proof. unfold check_ack, check_nak. returns_auto; tauto. Qed.

Lemma steps_check_psn F k qe p a s :
  base k s → comp_inv COMPST_CHECK_PSN (Some p) (Some a) s →
  wp F (comp_step qe COMPST_CHECK_PSN (Some p) (Some a)) (steps_down k COMPST_CHECK_PSN s) s.
Proof.
  intros Hb (Hcp & (p' & [= <-] & Hp) & (a' & [= <-] & Ha) & Hn). cbn [comp_step]. wp_run.
  eapply wp_mono; [apply wp_weaken, (wp_and False); [apply wp_and|]|].
  - apply (safe_check_psn p a). split; [done|apply Hb].
  - apply keeps_frame_check_psn.
  - apply (returns_check_psn_in p a).
  - intros st s' [[[Ha' _] Hf] Hst]. wp_run. unfold steps_down.
    pose proof (frame_base k s s' Hf Hb) as Hb'. pose proof (frame_count s s' Hf) as Hc.
    pose proof (frame_copyable s s' Hf Hcp). split; [done|].
    destruct Hst as [-> | [-> | [-> | [-> | ->]]]]; cbn; rewrite ?Hc; (split; [naive_solver|lia]).
Qed.

Lemma steps_check_ack F k qe p a s :
  base k s → comp_inv COMPST_CHECK_ACK (Some p) (Some a) s →
  wp F (comp_step qe COMPST_CHECK_ACK (Some p) (Some a)) (steps_down k COMPST_CHECK_ACK s) s.
Proof.
  intros Hb (Hcp & (p' & [= <-] & Hp) & (a' & [= <-] & Ha) & Hn). cbn [comp_step]. wp_run.
  eapply wp_mono; [apply wp_weaken, (wp_and False); [apply wp_and|]|].
  - apply (safe_check_ack p a). split; [done|apply Hb].
  - apply keeps_frame_check_ack.
  - apply (returns_check_ack_in p a).
  - intros st s' [[[Ha' _] Hf] Hst]. wp_run. unfold steps_down.
    pose proof (frame_base k s s' Hf Hb) as Hb'. pose proof (frame_count s s' Hf) as Hc.
    pose proof (frame_copyable s s' Hf Hcp). split; [done|].
    destruct Hst as [-> | [-> | [-> | [-> | [-> | ->]]]]]; cbn; rewrite ?Hc; (split; [naive_solver|lia]).
Qed.

Lemma steps_copy F k qe st p a s :
  st = COMPST_READ ∨ st = COMPST_ATOMIC → base k s → comp_inv st (Some p) (Some a) s →
  wp F (comp_step qe st (Some p) (Some a)) (steps_down k st s) s.
Proof.
  intros Hst Hb Hi.
  assert (Hx : copyable s ∧ pkt_sane p ∧ is_Some (elem_at (qp_sq (es_qp s)) a)).
  { destruct Hst as [-> | ->]; destruct Hi as (? & (? & [= <-] & ?) & (? & [= <-] & ?) & ?); done. }
  destruct Hx as (Hcp & [Hp1 Hp2] & Ha). destruct Hst as [-> | ->]; cbn [comp_step]; wp_run.
  - unfold do_read. wp_run. eapply wp_copy_to_wqe_total; [done..| |].
    { unfold pkt_bytes. rewrite length_take, length_drop. lia. }
    intros r s' Hb' [w' Hw']. destruct r; wp_run; [|unfold steps_down; split; [done|]; cbn; split; [naive_solver|lia]].
    eapply wp_sq_wqe; [exact Hw'|]. wp_run. unfold steps_down. split; [done|].
    case_match; cbn; (split; [naive_solver|lia]).
  - unfold do_atomic. wp_run. eapply wp_copy_to_wqe_total; [done..|done|].
    intros r s' Hb' Ha'. wp_run. unfold steps_down. split; [done|]. case_match; cbn; (split; [naive_solver|lia]).
Qed.

Lemma steps_comp_wqe F k qe pkt a s :
  base k s → comp_inv COMPST_COMP_WQE pkt (Some a) s →
  wp F (comp_step qe COMPST_COMP_WQE pkt (Some a)) (steps_down k COMPST_COMP_WQE s) s.
Proof.
  intros Hb (Hcp & Hp & (a' & [= <-] & Ha) & Hn). cbn [comp_step]. wp_run. unfold complete_wqe. wp_run.
  apply (wp_mono _ _ (λ _ s1, frame s1 = frame s ∧ is_Some (elem_at (qp_sq (es_qp s1)) a))).
  { destruct pkt as [p|]; unfold advance_comp_psn, wake_wait_psn; wp_run; [|done].
    apply wp_when; intros _; wp_run; apply wp_when; intros _; by wp_run. }
  intros _ s1 [Hf Ha1]. wp_run. eapply wp_do_complete_total;
    [by eapply frame_base|done|]. intros s2 Hb2 Hc2 Hcp2 _ _. wp_run. unfold steps_down.
  rewrite (frame_count s s1 Hf) in Hc2. split; [done|]. cbn. split; [|rewrite Hc2; lia].
  split; [|done]. apply Hcp2. by eapply frame_copyable.
Qed.

Lemma steps_comp_ack F k qe p a s :
  base k s → comp_inv COMPST_COMP_ACK (Some p) (Some a) s →
  wp F (comp_step qe COMPST_COMP_ACK (Some p) (Some a)) (steps_down k COMPST_COMP_ACK s) s.
Proof.
  intros Hb (_ & a' & [= <-] & Ha). cbn [comp_step]. wp_run. unfold complete_ack. wp_run.
  destruct Ha as [w Hw]. eapply wp_sq_wqe; [exact Hw|]. wp_run.
  apply (wp_mono _ _ (λ _ s1, base k s1 ∧ is_Some (elem_at (qp_sq (es_qp s1)) a))).
  { apply wp_when; intros _; [|split; [done|by eexists]]. wp_run. eapply wp_upd_base; [done|by eexists|].
    intros s1 Hb1 _ Ha1. wp_run. apply wp_when; intros _; wp_run; by split. }
  intros _ s1 [Hb1 Ha1]. unfold check_drained. wp_run.
  apply (wp_mono _ _ (λ _ s2, base k s2 ∧ is_Some (elem_at (qp_sq (es_qp s2)) a))).
  { apply wp_when; intros _; [|by split]. wp_run. apply wp_when; intros _; by wp_run. }
  intros _ s2 [Hb2 Ha2]. wp_run. eapply wp_do_complete_total; [done..|]. intros s3 Hb3 _ _ _ _. wp_run.
  unfold steps_down. split; [done|]. case_match; cbn; (split; [naive_solver|lia]).
Qed.

Lemma aeth_rnr_code p : 0 ≤ aeth_syn p .& Z.lnot AETH_TYPE_MASK < 32.
Proof.
  assert (Hs : 0 ≤ aeth_syn p < 2 ^ 8) by (apply Z.mod_pos_bound; lia).
  assert (E : aeth_syn p .& Z.lnot AETH_TYPE_MASK = aeth_syn p mod 2 ^ 5).
  { rewrite <- Z.land_ones by lia. apply Z.bits_inj'. intros i Hi. rewrite !Z.land_spec.
    destruct (Z.lt_ge_cases i 8).
    - f_equal. assert (Hc : i ∈ seqZ 0 8) by (apply elem_of_seqZ; lia). revert Hc.
      change (seqZ 0 8) with [0; 1; 2; 3; 4; 5; 6; 7]. rewrite !elem_of_cons, elem_of_nil.
      intros Hc. repeat destruct Hc as [->|Hc]; done.
    - rewrite <- (Z.mod_small (aeth_syn p) (2 ^ 8)) by lia. by rewrite Z.mod_pow2_bits_high by lia. }
  rewrite E. pose proof (Z.mod_pos_bound (aeth_syn p) (2 ^ 5)). lia.
Qed.

Lemma steps_retry F k qe st pkt wqe s :
  st = COMPST_EXIT ∨ st = COMPST_ERROR_RETRY ∨ st = COMPST_RNR_RETRY → base k s →
  comp_inv st pkt wqe s → wp F (comp_step qe st pkt wqe) (steps_down k st s) s.
Proof.
  intros Hst Hb Hi. destruct Hst as [-> | [-> | ->]]; cbn [comp_step]; cbn in Hi.
  - unfold comp_exit. wp_run. destruct wqe as [a|]; wp_run.
    + apply wp_if; intros _; wp_run; [split; [done|]; cbn; split; [done|lia]|].
      unfold comp_rearm_timer. wp_run. apply wp_when; intros _; by wp_run.
    + unfold comp_rearm_timer. wp_run. apply wp_when; intros _; by wp_run.
  - unfold comp_error_retry. destruct wqe as [a|]; wp_run; [|done].
    destruct (Hi a eq_refl) as [w Hw]. eapply wp_sq_wqe; [exact Hw|]. wp_run.
    apply wp_if; intros _; wp_run; [done|]. apply wp_if; intros _; wp_run.
    + apply wp_when; intros _; wp_run; apply wp_when; intros _; by wp_run.
    + unfold set_status. eapply wp_upd_base; [done|by eexists|]. intros s1 Hb1 _ Ha1. wp_run.
      split; [done|]. cbn. split; [naive_solver|lia].
  - destruct Hi as [[p ->] (a & -> & Ha)]. wp_run. unfold comp_rnr_retry_case. wp_run.
    apply wp_if; intros _; wp_run.
    + apply (wp_mono _ _ (λ _ _, True)); [apply wp_when; intros _; by wp_run|]. intros _ s1 _. wp_run.
      unfold rnrnak_jiffies. wp_run. apply wp_deref; [|intros u _; by wp_run].
      intros E. apply lookup_ge_None in E. pose proof (aeth_rnr_code p). cbn in E. lia.
    + unfold set_status. eapply wp_upd_base; [done..|]. intros s1 Hb1 _ Ha1. wp_run.
      split; [done|]. cbn. split; [naive_solver|lia].
Qed.

Lemma comp_step_total F k qe st pkt wqe s :
  (∀ s Q, base k s → (∀ s', base k s' → Q tt s') → wp F qe Q s) →
  base k s → comp_inv st pkt wqe s → wp F (comp_step qe st pkt wqe) (steps_down k st s) s.
Proof.
  intros Hq Hb Hi. pose proof (queue_count_range k _ (proj1 Hb)) as Hr.
  destruct st; try (apply steps_retry; [tauto|done|done]); try (by apply steps_get_wqe);
    try (cbn in Hi; destruct Hi as (? & (p & -> & ?) & (a & -> & ?) & ?);
         first [apply steps_check_psn|apply steps_check_ack|apply steps_copy; [tauto|..]]; [done|cbn; by eauto 10]).
  - cbn [comp_step]. destruct Hi as (Hcp & -> & Hp). wp_run. unfold dequeue_resp_pkt. wp_run.
    destruct (qp_resp_pkts (es_qp s)) as [|p l]; wp_run; (split; [done|]); cbn; (split; [|lia]); [done|].
    apply Forall_cons_1 in Hp as [Hp _]. split; [done|]. by intros ? [= <-].
  - destruct Hi as (? & ? & (a & -> & ?) & ?). apply steps_comp_wqe; [done|]. cbn. by eauto 10.
  - destruct Hi as ([p ->] & a & -> & ?). apply steps_comp_ack; [done|]. cbn. by eauto 10.
  - cbn [comp_step]. destruct Hi as ([p ->] & a & -> & [w Hw]). wp_run. eapply wp_sq_wqe; [exact Hw|].
    wp_run. split; [done|]. case_match; cbn; (split; [naive_solver|lia]).
  - cbn [comp_step]. destruct Hi as [p ->]. wp_run. unfold advance_comp_psn, wake_wait_psn. wp_run.
    apply wp_when; intros _; wp_run; apply wp_when; intros _; wp_run; (split; [done|]); cbn; (split; [done|lia]).
  - cbn [comp_step]. destruct Hi as (a & -> & Ha). wp_run. eapply wp_do_complete_total; [done..|].
    intros s1 Hb1 _ _ _ _. wp_run. apply Hq; [done|]. intros. by wp_run.
  - cbn [comp_step]. destruct pkt; unfold comp_free_pkt, qp_drop_ref; by wp_run.
Qed.

Lemma comp_loop_total F k qe fuel : ∀ st pkt wqe s,
  (∀ s Q, base k s → (∀ s', base k s' → Q tt s') → wp F qe Q s) →
  base k s → comp_inv st pkt wqe s →
  comp_rank st (queue_count (qp_sq (es_qp s))) ≤ Z.of_nat fuel →
  wp F (comp_loop qe fuel st pkt wqe) (λ _ _, True) s.
Proof.
  induction fuel as [|fuel IH]; intros st pkt wqe s Hq Hb Hi Hf.
  { pose proof (queue_count_range k _ (proj1 Hb)). destruct st; cbn in Hf; lia. }
  apply wp_comp_loop. eapply wp_mono; [by apply (comp_step_total F k)|].
  intros [st' pkt' wqe'| |] s' Hs; [|done..]. destruct Hs as (Hb' & Hi' & Hlt). apply IH; try done. lia.
Qed.

(** C26: the completer returns. The send queue is well formed, the completion
    queue exists, the elements of the send queue describe buffers a copy can go
    to, and each response packet that waits has its payload inside its buffer,
    which nothing on the way in has checked. Then, in every state of the queue
    pair, a call takes at most three steps for each element of the send queue
    and nine more, and no access goes wrong. *)
Theorem completer_total k depth fuel s :
  base k s → copyable s → Forall pkt_sane (qp_resp_pkts (es_qp s)) →
  3 * queue_count (qp_sq (es_qp s)) + 9 ≤ Z.of_nat fuel →
  ∃ r s', rxe_completer (S (S depth)) fuel s = Some (r, s').
Proof.
  intros Hb Hcp Hp Hf. pose proof (queue_count_range k _ (proj1 Hb)) as Hr.
  destruct (alive (es_qp s)) eqn:Ha.
  2: { destruct (wp_total _ _ _ (completer_dead_total False k (S depth) fuel s Hb Ha)) as (r & s' & E & _).
       by exists r, s'. }
  enough (Hwp : wp False (rxe_completer (S (S depth)) fuel) (λ _ _, True) s).
  { apply wp_total in Hwp as (r & s' & E & _). by exists r, s'. }
  change (rxe_completer (S (S depth)) fuel) with
    (completer_body (rxe_qp_error (__rxe_do_task (rxe_completer (S depth) fuel) fuel)) fuel).
  unfold completer_body. wp_run. unfold alive in Ha.
  apply andb_true_iff in Ha as [[Hva He%negb_true_iff]%andb_true_iff Hre%negb_true_iff].
  rewrite Hva, He, Hre. cbn [negb]. wp_run.
  apply (wp_mono _ _ (λ _ s1, ∃ c, s1 = s <| es_qp ::= λ q, q <| qp_comp := c |> |>)).
  { apply wp_if; intros _; wp_run; by eexists. }
  intros _ s1 [c ->]. apply wp_if; intros _; wp_run; [done|].
  apply (comp_loop_total False k); [|done|done|done].
  intros s2 Q Hb2 HQ. destruct fuel; [lia|]. by apply (wp_qp_error_total False k).
Qed.
End completer.

(** A pending send that is answered by an RNR NAK. *)
Definition example_rnr : eng_state :=
  let w := example_send IB_WR_SEND 0 wqe_state_pending WR_SEND_MASK 7 7 example_dma in
  example_es (example_qp (example_sq 0 1 (replicate 4 w)) [example_ack 0x21 7] 8 7).

Lemma completer_leaks_on_exit_witness :
  ∃ s', rxe_completer (H := example_params) 2 20 example_rnr = Some (Err EAGAIN, s') ∧
    own example_rnr = (0, 4) ∧ own s' = (1, 4).
Proof.
  destruct (rxe_completer (H := example_params) 2 20 example_rnr) as [[r s']|] eqn:E;
    [|vm_compute in E; discriminate E].
  assert (Hr : r = Err EAGAIN).
  { apply (f_equal (option_map fst)) in E. vm_compute in E. by injection E. }
  subst r. exists s'. split; [reflexivity|]. split; [vm_compute; reflexivity|].
  destruct (completer_leaks_on_exit (H := example_params) _ _ _ _ _ E) as [_ Hl].
  rewrite Hl; [vm_compute; reflexivity|vm_compute; reflexivity|discriminate].
Defined.

(** Two pending sends, the second of which is answered. *)
Definition example_two (syndrome : Z) : eng_state :=
  let w psn := example_send IB_WR_SEND 0 wqe_state_pending WR_SEND_MASK psn psn example_dma in
  example_es (example_qp (example_sq 0 2 [w 7; w 8; w 0; w 0]) [example_ack syndrome 8] 9 7).

Lemma example_two_outstanding syndrome :
  let w psn := example_send IB_WR_SEND 0 wqe_state_pending WR_SEND_MASK psn psn example_dma in
  outstanding 2 3 (example_two syndrome) (example_ack syndrome 8) [] [w 7] (w 8) [] [].
Proof.
  split; try done; [|apply Forall_singleton; split; [done|vm_compute; reflexivity]].
  split; [split; [split|..]; cbn; lia || done|]. split; [done|].
  exists (example_cq 0). split; [done|]. split; [apply example_cq_wf|done].
Qed.

Lemma completer_ack_completes_witness :
  ∃ s', rxe_completer (H := example_params) 1 11 (example_two AETH_ACK_UNLIMITED) = Some (Ok tt, s') ∧
    queue_list (qp_sq (es_qp s')) = [] ∧ comp_psn (qp_comp (es_qp s')) = 9.
Proof.
  destruct (completer_ack_completes (H := example_params) 2 3 _ _ _ _ _ _ _ 0 0
    (example_two_outstanding AETH_ACK_UNLIMITED)) as (s' & E & (_ & Hv & _) & Hp & _);
    [reflexivity..|]. exists s'. split; [exact E|]. split; [exact Hv|exact Hp].
Defined.

Lemma completer_nak_completes_witness :
  ∃ s', rxe_completer (H := example_params) 1 11 (example_two 0x21) = Some (Ok tt, s') ∧
    queue_list (qp_sq (es_qp s')) = [].
Proof.
  destruct (completer_nak_completes (H := example_params) 2 3 _ _ _ _ _ _ _ 0 0
    (example_two_outstanding 0x21)) as (s' & E & (_ & Hv & _) & _);
    [discriminate|reflexivity|reflexivity|right; reflexivity|]. exists s'. split; [exact E|exact Hv].
Defined.

Lemma completer_flush_witness :
  let s := example_two 0 in
  let s := s <| es_qp ::= λ q, q <| qp_req ::= λ r, r <| req_state := QP_STATE_ERROR |> |> |> in
  ∃ s', rxe_completer (H := example_params) 1 0 s = Some (Err EAGAIN, s') ∧
    queue_list (qp_sq (es_qp s')) = [] ∧ own s' = (0, 4).
Proof.
  destruct (completer_flush (H := example_params) 2 3
    (example_two 0 <| es_qp ::= λ q, q <| qp_req ::= λ r, r <| req_state := QP_STATE_ERROR |> |> |>)
    (queue_list (qp_sq (es_qp (example_two 0)))) [] 0 0) as (s' & E & (_ & Hl & _) & _ & Ho);
    [reflexivity|reflexivity|apply (example_two_outstanding 0)|vm_compute; discriminate|].
  exists s'. split; [exact E|]. split; [exact Hl|]. rewrite Ho. vm_compute. reflexivity.
Defined.

Lemma completer_total_witness :
  ∃ r s', rxe_completer (H := example_params) 2 20 (example_two AETH_ACK_UNLIMITED) = Some (r, s').
Proof.
  destruct (example_two_outstanding AETH_ACK_UNLIMITED) as [_ _ _ _ (Hwf & _ & cq & Hcq & _) _ _ _ _].
  apply (completer_total (H := example_params) 2).
  - split; [exact Hwf|by eexists].
  - split; [apply example_dev_good|].
    repeat (apply Forall_cons_2; [split; [apply example_dma_ok|vm_compute; discriminate]|]). apply Forall_nil_2.
  - apply Forall_cons_2; [|apply Forall_nil_2]. split; vm_compute; discriminate.
  - vm_compute. discriminate.
Defined.
