(* ===== verification/Arbiter.v ===== *)
(** * The arbiter and the transmission of packets (rxe_arbiter.c, and
    init_packet of rxe_net.c)

    The queue pairs that have packets to send stand in a list; the arbiter
    takes the first one and sends one packet of it. The busy wait for the
    static rate has no effect on the state and is left out. *)

From stdpp Require Import gmap.
From S2P Require Import Prelude Queue Opcode Hdr Verbs Mr Cq State.

Definition RXE_QUEUE_STOPPED : Z := 999.

Section arbiter.
Context `{Params}.

Definition account_skb (is_request : bool) : eng unit :=
  if is_request then
    mod_dev (λ d, d <| rdev_req_skb_out ::= (λ n, n - 1) |>);;
    mod_qp (λ q, q <| qp_req_skb_out ::= (λ n, n - 1) |>);;
    q ← get_qp;
    when (qp_need_req_skb q && (qp_req_skb_out q <? rxe_max_skb_per_qp)) (rxe_run_task task_req true)
  else
    mod_dev (λ d, d <| rdev_resp_skb_out ::= (λ n, n - 1) |>);;
    mod_qp (λ q, q <| qp_resp_skb_out ::= (λ n, n - 1) |>).

(** The answer of [ifc_ops->send] (or [loopback]) is the next one of the
    interface; every answer but [RXE_QUEUE_STOPPED] consumes the packet. *)
Definition xmit_one_packet (pkt : rxe_pkt_info) : eng Z :=
  q ← get_qp;
  let is_request := flag_set (pkt_mask pkt) RXE_REQ_MASK in
  let state := if is_request then req_state (qp_req q) else resp_state (qp_resp q) in
  if negb (qp_valid q) || negb (bool_decide (state = QP_STATE_READY)) then
    emit (EvFree pkt);; account_skb is_request;; mret 0
  else
    err ← next_send;
    if err =? RXE_QUEUE_STOPPED then mret err
    else
      emit (EvSent pkt);;
      when (negb (err =? 0)) (mod_dev (λ d, d <| rdev_xmit_errors ::= (λ n, n + 1) |>));;
      account_skb is_request;;
      mret err.

Definition arbiter_skb_queue (pkt : rxe_pkt_info) : eng unit :=
  mod_qp (λ q, q <| qp_send_pkts ::= (λ l, l ++ [pkt]) |>);;
  q ← get_qp;
  when (negb (qp_on_arbiter q))
    (mod_dev (λ d, d <| rdev_arbiter ::= (λ l, l ++ [qp_qp_num q]) |>);;
     mod_qp (λ q, q <| qp_on_arbiter := true |>));;
  rxe_run_task task_arbiter (bool_decide (1 < length (qp_resp_pkts q))%nat).

(** What the engines do with a packet that is ready. *)
Definition send_packet (pkt : rxe_pkt_info) : eng unit :=
  if rxe_bypass_arbiter then xmit_one_packet pkt;; mret tt else arbiter_skb_queue pkt.

(** [init_packet] of rxe_net.c: a buffer for the GRH and [paylen] bytes, whose
    contents are not initialised. *)
Definition init_packet (av : rxe_av) (paylen : Z) : eng (option rxe_pkt_info) :=
  ok ← next_alloc;
  if ok : bool then
    dev ← get_dev;
    port ← deref (rdev_ports dev !! 0%nat);
    guid ← deref (port_guid_tbl port !! 0%nat);
    let mask := if guid =? ah_dgid_guid (av_attr av) then RXE_GRH_MASK .| RXE_LOOPBACK_MASK else RXE_GRH_MASK in
    mret (Some (PktInfo (map skb_junk (seqZ 0 (RXE_GRH_BYTES + paylen))) mask 0 0 0 1 0 0))
  else mret None.

(** The queue pair is on the list of the arbiter when it has packets to send,
    and no other one is. *)
Definition listed (s : eng_state) : Prop :=
  rdev_arbiter (es_dev s) = (if qp_on_arbiter (es_qp s) then [qp_qp_num (es_qp s)] else []) ∧
  (qp_send_pkts (es_qp s) ≠ [] → qp_on_arbiter (es_qp s) = true).

Lemma wp_skb_queue F pkt Q s :
  (∀ l on ev s', s' = s <| es_dev ::= λ d, d <| rdev_arbiter := l |> |>
       <| es_qp ::= λ q, q <| qp_send_pkts ::= (λ p, p ++ [pkt]) |> <| qp_on_arbiter := on |> |> <| es_ev := ev |> →
     (listed s → listed s') → Q tt s') →
  wp F (arbiter_skb_queue pkt) Q s.
Proof.
  intros HQ. unfold arbiter_skb_queue. wp_run. apply wp_when; intros Hon; wp_run.
  - eapply HQ; [reflexivity|]. intros [Hl _]. cbn in *. destruct (qp_on_arbiter (es_qp s)); [done|].
    split; cbn; [by rewrite Hl|done].
  - eapply (HQ (rdev_arbiter (es_dev s)) (qp_on_arbiter (es_qp s)));
      [destruct s as [[] []]; reflexivity|]. intros [Hl _]. cbn in Hon.
    split; [exact Hl|]. intros _. cbn. by destruct (qp_on_arbiter (es_qp s)).
Qed.

Lemma xmit_stopped pkt s sends :
  qp_valid (es_qp s) = true → req_state (qp_req (es_qp s)) = QP_STATE_READY →
  resp_state (qp_resp (es_qp s)) = QP_STATE_READY → es_send s = RXE_QUEUE_STOPPED :: sends →
  xmit_one_packet pkt s = Some (RXE_QUEUE_STOPPED, s <| es_send := sends |>).
Proof.
  intros Hv H1 H2 Hs. unfold xmit_one_packet, mbind, eng_bind, get_qp, gets, next_send.
  rewrite Hv, bool_decide_eq_true_2 by by case_match. cbn [negb orb]. by rewrite Hs.
Qed.
End arbiter.

(** ** The arbiter task, over all queue pairs of the device *)

Record arb_state := Arb {
  arb_dev : rxe_dev;
  arb_qps : gmap Z rxe_qp;
  arb_send : list Z;
  arb_ev : list qp_event
}.

#[export] Instance eta_arb_state : Eta arb_state := fun r =>
  Arb (arb_dev r) (arb_qps r) (arb_send r) (arb_ev r).

(** One call; the result is the value returned. [None] for a queue pair that
    is on the list but does not exist. *)
Definition rxe_arbiter `{Params} (s : arb_state) : option (Z * arb_state) :=
  match rdev_arbiter (arb_dev s) with
  | [] => Some (1, s)
  | id :: l =>
      let dev := arb_dev s <| rdev_arbiter := l |> in
      q ← arb_qps s !! id;
      let q := q <| qp_on_arbiter := false |> in
      let relist (s : eng_state) :=
        let q := es_qp s in
        if negb (qp_on_arbiter q) && negb (bool_decide (qp_send_pkts q = [])) then
          s <| es_dev ::= λ d, d <| rdev_arbiter ::= (λ l, l ++ [id]) |> |>
            <| es_qp ::= λ q, q <| qp_on_arbiter := true |> |>
        else s in
      let put (ret : Z) (s' : eng_state) :=
        Some (ret, Arb (es_dev s') (<[id := es_qp s']> (arb_qps s)) (es_send s') (es_ev s')) in
      let es q := Es dev q [] (arb_send s) 0 (arb_ev s) in
      match qp_send_pkts q with
      | [] => put 0 (relist (es q))
      | pkt :: pkts =>
          '(err, s1) ← xmit_one_packet pkt (es (q <| qp_send_pkts := pkts |>));
          if err =? 0 then put 0 (relist s1)
          else
            let s1 := if err =? RXE_QUEUE_STOPPED
                      then s1 <| es_qp ::= λ q, q <| qp_send_pkts ::= cons pkt |> |> else s1 in
            put 1 (s1 <| es_ev ::= (λ l, l ++ [EvTask task_arbiter true]) |>)
      end
  end.

(** When the interface is stopped, the arbiter puts the packet back on its
    queue pair and schedules itself again, but the queue pair has left the
    arbiter's list: once it was the only one, every further call finds nothing
    to do and the packet stays where it is. *)
Theorem arbiter_strands_packet `{Params} s id q pkt pkts sends :
  rdev_arbiter (arb_dev s) = [id] → arb_qps s !! id = Some q → qp_send_pkts q = pkt :: pkts →
  qp_valid q = true → req_state (qp_req q) = QP_STATE_READY → resp_state (qp_resp q) = QP_STATE_READY →
  arb_send s = RXE_QUEUE_STOPPED :: sends →
  ∃ s' q', rxe_arbiter s = Some (1, s') ∧ arb_qps s' !! id = Some q' ∧
    qp_send_pkts q' = pkt :: pkts ∧ qp_on_arbiter q' = false ∧ rdev_arbiter (arb_dev s') = [] ∧
    rxe_arbiter s' = Some (1, s').
Proof.
  intros Hl Hq Hp Hv Hr1 Hr2 Hs. unfold rxe_arbiter. rewrite Hl. cbn. rewrite Hq. cbn. rewrite Hp.
  rewrite (xmit_stopped _ _ sends) by done. cbn.
  eexists _, _. split; [done|]. cbn. rewrite lookup_insert_eq. done.
Qed.

Lemma arbiter_strands_packet_witness :
  let q := example_qp (example_sq 0 0 []) [] 0 0 <| qp_send_pkts := [example_ack 0 5] |>
             <| qp_on_arbiter := true |> in
  let s := Arb (example_rdev <| rdev_arbiter := [16] |>) {[16 := q]} [RXE_QUEUE_STOPPED] [] in
  ∃ s' q', rxe_arbiter (H := example_params) s = Some (1, s') ∧ arb_qps s' !! 16 = Some q' ∧
    qp_send_pkts q' = [example_ack 0 5] ∧ qp_on_arbiter q' = false ∧ rdev_arbiter (arb_dev s') = [] ∧
    rxe_arbiter (H := example_params) s' = Some (1, s').
Proof. eapply arbiter_strands_packet; reflexivity. Defined.
