(* ===== verification/Req.v ===== *)
(** * The requester (rxe_req.c)

    The task function that turns the work queue elements of the send queue
    into request packets, one packet for each call. *)

From stdpp Require Import gmap.
From S2P Require Import Prelude Bits Queue Opcode Hdr Verbs Icrc Mr Cq State Comp Arbiter.

Definition GSI_QKEY : Z := 0x80010000.
Definition LRH_LNH_IBA_LOC : Z := 2.
Definition LRH_LNH_IBA_GBL : Z := 3.

(** A negated errno as an [int]. *)
Definition minus_EINVAL : Z := -22.

Definition wr_opcode_mask (opcode : Z) (q : rxe_qp) : Z := rxe_wr_opcode_info opcode (qp_qp_type q).

(** ** The opcode of the next packet *)

(** The four opcodes of a message that may be segmented. *)
Definition segment_opcode (prev : Z) (fits : bool) (first middle last only : Z) : Z :=
  if one_of prev [first; middle] then if fits then last else middle
  else if fits then only else first.

Definition next_opcode_rc (prev opcode : Z) (fits : bool) : Z :=
  if opcode =? IB_WR_RDMA_WRITE then
    segment_opcode prev fits IB_OPCODE_RC_RDMA_WRITE_FIRST IB_OPCODE_RC_RDMA_WRITE_MIDDLE
      IB_OPCODE_RC_RDMA_WRITE_LAST IB_OPCODE_RC_RDMA_WRITE_ONLY
  else if opcode =? IB_WR_RDMA_WRITE_WITH_IMM then
    segment_opcode prev fits IB_OPCODE_RC_RDMA_WRITE_FIRST IB_OPCODE_RC_RDMA_WRITE_MIDDLE
      IB_OPCODE_RC_RDMA_WRITE_LAST_WITH_IMMEDIATE IB_OPCODE_RC_RDMA_WRITE_ONLY_WITH_IMMEDIATE
  else if opcode =? IB_WR_SEND then
    segment_opcode prev fits IB_OPCODE_RC_SEND_FIRST IB_OPCODE_RC_SEND_MIDDLE
      IB_OPCODE_RC_SEND_LAST IB_OPCODE_RC_SEND_ONLY
  else if opcode =? IB_WR_SEND_WITH_IMM then
    segment_opcode prev fits IB_OPCODE_RC_SEND_FIRST IB_OPCODE_RC_SEND_MIDDLE
      IB_OPCODE_RC_SEND_LAST_WITH_IMMEDIATE IB_OPCODE_RC_SEND_ONLY_WITH_IMMEDIATE
  else if opcode =? IB_WR_RDMA_READ then IB_OPCODE_RC_RDMA_READ_REQUEST
  else if opcode =? IB_WR_ATOMIC_CMP_AND_SWP then IB_OPCODE_RC_COMPARE_SWAP
  else if opcode =? IB_WR_ATOMIC_FETCH_AND_ADD then IB_OPCODE_RC_FETCH_ADD
  else if opcode =? IB_WR_SEND_WITH_INV then
    segment_opcode prev fits IB_OPCODE_RC_SEND_FIRST IB_OPCODE_RC_SEND_MIDDLE
      IB_OPCODE_RC_SEND_LAST_INV IB_OPCODE_RC_SEND_ONLY_INV
  else minus_EINVAL.

Definition next_opcode_uc (prev opcode : Z) (fits : bool) : Z :=
  if opcode =? IB_WR_RDMA_WRITE then
    segment_opcode prev fits IB_OPCODE_UC_RDMA_WRITE_FIRST IB_OPCODE_UC_RDMA_WRITE_MIDDLE
      IB_OPCODE_UC_RDMA_WRITE_LAST IB_OPCODE_UC_RDMA_WRITE_ONLY
  else if opcode =? IB_WR_RDMA_WRITE_WITH_IMM then
    segment_opcode prev fits IB_OPCODE_UC_RDMA_WRITE_FIRST IB_OPCODE_UC_RDMA_WRITE_MIDDLE
      IB_OPCODE_UC_RDMA_WRITE_LAST_WITH_IMMEDIATE IB_OPCODE_UC_RDMA_WRITE_ONLY_WITH_IMMEDIATE
  else if opcode =? IB_WR_SEND then
    segment_opcode prev fits IB_OPCODE_UC_SEND_FIRST IB_OPCODE_UC_SEND_MIDDLE
      IB_OPCODE_UC_SEND_LAST IB_OPCODE_UC_SEND_ONLY
  else if opcode =? IB_WR_SEND_WITH_IMM then
    segment_opcode prev fits IB_OPCODE_UC_SEND_FIRST IB_OPCODE_UC_SEND_MIDDLE
      IB_OPCODE_UC_SEND_LAST_WITH_IMMEDIATE IB_OPCODE_UC_SEND_ONLY_WITH_IMMEDIATE
  else minus_EINVAL.

(** [qpt], [prev], [resid] and [mtu] are [qp_type(qp)], [qp->req.opcode],
    [wqe->dma.resid] and [qp->mtu]. *)
Definition next_opcode (qpt prev resid mtu opcode : Z) : Z :=
  let fits := resid <=? mtu in
  if qpt =? IB_QPT_RC then next_opcode_rc prev opcode fits
  else if qpt =? IB_QPT_UC then next_opcode_uc prev opcode fits
  else if one_of qpt [IB_QPT_SMI; IB_QPT_UD; IB_QPT_GSI] then
    if opcode =? IB_WR_SEND then IB_OPCODE_UD_SEND_ONLY
    else if opcode =? IB_WR_SEND_WITH_IMM then IB_OPCODE_UD_SEND_ONLY_WITH_IMMEDIATE
    else minus_EINVAL
  else minus_EINVAL.

Definition next_opcode_of (q : rxe_qp) (w : rxe_send_wqe) : Z :=
  next_opcode (qp_type q) (req_opcode (qp_req q)) (dma_resid (wqe_dma w)) (qp_mtu_bytes q)
    (wr_opcode (wqe_ibwr w)).

Section requester.
Context `{Params}.

(** ** Retry *)

Definition retry_advance (w : rxe_send_wqe) (to_send : Z) : eng rxe_dma_info :=
  if flag_set (wr_send_flags (wqe_ibwr w)) IB_SEND_INLINE then
    mret (wqe_dma w <| dma_resid ::= (λ n, u32 (n - to_send)) |>
                    <| dma_sge_offset ::= (λ n, u32 (n + to_send)) |>)
  else '(dma, _) ← deref (advance_dma_data (wqe_dma w) to_send); mret dma.

Fixpoint retry_first_write_send (npsn : nat) (wqe mask : Z) : eng unit :=
  match npsn with
  | O => mret tt
  | S npsn =>
      q ← get_qp; w ← sq_wqe wqe;
      let to_send := if dma_resid (wqe_dma w) >? qp_mtu_bytes q then qp_mtu_bytes q
                     else dma_resid (wqe_dma w) in
      mod_req (λ r, r <| req_opcode := next_opcode_of q w |>);;
      dma ← retry_advance w to_send;
      upd_wqe wqe (λ w, w <| wqe_dma := dma |>);;
      when (flag_set mask WR_WRITE_MASK)
        (upd_wqe wqe (λ w, w <| wqe_iova ::= (λ n, u64 (n + qp_mtu_bytes q)) |>));;
      retry_first_write_send npsn wqe mask
  end.

(** The body of the loop for an element that was started. *)
Definition retry_wqe (wqe npsn : Z) (first : bool) : eng unit :=
  q ← get_qp; w ← sq_wqe wqe;
  let mask := wr_opcode_mask (wr_opcode (wqe_ibwr w)) q in
  upd_wqe wqe (λ w, w <| wqe_iova := wr_remote_addr (wqe_ibwr w) |>);;
  when (negb first || negb (flag_set mask WR_READ_MASK))
    (upd_wqe wqe (λ w, w <| wqe_dma ::= λ d, d <| dma_resid := dma_length d |>
                                               <| dma_cur_sge := 0 |> <| dma_sge_offset := 0 |> |>));;
  when first
    (when (flag_set mask WR_WRITE_OR_SEND_MASK) (retry_first_write_send (Z.to_nat npsn) wqe mask);;
     when (flag_set mask WR_READ_MASK)
       (upd_wqe wqe (λ w, w <| wqe_iova ::= (λ n, u64 (n + u32 (npsn * qp_mtu_bytes q))) |>)));;
  upd_wqe wqe (λ w, w <| wqe_st := wqe_state_posted |>).

Fixpoint retry_loop (fuel : nat) (wqe_index npsn : Z) (first : bool) : eng unit :=
  q ← get_qp;
  if wqe_index =? producer_index (qp_sq q) then mret tt
  else match fuel with
  | O => wild
  | S fuel =>
      let wqe := addr_from_index (qp_sq q) wqe_index in
      w ← sq_wqe wqe;
      match wqe_st w with
      | wqe_state_posted => mret tt
      | wqe_state_done => retry_loop fuel (next_index (qp_sq q) wqe_index) npsn first
      | _ =>
          retry_wqe wqe npsn first;;
          retry_loop fuel (next_index (qp_sq q) wqe_index) npsn false
      end
  end.

(** The loop visits each element once: the slots bound the iterations. *)
Definition req_retry : eng unit :=
  q ← get_qp;
  a ← deref (queue_head (qp_sq q));
  w ← sq_wqe a;
  let npsn := u32 (comp_psn (qp_comp q) - wqe_first_psn w) .& BTH_PSN_MASK in
  mod_req (λ r, r <| req_wqe_index := consumer_index (qp_sq q) |>
                  <| req_psn := comp_psn (qp_comp q) |> <| req_opcode := -1 |>);;
  retry_loop (length (buf_data (q_buf (qp_sq q)))) (consumer_index (qp_sq q)) npsn true.

Definition rnr_nak_timer : eng unit := rxe_run_task task_req true.

(** ** The next work queue element *)

Definition req_check_drained : eng unit :=
  q ← get_qp;
  if bool_decide (req_state (qp_req q) = QP_STATE_DRAIN) then
    busy ← match queue_head (qp_sq q) with
           | None => mret false
           | Some a =>
               w ← sq_wqe a;
               mret (negb (req_wqe_index (qp_req q) =? consumer_index (qp_sq q))
                     || negb (bool_decide (wqe_st w = wqe_state_posted)))
           end;
    when (negb busy)
      (mod_req (λ r, r <| req_state := QP_STATE_DRAINED |>);;
       when (qp_has_event_handler q) (emit EvSqDrained))
  else mret tt.

Definition req_next_wqe : eng (option Z) :=
  req_check_drained;;
  q ← get_qp;
  if req_wqe_index (qp_req q) =? producer_index (qp_sq q) then mret None
  else
    let wqe := addr_from_index (qp_sq q) (req_wqe_index (qp_req q)) in
    w ← sq_wqe wqe;
    if (bool_decide (req_state (qp_req q) = QP_STATE_DRAIN)
        || bool_decide (req_state (qp_req q) = QP_STATE_DRAINED))
       && negb (bool_decide (wqe_st w = wqe_state_processing)) then mret None
    else if flag_set (wr_send_flags (wqe_ibwr w)) IB_SEND_FENCE
       && negb (req_wqe_index (qp_req q) =? consumer_index (qp_sq q)) then
      mod_req (λ r, r <| req_wait_fence := true |>);; mret None
    else
      upd_wqe wqe (λ w, w <| wqe_mask := wr_opcode_mask (wr_opcode (wqe_ibwr w)) q |>);;
      mret (Some wqe).

(** ** Limits *)

Definition check_init_depth (wqe : Z) : eng bool :=
  w ← sq_wqe wqe;
  if wqe_has_rd_atomic w then mret true
  else
    mod_req (λ r, r <| req_need_rd_atomic := true |> <| req_rd_atomic ::= (λ n, n - 1) |>);;
    q ← get_qp;
    if req_rd_atomic (qp_req q) >=? 0 then
      mod_req (λ r, r <| req_need_rd_atomic := false |>);;
      upd_wqe wqe (λ w, w <| wqe_has_rd_atomic := true |>);;
      mret true
    else mod_req (λ r, r <| req_rd_atomic ::= (λ n, n + 1) |>);; mret false.

Definition get_mtu (w : rxe_send_wqe) : eng Z :=
  q ← get_qp;
  if (qp_type q =? IB_QPT_RC) || (qp_type q =? IB_QPT_UC) then mret (qp_mtu_bytes q)
  else
    dev ← get_dev;
    port ← deref (rdev_ports dev !! Z.to_nat (ah_port_num (av_attr (wqe_av w)) - 1));
    mret (port_mtu_cap port).

(** ** Building a packet *)

Definition pad_bytes (payload : Z) : Z := (- payload) .& 0x3.

(** A header field that is written when the opcode has it. *)
Definition if_hdr (pkt : rxe_pkt_info) (mask : Z) (f : rxe_pkt_info → rxe_pkt_info) : rxe_pkt_info :=
  if flag_set (pkt_mask pkt) mask then f pkt else pkt.

Definition init_lrh (pkt : rxe_pkt_info) (av : rxe_av) (lid paylen : Z) : rxe_pkt_info :=
  let pkt := pkt <| pkt_offset ::= (λ n, n + RXE_LRH_BYTES) |> in
  let grh := flag_set (pkt_mask pkt) RXE_GRH_MASK in
  let lnh := if grh then LRH_LNH_IBA_GBL else LRH_LNH_IBA_LOC in
  let length := paylen + RXE_LRH_BYTES + (if grh then RXE_GRH_BYTES else 0) in
  lrh_init pkt (ah_sl (av_attr av)) (ah_sl (av_attr av)) lnh (length / 4) (ah_dlid (av_attr av)) lid.

Definition init_grh (pkt : rxe_pkt_info) (av : rxe_av) (prefix guid paylen : Z) : rxe_pkt_info :=
  let pkt := pkt <| pkt_offset ::= (λ n, n + RXE_GRH_BYTES) |> in
  let pkt := grh_init pkt 0 0 paylen 0 in
  let pkt := grh_set_sgid pkt prefix guid in
  grh_set_dgid pkt (ah_dgid_prefix (av_attr av)) (ah_dgid_guid (av_attr av)).

(** The extension headers. *)
Definition init_ext (pkt : rxe_pkt_info) (q : rxe_qp) (w : rxe_send_wqe) (opcode : Z) : rxe_pkt_info :=
  let ibwr := wqe_ibwr w in
  let pkt := if_hdr pkt RXE_RETH_MASK (λ pkt,
    let pkt := reth_set_rkey pkt (wr_rkey ibwr) in
    let pkt := reth_set_va pkt (wqe_iova w) in
    reth_set_len pkt (dma_length (wqe_dma w))) in
  let pkt := if_hdr pkt RXE_IMMDT_MASK (λ pkt, immdt_set_imm pkt (wr_imm_data ibwr)) in
  let pkt := if_hdr pkt RXE_IETH_MASK (λ pkt, ieth_set_rkey pkt (wr_invalidate_rkey ibwr)) in
  let pkt := if_hdr pkt RXE_ATMETH_MASK (λ pkt,
    let pkt := atmeth_set_va pkt (wqe_iova w) in
    let pkt :=
      if one_of opcode [IB_OPCODE_RC_COMPARE_SWAP; IB_OPCODE_RD_COMPARE_SWAP] then
        let pkt := atmeth_set_swap_add pkt (wr_swap ibwr) in
        atmeth_set_comp pkt (wr_compare_add ibwr)
      else atmeth_set_swap_add pkt (wr_compare_add ibwr) in
    atmeth_set_rkey pkt (wr_rkey ibwr)) in
  if_hdr pkt RXE_DETH_MASK (λ pkt,
    let pkt := deth_set_qkey pkt (if qp_qp_num q =? 1 then GSI_QKEY else wr_remote_qkey ibwr) in
    deth_set_sqp pkt (qp_qp_num q)).

Definition init_req_packet (wqe opcode payload : Z) : eng (option rxe_pkt_info) :=
  q ← get_qp; w ← sq_wqe wqe; dev ← get_dev;
  let port := rdev_ports dev !! Z.to_nat (qa_port_num (qp_attr q) - 1) in
  let ibwr := wqe_ibwr w in
  let pad := pad_bytes payload in
  let paylen := opcode_length opcode + payload + pad + RXE_ICRC_SIZE in
  let av := if (qp_type q =? IB_QPT_RC) || (qp_type q =? IB_QPT_UC) then qp_pri_av q else wqe_av w in
  skb ← init_packet av paylen;
  match skb with
  | None => mret None
  | Some pkt =>
      mod_qp (λ q, q <| qp_req_skb_out ::= (λ n, n + 1) |>);;
      mod_dev (λ d, d <| rdev_req_skb_out ::= (λ n, n + 1) |>);;
      let pkt := pkt <| pkt_opcode := opcode |> <| pkt_psn := req_psn (qp_req q) |>
                     <| pkt_mask ::= (λ m, m .| opcode_mask opcode) |>
                     <| pkt_paylen := u16 paylen |> <| pkt_offset := 0 |> in
      port ← deref port;
      let pkt := if_hdr pkt RXE_LRH_MASK (λ pkt, init_lrh pkt av (port_lid port) paylen) in
      pkt ← (if flag_set (pkt_mask pkt) RXE_GRH_MASK then
               guid ← deref (port_guid_tbl port !! Z.to_nat (ah_sgid_index (av_attr av)));
               mret (init_grh pkt av (port_subnet_prefix port) guid paylen)
             else mret pkt);
      let end_ := flag_set (pkt_mask pkt) RXE_END_MASK in
      let solicited := flag_set (wr_send_flags ibwr) IB_SEND_SOLICITED && end_
        && (flag_set (pkt_mask pkt) RXE_SEND_MASK
            || (pkt_mask pkt .& (RXE_WRITE_MASK .| RXE_IMMDT_MASK)
                  =? RXE_WRITE_MASK .| RXE_IMMDT_MASK)) in
      pkey ← deref (port_pkey_tbl port !! Z.to_nat
                      (if qp_type q =? IB_QPT_GSI then wr_pkey_index ibwr else qa_pkey_index (qp_attr q)));
      let qp_num := if flag_set (pkt_mask pkt) RXE_DETH_MASK then wr_remote_qpn ibwr
                    else qa_dest_qp_num (qp_attr q) in
      let noack := req_noack_pkts (qp_req q) in
      let ack_req := end_ || (noack >? rxe_max_pkt_per_ack) in
      mod_req (λ r, r <| req_noack_pkts := if ack_req then 0 else noack + 1 |>);;
      let pkt := bth_init pkt opcode (Zbool solicited) 0 pad pkey qp_num (Zbool ack_req) (pkt_psn pkt) in
      mret (Some (init_ext pkt q w opcode))
  end.

(** The bytes [bs] written at an offset. *)
Definition put_bytes (h : list Z) (o : Z) (bs : list Z) : list Z := list_inserts (Z.to_nat o) bs h.

(** The payload of a send or write, and its contribution to the CRC. *)
Definition fill_payload (wqe : Z) (pkt : rxe_pkt_info) (payload crc : Z) : eng (result (rxe_pkt_info * Z)) :=
  w ← sq_wqe wqe;
  let o := payload_addr pkt in
  if flag_set (wr_send_flags (wqe_ibwr w)) IB_SEND_INLINE then
    let p := take (Z.to_nat payload) (drop (Z.to_nat (dma_sge_offset (wqe_dma w))) (dma_inline_data (wqe_dma w))) in
    let crc := if rxe_crc_disable then crc else crc32_le crc p in
    upd_wqe wqe (λ w, w <| wqe_dma ::= λ d, d <| dma_resid ::= (λ n, u32 (n - payload)) |>
                                               <| dma_sge_offset ::= (λ n, u32 (n + payload)) |> |>);;
    mret (Ok (pkt <| pkt_hdr ::= (λ h, put_bytes h o p) |>, crc))
  else
    '(dma, bytes, crc', r) ← eng_copy_data 0 (wqe_dma w) (pkt_bytes pkt o payload) payload direction_out
                               (if rxe_crc_disable then None else Some crc);
    upd_wqe wqe (λ w, w <| wqe_dma := dma |>);;
    mret (match r with
          | Ok _ => Ok (pkt <| pkt_hdr ::= (λ h, put_bytes h o bytes) |>, default crc crc')
          | Err e => Err e
          end).

Definition fill_packet (wqe : Z) (pkt : rxe_pkt_info) (payload : Z) : eng (result rxe_pkt_info) :=
  let crc := if rxe_crc_disable then 0 else rxe_icrc_hdr pkt in
  r ← (if flag_set (pkt_mask pkt) RXE_WRITE_OR_SEND then fill_payload wqe pkt payload crc
       else mret (Ok (pkt, crc)));
  match r with
  | Err e => mret (Err e)
  | Ok (pkt, crc) =>
      let p := payload_addr pkt + payload in
      let pad := pad_bytes payload in
      let zeros := replicate (Z.to_nat pad) 0 in
      let crc := if rxe_crc_disable then crc else crc32_le crc zeros in
      let pkt := pkt <| pkt_hdr ::= (λ h, put_bytes h p zeros) |> in
      mret (Ok (pkt <| pkt_hdr ::= (λ h, store_u8 h (p + pad) (u8 (not32 crc))) |>))
  end.

(** ** The state after a packet *)

Definition num_packets (resid mtu : Z) : Z := u32 (resid + mtu - 1) / mtu.

Definition update_state (wqe : Z) (pkt : rxe_pkt_info) (payload : Z) : eng unit :=
  q ← get_qp; w ← sq_wqe wqe; now ← gets es_jiffies;
  let num_pkt := num_packets (dma_resid (wqe_dma w) + payload) (qp_mtu_bytes q) in
  let num_pkt := if num_pkt =? 0 then 1 else num_pkt in
  let psn := req_psn (qp_req q) in
  when (flag_set (pkt_mask pkt) RXE_START_MASK)
    (upd_wqe wqe (λ w, w <| wqe_first_psn := psn |>
                         <| wqe_last_psn := u32 (psn + num_pkt - 1) .& BTH_PSN_MASK |>));;
  w ← sq_wqe wqe;
  mod_req (λ r, r <| req_psn := if flag_set (pkt_mask pkt) RXE_READ_MASK
                                then u32 (wqe_first_psn w + num_pkt) .& BTH_PSN_MASK
                                else u32 (psn + 1) .& BTH_PSN_MASK |>
                  <| req_opcode := pkt_opcode pkt |>);;
  (if flag_set (pkt_mask pkt) RXE_END_MASK then
     upd_wqe wqe (λ w, w <| wqe_st := if qp_type q =? IB_QPT_RC then wqe_state_pending
                                      else wqe_state_done |>);;
     mod_req (λ r, r <| req_wqe_index ::= next_index (qp_sq q) |>)
   else upd_wqe wqe (λ w, w <| wqe_st := wqe_state_processing |>));;
  when (negb (qp_timeout_jiffies q =? 0) && negb (bool_decide (is_Some (qp_retrans_timer q))))
    (mod_qp (λ q, q <| qp_retrans_timer := Some (ulong (now + qp_timeout_jiffies q)) |>)).

(** ** The task function

    [Ok] is the return value 0, [Err EAGAIN] the exit. [depth] and [fuel] are
    those of the completer, which the requester calls. *)

(** A packet of [payload] bytes with [opcode]; [mask] is the mask of the opcode. *)
Definition req_send (depth fuel : nat) (wqe opcode mask payload : Z) : eng (result unit) :=
  skb ← init_req_packet wqe opcode payload;
  match skb with
  | None => mod_qp (λ q, q <| qp_need_req_skb := true |>);; mret (Err EAGAIN)
  | Some pkt =>
      r ← fill_packet wqe pkt payload;
      match r with
      | Err _ =>
          upd_wqe wqe (λ w, w <| wqe_status := IB_WC_LOC_PROT_ERR |> <| wqe_st := wqe_state_error |>);;
          rxe_completer depth fuel;;
          mret (Ok tt)
      | Ok pkt =>
          update_state wqe pkt payload;;
          send_packet pkt;;
          q ← get_qp;
          when (flag_set mask RXE_END_MASK && negb (qp_type q =? IB_QPT_RC))
            (__rxe_do_task (rxe_completer depth fuel) fuel);;
          mret (Ok tt)
      end
  end.

(** A UD message that does not fit is dropped and reported as sent. *)
Definition req_fake_send (depth fuel : nat) (wqe : Z) : eng (result unit) :=
  q ← get_qp;
  let psn := req_psn (qp_req q) in
  upd_wqe wqe (λ w, w <| wqe_first_psn := psn |> <| wqe_last_psn := psn |>);;
  mod_req (λ r, r <| req_psn := u32 (psn + 1) .& BTH_PSN_MASK |>
                  <| req_opcode := IB_OPCODE_UD_SEND_ONLY |>
                  <| req_wqe_index ::= next_index (qp_sq q) |>);;
  upd_wqe wqe (λ w, w <| wqe_st := wqe_state_done |> <| wqe_status := IB_WC_SUCCESS |>);;
  __rxe_do_task (rxe_completer depth fuel) fuel;;
  mret (Ok tt).

(** From the choice of the opcode on. *)
Definition req_wqe (depth fuel : nat) (wqe : Z) : eng (result unit) :=
  q ← get_qp; w ← sq_wqe wqe;
  let opcode := next_opcode_of q w in
  if opcode <? 0 then upd_wqe wqe (λ w, w <| wqe_status := IB_WC_LOC_QP_OP_ERR |>);; mret (Err EAGAIN)
  else
    let mask := opcode_mask opcode in
    ok ← (if flag_set mask RXE_READ_OR_ATOMIC then check_init_depth wqe else mret true);
    if negb ok then mret (Err EAGAIN)
    else
      mtu ← get_mtu w;
      let payload := if flag_set mask RXE_WRITE_OR_SEND then s32 (dma_resid (wqe_dma w)) else 0 in
      if (payload >? mtu) && (qp_type q =? IB_QPT_UD) then req_fake_send depth fuel wqe
      else req_send depth fuel wqe opcode mask (if payload >? mtu then mtu else payload).

Definition rxe_requester (depth fuel : nat) : eng (result unit) :=
  q ← get_qp;
  if negb (qp_valid q) || bool_decide (req_state (qp_req q) = QP_STATE_ERROR) then mret (Err EAGAIN)
  else if bool_decide (req_state (qp_req q) = QP_STATE_RESET) then
    mod_req (λ r, r <| req_wqe_index := consumer_index (qp_sq q) |> <| req_opcode := -1 |>
                    <| req_need_rd_atomic := false |> <| req_wait_psn := false |>
                    <| req_need_retry := false |>);;
    mret (Err EAGAIN)
  else
    when (req_need_retry (qp_req q))
      (req_retry;; mod_req (λ r, r <| req_need_retry := false |>));;
    wqe ← req_next_wqe;
    match wqe with
    | None => mret (Err EAGAIN)
    | Some wqe =>
        q ← get_qp;
        if (qp_type q =? IB_QPT_RC)
           && (psn_compare (req_psn (qp_req q)) (u32 (comp_psn (qp_comp q) + rxe_max_req_comp_gap)) >? 0)
        then mod_req (λ r, r <| req_wait_psn := true |>);; mret (Err EAGAIN)
        else if qp_req_skb_out q >? rxe_max_skb_per_qp
        then mod_qp (λ q, q <| qp_need_req_skb := true |>);; mret (Err EAGAIN)
        else req_wqe depth fuel wqe
    end.
End requester.
