(* ===== verification/ReqPacket.v ===== *)
(** * The packets the requester builds (rxe_req.c)

    What [init_req_packet] and [fill_packet] put on the wire for the sends and
    the RDMA writes of a reliable connection, byte by byte: the fields of the
    headers the receiver will read, and the payload. *)

From stdpp Require Import gmap.
From S2P Require Import Prelude Bits Queue Opcode Hdr Verbs Icrc Mr Sge Cq State Comp Arbiter Req.

(** ** Bytes of a packet *)

Lemma byte_at_put h o bs p :
  0 ≤ o → 0 ≤ p → p < o ∨ o + Z.of_nat (length bs) ≤ p → byte_at (put_bytes h o bs) p = byte_at h p.
Proof.
  intros Ho Hp Hd. unfold byte_at, put_bytes. destruct Hd.
  - by rewrite list_lookup_inserts_lt by lia.
  - by rewrite list_lookup_inserts_ge by lia.
Qed.

Lemma length_put h o bs : length (put_bytes h o bs) = length h.
Proof. apply length_inserts. Qed.

Lemma put_bytes_get h o bs :
  0 ≤ o → o + Z.of_nat (length bs) ≤ Z.of_nat (length h) →
  take (length bs) (drop (Z.to_nat o) (put_bytes h o bs)) = bs.
Proof.
  intros Ho Hl. apply list_eq_same_length with (length bs); [done|rewrite length_take, length_drop, length_put; lia|].
  intros i x y Hi Hx Hy. rewrite lookup_take_lt in Hx by lia. rewrite lookup_drop in Hx.
  unfold put_bytes in Hx. rewrite list_lookup_inserts in Hx by lia.
  replace (Z.to_nat o + i - Z.to_nat o)%nat with i in Hx by lia. congruence.
Qed.

(** The bytes at [o] depend on these bytes only. *)
Lemma take_drop_frame h h' o n :
  0 ≤ o → length h = length h' → (∀ p, o ≤ p < o + Z.of_nat n → byte_at h p = byte_at h' p) →
  take n (drop (Z.to_nat o) h) = take n (drop (Z.to_nat o) h').
Proof.
  intros Ho Hl Hb. apply list_eq. intros i. destruct (decide (i < n)%nat) as [Hi|].
  - rewrite !lookup_take_lt, !lookup_drop by lia. specialize (Hb (o + Z.of_nat i)). unfold byte_at in Hb.
    replace (Z.to_nat (o + Z.of_nat i)) with (Z.to_nat o + i)%nat in Hb by lia.
    destruct (h !! _) as [x|] eqn:E1, (h' !! _) as [y|] eqn:E2; cbn in Hb; [f_equal; apply Hb; lia|..|done];
      [apply lookup_ge_None in E2; apply lookup_lt_Some in E1|apply lookup_ge_None in E1;
       apply lookup_lt_Some in E2]; lia.
  - by rewrite !lookup_take_ge by lia.
Qed.

(** A copy of the first [n] bytes. *)
Lemma byte_at_copy h h' n p :
  0 ≤ p < n → n ≤ Z.of_nat (length h) → n ≤ Z.of_nat (length h') →
  byte_at (put_bytes h 0 (take (Z.to_nat n) (drop (Z.to_nat 0) h'))) p = byte_at h' p.
Proof.
  intros Hp Hh Hh'. unfold byte_at, put_bytes. rewrite list_lookup_inserts; rewrite ?length_take, ?length_drop; [|lia..].
  rewrite Nat.sub_0_r, lookup_take_lt by lia. by rewrite drop_0.
Qed.

(** [pkt'] is [pkt] up to the bytes from [lo] on. *)
Record above (lo : Z) (pkt pkt' : rxe_pkt_info) : Prop := {
  above_meta : pkt' = pkt <| pkt_hdr := pkt_hdr pkt' |>;
  above_length : length (pkt_hdr pkt') = length (pkt_hdr pkt);
  above_byte p : 0 ≤ p < lo → byte_at (pkt_hdr pkt') p = byte_at (pkt_hdr pkt) p
}.

Lemma above_refl lo pkt : above lo pkt pkt.
Proof. split; [by destruct pkt|done..]. Qed.

Lemma above_trans lo p1 p2 p3 : above lo p1 p2 → above lo p2 p3 → above lo p1 p3.
Proof.
  intros [E1 L1 B1] [E2 L2 B2]. split; [rewrite E2, E1; done|congruence|].
  intros p Hp. by rewrite B2, B1.
Qed.

Lemma above_weaken lo lo' pkt pkt' : lo' ≤ lo → above lo pkt pkt' → above lo' pkt pkt'.
Proof. intros Hl [E L B]. split; [done..|]. intros p Hp. apply B. lia. Qed.

Lemma above_store lo pkt n o v :
  0 ≤ lo ≤ o → above lo pkt (pkt <| pkt_hdr ::= λ h, store_be n h o v |>).
Proof.
  intros Ho. split; [done|apply length_store_be|]. intros p Hp. cbn. apply byte_at_store; lia.
Qed.

Lemma above_put lo pkt o bs : 0 ≤ lo ≤ o → above lo pkt (pkt <| pkt_hdr ::= λ h, put_bytes h o bs |>).
Proof. intros Ho. split; [done|apply length_put|]. intros p Hp. cbn. apply byte_at_put; lia. Qed.

Lemma bth_view_frame h h' o :
  (∀ p, o ≤ p < o + RXE_BTH_BYTES → byte_at h p = byte_at h' p) → bth_view h o = bth_view h' o.
Proof.
  unfold RXE_BTH_BYTES. intros Hb. rewrite !bth_view_decode.
  unfold load_u8, load_be16, load_be32.
  f_equal; apply load_be_frame; intros; apply Hb; lia.
Qed.

(** ** The opcodes of a message *)

Definition rc_message_opcodes : list Z :=
  [IB_OPCODE_RC_SEND_FIRST; IB_OPCODE_RC_SEND_MIDDLE; IB_OPCODE_RC_SEND_LAST;
   IB_OPCODE_RC_SEND_LAST_WITH_IMMEDIATE; IB_OPCODE_RC_SEND_ONLY; IB_OPCODE_RC_SEND_ONLY_WITH_IMMEDIATE;
   IB_OPCODE_RC_RDMA_WRITE_FIRST; IB_OPCODE_RC_RDMA_WRITE_MIDDLE; IB_OPCODE_RC_RDMA_WRITE_LAST;
   IB_OPCODE_RC_RDMA_WRITE_LAST_WITH_IMMEDIATE; IB_OPCODE_RC_RDMA_WRITE_ONLY;
   IB_OPCODE_RC_RDMA_WRITE_ONLY_WITH_IMMEDIATE].

(** The first, middle, last and only opcode of a work request. *)
Definition rc_opcodes (wr : Z) : option (Z * Z * Z * Z) :=
  if wr =? IB_WR_SEND then
    Some (IB_OPCODE_RC_SEND_FIRST, IB_OPCODE_RC_SEND_MIDDLE, IB_OPCODE_RC_SEND_LAST, IB_OPCODE_RC_SEND_ONLY)
  else if wr =? IB_WR_SEND_WITH_IMM then
    Some (IB_OPCODE_RC_SEND_FIRST, IB_OPCODE_RC_SEND_MIDDLE, IB_OPCODE_RC_SEND_LAST_WITH_IMMEDIATE,
          IB_OPCODE_RC_SEND_ONLY_WITH_IMMEDIATE)
  else if wr =? IB_WR_RDMA_WRITE then
    Some (IB_OPCODE_RC_RDMA_WRITE_FIRST, IB_OPCODE_RC_RDMA_WRITE_MIDDLE, IB_OPCODE_RC_RDMA_WRITE_LAST,
          IB_OPCODE_RC_RDMA_WRITE_ONLY)
  else if wr =? IB_WR_RDMA_WRITE_WITH_IMM then
    Some (IB_OPCODE_RC_RDMA_WRITE_FIRST, IB_OPCODE_RC_RDMA_WRITE_MIDDLE,
          IB_OPCODE_RC_RDMA_WRITE_LAST_WITH_IMMEDIATE, IB_OPCODE_RC_RDMA_WRITE_ONLY_WITH_IMMEDIATE)
  else None.

(** The opcode of packet [i] of [n]. *)
Definition message_opcode (ops : Z * Z * Z * Z) (i n : nat) : Z :=
  let '(first, middle, last, only) := ops in
  if (n =? 1)%nat then only else if (i =? 0)%nat then first
  else if (S i =? n)%nat then last else middle.

Record message_opcode_facts (op : Z) : Prop := {
  mo_range : 0 ≤ op < 256;
  mo_length : 12 ≤ opcode_length op ≤ 32;
  mo_payload : opcode_offset op RXE_PAYLOAD = opcode_length op;
  mo_lrh : flag_set (opcode_mask op) RXE_LRH_MASK = false;
  mo_data : flag_set (opcode_mask op) RXE_WRITE_OR_SEND = true;
  mo_read : flag_set (opcode_mask op) RXE_READ_OR_ATOMIC = false;
  mo_rd : flag_set (opcode_mask op) RXE_READ_MASK = false;
  mo_deth : flag_set (opcode_mask op) RXE_DETH_MASK = false;
  mo_ieth : flag_set (opcode_mask op) RXE_IETH_MASK = false;
  mo_atmeth : flag_set (opcode_mask op) RXE_ATMETH_MASK = false;
  mo_reth : flag_set (opcode_mask op) RXE_RETH_MASK = true →
    opcode_offset op RXE_RETH = 12 ∧ 28 ≤ opcode_length op;
  mo_immdt : flag_set (opcode_mask op) RXE_IMMDT_MASK = true →
    opcode_offset op RXE_IMMDT = opcode_length op - 4 ∧
    (if flag_set (opcode_mask op) RXE_RETH_MASK then 32 else 16) = opcode_length op
}.

Lemma message_opcode_spec op : op ∈ rc_message_opcodes → message_opcode_facts op.
Proof.
  intros Hop. repeat (apply elem_of_cons in Hop as [->|Hop]); [..|by apply not_elem_of_nil in Hop].
  all: split; vm_compute; intuition congruence.
Qed.

(** What [init_packet] sets in the mask of a packet. *)
Definition link_mask (x : Z) : Prop := x = RXE_GRH_MASK ∨ x = RXE_GRH_MASK .| RXE_LOOPBACK_MASK.

(** The masks the interface sets are none of those of an opcode. *)
Lemma link_mask_flag x y m :
  link_mask x → (RXE_GRH_MASK .| RXE_LOOPBACK_MASK) .& m = 0 → flag_set (x .| y) m = flag_set y m.
Proof.
  intros Hx Hm. rewrite flag_set_lor. replace (flag_set x m) with false; [done|]. symmetry.
  unfold flag_set. apply negb_false_iff, Z.eqb_eq. rewrite Z.land_lor_distr_l in Hm.
  apply Z.lor_eq_0_iff in Hm as [Hg Hl]. destruct Hx as [-> | ->]; [done|].
  by rewrite Z.land_lor_distr_l, Hg, Hl.
Qed.

Section build.
Context (op x : Z) (Hop : op ∈ rc_message_opcodes) (Hx : link_mask x).

(** A packet of the opcode, with room for its headers. *)
Record shaped (pkt : rxe_pkt_info) : Prop := {
  sh_opcode : pkt_opcode pkt = op;
  sh_mask : pkt_mask pkt = x .| opcode_mask op;
  sh_offset : 0 ≤ pkt_offset pkt;
  sh_room : pkt_offset pkt + opcode_length op ≤ Z.of_nat (length (pkt_hdr pkt))
}.

Lemma shaped_above lo pkt pkt' : shaped pkt → above lo pkt pkt' → shaped pkt'.
Proof using Type. intros [] [E L _]. rewrite E. split; cbn; [done..|]. by rewrite L. Qed.

Lemma if_hdr_false pkt m f :
  shaped pkt → flag_set (opcode_mask op) m = false → (RXE_GRH_MASK .| RXE_LOOPBACK_MASK) .& m = 0 →
  if_hdr pkt m f = pkt.
Proof using Hx. intros Hs Hf Hm. unfold if_hdr. rewrite (sh_mask _ Hs), link_mask_flag, Hf by done. done. Qed.

Lemma reth_spec pkt w :
  shaped pkt →
  let pkt' := if_hdr pkt RXE_RETH_MASK (λ pkt,
    reth_set_len (reth_set_va (reth_set_rkey pkt (wr_rkey (wqe_ibwr w))) (wqe_iova w))
      (dma_length (wqe_dma w))) in
  above (pkt_offset pkt + 12) pkt pkt' ∧
  (flag_set (opcode_mask op) RXE_RETH_MASK = true →
   reth_va pkt' = u64 (wqe_iova w) ∧ reth_rkey pkt' = u32 (wr_rkey (wqe_ibwr w)) ∧
   reth_len pkt' = u32 (dma_length (wqe_dma w))).
Proof using Hop Hx.
  intros Hs. pose proof (message_opcode_spec op Hop) as []. destruct Hs as [Hsop Hsm Hso Hsr].
  cbn zeta. unfold if_hdr. rewrite Hsm, link_mask_flag by done.
  destruct (flag_set (opcode_mask op) RXE_RETH_MASK); [|split; [apply above_refl|done]].
  destruct mo_reth0 as [Hr Hr']; [done|].
  unfold reth_set_len, reth_set_va, reth_set_rkey, reth_va, reth_rkey, reth_len,
    __reth_set_va, __reth_set_rkey, __reth_set_len, __reth_va, __reth_rkey, __reth_len, store_be64, store_be32.
  rewrite !ext_offset_upd. unfold ext_offset. rewrite Hsop, Hr. cbn [pkt_hdr upd_field pkt_opcode pkt_offset].
  split.
  - eapply above_trans; [apply above_store|eapply above_trans; [apply above_store|apply above_store]]; lia.
  - intros _. mem_simpl. done.
Qed.

Lemma immdt_spec pkt v :
  shaped pkt →
  let pkt' := if_hdr pkt RXE_IMMDT_MASK (λ pkt, immdt_set_imm pkt v) in
  above (pkt_offset pkt + 12) pkt pkt' ∧
  (flag_set (opcode_mask op) RXE_RETH_MASK = true → above (pkt_offset pkt + 28) pkt pkt') ∧
  (flag_set (opcode_mask op) RXE_IMMDT_MASK = true → immdt_imm pkt' = u32 v).
Proof using Hop Hx.
  intros Hs. pose proof (message_opcode_spec op Hop) as []. destruct Hs as [Hsop Hsm Hso Hsr].
  cbn zeta. unfold if_hdr. rewrite Hsm, link_mask_flag by done.
  destruct (flag_set (opcode_mask op) RXE_IMMDT_MASK); [|split; [apply above_refl|split; [|done]];
    intros _; apply above_refl].
  destruct mo_immdt0 as [Hi Hl]; [done|].
  unfold immdt_set_imm, immdt_imm, __immdt_set_imm, __immdt_imm, store_be32. rewrite ext_offset_upd.
  unfold ext_offset. rewrite Hsop, Hi. cbn [pkt_hdr upd_field].
  split; [apply above_store; case_match; lia|]. split.
  - intros Hr. rewrite Hr in Hl. apply above_store; lia.
  - intros _. mem_simpl. done.
Qed.

Lemma init_ext_spec pkt q w :
  shaped pkt →
  let pkt' := init_ext pkt q w op in
  above (pkt_offset pkt + 12) pkt pkt' ∧
  (flag_set (opcode_mask op) RXE_RETH_MASK = true →
   reth_va pkt' = u64 (wqe_iova w) ∧ reth_rkey pkt' = u32 (wr_rkey (wqe_ibwr w)) ∧
   reth_len pkt' = u32 (dma_length (wqe_dma w))) ∧
  (flag_set (opcode_mask op) RXE_IMMDT_MASK = true → immdt_imm pkt' = u32 (wr_imm_data (wqe_ibwr w))).
Proof using Hop Hx.
  intros Hs pkt'. pose proof (message_opcode_spec op Hop) as []. unfold pkt', init_ext.
  destruct (reth_spec pkt w Hs) as [Ha1 Hr]. cbn zeta in Ha1, Hr.
  set (p1 := if_hdr pkt RXE_RETH_MASK _) in *. pose proof (shaped_above _ _ _ Hs Ha1) as Hs1.
  destruct (immdt_spec p1 (wr_imm_data (wqe_ibwr w)) Hs1) as (Ha2 & Ha2' & Hi). cbn zeta in Ha2, Ha2', Hi.
  set (p2 := if_hdr p1 RXE_IMMDT_MASK _) in *. pose proof (shaped_above _ _ _ Hs1 Ha2) as Hs2.
  rewrite (if_hdr_false p2 RXE_IETH_MASK) by done. rewrite (if_hdr_false p2 RXE_ATMETH_MASK) by done.
  rewrite (if_hdr_false p2 RXE_DETH_MASK) by done.
  assert (Ho : pkt_offset p1 = pkt_offset pkt) by (by rewrite (above_meta _ _ _ Ha1)). rewrite Ho in *.
  split; [by eapply above_trans|]. split; [|done]. intros Hf. specialize (Hr Hf) as (<- & <- & <-).
  destruct (Ha2' Hf) as [E L B]. destruct (mo_reth0 Hf) as [Hro Hrl].
  unfold reth_va, reth_rkey, reth_len, __reth_va, __reth_rkey, __reth_len, load_be64, load_be32, ext_offset.
  rewrite (sh_opcode _ Hs1), (sh_opcode _ Hs2), E. cbn [pkt_offset pkt_hdr upd_field]. rewrite Ho, Hro.
  pose proof (sh_offset _ Hs). repeat split; apply load_be_frame; intros p Hp; apply B; lia.
Qed.
End build.

(** ** Building the packet *)

(** What the port of a sender puts into its packets. *)
Record sender := Sender { snd_pkey : Z; snd_prefix : Z; snd_guid : Z }.

(** The tables of the device have the entries the queue pair refers to. *)
Record addressable (d : rxe_dev) (q : rxe_qp) (from : sender) : Prop := {
  ad_first : ∃ port guid, rdev_ports d !! 0%nat = Some port ∧ port_guid_tbl port !! 0%nat = Some guid;
  ad_port : ∃ port guid, rdev_ports d !! Z.to_nat (qa_port_num (qp_attr q) - 1) = Some port ∧
    port_guid_tbl port !! Z.to_nat (ah_sgid_index (av_attr (qp_pri_av q))) = Some guid ∧
    port_pkey_tbl port !! Z.to_nat (qa_pkey_index (qp_attr q)) = Some (snd_pkey from) ∧
    port_subnet_prefix port = snd_prefix from ∧ guid = snd_guid from
}.

(** The fields of a global route header at the start of a packet. *)
Record grh_fields := GrhFields {
  g_ipver : Z; g_next_hdr : Z; g_paylen : Z; g_sgid_prefix : Z; g_sgid_guid : Z; g_dgid_prefix : Z; g_dgid_guid : Z;
  g_sgid_top : Z
}.

Definition grh_view (h : list Z) : grh_fields :=
  GrhFields (__grh_ipver h 0) (__grh_next_hdr h 0) (__grh_paylen h 0) (load_be64 h 8) (load_be64 h 16)
    (load_be64 h 24) (load_be64 h 32) (load_u8 h 8).

Lemma grh_view_frame h h' :
  (∀ p, 0 ≤ p < RXE_GRH_BYTES → byte_at h p = byte_at h' p) → grh_view h = grh_view h'.
Proof.
  unfold RXE_GRH_BYTES. intros Hb. unfold grh_view, __grh_ipver, __grh_next_hdr, __grh_paylen, load_u8, load_be16,
    load_be32, load_be64.
  assert (HF : ∀ n o, 0 ≤ o → o + Z.of_nat n ≤ 40 → load_be n h o = load_be n h' o).
  { intros n o Ho Hn. apply load_be_frame. intros p Hp. apply Hb. lia. }
  by rewrite !HF by lia.
Qed.

(** The route the header of a packet from [q] names. *)
Definition route (from : sender) (av : ib_ah_attr) (paylen : Z) : grh_fields :=
  GrhFields GRH_IPV6 GRH_RXE_NEXT_HDR paylen (u64 (snd_prefix from)) (u64 (snd_guid from))
    (u64 (ah_dgid_prefix av)) (u64 (ah_dgid_guid av)) (u8 (snd_prefix from / 2 ^ 56)).

(** A request packet of a reliable connection before its payload is filled in. *)
Record request_head (q : rxe_qp) (w : rxe_send_wqe) (op : Z) (from : sender) (payload : Z) (pkt : rxe_pkt_info)
    : Prop := {
  rh_shape : ∃ x, link_mask x ∧ shaped op x pkt;
  rh_offset : pkt_offset pkt = RXE_GRH_BYTES;
  rh_psn : pkt_psn pkt = req_psn (qp_req q);
  rh_paylen : pkt_paylen pkt = opcode_length op + payload + pad_bytes payload + RXE_ICRC_SIZE;
  rh_length : Z.of_nat (length (pkt_hdr pkt)) = RXE_GRH_BYTES + pkt_paylen pkt;
  rh_bth : ∃ se ack, bth_view (pkt_hdr pkt) (pkt_offset pkt) =
    BthFields op se 0 (pad_bytes payload) 0 (u16 (snd_pkey from)) (qa_dest_qp_num (qp_attr q) mod 2 ^ 24) 0 0 0
      ack (req_psn (qp_req q) mod 2 ^ 24) ∧
    (flag_set (opcode_mask op) RXE_END_MASK = true → ack = 1);
  rh_reth : flag_set (opcode_mask op) RXE_RETH_MASK = true →
    reth_va pkt = u64 (wqe_iova w) ∧ reth_rkey pkt = u32 (wr_rkey (wqe_ibwr w)) ∧
    reth_len pkt = u32 (dma_length (wqe_dma w));
  rh_immdt : flag_set (opcode_mask op) RXE_IMMDT_MASK = true →
    immdt_imm pkt = u32 (wr_imm_data (wqe_ibwr w));
  rh_grh : grh_view (pkt_hdr pkt) = route from (av_attr (qp_pri_av q)) (pkt_paylen pkt)
}.

Lemma pad_range n : 0 ≤ pad_bytes n < 4.
Proof.
  unfold pad_bytes. change 0x3 with (2 ^ 2 - 1). rewrite land_mask by lia. apply Z.mod_pos_bound. lia.
Qed.

Lemma init_grh_shape pkt av prefix guid paylen :
  pkt_offset pkt = 0 →
  let pkt' := init_grh pkt av prefix guid paylen in
  pkt' = pkt <| pkt_offset := RXE_GRH_BYTES |> <| pkt_hdr := pkt_hdr pkt' |> ∧
  length (pkt_hdr pkt') = length (pkt_hdr pkt).
Proof.
  intros Ho pkt'. unfold pkt', init_grh, grh_set_dgid, grh_set_sgid, grh_init.
  split; [destruct pkt; cbn in *; subst; done|]. cbn.
  unfold __grh_set_dgid, __grh_set_sgid, __grh_set_hop_limit, __grh_set_next_hdr, __grh_set_paylen,
    __grh_set_vflow, store_be64, store_u8, store_be16, store_be32. by rewrite !length_store_be.
Qed.

Lemma init_grh_view pkt from av paylen :
  pkt_offset pkt = 0 → RXE_GRH_BYTES ≤ Z.of_nat (length (pkt_hdr pkt)) →
  grh_view (pkt_hdr (init_grh pkt av (snd_prefix from) (snd_guid from) paylen)) = route from (av_attr av) (u16 paylen).
Proof.
  intros Ho Hl. unfold init_grh, grh_set_dgid, grh_set_sgid, grh_init, grh_offset, RXE_GRH_BYTES in *.
  cbn [pkt_hdr pkt_offset upd_field]. rewrite Ho. cbn [Z.add Z.sub Z.mul].
  unfold __grh_set_dgid, __grh_set_sgid, grh_view, __grh_ipver, __grh_next_hdr, __grh_paylen,
    store_be64, store_u8, store_be16, store_be32, load_be64, load_u8, load_be16, load_be32.
  unfold route. f_equal; mem_simpl; try done. by rewrite load_store_top by (rewrite ?length_store_be; lia).
Qed.

Lemma bth_init_shape pkt opcode se mig pad pkey qpn ack psn :
  let pkt' := bth_init pkt opcode se mig pad pkey qpn ack psn in
  pkt' = pkt <| pkt_hdr := pkt_hdr pkt' |> ∧ length (pkt_hdr pkt') = length (pkt_hdr pkt) ∧
  ∀ p, 0 ≤ p < pkt_offset pkt → byte_at (pkt_hdr pkt') p = byte_at (pkt_hdr pkt) p.
Proof.
  split; [done|]. cbn. unfold store_be32, store_be16, store_u8.
  destruct (se =? 0), (mig =? 0); cbn; (split; [by rewrite !length_store_be|]);
    intros p Hp; by rewrite !byte_at_store by lia.
Qed.

Lemma request_head_built q w op from payload x pkt se ack :
  op ∈ rc_message_opcodes → link_mask x → shaped op x pkt → pkt_offset pkt = RXE_GRH_BYTES →
  pkt_psn pkt = req_psn (qp_req q) →
  pkt_paylen pkt = opcode_length op + payload + pad_bytes payload + RXE_ICRC_SIZE →
  Z.of_nat (length (pkt_hdr pkt)) = RXE_GRH_BYTES + pkt_paylen pkt →
  grh_view (pkt_hdr pkt) = route from (av_attr (qp_pri_av q)) (pkt_paylen pkt) →
  (flag_set (opcode_mask op) RXE_END_MASK = true → ack = true) →
  request_head q w op from payload
    (init_ext (bth_init pkt op (Zbool se) 0 (pad_bytes payload) (snd_pkey from) (qa_dest_qp_num (qp_attr q))
                 (Zbool ack) (pkt_psn pkt)) q w op).
Proof.
  intros Hop Hx Hs Ho Hpsn Hpl Hlen Hg Hack.
  pose proof (message_opcode_spec op Hop) as Hf. pose proof (pad_range payload).
  set (p1 := bth_init _ _ _ _ _ _ _ _ _).
  destruct (bth_init_shape pkt op (Zbool se) 0 (pad_bytes payload) (snd_pkey from)
    (qa_dest_qp_num (qp_attr q)) (Zbool ack) (pkt_psn pkt)) as (E1 & L1 & B1). fold p1 in E1, L1, B1.
  assert (Hb : bth_view (pkt_hdr p1) (pkt_offset pkt) =
    BthFields op (Zbool se) 0 (pad_bytes payload) 0 (u16 (snd_pkey from)) (qa_dest_qp_num (qp_attr q) mod 2 ^ 24) 0 0 0
      (Zbool ack) (req_psn (qp_req q) mod 2 ^ 24)).
  { unfold p1. rewrite (bth_init_decode (pkt_hdr pkt) (pkt_offset pkt)); try done.
    - unfold u8. rewrite (Z.mod_small op), (Z.mod_small (pad_bytes payload)), Hpsn
        by (destruct Hf; lia). by destruct se, ack.
    - apply (sh_offset _ _ _ Hs).
    - pose proof (sh_room _ _ _ Hs). destruct Hf. lia. }
  clearbody p1.
  assert (Hs1 : shaped op x p1).
  { destruct Hs. rewrite E1. split; cbn; [done..|]. by rewrite L1. }
  destruct (init_ext_spec op x Hop Hx p1 q w Hs1) as (Ha & Hr & Hi). set (p2 := init_ext p1 q w op) in *.
  pose proof (shaped_above _ _ _ _ _ Hs1 Ha) as Hs2. pose proof (above_meta _ _ _ Ha) as E2.
  assert (Ho1 : pkt_offset p1 = RXE_GRH_BYTES) by (by rewrite E1).
  split; [by exists x|by rewrite E2, E1|by rewrite E2, E1|by rewrite E2, E1| | |done|done|].
  - rewrite (above_length _ _ _ Ha), L1, Hlen. by rewrite E2, E1.
  - exists (Zbool se), (Zbool ack). split; [|by intros E; rewrite (Hack E)].
    replace (pkt_offset p2) with (pkt_offset p1) by by rewrite E2.
    rewrite (bth_view_frame _ (pkt_hdr p1)).
    + by rewrite Ho1, <- Ho.
    + unfold RXE_BTH_BYTES, RXE_GRH_BYTES in *. intros p Hp. apply (above_byte _ _ _ Ha). lia.
  - replace (pkt_paylen p2) with (pkt_paylen pkt) by by rewrite E2, E1. rewrite <- Hg, (grh_view_frame _ (pkt_hdr p1)).
    + apply grh_view_frame. unfold RXE_GRH_BYTES. intros p Hp. apply B1. rewrite Ho. exact Hp.
    + unfold RXE_GRH_BYTES in *. intros p Hp. apply (above_byte _ _ _ Ha). lia.
Qed.

(** Writing the payload and what follows it leaves the headers alone. *)
Lemma head_above q w op from payload pkt pkt' :
  op ∈ rc_message_opcodes → request_head q w op from payload pkt → above (payload_addr pkt) pkt pkt' →
  request_head q w op from payload pkt'.
Proof.
  intros Hop [(x & Hx & Hs) Ho Hpsn Hpl Hlen (se & ack & Hb & Hack) Hr Hi Hg] Ha.
  pose proof (message_opcode_spec op Hop) as []. pose proof Ha as [E L B].
  assert (Hpa : payload_addr pkt = RXE_GRH_BYTES + opcode_length op).
  { unfold payload_addr, ext_offset. by rewrite (sh_opcode _ _ _ Hs), mo_payload0, Ho. }
  rewrite Hpa in B. unfold RXE_GRH_BYTES in *. pose proof (sh_opcode _ _ _ Hs) as Hs1.
  assert (Hs1' : pkt_opcode pkt' = op) by (by rewrite E).
  split; [exists x; split; [done|by eapply shaped_above]|by rewrite E..| | | | |].
  - rewrite L, Hlen. by rewrite E.
  - exists se, ack. split; [|done]. rewrite <- Hb. replace (pkt_offset pkt') with 40 by by rewrite E.
    rewrite Ho. apply bth_view_frame. unfold RXE_BTH_BYTES. intros p Hp. apply B. lia.
  - intros Hf. destruct (mo_reth0 Hf) as [Hro Hrl]. destruct (Hr Hf) as (<- & <- & <-).
    unfold reth_va, reth_rkey, reth_len, __reth_va, __reth_rkey, __reth_len, load_be64, load_be32, ext_offset.
    rewrite Hs1, Hs1', Hro, Ho. replace (pkt_offset pkt') with 40 by by rewrite E.
    repeat split; apply load_be_frame; intros p Hp; apply B; lia.
  - intros Hf. destruct (mo_immdt0 Hf) as [Hio Hil]. rewrite <- (Hi Hf).
    unfold immdt_imm, __immdt_imm, load_be32, ext_offset. rewrite Hs1, Hs1', Hio, Ho.
    replace (pkt_offset pkt') with 40 by by rewrite E. apply load_be_frame. intros p Hp. apply B. lia.
  - replace (pkt_paylen pkt') with (pkt_paylen pkt) by by rewrite E. rewrite <- Hg. apply grh_view_frame.
    unfold RXE_GRH_BYTES. intros p Hp. apply B. lia.
Qed.

(** A complete request packet that carries [data]. *)
Record request_packet (q : rxe_qp) (w : rxe_send_wqe) (op : Z) (from : sender) (data : list Z)
    (pkt : rxe_pkt_info) : Prop := {
  rp_head : request_head q w op from (Z.of_nat (length data)) pkt;
  rp_payload : pkt_bytes pkt (payload_addr pkt) (Z.of_nat (length data)) = data
}.

(** The receiver computes the size of the payload. *)
Lemma head_payload_size q w op from payload pkt :
  op ∈ rc_message_opcodes → request_head q w op from payload pkt → 0 ≤ payload < 2 ^ 32 →
  payload_size pkt = payload ∧ payload_addr pkt = RXE_GRH_BYTES + opcode_length op.
Proof.
  intros Hop [(x & Hx & Hs) Ho Hpsn Hpl Hlen (se & ack & Hb & Hack) Hr Hi _] Hp.
  pose proof (message_opcode_spec op Hop) as []. unfold payload_size, payload_addr, ext_offset.
  rewrite (sh_opcode _ _ _ Hs), mo_payload0, Hpl, Ho. split; [|done].
  apply (f_equal f_pad) in Hb. cbn in Hb. unfold bth_pad. rewrite Hb. unfold ulong, BITS_PER_LONG.
  rewrite Z.mod_small; lia.
Qed.

(** How a packet goes over the network. *)
Record framed (from : sender) (av : ib_ah_attr) (op payload : Z) (pkt : rxe_pkt_info) : Prop := {
  fr_opcode : pkt_opcode pkt = op;
  fr_offset : pkt_offset pkt = RXE_GRH_BYTES;
  fr_paylen : pkt_paylen pkt = opcode_length op + payload + pad_bytes payload + RXE_ICRC_SIZE;
  fr_length : Z.of_nat (length (pkt_hdr pkt)) = RXE_GRH_BYTES + pkt_paylen pkt;
  fr_tver : bth_tver pkt = BTH_TVER;
  fr_pad : bth_pad pkt = pad_bytes payload;
  fr_grh : grh_view (pkt_hdr pkt) = route from av (pkt_paylen pkt)
}.

Lemma head_framed q w op from payload pkt :
  request_head q w op from payload pkt → framed from (av_attr (qp_pri_av q)) op payload pkt.
Proof.
  intros [(x & _ & Hs) Ho _ Hpl Hlen (se & ack & Hb & _) _ _ Hg].
  split; [apply (sh_opcode _ _ _ Hs)|exact Ho|exact Hpl|exact Hlen|exact (f_equal f_tver Hb)|exact (f_equal f_pad Hb)|exact Hg].
Qed.

(** *** The data of a work queue element

    [data] is what is still to be sent: the rest of the inline data, or the
    memory the scatter/gather list describes. *)
Definition source (d : mem_dev) (pd : Z) (w : rxe_send_wqe) (data : list Z) : Prop :=
  let dma := wqe_dma w in
  dma_resid dma = Z.of_nat (length data) ∧ dma_resid dma < 2 ^ 31 ∧
  if flag_set (wr_send_flags (wqe_ibwr w)) IB_SEND_INLINE then
    0 ≤ dma_sge_offset dma ∧ dma_sge_offset dma + dma_resid dma < 2 ^ 32 ∧
    take (length data) (drop (Z.to_nat (dma_sge_offset dma)) (dma_inline_data dma)) = data
  else
    refs_pos d ∧ ∃ addrs, stream d pd 0 dma (dma_sge_offset dma) addrs ∧
      mread (dev_phys d) <$> take (length data) addrs = data.

Section send.
Context `{Params}.

(** The state after [init_req_packet]. *)
Definition packet_out (noack : Z) (s : eng_state) : eng_state :=
  s <| es_qp ::= λ q, q <| qp_req_skb_out ::= (λ n, n + 1) |>
                        <| qp_req ::= λ r, r <| req_noack_pkts := noack |> |> |>
    <| es_dev ::= λ d, d <| rdev_req_skb_out ::= (λ n, n + 1) |> |>.

Lemma wp_init_req_packet F s a w op from payload Q :
  slot s a w → qp_type (es_qp s) = IB_QPT_RC → op ∈ rc_message_opcodes → es_alloc s = [] →
  addressable (es_dev s) (es_qp s) from → 0 ≤ payload ≤ 2 ^ 13 →
  (∀ pkt noack, request_head (es_qp s) w op from payload pkt → Q (Some pkt) (packet_out noack s)) →
  wp F (init_req_packet a op payload) Q s.
Proof.
  intros Hw Hrc Hop Hal [(p0 & g0 & Hp0 & Hg0) (port & guid & Hport & Hguid & Hpkey & Hpre & ->)] Hpay HQ.
  pose proof (message_opcode_spec op Hop) as Hf. pose proof (pad_range payload) as Hpad.
  unfold init_req_packet. wp_run. eapply wp_sq_wqe; [done|]. wp_run. rewrite Hrc. cbn [Z.eqb orb].
  unfold init_packet, next_alloc. wp_run. unfold wp at 1. rewrite Hal. wp_run. rewrite Hp0. wp_run.
  rewrite Hg0. wp_run. cbv beta match. wp_run. rewrite Hport. wp_run.
  change (IB_QPT_RC =? IB_QPT_RC) with true. change (IB_QPT_RC =? IB_QPT_GSI) with false. cbn [orb].
  set (paylen := opcode_length op + payload + pad_bytes payload + RXE_ICRC_SIZE).
  assert (Hpl : 0 ≤ paylen ∧ opcode_length op ≤ paylen) by (unfold paylen, RXE_ICRC_SIZE; destruct Hf; lia).
  set (x := if g0 =? ah_dgid_guid (av_attr (qp_pri_av (es_qp s))) then _ else _).
  assert (Hx : link_mask x) by (unfold x, link_mask; case_match; tauto).
  set (pk := PktInfo (map skb_junk (seqZ 0 (RXE_GRH_BYTES + paylen))) x 0 0 0 1 0 0
    <| pkt_opcode := op |> <| pkt_psn := req_psn (qp_req (es_qp s)) |>
    <| pkt_mask ::= (λ m, m .| opcode_mask op) |> <| pkt_paylen := u16 paylen |> <| pkt_offset := 0 |>).
  assert (Hu : u16 paylen = paylen).
  { unfold u16. rewrite Z.mod_small; [done|]. unfold paylen, RXE_ICRC_SIZE. destruct Hf. lia. }
  assert (Hlen : Z.of_nat (length (pkt_hdr pk)) = RXE_GRH_BYTES + paylen).
  { cbn. rewrite length_map, length_seqZ. unfold RXE_GRH_BYTES. lia. }
  assert (Hs : shaped op x pk) by (split; [done..|rewrite Hlen; unfold RXE_GRH_BYTES; cbn; lia]).
  rewrite (if_hdr_false op x Hx pk) by (done || apply Hf).
  assert (Hgrh : flag_set (pkt_mask pk) RXE_GRH_MASK = true).
  { cbn. rewrite flag_set_lor. by destruct Hx as [-> | ->]. }
  rewrite Hgrh. wp_run. rewrite Hguid. wp_run. rewrite Hpkey. wp_run.
  destruct (init_grh_shape pk (qp_pri_av (es_qp s)) (port_subnet_prefix port) (snd_guid from) paylen) as [E L]; [done|].
  pose proof (init_grh_view pk from (qp_pri_av (es_qp s)) paylen) as Hg. rewrite <- Hpre, Hu in Hg.
  set (pg := init_grh _ _ _ _ _) in *. clearbody pg.
  assert (Hsg : shaped op x pg).
  { rewrite E. split; cbn; [done|done|done|]. rewrite L, Hlen. unfold RXE_GRH_BYTES. lia. }
  rewrite (sh_mask _ _ _ Hsg), !link_mask_flag, (mo_deth _ Hf) by done.
  assert (Hpg : pkt_paylen pg = paylen) by (rewrite E; exact Hu).
  eapply HQ. apply request_head_built with x; try done; try (by rewrite E).
  - by rewrite L, Hlen, Hpg.
  - rewrite Hg; [by rewrite Hpg|done|]. rewrite Hlen. unfold RXE_GRH_BYTES. lia.
  - by intros ->.
Qed.

(** The element with its transfer position moved. *)
Definition moved (w w' : rxe_send_wqe) : Prop :=
  w' = w <| wqe_dma := wqe_dma w' |> ∧ dma_length (wqe_dma w') = dma_length (wqe_dma w).

Lemma wp_fill_payload F s a w pkt payload crc data Q :
  slot s a w → source (rdev_mem (es_dev s)) (qp_pd (es_qp s)) w data →
  0 ≤ payload ≤ Z.of_nat (length data) → 0 ≤ payload_addr pkt →
  payload_addr pkt + payload ≤ Z.of_nat (length (pkt_hdr pkt)) →
  (∀ w' crc' s', moved w w' →
     source (rdev_mem (es_dev s)) (qp_pd (es_qp s)) w' (drop (Z.to_nat payload) data) →
     s' = s <| es_qp ::= λ q, q <| qp_sq ::= λ sq, store_at sq a w' |> |> → slot s' a w' →
     Q (Ok (pkt <| pkt_hdr ::= λ h, put_bytes h (payload_addr pkt) (take (Z.to_nat payload) data) |>, crc')) s') →
  wp F (fill_payload a pkt payload crc) Q s.
Proof.
  intros Hw (Hres & Hsmall & Hsrc) Hp Hpa Hroom HQ. unfold fill_payload. wp_run. eapply wp_sq_wqe; [done|].
  destruct (flag_set (wr_send_flags (wqe_ibwr w)) IB_SEND_INLINE) eqn:Hin.
  - destruct Hsrc as (Ho & Hol & Hd). wp_run. eapply wp_upd_wqe; [done|]. intros s' -> Hw'. wp_run.
    assert (Ht : take (Z.to_nat payload) (drop (Z.to_nat (dma_sge_offset (wqe_dma w))) (dma_inline_data (wqe_dma w)))
      = take (Z.to_nat payload) data).
    { rewrite <- Hd, take_take. f_equal. lia. }
    rewrite Ht. eapply HQ; [|..|done|done]; [done|].
    split; [cbn; rewrite u32_small, length_drop by lia; lia|]. split; [cbn; rewrite u32_small; lia|].
    cbn. rewrite Hin. rewrite !u32_small by lia. split; [lia|]. split; [lia|].
    rewrite <- Hd at 2. rewrite length_drop, Z2Nat.inj_add, <- drop_drop by lia.
    rewrite take_drop_commute. do 2 f_equal. lia.
  - destruct Hsrc as (Hpos & addrs & Hst & Hd).
    assert (Hla : (length data ≤ length addrs)%nat).
    { apply (f_equal length) in Hd. rewrite length_fmap, length_take in Hd. lia. }
    unfold eng_copy_data. wp_run.
    set (crc0 := if rxe_crc_disable then None else Some crc).
    destruct (copy_data_copied (rdev_mem (es_dev s)) (qp_pd (es_qp s)) 0 (wqe_dma w) addrs
      (pkt_bytes pkt (payload_addr pkt) payload) payload direction_out crc0)
      as (o & -> & Ho & [ph Hh] & Hc & Hs & c & f & Hdm); [done|done|lia|lia|
        unfold pkt_bytes; rewrite length_take, length_drop; lia|].
    wp_run. eapply wp_upd_wqe; [exact Hw|]. intros s' -> Hw'. wp_run. rewrite Ho.
    unfold copy_spec in Hc. injection Hc as Hph Hca _.
    assert (Hdev : co_dev o = rdev_mem (es_dev s)).
    { rewrite Hh in Hph |- *. cbn in Hph. subst ph. by destruct (rdev_mem (es_dev s)). }
    assert (Ht : co_addr o = take (Z.to_nat payload) data).
    { rewrite Hca, drop_ge by (unfold pkt_bytes; rewrite length_take; lia).
      rewrite app_nil_r, <- Hd, <- fmap_take, take_take. do 2 f_equal. lia. }
    rewrite Ht. eapply HQ; [..|exact Hw'].
    + split; [done|]. cbn. by rewrite Hdm.
    + split; [cbn; rewrite Hdm, length_drop; cbn; lia|]. split; [cbn; rewrite Hdm; cbn; lia|].
      cbn [wqe_ibwr wqe_dma upd_field]. rewrite Hin. split; [done|].
      exists (drop (Z.to_nat payload) addrs). split; [done|].
      rewrite <- Hd at 2. rewrite length_drop, <- fmap_drop, take_drop_commute. do 3 f_equal. lia.
    + rewrite Hdev. by destruct s as [[] ? ? ? ? ?].
Qed.

Lemma wp_fill_packet F s a w q0 op pkey pkt payload data Q :
  slot s a w → source (rdev_mem (es_dev s)) (qp_pd (es_qp s)) w data → op ∈ rc_message_opcodes →
  request_head q0 w op pkey payload pkt → 0 ≤ payload ≤ Z.of_nat (length data) →
  (∀ w' pkt' s', moved w w' →
     source (rdev_mem (es_dev s)) (qp_pd (es_qp s)) w' (drop (Z.to_nat payload) data) →
     s' = s <| es_qp ::= λ q, q <| qp_sq ::= λ sq, store_at sq a w' |> |> → slot s' a w' →
     request_packet q0 w op pkey (take (Z.to_nat payload) data) pkt' → Q (Ok pkt') s') →
  wp F (fill_packet a pkt payload) Q s.
Proof.
  intros Hw Hsrc Hop Hh Hp HQ. pose proof (message_opcode_spec op Hop) as Hf.
  pose proof Hsrc as (Hres & Hsmall & _). pose proof (pad_range payload) as Hpad.
  destruct (head_payload_size _ _ _ _ _ _ Hop Hh) as [Hps Hpa]; [lia|].
  assert (Hroom : payload_addr pkt + payload + pad_bytes payload + 4 = Z.of_nat (length (pkt_hdr pkt))).
  { destruct Hh. rewrite rh_length0, rh_paylen0, Hpa. unfold RXE_ICRC_SIZE. lia. }
  unfold RXE_GRH_BYTES in Hpa. destruct (rh_shape _ _ _ _ _ _ Hh) as (x & Hx & Hs).
  unfold fill_packet. wp_run. rewrite (sh_mask _ _ _ Hs), link_mask_flag, (mo_data _ Hf) by done.
  eapply wp_fill_payload; [done..|destruct Hf; lia|lia|]. intros w' crc' s' Hm Hsrc' Es' Hw'. cbv beta match.
  wp_run. eapply HQ; [done..|].
  set (bs := take (Z.to_nat payload) data). assert (Hbs : Z.of_nat (length bs) = payload)
    by (unfold bs; rewrite length_take; lia).
  set (o := payload_addr pkt) in *. set (p1 := pkt <| pkt_hdr ::= λ h, put_bytes h o bs |>).
  assert (Ha1 : above o pkt p1) by (apply above_put; destruct Hf; lia).
  assert (Ho1 : payload_addr p1 = o) by done. rewrite Ho1.
  set (p2 := p1 <| pkt_hdr ::= λ h, put_bytes h (o + payload) _ |>).
  assert (Ha2 : above (o + payload) p1 p2) by (apply above_put; destruct Hf; lia).
  set (p3 := p2 <| pkt_hdr ::= λ h, store_u8 h _ _ |>).
  assert (Ha3 : above (o + payload) p2 p3) by (apply above_store; destruct Hf; lia).
  pose proof (above_trans _ _ _ _ Ha2 Ha3) as Ha.
  assert (Hfin : request_head q0 w op pkey payload p3).
  { eapply head_above; [done|exact Hh|]. fold o. eapply above_trans; [done|].
    eapply above_weaken; [|done]. lia. }
  rewrite <- Hbs in Hfin. split; [done|]. rewrite Hbs. unfold pkt_bytes. change (payload_addr p3) with o.
  rewrite (take_drop_frame _ (pkt_hdr p1)); [|destruct Hf; lia|by rewrite (above_length _ _ _ Ha)|].
  - replace (Z.to_nat payload) with (length bs) by lia. apply put_bytes_get; destruct Hf; lia.
  - intros p Hpr. apply (above_byte _ _ _ Ha). destruct Hf. lia.
Qed.
End send.
