(* ===== verification/Message.v ===== *)
(** * Messages as sequences of request packets (rxe_req.c)

    The requester sends one packet for each call. A send or an RDMA write on a
    reliable connection becomes the packets of one message: consecutive
    sequence numbers, the opcodes of the first, the middle and the last
    packet, and the data of the message cut at the path MTU. *)

From stdpp Require Import gmap.
From S2P Require Import Prelude Bits Queue Opcode Hdr Verbs Icrc Mr Sge Cq State Comp Arbiter Req ReqPacket.

(** The number of packets of a message. *)
Definition packets (length mtu : Z) : nat := Z.to_nat (Z.max 1 ((length + mtu - 1) / mtu)).

(** The part of the data in packet [i]. *)
Definition chunk (mtu : Z) (data : list Z) (i : nat) : list Z :=
  take (Z.to_nat mtu) (drop (i * Z.to_nat mtu) data).

Lemma drop_chunk mtu data i :
  drop (length (chunk mtu data i)) (drop (i * Z.to_nat mtu) data) = drop (S i * Z.to_nat mtu) data.
Proof.
  unfold chunk. rewrite length_take. destruct (Nat.le_ge_cases (Z.to_nat mtu) (length (drop (i * Z.to_nat mtu) data))).
  - rewrite Nat.min_l, drop_drop by done. f_equal. lia.
  - rewrite Nat.min_r, drop_all by done. rewrite length_drop in *. rewrite drop_ge; [done|lia].
Qed.

Section packets.
Context (length mtu : Z) (Hl : 0 ≤ length) (Hm : 0 < mtu).

Lemma packets_pos : (0 < packets length mtu)%nat.
Proof using Type. unfold packets. lia. Qed.

(** Packet [i] is the last one exactly when the rest fits. *)
Lemma packets_last (i : nat) :
  (i < packets length mtu)%nat →
  (length - Z.of_nat i * mtu <= mtu ↔ S i = packets length mtu) ∧ 0 ≤ length - Z.of_nat i * mtu.
Proof using Hl Hm.
  unfold packets. intros Hi. pose proof (Z.div_mod (length + mtu - 1) mtu).
  pose proof (Z.mod_pos_bound (length + mtu - 1) mtu). set (k := (length + mtu - 1) / mtu) in *.
  assert (0 ≤ k) by (apply Z.div_pos; lia). assert (k = 0 → length = 0) by nia.
  split; [|nia]. split; [intros; nia|]. intros Hn.
  destruct (Z.le_gt_cases k 1); [nia|]. replace (Z.of_nat i) with (k - 1) by lia. nia.
Qed.

(** [update_state] counts the packets left. *)
Lemma num_packets_all : length + mtu < 2 ^ 32 →
  (if num_packets length mtu =? 0 then 1 else num_packets length mtu) = Z.of_nat (packets length mtu).
Proof using Hl Hm.
  intros. unfold num_packets, packets. rewrite u32_small by lia.
  assert (0 ≤ (length + mtu - 1) / mtu) by (apply Z.div_pos; lia).
  destruct (Z.eqb_spec ((length + mtu - 1) / mtu) 0); lia.
Qed.
End packets.

Section opcodes.
Context (wr : Z) (ops : Z * Z * Z * Z) (Hops : rc_opcodes wr = Some ops) (n : nat) (Hn : (0 < n)%nat).

(** What the masks say of the opcode of packet [i]. *)
Lemma message_opcode_flags i :
  (i < n)%nat → let op := message_opcode ops i n in
  op ∈ rc_message_opcodes ∧ flag_set (opcode_mask op) RXE_START_MASK = (i =? 0)%nat ∧
  flag_set (opcode_mask op) RXE_END_MASK = (S i =? n)%nat ∧
  ((S i < n)%nat → one_of op [ops.1.1.1; ops.1.1.2] = true).
Proof using Hops Hn.
  intros Hi. unfold rc_opcodes in Hops. unfold message_opcode.
  destruct (Nat.eqb_spec i 0), (Nat.eqb_spec (S i) n), (Nat.eqb_spec n 1); try lia;
    repeat case_match; simplify_eq; (split; [apply list_elem_of_In; vm_compute; tauto|]);
    (split; [reflexivity|]); (split; [reflexivity|]); intros; first [exfalso; lia|reflexivity].
Qed.

(** The opcode the requester chooses is the one of the packet. *)
Lemma next_opcode_message i prev fits :
  (i < n)%nat → one_of prev [ops.1.1.1; ops.1.1.2] = negb (i =? 0)%nat → fits = (S i =? n)%nat →
  next_opcode_rc prev wr fits = message_opcode ops i n.
Proof using Hops Hn.
  intros Hi Hp ->. assert (E : next_opcode_rc prev wr (S i =? n)%nat
    = segment_opcode prev (S i =? n)%nat ops.1.1.1 ops.1.1.2 ops.1.2 ops.2).
  { unfold next_opcode_rc. unfold rc_opcodes in Hops. destruct (Z.eqb_spec wr IB_WR_SEND) as [->|].
    { by simplify_eq. }
    destruct (Z.eqb_spec wr IB_WR_SEND_WITH_IMM) as [->|]; [by simplify_eq|].
    destruct (Z.eqb_spec wr IB_WR_RDMA_WRITE) as [->|]; [by simplify_eq|].
    destruct (Z.eqb_spec wr IB_WR_RDMA_WRITE_WITH_IMM) as [->|]; [by simplify_eq|]. done. }
  rewrite E. unfold segment_opcode, message_opcode. rewrite Hp. destruct ops as [[[f m] l] o]. cbn [fst snd].
  destruct (Nat.eqb_spec i 0), (Nat.eqb_spec (S i) n), (Nat.eqb_spec n 1); cbn; (done || lia).
Qed.
End opcodes.

(** ** The steps of the requester for a ready queue pair *)

Section steps.
Context `{Params} (F : Prop).

Lemma wp_req_next_wqe s a w Q :
  req_state (qp_req (es_qp s)) = QP_STATE_READY →
  req_wqe_index (qp_req (es_qp s)) ≠ producer_index (qp_sq (es_qp s)) →
  addr_from_index (qp_sq (es_qp s)) (req_wqe_index (qp_req (es_qp s))) = a → slot s a w →
  flag_set (wr_send_flags (wqe_ibwr w)) IB_SEND_FENCE = false ∨
    req_wqe_index (qp_req (es_qp s)) = consumer_index (qp_sq (es_qp s)) →
  (∀ s' w', w' = w <| wqe_mask := wr_opcode_mask (wr_opcode (wqe_ibwr w)) (es_qp s) |> →
     s' = s <| es_qp ::= λ q, q <| qp_sq ::= λ sq, store_at sq a w' |> |> → slot s' a w' → Q (Some a) s') →
  wp F req_next_wqe Q s.
Proof.
  intros Hst Hix <- Hw Hfe HQ. unfold req_next_wqe, req_check_drained. wp_run. rewrite Hst.
  rewrite bool_decide_eq_false_2 by done. wp_run. rewrite (proj2 (Z.eqb_neq _ _) Hix).
  wp_run. eapply wp_sq_wqe; [done|]. rewrite Hst. rewrite !bool_decide_eq_false_2 by done. cbn [orb andb].
  replace (flag_set _ _ && negb _) with false
    by (destruct Hfe as [-> | ->]; [done|by rewrite Z.eqb_refl, andb_false_r]).
  wp_run. eapply wp_upd_wqe; [done|]. intros s' Es' Hw'. wp_run. by eapply HQ.
Qed.

(** The same ring up to its elements. *)
Definition same_ring (sq sq' : rxe_queue rxe_send_wqe) : Prop :=
  ∃ d, sq' = sq <| q_buf ::= λ b, b <| buf_data := d |> |>.

Lemma same_ring_refl sq : same_ring sq sq.
Proof. exists (buf_data (q_buf sq)). by destruct sq as [[]]. Qed.

(** The same ring up to the element at [a]. *)
Definition stored (a : Z) (sq sq' : rxe_queue rxe_send_wqe) : Prop := ∃ w, sq' = store_at sq a w.

Lemma stored_refl a sq w : elem_at sq a = Some w → stored a sq sq.
Proof.
  intros He. exists w. unfold store_at. unfold elem_at in He. destruct sq as [[] ? ? ? ?]. unfold upd_field. cbn in *.
  by rewrite list_insert_id.
Qed.

Lemma stored_again a sq sq' w : stored a sq sq' → stored a sq (store_at sq' a w).
Proof.
  intros [w1 ->]. exists w. unfold store_at. destruct sq as [[] ? ? ? ?]. unfold upd_field. cbn. by rewrite list_insert_insert_eq.
Qed.

Lemma stored_trans a sq1 sq2 sq3 : stored a sq1 sq2 → stored a sq2 sq3 → stored a sq1 sq3.
Proof. intros H12 [w ->]. by apply stored_again. Qed.

Lemma stored_ring a sq sq' : stored a sq sq' → same_ring sq sq'.
Proof. intros [w ->]. by eexists. Qed.

Lemma same_ring_store sq sq' a w : same_ring sq sq' → same_ring sq (store_at sq' a w).
Proof. intros [d ->]. by eexists. Qed.

(** The element and the requester after a packet of a message. *)
Definition numbered (first : bool) (last : bool) (p num : Z) (w : rxe_send_wqe) : rxe_send_wqe :=
  let w := if first then w <| wqe_first_psn := p |> <| wqe_last_psn := u32 (p + num - 1) .& BTH_PSN_MASK |>
           else w in
  w <| wqe_st := if last then wqe_state_pending else wqe_state_processing |>.

(** The parts of the state that do not change while a packet is built. *)
Definition stable (s : eng_state) :=
  let q := es_qp s in
  (es_alloc s, rdev_mem (es_dev s), rdev_ports (es_dev s), qp_valid q, qp_qp_type q, qp_attr q,
   qp_mtu_bytes q, qp_pd q, qp_pri_av q, qp_comp q,
   es_send s, rdev_cqs (es_dev s), qp_scq q, qp_sq_sig_type q, qp_qp_num q, qp_resp_pkts q, qp_resp q).

Record updated (s : eng_state) (a : Z) (w : rxe_send_wqe) (pkt : rxe_pkt_info) (num : Z) (s' : eng_state)
    : Prop := {
  up_stable : stable s' = stable s;
  up_send : qp_send_pkts (es_qp s') = qp_send_pkts (es_qp s);
  up_listed : listed s → listed s';
  up_skb : qp_req_skb_out (es_qp s') = qp_req_skb_out (es_qp s);
  up_ring : stored a (qp_sq (es_qp s)) (qp_sq (es_qp s'));
  up_req : qp_req (es_qp s') = qp_req (es_qp s)
    <| req_psn := u32 (req_psn (qp_req (es_qp s)) + 1) .& BTH_PSN_MASK |>
    <| req_opcode := pkt_opcode pkt |>
    <| req_wqe_index ::= λ i, if flag_set (pkt_mask pkt) RXE_END_MASK
                              then next_index (qp_sq (es_qp s)) i else i |>;
  up_slot : slot s' a (numbered (flag_set (pkt_mask pkt) RXE_START_MASK)
    (flag_set (pkt_mask pkt) RXE_END_MASK) (req_psn (qp_req (es_qp s))) num w)
}.

Lemma wp_update_state s a w pkt payload Q :
  slot s a w → qp_qp_type (es_qp s) = IB_QPT_RC → flag_set (pkt_mask pkt) RXE_READ_MASK = false →
  (∀ s', let num := num_packets (dma_resid (wqe_dma w) + payload) (qp_mtu_bytes (es_qp s)) in
     updated s a w pkt (if num =? 0 then 1 else num) s' → Q tt s') →
  wp F (update_state a pkt payload) Q s.
Proof.
  intros Hw Hty Hrd HQ. unfold update_state. wp_run. eapply wp_sq_wqe; [done|]. wp_run.
  set (num := num_packets _ _) in *. rewrite Hrd. unfold qp_type. rewrite Hty.
  change (IB_QPT_RC =? IB_QPT_RC) with true. cbv zeta in HQ.
  set (num' := if num =? 0 then 1 else num) in *.
  eapply (wp_mono _ _ (λ _ s1, ∃ w1,
    stable s1 = stable s ∧ qp_send_pkts (es_qp s1) = qp_send_pkts (es_qp s) ∧ (listed s → listed s1) ∧
    qp_req_skb_out (es_qp s1) = qp_req_skb_out (es_qp s) ∧ qp_req (es_qp s1) = qp_req (es_qp s) ∧
    stored a (qp_sq (es_qp s)) (qp_sq (es_qp s1)) ∧ slot s1 a w1 ∧
    w1 = if flag_set (pkt_mask pkt) RXE_START_MASK
         then w <| wqe_first_psn := req_psn (qp_req (es_qp s)) |>
                <| wqe_last_psn := u32 (req_psn (qp_req (es_qp s)) + num' - 1) .& BTH_PSN_MASK |> else w)).
  { destruct (flag_set (pkt_mask pkt) RXE_START_MASK); wp_run.
    - eapply wp_upd_wqe; [done|]. intros s1 -> Hw1. eexists. do 5 (split; [done|]).
      split; [by eexists|]. by split; [exact Hw1|].
    - exists w. do 5 (split; [done|]). split; [by eapply stored_refl|done]. }
  intros _ s1 (w1 & Hs1 & Hp1 & Hli & Hk1 & Hr1 & Hg1 & Hw1 & Ew1). wp_run. eapply wp_sq_wqe; [exact Hw1|]. wp_run.
  destruct (flag_set (pkt_mask pkt) RXE_END_MASK) eqn:Hend.
  all: wp_run; (eapply wp_upd_wqe; [exact Hw1|]; intros s2 -> Hw2); wp_run; apply wp_when; intros _; wp_run.
  all: apply HQ; split; [exact Hs1|exact Hp1|exact Hli|exact Hk1|apply stored_again, Hg1| |].
  all: unfold numbered; rewrite ?Hend; first [rewrite <- Hr1; reflexivity|rewrite <- Ew1; exact Hw2].
Qed.

(** Queuing the packet for the arbiter. *)
Record queued (s : eng_state) (pkt : rxe_pkt_info) (s' : eng_state) : Prop := {
  qd_stable : stable s' = stable s;
  qd_send : qp_send_pkts (es_qp s') = qp_send_pkts (es_qp s) ++ [pkt];
  qd_skb : qp_req_skb_out (es_qp s') = qp_req_skb_out (es_qp s);
  qd_sq : qp_sq (es_qp s') = qp_sq (es_qp s);
  qd_req : qp_req (es_qp s') = qp_req (es_qp s);
  qd_listed : listed s → listed s'
}.

Lemma wp_send_packet s pkt Q :
  rxe_bypass_arbiter = false → (∀ s', queued s pkt s' → Q tt s') → wp F (send_packet pkt) Q s.
Proof.
  intros Hb HQ. unfold send_packet. rewrite Hb. apply wp_skb_queue. intros l on ev s' -> Hl. by apply HQ.
Qed.
End steps.

Section message.
Context `{Params} (Hbypass : rxe_bypass_arbiter = false).
Context (q0 : rxe_qp) (wr : ib_send_wr) (ops : Z * Z * Z * Z) (iova : Z) (from : sender) (psn0 idx a : Z)
  (data : list Z).

Local Abbreviation mtu := (qp_mtu_bytes q0).
Local Abbreviation total := (Z.of_nat (length data)).
Local Abbreviation n := (packets total mtu).
Local Abbreviation psn i := ((psn0 + Z.of_nat i) mod 2 ^ 24).

(** Packet [i] of the message, as the receiver reads it. *)
Definition carries (i : nat) (pkt : rxe_pkt_info) : Prop :=
  let op := message_opcode ops i n in
  bth_opcode pkt = op ∧ bth_psn pkt = psn i ∧ bth_qpn pkt = qa_dest_qp_num (qp_attr q0) mod 2 ^ 24 ∧
  bth_pkey pkt = u16 (snd_pkey from) ∧ (S i = n → bth_ack pkt = 1) ∧
  (flag_set (opcode_mask op) RXE_RETH_MASK = true →
     reth_va pkt = u64 iova ∧ reth_rkey pkt = u32 (wr_rkey wr) ∧ reth_len pkt = total) ∧
  (flag_set (opcode_mask op) RXE_IMMDT_MASK = true → immdt_imm pkt = u32 (wr_imm_data wr)) ∧
  payload_size pkt = Z.of_nat (length (chunk mtu data i)) ∧
  pkt_bytes pkt (payload_addr pkt) (payload_size pkt) = chunk mtu data i ∧
  framed from (av_attr (qp_pri_av q0)) op (Z.of_nat (length (chunk mtu data i))) pkt.

(** The queue pair is ready to send from the element at [idx], which [a] is
    the address of; the network, the window and the limit on packets leave
    room for the packets from [i] on. *)
Record sendable (i : nat) (s : eng_state) : Prop := {
  sd_valid : qp_valid (es_qp s) = true;
  sd_ready : req_state (qp_req (es_qp s)) = QP_STATE_READY;
  sd_retry : req_need_retry (qp_req (es_qp s)) = false;
  sd_same : qp_qp_type (es_qp s) = IB_QPT_RC ∧ qp_attr (es_qp s) = qp_attr q0 ∧ qp_mtu_bytes (es_qp s) = mtu ∧
    qp_pri_av (es_qp s) = qp_pri_av q0;
  sd_index : req_wqe_index (qp_req (es_qp s)) = idx;
  sd_posted : idx ≠ producer_index (qp_sq (es_qp s));
  sd_addr : addr_from_index (qp_sq (es_qp s)) idx = a;
  sd_fence : flag_set (wr_send_flags wr) IB_SEND_FENCE = false ∨ idx = consumer_index (qp_sq (es_qp s));
  sd_alloc : es_alloc s = [];
  sd_tables : addressable (es_dev s) (es_qp s) from;
  sd_window j : (i ≤ j < n)%nat →
    psn_compare (psn j) (u32 (comp_psn (qp_comp (es_qp s)) + rxe_max_req_comp_gap)) ≤ 0;
  sd_room : qp_req_skb_out (es_qp s) + Z.of_nat (n - S i) ≤ rxe_max_skb_per_qp
}.

(** The first [i] packets of the message are sent. *)
Record midway (i : nat) (s : eng_state) : Prop := {
  mw_sendable : sendable i s;
  mw_psn : req_psn (qp_req (es_qp s)) = psn i;
  mw_opcode : one_of (req_opcode (qp_req (es_qp s))) [ops.1.1.1; ops.1.1.2] = negb (i =? 0)%nat;
  mw_wqe : ∃ w, slot s a w ∧ wqe_ibwr w = wr ∧ dma_length (wqe_dma w) = total ∧ wqe_iova w = iova ∧
    source (rdev_mem (es_dev s)) (qp_pd (es_qp s)) w (drop (i * Z.to_nat mtu) data) ∧
    (i ≠ 0%nat → wqe_first_psn w = psn0 ∧ wqe_last_psn w = psn (n - 1))
}.

(** All packets are sent. *)
Record finished (s : eng_state) : Prop := {
  fi_psn : req_psn (qp_req (es_qp s)) = psn n;
  fi_index : req_wqe_index (qp_req (es_qp s)) = next_index (qp_sq (es_qp s)) idx;
  fi_wqe : ∃ w, slot s a w ∧ wqe_ibwr w = wr ∧ wqe_st w = wqe_state_pending ∧
    wqe_first_psn w = psn0 ∧ wqe_last_psn w = psn (n - 1) ∧ dma_resid (wqe_dma w) = 0
}.

Context (Hops : rc_opcodes (wr_opcode wr) = Some ops) (Hmtu : 0 < mtu ≤ 2 ^ 13) (Htotal : total < 2 ^ 31).
Context (Hpsn0 : 0 ≤ psn0 < 2 ^ 24).

Lemma request_packet_carries i q w pkt :
  (i < n)%nat → qp_attr q = qp_attr q0 → qp_pri_av q = qp_pri_av q0 → req_psn (qp_req q) = psn i → wqe_ibwr w = wr → wqe_iova w = iova →
  dma_length (wqe_dma w) = total →
  request_packet q w (message_opcode ops i n) from (chunk mtu data i) pkt → carries i pkt.
Proof using Hops Hmtu Htotal.
  intros Hi Ha Hav Hp Hwr Hio Hdl [Hh Hpl].
  destruct (message_opcode_flags _ _ Hops n (packets_pos _ _) i Hi) as (Hop & _ & Hend & _).
  assert (Hlc : Z.of_nat (length (chunk mtu data i)) ≤ total).
  { unfold chunk. rewrite length_take, length_drop. lia. }
  destruct (head_payload_size _ _ _ _ _ _ Hop Hh) as [Hps _]; [lia|].
  pose proof (head_framed _ _ _ _ _ _ Hh) as Hfr. rewrite Hav in Hfr.
  destruct Hh as [_ _ _ _ _ (se & ack & Hb & Hack) Hr Him _]. rewrite Ha, Hp in Hb.
  unfold carries. rewrite Hps, Hpl.
  pose proof (f_equal f_opcode Hb) as Hb1. pose proof (f_equal f_psn Hb) as Hb2.
  pose proof (f_equal f_qpn Hb) as Hb3. pose proof (f_equal f_pkey Hb) as Hb4.
  pose proof (f_equal f_ack Hb) as Hb5. cbn in Hb1, Hb2, Hb3, Hb4, Hb5.
  split; [done|]. split; [unfold bth_psn; rewrite Hb2; by rewrite Z.mod_mod|].
  split; [done|]. split; [done|]. split.
  { intros E. unfold bth_ack. rewrite Hb5. apply Hack. rewrite Hend. by apply Nat.eqb_eq. }
  rewrite Hwr, Hio, Hdl in Hr. rewrite Hwr in Him. rewrite (u32_small total) in Hr by lia. done.
Qed.

(** What the calls leave alone: of the element only its progress changes. *)
Record held (s s' : eng_state) : Prop := {
  hd_stable : stable s' = stable s;
  hd_ring : stored a (qp_sq (es_qp s)) (qp_sq (es_qp s'));
  hd_state : req_state (qp_req (es_qp s')) = req_state (qp_req (es_qp s));
  hd_retry : req_need_retry (qp_req (es_qp s')) = req_need_retry (qp_req (es_qp s));
  hd_listed : listed s → listed s';
  hd_elem w : slot s a w → ∃ w', slot s' a w' ∧ wqe_ibwr w' = wqe_ibwr w ∧ wqe_status w' = wqe_status w ∧
    wqe_has_rd_atomic w' = wqe_has_rd_atomic w ∧ dma_length (wqe_dma w') = dma_length (wqe_dma w) ∧
    wqe_mask w' = wr_opcode_mask (wr_opcode (wqe_ibwr w)) (es_qp s)
}.

Lemma held_trans s1 s2 s3 : held s1 s2 → held s2 s3 → held s1 s3.
Proof using Type.
  intros [A1 A2 A3 A4 A5 A6] [B1 B2 B3 B4 B5 B6]. split; [congruence|by eapply stored_trans|congruence..|auto|].
  intros w Hw. destruct (A6 w Hw) as (w1 & Hw1 & ? & ? & ? & ? & ?).
  destruct (B6 w1 Hw1) as (w2 & Hw2 & ? & ? & ? & ? & Hm). exists w2. split; [done|]. do 4 (split; [congruence|]). rewrite Hm.
  unfold stable in A1. unfold wr_opcode_mask, qp_type. congruence.
Qed.

(** What one call does. *)
Definition advanced (i : nat) (s s' : eng_state) : Prop :=
  (∃ pkt, carries i pkt ∧ qp_send_pkts (es_qp s') = qp_send_pkts (es_qp s) ++ [pkt]) ∧
  (if (S i =? n)%nat then finished s' else midway (S i) s').

(** Packet [i] of the message, built for the element [w] and queued. *)
Definition one_packet (i : nat) (w : rxe_send_wqe) (s s' : eng_state) : Prop :=
  ∃ pkt w' s1 s2, carries i pkt ∧ pkt_opcode pkt = message_opcode ops i n ∧
    flag_set (pkt_mask pkt) RXE_START_MASK = (i =? 0)%nat ∧
    flag_set (pkt_mask pkt) RXE_END_MASK = (S i =? n)%nat ∧ moved w w' ∧
    source (rdev_mem (es_dev s)) (qp_pd (es_qp s)) w' (drop (S i * Z.to_nat mtu) data) ∧
    stable s1 = stable s ∧ qp_send_pkts (es_qp s1) = qp_send_pkts (es_qp s) ∧ (listed s → listed s1) ∧
    qp_req_skb_out (es_qp s1) = qp_req_skb_out (es_qp s) + 1 ∧
    stored a (qp_sq (es_qp s)) (qp_sq (es_qp s1)) ∧
    (∃ k, qp_req (es_qp s1) = qp_req (es_qp s) <| req_noack_pkts := k |>) ∧
    updated s1 a w' pkt (Z.of_nat (packets (Z.of_nat (length (drop (i * Z.to_nat mtu) data))) mtu)) s2 ∧
    queued s2 pkt s'.

Lemma wp_req_send depth fuel i s w payload :
  (i < n)%nat → qp_qp_type (es_qp s) = IB_QPT_RC → qp_attr (es_qp s) = qp_attr q0 →
  qp_mtu_bytes (es_qp s) = mtu → qp_pri_av (es_qp s) = qp_pri_av q0 → es_alloc s = [] → addressable (es_dev s) (es_qp s) from →
  req_psn (qp_req (es_qp s)) = psn i → slot s a w → wqe_ibwr w = wr → dma_length (wqe_dma w) = total →
  wqe_iova w = iova → source (rdev_mem (es_dev s)) (qp_pd (es_qp s)) w (drop (i * Z.to_nat mtu) data) →
  payload = Z.of_nat (length (chunk mtu data i)) →
  let op := message_opcode ops i n in
  wp False (req_send depth fuel a op (opcode_mask op) payload)
    (λ r s', r = Ok tt ∧ one_packet i w s s') s.
Proof using Hbypass Hops Hmtu Htotal.
  intros Hi Hty Hat Hmt Hav Hal Htb Hps Hw Hwr Hdl Hio Hsrc Hpay op.
  destruct (message_opcode_flags _ _ Hops n (packets_pos _ _) i Hi) as (Hop & Hstart & Hend & _).
  fold op in Hop, Hstart, Hend. pose proof (message_opcode_spec _ Hop) as Hf.
  unfold req_send. wp_run. eapply wp_init_req_packet; [done..| |].
  { rewrite Hpay. unfold chunk. rewrite length_take. lia. }
  intros pkt k Hh. cbv beta match.
  wp_run. rewrite Hpay in *.
  eapply wp_fill_packet; [exact Hw|exact Hsrc|done|exact Hh|unfold chunk; rewrite length_take; lia|].
  intros w' pkt' s1 Hm Hsrc' Es1 Hw1 Hrp. cbv beta match.
  assert (Hch : take (Z.to_nat (Z.of_nat (length (chunk mtu data i)))) (drop (i * Z.to_nat mtu) data)
    = chunk mtu data i).
  { unfold chunk. rewrite Nat2Z.id, length_take. rewrite <- (firstn_all (drop _ _)) at 3.
    rewrite take_take. f_equal. }
  rewrite Hch in Hrp.
  destruct (rh_shape _ _ _ _ _ _ (rp_head _ _ _ _ _ _ Hrp)) as (x & Hx & Hs).
  assert (Hfl : ∀ m, (RXE_GRH_MASK .| RXE_LOOPBACK_MASK) .& m = 0 →
    flag_set (pkt_mask pkt') m = flag_set (opcode_mask op) m).
  { intros m E. rewrite (sh_mask _ _ _ Hs). by apply link_mask_flag. }
  assert (Hs1 : stable s1 = stable s) by (by rewrite Es1).
  assert (Hty1 : qp_qp_type (es_qp s1) = IB_QPT_RC) by (by rewrite Es1).
  assert (Hmt1 : qp_mtu_bytes (es_qp s1) = mtu) by (by rewrite Es1).
  wp_run. eapply wp_update_state; [exact Hw1|done|by rewrite Hfl, (mo_rd _ Hf)|]. cbv zeta.
  assert (Hleft : dma_resid (wqe_dma w') + Z.of_nat (length (chunk mtu data i))
    = Z.of_nat (length (drop (i * Z.to_nat mtu) data))).
  { destruct Hsrc' as [-> _]. unfold chunk. rewrite Nat2Z.id, !length_drop, length_take, !length_drop. lia. }
  rewrite Hleft, Hmt1, num_packets_all by (rewrite ?length_drop; lia).
  intros s2 Hup. wp_run. eapply wp_send_packet; [done|]. intros s3 Hqd. wp_run.
  assert (Hty3 : qp_type (es_qp s3) = IB_QPT_RC).
  { pose proof (qd_stable _ _ _ Hqd) as E. rewrite (up_stable _ _ _ _ _ _ Hup), Hs1 in E.
    unfold stable in E. unfold qp_type. congruence. }
  rewrite Hty3. change (IB_QPT_RC =? IB_QPT_RC) with true. cbn [negb]. rewrite andb_false_r. wp_run.
  split; [done|]. exists pkt', w', s1, s2. split.
  { eapply request_packet_carries; [done..|exact Hrp]. }
  split; [apply (sh_opcode _ _ _ Hs)|]. split; [by rewrite Hfl|]. split; [by rewrite Hfl|].
  split; [done|]. split.
  { by rewrite Nat2Z.id, drop_chunk in Hsrc'. }
  do 4 (split; [by rewrite ?Es1|]). split; [rewrite Es1; by eexists|].
  split; [exists k; by rewrite Es1|done].
Qed.

Lemma stable_sendable i j s s' :
  sendable i s → stable s' = stable s → same_ring (qp_sq (es_qp s)) (qp_sq (es_qp s')) →
  req_state (qp_req (es_qp s')) = req_state (qp_req (es_qp s)) →
  req_need_retry (qp_req (es_qp s')) = req_need_retry (qp_req (es_qp s)) →
  req_wqe_index (qp_req (es_qp s')) = req_wqe_index (qp_req (es_qp s)) →
  (i ≤ j < n)%nat → qp_req_skb_out (es_qp s') = qp_req_skb_out (es_qp s) + Z.of_nat (j - i) → sendable j s'.
Proof using Type.
  intros [Hv Hst Hnr (Hty & Hat & Hmt & Hav) Hix Hpo Had Hfe Hal [Hf Hp] Hwi Hro] Hs [d Hg] E1 E2 E3 Hi E4.
  unfold stable in Hs. injection Hs as S1 S2 S3 S4 S5 S6 S7 S8 S9 S10 _ _ _ _ _ _ _.
  split; rewrite ?Hg; try congruence; try done.
  - by rewrite S5, S6, S7, S9.
  - split; rewrite S3; [done|]. by rewrite S6, S9.
  - intros k Hk. rewrite S10. apply Hwi. lia.
  - lia.
Qed.

Lemma req_wqe_packet depth fuel i s :
  (i < n)%nat → midway i s →
  wp False (req_wqe depth fuel a) (λ r s', r = Ok tt ∧ ∃ w, slot s a w ∧ one_packet i w s s') s.
Proof using Hbypass Hops Hmtu Htotal.
  intros Hi [[_ _ _ (Hty & Hat & Hmt & Hav) _ _ _ _ Hal Htb _ _] Hps Hoc (w & Hw & Hwr & Hdl & Hio & Hsrc & _)].
  destruct (message_opcode_flags _ _ Hops n (packets_pos _ _) i Hi) as (Hop & _).
  pose proof (message_opcode_spec _ Hop) as Hf.
  destruct (packets_last total mtu ltac:(lia) ltac:(lia) i Hi) as [Hlast Hrest].
  pose proof Hsrc as (Hres & Hres31 & _). rewrite length_drop in Hres.
  assert (Hrz : dma_resid (wqe_dma w) = total - Z.of_nat i * mtu) by lia.
  unfold req_wqe. wp_run. eapply wp_sq_wqe; [exact Hw|].
  assert (Hnext : next_opcode_of (es_qp s) w = message_opcode ops i n).
  { unfold next_opcode_of, next_opcode, qp_type. rewrite Hty, Hmt, Hwr.
    change (IB_QPT_RC =? IB_QPT_RC) with true. cbn match.
    apply next_opcode_message; [done|apply packets_pos|done|done|]. rewrite Hrz.
    apply eq_true_iff_eq. by rewrite Z.leb_le, Nat.eqb_eq. }
  rewrite Hnext. destruct (Z.ltb_spec (message_opcode ops i n) 0); [destruct Hf; lia|].
  rewrite (mo_read _ Hf), (mo_data _ Hf). wp_run. cbn [negb]. unfold get_mtu. wp_run.
  unfold qp_type. rewrite Hty. change (IB_QPT_RC =? IB_QPT_RC) with true.
  change (IB_QPT_RC =? IB_QPT_UD) with false. cbn [orb]. wp_run. rewrite andb_false_r.
  eapply wp_mono; [eapply wp_req_send; try done|].
  - replace (s32 (dma_resid (wqe_dma w))) with (dma_resid (wqe_dma w)) by (unfold s32; rewrite Z.mod_small; lia).
    unfold chunk. rewrite length_take, length_drop, Hmt. destruct (Z.gtb_spec (dma_resid (wqe_dma w)) mtu); lia.
  - intros r s' [Hr Ho]. split; [done|]. by exists w.
Qed.

Lemma psn_next k : u32 (psn k + 1) .& BTH_PSN_MASK = psn (S k).
Proof using data psn0.
  pose proof (Z.mod_pos_bound (psn0 + Z.of_nat k) (2 ^ 24)). rewrite u32_small by lia.
  change BTH_PSN_MASK with (2 ^ 24 - 1). rewrite land_mask by lia.
  rewrite Z.add_mod_idemp_l by lia. f_equal. lia.
Qed.

(** The element after a packet of the message. *)
Lemma numbered_spec i w w' :
  (i < n)%nat → moved w w' → (i ≠ 0%nat → wqe_first_psn w = psn0 ∧ wqe_last_psn w = psn (n - 1)) →
  let w'' := numbered (i =? 0)%nat (S i =? n)%nat (psn i)
               (Z.of_nat (packets (Z.of_nat (length (drop (i * Z.to_nat mtu) data))) mtu)) w' in
  wqe_ibwr w'' = wqe_ibwr w ∧ wqe_dma w'' = wqe_dma w' ∧ wqe_iova w'' = wqe_iova w ∧
  wqe_first_psn w'' = psn0 ∧ wqe_last_psn w'' = psn (n - 1) ∧
  wqe_st w'' = if (S i =? n)%nat then wqe_state_pending else wqe_state_processing.
Proof using Hmtu Htotal Hpsn0.
  intros Hi [E _] Hfl w''.
  assert (E1 : wqe_ibwr w' = wqe_ibwr w) by (by rewrite E).
  assert (E2 : wqe_iova w' = wqe_iova w) by (by rewrite E).
  assert (E3 : wqe_first_psn w' = wqe_first_psn w ∧ wqe_last_psn w' = wqe_last_psn w) by (by rewrite E).
  clear E. unfold w'', numbered. destruct (Nat.eqb_spec i 0) as [->|Hz].
  - change (drop (0 * Z.to_nat mtu) data) with data.
    cbn [wqe_ibwr wqe_dma wqe_iova wqe_first_psn wqe_last_psn wqe_st upd_field].
    assert (Hp0 : psn 0 = psn0) by (rewrite Z.add_0_r; by apply Z.mod_small).
    rewrite Hp0. do 4 (split; [done|]). split; [|done].
    change BTH_PSN_MASK with (2 ^ 24 - 1). rewrite land_mask by lia.
    pose proof (packets_pos total mtu).
    assert (Hn : Z.of_nat n ≤ 2 ^ 31).
    { unfold packets. assert ((total + mtu - 1) / mtu ≤ total + mtu - 1) by (apply Z.div_le_upper_bound; nia).
      assert ((total + mtu - 1) / mtu < total + 1 ∨ total = 0).
      { destruct (decide (total = 0)); [by right|left]. apply Z.div_lt_upper_bound; nia. }
      destruct (decide (total = 0)) as [->|]; [|lia].
      assert ((0 + mtu - 1) / mtu = 0) by (apply Z.div_small; lia). lia. }
    rewrite u32_small by lia. f_equal. lia.
  - destruct (Hfl Hz) as [<- <-]. destruct E3 as [<- <-]. done.
Qed.

Lemma one_packet_advanced i w s s' :
  (i < n)%nat → midway i s → slot s a w → one_packet i w s s' → advanced i s s'.
Proof using Hops Hmtu Htotal Hpsn0.
  intros Hi [Hsd Hps Hoc (w0 & Hw0 & Hwr & Hdl & Hio & Hsrc & Hfl)] Hw
    (pkt & w' & s1 & s2 & Hca & Hop & Hst & Hen & Hm & Hsrc' & Hs1 & Hp1 & _ & Hk1 & [d1 Hg1] & [k Hr1] &
     [Hs2 Hp2 _ Hk2 [d2 Hg2] Hr2 Hw2] & [Hs3 Hp3 Hk3 Hq3 Hr3 _]).
  assert (w0 = w) as -> by (unfold slot in *; congruence).
  rewrite Hst, Hen in Hw2. rewrite Hen in Hr2.
  assert (Hps1 : req_psn (qp_req (es_qp s1)) = psn i) by (by rewrite Hr1).
  rewrite Hps1 in Hw2, Hr2. rewrite psn_next in Hr2.
  destruct (numbered_spec i w w' Hi Hm Hfl) as (N1 & N2 & N3 & N4 & N5 & N6). cbn zeta in *.
  set (w'' := numbered _ _ _ _ _) in *. clearbody w''.
  assert (Hw' : slot s' a w'') by (unfold slot in *; by rewrite Hq3).
  destruct Hsrc' as (R1 & R2 & R3).
  split; [exists pkt; split; [done|]; by rewrite Hp3, Hp2, Hp1|].
  destruct (Nat.eqb_spec (S i) n) as [Hlast|Hmore].
  - split.
    + rewrite Hr3, Hr2. cbn. by rewrite <- Hlast.
    + rewrite Hr3, Hr2, Hr1, Hq3, Hg2, Hg1. cbn. by rewrite (sd_index _ _ Hsd).
    + exists w''. do 5 (split; [congruence|]). rewrite N2, R1, length_drop.
      destruct (packets_last total mtu ltac:(lia) ltac:(lia) i Hi) as [[_ Hl] _]. specialize (Hl Hlast). lia.
  - split.
    + apply (stable_sendable i (S i) s); [done|congruence| |by rewrite Hr3, Hr2, Hr1..|lia|rewrite Hk3, Hk2, Hk1; lia].
      rewrite Hq3, Hg2, Hg1. by eexists.
    + rewrite Hr3, Hr2. done.
    + rewrite Hr3, Hr2. cbn [req_opcode upd_field]. rewrite Hop.
      destruct (message_opcode_flags _ _ Hops n (packets_pos _ _) i Hi) as (_ & _ & _ & Hc). apply Hc. lia.
    + exists w''. split; [done|]. split; [congruence|]. split; [rewrite N2; destruct Hm; congruence|].
      split; [congruence|]. split; [|done]. unfold stable in *.
      injection Hs3 as _ S2 _ _ _ _ _ S8 _ _ _ _ _ _ _ _ _. injection Hs2 as _ S2' _ _ _ _ _ S8' _ _ _ _ _ _ _ _ _.
      injection Hs1 as _ S2'' _ _ _ _ _ S8'' _ _ _ _ _ _ _ _ _.
      unfold source. rewrite S2, S2', S2'', S8, S8', S8'', N1, N2.
      destruct Hm as [Em _]. replace (wqe_ibwr w) with (wqe_ibwr w') by by rewrite Em. done.
Qed.

Lemma one_packet_held i w s s' :
  slot s a w → wqe_mask w = wr_opcode_mask (wr_opcode (wqe_ibwr w)) (es_qp s) → one_packet i w s s' → held s s'.
Proof using Type.
  intros Hw Hmask (pkt & w' & s1 & s2 & _ & _ & _ & _ & [Em Hdl] & _ & Hs1 & _ & Hl1 & _ & Hg1 & [k Hr1] &
     [Hs2 _ Hl2 _ Hg2 Hr2 Hw2] & [Hs3 _ _ Hq3 Hr3 Hl3]).
  split; [congruence| |by rewrite Hr3, Hr2, Hr1..|auto|].
  - rewrite Hq3. by eapply stored_trans.
  - intros w0 Hw0. assert (w0 = w) as -> by (unfold slot in *; congruence). eexists.
    split; [unfold slot in *; rewrite Hq3; exact Hw2|]. unfold numbered.
    assert (Hid : wqe_ibwr w' = wqe_ibwr w ∧ wqe_status w' = wqe_status w ∧
      wqe_has_rd_atomic w' = wqe_has_rd_atomic w ∧ wqe_mask w' = wqe_mask w) by (by rewrite Em).
    destruct Hid as (I1 & I2 & I3 & I4). rewrite <- Hmask, <- I1, <- I2, <- I3, <- I4, <- Hdl.
    by destruct (flag_set (pkt_mask pkt) RXE_START_MASK).
Qed.

Lemma requester_packet depth fuel i s :
  (i < n)%nat → midway i s →
  wp False (rxe_requester depth fuel) (λ r s', r = Ok tt ∧ advanced i s s' ∧ held s s') s.
Proof using Hbypass Hops Hmtu Htotal Hpsn0.
  intros Hi Hmw. pose proof Hmw as [Hsd Hps Hoc (w & Hw & Hwr & Hdl & Hio & Hsrc & Hfl)].
  pose proof Hsd as [Hv Hst Hnr (Hty & Hat & Hmt & Hav) Hix Hpo Had Hfe Hal Htb Hwi Hro].
  unfold rxe_requester. wp_run. rewrite Hv, Hst. cbn [negb orb]. rewrite !bool_decide_eq_false_2 by done.
  wp_run. rewrite Hnr. wp_run.
  eapply wp_req_next_wqe; [done|by rewrite Hix|by rewrite Hix|done|by rewrite Hwr, Hix|].
  intros s1 w1 -> -> Hw1. cbv beta match. wp_run. set (s1 := s <| es_qp ::= _ |>) in *.
  assert (Hmw1 : midway i s1).
  { split; [|done|done|].
    - apply (stable_sendable i i s); [done|done|apply same_ring_store, same_ring_refl|done..|lia|].
      rewrite Nat.sub_diag, Z.add_0_r. done.
    - by eexists. }
  change (qp_req (es_qp s1)) with (qp_req (es_qp s)). change (qp_comp (es_qp s1)) with (qp_comp (es_qp s)).
  change (qp_req_skb_out (es_qp s1)) with (qp_req_skb_out (es_qp s)).
  unfold qp_type. change (qp_qp_type (es_qp s1)) with (qp_qp_type (es_qp s)).
  rewrite Hty, Hps. change (IB_QPT_RC =? IB_QPT_RC) with true. cbn [andb].
  destruct (Z.gtb_spec (psn_compare (psn i) (u32 (comp_psn (qp_comp (es_qp s)) + rxe_max_req_comp_gap))) 0)
    as [Hgt|_]; [specialize (Hwi i); lia|].
  destruct (Z.gtb_spec (qp_req_skb_out (es_qp s)) rxe_max_skb_per_qp); [lia|].
  eapply wp_mono; [by eapply req_wqe_packet|]. intros r s' (-> & w' & Hw' & Ho). split; [done|].
  assert (w' = w <| wqe_mask := wr_opcode_mask (wr_opcode (wqe_ibwr w)) (es_qp s) |>) as -> by (unfold slot in *; congruence).
  pose proof Ho as Hh. eapply one_packet_advanced in Ho; [|done..]. split; [exact Ho|].
  eapply held_trans; [|eapply one_packet_held; [exact Hw1|reflexivity|exact Hh]].
  split; [done|by eexists|done..|]. intros w0 Hw0.
  assert (w0 = w) as -> by (unfold slot in *; congruence). by eexists.
Qed.

(** [k] calls of the task function, while it returns 0. *)
Fixpoint requester_calls (depth fuel k : nat) : eng (result unit) :=
  match k with
  | O => mret (Ok tt)
  | S k => r ← rxe_requester depth fuel;
           match r with Ok _ => requester_calls depth fuel k | Err e => mret (Err e) end
  end.

Definition payload_of (pkt : rxe_pkt_info) : list Z :=
  pkt_bytes pkt (payload_addr pkt) (payload_size pkt).

Lemma chunk_app i : chunk mtu data i ++ drop (S i * Z.to_nat mtu) data = drop (i * Z.to_nat mtu) data.
Proof using Type.
  unfold chunk. replace (S i * Z.to_nat mtu)%nat with (i * Z.to_nat mtu + Z.to_nat mtu)%nat by lia.
  rewrite <- drop_drop. apply take_drop.
Qed.

(** The packets from [i] on. *)
Definition tail_sent (i : nat) (s s' : eng_state) : Prop :=
  finished s' ∧ held s s' ∧ ∃ pkts, qp_send_pkts (es_qp s') = qp_send_pkts (es_qp s) ++ pkts ∧
    length pkts = (n - i)%nat ∧ (∀ j pkt, pkts !! j = Some pkt → carries (i + j) pkt) ∧
    mjoin (payload_of <$> pkts) = drop (i * Z.to_nat mtu) data.

Lemma requester_tail depth fuel k i s :
  k = (n - i)%nat → (i < n)%nat → midway i s →
  wp False (requester_calls depth fuel k) (λ r s', r = Ok tt ∧ tail_sent i s s') s.
Proof using Hbypass Hops Hmtu Htotal Hpsn0.
  revert i s. induction k as [|k IH]; intros i s Hk Hi Hm; [lia|]. cbn [requester_calls]. wp_run.
  eapply wp_mono; [by apply requester_packet|]. intros r s1 (-> & ((pkt & Hc & Hp) & Hadv) & Hh).
  destruct (Nat.eqb_spec (S i) n) as [Hlast|Hmore].
  - replace k with 0%nat by lia. cbn [requester_calls]. wp_run. split; [done|]. split; [done|]. split; [done|].
    exists [pkt]. split; [done|]. split; [cbn; lia|]. split.
    + intros [|j] p [= <-]. by rewrite Nat.add_0_r.
    + cbn. rewrite app_nil_r. unfold payload_of. destruct Hc as (_ & _ & _ & _ & _ & _ & _ & _ & -> & _).
      rewrite <- (chunk_app i) at 1. rewrite (drop_ge data (S i * _)); [by rewrite app_nil_r|].
      destruct (packets_last total mtu ltac:(lia) ltac:(lia) i Hi) as [[_ Hl] _]. specialize (Hl Hlast). lia.
  - eapply wp_mono; [apply (IH (S i)); [lia|lia|done]|].
    intros r s2 (-> & Hf & Hh2 & pkts & Hp2 & Hlen & Hall & Hdata). split; [done|]. split; [done|].
    split; [by eapply held_trans|].
    exists (pkt :: pkts). split; [rewrite Hp2, Hp, <- app_assoc; done|]. split; [cbn; lia|]. split.
    + intros [|j] p Hj; [injection Hj as <-; by rewrite Nat.add_0_r|].
      replace (i + S j)%nat with (S i + j)%nat by lia. by apply Hall.
    + change (mjoin (payload_of <$> pkt :: pkts)) with (payload_of pkt ++ mjoin (payload_of <$> pkts)).
      rewrite Hdata. unfold payload_of. destruct Hc as (_ & _ & _ & _ & _ & _ & _ & _ & -> & _).
      apply chunk_app.
Qed.

(** C4: a send or an RDMA write of a reliable connection, with or without
    immediate data, inline or from registered memory, leaves the requester as
    one message: after as many calls as the message has packets, all of them
    are queued, in order, with consecutive sequence numbers modulo 2^24, the
    opcodes of a first, middle and last (or only) packet, the destination, key
    and remote address given, an acknowledgement asked for on the last one, and
    payloads that concatenate to the data of the work request; the element then
    waits for the acknowledgement of its last packet. *)
Theorem requester_message depth fuel s :
  midway 0 s →
  ∃ s' pkts, requester_calls depth fuel n s = Some (Ok tt, s') ∧
    qp_send_pkts (es_qp s') = qp_send_pkts (es_qp s) ++ pkts ∧ length pkts = n ∧
    (∀ i pkt, pkts !! i = Some pkt → carries i pkt) ∧ mjoin (payload_of <$> pkts) = data ∧ finished s'.
Proof using Hbypass Hops Hmtu Htotal Hpsn0.
  intros Hm. destruct (wp_total _ _ _ (requester_tail depth fuel n 0 s ltac:(lia) (packets_pos _ _) Hm))
    as (r & s' & E & -> & Hf & _ & pkts & Hp & Hl & Hc & Hd). exists s', pkts. do 2 (split; [done|]).
  split; [by rewrite Hl, Nat.sub_0_r|]. by split.
Qed.
End message.

(** An RDMA write of six bytes, scattered over three entries, with an MTU of
    four and the sequence numbers about to wrap around. *)
Definition example_write : rxe_send_wqe :=
  example_send IB_WR_RDMA_WRITE 0 wqe_state_posted 0 0 0 example_dma.

Definition example_writer : rxe_qp :=
  example_qp (example_sq 0 1 (replicate 4 example_write)) [] 0xffffff 0xffffff <| qp_mtu_bytes := 4 |>.

Lemma requester_message_witness :
  ∃ s' pkts, requester_calls (H := example_params) 0 0 2 (example_es example_writer) = Some (Ok tt, s') ∧
    length pkts = 2%nat ∧ mjoin (payload_of <$> pkts) = mread example_phys <$> [101; 102; 200; 201; 202; 203] ∧
    (∃ pkt, pkts !! 1%nat = Some pkt ∧ bth_psn pkt = 0 ∧ bth_opcode pkt = IB_OPCODE_RC_RDMA_WRITE_LAST).
Proof.
  destruct (requester_message (H := example_params) eq_refl example_writer (wqe_ibwr example_write)
    (IB_OPCODE_RC_RDMA_WRITE_FIRST, IB_OPCODE_RC_RDMA_WRITE_MIDDLE, IB_OPCODE_RC_RDMA_WRITE_LAST,
     IB_OPCODE_RC_RDMA_WRITE_ONLY) 0x1000 (Sender 0xffff 0x11 0x33) 0xffffff 0 0
    (mread example_phys <$> [101; 102; 200; 201; 202; 203]) eq_refl) with (depth := 0%nat) (fuel := 0%nat)
    (s := example_es example_writer) as (s' & pkts & E & _ & Hl & Hc & Hd & _); [done..| |].
  - split; [|reflexivity|reflexivity|].
    + split; try reflexivity; try done; [by left|split; eexists _, _; done|].
      intros [|[|j]] Hj; [vm_compute; discriminate..|]. change (packets _ _) with 2%nat in Hj. lia.
    + exists example_write. split; [reflexivity|]. do 3 (split; [reflexivity|]). split; [|done].
      split; [reflexivity|]. split; [done|]. split; [apply example_refs_pos|].
      exists [101; 102; 200; 201; 202; 203]. split; [apply example_stream; by left|reflexivity].
  - exists s', pkts. split; [exact E|]. split; [exact Hl|]. split; [exact Hd|].
    destruct (pkts !! 1%nat) as [pkt|] eqn:Hp;
      [|apply lookup_ge_None in Hp; change (packets _ _) with 2%nat in Hl; lia].
    exists pkt. split; [done|]. destruct (Hc _ _ Hp) as (Ho & Hpsn & _). split; [exact Hpsn|exact Ho].
Defined.
