(* ===== verification/Retry.v ===== *)
(** * Resuming a message after a retry (rxe_req.c)

    When the completer asks for a retry the requester goes back to the oldest
    element of the send queue and skips what the responder has acknowledged.
    The next packets it sends are those of the message from the sequence
    number the completer expects on, and no others; the started elements
    behind it start again from their beginning. *)

From stdpp Require Import gmap.
From S2P Require Import Prelude Bits Queue Opcode Hdr Verbs Icrc Mr Sge Cq State Comp Arbiter Req ReqPacket Message.

(** Skipping data moves the source as sending it does. *)
Lemma source_advance F s d pd w data to_send Q :
  source d pd w data → sges_ok (wqe_dma w) → 0 ≤ to_send ≤ Z.of_nat (length data) →
  (∀ dma, source d pd (w <| wqe_dma := dma |>) (drop (Z.to_nat to_send) data) →
     dma_sge dma = dma_sge (wqe_dma w) → dma_length dma = dma_length (wqe_dma w) → Q dma s) →
  wp F (retry_advance w to_send) Q s.
Proof.
  intros (Hres & Hsmall & Hsrc) Hs Ht HQ. unfold retry_advance.
  destruct (flag_set (wr_send_flags (wqe_ibwr w)) IB_SEND_INLINE) eqn:Hin.
  - destruct Hsrc as (Ho & Hol & Hd). wp_run. apply HQ; [|done..].
    split; [cbn; rewrite u32_small, length_drop by lia; lia|]. split; [cbn; rewrite u32_small; lia|].
    cbn. rewrite Hin, !u32_small by lia. split; [lia|]. split; [lia|].
    rewrite <- Hd at 2. rewrite length_drop, Z2Nat.inj_add, <- drop_drop by lia.
    rewrite take_drop_commute. do 2 f_equal. lia.
  - destruct Hsrc as (Hpos & addrs & Hst & Hd).
    assert (Hla : (length data ≤ length addrs)%nat).
    { apply (f_equal length) in Hd. rewrite length_fmap, length_take in Hd. lia. }
    destruct (copy_data_copied d pd 0 (wqe_dma w) addrs (replicate (Z.to_nat to_send) 0) to_send direction_out None)
      as (o & E & Ho & _ & _ & Hst' & c & f & Hdm); [done|done|lia|lia|rewrite length_replicate; lia|].
    wp_run. rewrite (copy_data_moves _ _ _ _ _ _ _ _ _ Hs (proj1 Ht) E Ho). wp_run.
    apply HQ; [|by rewrite Hdm..].
    split; [cbn; rewrite Hdm, length_drop; cbn; lia|]. split; [cbn; rewrite Hdm; cbn; lia|].
    cbn [wqe_ibwr wqe_dma upd_field]. rewrite Hin. split; [done|].
    exists (drop (Z.to_nat to_send) addrs). split; [done|].
    rewrite <- Hd at 2. rewrite length_drop, <- fmap_drop, take_drop_commute. do 3 f_equal. lia.
Qed.

(** The element with its transfer position at the beginning. *)
Definition rewound (w : rxe_send_wqe) : rxe_send_wqe :=
  w <| wqe_iova := wr_remote_addr (wqe_ibwr w) |>
    <| wqe_dma ::= λ d, d <| dma_resid := dma_length d |> <| dma_cur_sge := 0 |> <| dma_sge_offset := 0 |> |>.

(** The elements behind the oldest one after a retry. *)
Fixpoint rewind_list (ws : list rxe_send_wqe) : list rxe_send_wqe :=
  match ws with
  | [] => []
  | w :: rest =>
      match wqe_st w with
      | wqe_state_posted => w :: rest
      | wqe_state_done => w :: rewind_list rest
      | _ => rewound w <| wqe_st := wqe_state_posted |> :: rewind_list rest
      end
  end.

(** Up to the send queue and the opcode of the requester. *)
Record rewinding (s s' : eng_state) : Prop := {
  rw_stable : stable s' = stable s;
  rw_send : qp_send_pkts (es_qp s') = qp_send_pkts (es_qp s);
  rw_skb : qp_req_skb_out (es_qp s') = qp_req_skb_out (es_qp s);
  rw_ring : same_ring (qp_sq (es_qp s)) (qp_sq (es_qp s'));
  rw_req : qp_req (es_qp s') = qp_req (es_qp s) <| req_opcode := req_opcode (qp_req (es_qp s')) |>
}.

Lemma req_opcode_id r : r = r <| req_opcode := req_opcode r |>.
Proof. by destruct r. Qed.

Lemma rewinding_refl s : rewinding s s.
Proof. split; [done..|apply same_ring_refl|apply req_opcode_id]. Qed.

Lemma rewinding_trans s1 s2 s3 : rewinding s1 s2 → rewinding s2 s3 → rewinding s1 s3.
Proof.
  intros [A1 A2 A3 [d1 A4] A5] [B1 B2 B3 [d2 B4] B5]. split; [congruence..| |].
  - rewrite B4, A4. by eexists.
  - rewrite B5, A5. done.
Qed.

Lemma rewinding_upd s a w : rewinding s (s <| es_qp ::= λ q, q <| qp_sq ::= λ sq, store_at sq a w |> |>).
Proof. split; [done..|apply same_ring_store, same_ring_refl|apply req_opcode_id]. Qed.

Lemma rewinding_opcode s op : rewinding s (s <| es_qp ::= λ q, q <| qp_req ::= λ r, r <| req_opcode := op |> |> |>).
Proof. split; [done..|apply same_ring_refl|done]. Qed.

(** ** The send queue as a list *)

Record sq_list (k : Z) (s : eng_state) (ws : list rxe_send_wqe) : Prop := {
  sl_wf : queue_wf k (qp_sq (es_qp s));
  sl_intact : intact (qp_sq (es_qp s));
  sl_list : queue_list (qp_sq (es_qp s)) = ws
}.

(** The index and the address of the element [j] places behind the oldest. *)
Definition sq_index (k : Z) (s : eng_state) (j : nat) : Z :=
  (consumer_index (qp_sq (es_qp s)) + Z.of_nat j) mod 2 ^ k.
Definition sq_addr (k : Z) (s : eng_state) (j : nat) : Z :=
  addr_from_index (qp_sq (es_qp s)) (sq_index k s j).

Lemma sq_slot k s ws j w : sq_list k s ws → ws !! j = Some w → slot s (sq_addr k s j) w.
Proof.
  intros [Hwf Hi Hl] Hj. unfold slot, sq_addr, sq_index, consumer_index.
  destruct (queue_at k (qp_sq (es_qp s)) j w Hwf Hi) as [-> _].
  - rewrite Hl. by eapply lookup_lt_Some.
  - by rewrite Hl.
Qed.

Lemma sq_addr_ring k s s' j :
  same_ring (qp_sq (es_qp s)) (qp_sq (es_qp s')) → sq_addr k s' j = sq_addr k s j ∧ sq_index k s' j = sq_index k s j.
Proof. intros [d E]. unfold sq_addr, sq_index. by rewrite E. Qed.

Lemma wp_upd_at F k s ws j w f Q :
  sq_list k s ws → ws !! j = Some w →
  (∀ s', rewinding s s' → req_opcode (qp_req (es_qp s')) = req_opcode (qp_req (es_qp s)) →
     sq_list k s' (<[j := f w]> ws) → Q tt s') →
  wp F (upd_wqe (sq_addr k s j) f) Q s.
Proof.
  intros Hs Hj HQ. eapply wp_upd_wqe; [by eapply sq_slot|]. intros s' -> _.
  apply HQ; [apply rewinding_upd|done|]. destruct Hs as [Hwf Hi Hl]. split; [by apply store_at_wf|done|].
  unfold sq_addr, sq_index, consumer_index. cbn [es_qp upd_field qp_sq].
  destruct (queue_at k (qp_sq (es_qp s)) j (f w) Hwf Hi) as [_ E].
  - rewrite Hl. by eapply lookup_lt_Some.
  - by rewrite E, Hl.
Qed.

Section retry.
Context `{Params}.

(** ** The elements behind the oldest *)

Lemma wp_retry_wqe_rest F k s ws j w npsn Q :
  sq_list k s ws → ws !! j = Some w →
  (∀ s', rewinding s s' → req_opcode (qp_req (es_qp s')) = req_opcode (qp_req (es_qp s)) →
     sq_list k s' (<[j := rewound w <| wqe_st := wqe_state_posted |>]> ws) → Q tt s') →
  wp F (retry_wqe (sq_addr k s j) npsn false) Q s.
Proof.
  intros Hs Hj HQ. unfold retry_wqe. wp_run. eapply wp_sq_wqe; [by eapply sq_slot|]. cbn [negb orb]. wp_run.
  eapply wp_upd_at; [done..|]. intros s1 R1 O1 H1. wp_run.
  destruct (sq_addr_ring k s s1 j (rw_ring _ _ R1)) as [<- _].
  eapply wp_upd_at; [done|apply list_lookup_insert_eq; by eapply lookup_lt_Some|].
  intros s2 R2 O2 H2. wp_run. destruct (sq_addr_ring k s1 s2 j (rw_ring _ _ R2)) as [<- _].
  rewrite list_insert_insert_eq in H2.
  eapply wp_upd_at; [done|apply list_lookup_insert_eq; by eapply lookup_lt_Some|].
  intros s3 R3 O3 H3. rewrite list_insert_insert_eq in H3.
  apply HQ; [eauto using rewinding_trans|congruence|done].
Qed.

Lemma sq_walk k s ws (j : nat) :
  sq_list k s ws → (j ≤ length ws)%nat →
  next_index (qp_sq (es_qp s)) (sq_index k s j) = sq_index k s (S j) ∧
  (sq_index k s j = producer_index (qp_sq (es_qp s)) ↔ j = length ws).
Proof.
  intros [Hwf Hi Hl] Hj. pose proof (queue_list_length k _ Hwf) as Hlen. rewrite Hl in Hlen.
  destruct (queue_walk k (qp_sq (es_qp s)) j Hwf Hi) as [E1 E2]; [lia|].
  unfold sq_index, consumer_index. split; [done|]. rewrite E2. lia.
Qed.

Lemma wp_retry_rest F k fuel s pre ws npsn Q :
  sq_list k s (pre ++ ws) → (length ws ≤ fuel)%nat →
  (∀ s', rewinding s s' → req_opcode (qp_req (es_qp s')) = req_opcode (qp_req (es_qp s)) →
     sq_list k s' (pre ++ rewind_list ws) → Q tt s') →
  wp F (retry_loop fuel (sq_index k s (length pre)) npsn false) Q s.
Proof.
  revert fuel s pre Q. induction ws as [|w ws IH]; intros fuel s pre Q Hs Hf HQ; (destruct fuel as [|fuel];
      [cbn in Hf; try lia|]); cbn [retry_loop]; wp_run; destruct (sq_walk k s _ (length pre) Hs) as [Hn He]; try (rewrite length_app; lia);
    rewrite length_app in He; cbn [length] in *.
  1, 2: rewrite (proj2 He), Z.eqb_refl by lia; wp_run; apply HQ; [apply rewinding_refl|done|done].
  - destruct (Z.eqb_spec (sq_index k s (length pre)) (producer_index (qp_sq (es_qp s)))) as [E|_];
      [apply He in E; lia|].
    assert (Hw : (pre ++ w :: ws) !! length pre = Some w) by (by apply list_lookup_middle).
    fold (sq_addr k s (length pre)). wp_run. eapply wp_sq_wqe; [by eapply sq_slot|]. rewrite Hn.
    assert (Hsk : ∀ s1 w', sq_list k s1 (pre ++ w' :: ws) → rewinding s s1 →
      req_opcode (qp_req (es_qp s1)) = req_opcode (qp_req (es_qp s)) →
      (∀ s', sq_list k s' (pre ++ w' :: rewind_list ws) → rewinding s s' →
         req_opcode (qp_req (es_qp s')) = req_opcode (qp_req (es_qp s)) → Q tt s') →
      wp F (retry_loop fuel (sq_index k s (S (length pre))) npsn false) Q s1).
    { intros s1 w' H1 R1 O1 HQ1. destruct (sq_addr_ring k s s1 (S (length pre)) (rw_ring _ _ R1)) as [_ <-].
      replace (S (length pre)) with (length (pre ++ [w'])) by (rewrite length_app; cbn; lia).
      apply IH; [by rewrite <- app_assoc|lia|]. intros s' R' O' H'. rewrite <- app_assoc in H'.
      apply HQ1; [done|eauto using rewinding_trans|congruence]. }
    cbn [rewind_list] in HQ. destruct (wqe_st w).
    1: wp_run; apply HQ; [apply rewinding_refl|done|done].
    1, 2, 4: wp_run; eapply wp_retry_wqe_rest; [done..|]; intros s1 R1 O1 H1; wp_run;
      rewrite insert_app_r_alt, Nat.sub_diag in H1 by lia; by eapply Hsk; [exact H1|..|auto].
    apply (Hsk s w); [done|apply rewinding_refl|done|auto].
Qed.

(** ** The oldest element *)

(** What skipping data leaves alone in an element. *)
Definition kept (w w' : rxe_send_wqe) : Prop :=
  wqe_ibwr w' = wqe_ibwr w ∧ wqe_first_psn w' = wqe_first_psn w ∧ wqe_last_psn w' = wqe_last_psn w ∧
  dma_length (wqe_dma w') = dma_length (wqe_dma w) ∧ dma_sge (wqe_dma w') = dma_sge (wqe_dma w).

Lemma kept_trans w1 w2 w3 : kept w1 w2 → kept w2 w3 → kept w1 w3.
Proof. unfold kept. intuition congruence. Qed.

Section oldest.
Context (q0 : rxe_qp) (wr : ib_send_wr) (ops : Z * Z * Z * Z) (data : list Z).
Local Abbreviation mtu := (qp_mtu_bytes q0).
Local Abbreviation total := (Z.of_nat (length data)).
Local Abbreviation n := (packets total mtu).
Context (Hops : rc_opcodes (wr_opcode wr) = Some ops) (Hmtu : 0 < mtu ≤ 2 ^ 13) (Htotal : total < 2 ^ 31).

(** The oldest element stands before packet [j] of the message. *)
Record before (k : Z) (j : nat) (ws : list rxe_send_wqe) (s : eng_state) (w : rxe_send_wqe) : Prop := {
  be_list : sq_list k s (w :: ws);
  be_qp : qp_qp_type (es_qp s) = IB_QPT_RC ∧ qp_mtu_bytes (es_qp s) = mtu;
  be_wr : wqe_ibwr w = wr;
  be_sges : sges_ok (wqe_dma w);
  be_source : source (rdev_mem (es_dev s)) (qp_pd (es_qp s)) w (drop (j * Z.to_nat mtu) data);
  be_opcode : one_of (req_opcode (qp_req (es_qp s))) [ops.1.1.1; ops.1.1.2] = negb (j =? 0)%nat
}.

Lemma wp_skip_one F k m j s w ws mask Q :
  before k j ws s w → (S j < n)%nat →
  (∀ s' w', rewinding s s' → kept w w' → before k (S j) ws s' w' →
     wp F (retry_first_write_send m (sq_addr k s' 0) mask) Q s') →
  wp F (retry_first_write_send (S m) (sq_addr k s 0) mask) Q s.
Proof using Hops Hmtu Htotal.
  intros [Hl [Hty Hmt] Hwr Hsg Hsrc Hoc] Hj HQ. cbn [retry_first_write_send].
  destruct (packets_last total mtu ltac:(lia) ltac:(lia) j ltac:(lia)) as [Hlast Hrest].
  pose proof Hsrc as (Hres & Hres31 & _). rewrite length_drop in Hres.
  wp_run. eapply wp_sq_wqe; [by eapply (sq_slot k s _ 0)|]. wp_run. rewrite Hmt.
  assert (Hbig : dma_resid (wqe_dma w) > mtu) by lia.
  rewrite (proj2 (Z.gtb_lt _ _)) by lia.
  assert (Hnext : next_opcode_of (es_qp s) w = message_opcode ops j n).
  { unfold next_opcode_of, next_opcode, qp_type. rewrite Hty, Hmt, Hwr.
    change (IB_QPT_RC =? IB_QPT_RC) with true. cbn match.
    apply next_opcode_message; [done|apply packets_pos|lia|done|].
    rewrite (proj2 (Z.leb_gt _ _)) by lia. symmetry. apply Nat.eqb_neq. lia. }
  rewrite Hnext.
  destruct (message_opcode_flags _ _ Hops n (packets_pos _ _) j ltac:(lia)) as (_ & _ & _ & Hcont).
  eapply source_advance; [exact Hsrc|done|rewrite length_drop; lia|].
  intros dma Hsrc' Hsge Hdl. wp_run.
  set (s1 := s <| es_qp ::= λ q, q <| qp_req ::= λ r, r <| req_opcode := message_opcode ops j n |> |> |>).
  assert (R1 : rewinding s s1) by apply rewinding_opcode.
  change (sq_addr k s 0) with (sq_addr k s1 0).
  assert (Hl1 : sq_list k s1 (w :: ws)) by (by destruct Hl).
  eapply (wp_upd_at _ k s1 (w :: ws) 0); [done..|]. intros s2 R2 O2 Hl2. wp_run. cbn [list_insert insert] in Hl2.
  rewrite drop_drop in Hsrc'. replace (j * Z.to_nat mtu + Z.to_nat mtu)%nat with (S j * Z.to_nat mtu)%nat in Hsrc' by lia.
  set (w2 := w <| wqe_dma := dma |>) in *.
  destruct (sq_addr_ring k s1 s2 0 (rw_ring _ _ R2)) as [<- _].
  eapply (wp_mono _ _ (λ _ s3, ∃ w3, rewinding s2 s3 ∧ sq_list k s3 (w3 :: ws) ∧ wqe_dma w3 = wqe_dma w2 ∧
    kept w2 w3 ∧ req_opcode (qp_req (es_qp s3)) = req_opcode (qp_req (es_qp s2)))).
  { apply wp_when; intros _; [|exists w2; by split; [apply rewinding_refl|]].
    eapply (wp_upd_at _ k s2 (w2 :: ws) 0); [done..|]. intros s3 R3 O3 Hl3. eexists. by split. }
  intros ? s3 (w3 & R3 & Hl3 & Hd3 & K3 & O3). pose proof (rewinding_trans _ _ _ R1 (rewinding_trans _ _ _ R2 R3)) as R.
  destruct (sq_addr_ring k s2 s3 0 (rw_ring _ _ R3)) as [<- _]. apply (HQ s3 w3); [done| |].
  - destruct K3 as (E1 & E2 & E3 & E4 & E5). unfold kept. cbn in *. repeat split; congruence.
  - pose proof (rw_stable _ _ R) as S. unfold stable in S. injection S as _ S2 _ _ S5 _ S7 S8 _ _ _ _ _ _ _ _ _.
    destruct K3 as (E1 & _). split; [done|by rewrite S5, S7|by rewrite E1|unfold sges_ok; rewrite Hd3; cbn; by rewrite Hsge| |].
    + unfold source in *. rewrite Hd3, E1, S2, S8. exact Hsrc'.
    + rewrite O3, O2. change (req_opcode (qp_req (es_qp s1))) with (message_opcode ops j n).
      by rewrite Hcont by lia.
Qed.

Lemma wp_skip_packets F k m j s w ws mask Q :
  before k j ws s w → (j + m < n)%nat →
  (∀ s' w', rewinding s s' → kept w w' → before k (j + m) ws s' w' → (m = 0%nat → w' = w) → Q tt s') →
  wp F (retry_first_write_send m (sq_addr k s 0) mask) Q s.
Proof using Hops Hmtu Htotal.
  revert j s w Q. induction m as [|m IH]; intros j s w Q Hb Hj HQ.
  { cbn [retry_first_write_send]. wp_run. apply (HQ s w); [apply rewinding_refl|done|by rewrite Nat.add_0_r|done]. }
  eapply wp_skip_one; [done|lia|]. intros s1 w1 R1 K1 B1. eapply IH; [done|lia|]. intros s2 w2 R2 K2 B2 _.
  eapply HQ; [eauto using rewinding_trans|by eapply kept_trans|by rewrite Nat.add_succ_r|done].
Qed.

Lemma wr_masks q :
  qp_qp_type q = IB_QPT_RC → let mask := wr_opcode_mask (wr_opcode wr) q in
  flag_set mask WR_READ_MASK = false ∧ flag_set mask WR_WRITE_OR_SEND_MASK = true.
Proof using Hops.
  intros Hty. unfold wr_opcode_mask. rewrite Hty. unfold rc_opcodes in Hops.
  repeat match type of Hops with context [wr_opcode wr =? ?c] =>
    destruct (Z.eqb_spec (wr_opcode wr) c) as [E|]; [rewrite E; done|] end. done.
Qed.

(** What is said of the oldest element after the retry. *)
Definition resumed (k : Z) (m : nat) (w : rxe_send_wqe) (ws : list rxe_send_wqe) (s s' : eng_state) : Prop :=
  rewinding s s' ∧ ∃ w', before k m ws s' w' ∧ kept (rewound w) w' ∧
    (m = 0%nat → wqe_iova w' = wr_remote_addr wr) ∧ wqe_st w' = wqe_state_posted.

Lemma wp_retry_wqe_first F k s w ws m Q :
  sq_list k s (w :: ws) → qp_qp_type (es_qp s) = IB_QPT_RC → qp_mtu_bytes (es_qp s) = mtu →
  wqe_ibwr w = wr → sges_ok (wqe_dma w) → req_opcode (qp_req (es_qp s)) = -1 →
  source (rdev_mem (es_dev s)) (qp_pd (es_qp s)) (rewound w) data → (m < n)%nat →
  (∀ s', resumed k m w ws s s' → Q tt s') →
  wp F (retry_wqe (sq_addr k s 0) (Z.of_nat m) true) Q s.
Proof using Hops Hmtu Htotal.
  intros Hl Hty Hmt Hwr Hsg Hoc Hsrc Hm HQ. unfold retry_wqe. wp_run.
  eapply wp_sq_wqe; [by eapply (sq_slot k s _ 0)|]. rewrite Hwr.
  destruct (wr_masks (es_qp s) Hty) as [-> ->]. cbn [negb orb]. wp_run.
  eapply (wp_upd_at _ k s (w :: ws) 0); [done..|]. intros s1 R1 O1 Hl1. cbn [list_insert insert] in Hl1. wp_run.
  destruct (sq_addr_ring k s s1 0 (rw_ring _ _ R1)) as [<- _].
  eapply (wp_upd_at _ k s1 (_ :: ws) 0); [done..|]. intros s2 R2 O2 Hl2. cbn [list_insert insert] in Hl2. wp_run.
  destruct (sq_addr_ring k s1 s2 0 (rw_ring _ _ R2)) as [<- _]. rewrite Nat2Z.id.
  assert (R : rewinding s s2) by eauto using rewinding_trans.
  pose proof (rw_stable _ _ R) as S. unfold stable in S. injection S as _ S2 _ _ S5 _ S7 S8 _ _ _ _ _ _ _ _ _.
  eapply (wp_skip_packets _ k m 0 s2 (rewound w) ws).
  - split; [exact Hl2|by rewrite S5, S7|done|done|rewrite S2, S8; exact Hsrc|].
    rewrite O2, O1, Hoc. unfold rc_opcodes in Hops.
    repeat match type of Hops with context [wr_opcode wr =? ?c] =>
      destruct (wr_opcode wr =? c); [injection Hops as <-; reflexivity|] end. done.
  - lia.
  - intros s3 w3 R3 K3 [B1 B2 B3 B4 B5 B6] Hz. wp_run. cbn [Nat.add] in *.
    destruct (sq_addr_ring k s2 s3 0 (rw_ring _ _ R3)) as [<- _].
    eapply (wp_upd_at _ k s3 (w3 :: ws) 0); [done..|]. intros s4 R4 O4 Hl4. cbn [list_insert insert] in Hl4.
    apply HQ. split; [eauto using rewinding_trans|].
    exists (w3 <| wqe_st := wqe_state_posted |>). split; [|split; [exact K3|]].
    + pose proof (rw_stable _ _ R4) as S. unfold stable in S. injection S as _ T2 _ _ T5 _ T7 T8 _ _ _ _ _ _ _ _ _.
      split; [exact Hl4|by rewrite T5, T7|done|done|rewrite T2, T8; exact B5|by rewrite O4].
    + split; [|done]. intros E. rewrite (Hz E). cbn. by rewrite Hwr.
Qed.

(** The queue pair when [req_retry] starts to walk the send queue. *)
Definition restarted (s : eng_state) : eng_state :=
  s <| es_qp ::= λ q, q <| qp_req ::= λ r, r <| req_wqe_index := consumer_index (qp_sq q) |>
                                             <| req_psn := comp_psn (qp_comp q) |> <| req_opcode := -1 |> |> |>.

Definition started (w : rxe_send_wqe) : Prop :=
  wqe_st w = wqe_state_processing ∨ wqe_st w = wqe_state_pending.

Lemma wp_req_retry F k s w ws m Q :
  sq_list k s (w :: ws) → qp_qp_type (es_qp s) = IB_QPT_RC → qp_mtu_bytes (es_qp s) = mtu →
  started w → wqe_ibwr w = wr → sges_ok (wqe_dma w) →
  source (rdev_mem (es_dev s)) (qp_pd (es_qp s)) (rewound w) data → (m < n)%nat →
  u32 (comp_psn (qp_comp (es_qp s)) - wqe_first_psn w) .& BTH_PSN_MASK = Z.of_nat m →
  (∀ s', resumed k m w (rewind_list ws) (restarted s) s' → Q tt s') → wp F req_retry Q s.
Proof using Hops Hmtu Htotal.
  intros Hl Hty Hmt Hst Hwr Hsg Hsrc Hm Hps HQ. pose proof Hl as [Hwf Hin Hls].
  destruct (queue_head_cons k _ _ _ Hwf Hls) as (Hhd & Hel & _).
  pose proof (queue_list_length k _ Hwf) as Hlen. rewrite Hls in Hlen. cbn [length] in Hlen.
  pose proof (queue_count_range k _ Hwf). pose proof (geom_data _ _ (wf_geom _ _ Hwf)) as Hdata.
  pose proof (wf_cons _ _ Hwf) as Hcons.
  unfold req_retry. wp_run. rewrite Hhd. wp_run. eapply wp_sq_wqe; [exact Hel|]. rewrite Hps. wp_run.
  match goal with |- wp _ ?p _ _ => change (wp F p Q (restarted s)) end. set (s0 := restarted s).
  assert (Hl0 : sq_list k s0 (w :: ws)) by (by split).
  assert (Hix : consumer_index (qp_sq (es_qp s)) = sq_index k s0 0).
  { unfold sq_index. rewrite Z.add_0_r. symmetry. by apply Z.mod_small. }
  rewrite Hix. destruct (length (buf_data _)) as [|fuel] eqn:Hfuel; [lia|]. cbn [retry_loop]. wp_run.
  destruct (sq_walk k s0 _ 0 Hl0 ltac:(cbn; lia)) as [Hn He].
  destruct (Z.eqb_spec (sq_index k s0 0) (producer_index (qp_sq (es_qp s0)))) as [E|_];
    [apply He in E; cbn in E; lia|].
  fold (sq_addr k s0 0). wp_run. eapply wp_sq_wqe; [by eapply (sq_slot k s0 _ 0)|]. rewrite Hn.
  assert (Hgo : wp F (retry_wqe (sq_addr k s0 0) (Z.of_nat m) true;;
    retry_loop fuel (sq_index k s0 1) (Z.of_nat m) false) Q s0).
  { wp_run. eapply (wp_retry_wqe_first F k s0 w ws m); try done.
    intros s1 (R1 & w1 & [B1 B2 B3 B4 B5 B6] & K1 & Hz & Hp1).
    destruct (sq_addr_ring k s0 s1 1 (rw_ring _ _ R1)) as [_ <-].
    change 1%nat with (length [w1]). eapply wp_retry_rest; [exact B1|cbn; lia|].
    intros s2 R2 O2 Hl2. apply HQ. split; [eauto using rewinding_trans|]. exists w1. split; [|done].
    pose proof (rw_stable _ _ R2) as S. unfold stable in S. injection S as _ T2 _ _ T5 _ T7 T8 _ _ _ _ _ _ _ _ _.
    split; [exact Hl2|by rewrite T5, T7|done|done|by rewrite T2, T8|by rewrite O2]. }
  destruct Hst as [-> | ->]; exact Hgo.
Qed.
End oldest.
End retry.

Section resend.
Context `{Params} (Hbypass : rxe_bypass_arbiter = false).

Definition retry_done (s : eng_state) : eng_state :=
  s <| es_qp ::= λ q, q <| qp_req ::= λ r, r <| req_need_retry := false |> |> |>.

(** After the retry the call goes on as a call without one. *)
Lemma requester_after_retry depth fuel s s1 :
  qp_valid (es_qp s) = true → req_state (qp_req (es_qp s)) = QP_STATE_READY →
  req_need_retry (qp_req (es_qp s)) = true → req_retry s = Some (tt, s1) →
  qp_valid (es_qp s1) = true → req_state (qp_req (es_qp s1)) = QP_STATE_READY →
  rxe_requester depth fuel s = rxe_requester depth fuel (retry_done s1).
Proof.
  intros Hv Hr Hn E Hv1 Hr1. unfold rxe_requester, mbind, eng_bind, get_qp, gets.
  cbn [es_qp qp_valid qp_req req_state req_need_retry upd_field retry_done].
  rewrite Hv, Hr, Hn, Hv1, Hr1. cbn [negb orb]. rewrite !bool_decide_eq_false_2 by done.
  cbn [when]. unfold mbind, eng_bind. rewrite E. reflexivity.
Qed.

Context (q0 : rxe_qp) (wr : ib_send_wr) (ops : Z * Z * Z * Z) (from : sender) (psn0 idx a : Z) (data : list Z).
Local Abbreviation mtu := (qp_mtu_bytes q0).
Local Abbreviation total := (Z.of_nat (length data)).
Local Abbreviation n := (packets total mtu).
Context (Hops : rc_opcodes (wr_opcode wr) = Some ops) (Hmtu : 0 < mtu ≤ 2 ^ 13) (Htotal : total < 2 ^ 31).
Context (Hpsn0 : 0 ≤ psn0 < 2 ^ 24) (Hcount : Z.of_nat n ≤ 2 ^ 24).

(** A queue pair that was asked to retry from packet [m] of the message of the
    oldest element. *)
Record asked (k : Z) (m : nat) (w : rxe_send_wqe) (ws : list rxe_send_wqe) (s : eng_state) : Prop := {
  as_list : sq_list k s (w :: ws);
  as_started : started w;
  as_wr : wqe_ibwr w = wr;
  as_sges : sges_ok (wqe_dma w);
  as_length : dma_length (wqe_dma w) = total;
  as_psns : wqe_first_psn w = psn0 ∧ wqe_last_psn w = (psn0 + Z.of_nat (n - 1)) mod 2 ^ 24;
  as_source : source (rdev_mem (es_dev s)) (qp_pd (es_qp s)) (rewound w) data;
  as_retry : req_need_retry (qp_req (es_qp s)) = true;
  as_psn : comp_psn (qp_comp (es_qp s)) = (psn0 + Z.of_nat m) mod 2 ^ 24;
  as_sendable : sendable q0 wr from psn0 idx a data m (retry_done (restarted s))
}.

(** Only the first packet carries the remote address. *)
Lemma carries_iova iova iova' i pkt :
  (i < n)%nat → i ≠ 0%nat → carries q0 wr ops iova from psn0 data i pkt → carries q0 wr ops iova' from psn0 data i pkt.
Proof using Hops.
  intros Hi Hz (C1 & C2 & C3 & C4 & C5 & _ & C6). do 5 (split; [done|]). split; [|done]. intros Hr. exfalso.
  revert Hr. apply not_true_iff_false. unfold message_opcode, rc_opcodes in *.
  destruct (Nat.eqb_spec i 0) as [?|_], (Nat.eqb_spec n 1) as [?|_]; [lia..|].
  repeat match type of Hops with context [wr_opcode wr =? ?c] =>
    destruct (wr_opcode wr =? c); [injection Hops as <-; by destruct (S i =? n)%nat|] end. done.
Qed.

Lemma asked_midway k m w ws s :
  (m < n)%nat → asked k m w ws s →
  wp False req_retry (λ _ s1, ∃ iova,
    midway q0 wr ops iova from psn0 idx a data m (retry_done s1) ∧
    (m = 0%nat → iova = wr_remote_addr wr) ∧
    qp_send_pkts (es_qp s1) = qp_send_pkts (es_qp s) ∧ qp_valid (es_qp s1) = true ∧
    req_state (qp_req (es_qp s1)) = QP_STATE_READY ∧
    a = sq_addr k s1 0 ∧ ∃ w1, sq_list k s1 (w1 :: rewind_list ws)) s.
Proof using Hops Hmtu Htotal Hpsn0 Hcount.
  intros Hm [Hl Hst Hwr Hsg Hdl [Hf1 Hf2] Hsrc Hrt Hps Hsd].
  pose proof Hsd as [Hv Hrs _ (Hty & Hat & Hmt & _) Hix _ Had _ _ _ _ _].
  eapply (wp_req_retry q0 wr ops data Hops Hmtu Htotal False k s w ws m); try done.
  { rewrite Hf1, Hps. change BTH_PSN_MASK with (2 ^ 24 - 1). rewrite land_u32_mask by lia.
    rewrite Zminus_mod_idemp_l. replace (psn0 + Z.of_nat m - psn0) with (Z.of_nat m) by lia.
    apply Z.mod_small. lia. }
  intros s1 (R & w1 & [B1 B2 B3 B4 B5 B6] & (K1 & K2 & K3 & K4 & K5) & Hz & Hp1).
  pose proof R as [R1 R2 R3 R4 R5]. set (s0 := restarted s) in *.
  assert (Hreq : ∀ A (f : rxe_req_info → A), (∀ r op, f (r <| req_opcode := op |>) = f r) →
    f (qp_req (es_qp s1)) = f (qp_req (es_qp s0))) by (intros A f E; by rewrite R5, E).
  pose proof (Hreq _ req_state ltac:(done)) as Q1. pose proof (Hreq _ req_wqe_index ltac:(done)) as Q2.
  pose proof (Hreq _ req_psn ltac:(done)) as Q3.
  pose proof R1 as S. unfold stable in S. injection S as T1 T2 T3 T4 T5 T6 T7 T8 T9 T10 _ _ _ _ _ _ _.
  assert (Ha : a = sq_addr k s1 0).
  { assert (Hwf : queue_wf k (qp_sq (es_qp s1))) by apply B1. pose proof (wf_cons _ _ Hwf) as Hc.
    rewrite <- Had, <- Hix. unfold sq_addr, sq_index. rewrite Z.add_0_r.
    destruct R4 as [d R4]. unfold consumer_index at 1. rewrite Z.mod_small by exact Hc. by rewrite R4. }
  exists (wqe_iova w1). split; [|split; [exact Hz|split; [exact R2|split; [by rewrite T4|split; [by rewrite Q1|split; [exact Ha|by exists w1]]]]]].
  split.
  - apply (stable_sendable _ _ _ _ _ _ _ m m (retry_done s0)); try done;
      first [lia|rewrite Nat.sub_diag, Z.add_0_r; exact R3].
  - change (req_psn (qp_req (es_qp s1)) = (psn0 + Z.of_nat m) mod 2 ^ 24). rewrite Q3. exact Hps.
  - exact B6.
  - exists w1. split; [|split; [done|split; [by rewrite K4|split; [done|split; [exact B5|intros _; by rewrite K2, K3]]]]].
    rewrite Ha. by eapply (sq_slot k s1 _ 0).
Qed.

(** The elements behind the oldest after its packets were sent. *)
Lemma held_behind k s1 s' w1 ws w' :
  sq_list k s1 (w1 :: ws) → a = sq_addr k s1 0 → stored a (qp_sq (es_qp s1)) (qp_sq (es_qp s')) → slot s' a w' →
  queue_list (qp_sq (es_qp s')) = w' :: ws.
Proof using Type.
  intros [Hwf Hi Hl] -> [w2 E] Hs. unfold slot in Hs. rewrite E in Hs |- *.
  assert (Hj : (0 < length (queue_list (qp_sq (es_qp s1))))%nat) by (rewrite Hl; apply Nat.lt_0_succ).
  destruct (queue_at k (qp_sq (es_qp s1)) 0 w2 Hwf Hi Hj) as [He Hst].
  unfold sq_addr, sq_index, consumer_index in Hs |- *. rewrite Hst, Hl. cbn.
  rewrite elem_at_store_eq in Hs; [by injection Hs as ->|]. rewrite He, Hl. by eexists.
Qed.

(** C14: when the completer asks for a retry, the next calls of the requester
    send again exactly the packets of the oldest started send or write from the
    sequence number the completer expects to the last one, with the sequence
    numbers, opcodes and data they had the first time, whether the data are
    inline or scattered over registered memory; the element then waits again
    for the acknowledgement of its last packet. The elements behind it, up to the
    first that was not started, are back at their beginning and wait to be sent
    again, but for those that are done, which stay as they are. *)
Theorem requester_retry depth fuel k m w ws s :
  (m < n)%nat → asked k m w ws s →
  ∃ s' pkts w', requester_calls depth fuel (n - m) s = Some (Ok tt, s') ∧
    qp_send_pkts (es_qp s') = qp_send_pkts (es_qp s) ++ pkts ∧ length pkts = (n - m)%nat ∧
    (∀ j pkt, pkts !! j = Some pkt → carries q0 wr ops (wr_remote_addr wr) from psn0 data (m + j) pkt) ∧
    mjoin (payload_of <$> pkts) = drop (m * Z.to_nat mtu) data ∧ finished q0 wr psn0 idx a data s' ∧
    slot s' a w' ∧ queue_list (qp_sq (es_qp s')) = w' :: rewind_list ws.
Proof using Hbypass Hops Hmtu Htotal Hpsn0 Hcount.
  intros Hm Has. pose proof Has as [_ _ _ _ _ _ _ Hrt _ [Hv Hrs _ _ _ _ _ _ _ _ _ _]].
  destruct (wp_total _ _ _ (asked_midway k m w ws s Hm Has)) as ([] & s1 & E & iova & Hmw & Hz & Hp & Hv1 & Hr1 & Ha & w1 & Hl1).
  destruct (wp_total _ _ _ (requester_tail Hbypass q0 wr ops iova from psn0 idx a data Hops Hmtu Htotal Hpsn0
    depth fuel (n - m) m (retry_done s1) eq_refl Hm Hmw)) as (r & s' & E' & -> & Hf & Hh & pkts & Hp' & Hl & Hc & Hd).
  pose proof (fi_wqe _ _ _ _ _ _ _ Hf) as (w' & Hw' & _).
  exists s', pkts, w'. split; [|split; [rewrite Hp'; by rewrite <- Hp|split; [done|split; [|split; [done|split; [done|split; [done|]]]]]]].
  - destruct (n - m)%nat as [|c] eqn:Hc'; [lia|]. cbn [requester_calls] in *. unfold mbind, eng_bind in *.
    by rewrite (requester_after_retry depth fuel s s1).
  - intros j pkt Hj. specialize (Hc j pkt Hj). destruct (decide (m + j = 0)%nat) as [Hmj|Hmj].
    + rewrite (Hz ltac:(lia)) in Hc. done.
    + eapply carries_iova; [|done|exact Hc]. apply lookup_lt_Some in Hj. lia.
  - by eapply (held_behind k s1 s' w1); [..|apply Hh|].
Qed.
End resend.

(** The write of the example, twice, sent and not acknowledged: the second packet of
    the first is asked for again. *)
Definition example_pending : rxe_send_wqe :=
  example_send IB_WR_RDMA_WRITE 0 wqe_state_pending 0 0xffffff 0
    (example_dma <| dma_resid := 0 |> <| dma_cur_sge := 2 |> <| dma_sge_offset := 4 |>).

Definition example_retry : eng_state :=
  example_es (example_qp (example_sq 0 2 (replicate 4 example_pending)) [] 1 0 <| qp_mtu_bytes := 4 |>
    <| qp_req ::= λ r, r <| req_need_retry := true |> <| req_wqe_index := 2 |> |>).

Lemma requester_retry_witness :
  ∃ s' pkts, requester_calls (H := example_params) 0 0 1 example_retry = Some (Ok tt, s') ∧
    length pkts = 1%nat ∧ mjoin (payload_of <$> pkts) = mread example_phys <$> [202; 203] ∧
    (∃ pkt, pkts !! 0%nat = Some pkt ∧ bth_psn pkt = 0 ∧ bth_opcode pkt = IB_OPCODE_RC_RDMA_WRITE_LAST) ∧
    (∃ w', queue_list (qp_sq (es_qp s')) = [w'; rewound example_pending <| wqe_st := wqe_state_posted |>]).
Proof.
  destruct (requester_retry (H := example_params) eq_refl example_writer (wqe_ibwr example_write)
    (IB_OPCODE_RC_RDMA_WRITE_FIRST, IB_OPCODE_RC_RDMA_WRITE_MIDDLE, IB_OPCODE_RC_RDMA_WRITE_LAST,
     IB_OPCODE_RC_RDMA_WRITE_ONLY) (Sender 0xffff 0x11 0x33) 0xffffff 0 0
    (mread example_phys <$> [101; 102; 200; 201; 202; 203]) eq_refl) with (depth := 0%nat) (fuel := 0%nat)
    (k := 2) (m := 1%nat) (w := example_pending) (ws := [example_pending]) (s := example_retry)
    as (s' & pkts & w' & E & _ & Hl & Hc & Hd & _ & _ & Hq); [done..|vm_compute; lia| |].
  - split; try reflexivity; try done.
    + by right.
    + repeat constructor; cbn; lia.
    + split; [reflexivity|]. split; [done|]. split; [apply example_refs_pos|].
      exists [101; 102; 200; 201; 202; 203]. split; [apply example_stream; by left|reflexivity].
    + split; try reflexivity; try done; [by left|split; eexists _, _; done|].
      intros [|[|j]] Hj; [lia|vm_compute; discriminate|]. change (packets _ _) with 2%nat in Hj. lia.
  - exists s', pkts. split; [exact E|]. split; [exact Hl|]. split; [exact Hd|].
    split; [|exists w'; exact Hq]. destruct (pkts !! 0%nat) as [pkt|] eqn:Hp;
      [|apply lookup_ge_None in Hp; change (packets _ _) with 2%nat in Hl; lia].
    exists pkt. split; [done|]. destruct (Hc _ _ Hp) as (Ho & Hpsn & _). split; [exact Hpsn|exact Ho].
Defined.
