(* ===== verification/Resp.v ===== *)
(** * The responder (rxe_resp.c)

    The task function that takes the request packets of a queue pair in order,
    checks and executes them, completes receive work requests and answers with
    acknowledgements and read responses. The loop visits the states of
    [enum resp_states]; every state is one definition. *)

From stdpp Require Import gmap.
From S2P Require Import Prelude Bits Queue Opcode Hdr Verbs Icrc Mr Cq State Comp Arbiter Req.

Inductive resp_states : Type :=
  | RESPST_NONE | RESPST_GET_REQ | RESPST_CHK_PSN | RESPST_CHK_OP_SEQ | RESPST_CHK_OP_VALID
  | RESPST_CHK_RESOURCE | RESPST_CHK_LENGTH | RESPST_CHK_RKEY | RESPST_EXECUTE
  | RESPST_READ_REPLY | RESPST_COMPLETE | RESPST_ACKNOWLEDGE | RESPST_CLEANUP
  | RESPST_DUPLICATE_REQUEST | RESPST_ERR_MALFORMED_WQE | RESPST_ERR_UNSUPPORTED_OPCODE
  | RESPST_ERR_MISALIGNED_ATOMIC | RESPST_ERR_PSN_OUT_OF_SEQ | RESPST_ERR_MISSING_OPCODE_FIRST
  | RESPST_ERR_MISSING_OPCODE_LAST_C | RESPST_ERR_MISSING_OPCODE_LAST_D1E
  | RESPST_ERR_TOO_MANY_RDMA_ATM_REQ | RESPST_ERR_RNR | RESPST_ERR_RKEY_VIOLATION
  | RESPST_ERR_LENGTH | RESPST_ERR_CQ_OVERFLOW | RESPST_ERROR | RESPST_RESET | RESPST_DONE
  | RESPST_EXIT.

#[export] Instance resp_states_eq_dec : EqDecision resp_states.
Proof. solve_decision. Defined.

#[export] Instance rxe_pkt_info_eq_dec : EqDecision rxe_pkt_info.
Proof. solve_decision. Defined.

Section responder.
Context `{Params}.

(** ** Objects the responder reaches *)

(** [n] bytes of a packet; reading past its end is a wild access. *)
Definition pkt_read (pkt : rxe_pkt_info) (o n : Z) : eng (list Z) :=
  if o + n >? Z.of_nat (length (pkt_hdr pkt)) then wild else mret (pkt_bytes pkt o n).

(** The receive work queue element [qp->resp.wqe] points to. *)
Definition recv_wqe (p : rwqe_ptr) : eng rxe_recv_wqe :=
  q ← get_qp;
  match p with
  | rwqe_srq => mret (resp_srq_wqe (qp_resp q))
  | rwqe_rq a => rq ← deref (qp_rq q); deref (elem_at rq a)
  end.

Definition upd_recv_wqe (p : rwqe_ptr) (f : rxe_recv_wqe → rxe_recv_wqe) : eng unit :=
  w ← recv_wqe p;
  match p with
  | rwqe_srq => mod_resp (λ r, r <| resp_srq_wqe := f w |>)
  | rwqe_rq a => mod_qp (λ q, q <| qp_rq ::= option_map (λ rq, store_at rq a (f w)) |>)
  end.

(** A responder resource, by its index. *)
Definition get_res (i : nat) : eng resp_res :=
  q ← get_qp; l ← deref (resp_resources (qp_resp q)); deref (l !! i).

Definition upd_res (i : nat) (f : resp_res → resp_res) : eng unit :=
  mod_resp (λ r, r <| resp_resources ::= option_map (alter f i) |>).

(** [rxe_mem_copy] on a region the code holds a reference to. *)
Definition eng_mem_copy (h : mem_handle) (iova : Z) (addr : list Z) (length : Z)
    (dir : copy_direction) : eng (list Z * result unit) :=
  m ← mem_get h; dev ← get_dev;
  '(phys, bytes, _, r) ← deref (rxe_mem_copy m iova (dev_phys (rdev_mem dev)) addr length dir None);
  mod_dev (λ d, d <| rdev_mem ::= λ md, md <| dev_phys := phys |> |>);;
  mret (bytes, r).

(** A request packet is freed. *)
Definition free_req_pkt (skb : rxe_pkt_info) : eng unit :=
  qp_drop_ref;;
  emit (EvFree skb);;
  mod_qp (λ q, q <| qp_req_skb_in ::= (λ n, n - 1) |>);;
  mod_dev (λ d, d <| rdev_req_skb_in ::= (λ n, n - 1) |>).

Definition rxe_resp_queue_pkt (pkt : rxe_pkt_info) : eng unit :=
  mod_qp (λ q, q <| qp_req_skb_in ::= (λ n, n + 1) |>);;
  mod_dev (λ d, d <| rdev_req_skb_in ::= (λ n, n + 1) |>);;
  mod_qp (λ q, q <| qp_req_pkts ::= (λ l, l ++ [pkt]) |>);;
  q ← get_qp;
  rxe_run_task task_resp ((pkt_opcode pkt =? IB_OPCODE_RC_RDMA_READ_REQUEST)
                          || bool_decide (1 < length (qp_req_pkts q))%nat).

(** ** The checks *)

(** The packet is the one peeked at, or none. *)
Definition get_req : eng (resp_states * option rxe_pkt_info) :=
  q ← get_qp;
  if bool_decide (resp_state (qp_resp q) = QP_STATE_ERROR) then
    skb ← dequeue_req_pkt;
    match skb with
    | Some skb => free_req_pkt skb;; mret (RESPST_GET_REQ, None)
    | None => mret (RESPST_CHK_RESOURCE, None)
    end
  else
    match qp_req_pkts q with
    | [] => mret (RESPST_EXIT, None)
    | pkt :: _ =>
        mret (match resp_cur_res (qp_resp q) with
              | Some _ => RESPST_READ_REPLY
              | None => RESPST_CHK_PSN
              end, Some pkt)
    end.

Definition check_psn (pkt : rxe_pkt_info) : eng resp_states :=
  q ← get_qp;
  let diff := psn_compare (pkt_psn pkt) (resp_psn (qp_resp q)) in
  if qp_type q =? IB_QPT_RC then
    if diff >? 0 then
      if resp_sent_psn_nak (qp_resp q) then mret RESPST_CLEANUP
      else mod_resp (λ r, r <| resp_sent_psn_nak := true |>);; mret RESPST_ERR_PSN_OUT_OF_SEQ
    else if diff <? 0 then mret RESPST_DUPLICATE_REQUEST
    else
      when (resp_sent_psn_nak (qp_resp q)) (mod_resp (λ r, r <| resp_sent_psn_nak := false |>));;
      mret RESPST_CHK_OP_SEQ
  else if qp_type q =? IB_QPT_UC then
    if resp_drop_msg (qp_resp q) || negb (diff =? 0) then
      if flag_set (pkt_mask pkt) RXE_START_MASK then
        mod_resp (λ r, r <| resp_drop_msg := false |>);; mret RESPST_CHK_OP_SEQ
      else mod_resp (λ r, r <| resp_drop_msg := true |>);; mret RESPST_CLEANUP
    else mret RESPST_CHK_OP_SEQ
  else mret RESPST_CHK_OP_SEQ.

(** [prev] is [qp->resp.opcode]. *)
Definition check_op_seq_rc (prev opcode : Z) : resp_states :=
  if one_of prev [IB_OPCODE_RC_SEND_FIRST; IB_OPCODE_RC_SEND_MIDDLE] then
    if one_of opcode [IB_OPCODE_RC_SEND_MIDDLE; IB_OPCODE_RC_SEND_LAST;
                      IB_OPCODE_RC_SEND_LAST_WITH_IMMEDIATE; IB_OPCODE_RC_SEND_LAST_INV]
    then RESPST_CHK_OP_VALID else RESPST_ERR_MISSING_OPCODE_LAST_C
  else if one_of prev [IB_OPCODE_RC_RDMA_WRITE_FIRST; IB_OPCODE_RC_RDMA_WRITE_MIDDLE] then
    if one_of opcode [IB_OPCODE_RC_RDMA_WRITE_MIDDLE; IB_OPCODE_RC_RDMA_WRITE_LAST;
                      IB_OPCODE_RC_RDMA_WRITE_LAST_WITH_IMMEDIATE]
    then RESPST_CHK_OP_VALID else RESPST_ERR_MISSING_OPCODE_LAST_C
  else
    if one_of opcode [IB_OPCODE_RC_SEND_MIDDLE; IB_OPCODE_RC_SEND_LAST;
                      IB_OPCODE_RC_SEND_LAST_WITH_IMMEDIATE; IB_OPCODE_RC_SEND_LAST_INV;
                      IB_OPCODE_RC_RDMA_WRITE_MIDDLE; IB_OPCODE_RC_RDMA_WRITE_LAST;
                      IB_OPCODE_RC_RDMA_WRITE_LAST_WITH_IMMEDIATE]
    then RESPST_ERR_MISSING_OPCODE_FIRST else RESPST_CHK_OP_VALID.

Definition check_op_seq_uc (prev opcode : Z) : resp_states :=
  if one_of prev [IB_OPCODE_UC_SEND_FIRST; IB_OPCODE_UC_SEND_MIDDLE] then
    if one_of opcode [IB_OPCODE_UC_SEND_MIDDLE; IB_OPCODE_UC_SEND_LAST;
                      IB_OPCODE_UC_SEND_LAST_WITH_IMMEDIATE]
    then RESPST_CHK_OP_VALID else RESPST_ERR_MISSING_OPCODE_LAST_D1E
  else if one_of prev [IB_OPCODE_UC_RDMA_WRITE_FIRST; IB_OPCODE_UC_RDMA_WRITE_MIDDLE] then
    if one_of opcode [IB_OPCODE_UC_RDMA_WRITE_MIDDLE; IB_OPCODE_UC_RDMA_WRITE_LAST;
                      IB_OPCODE_UC_RDMA_WRITE_LAST_WITH_IMMEDIATE]
    then RESPST_CHK_OP_VALID else RESPST_ERR_MISSING_OPCODE_LAST_D1E
  else
    if one_of opcode [IB_OPCODE_UC_SEND_MIDDLE; IB_OPCODE_UC_SEND_LAST;
                      IB_OPCODE_UC_SEND_LAST_WITH_IMMEDIATE; IB_OPCODE_UC_RDMA_WRITE_MIDDLE;
                      IB_OPCODE_UC_RDMA_WRITE_LAST; IB_OPCODE_UC_RDMA_WRITE_LAST_WITH_IMMEDIATE]
    then RESPST_CLEANUP else RESPST_CHK_OP_VALID.

(** A UC packet out of place drops the rest of its message. *)
Definition check_op_seq (pkt : rxe_pkt_info) : eng resp_states :=
  q ← get_qp;
  let prev := resp_opcode (qp_resp q) in
  if qp_type q =? IB_QPT_RC then mret (check_op_seq_rc prev (pkt_opcode pkt))
  else if qp_type q =? IB_QPT_UC then
    let st := check_op_seq_uc prev (pkt_opcode pkt) in
    when (bool_decide (st = RESPST_CLEANUP)) (mod_resp (λ r, r <| resp_drop_msg := true |>));;
    mret st
  else mret RESPST_CHK_OP_VALID.

Definition check_op_valid (pkt : rxe_pkt_info) : eng resp_states :=
  q ← get_qp;
  let has m := flag_set (pkt_mask pkt) m in
  let access m := flag_set (qa_qp_access_flags (qp_attr q)) m in
  if qp_type q =? IB_QPT_RC then
    if (has RXE_READ_MASK && negb (access IB_ACCESS_REMOTE_READ))
       || (has RXE_WRITE_MASK && negb (access IB_ACCESS_REMOTE_WRITE))
       || (has RXE_ATOMIC_MASK && negb (access IB_ACCESS_REMOTE_ATOMIC))
    then mret RESPST_ERR_UNSUPPORTED_OPCODE
    else if pkt_mask pkt =? 0 then mret RESPST_ERR_UNSUPPORTED_OPCODE
    else mret RESPST_CHK_RESOURCE
  else if qp_type q =? IB_QPT_UC then
    if (has RXE_WRITE_MASK && negb (access IB_ACCESS_REMOTE_WRITE)) || (pkt_mask pkt =? 0) then
      mod_resp (λ r, r <| resp_drop_msg := true |>);; mret RESPST_CLEANUP
    else mret RESPST_CHK_RESOURCE
  else if one_of (qp_type q) [IB_QPT_UD; IB_QPT_SMI; IB_QPT_GSI] then
    mret (if pkt_mask pkt =? 0 then RESPST_CLEANUP else RESPST_CHK_RESOURCE)
  else mret RESPST_CHK_RESOURCE.

(** ** Receive work queue elements *)

Definition get_srq_wqe (id : Z) : eng resp_states :=
  dev ← get_dev;
  srq ← deref (rdev_srqs dev !! id);
  if srq_error srq then mret RESPST_ERR_RNR
  else match queue_head (srq_queue srq) with
  | None => mret RESPST_ERR_RNR
  | Some a =>
      wqe ← deref (elem_at (srq_queue srq) a);
      mod_resp (λ r, r <| resp_srq_wqe := wqe |> <| resp_wqe := Some rwqe_srq |>);;
      let srq := srq <| srq_queue ::= advance_consumer |> in
      if negb (srq_limit srq =? 0) && srq_has_event_handler srq
         && (queue_count (srq_queue srq) <? srq_limit srq) then
        mod_dev (λ d, d <| rdev_srqs ::= <[id := srq <| srq_limit := 0 |>]> |>);;
        emit EvSrqLimit;;
        mret RESPST_CHK_LENGTH
      else
        mod_dev (λ d, d <| rdev_srqs ::= <[id := srq]> |>);;
        mret RESPST_CHK_LENGTH
  end.

(** [qp->resp.wqe = queue_head(qp->rq.queue)]; the result says whether there
    is an element. *)
Definition head_rq : eng bool :=
  q ← get_qp;
  rq ← deref (qp_rq q);
  mod_resp (λ r, r <| resp_wqe := rwqe_rq <$> queue_head rq |>);;
  mret (bool_decide (is_Some (queue_head rq))).

(** A queue pair in the error state flushes its receive queue; it has no
    packet. *)
Definition check_resource (pkt : option rxe_pkt_info) : eng resp_states :=
  q ← get_qp;
  if bool_decide (resp_state (qp_resp q) = QP_STATE_ERROR) then
    match resp_wqe (qp_resp q), qp_srq q with
    | Some _, _ =>
        mod_resp (λ r, r <| resp_status := IB_WC_WR_FLUSH_ERR |>);; mret RESPST_COMPLETE
    | None, None =>
        found ← head_rq;
        if found : bool then
          mod_resp (λ r, r <| resp_status := IB_WC_WR_FLUSH_ERR |>);; mret RESPST_COMPLETE
        else mret RESPST_EXIT
    | None, Some _ => mret RESPST_EXIT
    end
  else
    pkt ← deref pkt;
    if flag_set (pkt_mask pkt) RXE_READ_OR_ATOMIC then
      mret (if qa_max_rd_atomic (qp_attr q) >? 0 then RESPST_CHK_LENGTH
            else RESPST_ERR_TOO_MANY_RDMA_ATM_REQ)
    else if flag_set (pkt_mask pkt) RXE_RWR_MASK then
      match qp_srq q with
      | Some id => get_srq_wqe id
      | None => found ← head_rq; mret (if found : bool then RESPST_CHK_LENGTH else RESPST_ERR_RNR)
      end
    else mret RESPST_CHK_LENGTH.

Definition check_length (pkt : rxe_pkt_info) : eng resp_states := mret RESPST_CHK_RKEY.

(** ** The remote key *)

(** Whether the length and the padding of a write packet fit the [resid]
    bytes that are left of its message. *)
Definition write_length_ok (pkt : rxe_pkt_info) (resid mtu : Z) : bool :=
  let pktlen := u32 (payload_size pkt) in
  if resid >? mtu then (pktlen =? mtu) && (bth_pad pkt =? 0)
  else (pktlen =? resid) && (bth_pad pkt =? 0x3 .& u32 (- resid)).

(** The part of [check_rkey] from the lookup of the region on. *)
Definition check_rkey_mem (pkt : rxe_pkt_info) (access : Z) : eng resp_states :=
  q ← get_qp; dev ← get_dev;
  let r := qp_resp q in
  let '(md, found) := lookup_mem (rdev_mem dev) (qp_pd q) access (resp_rkey r) lookup_remote in
  mod_dev (λ d, d <| rdev_mem := md |>);;
  match found with
  | None => mret RESPST_ERR_RKEY_VIOLATION
  | Some (h, mem) =>
      match mem_check_range mem (resp_va r) (resp_resid r) with
      | Err _ => mem_unref h;; mret RESPST_ERR_RKEY_VIOLATION
      | Ok _ =>
          if flag_set (pkt_mask pkt) RXE_WRITE_MASK
             && negb (write_length_ok pkt (resp_resid r) (qp_mtu_bytes q))
          then mem_unref h;; mret RESPST_ERR_LENGTH
          else mod_resp (λ r, r <| resp_mr := Some h |>);; mret RESPST_EXECUTE
      end
  end.

Definition check_rkey (pkt : rxe_pkt_info) : eng resp_states :=
  let has m := flag_set (pkt_mask pkt) m in
  if has (RXE_READ_MASK .| RXE_WRITE_MASK) then
    when (has RXE_RETH_MASK)
      (mod_resp (λ r, r <| resp_va := reth_va pkt |> <| resp_rkey := reth_rkey pkt |>
                        <| resp_resid := reth_len pkt |>));;
    check_rkey_mem pkt (if has RXE_READ_MASK then IB_ACCESS_REMOTE_READ else IB_ACCESS_REMOTE_WRITE)
  else if has RXE_ATOMIC_MASK then
    mod_resp (λ r, r <| resp_va := atmeth_va pkt |> <| resp_rkey := atmeth_rkey pkt |>
                      <| resp_resid := 8 |>);;
    check_rkey_mem pkt IB_ACCESS_REMOTE_ATOMIC
  else mret RESPST_EXECUTE.

(** ** Execution *)

(** The [n] bytes of the packet at [o] go where the receive element says. *)
Definition send_data_in (pkt : rxe_pkt_info) (o data_len : Z) : eng resp_states :=
  q ← get_qp;
  p ← deref (resp_wqe (qp_resp q));
  w ← recv_wqe p;
  bytes ← pkt_read pkt o data_len;
  '(dma, _, _, r) ← eng_copy_data IB_ACCESS_LOCAL_WRITE (rwqe_dma w) bytes data_len direction_in None;
  upd_recv_wqe p (λ w, w <| rwqe_dma := dma |>);;
  mret (match r with
        | Ok _ => RESPST_NONE
        | Err e => if bool_decide (e = ENOSPC) then RESPST_ERR_LENGTH else RESPST_ERR_MALFORMED_WQE
        end).

Definition write_data_in (pkt : rxe_pkt_info) : eng resp_states :=
  let data_len := s32 (payload_size pkt) in
  q ← get_qp;
  h ← deref (resp_mr (qp_resp q));
  bytes ← pkt_read pkt (payload_addr pkt) data_len;
  '(_, r) ← eng_mem_copy h (resp_va (qp_resp q)) bytes data_len direction_in;
  match r with
  | Err _ => mret RESPST_ERR_RKEY_VIOLATION
  | Ok _ =>
      mod_resp (λ r, r <| resp_va ::= (λ n, u64 (n + data_len)) |>
                        <| resp_resid ::= (λ n, u32 (n - data_len)) |>);;
      mret RESPST_NONE
  end.

(** A 64-bit word of memory, in the byte order of the machine. *)
Definition read_u64 (phys : memory) (va : Z) : Z :=
  foldr (λ b acc, b + 256 * acc) 0 (mread phys <$> seqZ va 8).
Definition write_u64 (phys : memory) (va v : Z) : memory :=
  mwrite phys (seqZ va 8) (u64_bytes v).

(** The value an atomic operation leaves in place of [old]. *)
Definition atomic_result (pkt : rxe_pkt_info) (old : Z) : Z :=
  if one_of (pkt_opcode pkt) [IB_OPCODE_RC_COMPARE_SWAP; IB_OPCODE_RD_COMPARE_SWAP] then
    if old =? atmeth_comp pkt then atmeth_swap_add pkt else old
  else u64 (old + atmeth_swap_add pkt).

Definition process_atomic (pkt : rxe_pkt_info) : eng resp_states :=
  q ← get_qp;
  h ← deref (resp_mr (qp_resp q));
  mr ← mem_get h;
  if negb (bool_decide (mem_state mr = RXE_MEM_STATE_VALID)) then mret RESPST_ERR_RKEY_VIOLATION
  else
    vaddr ← deref (iova_to_vaddr mr (atmeth_va pkt) 8);
    match vaddr with
    | None => mret RESPST_ERR_MISALIGNED_ATOMIC
    | Some va =>
        if (va =? 0) || negb (va .& 7 =? 0) then mret RESPST_ERR_MISALIGNED_ATOMIC
        else
          dev ← get_dev;
          let old := read_u64 (dev_phys (rdev_mem dev)) va in
          mod_resp (λ r, r <| resp_atomic_orig := old |>);;
          mod_dev (λ d, d <| rdev_mem ::= λ md,
            md <| dev_phys ::= λ p, write_u64 p va (atomic_result pkt old) |> |>);;
          mret RESPST_NONE
    end.

(** ** Answers *)

(** The link headers of an answer are those of the request with the
    addresses exchanged. *)
Definition ack_link (ack pkt : rxe_pkt_info) (paylen : Z) : rxe_pkt_info :=
  let ack := if_hdr ack RXE_LRH_MASK (λ ack, ack <| pkt_hdr ::= λ h,
    __lrh_set_slid (__lrh_set_dlid h 0 (__lrh_slid (pkt_hdr pkt) 0)) 0 (__lrh_dlid (pkt_hdr pkt) 0) |>) in
  if_hdr ack RXE_GRH_MASK (λ ack,
    let ack := grh_set_paylen ack paylen in
    let ack := grh_set_dgid ack (load_be64 (pkt_hdr pkt) (grh_sgid pkt))
                 (load_be64 (pkt_hdr pkt) (grh_sgid pkt + 8)) in
    grh_set_sgid ack (load_be64 (pkt_hdr pkt) (grh_dgid pkt))
      (load_be64 (pkt_hdr pkt) (grh_dgid pkt + 8))).

(** The transport headers of an answer. *)
Definition ack_transport (ack : rxe_pkt_info) (q : rxe_qp) (opcode pad psn syndrome : Z)
    : rxe_pkt_info :=
  let ack := bth_set_opcode ack opcode in
  let ack := bth_set_qpn ack (qa_dest_qp_num (qp_attr q)) in
  let ack := bth_set_pad ack pad in
  let ack := bth_set_se ack 0 in
  let ack := bth_set_psn ack psn in
  let ack := ack <| pkt_psn := psn |> in
  let ack := if_hdr ack RXE_AETH_MASK (λ ack,
    aeth_set_msn (aeth_set_syn ack syndrome) (resp_msn (qp_resp q))) in
  if_hdr ack RXE_ATMACK_MASK (λ ack, atmack_set_orig ack (resp_atomic_orig (qp_resp q))).

Definition prepare_ack_packet (pkt : rxe_pkt_info) (opcode payload psn syndrome : Z)
    : eng (option rxe_pkt_info) :=
  q ← get_qp;
  let pad := pad_bytes payload in
  let paylen := opcode_length opcode + payload + pad + RXE_ICRC_SIZE in
  skb ← init_packet (qp_pri_av q) paylen;
  match skb with
  | None => mret None
  | Some ack =>
      mod_qp (λ q, q <| qp_resp_skb_out ::= (λ n, n + 1) |>);;
      mod_dev (λ d, d <| rdev_resp_skb_out ::= (λ n, n + 1) |>);;
      let ack := ack <| pkt_opcode := opcode |> <| pkt_mask ::= (λ m, m .| opcode_mask opcode) |>
                     <| pkt_offset := pkt_offset pkt |> <| pkt_paylen := u16 paylen |> in
      let n := pkt_offset pkt + RXE_BTH_BYTES in
      if n >? Z.of_nat (length (pkt_hdr ack)) then wild
      else
        hdr ← pkt_read pkt 0 n;
        let ack := ack <| pkt_hdr ::= (λ h, put_bytes h 0 hdr) |> in
        mret (Some (ack_transport (ack_link ack pkt paylen) q opcode pad psn syndrome))
  end.

(** The CRC of an acknowledgement, a 32-bit store. *)
Definition ack_crc (ack : rxe_pkt_info) : rxe_pkt_info :=
  if rxe_crc_disable then ack
  else ack <| pkt_hdr ::= (λ h, put_bytes h (payload_addr ack) (take 4 (u64_bytes (rxe_icrc_pkt ack)))) |>.

Definition send_ack (pkt : rxe_pkt_info) (syndrome psn : Z) : eng (result unit) :=
  skb ← prepare_ack_packet pkt IB_OPCODE_RC_ACKNOWLEDGE 0 psn (u8 syndrome);
  match skb with
  | None => mret (Err ENOMEM)
  | Some ack => send_packet (ack_crc ack);; mret (Ok tt)
  end.

(** *** Responder resources *)

Definition free_rd_atomic_resource (i : nat) : eng unit :=
  res ← get_res i;
  (if res_type res =? RXE_ATOMIC_MASK then
     qp_drop_ref;;
     match res_ptr res with
     | res_skb skb => emit (EvFree skb)
     | _ => wild
     end;;
     mod_dev (λ d, d <| rdev_resp_skb_out ::= (λ n, n - 1) |>)
   else when (res_type res =? RXE_READ_MASK)
     (match res_ptr res with
      | res_mr h => mem_unref h
      | res_null => mret tt
      | res_skb _ => wild
      end));;
  upd_res i (λ r, r <| res_type := 0 |>).

Definition rxe_advance_resp_resource : eng unit :=
  q ← get_qp;
  let head := u32 (resp_res_head (qp_resp q) + 1) in
  mod_resp (λ r, r <| resp_res_head := if head =? qa_max_rd_atomic (qp_attr q) then 0 else head |>).

(** The resource at the head of the circular list, emptied for reuse. *)
Definition take_resource : eng nat :=
  q ← get_qp;
  let i := Z.to_nat (resp_res_head (qp_resp q)) in
  free_rd_atomic_resource i;;
  rxe_advance_resp_resource;;
  mret i.

(** An answer that is kept for retries; what is sent is a clone, which shares
    its buffer. A clone that could not be made is a null pointer. *)
Definition send_clone (skb : rxe_pkt_info) : eng unit :=
  ok ← next_alloc;
  if ok : bool then
    qp_add_ref;;
    mod_qp (λ q, q <| qp_resp_skb_out ::= (λ n, n + 1) |>);;
    mod_dev (λ d, d <| rdev_resp_skb_out ::= (λ n, n + 1) |>);;
    send_packet skb
  else wild.

Definition send_atomic_ack (pkt : rxe_pkt_info) (syndrome : Z) : eng (result unit) :=
  skb ← prepare_ack_packet pkt IB_OPCODE_RC_ATOMIC_ACKNOWLEDGE 0 (pkt_psn pkt) (u8 syndrome);
  match skb with
  | None => mret (Err ENOMEM)
  | Some ack =>
      let skb := ack_crc ack in
      i ← take_resource;
      q ← get_qp;
      let psn := resp_psn (qp_resp q) in
      upd_res i (λ r, r <| res_type := RXE_ATOMIC_MASK |> <| res_ptr := res_skb skb |>
                        <| res_first_psn := psn |> <| res_last_psn := psn |> <| res_cur_psn := psn |>);;
      send_clone skb;;
      mret (Ok tt)
  end.

Definition acknowledge (pkt : rxe_pkt_info) : eng resp_states :=
  q ← get_qp;
  if negb (qp_type q =? IB_QPT_RC) then mret RESPST_CLEANUP
  else
    let syndrome := resp_aeth_syndrome (qp_resp q) in
    (if negb (syndrome =? AETH_ACK_UNLIMITED) then send_ack pkt syndrome (pkt_psn pkt);; mret tt
     else if flag_set (pkt_mask pkt) RXE_ATOMIC_MASK then
       send_atomic_ack pkt AETH_ACK_UNLIMITED;; mret tt
     else when (negb (bth_ack pkt =? 0)) (send_ack pkt AETH_ACK_UNLIMITED (pkt_psn pkt);; mret tt));;
    mret RESPST_CLEANUP.

(** *** RDMA read *)

(** The first time a read is answered: the resource that tracks it, which
    takes over the reference to the region. *)
Definition new_read_res (req_pkt : rxe_pkt_info) : eng nat :=
  i ← take_resource;
  q ← get_qp;
  let r := qp_resp q in
  let mtu := qp_mtu_bytes q in
  upd_res i (λ res, res
    <| res_type := RXE_READ_MASK |>
    <| res_va := resp_va r |> <| res_va_org := resp_va r |>
    <| res_first_psn := pkt_psn req_pkt |>
    <| res_last_psn := u32 (pkt_psn req_pkt + u32 (reth_len req_pkt + mtu - 1) / mtu - 1) |>
    <| res_cur_psn := pkt_psn req_pkt |>
    <| res_resid := resp_resid r |> <| res_length := resp_resid r |> <| res_rkey := resp_rkey r |>
    <| res_ptr := match resp_mr r with Some h => res_mr h | None => res_null end |>
    <| res_state := rdatm_res_state_new |>);;
  mod_resp (λ r, r <| resp_mr := None |> <| resp_cur_res := Some i |>);;
  mret i.

Definition read_opcode (res : resp_res) (mtu : Z) : Z :=
  if bool_decide (res_state res = rdatm_res_state_new) then
    if res_resid res <=? mtu then IB_OPCODE_RC_RDMA_READ_RESPONSE_ONLY
    else IB_OPCODE_RC_RDMA_READ_RESPONSE_FIRST
  else
    if res_resid res >? mtu then IB_OPCODE_RC_RDMA_READ_RESPONSE_MIDDLE
    else IB_OPCODE_RC_RDMA_READ_RESPONSE_LAST.

(** The payload, its padding, and the low byte of the CRC: [buf] points to
    bytes. A failed copy leaves the buffer as it was. *)
Definition fill_read_packet (pkt : rxe_pkt_info) (bytes : list Z) (payload : Z) : rxe_pkt_info :=
  let o := payload_addr pkt in
  let pkt := pkt <| pkt_hdr ::= (λ h, put_bytes h o bytes) |> in
  let pad := pad_bytes payload in
  let pkt := pkt <| pkt_hdr ::= (λ h, put_bytes h (o + payload) (replicate (Z.to_nat pad) 0)) |> in
  if rxe_crc_disable then pkt
  else pkt <| pkt_hdr ::= (λ h, store_u8 h (o + payload + pad) (u8 (rxe_icrc_pkt pkt))) |>.

Definition read_reply (req_pkt : rxe_pkt_info) : eng resp_states :=
  q ← get_qp;
  let mtu := qp_mtu_bytes q in
  i ← match resp_cur_res (qp_resp q) with
      | Some i => mret i
      | None => new_read_res req_pkt
      end;
  res ← get_res i;
  let opcode := read_opcode res mtu in
  upd_res i (λ res, res <| res_state := rdatm_res_state_next |>);;
  let payload := Z.min (s32 (res_resid res)) mtu in
  if payload <? 0 then wild
  else
    skb ← prepare_ack_packet req_pkt opcode payload (res_cur_psn res) AETH_ACK_UNLIMITED;
    match skb with
    | None => mret RESPST_ERR_RNR
    | Some pkt =>
        h ← match res_ptr res with res_mr h => mret h | _ => wild end;
        '(bytes, _) ← eng_mem_copy h (res_va res) (pkt_bytes pkt (payload_addr pkt) payload) payload
                        direction_out;
        upd_res i (λ res, res <| res_va ::= (λ n, u64 (n + payload)) |>
                              <| res_resid ::= (λ n, u32 (n - payload)) |>
                              <| res_cur_psn ::= (λ n, u32 (n + 1) .& BTH_PSN_MASK) |>);;
        send_packet (fill_read_packet pkt bytes payload);;
        res ← get_res i;
        if res_resid res >? 0 then mret RESPST_DONE
        else
          mod_resp (λ r, r <| resp_cur_res := None |> <| resp_opcode := -1 |>
                            <| resp_psn := res_cur_psn res |>);;
          mret RESPST_CLEANUP
    end.

(** *** A new request *)

Definition execute_op (pkt : rxe_pkt_info) : eng resp_states :=
  q ← get_qp;
  let has m := flag_set (pkt_mask pkt) m in
  if has RXE_SEND_MASK then
    err ← (if one_of (qp_type q) [IB_QPT_UD; IB_QPT_SMI; IB_QPT_GSI]
           then send_data_in pkt 0 RXE_GRH_BYTES else mret RESPST_NONE);
    if bool_decide (err = RESPST_NONE)
    then send_data_in pkt (payload_addr pkt) (s32 (payload_size pkt)) else mret err
  else if has RXE_WRITE_MASK then write_data_in pkt
  else if has RXE_READ_MASK then
    mod_resp (λ r, r <| resp_msn ::= (λ n, u32 (n + 1)) |>);; mret RESPST_READ_REPLY
  else if has RXE_ATOMIC_MASK then process_atomic pkt
  else mret RESPST_NONE.

Definition execute (pkt : rxe_pkt_info) : eng resp_states :=
  err ← execute_op pkt;
  if negb (bool_decide (err = RESPST_NONE)) then mret err
  else
    mod_resp (λ r, r <| resp_msn ::= (λ n, u32 (n + 1)) |>
                      <| resp_psn := u32 (pkt_psn pkt + 1) .& BTH_PSN_MASK |>
                      <| resp_opcode := pkt_opcode pkt |> <| resp_status := IB_WC_SUCCESS |>);;
    q ← get_qp;
    mret (if flag_set (pkt_mask pkt) RXE_COMP_MASK then RESPST_COMPLETE
          else if qp_type q =? IB_QPT_RC then RESPST_ACKNOWLEDGE else RESPST_CLEANUP).

(** ** Completion *)

(** The completion of a receive; the fields after the status are filled in
    for a success. *)
Definition recv_wc (q : rxe_qp) (wqe : rxe_recv_wqe) (pkt : rxe_pkt_info) : ib_wc :=
  let has m := flag_set (pkt_mask pkt) m in
  let wc := zero_wc <| wc_wr_id := rwqe_wr_id wqe |> <| wc_status := IB_WC_SUCCESS |>
    <| wc_opcode := if has RXE_IMMDT_MASK && has RXE_READ_MASK
                    then IB_WC_RECV_RDMA_WITH_IMM else IB_WC_RECV |>
    <| wc_byte_len := u32 (dma_length (rwqe_dma wqe) - dma_resid (rwqe_dma wqe)) |>
    <| wc_flags := IB_WC_GRH |> in
  let wc := if has RXE_IMMDT_MASK then
      wc <| wc_flags ::= (λ f, f .| IB_WC_WITH_IMM) |> <| wc_imm_data := immdt_imm pkt |> else wc in
  let wc := if has RXE_IETH_MASK then
      wc <| wc_flags ::= (λ f, f .| IB_WC_WITH_INVALIDATE) |>
         <| wc_invalidate_rkey := ieth_rkey pkt |> else wc in
  let wc := wc <| wc_qp_num := qp_qp_num q |> in
  let wc := if has RXE_DETH_MASK then wc <| wc_src_qp := deth_sqp pkt |> else wc in
  wc <| wc_port_num := qa_port_num (qp_attr q) |>.

Definition do_complete (pkt : option rxe_pkt_info) : eng resp_states :=
  q ← get_qp;
  match resp_wqe (qp_resp q) with
  | None => mret RESPST_CLEANUP
  | Some p =>
      wqe ← recv_wqe p;
      let status := resp_status (qp_resp q) in
      wc ← (if status =? IB_WC_SUCCESS then pkt ← deref pkt; mret (recv_wc q wqe pkt)
            else mret (zero_wc <| wc_wr_id := rwqe_wr_id wqe |> <| wc_status := status |>));
      (match qp_srq q with
       | Some _ => mret tt
       | None => rq ← deref (qp_rq q); mod_qp (λ q, q <| qp_rq := Some (advance_consumer rq) |>)
       end);;
      mod_resp (λ r, r <| resp_wqe := None |>);;
      r ← cq_post (qp_rcq q) wc
            (match pkt with Some pkt => negb (bth_se pkt =? 0) | None => true end);
      mret (match r with
            | Err _ => RESPST_ERR_CQ_OVERFLOW
            | Ok _ =>
                if bool_decide (resp_state (qp_resp q) = QP_STATE_ERROR) then RESPST_CHK_RESOURCE
                else match pkt with
                | None => RESPST_DONE
                | Some _ => if qp_type q =? IB_QPT_RC then RESPST_ACKNOWLEDGE else RESPST_CLEANUP
                end
            end)
  end.

Definition drop_resp_mr : eng unit :=
  q ← get_qp;
  match resp_mr (qp_resp q) with
  | None => mret tt
  | Some h => mem_unref h;; mod_resp (λ r, r <| resp_mr := None |>)
  end.

Definition cleanup (pkt : option rxe_pkt_info) : eng resp_states :=
  (match pkt with
   | None => mret tt
   | Some _ => skb ← dequeue_req_pkt; skb ← deref skb; free_req_pkt skb
   end);;
  drop_resp_mr;;
  mret RESPST_DONE.

(** ** Duplicate requests *)

(** Whether [psn] lies in the range of a resource that is in use. *)
Definition res_covers (psn : Z) (res : resp_res) : bool :=
  negb (res_type res =? 0) && (psn_compare psn (res_first_psn res) >=? 0)
  && (psn_compare psn (res_last_psn res) <=? 0).

(** The first of the [n] resources from index [i] on. *)
Fixpoint find_res (l : list resp_res) (psn : Z) (i n : nat) : eng (option nat) :=
  match n with
  | O => mret None
  | S n => res ← deref (l !! i); if res_covers psn res then mret (Some i) else find_res l psn (S i) n
  end.

Definition find_resource (psn : Z) : eng (option nat) :=
  q ← get_qp;
  let n := Z.to_nat (qa_max_rd_atomic (qp_attr q)) in
  if (n =? 0)%nat then mret None
  else l ← deref (resp_resources (qp_resp q)); find_res l psn 0 n.

(** A read is answered again if it asks for a part of what it asked for. *)
Definition read_replayable (pkt : rxe_pkt_info) (res : resp_res) : bool :=
  let iova := reth_va pkt in
  let resid := reth_len pkt in
  negb ((iova <? res_va_org res) || (resid >? res_length res)
        || (u64 (iova + resid) >? u64 (res_va_org res + res_length res)))
  && (reth_rkey pkt =? res_rkey res).

(** The stored answer [skb] of an atomic operation gets a new sequence number:
    the clones of it that wait to be sent share its buffer. *)
Definition renumber_stored (i : nat) (skb : rxe_pkt_info) (psn : Z) : eng rxe_pkt_info :=
  let skb' := bth_set_psn skb psn in
  upd_res i (λ r, r <| res_ptr := res_skb skb' |>);;
  mod_qp (λ q, q <| qp_send_pkts ::= map (λ p, if bool_decide (p = skb) then skb' else p) |>);;
  mret skb'.

Definition duplicate_request (pkt : rxe_pkt_info) : eng resp_states :=
  q ← get_qp;
  let psn_before := u32 (resp_psn (qp_resp q) - 1) in
  let has m := flag_set (pkt_mask pkt) m in
  if has RXE_SEND_MASK || has RXE_WRITE_MASK then
    when (negb (bth_ack pkt =? 0)) (send_ack pkt AETH_ACK_UNLIMITED psn_before;; mret tt);;
    mret RESPST_CLEANUP
  else if has RXE_READ_MASK then
    found ← find_resource (pkt_psn pkt);
    match found with
    | None => mret RESPST_CLEANUP
    | Some i =>
        res ← get_res i;
        if negb (read_replayable pkt res) then mret RESPST_CLEANUP
        else
          upd_res i (λ res, res
            <| res_cur_psn := pkt_psn pkt |>
            <| res_state := if pkt_psn pkt =? res_first_psn res
                            then rdatm_res_state_new else rdatm_res_state_replay |>
            <| res_va_org := reth_va pkt |> <| res_va := reth_va pkt |>
            <| res_resid := reth_len pkt |>);;
          mod_resp (λ r, r <| resp_cur_res := Some i |>);;
          mret RESPST_READ_REPLY
    end
  else
    found ← find_resource (pkt_psn pkt);
    match found with
    | None => mret RESPST_CLEANUP
    | Some i =>
        res ← get_res i;
        skb ← match res_ptr res with res_skb skb => mret skb | _ => wild end;
        ok ← next_alloc;
        if ok : bool then
          qp_add_ref;;
          mod_qp (λ q, q <| qp_resp_skb_out ::= (λ n, n + 1) |>);;
          mod_dev (λ d, d <| rdev_resp_skb_out ::= (λ n, n + 1) |>);;
          skb ← renumber_stored i skb psn_before;
          send_packet skb;;
          mret RESPST_CLEANUP
        else mret RESPST_CLEANUP
    end.

(** ** Errors *)

Definition do_class_ac_error (syndrome status : Z) : eng unit :=
  mod_resp (λ r, r <| resp_aeth_syndrome := syndrome |> <| resp_status := status |>
                    <| resp_goto_error := true |>).

Definition do_class_d1e_error : eng resp_states :=
  q ← get_qp;
  match qp_srq q with
  | Some _ =>
      mod_resp (λ r, r <| resp_drop_msg := true |>);;
      match resp_wqe (qp_resp q) with
      | Some _ =>
          mod_resp (λ r, r <| resp_status := IB_WC_REM_INV_REQ_ERR |>);; mret RESPST_COMPLETE
      | None => mret RESPST_CLEANUP
      end
  | None =>
      (match resp_wqe (qp_resp q) with
       | Some p =>
           upd_recv_wqe p (λ w, w <| rwqe_dma ::= λ d,
             d <| dma_resid := dma_length d |> <| dma_cur_sge := 0 |> <| dma_sge_offset := 0 |> |>);;
           mod_resp (λ r, r <| resp_opcode := -1 |>)
       | None => mret tt
       end);;
      drop_resp_mr;;
      mret RESPST_CHK_OP_SEQ
  end.

(** A receiver that is not ready. *)
Definition resp_err_rnr (pkt : rxe_pkt_info) : eng resp_states :=
  q ← get_qp;
  (if qp_type q =? IB_QPT_RC then
     send_ack pkt (AETH_RNR_NAK .| (Z.lnot AETH_TYPE_MASK .& qa_min_rnr_timer (qp_attr q)))
       (pkt_psn pkt);; mret tt
   else mod_resp (λ r, r <| resp_drop_msg := true |>));;
  mret RESPST_CLEANUP.

Definition resp_err_rkey : eng resp_states :=
  q ← get_qp;
  if qp_type q =? IB_QPT_RC then
    do_class_ac_error AETH_NAK_REM_ACC_ERR IB_WC_REM_ACCESS_ERR;; mret RESPST_COMPLETE
  else
    mod_resp (λ r, r <| resp_drop_msg := true |>);;
    match qp_srq q with
    | Some _ => mod_resp (λ r, r <| resp_status := IB_WC_REM_ACCESS_ERR |>);; mret RESPST_COMPLETE
    | None => mret RESPST_CLEANUP
    end.

Definition resp_err_length : eng resp_states :=
  q ← get_qp;
  if qp_type q =? IB_QPT_RC then
    do_class_ac_error AETH_NAK_INVALID_REQ IB_WC_REM_INV_REQ_ERR;; mret RESPST_COMPLETE
  else match qp_srq q with
  | Some _ => mod_resp (λ r, r <| resp_status := IB_WC_REM_INV_REQ_ERR |>);; mret RESPST_COMPLETE
  | None => mod_resp (λ r, r <| resp_drop_msg := true |>);; mret RESPST_CLEANUP
  end.

(** ** The task function *)

Fixpoint reset_req_pkts (fuel : nat) : eng unit :=
  skb ← dequeue_req_pkt;
  match skb with
  | None => mret tt
  | Some p => match fuel with O => wild | S fuel => free_req_pkt p;; reset_req_pkts fuel end
  end.

Fixpoint reset_rq (fuel : nat) : eng unit :=
  q ← get_qp;
  match qp_srq q, qp_rq q with
  | None, Some rq =>
      match queue_head rq with
      | None => mret tt
      | Some _ =>
          match fuel with
          | O => wild
          | S fuel => mod_qp (λ q, q <| qp_rq := Some (advance_consumer rq) |>);; reset_rq fuel
          end
      end
  | _, _ => mret tt
  end.

(** As many iterations as there are packets and elements to remove. *)
Definition resp_reset : eng unit :=
  q ← get_qp;
  reset_req_pkts (length (qp_req_pkts q));;
  reset_rq (match qp_rq q with Some rq => Z.to_nat (queue_count rq) | None => 0%nat end);;
  mod_resp (λ r, r <| resp_wqe := None |>).

Inductive resp_next : Type :=
  | RespGoto (st : resp_states) (pkt : option rxe_pkt_info)
  | RespExit
  | RespDone.

(** One iteration of the loop; [qp_error] is [rxe_qp_error]. *)
Definition resp_step (qp_error : eng unit) (st : resp_states) (pkt : option rxe_pkt_info)
    : eng resp_next :=
  let goto (m : eng resp_states) := st ← m; mret (RespGoto st pkt) in
  let on_pkt (f : rxe_pkt_info → eng resp_states) := goto (p ← deref pkt; f p) in
  let to_error := mret (RespGoto RESPST_ERROR pkt) in
  match st with
  | RESPST_GET_REQ =>
      '(st, p) ← get_req;
      mret (RespGoto st (match p with Some p => Some p | None => pkt end))
  | RESPST_CHK_PSN => on_pkt check_psn
  | RESPST_CHK_OP_SEQ => on_pkt check_op_seq
  | RESPST_CHK_OP_VALID => on_pkt check_op_valid
  | RESPST_CHK_RESOURCE => goto (check_resource pkt)
  | RESPST_CHK_LENGTH => on_pkt check_length
  | RESPST_CHK_RKEY => on_pkt check_rkey
  | RESPST_EXECUTE => on_pkt execute
  | RESPST_COMPLETE => goto (do_complete pkt)
  | RESPST_READ_REPLY => on_pkt read_reply
  | RESPST_ACKNOWLEDGE => on_pkt acknowledge
  | RESPST_CLEANUP => goto (cleanup pkt)
  | RESPST_DUPLICATE_REQUEST => on_pkt duplicate_request
  | RESPST_ERR_PSN_OUT_OF_SEQ =>
      on_pkt (λ p, q ← get_qp; send_ack p AETH_NAK_PSN_SEQ_ERROR (resp_psn (qp_resp q));;
                   mret RESPST_CLEANUP)
  | RESPST_ERR_TOO_MANY_RDMA_ATM_REQ | RESPST_ERR_MISSING_OPCODE_FIRST
  | RESPST_ERR_MISSING_OPCODE_LAST_C | RESPST_ERR_UNSUPPORTED_OPCODE
  | RESPST_ERR_MISALIGNED_ATOMIC =>
      goto (do_class_ac_error AETH_NAK_INVALID_REQ IB_WC_REM_INV_REQ_ERR;; mret RESPST_COMPLETE)
  | RESPST_ERR_MISSING_OPCODE_LAST_D1E => goto do_class_d1e_error
  | RESPST_ERR_RNR => on_pkt resp_err_rnr
  | RESPST_ERR_RKEY_VIOLATION => goto resp_err_rkey
  | RESPST_ERR_LENGTH => goto resp_err_length
  | RESPST_ERR_MALFORMED_WQE =>
      goto (do_class_ac_error AETH_NAK_REM_OP_ERR IB_WC_LOC_QP_OP_ERR;; mret RESPST_COMPLETE)
  | RESPST_ERR_CQ_OVERFLOW => to_error
  | RESPST_DONE => q ← get_qp; if resp_goto_error (qp_resp q) then to_error else mret RespDone
  | RESPST_EXIT => q ← get_qp; if resp_goto_error (qp_resp q) then to_error else mret RespExit
  | RESPST_RESET => resp_reset;; mret RespExit
  | RESPST_ERROR =>
      mod_resp (λ r, r <| resp_goto_error := false |>);; qp_error;; mret RespExit
  | RESPST_NONE => mret (RespGoto st pkt)
  end.

Fixpoint resp_loop (qp_error : eng unit) (fuel : nat) (st : resp_states) (pkt : option rxe_pkt_info)
    : eng (result unit) :=
  match fuel with
  | O => wild
  | S fuel =>
      n ← resp_step qp_error st pkt;
      match n with
      | RespGoto st pkt => resp_loop qp_error fuel st pkt
      | RespExit => mret (Err EAGAIN)
      | RespDone => mret (Ok tt)
      end
  end.

(** [Ok] is the return value 0. [depth] and [cfuel] are those of the
    completer, which moving to the error state may run. *)
Definition rxe_responder (depth cfuel fuel : nat) : eng (result unit) :=
  mod_resp (λ r, r <| resp_aeth_syndrome := AETH_ACK_UNLIMITED |>);;
  q ← get_qp;
  if negb (qp_valid q) then mret (Err EINVAL)
  else
    resp_loop (rxe_qp_error (__rxe_do_task (rxe_completer depth cfuel) cfuel)) fuel
      (if bool_decide (resp_state (qp_resp q) = QP_STATE_RESET) then RESPST_RESET
       else RESPST_GET_REQ) None.
End responder.
