(* ===== verification/Qp.v ===== *)
(** * Modifying a queue pair (rxe_qp.c, rxe_modify_qp and rxe_query_qp of rxe_verbs.c)

    The attributes of a queue pair are checked and then written one after the
    other; a new state starts, drains or stops the three engines. Their tasks
    run to the end where the code calls them directly, and are recorded where
    it only schedules them. *)

From stdpp Require Import gmap.
From S2P Require Import Prelude Queue Opcode Hdr Verbs Mr Cq State Av QpState Comp Req Resp.

(** What the caller of [ib_modify_qp] passes, or [ib_query_qp] returns: the
    attributes with the capabilities and the two routes. *)
Record qp_attrs := QpAttrs {
  ma_attr : ib_qp_attr;
  ma_cap : ib_qp_cap;
  ma_ah_attr : ib_ah_attr;
  ma_alt_ah_attr : ib_ah_attr
}.

#[export] Instance eta_qp_attrs : Eta qp_attrs := fun r => QpAttrs (ma_attr r) (ma_cap r) (ma_ah_attr r) (ma_alt_ah_attr r).

Section modify.
Context `{Params}.

(** ** Checks *)

Definition rxe_qp_chk_cap (rxe : ib_device_attr) (cap : ib_qp_cap) (has_srq : bool) : result unit :=
  if cap_max_send_wr cap >? da_max_qp_wr rxe then Err EINVAL
  else if cap_max_send_sge cap >? da_max_sge rxe then Err EINVAL
  else if negb has_srq && (cap_max_recv_wr cap >? da_max_qp_wr rxe) then Err EINVAL
  else if negb has_srq && (cap_max_recv_sge cap >? da_max_sge rxe) then Err EINVAL
  else if cap_max_inline_data cap >? da_max_inline_data rxe then Err EINVAL
  else Ok tt.

Definition is_err {A} (r : result A) : bool := match r with Ok _ => false | Err _ => true end.

(** A check that is made when the mask asks for it; the first that fails ends
    the function. *)
Definition chk (mask flag : Z) (bad : eng bool) (rest : eng (result unit)) : eng (result unit) :=
  b ← (if flag_set mask flag then bad else mret false);
  if b : bool then mret (Err EINVAL) else rest.

Definition chk_path_mtu (path_mtu : Z) : eng bool :=
  q ← get_qp; dev ← get_dev;
  port ← deref (rdev_ports dev !! Z.to_nat (qa_port_num (qp_attr q) - 1));
  mret (path_mtu >? port_max_mtu port).

Definition rxe_qp_chk_attr (a : qp_attrs) (mask : Z) : eng (result unit) :=
  q ← get_qp; dev ← get_dev;
  let attr := ma_attr a in
  let cur_state := if flag_set mask IB_QP_CUR_STATE then qa_cur_qp_state attr else qa_qp_state (qp_attr q) in
  let new_state := if flag_set mask IB_QP_STATE then qa_qp_state attr else cur_state in
  if negb (ib_modify_qp_is_ok cur_state new_state (qp_type q) mask) then mret (Err EINVAL)
  else
    chk mask IB_QP_STATE
      (mret ((cur_state =? IB_QPS_SQD) && bool_decide (req_state (qp_req q) = QP_STATE_DRAIN)
             && negb (new_state =? IB_QPS_ERR)))
    (chk mask IB_QP_PORT
      (mret ((qa_port_num attr <? 1) || (qa_port_num attr >? Z.of_nat (length (rdev_ports dev)))))
    (chk mask IB_QP_CAP
      (mret (is_err (rxe_qp_chk_cap (rdev_attr dev) (ma_cap a) (bool_decide (is_Some (qp_srq q))))))
    (chk mask IB_QP_AV (r ← rxe_av_chk_attr (ma_ah_attr a); mret (is_err r))
    (chk mask IB_QP_ALT_PATH (r ← rxe_av_chk_attr (ma_alt_ah_attr a); mret (is_err r))
    (chk mask IB_QP_PATH_MTU (chk_path_mtu (qa_path_mtu attr))
    (chk mask IB_QP_MAX_QP_RD_ATOMIC (mret (qa_max_rd_atomic attr >? da_max_qp_rd_atom (rdev_attr dev)))
    (chk mask IB_QP_TIMEOUT (mret (qa_timeout attr >? 31))
    (mret (Ok tt))))))))).

(** ** Responder resources *)

Definition zero_res : resp_res := RespRes 0 0 0 0 rdatm_res_state_next res_null 0 0 0 0 0.

(** [kcalloc] takes an answer of the allocator. *)
Definition alloc_rd_atomic_resources (n : Z) : eng (result unit) :=
  mod_resp (λ r, r <| resp_res_head := 0 |> <| resp_res_tail := 0 |>);;
  ok ← next_alloc;
  mod_resp (λ r, r <| resp_resources := if ok : bool then Some (replicate (Z.to_nat n) zero_res) else None |>);;
  mret (if ok : bool then Ok tt else Err ENOMEM).

Fixpoint free_each_resource (i n : nat) : eng unit :=
  match n with
  | O => mret tt
  | S n => free_rd_atomic_resource i;; free_each_resource (S i) n
  end.

Definition cleanup_rd_atomic_resources : eng unit :=
  q ← get_qp;
  match resp_resources (qp_resp q) with
  | None => mret tt
  | Some _ => free_each_resource 0 (Z.to_nat (qa_max_rd_atomic (qp_attr q)))
  end.

Definition free_rd_atomic_resources : eng unit :=
  cleanup_rd_atomic_resources;; mod_resp (λ r, r <| resp_resources := None |>).

(** ** New states

    [depth] and [fuel] are those of the engines, [calls] bounds how often
    [__rxe_do_task] calls one of them. *)

Section tasks.
Context (depth fuel calls : nat).

Definition do_resp_task : eng unit := __rxe_do_task (rxe_responder depth fuel fuel) calls.
Definition do_comp_task : eng unit := __rxe_do_task (rxe_completer depth fuel) calls.
Definition do_req_task : eng unit := __rxe_do_task (rxe_requester depth fuel) calls.

(** Every queue pair has a send queue. No task runs while the tasklets are
    disabled. *)
Definition rxe_qp_reset : eng unit :=
  mod_req (λ r, r <| req_state := QP_STATE_RESET |>);;
  mod_resp (λ r, r <| resp_state := QP_STATE_RESET |>);;
  do_resp_task;;
  do_comp_task;;
  do_req_task;;
  mod_qp (λ q, q <| qp_ssn := 0 |>);;
  mod_req (λ r, r <| req_opcode := -1 |> <| req_need_retry := false |> <| req_noack_pkts := 0 |>);;
  mod_resp (λ r, r <| resp_msn := 0 |> <| resp_opcode := -1 |> <| resp_drop_msg := false |>
                   <| resp_goto_error := false |> <| resp_sent_psn_nak := false |>);;
  drop_resp_mr;;
  cleanup_rd_atomic_resources.

Definition rxe_qp_drain : eng unit :=
  q ← get_qp;
  when (negb (bool_decide (req_state (qp_req q) = QP_STATE_DRAINED)))
    (mod_req (λ r, r <| req_state := QP_STATE_DRAIN |>);;
     (if qp_type q =? IB_QPT_RC then rxe_run_task task_comp true else do_comp_task);;
     rxe_run_task task_req true).

Definition new_qp_state (st : Z) : eng unit :=
  if st =? IB_QPS_RESET then rxe_qp_reset
  else if st =? IB_QPS_INIT then
    mod_req (λ r, r <| req_state := QP_STATE_INIT |>);; mod_resp (λ r, r <| resp_state := QP_STATE_INIT |>)
  else if st =? IB_QPS_RTR then mod_resp (λ r, r <| resp_state := QP_STATE_READY |>)
  else if st =? IB_QPS_RTS then mod_req (λ r, r <| req_state := QP_STATE_READY |>)
  else if st =? IB_QPS_SQD then rxe_qp_drain
  else if st =? IB_QPS_SQE then mret tt
  else when (st =? IB_QPS_ERR) (rxe_qp_error do_comp_task).

(** ** Writing the attributes *)

Definition mod_attr (f : ib_qp_attr → ib_qp_attr) : eng unit := mod_qp (λ q, q <| qp_attr ::= f |>).

(** New resources for the operations of the other side; an error leaves the
    queue pair without. *)
Definition set_max_rd_atomic (n : Z) : eng (result unit) :=
  let max_rd_atomic := s32 (roundup_pow_of_two n) in
  free_rd_atomic_resources;;
  err ← alloc_rd_atomic_resources max_rd_atomic;
  match err with
  | Err e => mret (Err e)
  | Ok _ =>
      mod_attr (λ a, a <| qa_max_rd_atomic := u8 max_rd_atomic |>);;
      mod_req (λ r, r <| req_rd_atomic := max_rd_atomic |>);;
      mret (Ok tt)
  end.

(** [usecs_to_jiffies] takes an [unsigned int]. *)
Definition timeout_jiffies (timeout : Z) : Z :=
  if timeout =? 0 then 0
  else let j := s32 (usecs_to_jiffies (u32 (u64 (Z.shiftl 4 timeout)))) in if j =? 0 then 1 else u64 j.

Definition set_av (attr : ib_qp_attr) (ah : ib_ah_attr) : eng unit :=
  '(av, _) ← rxe_av_from_attr (qa_port_num attr) ah; mod_qp (λ q, q <| qp_pri_av := av |>).

Definition set_alt_path (attr : ib_qp_attr) (ah : ib_ah_attr) : eng unit :=
  '(av, _) ← rxe_av_from_attr (qa_alt_port_num attr) ah;
  mod_qp (λ q, q <| qp_alt_av := av |>);;
  mod_attr (λ x, x <| qa_alt_port_num := qa_alt_port_num attr |> <| qa_alt_pkey_index := qa_alt_pkey_index attr |>
                   <| qa_alt_timeout := qa_alt_timeout attr |>).

(** The attributes one after the other, in the order of the code. *)
Definition write_attrs (a : qp_attrs) (mask : Z) : eng unit :=
  let attr := ma_attr a in
  let on flag := when (flag_set mask flag) in
  on IB_QP_CUR_STATE (mod_attr (λ x, x <| qa_cur_qp_state := qa_qp_state attr |>));;
  on IB_QP_EN_SQD_ASYNC_NOTIFY (mod_attr (λ x, x <| qa_en_sqd_async_notify := qa_en_sqd_async_notify attr |>));;
  on IB_QP_ACCESS_FLAGS (mod_attr (λ x, x <| qa_qp_access_flags := qa_qp_access_flags attr |>));;
  on IB_QP_PKEY_INDEX (mod_attr (λ x, x <| qa_pkey_index := qa_pkey_index attr |>));;
  on IB_QP_PORT (mod_attr (λ x, x <| qa_port_num := qa_port_num attr |>));;
  on IB_QP_QKEY (mod_attr (λ x, x <| qa_qkey := qa_qkey attr |>));;
  on IB_QP_AV (set_av attr (ma_ah_attr a));;
  on IB_QP_ALT_PATH (set_alt_path attr (ma_alt_ah_attr a));;
  on IB_QP_PATH_MTU
    (mod_attr (λ x, x <| qa_path_mtu := qa_path_mtu attr |>);;
     mod_qp (λ q, q <| qp_mtu_bytes := u32 (rxe_mtu_enum_to_int (qa_path_mtu attr)) |>));;
  on IB_QP_TIMEOUT
    (mod_attr (λ x, x <| qa_timeout := qa_timeout attr |>);;
     mod_qp (λ q, q <| qp_timeout_jiffies := timeout_jiffies (qa_timeout attr) |>));;
  on IB_QP_RETRY_CNT
    (mod_attr (λ x, x <| qa_retry_cnt := qa_retry_cnt attr |>);;
     mod_comp (λ c, c <| comp_retry_cnt := qa_retry_cnt attr |>));;
  on IB_QP_RNR_RETRY
    (mod_attr (λ x, x <| qa_rnr_retry := qa_rnr_retry attr |>);;
     mod_comp (λ c, c <| comp_rnr_retry := qa_rnr_retry attr |>));;
  on IB_QP_RQ_PSN
    (mod_attr (λ x, x <| qa_rq_psn := qa_rq_psn attr .& BTH_PSN_MASK |>);;
     mod_resp (λ r, r <| resp_psn := qa_rq_psn attr .& BTH_PSN_MASK |>));;
  on IB_QP_MIN_RNR_TIMER (mod_attr (λ x, x <| qa_min_rnr_timer := qa_min_rnr_timer attr |>));;
  on IB_QP_SQ_PSN
    (mod_attr (λ x, x <| qa_sq_psn := qa_sq_psn attr .& BTH_PSN_MASK |>);;
     mod_req (λ r, r <| req_psn := qa_sq_psn attr .& BTH_PSN_MASK |>);;
     mod_comp (λ c, c <| comp_psn := qa_sq_psn attr .& BTH_PSN_MASK |>));;
  on IB_QP_MAX_DEST_RD_ATOMIC
    (mod_attr (λ x, x <| qa_max_dest_rd_atomic := u8 (roundup_pow_of_two (qa_max_dest_rd_atomic attr)) |>));;
  on IB_QP_PATH_MIG_STATE (mod_attr (λ x, x <| qa_path_mig_state := qa_path_mig_state attr |>));;
  on IB_QP_DEST_QPN (mod_attr (λ x, x <| qa_dest_qp_num := qa_dest_qp_num attr |>)).

Definition rxe_qp_from_attr (a : qp_attrs) (mask : Z) : eng (result unit) :=
  err ← (if flag_set mask IB_QP_MAX_QP_RD_ATOMIC then set_max_rd_atomic (qa_max_rd_atomic (ma_attr a))
         else mret (Ok tt));
  match err with
  | Err e => mret (Err e)
  | Ok _ =>
      write_attrs a mask;;
      when (flag_set mask IB_QP_STATE)
        (mod_attr (λ x, x <| qa_qp_state := qa_qp_state (ma_attr a) |>);;
         new_qp_state (qa_qp_state (ma_attr a)));;
      mret (Ok tt)
  end.

Definition rxe_modify_qp (a : qp_attrs) (mask : Z) : eng (result unit) :=
  err ← rxe_qp_chk_attr a mask;
  match err with
  | Err e => mret (Err e)
  | Ok _ => rxe_qp_from_attr a mask
  end.
End tasks.

(** ** Queries *)

Definition rxe_qp_to_attr (q : rxe_qp) : qp_attrs :=
  let cap := qp_cap q in
  let own := match qp_srq q with None => true | Some _ => false end in
  QpAttrs (qp_attr q <| qa_rq_psn := resp_psn (qp_resp q) |> <| qa_sq_psn := req_psn (qp_req q) |>
             <| qa_sq_draining := bool_decide (req_state (qp_req q) = QP_STATE_DRAIN) |>)
    (QpCap (cap_max_send_wr cap) (if own then cap_max_recv_wr cap else 0) (cap_max_send_sge cap)
       (if own then cap_max_recv_sge cap else 0) (cap_max_inline_data cap))
    (rxe_av_to_attr (qp_pri_av q)) (rxe_av_to_attr (qp_alt_av q)).
End modify.
