(* ===== verification/Post.v ===== *)
(** * Posting work requests (rxe_verbs.c)

    A work request is checked, written into the next slot of its queue, and then
    published by advancing the producer index. A list of work requests is posted
    up to the first one that fails, which is reported to the caller. *)

From stdpp Require Import gmap.
From S2P Require Import Prelude Queue Opcode Hdr Verbs Mr Cq State Av QpState Comp Req Qp.

(** ** Work requests as the caller passes them

    [sw_ah] is the address vector of the address handle of a datagram. *)

Record post_wr := PostWr {
  sw_wr : ib_send_wr;
  sw_num_sge : Z;
  sw_sg_list : list ib_sge;
  sw_ah : rxe_av
}.

#[export] Instance eta_post_wr : Eta post_wr := fun r => PostWr (sw_wr r) (sw_num_sge r) (sw_sg_list r) (sw_ah r).

Record ib_recv_wr := RecvWr {
  rw_wr_id : Z;
  rw_num_sge : Z;
  rw_sg_list : list ib_sge
}.

(** Memory as inline data is read from: the bytes at an address, and whether
    [copy_from_user] fails there. *)
Record umem := Umem {
  um_read : Z → Z → list Z;
  um_fault : Z → Z → bool
}.

(** The loops over a scatter/gather list; [None] for an entry that is not there. *)
Definition sg_entries (num_sge : Z) (sg_list : list ib_sge) : option (list ib_sge) :=
  if num_sge <=? Z.of_nat (length sg_list) then Some (take (Z.to_nat num_sge) sg_list) else None.

Definition sg_length (l : list ib_sge) : Z := foldl (λ n sge, u32 (n + sge_length sge)) 0 l.

Definition stored_dma (length num_sge : Z) (inline_data : list Z) (sge : list ib_sge) : rxe_dma_info :=
  Dma length length 0 num_sge 0 inline_data sge.

(** ** Receive requests *)

(** The queue afterwards and the value returned. A negative number of entries
    passes the check, and is copied as a huge one. *)
Definition post_one_recv (max_sge : Z) (rq : rxe_queue rxe_recv_wqe) (ibwr : ib_recv_wr)
    : option (rxe_queue rxe_recv_wqe * result unit) :=
  let num_sge := rw_num_sge ibwr in
  if queue_full rq then Some (rq, Err ENOMEM)
  else if num_sge >? max_sge then Some (rq, Err EINVAL)
  else if num_sge <? 0 then None
  else
    sge ← sg_entries num_sge (rw_sg_list ibwr);
    let addr := producer_addr rq in
    w ← elem_at rq addr;
    let dma := stored_dma (sg_length sge) num_sge (dma_inline_data (rwqe_dma w)) sge in
    Some (advance_producer (store_at rq addr (RecvWqe (rw_wr_id ibwr) num_sge dma)), Ok tt).

(** The loop over the list: the requests that have not been posted, the first
    of which is [*bad_wr]. *)
Fixpoint post_recvs (max_sge : Z) (rq : rxe_queue rxe_recv_wqe) (wr : list ib_recv_wr)
    : option (rxe_queue rxe_recv_wqe * list ib_recv_wr * result unit) :=
  match wr with
  | [] => Some (rq, [], Ok tt)
  | ibwr :: rest =>
      '(rq, err) ← post_one_recv max_sge rq ibwr;
      match err with
      | Err e => Some (rq, wr, Err e)
      | Ok _ => post_recvs max_sge rq rest
      end
  end.

Definition rxe_post_recv (wr : list ib_recv_wr) : eng (list ib_recv_wr * result unit) :=
  q ← get_qp;
  if (qa_qp_state (qp_attr q) <? IB_QPS_INIT) || negb (qp_valid q) then mret (wr, Err EINVAL)
  else match qp_srq q with
  | Some _ => mret (wr, Err EINVAL)
  | None =>
      if qp_is_user q then mret (wr, Err EINVAL)
      else
        rq ← deref (qp_rq q);
        '(rq, bad, err) ← deref (post_recvs (cap_max_recv_sge (qp_cap q)) rq wr);
        mod_qp (λ q, q <| qp_rq := Some rq |>);;
        mret (bad, err)
  end.

(** [rxe_post_srq_recv]. *)
Definition rxe_post_srq_recv (srq : rxe_srq) (wr : list ib_recv_wr)
    : option (rxe_srq * list ib_recv_wr * result unit) :=
  '(rq, bad, err) ← post_recvs (srq_max_sge srq) (srq_queue srq) wr;
  Some (srq <| srq_queue := rq |>, bad, err).

(** ** Send requests *)

Definition validate_send_wr (q : rxe_qp) (wr : post_wr) (mask length : Z) : result unit :=
  let ibwr := sw_wr wr in
  if sw_num_sge wr >? cap_max_send_sge (qp_cap q) then Err EINVAL
  else if flag_set mask WR_ATOMIC_MASK && ((length <? 8) || flag_set (wr_remote_addr ibwr) 0x7) then Err EINVAL
  else if flag_set (wr_send_flags ibwr) IB_SEND_INLINE && (length >? cap_max_inline_data (qp_cap q)) then Err EINVAL
  else Ok tt.

(** The inline data, one entry after the other, up to one that faults. *)
Fixpoint copy_inline (um : umem) (is_user : bool) (sge : list ib_sge) : list Z * result unit :=
  match sge with
  | [] => ([], Ok tt)
  | e :: rest =>
      if is_user && um_fault um (sge_addr e) (sge_length e) then ([], Err EFAULT)
      else
        let '(l, err) := copy_inline um is_user rest in
        (um_read um (sge_addr e) (sge_length e) ++ l, err)
  end.

(** The data of the request, in the place inline data and scatter/gather list
    share. *)
Definition init_send_data (um : umem) (is_user : bool) (wr : post_wr) (dma : rxe_dma_info)
    : option (rxe_dma_info * result unit) :=
  let num_sge := sw_num_sge wr in
  if flag_set (wr_send_flags (sw_wr wr)) IB_SEND_INLINE then
    sge ← sg_entries num_sge (sw_sg_list wr);
    let '(bytes, err) := copy_inline um is_user sge in
    Some (dma <| dma_inline_data := bytes |>, err)
  else if num_sge <? 0 then None
  else
    sge ← sg_entries num_sge (sw_sg_list wr);
    Some (dma <| dma_sge := sge |>, Ok tt).

(** The element [w] of the slot is overwritten in part: its status, its sequence
    numbers and its credit are those of the request it held before. *)
Definition init_send_wqe (um : umem) (wr : post_wr) (mask length : Z) (w : rxe_send_wqe)
    : eng (rxe_send_wqe * result unit) :=
  q ← get_qp;
  let ibwr := sw_wr wr in
  let w := w <| wqe_ibwr := ibwr |> in
  let w := if one_of (qp_type q) [IB_QPT_UD; IB_QPT_SMI; IB_QPT_GSI] then w <| wqe_av := sw_ah wr |> else w in
  '(dma, err) ← deref (init_send_data um (qp_is_user q) wr (wqe_dma w));
  let w := w <| wqe_dma := dma |> in
  match err with
  | Err e => mret (w, Err e)
  | Ok _ =>
      mod_qp (λ q, q <| qp_ssn ::= (λ n, s32 (n + 1)) |>);;
      q ← get_qp;
      mret (w <| wqe_iova := wr_remote_addr ibwr |> <| wqe_mask := mask |>
              <| wqe_dma := stored_dma length (sw_num_sge wr) (dma_inline_data dma) (dma_sge dma) |>
              <| wqe_st := wqe_state_posted |> <| wqe_ssn := u32 (qp_ssn q) |>, Ok tt)
  end.

Definition post_one_send (um : umem) (wr : post_wr) (mask length : Z) : eng (result unit) :=
  q ← get_qp;
  match validate_send_wr q wr mask length with
  | Err e => mret (Err e)
  | Ok _ =>
      if queue_full (qp_sq q) then mret (Err ENOMEM)
      else
        let addr := producer_addr (qp_sq q) in
        w ← sq_wqe addr;
        '(w, err) ← init_send_wqe um wr mask length w;
        mod_qp (λ q, q <| qp_sq ::= λ sq, store_at sq addr w |>);;
        match err with
        | Err e => mret (Err e)
        | Ok _ => mod_qp (λ q, q <| qp_sq ::= advance_producer |>);; mret (Ok tt)
        end
  end.

Fixpoint post_sends (um : umem) (wr : list post_wr) : eng (list post_wr * result unit) :=
  match wr with
  | [] => mret ([], Ok tt)
  | ibwr :: rest =>
      q ← get_qp;
      let mask := wr_opcode_mask (wr_opcode (sw_wr ibwr)) q in
      if mask =? 0 then mret (wr, Err EINVAL)
      else if flag_set (wr_send_flags (sw_wr ibwr)) IB_SEND_INLINE && negb (flag_set mask WR_INLINE_MASK)
      then mret (wr, Err EINVAL)
      else
        sge ← deref (sg_entries (sw_num_sge ibwr) (sw_sg_list ibwr));
        err ← post_one_send um ibwr mask (sg_length sge);
        match err with
        | Err e => mret (wr, Err e)
        | Ok _ => post_sends um rest
        end
  end.

(** The states below ready. *)
Definition before_ready (st : rxe_qp_state) : bool :=
  bool_decide (st = QP_STATE_RESET) || bool_decide (st = QP_STATE_INIT).

(** A user process writes its own queue and calls this with an empty list; its
    last element is then looked at, without effect. *)
Definition rxe_post_send (um : umem) (wr : list post_wr) : eng (list post_wr * result unit) :=
  q ← get_qp;
  if negb (qp_valid q) || bool_decide (req_state (qp_req q) = QP_STATE_ERROR) then mret (wr, Err EINVAL)
  else if before_ready (req_state (qp_req q)) then mret (wr, Err EINVAL)
  else
    (if qp_is_user q then
       let sq := qp_sq q in
       sq_wqe (addr_from_index sq (u32 (producer_index sq - 1) .& q_index_mask sq));; mret tt
     else mret tt);;
    '(bad, err) ← post_sends um wr;
    q ← get_qp;
    rxe_run_task task_req (queue_count (qp_sq q) >? 1);;
    mret (bad, err).

(** ** What is posted *)

(** The states in which requests are posted. *)
Lemma sends_state st :
  st ∈ [QP_STATE_READY; QP_STATE_DRAIN; QP_STATE_DRAINED] → bool_decide (st = QP_STATE_ERROR) = false ∧ before_ready st = false.
Proof. intros H. repeat (apply elem_of_cons in H as [->|H]; [done|]). by apply not_elem_of_nil in H. Qed.

(** The element of a receive request: everything but inline data of an earlier
    one, which nobody reads. *)
Definition recv_stored (wr : ib_recv_wr) (w : rxe_recv_wqe) : Prop :=
  rwqe_wr_id w = rw_wr_id wr ∧ rwqe_num_sge w = rw_num_sge wr ∧
  ∃ sge bytes, sg_entries (rw_num_sge wr) (rw_sg_list wr) = Some sge ∧
    rwqe_dma w = stored_dma (sg_length sge) (rw_num_sge wr) bytes sge.

Definition recv_fits (max_sge : Z) (wr : ib_recv_wr) : Prop :=
  0 ≤ rw_num_sge wr ≤ max_sge ∧ rw_num_sge wr ≤ Z.of_nat (length (rw_sg_list wr)).

Lemma queue_full_list {A} k (q : rxe_queue A) :
  queue_wf k q → queue_full q = (Z.of_nat (length (queue_list q)) =? 2 ^ k - 1).
Proof. intros Hwf. by rewrite (queue_full_count k), (queue_list_length k) by apply Hwf. Qed.

Lemma producer_elem {A} k (q : rxe_queue A) : queue_wf k q → is_Some (elem_at q (producer_addr q)).
Proof.
  intros [Hg Hp Hc]. unfold elem_at. rewrite (producer_slot k) by done. apply lookup_lt_is_Some_2.
  pose proof (geom_data _ _ Hg). rewrite Z.mod_small by lia. lia.
Qed.

Lemma post_one_recv_ok k max_sge rq wr :
  queue_wf k rq → recv_fits max_sge wr → Z.of_nat (length (queue_list rq)) < 2 ^ k - 1 →
  ∃ rq' w, post_one_recv max_sge rq wr = Some (rq', Ok tt) ∧ queue_wf k rq' ∧ queue_list rq' = queue_list rq ++ [w] ∧
    recv_stored wr w.
Proof.
  intros Hwf [[H1 H2] H3] Hroom. unfold post_one_recv. pose proof (queue_full_list k rq Hwf) as Hf.
  destruct (Z.eqb_spec (Z.of_nat (length (queue_list rq))) (2 ^ k - 1)); [lia|]. rewrite Hf.
  rewrite Z.gtb_ltb. destruct (Z.ltb_spec max_sge (rw_num_sge wr)); [lia|]. destruct (Z.ltb_spec (rw_num_sge wr) 0); [lia|].
  assert (Hsg : sg_entries (rw_num_sge wr) (rw_sg_list wr) = Some (take (Z.to_nat (rw_num_sge wr)) (rw_sg_list wr))).
  { unfold sg_entries. destruct (Z.leb_spec (rw_num_sge wr) (Z.of_nat (length (rw_sg_list wr)))); [done|lia]. }
  rewrite Hsg. cbn [mbind option_bind]. destruct (producer_elem k rq Hwf) as [w0 ->]. cbn [mbind option_bind].
  eexists _, _. split; [done|]. destruct (queue_push k rq (RecvWqe (rw_wr_id wr) (rw_num_sge wr)
    (stored_dma (sg_length (take (Z.to_nat (rw_num_sge wr)) (rw_sg_list wr))) (rw_num_sge wr) (dma_inline_data (rwqe_dma w0))
       (take (Z.to_nat (rw_num_sge wr)) (rw_sg_list wr)))) Hwf Hf) as [Hw Hl].
  split; [exact Hw|]. split; [exact Hl|]. split; [done|]. split; [done|]. by eexists _, _.
Qed.

Lemma post_recvs_spec k max_sge wrs : ∀ rq,
  queue_wf k rq → Forall (recv_fits max_sge) wrs →
  let room := Z.to_nat (2 ^ k - 1 - Z.of_nat (length (queue_list rq))) in
  ∃ rq' ws, post_recvs max_sge rq wrs
      = Some (rq', drop room wrs, if (length wrs <=? room)%nat then Ok tt else Err ENOMEM) ∧
    queue_wf k rq' ∧ queue_list rq' = queue_list rq ++ ws ∧ Forall2 recv_stored (take room wrs) ws.
Proof.
  induction wrs as [|wr wrs IH]; intros rq Hwf Hf room.
  { exists rq, []. rewrite drop_nil, take_nil, app_nil_r. split; [done|]. split; [done|]. split; [done|constructor]. }
  apply Forall_cons_1 in Hf as [Hwr Hf]. cbn [post_recvs].
  pose proof (queue_list_length k rq Hwf) as Hlen. pose proof (queue_count_range k rq Hwf) as Hr.
  destruct (Z.eq_dec (Z.of_nat (length (queue_list rq))) (2 ^ k - 1)) as [Hfull|Hnot].
  - assert (E : room = 0%nat) by (unfold room; lia). rewrite E. unfold post_one_recv. rewrite (queue_full_list k rq Hwf), Hfull, Z.eqb_refl.
    cbn. exists rq, []. rewrite app_nil_r. split; [done|]. split; [done|]. split; [done|constructor].
  - destruct (post_one_recv_ok k max_sge rq wr Hwf Hwr) as (rq1 & w & -> & Hwf1 & Hl1 & Hw); [lia|]. cbn [mbind option_bind].
    destruct (IH rq1 Hwf1 Hf) as (rq' & ws & E & Hwf' & Hl & Hall). rewrite E.
    assert (Er : room = S (Z.to_nat (2 ^ k - 1 - Z.of_nat (length (queue_list rq1))))).
    { unfold room. rewrite Hl1, length_app. cbn. lia. }
    rewrite Er. cbn [drop take]. exists rq', (w :: ws). split; [done|]. split; [done|]. split; [|by constructor].
    by rewrite Hl, Hl1, <- app_assoc.
Qed.

(** Posting receive requests. On a queue pair that is set up and has a receive
    queue of its own, requests with entries within the limit are put into the
    queue in order, as many as there is room for; the first of the others is
    reported, with an error if there is one. *)
Theorem post_recv_in_order k wrs s rq :
  let q := es_qp s in
  qp_valid q = true → IB_QPS_INIT ≤ qa_qp_state (qp_attr q) → qp_srq q = None → qp_is_user q = false → qp_rq q = Some rq →
  queue_wf k rq → Forall (recv_fits (cap_max_recv_sge (qp_cap q))) wrs →
  let room := Z.to_nat (2 ^ k - 1 - Z.of_nat (length (queue_list rq))) in
  ∃ rq' ws, rxe_post_recv wrs s = Some ((drop room wrs, if (length wrs <=? room)%nat then Ok tt else Err ENOMEM),
      s <| es_qp ::= λ q, q <| qp_rq := Some rq' |> |>) ∧
    queue_wf k rq' ∧ queue_list rq' = queue_list rq ++ ws ∧ Forall2 recv_stored (take room wrs) ws.
Proof.
  intros q Hv Hst Hsrq Hu Hrq Hwf Hf room. destruct (post_recvs_spec k (cap_max_recv_sge (qp_cap q)) wrs rq Hwf Hf) as (rq' & ws & E & Hrest).
  exists rq', ws. split; [|exact Hrest]. unfold rxe_post_recv, mbind, eng_bind, get_qp, gets. fold q. rewrite Hv.
  destruct (Z.ltb_spec (qa_qp_state (qp_attr q)) IB_QPS_INIT); [lia|]. cbn [negb orb]. rewrite Hsrq, Hu, Hrq.
  cbn [deref mret eng_ret]. rewrite E. done.
Qed.

(** ** Send requests *)

Section send.
Context (um : umem).

(** A request that passes every check, with the entries of its list. *)
Record send_fits (q : rxe_qp) (wr : post_wr) (sge : list ib_sge) : Prop := {
  sf_mask : wr_opcode_mask (wr_opcode (sw_wr wr)) q ≠ 0;
  sf_num : 0 ≤ sw_num_sge wr ≤ cap_max_send_sge (qp_cap q);
  sf_sge : sg_entries (sw_num_sge wr) (sw_sg_list wr) = Some sge;
  sf_atomic : flag_set (wr_opcode_mask (wr_opcode (sw_wr wr)) q) WR_ATOMIC_MASK = true →
    8 ≤ sg_length sge ∧ flag_set (wr_remote_addr (sw_wr wr)) 0x7 = false;
  sf_inline : flag_set (wr_send_flags (sw_wr wr)) IB_SEND_INLINE = true →
    flag_set (wr_opcode_mask (wr_opcode (sw_wr wr)) q) WR_INLINE_MASK = true ∧
    sg_length sge ≤ cap_max_inline_data (qp_cap q)
}.

(** The element that is written over [w0]. *)
Definition send_wqe (q : rxe_qp) (wr : post_wr) (sge : list ib_sge) (w0 : rxe_send_wqe) : rxe_send_wqe :=
  let inline := flag_set (wr_send_flags (sw_wr wr)) IB_SEND_INLINE in
  SendWqe (sw_wr wr) (if one_of (qp_type q) [IB_QPT_UD; IB_QPT_SMI; IB_QPT_GSI] then sw_ah wr else wqe_av w0)
    (wqe_status w0) wqe_state_posted (wr_remote_addr (sw_wr wr)) (wr_opcode_mask (wr_opcode (sw_wr wr)) q)
    (wqe_first_psn w0) (wqe_last_psn w0) (wqe_ack_length w0) (u32 (s32 (qp_ssn q + 1))) (wqe_has_rd_atomic w0)
    (stored_dma (sg_length sge) (sw_num_sge wr)
       (if inline then (copy_inline um false sge).1 else dma_inline_data (wqe_dma w0))
       (if inline then dma_sge (wqe_dma w0) else sge)).

Definition with_posted (w : rxe_send_wqe) (s : eng_state) : eng_state :=
  s <| es_qp ::= λ q, q <| qp_ssn := s32 (qp_ssn q + 1) |>
                        <| qp_sq := advance_producer (store_at (qp_sq q) (producer_addr (qp_sq q)) w) |> |>.

Lemma copy_inline_kernel sge : (copy_inline um false sge).2 = Ok tt.
Proof. induction sge as [|e l IH]; [done|]. cbn. destruct (copy_inline um false l). done. Qed.

Lemma send_fits_inline q wr sge :
  send_fits q wr sge → flag_set (wr_send_flags (sw_wr wr)) IB_SEND_INLINE
    && negb (flag_set (wr_opcode_mask (wr_opcode (sw_wr wr)) q) WR_INLINE_MASK) = false.
Proof.
  intros [_ _ _ _ H5]. destruct (flag_set (wr_send_flags (sw_wr wr)) IB_SEND_INLINE); [|done]. by destruct (H5 eq_refl) as [-> _].
Qed.

Lemma send_fits_valid q wr sge :
  send_fits q wr sge → validate_send_wr q wr (wr_opcode_mask (wr_opcode (sw_wr wr)) q) (sg_length sge) = Ok tt.
Proof.
  intros [_ H2 _ H4 H5]. unfold validate_send_wr. rewrite !Z.gtb_ltb.
  destruct (Z.ltb_spec (cap_max_send_sge (qp_cap q)) (sw_num_sge wr)); [lia|].
  destruct (flag_set _ WR_ATOMIC_MASK); [destruct (H4 eq_refl) as [H8 ->]; destruct (Z.ltb_spec (sg_length sge) 8); [lia|]|]; cbn [andb orb];
  (destruct (flag_set _ IB_SEND_INLINE); [destruct (H5 eq_refl) as [_ H9];
    destruct (Z.ltb_spec (cap_max_inline_data (qp_cap q)) (sg_length sge)); [lia|]|]; done).
Qed.

(** The checks accept nothing else. *)
Lemma send_checked q wr sge :
  0 ≤ sw_num_sge wr → sg_entries (sw_num_sge wr) (sw_sg_list wr) = Some sge →
  let mask := wr_opcode_mask (wr_opcode (sw_wr wr)) q in
  mask ≠ 0 → flag_set (wr_send_flags (sw_wr wr)) IB_SEND_INLINE && negb (flag_set mask WR_INLINE_MASK) = false →
  send_fits q wr sge ∨ validate_send_wr q wr mask (sg_length sge) = Err EINVAL.
Proof.
  intros Hn Hsg mask Hm Hi. unfold validate_send_wr. rewrite !Z.gtb_ltb.
  destruct (Z.ltb_spec (cap_max_send_sge (qp_cap q)) (sw_num_sge wr)); [by right|].
  destruct (flag_set mask WR_ATOMIC_MASK && _) eqn:Ha; [by right|].
  destruct (flag_set (wr_send_flags (sw_wr wr)) IB_SEND_INLINE && (cap_max_inline_data (qp_cap q) <? sg_length sge)) eqn:El; [by right|].
  left. split; [done|done|done| |].
  - fold mask. intros E. rewrite E in Ha. apply orb_false_iff in Ha as [Ha1%Z.ltb_ge Ha2]. done.
  - fold mask. intros E. rewrite E in Hi, El. apply negb_false_iff in Hi. apply Z.ltb_ge in El. done.
Qed.

(** A request whose list has the entries it says. *)
Definition sg_listed (wr : post_wr) : Prop := 0 ≤ sw_num_sge wr ≤ Z.of_nat (length (sw_sg_list wr)).

Definition accepts_send (q : rxe_qp) (wr : post_wr) : Prop := ∃ sge, send_fits q wr sge.

Lemma sg_listed_entries wr : sg_listed wr → ∃ sge, sg_entries (sw_num_sge wr) (sw_sg_list wr) = Some sge.
Proof. intros [? ?]. unfold sg_entries. destruct (Z.leb_spec (sw_num_sge wr) (Z.of_nat (length (sw_sg_list wr)))); [by eexists|lia]. Qed.

Lemma post_sends_refused wr wrs s :
  sg_listed wr → accepts_send (es_qp s) wr ∨ (¬ accepts_send (es_qp s) wr ∧ post_sends um (wr :: wrs) s = Some ((wr :: wrs, Err EINVAL), s)).
Proof.
  intros Hl. destruct (sg_listed_entries wr Hl) as [sge Hsg]. cbn [post_sends]. unfold mbind, eng_bind, get_qp, gets.
  assert (Hone : ∀ sge', send_fits (es_qp s) wr sge' → sge' = sge) by (intros sge' []; congruence).
  destruct (Z.eqb_spec (wr_opcode_mask (wr_opcode (sw_wr wr)) (es_qp s)) 0) as [E|Hm].
  { right. split; [|done]. by intros [? []]. }
  destruct (flag_set (wr_send_flags (sw_wr wr)) IB_SEND_INLINE && _) eqn:Hi.
  { right. split; [|done]. intros [sge' H]. by rewrite (send_fits_inline _ _ _ H) in Hi. }
  destruct (send_checked (es_qp s) wr sge) as [Hf|Hv]; [apply Hl|done|done|done|by left; exists sge|].
  right. split.
  - intros [sge' H]. pose proof (Hone _ H) as ->. rewrite (send_fits_valid _ _ _ H) in Hv. done.
  - rewrite Hsg. cbn [deref mret eng_ret]. unfold post_one_send, mbind, eng_bind, get_qp, gets. by rewrite Hv.
Qed.

Lemma post_sends_full wr wrs sge s :
  send_fits (es_qp s) wr sge → queue_full (qp_sq (es_qp s)) = true →
  post_sends um (wr :: wrs) s = Some ((wr :: wrs, Err ENOMEM), s).
Proof.
  intros Hwr Hf. cbn [post_sends]. unfold mbind, eng_bind, get_qp, gets.
  destruct (Z.eqb_spec (wr_opcode_mask (wr_opcode (sw_wr wr)) (es_qp s)) 0); [by destruct Hwr|].
  rewrite (send_fits_inline _ _ _ Hwr), (sf_sge _ _ _ Hwr). cbn [deref mret eng_ret].
  unfold post_one_send, mbind, eng_bind, get_qp, gets. by rewrite (send_fits_valid _ _ _ Hwr), Hf.
Qed.

Lemma post_sends_cons wr wrs sge s w0 :
  send_fits (es_qp s) wr sge → qp_is_user (es_qp s) = false → queue_full (qp_sq (es_qp s)) = false →
  elem_at (qp_sq (es_qp s)) (producer_addr (qp_sq (es_qp s))) = Some w0 →
  post_sends um (wr :: wrs) s = post_sends um wrs (with_posted (send_wqe (es_qp s) wr sge w0) s).
Proof.
  intros Hwr Hu Hf Hw. cbn [post_sends]. unfold mbind, eng_bind, get_qp, gets.
  destruct (Z.eqb_spec (wr_opcode_mask (wr_opcode (sw_wr wr)) (es_qp s)) 0); [by destruct Hwr|].
  rewrite (send_fits_inline _ _ _ Hwr), (sf_sge _ _ _ Hwr). cbn [deref mret eng_ret].
  unfold post_one_send, mbind, eng_bind, get_qp, gets. rewrite (send_fits_valid _ _ _ Hwr), Hf.
  unfold sq_wqe, mbind, eng_bind, get_qp, gets. rewrite Hw. cbn [deref mret eng_ret].
  unfold init_send_wqe, mbind, eng_bind, get_qp, gets, init_send_data. rewrite Hu, (sf_sge _ _ _ Hwr). cbn [mbind option_bind].
  unfold send_wqe. set (isud := one_of (qp_type (es_qp s)) [IB_QPT_UD; IB_QPT_SMI; IB_QPT_GSI]).
  destruct (flag_set (wr_send_flags (sw_wr wr)) IB_SEND_INLINE).
  - pose proof (copy_inline_kernel sge) as Hc. destruct (copy_inline um false sge) as [bytes err]. cbn in Hc. subst err.
    cbn [deref mret eng_ret fst]. f_equal. destruct s as [? [] ? ? ? ?]. by destruct isud.
  - pose proof (sf_num _ _ _ Hwr). destruct (Z.ltb_spec (sw_num_sge wr) 0); [lia|]. cbn [mbind option_bind deref mret eng_ret]. f_equal.
    destruct s as [? [] ? ? ? ?]. by destruct isud.
Qed.
End send.

Section sends.
Context (um : umem).

(** The number of the queue pair after [n] requests. *)
Definition ssn_after (ssn : Z) (n : nat) : Z := Nat.iter n (λ x, s32 (x + 1)) ssn.

Lemma ssn_after_S ssn n : ssn_after ssn (S n) = ssn_after (s32 (ssn + 1)) n.
Proof. exact (Nat.iter_succ_r n (λ x, s32 (x + 1)) ssn). Qed.

(** The elements of the requests, each numbered by its place; what a request does
    not set is left from the element that was in the slot before. *)
Definition send_stored (q : rxe_qp) (wrs : list post_wr) (ws : list rxe_send_wqe) : Prop :=
  length ws = length wrs ∧ ∀ (i : nat) wr w, wrs !! i = Some wr → ws !! i = Some w →
    ∃ sge w0, sg_entries (sw_num_sge wr) (sw_sg_list wr) = Some sge ∧
      w = send_wqe um (q <| qp_ssn := ssn_after (qp_ssn q) i |>) wr sge w0.

Lemma send_fits_ext q q' wr sge :
  qp_qp_type q' = qp_qp_type q → qp_cap q' = qp_cap q → send_fits q wr sge → send_fits q' wr sge.
Proof.
  intros E1 E2. assert (Em : wr_opcode_mask (wr_opcode (sw_wr wr)) q' = wr_opcode_mask (wr_opcode (sw_wr wr)) q).
  { unfold wr_opcode_mask. by rewrite E1. }
  intros []. by split; rewrite ?Em, ?E2.
Qed.

Lemma accepts_ext q q' wr : qp_qp_type q' = qp_qp_type q → qp_cap q' = qp_cap q → accepts_send q wr ↔ accepts_send q' wr.
Proof. intros E1 E2. by split; intros [sge H]; exists sge; eapply send_fits_ext; [..|exact H]. Qed.

Lemma send_stored_cons q q' wr wrs sge w0 ws :
  qp_qp_type q' = qp_qp_type q → qp_ssn q' = s32 (qp_ssn q + 1) → sg_entries (sw_num_sge wr) (sw_sg_list wr) = Some sge →
  send_stored q' wrs ws → send_stored q (wr :: wrs) (send_wqe um q wr sge w0 :: ws).
Proof.
  intros E1 E2 Hsg [Hlen Hall]. split; [cbn; congruence|]. intros [|i] wr' w Hwr Hw; cbn in Hwr, Hw.
  - injection Hwr as <-. injection Hw as <-. exists sge, w0. split; [done|]. by destruct q.
  - destruct (Hall i wr' w Hwr Hw) as (sge' & w0' & H1 & ->). exists sge', w0'. split; [done|].
    rewrite ssn_after_S, <- E2. unfold send_wqe, wr_opcode_mask, qp_type. cbn. by rewrite E1.
Qed.

(** What becomes of a list: the first [n] requests are posted, and the next one, if
    there is one, is refused. *)
Record post_outcome (q : rxe_qp) (room : nat) (wrs : list post_wr) (n : nat) (r : result unit) : Prop := {
  po_room : (n ≤ room)%nat;
  po_length : (n ≤ length wrs)%nat;
  po_fits : Forall (accepts_send q) (take n wrs);
  po_next : match drop n wrs with
            | [] => r = Ok tt
            | wr :: _ => ¬ accepts_send q wr ∧ r = Err EINVAL ∨ accepts_send q wr ∧ n = room ∧ r = Err ENOMEM
            end
}.

Lemma outcome_cons q q' room wr wrs n r :
  qp_qp_type q' = qp_qp_type q → qp_cap q' = qp_cap q → accepts_send q wr → post_outcome q' room wrs n r → post_outcome q (S room) (wr :: wrs) (S n) r.
Proof.
  intros E1 E2 Hf [H1 H2 H3 H4]. split; cbn [take drop length]; [lia|lia| |].
  - constructor; [done|]. eapply Forall_impl; [|exact H3]. intros x. by apply (accepts_ext q q').
  - destruct (drop n wrs) as [|x l]; [done|]. rewrite (accepts_ext q q') by done. destruct H4 as [?|(? & ? & ?)]; [by left|]. right. auto.
Qed.

Lemma post_sends_spec k wrs : ∀ s,
  queue_wf k (qp_sq (es_qp s)) → qp_is_user (es_qp s) = false → Forall sg_listed wrs →
  let q := es_qp s in
  let room := Z.to_nat (2 ^ k - 1 - Z.of_nat (length (queue_list (qp_sq q)))) in
  ∃ n r sq' ws, post_outcome q room wrs n r ∧
    post_sends um wrs s = Some ((drop n wrs, r),
      s <| es_qp ::= λ q, q <| qp_ssn := ssn_after (qp_ssn q) n |> <| qp_sq := sq' |> |>) ∧
    queue_wf k sq' ∧ sq' = qp_sq q <| q_buf := q_buf sq' |> ∧ queue_list sq' = queue_list (qp_sq q) ++ ws ∧
    send_stored q (take n wrs) ws.
Proof.
  induction wrs as [|wr wrs IH]; intros s Hwf Hu Hf q room.
  { exists 0%nat, (Ok tt), (qp_sq q), []. split; [by split; cbn; [lia|lia|constructor|]|]. split; [by destruct s as [? [] ? ? ? ?]|].
    split; [done|]. split; [by destruct (qp_sq q)|]. by rewrite app_nil_r. }
  apply Forall_cons_1 in Hf as [Hl Hf]. destruct (post_sends_refused um wr wrs s Hl) as [Hfit|[Hn E]].
  2:{ exists 0%nat, (Err EINVAL), (qp_sq q), []. split; [split; cbn; [lia|lia|constructor|by left]|]. split; [rewrite E; by destruct s as [? [] ? ? ? ?]|].
      split; [done|]. split; [by destruct (qp_sq q)|]. by rewrite app_nil_r. }
  pose proof Hfit as [sge Hwr]. pose proof (queue_full_list k _ Hwf) as Hfu. pose proof (queue_list_length k _ Hwf) as Hlen.
  pose proof (queue_count_range k _ Hwf) as Hr. fold q in Hlen, Hr, Hfu.
  destruct (Z.eqb_spec (Z.of_nat (length (queue_list (qp_sq q)))) (2 ^ k - 1)) as [Hfull|Hnot].
  - exists 0%nat, (Err ENOMEM), (qp_sq q), []. split; [split; cbn; [lia|lia|constructor|right; split; [done|split; [unfold room; lia|done]]]|].
    split; [rewrite (post_sends_full um _ _ sge) by done; by destruct s as [? [] ? ? ? ?]|].
    split; [done|]. split; [by destruct (qp_sq q)|]. by rewrite app_nil_r.
  - destruct (producer_elem k _ Hwf) as [w0 Hw0]. rewrite (post_sends_cons um _ _ sge _ w0) by done.
    set (w := send_wqe um (es_qp s) wr sge w0). set (s1 := with_posted w s).
    destruct (queue_push k (qp_sq q) w Hwf Hfu) as [Hwf1 Hl1].
    destruct (IH s1 Hwf1 Hu Hf) as (n & r & sq' & ws & Hp & E & Hwf' & Hb & Hlist & Hall).
    change (qp_sq (es_qp s1)) with (advance_producer (store_at (qp_sq q) (producer_addr (qp_sq q)) w)) in Hp, Hb, Hlist.
    rewrite Hl1 in Hp, Hlist. exists (S n), r, sq', (w :: ws).
    split; [|split; [|split; [done|split; [|split]]]].
    + replace room with (S (Z.to_nat (2 ^ k - 1 - Z.of_nat (length (queue_list (qp_sq q) ++ [w])))))
        by (unfold room; rewrite length_app; cbn; lia).
      by apply (outcome_cons q (es_qp s1)).
    + rewrite E. cbn [drop]. unfold upd_field. rewrite ssn_after_S. by destruct s as [? [] ? ? ? ?].
    + rewrite Hb. by destruct (qp_sq q).
    + by rewrite Hlist, <- app_assoc.
    + by apply (send_stored_cons q (es_qp s1)); [..|apply Hwr|].
Qed.

(** One request, into an empty queue. *)
Lemma post_single wr sge w0 s :
  let q := es_qp s in
  qp_valid q = true → req_state (qp_req q) = QP_STATE_READY → qp_is_user q = false → queue_full (qp_sq q) = false →
  send_fits q wr sge → elem_at (qp_sq q) (producer_addr (qp_sq q)) = Some w0 →
  ∃ b, rxe_post_send um [wr] s = Some (([], Ok tt),
    with_posted (send_wqe um q wr sge w0) s <| es_ev ::= (λ l, l ++ [EvTask task_req b]) |>).
Proof.
  intros q Hv Hst Hu Hf Hwr Hw0. eexists. unfold rxe_post_send, mbind, eng_bind, get_qp, gets. fold q.
  rewrite Hv, Hst, Hu. change (before_ready QP_STATE_READY) with false. rewrite bool_decide_eq_false_2 by done.
  cbn [negb orb mret eng_ret]. rewrite (post_sends_cons um _ _ sge _ w0) by done. cbn [post_sends mret eng_ret]. reflexivity.
Qed.

(** C32: posting send requests, on a queue pair of the kernel, with lists that have
    the entries they say. When the queue pair does not send, the call is refused and
    nothing changes. Otherwise the requests are taken in order, as long as they
    respect the limits of the queue pair and there is room: they are put into the
    send queue and numbered, and the requester is called or scheduled. The first
    request that is not taken is reported, as invalid if it breaks a limit, also
    when there is room, and for want of room otherwise. Nothing else changes. *)
Theorem post_send_in_order k wrs s :
  let q := es_qp s in
  qp_is_user q = false → queue_wf k (qp_sq q) → Forall sg_listed wrs →
  let room := Z.to_nat (2 ^ k - 1 - Z.of_nat (length (queue_list (qp_sq q)))) in
  if negb (qp_valid q) || bool_decide (req_state (qp_req q) ∈ [QP_STATE_RESET; QP_STATE_INIT; QP_STATE_ERROR])
  then rxe_post_send um wrs s = Some ((wrs, Err EINVAL), s)
  else ∃ n r sq' ws, post_outcome q room wrs n r ∧
    rxe_post_send um wrs s = Some ((drop n wrs, r),
      s <| es_qp ::= λ q, q <| qp_ssn := ssn_after (qp_ssn q) n |> <| qp_sq := sq' |> |>
        <| es_ev ::= (λ l, l ++ [EvTask task_req (queue_count sq' >? 1)]) |>) ∧
    queue_wf k sq' ∧ sq' = qp_sq q <| q_buf := q_buf sq' |> ∧ queue_list sq' = queue_list (qp_sq q) ++ ws ∧
    send_stored q (take n wrs) ws.
Proof.
  intros q Hu Hwf Hf room. destruct (post_sends_spec k wrs s Hwf Hu Hf) as (n & r & sq' & ws & Hp & E & Hrest).
  unfold rxe_post_send, mbind, eng_bind, get_qp, gets. fold q. destruct (qp_valid q); [|done]. cbn [negb orb].
  case_bool_decide as Hst.
  - repeat (apply elem_of_cons in Hst as [-> |Hst]; [done|]). by apply elem_of_nil in Hst.
  - exists n, r, sq', ws. split; [done|]. split; [|done]. rewrite Hu.
    assert (Hs : req_state (qp_req q) ∈ [QP_STATE_READY; QP_STATE_DRAIN; QP_STATE_DRAINED])
      by (destruct (req_state (qp_req q)); set_solver).
    destruct (sends_state _ Hs) as [-> ->]. cbn [orb mret eng_ret]. rewrite E. unfold rxe_run_task, emit, modify. done.
Qed.
End sends.

(** ** Examples *)

Definition example_post_rq : rxe_queue rxe_recv_wqe :=
  Queue (QueueBuf 7 1 0 0 (replicate 2 (RecvWqe 0 0 (Dma 0 0 0 0 0 [] [])))) 9 None 640 100 7 1.

Definition example_recv (id : Z) : ib_recv_wr := RecvWr id 1 [Sge 1000 16 0x102].

(** Two requests, with room for one. *)
Lemma post_recv_in_order_witness :
  let s := example_es (example_qp (example_sq 0 0 []) [] 0 0 <| qp_rq := Some example_post_rq |>) in
  ∃ rq' w, rxe_post_recv [example_recv 1; example_recv 2] s = Some (([example_recv 2], Err ENOMEM), s <| es_qp ::= λ q, q <| qp_rq := Some rq' |> |>) ∧
    queue_list rq' = [w] ∧ rwqe_wr_id w = 1.
Proof.
  intros s. destruct (post_recv_in_order 1 [example_recv 1; example_recv 2] s example_post_rq) as (rq' & ws & E & _ & Hl & Hall).
  - reflexivity.
  - vm_compute. discriminate.
  - reflexivity.
  - reflexivity.
  - reflexivity.
  - split; [split|..]; cbn; lia || done.
  - repeat constructor; cbn; lia.
  - inversion Hall as [|wr w wrs ws' Hw Hnil]; subst. inversion Hnil; subst. exists rq', w. split; [exact E|]. split; [exact Hl|]. apply Hw.
Defined.

Definition example_post (id : Z) : post_wr :=
  PostWr (SendWr id IB_WR_SEND 0 0 0 0 0 0 0 0 0 0) 1 [Sge 1000 16 0x102] example_av.

(** Four requests: with room for three, the fourth is refused for want of room; when
    the second has too many entries, it is refused although there is room. *)
Lemma post_send_in_order_witness :
  let um := Umem (λ _ _, []) (λ _ _, false) in
  let slot := example_send 0 0 wqe_state_posted 0 0 0 (Dma 0 0 0 0 0 [] []) in
  let s := example_es (example_qp (example_sq 0 0 (replicate 4 slot)) [] 0 0) in
  let big := example_post 2 <| sw_num_sge := 50 |> <| sw_sg_list := replicate 50 (Sge 1000 16 0x102) |> in
  (∃ s', rxe_post_send um (example_post <$> [1; 2; 3; 4]) s = Some (([example_post 4], Err ENOMEM), s') ∧ qp_ssn (es_qp s') = 3) ∧
  (∃ s', rxe_post_send um [example_post 1; big; example_post 3] s = Some (([big; example_post 3], Err EINVAL), s') ∧ qp_ssn (es_qp s') = 1).
Proof.
  intros um slot s big. assert (Hwf : queue_wf 2 (qp_sq (es_qp s))) by (split; [split|..]; cbn; lia || done). split.
  - destruct (post_send_in_order um 2 (example_post <$> [1; 2; 3; 4]) s) as (n & r & sq' & ws & Hp & E & _); [reflexivity|exact Hwf| |].
    + repeat constructor; cbn; lia.
    + eexists. split; [vm_compute; reflexivity|reflexivity].
  - destruct (post_send_in_order um 2 [example_post 1; big; example_post 3] s) as (n & r & sq' & ws & Hp & E & _); [reflexivity|exact Hwf| |].
    + repeat constructor; cbn; lia.
    + eexists. split; [vm_compute; reflexivity|reflexivity].
Defined.
