(* ===== verification/QpReset.v ===== *)
(** * Resetting a queue pair (rxe_qp_reset)

    A reset stops the engines, removes what is queued, and brings the protocol
    state back to its beginning, up to two members it does not touch: the opcode
    the completer saw last, and the read the responder is answering. *)

From stdpp Require Import gmap.
From S2P Require Import Prelude Queue Opcode Hdr Verbs Mr Cq State Av QpState Comp Req Resp Qp.

(** ** Emptied queues *)

Definition emptied {A} (q : rxe_queue A) : rxe_queue A :=
  q <| q_buf ::= λ b, b <| buf_consumer_index := buf_producer_index b |> |>.

Lemma emptied_advance {A} (q : rxe_queue A) : emptied (advance_consumer q) = emptied q.
Proof. by destruct q as [[]]. Qed.

Lemma emptied_wf {A} k (q : rxe_queue A) : queue_wf k q → queue_wf k (emptied q) ∧ queue_list (emptied q) = [].
Proof.
  intros [Hg Hp Hc]. assert (Hwf : queue_wf k (emptied q)) by (split; [by destruct Hg; split|exact Hp|exact Hp]).
  split; [done|]. apply nil_length_inv. pose proof (queue_list_length k _ Hwf) as Hl.
  rewrite (queue_count_mod k _ Hwf) in Hl. cbn in Hl. rewrite Z.sub_diag, Z.mod_0_l in Hl; [lia|].
  pose proof (geom_pow _ _ Hg). lia.
Qed.

Lemma emptied_id {A} k (q : rxe_queue A) : queue_wf k q → queue_count q = 0 → q = emptied q.
Proof.
  intros Hwf Hc. rewrite (queue_count_mod k _ Hwf) in Hc. destruct Hwf as [Hg Hp Hq].
  assert (E : buf_consumer_index (q_buf q) = buf_producer_index (q_buf q)).
  { apply Z.mod_divide in Hc as [c Hc]; [|lia]. destruct (Z.eq_dec c 0) as [->|]; [lia|nia]. }
  destruct q as [[]]. cbn in *. by subst.
Qed.

Lemma queue_head_dec {A} k (q : rxe_queue A) :
  queue_wf k q → (queue_head q = None ∧ queue_count q = 0) ∨ (∃ a, queue_head q = Some a ∧ 1 ≤ queue_count q).
Proof.
  intros Hwf. unfold queue_head. rewrite queue_empty_count. pose proof (queue_count_range k q Hwf).
  destruct (Z.eqb_spec (queue_count q) 0); [by left|right]. eexists. split; [done|lia].
Qed.

(** ** The engines in reset *)

Section engines.
Context `{Params}.

(** The state after the completer has thrown away what was queued for it. *)
Definition completer_emptied (s : eng_state) (sq : rxe_queue rxe_send_wqe) (r n : Z) (ev : list qp_event) : eng_state :=
  s <| es_dev ::= λ d, d <| rdev_resp_skb_in := n |> |>
    <| es_qp ::= λ q, q <| qp_sq := sq |> <| qp_resp_pkts := [] |> <| qp_ref := r |> |> <| es_ev := ev |>.

Lemma wp_drain_pkts_exact F fuel : ∀ s Q,
  (length (qp_resp_pkts (es_qp s)) ≤ fuel)%nat →
  (∀ r n ev, r = qp_ref (es_qp s) - Z.of_nat (length (qp_resp_pkts (es_qp s))) →
     Q tt (completer_emptied s (qp_sq (es_qp s)) r n ev)) →
  wp F (comp_drain_pkts fuel) Q s.
Proof.
  induction fuel as [|fuel IH]; intros s Q Hf HQ; cbn [comp_drain_pkts]; unfold dequeue_resp_pkt;
    wp_run; destruct (qp_resp_pkts (es_qp s)) as [|p l] eqn:E.
  1, 3: wp_run; replace s with (completer_emptied s (qp_sq (es_qp s)) (qp_ref (es_qp s)) (rdev_resp_skb_in (es_dev s)) (es_ev s));
    [apply HQ; cbn; lia|]; destruct s as [[] [] ? ? ? ?]; cbn in E; subst; reflexivity.
  - cbn in Hf. lia.
  - wp_run. unfold comp_free_pkt, qp_drop_ref. wp_run. apply IH; [cbn in *; lia|]. intros r n ev Hr.
    cbn in Hr. apply (HQ r n ev). cbn [length]. lia.
Qed.

Lemma wp_drain_sq_exact F k fuel : ∀ s Q,
  queue_wf k (qp_sq (es_qp s)) → queue_count (qp_sq (es_qp s)) ≤ Z.of_nat fuel →
  Q tt (s <| es_qp ::= λ q, q <| qp_sq := emptied (qp_sq q) |> |>) →
  wp F (comp_drain_sq fuel) Q s.
Proof.
  induction fuel as [|fuel IH]; intros s Q Hwf Hf HQ; cbn [comp_drain_sq]; wp_run;
    destruct (queue_head_dec k _ Hwf) as [[-> Hz]|(a & -> & Hn)].
  1, 3: wp_run; replace s with (s <| es_qp ::= λ q, q <| qp_sq := emptied (qp_sq q) |> |>); [done|];
    pose proof (emptied_id k _ Hwf Hz) as E; destruct s as [d q al se j ev]; cbn in E |- *; unfold upd_field;
    cbn; rewrite <- E; by destruct q.
  - lia.
  - wp_run. destruct (advance_consumer_wf k _ Hwf) as [Hwf' Hc]. apply IH; [exact Hwf'|cbn; rewrite Hc; lia|].
    match goal with |- Q tt ?x => replace x with (s <| es_qp ::= λ q, q <| qp_sq := emptied (qp_sq q) |> |>) end; [done|].
    destruct s as [d q al se j ev]. unfold upd_field. cbn. by rewrite <- (emptied_advance (qp_sq q)).
Qed.

Lemma wp_completer_reset F k depth fuel s Q :
  queue_wf k (qp_sq (es_qp s)) → qp_valid (es_qp s) = true → req_state (qp_req (es_qp s)) = QP_STATE_RESET →
  (∀ r n ev, r = qp_ref (es_qp s) - Z.of_nat (length (qp_resp_pkts (es_qp s))) →
     Q (Err EAGAIN) (completer_emptied s (emptied (qp_sq (es_qp s))) r n ev)) →
  wp F (rxe_completer (S depth) fuel) Q s.
Proof.
  intros Hwf Hv Hst HQ. cbn [rxe_completer]. unfold completer_body. wp_run. rewrite Hv, Hst. cbn [negb].
  rewrite bool_decide_eq_false_2, bool_decide_eq_true_2 by done. wp_run. unfold comp_drain. wp_run.
  apply wp_drain_pkts_exact; [lia|]. intros r n ev Hr. pose proof (queue_count_range k _ Hwf).
  apply (wp_drain_sq_exact _ k); [exact Hwf|cbn; lia|]. wp_run. by apply HQ.
Qed.

(** The same of the responder; [rq] is the receive queue afterwards. *)
Definition responder_emptied (s : eng_state) (rq : option (rxe_queue rxe_recv_wqe)) (r n m : Z) (ev : list qp_event)
    : eng_state :=
  s <| es_dev ::= λ d, d <| rdev_req_skb_in := n |> |>
    <| es_qp ::= λ q, q <| qp_rq := rq |> <| qp_req_pkts := [] |> <| qp_ref := r |> <| qp_req_skb_in := m |> |>
    <| es_ev := ev |>.

Lemma wp_reset_req_pkts F fuel : ∀ s Q,
  (length (qp_req_pkts (es_qp s)) ≤ fuel)%nat →
  (∀ r n m ev, r = qp_ref (es_qp s) - Z.of_nat (length (qp_req_pkts (es_qp s))) →
     Q tt (responder_emptied s (qp_rq (es_qp s)) r n m ev)) →
  wp F (reset_req_pkts fuel) Q s.
Proof.
  induction fuel as [|fuel IH]; intros s Q Hf HQ; cbn [reset_req_pkts]; unfold dequeue_req_pkt;
    wp_run; destruct (qp_req_pkts (es_qp s)) as [|p l] eqn:E.
  1, 3: wp_run; replace s with (responder_emptied s (qp_rq (es_qp s)) (qp_ref (es_qp s)) (rdev_req_skb_in (es_dev s))
      (qp_req_skb_in (es_qp s)) (es_ev s));
    [apply HQ; cbn; lia|]; destruct s as [[] [] ? ? ? ?]; cbn in E; subst; reflexivity.
  - cbn in Hf. lia.
  - wp_run. unfold free_req_pkt, qp_drop_ref. wp_run. apply IH; [cbn in *; lia|]. intros r n m ev Hr.
    cbn in Hr. apply (HQ r n m ev). cbn [length]. lia.
Qed.

(** A receive queue of its own is emptied, a shared one is left alone. *)
Definition rq_after_reset (q : rxe_qp) : option (rxe_queue rxe_recv_wqe) :=
  match qp_srq q with None => emptied <$> qp_rq q | Some _ => qp_rq q end.

Definition rq_good (q : rxe_qp) : Prop := ∀ rq, qp_rq q = Some rq → ∃ k, queue_wf k rq.

Lemma wp_reset_rq F fuel : ∀ s Q,
  rq_good (es_qp s) → (∀ rq, qp_rq (es_qp s) = Some rq → queue_count rq ≤ Z.of_nat fuel) →
  Q tt (s <| es_qp ::= λ q, q <| qp_rq := rq_after_reset q |> |>) →
  wp F (reset_rq fuel) Q s.
Proof.
  assert (Hsame : ∀ s, qp_rq (es_qp s) = rq_after_reset (es_qp s) →
    s <| es_qp ::= λ q, q <| qp_rq := rq_after_reset q |> |> = s).
  { intros [d q al se j ev] E. unfold upd_field. cbn in *. rewrite <- E. by destruct q. }
  induction fuel as [|fuel IH]; intros s Q Hg Hf HQ; cbn [reset_rq]; wp_run; unfold rq_after_reset in Hsame.
  all: destruct (qp_srq (es_qp s)) as [srq|] eqn:Es; [wp_run; rewrite Hsame in HQ; [done|by rewrite Es]|].
  all: destruct (qp_rq (es_qp s)) as [rq|] eqn:Er; [|wp_run; rewrite Hsame in HQ; [done|by rewrite Es, Er]].
  all: destruct (Hg _ Er) as [k Hwf]; destruct (queue_head_dec k _ Hwf) as [[-> Hz]|(a & -> & Hn)].
  1, 3: wp_run; rewrite Hsame in HQ; [done|]; rewrite Es, Er; cbn; by rewrite <- (emptied_id k rq).
  - specialize (Hf _ eq_refl). lia.
  - wp_run. destruct (advance_consumer_wf k _ Hwf) as [Hwf' Hc]. apply IH.
    + intros rq' Hrq. cbn in Hrq. injection Hrq as <-. by exists k.
    + intros rq' Hrq. cbn in Hrq. injection Hrq as <-. rewrite Hc by done. specialize (Hf _ eq_refl). lia.
    + match goal with |- Q tt ?x => replace x with (s <| es_qp ::= λ q, q <| qp_rq := rq_after_reset q |> |>) end; [done|].
      destruct s as [d q al se j ev]. unfold upd_field, rq_after_reset. cbn in *. rewrite Es, Er. cbn. by rewrite emptied_advance.
Qed.

Lemma wp_responder_reset F depth cfuel fuel s Q :
  rq_good (es_qp s) → qp_valid (es_qp s) = true → resp_state (qp_resp (es_qp s)) = QP_STATE_RESET →
  (∀ r n m ev, r = qp_ref (es_qp s) - Z.of_nat (length (qp_req_pkts (es_qp s))) →
     Q (Err EAGAIN) (responder_emptied s (rq_after_reset (es_qp s)) r n m ev
       <| es_qp ::= λ q, q <| qp_resp ::= λ x, x <| resp_aeth_syndrome := AETH_ACK_UNLIMITED |> <| resp_wqe := None |> |> |>)) →
  wp F (rxe_responder depth cfuel (S fuel)) Q s.
Proof.
  intros Hg Hv Hst HQ. unfold rxe_responder. wp_run.
  set (s1 := s <| es_qp ::= _ |>). rewrite (Hv : qp_valid (es_qp s1) = true), (Hst : resp_state (qp_resp (es_qp s1)) = _). cbn [negb].
  rewrite bool_decide_eq_true_2 by done. cbn [resp_loop]. unfold resp_step, resp_reset. wp_run.
  apply wp_reset_req_pkts; [done|]. intros r n m ev Hr. wp_run. apply wp_reset_rq.
  - exact Hg.
  - intros rq Hrq. cbn in Hrq |- *. rewrite Hrq. destruct (Hg _ Hrq) as [k Hwf]. pose proof (queue_count_range k _ Hwf). lia.
  - wp_run. specialize (HQ r n m ev Hr). revert HQ. clear. subst s1. destruct s as [d [] al se j ev0]. exact (λ x, x).
Qed.

(** The requester takes its position in the send queue from the consumer. *)
Lemma wp_requester_reset F depth fuel s Q :
  qp_valid (es_qp s) = true → req_state (qp_req (es_qp s)) = QP_STATE_RESET →
  Q (Err EAGAIN) (s <| es_qp ::= λ q, q <| qp_req ::= λ r, r <| req_wqe_index := consumer_index (qp_sq q) |>
    <| req_opcode := -1 |> <| req_need_rd_atomic := false |> <| req_wait_psn := false |> <| req_need_retry := false |> |> |>) →
  wp F (rxe_requester depth fuel) Q s.
Proof.
  intros Hv Hst HQ. unfold rxe_requester. wp_run. rewrite Hv, Hst. cbn [negb orb].
  rewrite bool_decide_eq_false_2, bool_decide_eq_true_2 by done. wp_run. exact HQ.
Qed.
End engines.

(** ** The resources of the responder *)

Definition res_ok (res : resp_res) : Prop :=
  (res_type res = RXE_ATOMIC_MASK → ∃ skb, res_ptr res = res_skb skb) ∧
  (res_type res = RXE_READ_MASK → ∀ skb, res_ptr res ≠ res_skb skb).

(** The region a read holds, and the packets atomic operations keep. *)
Definition held_mr (res : resp_res) : option mem_handle :=
  if res_type res =? RXE_READ_MASK then match res_ptr res with res_mr h => Some h | _ => None end else None.

Definition held_skb (res : resp_res) : option rxe_pkt_info :=
  if res_type res =? RXE_ATOMIC_MASK then match res_ptr res with res_skb skb => Some skb | _ => None end else None.

Definition atomics (l : list resp_res) : Z := Z.of_nat (length (omap held_skb l)).

Definition resources_of (q : rxe_qp) : list resp_res := default [] (resp_resources (qp_resp q)).

Definition unused (res : resp_res) : resp_res := res <| res_type := 0 |>.

Definition drop_refs (d : mem_dev) (l : list mem_handle) : mem_dev := foldl mem_drop_ref d l.

(** The state after the resources [l] have been given back, and are [l']. *)
Definition with_resources (s : eng_state) (l : list resp_res) (m : mem_dev) (r n : Z) (ev : list qp_event) : eng_state :=
  s <| es_dev ::= λ d, d <| rdev_mem := m |> <| rdev_resp_skb_out := n |> |>
    <| es_qp ::= λ q, q <| qp_ref := r |> <| qp_resp ::= λ x, x <| resp_resources := Some l |> |> |> <| es_ev := ev |>.

Definition resources_freed (l l' : list resp_res) (s : eng_state) : eng_state :=
  with_resources s l' (drop_refs (rdev_mem (es_dev s)) (omap held_mr l)) (qp_ref (es_qp s) - atomics l)
    (rdev_resp_skb_out (es_dev s) - atomics l) (es_ev s ++ (EvFree <$> omap held_skb l)).

(** Two descriptions of a state whose resources are known. *)
Ltac same_resources :=
  match goal with
  | HQ : ?Q ?r _, Hl : resp_resources (qp_resp (es_qp ?s)) = Some _ |- ?Q ?r _ =>
      revert HQ Hl; clear;
      let qr := fresh in
      destruct s as [[] [? ? ? ? ? ? ? ? ? ? ? ? ? ? ? ? ? ? ? ? ? qr] ? ? ? ?]; destruct qr; cbn [es_qp qp_resp resp_resources];
      intros HQ ->; exact HQ
  end.

Section resources.
Context `{Params}.

Lemma with_resources_twice s l m r n ev l' m' r' n' ev' :
  with_resources (with_resources s l m r n ev) l' m' r' n' ev' = with_resources s l' m' r' n' ev'.
Proof. by destruct s as [[] [] ? ? ? ?]. Qed.

Lemma resources_freed_twice l1 l2 l1' l2' s :
  resources_freed l2 l2' (resources_freed l1 l1' s) = resources_freed (l1 ++ l2) l2' s.
Proof.
  unfold resources_freed at 1 2. rewrite with_resources_twice. unfold resources_freed.
  cbn [with_resources es_dev es_qp es_ev rdev_mem rdev_resp_skb_out qp_ref upd_field].
  unfold drop_refs, atomics. rewrite !omap_app, foldl_app, fmap_app, length_app, app_assoc.
  f_equal; cbn; lia.
Qed.

Lemma resources_freed_nil l s : resp_resources (qp_resp (es_qp s)) = Some l → resources_freed [] l s = s.
Proof.
  unfold resources_freed, atomics. cbn. rewrite !Z.sub_0_r, app_nil_r.
  destruct s as [[] [? ? ? ? ? ? ? ? ? ? ? ? ? ? ? ? ? ? ? ? ? r] ? ? ? ?]. destruct r. cbn. by intros ->.
Qed.

Definition idle_res (res : resp_res) : Prop := res_type res = 0.

Lemma idle_holds_nothing l : Forall idle_res l → omap held_mr l = [] ∧ omap held_skb l = [] ∧ Forall res_ok l.
Proof.
  induction 1 as [|res l E _ (IH1 & IH2 & IH3)]; [done|]. unfold idle_res in E. cbn [omap list_omap].
  unfold held_mr at 1, held_skb at 1. rewrite E. split; [exact IH1|]. split; [exact IH2|]. constructor; [|done].
  unfold res_ok. rewrite E. done.
Qed.

Lemma resources_freed_idle l l' s :
  Forall idle_res l → resources_freed l l' s = s <| es_qp ::= λ q, q <| qp_resp ::= λ r, r <| resp_resources := Some l' |> |> |>.
Proof.
  intros (E1 & E2 & _)%idle_holds_nothing. unfold resources_freed, atomics. rewrite E1, E2. cbn. rewrite !Z.sub_0_r, app_nil_r.
  by destruct s as [[] [] ? ? ? ?].
Qed.

Lemma unused_idle l : Forall idle_res (map unused l).
Proof. by induction l; constructor. Qed.

Lemma wp_free_resource F i s l res Q :
  resp_resources (qp_resp (es_qp s)) = Some l → l !! i = Some res → res_ok res →
  Q tt (resources_freed [res] (<[i := unused res]> l) s) → wp F (free_rd_atomic_resource i) Q s.
Proof.
  intros Hl Hi [Ha Hr] HQ. unfold free_rd_atomic_resource, get_res. wp_run. rewrite Hl. wp_run. rewrite Hi. wp_run.
  assert (Hal : alter (λ r, r <| res_type := 0 |>) i l = <[i := unused res]> l).
  { apply list_eq. intros j. destruct (decide (i = j)) as [<-|Hj].
    - rewrite list_lookup_alter_eq, Hi, list_lookup_insert_eq by (by eapply lookup_lt_Some). done.
    - by rewrite list_lookup_alter_ne, list_lookup_insert_ne. }
  rewrite <- Hal in HQ. unfold resources_freed, atomics, held_mr, held_skb, drop_refs in HQ. cbn [omap list_omap] in HQ.
  destruct (Z.eqb_spec (res_type res) RXE_ATOMIC_MASK) as [E|E].
  - destruct (Ha E) as [skb Hs]. rewrite Hs in *. rewrite E in HQ. unfold qp_drop_ref, upd_res. wp_run.
    change (RXE_ATOMIC_MASK =? RXE_READ_MASK) with false in HQ. cbn in HQ. by same_resources.
  - destruct (Z.eqb_spec (res_type res) RXE_READ_MASK) as [E'|E']; [specialize (Hr E')|].
    + destruct (res_ptr res) as [|skb|h]; [|exfalso; by eapply Hr|]; unfold mem_unref, when, upd_res; wp_run; cbn in HQ; rewrite !Z.sub_0_r, app_nil_r in HQ; by same_resources.
    + unfold when, upd_res. wp_run. cbn in HQ. rewrite !Z.sub_0_r, app_nil_r in HQ. by same_resources.
Qed.

Lemma wp_free_each F : ∀ n i s l Q,
  resp_resources (qp_resp (es_qp s)) = Some l → (i + n = length l)%nat → Forall res_ok (drop i l) →
  Q tt (resources_freed (drop i l) (take i l ++ map unused (drop i l)) s) → wp F (free_each_resource i n) Q s.
Proof.
  induction n as [|n IH]; intros i s l Q Hl Hn Hf HQ; cbn [free_each_resource].
  - wp_run. rewrite drop_ge, take_ge in HQ by lia. cbn [map] in HQ. by rewrite app_nil_r, resources_freed_nil in HQ.
  - destruct (lookup_lt_is_Some_2 l i) as [res Hi]; [lia|]. rewrite (drop_S _ _ _ Hi) in Hf, HQ.
    apply Forall_cons_1 in Hf as [Hok Hf]. wp_run. eapply wp_free_resource; [done..|].
    assert (Hlen : length (<[i:=unused res]> l) = length l) by apply length_insert.
    apply (IH (S i) _ (<[i:=unused res]> l)).
    + by destruct s as [[] [] ? ? ? ?].
    + lia.
    + rewrite drop_insert_lt by lia. exact Hf.
    + rewrite resources_freed_twice, drop_insert_lt by lia.
      rewrite (take_S_r _ _ (unused res)) by (by rewrite list_lookup_insert_eq; [|lia]). rewrite take_insert_ge by lia.
      rewrite <- app_assoc. exact HQ.
Qed.
End resources.

(** ** The reset *)

(** What a reset needs: queues that are in order, and as many resources as the
    queue pair may have read and atomic operations, each of the form its type
    says. *)
Record resettable (k : Z) (s : eng_state) : Prop := {
  rs_valid : qp_valid (es_qp s) = true;
  rs_sq : queue_wf k (qp_sq (es_qp s));
  rs_rq : rq_good (es_qp s);
  rs_res l : resp_resources (qp_resp (es_qp s)) = Some l →
    Z.to_nat (qa_max_rd_atomic (qp_attr (es_qp s))) = length l ∧ Forall res_ok l
}.

Record was_reset (s s' : eng_state) : Prop := {
  wr_states : req_state (qp_req (es_qp s')) = QP_STATE_RESET ∧ resp_state (qp_resp (es_qp s')) = QP_STATE_RESET;
  wr_pkts : qp_req_pkts (es_qp s') = [] ∧ qp_resp_pkts (es_qp s') = [];
  wr_sq : qp_sq (es_qp s') = emptied (qp_sq (es_qp s));
  wr_rq : qp_rq (es_qp s') = rq_after_reset (es_qp s);
  wr_req : qp_req (es_qp s') = ReqInfo QP_STATE_RESET (consumer_index (qp_sq (es_qp s'))) (req_psn (qp_req (es_qp s))) (-1)
    (req_rd_atomic (qp_req (es_qp s))) (req_wait_fence (qp_req (es_qp s))) false false false 0;
  wr_resp : let r := qp_resp (es_qp s') in
    resp_msn r = 0 ∧ resp_opcode r = -1 ∧ resp_drop_msg r = false ∧ resp_goto_error r = false ∧
    resp_sent_psn_nak r = false ∧ resp_wqe r = None ∧ resp_mr r = None ∧
    resp_resources r = option_map (map unused) (resp_resources (qp_resp (es_qp s)));
  wr_left : qp_comp (es_qp s') = qp_comp (es_qp s) ∧
    resp_cur_res (qp_resp (es_qp s')) = resp_cur_res (qp_resp (es_qp s));
  wr_ref : qp_ref (es_qp s') = qp_ref (es_qp s) - Z.of_nat (length (qp_req_pkts (es_qp s)))
    - Z.of_nat (length (qp_resp_pkts (es_qp s))) - atomics (resources_of (es_qp s));
  wr_mem : rdev_mem (es_dev s') = drop_refs (rdev_mem (es_dev s))
    (option_list (resp_mr (qp_resp (es_qp s))) ++ omap held_mr (resources_of (es_qp s)));
  wr_cqs : rdev_cqs (es_dev s') = rdev_cqs (es_dev s) ∧ rdev_srqs (es_dev s') = rdev_srqs (es_dev s);
  wr_ports : rdev_ports (es_dev s') = rdev_ports (es_dev s) ∧ rdev_attr (es_dev s') = rdev_attr (es_dev s) ∧
    es_alloc s' = es_alloc s;
  wr_attr : qp_attr (es_qp s') = qp_attr (es_qp s) ∧ qp_valid (es_qp s') = true ∧ qp_qp_type (es_qp s') = qp_qp_type (es_qp s);
  wr_unsent : qp_send_pkts (es_qp s') = qp_send_pkts (es_qp s) ∧ resp_psn (qp_resp (es_qp s')) = resp_psn (qp_resp (es_qp s))
}.

Lemma reset_resettable k s s' : resettable k s → was_reset s s' → resettable k s'.
Proof.
  intros [Hv Hsq Hrq Hres] [_ _ W1 W2 _ (_ & _ & _ & _ & _ & _ & _ & W3) _ _ _ _ _ (W4 & W5 & _)]. split.
  - exact W5.
  - rewrite W1. by apply emptied_wf.
  - intros rq. rewrite W2. unfold rq_after_reset. destruct (qp_srq (es_qp s)); [apply Hrq|].
    destruct (qp_rq (es_qp s)) as [rq0|] eqn:E; cbn; intros [= <-]. destruct (Hrq _ E) as [k' Hk]. exists k'. by apply emptied_wf.
  - intros l. rewrite W3, W4. destruct (resp_resources (qp_resp (es_qp s))) as [l0|] eqn:E; cbn; intros [= <-].
    destruct (Hres _ eq_refl) as [-> _]. rewrite length_map. split; [done|]. apply idle_holds_nothing, unused_idle.
Qed.

Section reset.
Context `{Params}.

(** The members after the tasks have run. *)
Lemma wp_cleanup_resources F s Q :
  (∀ l, resp_resources (qp_resp (es_qp s)) = Some l →
     Z.to_nat (qa_max_rd_atomic (qp_attr (es_qp s))) = length l ∧ Forall res_ok l) →
  (∀ l, resp_resources (qp_resp (es_qp s)) = Some l → Q tt (resources_freed l (map unused l) s)) →
  (resp_resources (qp_resp (es_qp s)) = None → Q tt s) →
  wp F cleanup_rd_atomic_resources Q s.
Proof.
  intros Hr HQ HQ'. unfold cleanup_rd_atomic_resources. wp_run.
  destruct (resp_resources (qp_resp (es_qp s))) as [l|] eqn:El; [|by wp_run; apply HQ'].
  destruct (Hr l eq_refl) as [-> Hok]. eapply wp_free_each; [exact El|done|by rewrite drop_0|].
  rewrite drop_0. cbn [take app]. by apply HQ.
Qed.

Lemma wp_drop_resp_mr F s Q :
  Q tt (s <| es_dev ::= λ d, d <| rdev_mem ::= λ m, drop_refs m (option_list (resp_mr (qp_resp (es_qp s)))) |> |>
          <| es_qp ::= λ q, q <| qp_resp ::= λ r, r <| resp_mr := None |> |> |>) →
  wp F drop_resp_mr Q s.
Proof.
  intros HQ. unfold drop_resp_mr. wp_run. destruct (resp_mr (qp_resp (es_qp s))) as [h|] eqn:E.
  - unfold mem_unref. wp_run. revert HQ. clear. by destruct s as [[] [] ? ? ? ?].
  - wp_run. revert HQ E. clear. destruct s as [[] [? ? ? ? ? ? ? ? ? ? ? ? ? ? ? ? ? ? ? ? ? r] ? ? ? ?]. destruct r. cbn.
    intros HQ ->. exact HQ.
Qed.

Lemma wp_task_once F (m : eng (result unit)) n e Q s :
  wp F m (λ r s', r = Err e ∧ Q tt s') s → wp F (__rxe_do_task m (S n)) Q s.
Proof. intros Hw. cbn [__rxe_do_task]. wp_run. eapply wp_mono; [exact Hw|]. intros r s' [-> HQ]. by wp_run. Qed.

Lemma wp_qp_reset F k depth fuel calls s Q :
  resettable k s → (∀ s', was_reset s s' → Q tt s') → wp F (rxe_qp_reset (S depth) (S fuel) (S calls)) Q s.
Proof.
  intros [Hv Hsq Hrq Hres] HQ. unfold rxe_qp_reset, do_resp_task, do_comp_task, do_req_task. wp_run.
  apply (wp_task_once _ _ _ EAGAIN), wp_responder_reset; [done..|]. intros r1 n1 m1 ev1 Hr1. split; [done|]. wp_run.
  apply (wp_task_once _ _ _ EAGAIN), (wp_completer_reset _ k); [done..|]. intros r2 n2 ev2 Hr2. split; [done|]. wp_run.
  apply (wp_task_once _ _ _ EAGAIN), wp_requester_reset; [done..|]. split; [done|]. wp_run.
  apply wp_drop_resp_mr. cbn in Hr1, Hr2. apply wp_cleanup_resources.
  - intros l Hl. exact (Hres l Hl).
  - intros l Hl. change (resp_resources (qp_resp (es_qp s)) = Some l) in Hl. apply HQ.
    split; cbn; unfold resources_of; rewrite ?Hl; try done; [cbn; lia|]. unfold drop_refs. by rewrite foldl_app.
  - intros Hl. change (resp_resources (qp_resp (es_qp s)) = None) in Hl. apply HQ.
    split; cbn; unfold resources_of; rewrite ?Hl; try done; [unfold atomics; cbn; lia|]. cbn. by rewrite app_nil_r.
Qed.
End reset.
