(* ===== verification/QpInv.v ===== *)
(** * The invariant of a queue pair (rxe_modify_qp)

    The state the verbs know of a reliable queue pair and those of its requester
    and its responder go together, its resources are in order, and no call of
    [rxe_modify_qp] goes wrong, whatever attributes it is given. *)

From stdpp Require Import gmap.
From S2P Require Import Prelude Queue Opcode Hdr Verbs Mr Cq State Av QpState Comp Req Resp Qp QpReset.

(** ** Transitions *)

(** Where the table lets a queue pair go. *)
Definition successors (cur : Z) : list Z :=
  if cur =? IB_QPS_RESET then [IB_QPS_RESET; IB_QPS_INIT]
  else if cur =? IB_QPS_INIT then [IB_QPS_RESET; IB_QPS_ERR; IB_QPS_INIT; IB_QPS_RTR]
  else if cur =? IB_QPS_RTR then [IB_QPS_RESET; IB_QPS_ERR; IB_QPS_RTS]
  else if one_of cur [IB_QPS_RTS; IB_QPS_SQD] then [IB_QPS_RESET; IB_QPS_ERR; IB_QPS_RTS; IB_QPS_SQD]
  else if cur =? IB_QPS_SQE then [IB_QPS_RESET; IB_QPS_ERR; IB_QPS_RTS]
  else [IB_QPS_RESET; IB_QPS_ERR].

Definition states : list Z := [IB_QPS_RESET; IB_QPS_INIT; IB_QPS_RTR; IB_QPS_RTS; IB_QPS_SQD; IB_QPS_SQE; IB_QPS_ERR].

Lemma states_spec st : 0 ≤ st ≤ IB_QPS_ERR → st ∈ states.
Proof. unfold states, IB_QPS_ERR. intros. rewrite !elem_of_cons. cbv. lia. Qed.

Lemma modify_ok_range cur new type mask : ib_modify_qp_is_ok cur new type mask = true → cur ∈ states ∧ new ∈ states.
Proof.
  unfold ib_modify_qp_is_ok. rewrite !Z.gtb_ltb. intros E.
  destruct (Z.ltb_spec cur 0), (Z.ltb_spec IB_QPS_ERR cur), (Z.ltb_spec new 0), (Z.ltb_spec IB_QPS_ERR new); try done.
  split; apply states_spec; lia.
Qed.

(** Case analysis on an element of a list of constants. *)
Ltac each H := repeat (apply elem_of_cons in H as [->|H]); [..|by apply not_elem_of_nil in H].

Lemma table_successors cur new : cur ∈ states → new ∈ states → is_Some (qp_state_table cur new) → new ∈ successors cur.
Proof.
  intros Hc Hn [t Ht]. each Hc; each Hn; first [discriminate Ht|cbv; repeat first [by left|right]].
Qed.

Lemma modify_ok_spec cur new type mask :
  ib_modify_qp_is_ok cur new type mask = true →
  cur ∈ states ∧ new ∈ successors cur ∧
  ∃ t, qp_state_table cur new = Some t ∧ mask .& req_param t type = req_param t type ∧
    mask .& Z.lnot (req_param t type .| opt_param t type .| IB_QP_STATE) = 0.
Proof.
  intros E. destruct (modify_ok_range _ _ _ _ E) as [Hc Hn]. split; [done|].
  unfold ib_modify_qp_is_ok in E. destruct (_ || _); [done|]. destruct (_ && _); [done|].
  destruct (qp_state_table cur new) as [t|] eqn:Et; [|done]. split; [by apply table_successors; [..|eexists]|].
  exists t. split; [done|]. apply andb_true_iff in E as [E1%Z.eqb_eq E2%Z.eqb_eq]. done.
Qed.

(** An attribute that is required has been given. *)
Lemma required_given mask req flag :
  mask .& req = req → flag_set req flag = true → flag_set mask flag = true.
Proof.
  unfold flag_set. intros E Hf. apply negb_true_iff, Z.eqb_neq. apply negb_true_iff, Z.eqb_neq in Hf.
  intros Hz. apply Hf. rewrite <- E, (Z.land_comm mask), <- Z.land_assoc, Hz. apply Z.land_0_r.
Qed.

Lemma init_needs_port mask : ib_modify_qp_is_ok IB_QPS_RESET IB_QPS_INIT IB_QPT_RC mask = true → flag_set mask IB_QP_PORT = true.
Proof.
  intros (_ & _ & t & Ht & Hr & _)%modify_ok_spec. injection Ht as <-. by apply (required_given _ _ _ Hr).
Qed.

(** ** The invariant *)

(** The state of the queue pair and of its two engines. *)
Definition in_step (st : Z) (req resp : rxe_qp_state) : Prop :=
  if st =? IB_QPS_RESET then req = QP_STATE_RESET ∧ resp = QP_STATE_RESET
  else if st =? IB_QPS_INIT then req = QP_STATE_INIT ∧ resp = QP_STATE_INIT
  else if st =? IB_QPS_RTR then req = QP_STATE_INIT ∧ resp = QP_STATE_READY
  else if st =? IB_QPS_RTS then req = QP_STATE_READY ∧ resp = QP_STATE_READY
  else if st =? IB_QPS_SQD then (req = QP_STATE_DRAIN ∨ req = QP_STATE_DRAINED) ∧ resp = QP_STATE_READY
  else st = IB_QPS_ERR ∧ req = QP_STATE_ERROR ∧ resp = QP_STATE_ERROR.

Definition qp_in_step (q : rxe_qp) : Prop :=
  in_step (qa_qp_state (qp_attr q)) (req_state (qp_req q)) (resp_state (qp_resp q)).

Definition on_port (d : rxe_dev) (num : Z) : Prop := is_Some (rdev_ports d !! Z.to_nat (num - 1)).

(** The first port is the one answers are addressed from. *)
Definition first_port (d : rxe_dev) : Prop :=
  ∃ port, rdev_ports d !! 0%nat = Some port ∧ is_Some (port_guid_tbl port !! 0%nat).

Record qp_inv (k : Z) (s : eng_state) : Prop := {
  qi_type : qp_qp_type (es_qp s) = IB_QPT_RC;
  qi_res : resettable k s;
  qi_step : qp_in_step (es_qp s);
  qi_port : qa_qp_state (qp_attr (es_qp s)) ≠ IB_QPS_RESET → on_port (es_dev s) (qa_port_num (qp_attr (es_qp s)));
  qi_first : first_port (es_dev s);
  qi_limit : da_max_qp_rd_atom (rdev_attr (es_dev s)) ≤ 128
}.

(** ** The checks *)

Lemma not_allowed mask req flag :
  mask .& Z.lnot req = 0 → flag .& Z.lnot req = flag → flag_set mask flag = false.
Proof.
  unfold flag_set. intros E Hf. apply negb_false_iff, Z.eqb_eq. rewrite <- Hf, (Z.land_comm flag), Z.land_assoc, E.
  apply Z.land_0_l.
Qed.

Lemma mtu_not_from_reset new mask :
  ib_modify_qp_is_ok IB_QPS_RESET new IB_QPT_RC mask = true → flag_set mask IB_QP_PATH_MTU = false.
Proof.
  intros (_ & Hn & t & Ht & _ & Ha)%modify_ok_spec. each Hn; injection Ht as <-; by apply (not_allowed _ _ _ Ha).
Qed.

Section checks.
Context `{Params}.

Lemma wp_chk mask flag bad rest (P : Prop) Q s :
  (flag_set mask flag = true → wp False bad (λ b s', s' = s ∧ (b = false → P)) s) →
  Q (Err EINVAL) s → ((flag_set mask flag = true → P) → wp False rest Q s) → wp False (chk mask flag bad rest) Q s.
Proof.
  intros Hb HE HR. unfold chk. wp_run. destruct (flag_set mask flag).
  - eapply wp_mono; [by apply Hb|]. intros [] s' [-> HP]; [by wp_run|]. apply HR. auto.
  - wp_run. by apply HR.
Qed.

(** What an attribute that was accepted is known to satisfy. *)
Record accepted (k : Z) (a : qp_attrs) (mask : Z) (s : eng_state) : Prop := {
  ac_ok : let cur := qa_qp_state (qp_attr (es_qp s)) in
    ib_modify_qp_is_ok cur (if flag_set mask IB_QP_STATE then qa_qp_state (ma_attr a) else cur) IB_QPT_RC mask = true;
  ac_drain : flag_set mask IB_QP_STATE = true → qa_qp_state (qp_attr (es_qp s)) = IB_QPS_SQD →
    req_state (qp_req (es_qp s)) = QP_STATE_DRAIN → qa_qp_state (ma_attr a) = IB_QPS_ERR;
  ac_port : flag_set mask IB_QP_PORT = true → on_port (es_dev s) (qa_port_num (ma_attr a));
  ac_rd_atomic : flag_set mask IB_QP_MAX_QP_RD_ATOMIC = true →
    qa_max_rd_atomic (ma_attr a) ≤ da_max_qp_rd_atom (rdev_attr (es_dev s))
}.

Lemma wp_av_chk_total ah s :
  wp False (rxe_av_chk_attr ah) (λ r s', s' = s) s.
Proof.
  unfold rxe_av_chk_attr. wp_run. rewrite Z.gtb_ltb. destruct (Z.ltb_spec (ah_port_num ah) 1); [by wp_run|].
  destruct (Z.ltb_spec (Z.of_nat (length (rdev_ports (es_dev s)))) (ah_port_num ah)); [by wp_run|]. cbn [orb]. wp_run.
  destruct (lookup_lt_is_Some_2 (rdev_ports (es_dev s)) (Z.to_nat (ah_port_num ah - 1))) as [port ->]; [lia|]. wp_run.
  apply wp_if; intros _; by wp_run.
Qed.

Lemma wp_chk_attr k a mask s :
  qp_inv k s → (flag_set mask IB_QP_CUR_STATE = true → qa_cur_qp_state (ma_attr a) = qa_qp_state (qp_attr (es_qp s))) →
  wp False (rxe_qp_chk_attr a mask) (λ r s', s' = s ∧ (r ≠ Err EINVAL → r = Ok tt ∧ accepted k a mask s)) s.
Proof.
  intros [Hty _ _ Hpo _ _] Hcur. unfold rxe_qp_chk_attr. wp_run. unfold qp_type. rewrite Hty.
  assert (E : (if flag_set mask IB_QP_CUR_STATE then qa_cur_qp_state (ma_attr a) else qa_qp_state (qp_attr (es_qp s)))
    = qa_qp_state (qp_attr (es_qp s))) by (destruct (flag_set mask IB_QP_CUR_STATE); auto). rewrite E. clear E Hcur.
  set (cur := qa_qp_state (qp_attr (es_qp s))). set (new := if flag_set mask IB_QP_STATE then qa_qp_state (ma_attr a) else cur).
  destruct (ib_modify_qp_is_ok cur new IB_QPT_RC mask) eqn:Eok; cbn [negb]; [|by wp_run].
  eapply (wp_chk _ _ _ _ (cur = IB_QPS_SQD → req_state (qp_req (es_qp s)) = QP_STATE_DRAIN → new = IB_QPS_ERR)); [|done|intros P1].
  { intros _. wp_run. split; [done|]. intros Hb -> Hd. rewrite Hd, bool_decide_eq_true_2, Z.eqb_refl in Hb by done.
    cbn [andb] in Hb. by apply negb_false_iff, Z.eqb_eq in Hb. }
  eapply (wp_chk _ _ _ _ (on_port (es_dev s) (qa_port_num (ma_attr a)))); [|done|intros P2].
  { intros _. wp_run. split; [done|]. rewrite Z.gtb_ltb. intros [H1 H2]%orb_false_iff. apply lookup_lt_is_Some_2. lia. }
  eapply (wp_chk _ _ _ _ True); [by intros _; wp_run|done|intros _].
  eapply (wp_chk _ _ _ _ True); [|done|intros _].
  { intros _. wp_run. eapply wp_mono; [apply wp_av_chk_total|]. intros r s' ->. by wp_run. }
  eapply (wp_chk _ _ _ _ True); [|done|intros _].
  { intros _. wp_run. eapply wp_mono; [apply wp_av_chk_total|]. intros r s' ->. by wp_run. }
  eapply (wp_chk _ _ _ _ True); [|done|intros _].
  { intros Hf. unfold chk_path_mtu. wp_run. destruct (Z.eq_dec cur IB_QPS_RESET) as [Hc|Hc].
    - rewrite Hc in Eok. apply mtu_not_from_reset in Eok. congruence.
    - destruct (Hpo Hc) as [port ->]. by wp_run. }
  eapply (wp_chk _ _ _ _ (qa_max_rd_atomic (ma_attr a) ≤ da_max_qp_rd_atom (rdev_attr (es_dev s)))); [|done|intros P3].
  { intros _. wp_run. split; [done|]. rewrite Z.gtb_ltb. intros Hb%Z.ltb_ge. done. }
  eapply (wp_chk _ _ _ _ True); [by intros _; wp_run|done|intros _]. wp_run. split; [done|]. intros _.
  split; [done|]. split; [done| |done|done]. intros Hf Hs Hd. specialize (P1 Hf Hs Hd). unfold new in P1. by rewrite Hf in P1.
Qed.
End checks.

(** ** Writing *)

Lemma roundup_credits n : 1 ≤ n ≤ 128 → 1 ≤ roundup_pow_of_two n ≤ 128.
Proof.
  intros Hn. destruct (roundup_pow_of_two_spec n) as (k & Hk & -> & Hb); [lia|].
  assert (Hk8 : 2 ^ k < 2 ^ 8) by lia. apply Z.pow_lt_mono_r_iff in Hk8; [|lia..]. pose proof (Z.pow_le_mono_r 2 k 7). lia.
Qed.

Lemma roundup_credits_0 n : 0 ≤ n ≤ 128 → 0 ≤ roundup_pow_of_two n ≤ 128.
Proof.
  intros Hn. destruct (Z.eq_dec n 0) as [->|]; [by vm_compute|]. pose proof (roundup_credits n). lia.
Qed.

(** The attributes may have changed, the rest of the invariant has not; [pn] is
    the number of the port. *)
Record wrote (s0 : eng_state) (pn : Z) (s : eng_state) : Prop := {
  wt_dev : es_dev s = es_dev s0;
  wt_same : (qp_qp_type (es_qp s), qp_valid (es_qp s), qp_sq (es_qp s), qp_rq (es_qp s), qp_srq (es_qp s))
    = (qp_qp_type (es_qp s0), qp_valid (es_qp s0), qp_sq (es_qp s0), qp_rq (es_qp s0), qp_srq (es_qp s0));
  wt_engines : (req_state (qp_req (es_qp s)), resp_state (qp_resp (es_qp s)), resp_resources (qp_resp (es_qp s)))
    = (req_state (qp_req (es_qp s0)), resp_state (qp_resp (es_qp s0)), resp_resources (qp_resp (es_qp s0)));
  wt_attr : (qa_qp_state (qp_attr (es_qp s)), qa_max_rd_atomic (qp_attr (es_qp s)))
    = (qa_qp_state (qp_attr (es_qp s0)), qa_max_rd_atomic (qp_attr (es_qp s0)));
  wt_port : qa_port_num (qp_attr (es_qp s)) = pn
}.

Section writing.
Context `{Params}.

Lemma wp_av_from_total pn ah s : first_port (es_dev s) → wp False (rxe_av_from_attr pn ah) (λ _ s', s' = s) s.
Proof.
  intros (port & Hp & guid & Hg). unfold rxe_av_from_attr, init_av. wp_run. apply wp_if; intros _; [by wp_run|].
  wp_run. apply wp_if; intros _; [wp_run; rewrite Hp; wp_run; rewrite Hg|]; wp_run;
    (apply wp_if; intros _; [by wp_run|apply wp_if; intros _; by wp_run]).
Qed.

(** One attribute. *)
Lemma wp_on {B} s0 pn pn' mask flag m (rest : eng B) Q s :
  wrote s0 pn s → (flag_set mask flag = false → pn' = pn) →
  (flag_set mask flag = true → wp False m (λ _ s', wrote s0 pn' s') s) →
  (∀ s', wrote s0 pn' s' → wp False rest Q s') →
  wp False (when (flag_set mask flag) m;; rest) Q s.
Proof.
  intros Hw Hp Hm HR. wp_run. destruct (flag_set mask flag); unfold when.
  - eapply wp_mono; [by apply Hm|]. intros [] s' Hs. by apply HR.
  - wp_run. apply HR. by rewrite Hp.
Qed.

Ltac write_one :=
  match goal with Hw : wrote ?s0 ?pn ?s |- wp False (_ ;; _) _ ?s =>
    apply (wp_on s0 pn pn); [exact Hw|done|intros _; unfold mod_attr; wp_run; by destruct Hw; split|clear s Hw; intros s Hw]
  end.

Lemma wp_write_attrs a mask s0 :
  first_port (es_dev s0) →
  wp False (write_attrs a mask) (λ _ s', wrote s0
    (if flag_set mask IB_QP_PORT then qa_port_num (ma_attr a) else qa_port_num (qp_attr (es_qp s0))) s') s0.
Proof.
  intros Hf. assert (Hw : wrote s0 (qa_port_num (qp_attr (es_qp s0))) s0) by (by split).
  assert (Hf' : ∀ pn s, wrote s0 pn s → first_port (es_dev s)) by (by intros pn s [-> _ _ _ _]).
  enough (Hall : ∀ s, wrote s0 (qa_port_num (qp_attr (es_qp s0))) s → wp False (write_attrs a mask) (λ _ s', wrote s0
    (if flag_set mask IB_QP_PORT then qa_port_num (ma_attr a) else qa_port_num (qp_attr (es_qp s0))) s') s) by (by apply Hall).
  clear Hw. intros s Hw. unfold write_attrs. cbv zeta. do 4 write_one.
  apply (wp_on s0 (qa_port_num (qp_attr (es_qp s0)))
    (if flag_set mask IB_QP_PORT then qa_port_num (ma_attr a) else qa_port_num (qp_attr (es_qp s0)))); [exact Hw|by intros ->| |].
  { intros ->. unfold mod_attr. wp_run. by destruct Hw; split. }
  clear s Hw. intros s Hw. write_one.
  eapply (wp_on s0); [exact Hw|done| |clear s Hw; intros s Hw].
  { intros _. unfold set_av. wp_run. eapply wp_mono; [apply wp_av_from_total; by eapply Hf'|]. intros [av r] s' ->. wp_run.
    by destruct Hw; split. }
  eapply (wp_on s0); [exact Hw|done| |clear s Hw; intros s Hw].
  { intros _. unfold set_alt_path, mod_attr. wp_run. eapply wp_mono; [apply wp_av_from_total; by eapply Hf'|]. intros [av r] s' ->.
    wp_run. by destruct Hw; split. }
  do 9 write_one. apply wp_when; intros _; [|done]. unfold mod_attr. wp_run. by destruct Hw; split.
Qed.
End writing.

(** ** The engines *)

(** What the invariant says of the state and the ports. *)
Definition outline (s : eng_state) :=
  (qp_qp_type (es_qp s), qa_port_num (qp_attr (es_qp s)), rdev_ports (es_dev s), rdev_attr (es_dev s)).

Definition engines (s : eng_state) : rxe_qp_state * rxe_qp_state :=
  (req_state (qp_req (es_qp s)), resp_state (qp_resp (es_qp s))).

(** The states of the engines after the queue pair goes to [st]. *)
Definition engines_after (st : Z) (e : rxe_qp_state * rxe_qp_state) : rxe_qp_state * rxe_qp_state :=
  if st =? IB_QPS_RESET then (QP_STATE_RESET, QP_STATE_RESET)
  else if st =? IB_QPS_INIT then (QP_STATE_INIT, QP_STATE_INIT)
  else if st =? IB_QPS_RTR then (e.1, QP_STATE_READY)
  else if st =? IB_QPS_RTS then (QP_STATE_READY, e.2)
  else if st =? IB_QPS_SQD then (if bool_decide (e.1 = QP_STATE_DRAINED) then QP_STATE_DRAINED else QP_STATE_DRAIN, e.2)
  else if st =? IB_QPS_SQE then e
  else if st =? IB_QPS_ERR then (QP_STATE_ERROR, QP_STATE_ERROR) else e.

Section engines.
Context `{Params}.

Lemma wp_new_qp_state k depth fuel calls st s :
  qp_qp_type (es_qp s) = IB_QPT_RC → resettable k s →
  wp False (new_qp_state (S depth) (S fuel) (S calls) st) (λ _ s', resettable k s' ∧ outline s' = outline s ∧
    qp_attr (es_qp s') = qp_attr (es_qp s) ∧ engines s' = engines_after st (engines s)) s.
Proof.
  intros Hty Hr. unfold new_qp_state, engines_after.
  repeat (match goal with |- wp False (if ?b then _ else _) _ _ => destruct b eqn:? end; [|]).
  - apply (wp_qp_reset _ k); [done|]. intros s' Hw. split; [by eapply reset_resettable|].
    destruct Hw as [[W1 W2] _ _ _ _ _ _ _ _ _ (W3 & W4 & _) (W5 & _ & W6)]. unfold outline, engines. by rewrite W1, W2, W3, W4, W5, W6.
  - wp_run. split; [by destruct Hr|done].
  - wp_run. split; [by destruct Hr|done].
  - wp_run. split; [by destruct Hr|done].
  - unfold rxe_qp_drain. wp_run. unfold qp_type. rewrite Hty. change (IB_QPT_RC =? IB_QPT_RC) with true.
    unfold engines. cbn [fst snd]. apply wp_when; intros Hb; [apply negb_true_iff, bool_decide_eq_false in Hb|
      apply negb_false_iff, bool_decide_eq_true in Hb].
    + wp_run. rewrite bool_decide_eq_false_2 by done. split; [by destruct Hr|done].
    + rewrite Hb. by rewrite bool_decide_eq_true_2.
  - wp_run. by split.
  - destruct (st =? IB_QPS_ERR); [|by wp_run]. unfold when, rxe_qp_error. wp_run. unfold qp_type. cbn [es_qp upd_field qp_qp_type].
    rewrite Hty. change (IB_QPT_RC =? IB_QPT_RC) with true. cbv iota. wp_run. split; [by destruct Hr|done].
Qed.

(** Steps of the state machine keep the engines in step. *)
Lemma in_step_next cur new e :
  in_step cur e.1 e.2 → new ∈ successors cur → (cur = IB_QPS_SQD → e.1 = QP_STATE_DRAIN → new = IB_QPS_ERR) →
  in_step new (engines_after new e).1 (engines_after new e).2.
Proof.
  intros Hs Hn Hd. destruct e as [r1 r2]. cbn [fst snd] in *. unfold successors in Hn. unfold in_step in Hs.
  destruct (Z.eqb_spec cur IB_QPS_RESET) as [->|]; [each Hn; by cbn|].
  destruct (Z.eqb_spec cur IB_QPS_INIT) as [->|]; [destruct Hs; subst; each Hn; by cbn|].
  destruct (Z.eqb_spec cur IB_QPS_RTR) as [->|]; [destruct Hs; subst; each Hn; by cbn|].
  destruct (Z.eqb_spec cur IB_QPS_RTS) as [->|]; [destruct Hs; subst; each Hn; try (by cbn); split; [by left|done]|].
  destruct (Z.eqb_spec cur IB_QPS_SQD) as [->|].
  - destruct Hs as [[->| ->] ->]; [rewrite (Hd eq_refl eq_refl); by cbn|]. each Hn; try (by cbn). split; [by right|done].
  - destruct Hs as (-> & -> & ->). each Hn; by cbn.
Qed.
End engines.

(** ** The theorem *)

Section invariant.
Context `{Params}.

(** The rest of what a queue pair needs to be reset. *)
Definition parts (s : eng_state) :=
  (qp_valid (es_qp s), qp_sq (es_qp s), qp_rq (es_qp s), qp_attr (es_qp s), outline s, engines s).

Lemma resettable_parts k s s' :
  resettable k s → parts s' = parts s → resp_resources (qp_resp (es_qp s')) = None → resettable k s'.
Proof.
  intros [] E Hn. unfold parts in E. injection E as E1 E2 E3 E4 _ _ _ _ _ _. split; [congruence|congruence| |intros l; congruence].
  unfold rq_good. by rewrite E3.
Qed.

Lemma wp_free_resources k s :
  resettable k s →
  wp False free_rd_atomic_resources (λ _ s', parts s' = parts s ∧ resp_resources (qp_resp (es_qp s')) = None) s.
Proof.
  intros [_ _ _ Hres]. unfold free_rd_atomic_resources. wp_run. apply wp_cleanup_resources.
  - exact Hres.
  - intros l Hl. wp_run. split; [|done]. by destruct s as [[] [] ? ? ? ?].
  - intros _. by wp_run.
Qed.

Lemma wp_set_max_rd_atomic k n s :
  resettable k s → 0 ≤ n ≤ 128 →
  wp False (set_max_rd_atomic n) (λ r s', (r = Ok tt ∨ r = Err ENOMEM) ∧ resettable k s' ∧ outline s' = outline s ∧
    engines s' = engines s ∧ qa_qp_state (qp_attr (es_qp s')) = qa_qp_state (qp_attr (es_qp s))) s.
Proof.
  intros Hr Hn. unfold set_max_rd_atomic. wp_run. eapply wp_mono; [by eapply wp_free_resources|]. intros [] s1 [Hp Hno].
  pose proof (resettable_parts _ _ _ Hr Hp Hno) as Hr1. unfold parts in Hp. injection Hp as P1 P2 P3 P4 P5 P6 P7 P8 P9 P10.
  assert (Hsame : outline s1 = outline s ∧ engines s1 = engines s ∧
    qa_qp_state (qp_attr (es_qp s1)) = qa_qp_state (qp_attr (es_qp s))).
  { unfold outline, engines. by rewrite P4, P5, P7, P8, P9, P10. }
  unfold alloc_rd_atomic_resources. wp_run. pose proof (roundup_credits_0 n Hn) as Hc. rewrite s32_small by lia.
  set (m := roundup_pow_of_two n) in *.
  assert (Hnext : ∀ s Q, (∀ b al, Q b (s <| es_alloc := al |>)) → wp False next_alloc Q s).
  { intros s2 Q HQ. unfold wp, next_alloc. destruct (es_alloc s2) as [|b al] eqn:E; [|apply HQ].
    replace s2 with (s2 <| es_alloc := [] |>); [apply HQ|]. destruct s2. cbn in E. by subst. }
  apply Hnext. intros [] al; wp_run.
  - unfold mod_attr. wp_run. split; [by left|]. split; [|exact Hsame]. destruct Hr1 as [R1 R2 R3 R4]. split; [done..|]. intros l Hl. cbn in Hl |- *.
    injection Hl as <-. rewrite length_replicate. unfold u8. rewrite Z.mod_small by lia. split; [done|].
    apply Forall_replicate. by split.
  - split; [by right|]. split; [|exact Hsame]. destruct Hr1 as [R1 R2 R3 R4]. by split.
Qed.

(** An argument within the width of its type: [max_rd_atomic] is a [u8]. *)
Definition attrs_in_range (a : qp_attrs) : Prop := 0 ≤ qa_max_rd_atomic (ma_attr a) < 2 ^ 8.

Lemma wp_from_attr k depth fuel calls a mask s :
  qp_inv k s → attrs_in_range a → accepted k a mask s →
  wp False (rxe_qp_from_attr (S depth) (S fuel) (S calls) a mask) (λ r s', qp_inv k s' ∧
    match r with
    | Ok _ => qa_qp_state (qp_attr (es_qp s')) =
        (if flag_set mask IB_QP_STATE then qa_qp_state (ma_attr a) else qa_qp_state (qp_attr (es_qp s)))
    | Err e => e = ENOMEM ∧ qa_qp_state (qp_attr (es_qp s')) = qa_qp_state (qp_attr (es_qp s))
    end) s.
Proof.
  intros [Hty Hr Hst Hpo Hfp Hlim] Ha [Hok Hdr Hap Hrd]. unfold rxe_qp_from_attr. wp_run.
  apply (wp_mono _ _ (λ r s', (r = Ok tt ∨ r = Err ENOMEM) ∧ resettable k s' ∧ outline s' = outline s ∧
    engines s' = engines s ∧ qa_qp_state (qp_attr (es_qp s')) = qa_qp_state (qp_attr (es_qp s)))).
  { apply wp_if; intros Hf; [|wp_run; by split; [left|]]. apply wp_set_max_rd_atomic; [done|].
    specialize (Hrd Hf). unfold attrs_in_range in Ha. lia. }
  intros r s1 (Hres & Hr1 & Ho & He & Hs). unfold outline in Ho. injection Ho as O1 O2 O3 O4. unfold engines in He. injection He as E1 E2.
  destruct Hres as [-> | ->].
  2: { wp_run. split; [|done]. split.
    - by rewrite O1.
    - exact Hr1.
    - unfold qp_in_step. by rewrite Hs, E1, E2.
    - unfold on_port. by rewrite Hs, O2, O3.
    - unfold first_port. by rewrite O3.
    - by rewrite O4. }
  wp_run. eapply wp_mono; [apply wp_write_attrs; unfold first_port; by rewrite O3|].
  intros [] s2 [W1 W2 W3 W4 W5]. injection W2 as W21 W22 W23 W24 W25. injection W3 as W31 W32 W33. injection W4 as W41 W42.
  assert (Hr2 : resettable k s2).
  { destruct Hr1 as [R1 R2 R3 R4]. split; [congruence|congruence|unfold rq_good; by rewrite W24|]. by rewrite W33, W42. }
  set (cur := qa_qp_state (qp_attr (es_qp s))) in *. set (new := qa_qp_state (ma_attr a)) in *.
  assert (Hport : ∀ s3 st, outline s3 = outline s2 → st = (if flag_set mask IB_QP_STATE then new else cur) → st ≠ IB_QPS_RESET →
    on_port (es_dev s3) (qa_port_num (qp_attr (es_qp s3)))).
  { intros s3 st Ho -> Hst'. unfold outline in Ho. injection Ho as _ -> Hports _. unfold on_port. rewrite Hports, W5, W1, O3, O2.
    destruct (flag_set mask IB_QP_PORT) eqn:Ef; [by apply Hap|]. apply Hpo. intros Hc. fold cur in Hc. rewrite Hc in *.
    destruct (flag_set mask IB_QP_STATE); [|done]. pose proof (modify_ok_spec _ _ _ _ Hok) as (_ & Hn & _).
    apply elem_of_cons in Hn as [->|[->|[]%not_elem_of_nil]%elem_of_cons]; [done|]. apply init_needs_port in Hok. congruence. }
  assert (Hinv : ∀ s3, resettable k s3 → outline s3 = outline s2 → qp_in_step (es_qp s3) →
    qa_qp_state (qp_attr (es_qp s3)) = (if flag_set mask IB_QP_STATE then new else cur) → qp_inv k s3).
  { intros s3 Hr3 Ho3 Hin Hst3. split; try done.
    - unfold outline in Ho3. injection Ho3 as -> _ _ _. congruence.
    - by apply Hport.
    - unfold outline in Ho3. injection Ho3 as _ _ Hp3 _. unfold first_port. by rewrite Hp3, W1, O3.
    - unfold outline in Ho3. injection Ho3 as _ _ _ ->. by rewrite W1, O4. }
  unfold mod_attr. destruct (flag_set mask IB_QP_STATE) eqn:Ef; unfold when; wp_run.
  - eapply wp_mono; [apply (wp_new_qp_state k)|].
    + cbn. congruence.
    + by destruct Hr2.
    + intros [] s3 (Hr3 & Ho3 & Ha3 & He3). wp_run. assert (Hst3 : qa_qp_state (qp_attr (es_qp s3)) = new) by (by rewrite Ha3).
      split; [|done]. apply Hinv; [done|exact Ho3| |done]. unfold qp_in_step. rewrite Hst3.
      unfold engines at 1 in He3. rewrite (surjective_pairing (engines_after _ _)) in He3. injection He3 as -> ->.
      apply (in_step_next cur); [|by eapply modify_ok_spec|].
      * cbn. unfold qp_in_step in Hst. fold cur in Hst. by rewrite W31, W32, E1, E2.
      * cbn. rewrite W31, E1. by apply Hdr.
  - split; [|congruence]. apply Hinv; [done|done| |congruence]. unfold qp_in_step. by rewrite W41, W31, W32, Hs, E1, E2.
Qed.

(** C29: modifying a reliable queue pair that satisfies the invariant. Whatever
    attributes are passed with whatever mask, as long as the depth for reads is a
    byte, which its type says, and a current state that is passed is the current
    state, [rxe_modify_qp] returns and keeps the invariant: the states of the
    requester and of the responder are those the state of the queue pair calls
    for, its queues and its resources can be released, and outside the reset
    state its port number is one of the device. A call that succeeds has made a
    transition of the state table; one that fails has left the state as it was.
    A caller that passes another current state can have other transitions. *)
Theorem modify_keeps_invariant k depth fuel calls a mask s :
  qp_inv k s → attrs_in_range a →
  (flag_set mask IB_QP_CUR_STATE = true → qa_cur_qp_state (ma_attr a) = qa_qp_state (qp_attr (es_qp s))) →
  ∃ r s', rxe_modify_qp (S depth) (S fuel) (S calls) a mask s = Some (r, s') ∧ qp_inv k s' ∧
    let cur := qa_qp_state (qp_attr (es_qp s)) in
    let new := qa_qp_state (qp_attr (es_qp s')) in
    match r with
    | Ok _ => ib_modify_qp_is_ok cur new IB_QPT_RC mask = true ∧ new ∈ successors cur ∧
        (flag_set mask IB_QP_STATE = true → new = qa_qp_state (ma_attr a))
    | Err e => (e = EINVAL ∧ s' = s ∨ e = ENOMEM) ∧ new = cur
    end.
Proof.
  intros Hi Ha Hcur. apply (wp_total (rxe_modify_qp _ _ _ a mask)). unfold rxe_modify_qp. wp_run.
  eapply wp_mono; [by eapply wp_chk_attr|]. intros r s1 [-> Hacc]. destruct (decide (r = Err EINVAL)) as [->|Hne].
  { wp_run. split; [done|]. split; [by left|done]. }
  destruct (Hacc Hne) as [-> Hac]. eapply wp_mono; [by apply wp_from_attr|]. intros r s' [Hi' Hr]. split; [done|].
  destruct r as [u|e]; [|destruct Hr as [-> ->]; split; [by right|done]]. rewrite Hr. pose proof (ac_ok _ _ _ _ Hac) as Hok. cbn in Hok.
  split; [done|]. split; [by eapply modify_ok_spec|]. by intros ->.
Qed.
End invariant.

(** ** An example: a queue pair with one work request and two resources *)

Definition example_slot : rxe_send_wqe := example_send 0 0 wqe_state_posted 0 0 0 (Dma 0 0 0 0 0 [] []).

Definition example_in (st : Z) (req resp : rxe_qp_state) : eng_state :=
  example_es (example_qp (example_sq 0 1 (replicate 4 example_slot)) [example_ack 0 5] 0 0
    <| qp_attr := example_attr <| qa_qp_state := st |> <| qa_max_rd_atomic := 2 |> |>
    <| qp_req ::= λ r, r <| req_state := req |> |>
    <| qp_resp ::= λ r, r <| resp_state := resp |> <| resp_resources := Some [zero_res; zero_res] |> |>).

Definition example_args (st : Z) : qp_attrs :=
  QpAttrs (example_attr <| qa_qp_state := st |>) (QpCap 3 3 4 4 0) (AhAttr (0xfe80 * 2 ^ 48) 0x22 0 0 0 0 0 0 0 0 1 1)
    (AhAttr 0 0 0 0 0 0 0 0 0 0 0 1).

Lemma example_resettable st req resp : resettable 2 (example_in st req resp).
Proof.
  split; [done| | |].
  - split; [split|..]; cbn; lia.
  - intros rq [=].
  - intros l [= <-]. split; [done|]. by repeat constructor.
Qed.

Lemma example_inv st req resp : in_step st req resp → qp_inv 2 (example_in st req resp).
Proof.
  intros Hs. split; [done|apply example_resettable|exact Hs|by intros _; eexists|by eexists; split; [|eexists]|done].
Qed.

Lemma modify_keeps_invariant_witness : let s := example_in IB_QPS_INIT QP_STATE_INIT QP_STATE_INIT in
  ∃ r s', rxe_modify_qp (H := example_params) 1 1 1 (example_args IB_QPS_ERR) IB_QP_STATE s = Some (r, s') ∧ qp_inv 2 s' ∧ r = Ok tt.
Proof.
  intros s. destruct (modify_keeps_invariant (H := example_params) 2 0 0 0 (example_args IB_QPS_ERR) IB_QP_STATE s)
    as (r & s' & E & Hi & Hr).
  - by apply example_inv.
  - by vm_compute.
  - done.
  - exists r, s'. split; [done|]. split; [done|]. destruct r as [[]|e]; [done|]. exfalso. clear -E. by vm_compute in E.
Defined.
