(* ===== verification/QpConnect.v ===== *)
(** * Connecting a queue pair (rxe_modify_qp)

    A reliable queue pair is connected by three calls of [ib_modify_qp], which
    take it from reset to the state in which it sends. This file says what each
    of them writes. *)

From stdpp Require Import gmap.
From S2P Require Import Prelude Queue Opcode Hdr Verbs Mr Cq State Av QpState Comp Req Resp Qp QpReset QpInv.

(** The attributes a reliable connection needs for each step. *)
Definition init_mask : Z := IB_QP_STATE .| IB_QP_PKEY_INDEX .| IB_QP_PORT .| IB_QP_ACCESS_FLAGS.
Definition rtr_mask : Z :=
  IB_QP_STATE .| IB_QP_AV .| IB_QP_PATH_MTU .| IB_QP_DEST_QPN .| IB_QP_RQ_PSN .| IB_QP_MAX_DEST_RD_ATOMIC
  .| IB_QP_MIN_RNR_TIMER.
Definition rts_mask : Z :=
  IB_QP_STATE .| IB_QP_TIMEOUT .| IB_QP_RETRY_CNT .| IB_QP_RNR_RETRY .| IB_QP_SQ_PSN .| IB_QP_MAX_QP_RD_ATOMIC.

(** Flags of a mask that is known. *)
Ltac eval_flags :=
  repeat match goal with
  | |- context [flag_set ?m ?f] =>
      let b := eval vm_compute in (flag_set m f) in
      lazymatch b with true => idtac | false => idtac end; change (flag_set m f) with b
  end.

(** Two ways to write the same state. *)
Ltac same_state :=
  match goal with
  | HQ : ?Q _ _ |- ?Q _ _ =>
      revert HQ; clear;
      match goal with
      | s : eng_state |- _ => destruct s as [? [? ? ? [] ? ? ? ? ? ? ? ? ? ? ? ? ? ? ? [] [] []] ? ? ? ?]
      end;
      cbv -[Z.pow Z.add Z.modulo Z.to_nat replicate u8 roundup_pow_of_two route_of timeout_jiffies zero_res];
      exact (λ y, y)
  end.

(** ** What the steps write *)

Definition on_attr (f : ib_qp_attr → ib_qp_attr) (s : eng_state) : eng_state := s <| es_qp ::= λ q, q <| qp_attr ::= f |> |>.

Definition initialized (a : ib_qp_attr) (s : eng_state) : eng_state :=
  s <| es_qp ::= λ q, q
    <| qp_attr ::= λ x, x <| qa_qp_access_flags := qa_qp_access_flags a |> <| qa_pkey_index := qa_pkey_index a |>
                          <| qa_port_num := qa_port_num a |> <| qa_qp_state := IB_QPS_INIT |> |>
    <| qp_req ::= λ r, r <| req_state := QP_STATE_INIT |> |> <| qp_resp ::= λ r, r <| resp_state := QP_STATE_INIT |> |> |>.

Definition receiving (a : ib_qp_attr) (av : rxe_av) (s : eng_state) : eng_state :=
  s <| es_qp ::= λ q, q <| qp_pri_av := av |> <| qp_mtu_bytes := 2 ^ (7 + qa_path_mtu a) |>
    <| qp_attr ::= λ x, x <| qa_path_mtu := qa_path_mtu a |> <| qa_rq_psn := qa_rq_psn a mod 2 ^ 24 |>
                          <| qa_min_rnr_timer := qa_min_rnr_timer a |>
                          <| qa_max_dest_rd_atomic := u8 (roundup_pow_of_two (qa_max_dest_rd_atomic a)) |>
                          <| qa_dest_qp_num := qa_dest_qp_num a |> <| qa_qp_state := IB_QPS_RTR |> |>
    <| qp_resp ::= λ r, r <| resp_psn := qa_rq_psn a mod 2 ^ 24 |> <| resp_state := QP_STATE_READY |> |> |>.

Definition sending `{Params} (a : ib_qp_attr) (n : Z) (s : eng_state) : eng_state :=
  s <| es_qp ::= λ q, q <| qp_timeout_jiffies := timeout_jiffies (qa_timeout a) |>
    <| qp_attr ::= λ x, x <| qa_max_rd_atomic := n |> <| qa_timeout := qa_timeout a |> <| qa_retry_cnt := qa_retry_cnt a |>
                          <| qa_rnr_retry := qa_rnr_retry a |> <| qa_sq_psn := qa_sq_psn a mod 2 ^ 24 |>
                          <| qa_qp_state := IB_QPS_RTS |> |>
    <| qp_comp ::= λ c, c <| comp_retry_cnt := qa_retry_cnt a |> <| comp_rnr_retry := qa_rnr_retry a |>
                          <| comp_psn := qa_sq_psn a mod 2 ^ 24 |> |>
    <| qp_req ::= λ r, r <| req_rd_atomic := n |> <| req_psn := qa_sq_psn a mod 2 ^ 24 |> <| req_state := QP_STATE_READY |> |>
    <| qp_resp ::= λ r, r <| resp_res_head := 0 |> <| resp_res_tail := 0 |>
                          <| resp_resources := Some (replicate (Z.to_nat n) zero_res) |> |> |>.

Lemma psn_masked x : x .& BTH_PSN_MASK = x mod 2 ^ 24.
Proof. change BTH_PSN_MASK with (Z.ones 24). by apply Z.land_ones. Qed.

Section steps.
Context `{Params}.

Lemma wp_modify_qp F depth fuel calls a mask Q s :
  wp F (rxe_qp_chk_attr a mask) (λ r s', r = Ok tt ∧ wp F (rxe_qp_from_attr depth fuel calls a mask) Q s') s →
  wp F (rxe_modify_qp depth fuel calls a mask) Q s.
Proof. intros Hw. unfold rxe_modify_qp. wp_run. eapply wp_mono; [exact Hw|]. by intros r s' [-> ?]. Qed.

Lemma wp_modify_init F depth fuel calls a s Q :
  qp_qp_type (es_qp s) = IB_QPT_RC → qa_qp_state (qp_attr (es_qp s)) = IB_QPS_RESET →
  qa_qp_state (ma_attr a) = IB_QPS_INIT → 1 ≤ qa_port_num (ma_attr a) ≤ Z.of_nat (length (rdev_ports (es_dev s))) →
  Q (Ok tt) (initialized (ma_attr a) s) → wp F (rxe_modify_qp depth fuel calls a init_mask) Q s.
Proof.
  intros Hty Hcur Hnew Hport HQ. apply wp_modify_qp. unfold rxe_qp_chk_attr. wp_run. eval_flags. cbv iota. unfold qp_type.
  rewrite Hty, Hcur, Hnew. change (ib_modify_qp_is_ok _ _ _ _) with true. cbn [negb]. unfold chk. eval_flags. cbv iota. wp_run.
  change (IB_QPS_RESET =? IB_QPS_SQD) with false. cbn [andb]. wp_run.
  destruct (Z.ltb_spec (qa_port_num (ma_attr a)) 1); [lia|]. rewrite Z.gtb_ltb.
  destruct (Z.ltb_spec (Z.of_nat (length (rdev_ports (es_dev s)))) (qa_port_num (ma_attr a))); [lia|]. cbn [orb]. wp_run.
  split; [done|]. unfold rxe_qp_from_attr, write_attrs, mod_attr. eval_flags. cbv iota zeta. wp_run.
  rewrite Hnew. unfold new_qp_state. change (IB_QPS_INIT =? IB_QPS_RESET) with false.
  change (IB_QPS_INIT =? IB_QPS_INIT) with true. cbv iota. wp_run. same_state.
Qed.

(** A route the driver can use: to a port of the same link. *)
Record route_ok (d : rxe_dev) (ah : ib_ah_attr) : Prop := {
  ro_port : ∃ port, rdev_ports d !! Z.to_nat (ah_port_num ah - 1) = Some port ∧ 1 ≤ ah_port_num ah ∧
    ah_sgid_index ah ≤ Z.of_nat (length (port_guid_tbl port));
  ro_grh : flag_set (ah_ah_flags ah) IB_AH_GRH = true;
  ro_local : rdma_link_local_addr (ah_dgid_prefix ah) = true
}.

Lemma wp_av_chk F ah s Q : route_ok (es_dev s) ah → Q (Ok tt) s → wp F (rxe_av_chk_attr ah) Q s.
Proof.
  intros [(port & Hp & H1 & Hs) Hg _] HQ. unfold rxe_av_chk_attr. wp_run. apply lookup_lt_Some in Hp as Hlt.
  destruct (Z.ltb_spec (ah_port_num ah) 1); [lia|]. rewrite !Z.gtb_ltb.
  destruct (Z.ltb_spec (Z.of_nat (length (rdev_ports (es_dev s)))) (ah_port_num ah)); [lia|]. cbn [orb]. wp_run. rewrite Hp. wp_run.
  rewrite Z.gtb_ltb, Hg. destruct (Z.ltb_spec (Z.of_nat (length (port_guid_tbl port))) (ah_sgid_index ah)); [lia|]. by wp_run.
Qed.

Lemma wp_modify_rtr F depth fuel calls a s Q :
  qp_qp_type (es_qp s) = IB_QPT_RC → qa_qp_state (qp_attr (es_qp s)) = IB_QPS_INIT →
  qa_qp_state (ma_attr a) = IB_QPS_RTR → route_ok (es_dev s) (ma_ah_attr a) →
  (∃ port, rdev_ports (es_dev s) !! Z.to_nat (qa_port_num (qp_attr (es_qp s)) - 1) = Some port ∧
     RXE_MTU_256 ≤ qa_path_mtu (ma_attr a) ≤ RXE_MTU_8192 ∧ qa_path_mtu (ma_attr a) ≤ port_max_mtu port) →
  Q (Ok tt) (receiving (ma_attr a) (route_of (qa_port_num (ma_attr a)) (ma_ah_attr a)) s) →
  wp F (rxe_modify_qp depth fuel calls a rtr_mask) Q s.
Proof.
  intros Hty Hcur Hnew Hro (port & Hp & Hm & Hmax) HQ. apply wp_modify_qp. unfold rxe_qp_chk_attr. wp_run. eval_flags.
  cbv iota. unfold qp_type. rewrite Hty, Hcur, Hnew. change (ib_modify_qp_is_ok _ _ _ _) with true. cbn [negb].
  unfold chk. eval_flags. cbv iota. wp_run. change (IB_QPS_INIT =? IB_QPS_SQD) with false. cbn [andb]. wp_run.
  apply wp_av_chk; [done|]. wp_run. cbn [is_err]. wp_run. unfold chk_path_mtu. wp_run. rewrite Hp. wp_run.
  rewrite Z.gtb_ltb. destruct (Z.ltb_spec (port_max_mtu port) (qa_path_mtu (ma_attr a))); [lia|]. wp_run.
  split; [done|]. unfold rxe_qp_from_attr, write_attrs, mod_attr, set_av. eval_flags. cbv iota zeta. wp_run.
  destruct Hro as [_ Hg Hl]. apply wp_av_from_attr; [done..|]. wp_run. rewrite Hnew. unfold new_qp_state.
  change (IB_QPS_RTR =? IB_QPS_RESET) with false. change (IB_QPS_RTR =? IB_QPS_INIT) with false.
  change (IB_QPS_RTR =? IB_QPS_RTR) with true. cbv iota. wp_run. rewrite !psn_masked, rxe_mtu_enum_bytes by done.
  assert (Hu : u32 (2 ^ (7 + qa_path_mtu (ma_attr a))) = 2 ^ (7 + qa_path_mtu (ma_attr a))).
  { unfold u32, RXE_MTU_256, RXE_MTU_8192 in *. apply Z.mod_small. split; [apply Z.pow_nonneg; lia|apply Z.pow_lt_mono_r; lia]. }
  rewrite Hu. same_state.
Qed.


(** The resources the queue pair has are given back, new ones are allocated. *)
Definition credited (n : Z) (s : eng_state) : eng_state :=
  s <| es_qp ::= λ q, q <| qp_attr ::= λ x, x <| qa_max_rd_atomic := n |> |> <| qp_req ::= λ r, r <| req_rd_atomic := n |> |>
    <| qp_resp ::= λ r, r <| resp_res_head := 0 |> <| resp_res_tail := 0 |>
                          <| resp_resources := Some (replicate (Z.to_nat n) zero_res) |> |> |>.

Definition idle_resources (s : eng_state) : Prop :=
  ∀ l, resp_resources (qp_resp (es_qp s)) = Some l →
    Z.to_nat (qa_max_rd_atomic (qp_attr (es_qp s))) = length l ∧ Forall idle_res l.

Lemma wp_set_credits F n s Q :
  1 ≤ n ≤ 128 → es_alloc s = [] → idle_resources s →
  Q (Ok tt) (credited (roundup_pow_of_two n) s) → wp F (set_max_rd_atomic n) Q s.
Proof.
  intros Hn Hal Hres HQ. unfold set_max_rd_atomic, free_rd_atomic_resources, alloc_rd_atomic_resources. wp_run.
  apply (wp_mono _ _ (λ _ s', ∃ rs, s' = s <| es_qp ::= λ q, q <| qp_resp ::= λ r, r <| resp_resources := rs |> |> |>)).
  { apply wp_cleanup_resources.
    - intros l Hl. destruct (Hres l Hl) as [E Hi]. split; [done|by apply idle_holds_nothing].
    - intros l Hl. destruct (Hres l Hl) as [E Hi]. rewrite resources_freed_idle by done. by eexists.
    - intros Hno. exists None. destruct s as [d [? ? ? [] ? ? ? ? ? ? ? ? ? ? ? ? ? ? ? [] [] []] ? ? ? ?]. cbn in Hno. by subst. }
  intros _ s1 [rs ->]. wp_run. unfold next_alloc at 1. unfold wp at 1. set (s1 := s <| es_qp ::= _ |> <| es_qp ::= _ |> <| es_qp ::= _ |>).
  rewrite (Hal : es_alloc s1 = []). subst s1. cbv iota. wp_run. pose proof (roundup_credits _ Hn) as Hc. unfold mod_attr. wp_run.
  set (m := roundup_pow_of_two _) in *. rewrite !s32_small by lia. replace (u8 m) with m by (symmetry; apply Z.mod_small; lia).
  same_state.
Qed.

Lemma wp_modify_rts F depth fuel calls a s Q :
  qp_qp_type (es_qp s) = IB_QPT_RC → qa_qp_state (qp_attr (es_qp s)) = IB_QPS_RTR →
  qa_qp_state (ma_attr a) = IB_QPS_RTS → 1 ≤ qa_max_rd_atomic (ma_attr a) ≤ 128 →
  qa_max_rd_atomic (ma_attr a) ≤ da_max_qp_rd_atom (rdev_attr (es_dev s)) → qa_timeout (ma_attr a) ≤ 31 →
  es_alloc s = [] → idle_resources s →
  Q (Ok tt) (sending (ma_attr a) (roundup_pow_of_two (qa_max_rd_atomic (ma_attr a))) s) →
  wp F (rxe_modify_qp depth fuel calls a rts_mask) Q s.
Proof.
  intros Hty Hcur Hnew Hrd Hmax Hto Hal Hres HQ. apply wp_modify_qp. unfold rxe_qp_chk_attr. wp_run. eval_flags.
  cbv iota. unfold qp_type. rewrite Hty, Hcur, Hnew. change (ib_modify_qp_is_ok _ _ _ _) with true. cbn [negb].
  unfold chk. eval_flags. cbv iota. wp_run. change (IB_QPS_RTR =? IB_QPS_SQD) with false. cbn [andb]. wp_run.
  rewrite !Z.gtb_ltb. destruct (Z.ltb_spec (da_max_qp_rd_atom (rdev_attr (es_dev s))) (qa_max_rd_atomic (ma_attr a))); [lia|]. wp_run.
  destruct (Z.ltb_spec 31 (qa_timeout (ma_attr a))); [lia|]. wp_run. split; [done|].
  unfold rxe_qp_from_attr. eval_flags. cbv iota zeta. wp_run. apply wp_set_credits; [done..|].
  unfold write_attrs, mod_attr. eval_flags. cbv iota zeta. wp_run.
  rewrite Hnew. unfold new_qp_state. change (IB_QPS_RTS =? IB_QPS_RESET) with false. change (IB_QPS_RTS =? IB_QPS_INIT) with false.
  change (IB_QPS_RTS =? IB_QPS_RTR) with false. change (IB_QPS_RTS =? IB_QPS_RTS) with true. cbv iota. wp_run. rewrite !psn_masked.
  same_state.
Qed.

(** ** The whole sequence *)

Definition connect (depth fuel calls : nat) (a1 a2 a3 : qp_attrs) : eng (result unit) :=
  r ← rxe_modify_qp depth fuel calls a1 init_mask;
  match r with
  | Err e => mret (Err e)
  | Ok _ =>
      r ← rxe_modify_qp depth fuel calls a2 rtr_mask;
      match r with
      | Err e => mret (Err e)
      | Ok _ => rxe_modify_qp depth fuel calls a3 rts_mask
      end
  end.

(** Attributes the device supports, and a queue pair in reset. *)
Record supported (a1 a2 a3 : qp_attrs) (s : eng_state) : Prop := {
  ck_states : qa_qp_state (ma_attr a1) = IB_QPS_INIT ∧ qa_qp_state (ma_attr a2) = IB_QPS_RTR ∧
    qa_qp_state (ma_attr a3) = IB_QPS_RTS;
  ck_route : route_ok (es_dev s) (ma_ah_attr a2);
  ck_port : 1 ≤ qa_port_num (ma_attr a1) ∧
    ∃ port, rdev_ports (es_dev s) !! Z.to_nat (qa_port_num (ma_attr a1) - 1) = Some port ∧
      RXE_MTU_256 ≤ qa_path_mtu (ma_attr a2) ≤ RXE_MTU_8192 ∧ qa_path_mtu (ma_attr a2) ≤ port_max_mtu port;
  ck_credits : 1 ≤ qa_max_rd_atomic (ma_attr a3) ≤ 128 ∧
    qa_max_rd_atomic (ma_attr a3) ≤ da_max_qp_rd_atom (rdev_attr (es_dev s));
  ck_timeout : qa_timeout (ma_attr a3) ≤ 31;
  ck_alloc : es_alloc s = []
}.

Record in_reset (s : eng_state) : Prop := {
  ir_type : qp_qp_type (es_qp s) = IB_QPT_RC;
  ir_state : qa_qp_state (qp_attr (es_qp s)) = IB_QPS_RESET;
  ir_res : idle_resources s
}.

Definition connected (a1 a2 a3 : qp_attrs) (s : eng_state) : eng_state :=
  sending (ma_attr a3) (roundup_pow_of_two (qa_max_rd_atomic (ma_attr a3)))
    (receiving (ma_attr a2) (route_of (qa_port_num (ma_attr a2)) (ma_ah_attr a2)) (initialized (ma_attr a1) s)).

Lemma wp_connect F depth fuel calls a1 a2 a3 s Q :
  supported a1 a2 a3 s → in_reset s → Q (Ok tt) (connected a1 a2 a3 s) → wp F (connect depth fuel calls a1 a2 a3) Q s.
Proof.
  intros [(C3 & C4 & C5) C6 (C7 & port & C8 & C9) [C10 C11] C12 C13] [C1 C2 C14] HQ. unfold connect. wp_run.
  apply wp_modify_init; [done..| |]. { apply lookup_lt_Some in C8. lia. }
  wp_run. apply wp_modify_rtr; [done..| |]. { by exists port. }
  by apply wp_modify_rts.
Qed.
End steps.

(** ** Back to reset *)

Definition to_reset (s : eng_state) : eng_state :=
  s <| es_qp ::= λ q, q <| qp_attr ::= λ a, a <| qa_qp_state := IB_QPS_RESET |> |> |>.

Section back.
Context `{Params}.

Lemma reset_allowed cur type : cur ∈ states → ib_modify_qp_is_ok cur IB_QPS_RESET type IB_QP_STATE = true.
Proof. intros Hc. each Hc; reflexivity. Qed.

Lemma wp_modify_reset F k depth fuel calls a s Q :
  resettable k s → qa_qp_state (qp_attr (es_qp s)) ∈ states → qa_qp_state (ma_attr a) = IB_QPS_RESET →
  (qa_qp_state (qp_attr (es_qp s)) = IB_QPS_SQD → req_state (qp_req (es_qp s)) ≠ QP_STATE_DRAIN) →
  (∀ s', was_reset (to_reset s) s' → Q (Ok tt) s') →
  wp F (rxe_modify_qp (S depth) (S fuel) (S calls) a IB_QP_STATE) Q s.
Proof.
  intros Hr Hc Hnew Hd HQ. apply wp_modify_qp. unfold rxe_qp_chk_attr. wp_run. eval_flags. cbv iota. rewrite Hnew, reset_allowed by done.
  cbn [negb]. unfold chk. eval_flags. cbv iota. wp_run.
  assert (E : (qa_qp_state (qp_attr (es_qp s)) =? IB_QPS_SQD) && bool_decide (req_state (qp_req (es_qp s)) = QP_STATE_DRAIN) = false).
  { destruct (Z.eqb_spec (qa_qp_state (qp_attr (es_qp s))) IB_QPS_SQD); [|done]. cbn [andb]. apply bool_decide_eq_false_2. auto. }
  rewrite E. cbn [andb]. wp_run. split; [done|]. unfold rxe_qp_from_attr, write_attrs, mod_attr. eval_flags. cbv iota zeta. wp_run.
  rewrite Hnew. unfold new_qp_state. change (IB_QPS_RESET =? IB_QPS_RESET) with true. cbv iota.
  apply (wp_qp_reset _ k); [by destruct Hr|]. intros s' Hw. wp_run. by apply HQ.
Qed.

(** C30: a reset. From every state, except while the send queue is being drained,
    a queue pair can be reset: the call returns, the work requests and the
    received packets that were queued are gone without a completion, and what
    they and the resources of the responder held has been given back. The
    requester is at its beginning but for its sequence number, its count of
    reads and its fence; the responder is in no message, with its counter of
    messages at zero and no region or receive request in use. Some things are
    left as they were: the packets the arbiter has yet to send, the expected
    sequence number, the members of the completer, and the read that was being
    answered. *)
Theorem reset_from_any_state k depth fuel calls a s :
  resettable k s → qa_qp_state (qp_attr (es_qp s)) ∈ states → qa_qp_state (ma_attr a) = IB_QPS_RESET →
  (qa_qp_state (qp_attr (es_qp s)) = IB_QPS_SQD → req_state (qp_req (es_qp s)) ≠ QP_STATE_DRAIN) →
  ∃ s', rxe_modify_qp (S depth) (S fuel) (S calls) a IB_QP_STATE s = Some (Ok tt, s') ∧ was_reset (to_reset s) s' ∧
    queue_list (qp_sq (es_qp s')) = [] ∧ resettable k s'.
Proof.
  intros Hr Hc Hnew Hd. destruct (wp_total (rxe_modify_qp (S depth) (S fuel) (S calls) a IB_QP_STATE)
    (λ r s', r = Ok tt ∧ was_reset (to_reset s) s') s) as (r & s' & E & -> & Hw).
  { by apply (wp_modify_reset _ k). }
  exists s'. split; [done|]. split; [done|]. split.
  - rewrite (wr_sq _ _ Hw). apply (emptied_wf k), Hr.
  - eapply reset_resettable; [|exact Hw]. by destruct Hr.
Qed.

Lemma reset_supported a1 a2 a3 k s s' :
  resettable k s → qp_qp_type (es_qp s) = IB_QPT_RC → was_reset (to_reset s) s' → supported a1 a2 a3 s →
  supported a1 a2 a3 s' ∧ in_reset s'.
Proof.
  intros [_ _ _ Hres] Hty [_ _ _ _ _ (_ & _ & _ & _ & _ & _ & _ & W1) _ _ _ _ (W2 & W3 & W4) (W5 & _ & W6)].
  change (rdev_ports (es_dev (to_reset s))) with (rdev_ports (es_dev s)) in W2.
  change (rdev_attr (es_dev (to_reset s))) with (rdev_attr (es_dev s)) in W3.
  intros [S1 [R1 R2 R3] S3 S4 S5 S6]. split; split; rewrite ?W2, ?W3, ?W4, ?W5, ?W6; try done.
  - split; rewrite ?W2; done.
  - intros l. rewrite W1, W5. cbn. destruct (resp_resources (qp_resp (es_qp s))) as [l0|] eqn:E; cbn; intros [= <-].
    destruct (Hres _ eq_refl) as [-> _]. rewrite length_map. split; [done|apply unused_idle].
Qed.

(** An acknowledgement in the middle of a read, and a request while a read is
    being answered. *)
Lemma ack_within_read s sq a w ack :
  comp_opcode (qp_comp (es_qp s)) = IB_OPCODE_RC_RDMA_READ_RESPONSE_MIDDLE → elem_at sq a = Some w →
  pkt_opcode ack = IB_OPCODE_RC_ACKNOWLEDGE →
  let s' := s <| es_qp ::= λ q, q <| qp_sq := sq |> |> in check_ack ack a s' = Some (COMPST_ERROR, s').
Proof.
  intros Hop Hel Hack s'. unfold check_ack, sq_wqe, mbind, eng_bind, get_qp, gets.
  change (elem_at (qp_sq (es_qp s')) a) with (elem_at sq a). rewrite Hel. cbn [deref mret eng_ret].
  change (comp_opcode (qp_comp (es_qp s'))) with (comp_opcode (qp_comp (es_qp s))).
  rewrite Hop. unfold ack_out_of_sequence. rewrite Hack. reflexivity.
Qed.

Lemma request_within_read s pkt i :
  resp_state (qp_resp (es_qp s)) = QP_STATE_READY → resp_cur_res (qp_resp (es_qp s)) = Some i →
  let s' := s <| es_qp ::= λ q, q <| qp_req_pkts := [pkt] |> |> in
  get_req s' = Some ((RESPST_READ_REPLY, Some pkt), s').
Proof.
  intros Hst Hcr s'. unfold get_req, mbind, eng_bind, get_qp, gets.
  change (resp_state (qp_resp (es_qp s'))) with (resp_state (qp_resp (es_qp s))). rewrite Hst, bool_decide_eq_false_2 by done.
  change (qp_req_pkts (es_qp s')) with [pkt]. change (resp_cur_res (qp_resp (es_qp s'))) with (resp_cur_res (qp_resp (es_qp s))).
  by rewrite Hcr.
Qed.

Lemma connected_engines a1 a2 a3 s : let q := es_qp (connected a1 a2 a3 s) in
  req_state (qp_req q) = QP_STATE_READY ∧ resp_state (qp_resp q) = QP_STATE_READY ∧
  comp_opcode (qp_comp q) = comp_opcode (qp_comp (es_qp s)) ∧ resp_cur_res (qp_resp q) = resp_cur_res (qp_resp (es_qp s)).
Proof. by destruct s as [? [? ? ? [] ? ? ? ? ? ? ? ? ? ? ? ? ? ? ? [] [] []] ? ? ? ?]. Qed.

(** A reset does not end a read. The completer's last opcode and the read the
    responder is answering survive the reset and the steps that connect the
    queue pair again. After a reset in the middle of a read, the first
    acknowledgement of the new connection is out of sequence for the completer,
    and the first request is taken by the responder for the rest of the old
    read. *)
Theorem reset_keeps_read k depth fuel calls a0 a1 a2 a3 s i :
  resettable k s → qp_qp_type (es_qp s) = IB_QPT_RC → qa_qp_state (qp_attr (es_qp s)) ∈ [IB_QPS_RTS; IB_QPS_ERR] →
  qa_qp_state (ma_attr a0) = IB_QPS_RESET → supported a1 a2 a3 s →
  comp_opcode (qp_comp (es_qp s)) = IB_OPCODE_RC_RDMA_READ_RESPONSE_MIDDLE → resp_cur_res (qp_resp (es_qp s)) = Some i →
  ∃ s1 s2, rxe_modify_qp (S depth) (S fuel) (S calls) a0 IB_QP_STATE s = Some (Ok tt, s1) ∧
    connect (S depth) (S fuel) (S calls) a1 a2 a3 s1 = Some (Ok tt, s2) ∧
    req_state (qp_req (es_qp s2)) = QP_STATE_READY ∧ resp_state (qp_resp (es_qp s2)) = QP_STATE_READY ∧
    (∀ sq a w ack, elem_at sq a = Some w → pkt_opcode ack = IB_OPCODE_RC_ACKNOWLEDGE →
       let s3 := s2 <| es_qp ::= λ q, q <| qp_sq := sq |> |> in check_ack ack a s3 = Some (COMPST_ERROR, s3)) ∧
    (∀ pkt, let s3 := s2 <| es_qp ::= λ q, q <| qp_req_pkts := [pkt] |> |> in
       get_req s3 = Some ((RESPST_READ_REPLY, Some pkt), s3)).
Proof.
  intros Hr Hty Hc Hnew Hco Hop Hcr. destruct (wp_total (rxe_modify_qp (S depth) (S fuel) (S calls) a0 IB_QP_STATE)
    (λ r s', r = Ok tt ∧ was_reset (to_reset s) s') s) as (r & s1 & E1 & -> & Hw).
  { apply (wp_modify_reset _ k); [done| |done| |done]; [|each Hc; discriminate]. each Hc; cbv; repeat first [by left|right]. }
  destruct (wp_total (connect (S depth) (S fuel) (S calls) a1 a2 a3) (λ r s', r = Ok tt ∧ s' = connected a1 a2 a3 s1) s1)
    as (r & s2 & E2 & -> & ->).
  { destruct (reset_supported a1 a2 a3 k s s1 Hr Hty Hw Hco). by apply wp_connect. }
  destruct Hw as [_ _ _ _ _ _ [L1 L2] _ _ _ _ _]. destruct (connected_engines a1 a2 a3 s1) as (C1 & C2 & C3 & C4).
  set (s2 := connected a1 a2 a3 s1) in *. clearbody s2. rewrite L1 in C3. rewrite L2 in C4. exists s1, s2.
  split; [done|]. split; [done|]. split; [done|]. split; [done|]. split.
  - intros sq a w ack Hel Hack. eapply ack_within_read; [by rewrite C3|done..].
  - intros pkt. eapply request_within_read; [done|by rewrite C4].
Qed.
End back.

(** ** Examples *)

Lemma reset_from_any_state_witness : let s := example_in IB_QPS_RTS QP_STATE_READY QP_STATE_READY in
  ∃ s', rxe_modify_qp (H := example_params) 1 1 1 (example_args IB_QPS_RESET) IB_QP_STATE s = Some (Ok tt, s') ∧
    queue_list (qp_sq (es_qp s')) = [].
Proof.
  intros s. destruct (reset_from_any_state (H := example_params) 2 0 0 0 (example_args IB_QPS_RESET) s) as (s' & E & _ & Hl & _).
  - apply example_resettable.
  - right. right. right. left.
  - done.
  - done.
  - by exists s'.
Defined.

Lemma example_supported s :
  es_dev s = example_rdev → es_alloc s = [] →
  supported (example_args IB_QPS_INIT) (example_args IB_QPS_RTR) (example_args IB_QPS_RTS) s.
Proof.
  intros Hd Ha. split; rewrite ?Hd, ?Ha; try done.
  - split; [eexists; split; [done|]; cbn; lia|done|done].
  - split; [done|]. eexists. split; [done|]. vm_compute. intuition discriminate.
Qed.

Lemma reset_keeps_read_witness :
  let s := example_in IB_QPS_RTS QP_STATE_READY QP_STATE_READY
    <| es_qp ::= λ q, q <| qp_comp ::= λ c, c <| comp_opcode := IB_OPCODE_RC_RDMA_READ_RESPONSE_MIDDLE |> |>
                        <| qp_resp ::= λ r, r <| resp_cur_res := Some 0%nat |> |> |> in
  ∃ s1 s2, rxe_modify_qp (H := example_params) 1 1 1 (example_args IB_QPS_RESET) IB_QP_STATE s = Some (Ok tt, s1) ∧
    connect (H := example_params) 1 1 1 (example_args IB_QPS_INIT) (example_args IB_QPS_RTR) (example_args IB_QPS_RTS) s1 = Some (Ok tt, s2) ∧
    resp_cur_res (qp_resp (es_qp s2)) = Some 0%nat.
Proof.
  intros s. destruct (reset_keeps_read (H := example_params) 2 0 0 0 (example_args IB_QPS_RESET) (example_args IB_QPS_INIT)
    (example_args IB_QPS_RTR) (example_args IB_QPS_RTS) s 0) as (s1 & s2 & E1 & E2 & _).
  - destruct (example_resettable IB_QPS_RTS QP_STATE_READY QP_STATE_READY). by split.
  - done.
  - left.
  - done.
  - by apply example_supported.
  - done.
  - done.
  - exists s1, s2. split; [done|]. split; [done|]. clear -E1 E2. vm_compute in E1. injection E1 as <-. vm_compute in E2. by injection E2 as <-.
Defined.
