(* ===== verification/QpDefects.v ===== *)
(** * Where modifying a queue pair goes wrong (rxe_qp.c)

    Three ways to leave the invariant of QpInv: resources that could not be
    allocated, a current state the caller makes up, and an error the engines
    found themselves. *)

From stdpp Require Import gmap.
From S2P Require Import Prelude Queue Opcode Hdr Verbs Mr Cq State Av QpState Comp Req Resp Qp QpReset QpInv QpConnect.

Section defects.
Context `{Params}.

(** ** Resources that could not be allocated *)

Lemma wp_modify_credits_failed F k depth fuel calls a s al Q :
  qp_inv k s → qa_qp_state (qp_attr (es_qp s)) = IB_QPS_SQD →
  0 ≤ qa_max_rd_atomic (ma_attr a) ≤ da_max_qp_rd_atom (rdev_attr (es_dev s)) → es_alloc s = false :: al →
  (∀ s', parts s' = parts s → resp_resources (qp_resp (es_qp s')) = None → Q (Err ENOMEM) s') →
  wp F (rxe_modify_qp depth fuel calls a IB_QP_MAX_QP_RD_ATOMIC) Q s.
Proof.
  intros [Hty Hr _ _ _ Hlim] Hcur Hn Hal HQ. apply wp_modify_qp. unfold rxe_qp_chk_attr. wp_run. eval_flags. cbv iota.
  unfold qp_type. rewrite Hty, Hcur. change (ib_modify_qp_is_ok _ _ _ _) with true. cbn [negb]. unfold chk. eval_flags. cbv iota.
  wp_run. rewrite Z.gtb_ltb. destruct (Z.ltb_spec (da_max_qp_rd_atom (rdev_attr (es_dev s))) (qa_max_rd_atomic (ma_attr a))); [lia|].
  wp_run. split; [done|]. unfold rxe_qp_from_attr, set_max_rd_atomic. eval_flags. cbv iota. wp_run.
  apply (wp_mono _ _ (λ _ s', parts s' = parts s ∧ es_alloc s' = es_alloc s)).
  { unfold free_rd_atomic_resources. wp_run. apply wp_cleanup_resources; [apply Hr| |by intros _; wp_run].
    intros l Hl. wp_run. by destruct s as [[] [] ? ? ? ?]. }
  intros [] s1 [Hp Ha]. unfold alloc_rd_atomic_resources. wp_run. unfold next_alloc at 1. unfold wp at 1.
  set (s2 := s1 <| es_qp ::= _ |>). rewrite (Ha : es_alloc s2 = es_alloc s), Hal. cbv iota. wp_run. apply HQ; [|done].
  rewrite <- Hp. subst s2. by destruct s1 as [[] [? ? ? ? ? ? ? ? ? ? ? ? ? ? ? ? ? ? ? [] ? []] ? ? ? ?].
Qed.

(** Resources that could not be allocated. The old resources of the responder
    are freed before the new ones are allocated; when that fails, the call
    reports it, and the queue pair has no resources but still promises as many
    as before. A read or atomic request that comes in passes the check for
    resources, and taking one dereferences a null pointer. *)
Theorem credits_lost_on_failure k depth fuel calls a s al pkt :
  qp_inv k s → qa_qp_state (qp_attr (es_qp s)) = IB_QPS_SQD → 0 < qa_max_rd_atomic (qp_attr (es_qp s)) →
  0 ≤ qa_max_rd_atomic (ma_attr a) ≤ da_max_qp_rd_atom (rdev_attr (es_dev s)) → es_alloc s = false :: al →
  flag_set (pkt_mask pkt) RXE_READ_OR_ATOMIC = true →
  ∃ s', rxe_modify_qp depth fuel calls a IB_QP_MAX_QP_RD_ATOMIC s = Some (Err ENOMEM, s') ∧
    check_resource (Some pkt) s' = Some (RESPST_CHK_LENGTH, s') ∧ take_resource s' = None.
Proof.
  intros Hi Hst Hm Hn Hal Hf.
  destruct (wp_total (rxe_modify_qp depth fuel calls a IB_QP_MAX_QP_RD_ATOMIC)
    (λ r s', r = Err ENOMEM ∧ parts s' = parts s ∧ resp_resources (qp_resp (es_qp s')) = None) s) as (r & s' & E & -> & Hp & Hno).
  { by eapply (wp_modify_credits_failed _ k). }
  exists s'. split; [done|]. unfold parts, engines in Hp. injection Hp as _ _ _ Hat _ _ _ _ _ Hrs.
  pose proof (qi_step _ _ Hi) as Hstep. unfold qp_in_step, in_step in Hstep. rewrite Hst in Hstep. destruct Hstep as [_ Hrd]. split.
  - unfold check_resource, mbind, eng_bind, get_qp, gets. rewrite Hrs, Hrd, bool_decide_eq_false_2 by done. cbn [deref mret eng_ret].
    rewrite Hf, Hat, Z.gtb_ltb. destruct (Z.ltb_spec 0 (qa_max_rd_atomic (qp_attr (es_qp s)))); [done|lia].
  - unfold take_resource, free_rd_atomic_resource, get_res, mbind, eng_bind, get_qp, gets. by rewrite Hno.
Qed.

(** ** A current state that is made up *)

Definition claim_mask : Z := rts_mask .| IB_QP_CUR_STATE.

(** A current state the caller makes up. [rxe_qp_chk_attr] takes the current
    state from the caller and does not compare it with the state of the queue
    pair. A queue pair that was just created, without destination, port or MTU,
    is brought into the state in which it sends by a call that claims that it
    is ready to receive; its responder stays in reset. *)
Theorem current_state_trusted depth fuel calls a s :
  in_reset s → resp_state (qp_resp (es_qp s)) = QP_STATE_RESET →
  qa_qp_state (ma_attr a) = IB_QPS_RTS → qa_cur_qp_state (ma_attr a) = IB_QPS_RTR → 1 ≤ qa_max_rd_atomic (ma_attr a) ≤ 128 →
  qa_max_rd_atomic (ma_attr a) ≤ da_max_qp_rd_atom (rdev_attr (es_dev s)) → qa_timeout (ma_attr a) ≤ 31 → es_alloc s = [] →
  ∃ s', rxe_modify_qp depth fuel calls a claim_mask s = Some (Ok tt, s') ∧
    qa_qp_state (qp_attr (es_qp s')) = IB_QPS_RTS ∧ req_state (qp_req (es_qp s')) = QP_STATE_READY ∧
    resp_state (qp_resp (es_qp s')) = QP_STATE_RESET ∧ qp_pri_av (es_qp s') = qp_pri_av (es_qp s) ∧
    qa_dest_qp_num (qp_attr (es_qp s')) = qa_dest_qp_num (qp_attr (es_qp s)).
Proof.
  intros [Hty Hst Hres] Hrs Hnew Hcl Hrd Hmax Hto Hal.
  enough (Hw : wp False (rxe_modify_qp depth fuel calls a claim_mask) (λ r s', r = Ok tt ∧
    qa_qp_state (qp_attr (es_qp s')) = IB_QPS_RTS ∧ req_state (qp_req (es_qp s')) = QP_STATE_READY ∧
    resp_state (qp_resp (es_qp s')) = QP_STATE_RESET ∧ qp_pri_av (es_qp s') = qp_pri_av (es_qp s) ∧
    qa_dest_qp_num (qp_attr (es_qp s')) = qa_dest_qp_num (qp_attr (es_qp s))) s).
  { apply wp_total in Hw as (r & s' & E & -> & Hw). by exists s'. }
  apply wp_modify_qp. unfold rxe_qp_chk_attr. wp_run. eval_flags. cbv iota. unfold qp_type. rewrite Hty, Hcl, Hnew.
  change (ib_modify_qp_is_ok _ _ _ _) with true. cbn [negb]. unfold chk. eval_flags. cbv iota. wp_run.
  change (IB_QPS_RTR =? IB_QPS_SQD) with false. cbn [andb]. wp_run. rewrite !Z.gtb_ltb.
  destruct (Z.ltb_spec (da_max_qp_rd_atom (rdev_attr (es_dev s))) (qa_max_rd_atomic (ma_attr a))); [lia|]. wp_run.
  destruct (Z.ltb_spec 31 (qa_timeout (ma_attr a))); [lia|]. wp_run. split; [done|].
  unfold rxe_qp_from_attr. eval_flags. cbv iota zeta. wp_run. apply wp_set_credits; [done..|].
  unfold write_attrs, mod_attr. eval_flags. cbv iota zeta. wp_run.
  rewrite Hnew. unfold new_qp_state. change (IB_QPS_RTS =? IB_QPS_RESET) with false. change (IB_QPS_RTS =? IB_QPS_INIT) with false.
  change (IB_QPS_RTS =? IB_QPS_RTR) with false. change (IB_QPS_RTS =? IB_QPS_RTS) with true. cbv iota. wp_run.
  revert Hrs. clear. by destruct s as [? [? ? ? [] ? ? ? ? ? ? ? ? ? ? ? ? ? ? ? [] [] []] ? ? ? ?].
Qed.

(** ** An error the engines found *)

(** An error that is forgotten. When an engine finds an error, [rxe_qp_error]
    stops both engines but leaves the state of the queue pair as it was. A query
    still reports the old state, and a call that asks for the state the queue
    pair is believed to be in succeeds and lets the requester go on, while the
    responder stays stopped. *)
Theorem error_forgotten depth fuel calls a s :
  qp_qp_type (es_qp s) = IB_QPT_RC → qa_qp_state (qp_attr (es_qp s)) = IB_QPS_RTS → qa_qp_state (ma_attr a) = IB_QPS_RTS →
  ∃ s1 s2, rxe_qp_error (do_comp_task depth fuel calls) s = Some (tt, s1) ∧
    qa_qp_state (ma_attr (rxe_qp_to_attr (es_qp s1))) = IB_QPS_RTS ∧ req_state (qp_req (es_qp s1)) = QP_STATE_ERROR ∧
    rxe_modify_qp depth fuel calls a IB_QP_STATE s1 = Some (Ok tt, s2) ∧
    req_state (qp_req (es_qp s2)) = QP_STATE_READY ∧ resp_state (qp_resp (es_qp s2)) = QP_STATE_ERROR.
Proof.
  intros Hty Hst Hnew. destruct (wp_total (rxe_qp_error (do_comp_task depth fuel calls)) (λ _ s1,
    qp_qp_type (es_qp s1) = IB_QPT_RC ∧ qp_attr (es_qp s1) = qp_attr (es_qp s) ∧ engines s1 = (QP_STATE_ERROR, QP_STATE_ERROR)) s)
    as ([] & s1 & E1 & T1 & A1 & N1).
  { unfold rxe_qp_error. wp_run. unfold qp_type. cbn [es_qp upd_field qp_qp_type]. rewrite Hty.
    change (IB_QPT_RC =? IB_QPT_RC) with true. cbv iota. by wp_run. }
  unfold engines in N1. injection N1 as N1 N2.
  destruct (wp_total (rxe_modify_qp depth fuel calls a IB_QP_STATE) (λ r s2, r = Ok tt ∧
    req_state (qp_req (es_qp s2)) = QP_STATE_READY ∧ resp_state (qp_resp (es_qp s2)) = QP_STATE_ERROR) s1) as (r & s2 & E2 & -> & R1 & R2).
  { apply wp_modify_qp. unfold rxe_qp_chk_attr. wp_run. eval_flags. cbv iota. unfold qp_type. rewrite T1, A1, Hst, Hnew.
    change (ib_modify_qp_is_ok _ _ _ _) with true. cbn [negb]. unfold chk. eval_flags. cbv iota. wp_run.
    change (IB_QPS_RTS =? IB_QPS_SQD) with false. cbn [andb]. wp_run. split; [done|].
    unfold rxe_qp_from_attr, write_attrs, mod_attr. eval_flags. cbv iota zeta. wp_run. rewrite Hnew. unfold new_qp_state.
    change (IB_QPS_RTS =? IB_QPS_RESET) with false. change (IB_QPS_RTS =? IB_QPS_INIT) with false.
    change (IB_QPS_RTS =? IB_QPS_RTR) with false. change (IB_QPS_RTS =? IB_QPS_RTS) with true. cbv iota. by wp_run. }
  exists s1, s2. split; [done|]. split; [by cbn; rewrite A1|]. done.
Qed.
End defects.

(** ** Examples *)

Lemma credits_lost_on_failure_witness :
  let s := example_in IB_QPS_SQD QP_STATE_DRAINED QP_STATE_READY <| es_alloc := [false] |> in
  let pkt := example_ack 0 5 <| pkt_mask := RXE_READ_MASK |> in
  ∃ s', rxe_modify_qp (H := example_params) 1 1 1 (example_args IB_QPS_SQD) IB_QP_MAX_QP_RD_ATOMIC s = Some (Err ENOMEM, s') ∧
    check_resource (Some pkt) s' = Some (RESPST_CHK_LENGTH, s') ∧ take_resource s' = None.
Proof.
  intros s pkt. apply (credits_lost_on_failure (H := example_params) 2 1 1 1 (example_args IB_QPS_SQD) s [] pkt).
  - destruct (example_inv IB_QPS_SQD QP_STATE_DRAINED QP_STATE_READY) as [? [] ? ? ? ?]; [split; [by right|done]|]. by split.
  - done.
  - done.
  - by vm_compute.
  - done.
  - done.
Defined.

Lemma current_state_trusted_witness :
  let s := example_in IB_QPS_RESET QP_STATE_RESET QP_STATE_RESET in
  let a := example_args IB_QPS_RTS in
  let a := a <| ma_attr ::= λ x, x <| qa_cur_qp_state := IB_QPS_RTR |> |> in
  ∃ s', rxe_modify_qp (H := example_params) 1 1 1 a claim_mask s = Some (Ok tt, s') ∧
    req_state (qp_req (es_qp s')) = QP_STATE_READY ∧ resp_state (qp_resp (es_qp s')) = QP_STATE_RESET.
Proof.
  intros s a a'. destruct (current_state_trusted (H := example_params) 1 1 1 a' s) as (s' & E & _ & H1 & H2 & _); try done.
  - split; [done..|]. intros l [= <-]. split; [done|]. by repeat constructor.
  - by exists s'.
Defined.

Lemma error_forgotten_witness :
  let s := example_in IB_QPS_RTS QP_STATE_READY QP_STATE_READY in
  ∃ s1 s2, rxe_qp_error (do_comp_task (H := example_params) 1 1 1) s = Some (tt, s1) ∧
    rxe_modify_qp (H := example_params) 1 1 1 (example_args IB_QPS_RTS) IB_QP_STATE s1 = Some (Ok tt, s2) ∧
    req_state (qp_req (es_qp s2)) = QP_STATE_READY ∧ resp_state (qp_resp (es_qp s2)) = QP_STATE_ERROR.
Proof.
  intros s. destruct (error_forgotten (H := example_params) 1 1 1 (example_args IB_QPS_RTS) s)
    as (s1 & s2 & E1 & _ & _ & E2 & H1 & H2); [done..|]. by exists s1, s2.
Defined.
