(* ===== verification/Ack.v ===== *)
(** * The answers of the responder (rxe_resp.c)

    What [prepare_ack_packet] puts into the headers of an acknowledgement or a
    read response, and what sending one leaves alone. *)

From stdpp Require Import gmap.
From S2P Require Import Prelude Bits Queue Opcode Hdr Verbs Icrc Mr Sge Cq State Comp Arbiter Req ReqPacket.
From S2P Require Import Resp.

Definition answer_opcodes : list Z :=
  [IB_OPCODE_RC_ACKNOWLEDGE; IB_OPCODE_RC_ATOMIC_ACKNOWLEDGE; IB_OPCODE_RC_RDMA_READ_RESPONSE_FIRST;
   IB_OPCODE_RC_RDMA_READ_RESPONSE_MIDDLE; IB_OPCODE_RC_RDMA_READ_RESPONSE_LAST;
   IB_OPCODE_RC_RDMA_READ_RESPONSE_ONLY].

Record answer_opcode_facts (op : Z) : Prop := {
  ao_range : 0 ≤ op < 256;
  ao_length : 12 ≤ opcode_length op ≤ 24;
  ao_payload : opcode_offset op RXE_PAYLOAD = opcode_length op;
  ao_lrh : flag_set (opcode_mask op) RXE_LRH_MASK = false;
  ao_req : flag_set (opcode_mask op) RXE_REQ_MASK = false;
  ao_aeth : flag_set (opcode_mask op) RXE_AETH_MASK = true →
    opcode_offset op RXE_AETH = 12 ∧ 16 ≤ opcode_length op;
  ao_atmack : flag_set (opcode_mask op) RXE_ATMACK_MASK = true →
    opcode_offset op RXE_ATMACK = 16 ∧ opcode_length op = 24
}.

Lemma answer_opcode_spec op : op ∈ answer_opcodes → answer_opcode_facts op.
Proof.
  intros Hop. repeat (apply elem_of_cons in Hop as [->|Hop]); [..|by apply not_elem_of_nil in Hop].
  all: split; vm_compute; intuition congruence.
Qed.

(** The way back of a packet. *)
Definition way_back (g : grh_fields) (paylen : Z) : grh_fields :=
  GrhFields (g_ipver g) (g_next_hdr g) paylen (u64 (g_dgid_prefix g)) (u64 (g_dgid_guid g)) (u64 (g_sgid_prefix g))
    (u64 (g_sgid_guid g)) (u8 (g_dgid_prefix g / 2 ^ 56)).

(** An answer of the queue pair [q] to [req], as the other side reads it. *)
Record answer (q : rxe_qp) (req : rxe_pkt_info) (op payload psn syndrome : Z) (ack : rxe_pkt_info) : Prop := {
  an_opcode : pkt_opcode ack = op;
  an_mask : ∃ x, link_mask x ∧ pkt_mask ack = x .| opcode_mask op;
  an_offset : pkt_offset ack = RXE_GRH_BYTES;
  an_pkt_psn : pkt_psn ack = psn;
  an_paylen : pkt_paylen ack = opcode_length op + payload + pad_bytes payload + RXE_ICRC_SIZE;
  an_length : Z.of_nat (length (pkt_hdr ack)) = RXE_GRH_BYTES + pkt_paylen ack;
  an_bth : bth_opcode ack = op ∧ bth_psn ack = psn mod 2 ^ 24 ∧ bth_pad ack = pad_bytes payload ∧
    bth_qpn ack = qa_dest_qp_num (qp_attr q) mod 2 ^ 24;
  an_aeth : flag_set (opcode_mask op) RXE_AETH_MASK = true →
    aeth_syn ack = u8 syndrome ∧ aeth_msn ack = resp_msn (qp_resp q) mod 2 ^ 24;
  an_atmack : flag_set (opcode_mask op) RXE_ATMACK_MASK = true →
    atmack_orig ack = u64 (resp_atomic_orig (qp_resp q));
  an_link : bth_tver ack = bth_tver req ∧ bth_pkey ack = bth_pkey req ∧
    grh_view (pkt_hdr ack) = way_back (grh_view (pkt_hdr req)) (pkt_paylen ack)
}.

(** ** The transport headers *)

Section transport.
Context (op x : Z) (Hop : op ∈ answer_opcodes) (Hx : link_mask x).

(** The fields of the base transport header, in the order they are written. *)
Lemma ack_bth_spec h o qpn pad psn :
  0 ≤ o → o + 12 ≤ Z.of_nat (length h) → 0 ≤ pad < 4 →
  let h' := __bth_set_psn (__bth_set_se (__bth_set_pad (__bth_set_qpn (__bth_set_opcode h o op) o qpn) o pad)
              o 0) o psn in
  length h' = length h ∧ __bth_opcode h' o = op ∧ __bth_psn h' o = psn mod 2 ^ 24 ∧
  __bth_pad h' o = pad ∧ __bth_qpn h' o = qpn mod 2 ^ 24 ∧
  __bth_tver h' o = __bth_tver h o ∧ __bth_pkey h' o = __bth_pkey h o ∧
  ∀ p, 0 ≤ p < o → byte_at h' p = byte_at h p.
Proof using Hop.
  intros Ho Hl Hp h'. pose proof (answer_opcode_spec op Hop) as [].
  assert (L : ∀ h v, length (__bth_set_opcode h o v) = length h ∧ length (__bth_set_qpn h o v) = length h ∧
    length (__bth_set_pad h o v) = length h ∧ length (__bth_set_se h o v) = length h).
  { intros h1 v. unfold __bth_set_opcode, __bth_set_qpn, __bth_set_pad, __bth_set_se.
    repeat apply conj; repeat case_match; apply length_store_be. }
  assert (E : bth_view h' o = bth_view h o <| f_opcode := u8 op |> <| f_qpn := qpn mod 2 ^ 24 |>
    <| f_pad := pad mod 2 ^ 2 |> <| f_se := 0 |> <| f_psn := psn mod 2 ^ 24 |>).
  { unfold h'. destruct (L h op) as (L1 & _). set (h1 := __bth_set_opcode h o op) in *.
    destruct (L h1 qpn) as (_ & L2 & _). set (h2 := __bth_set_qpn h1 o qpn) in *.
    destruct (L h2 pad) as (_ & _ & L3 & _). set (h3 := __bth_set_pad h2 o pad) in *.
    destruct (L h3 0) as (_ & _ & _ & L4). set (h4 := __bth_set_se h3 o 0) in *.
    rewrite bth_view_set_psn by lia. unfold h4. rewrite bth_view_set_se by lia.
    unfold h3. rewrite bth_view_set_pad by lia. unfold h2. rewrite bth_view_set_qpn by lia.
    unfold h1. rewrite bth_view_set_opcode by lia. done. }
  assert (B : ∀ p, 0 ≤ p < o → byte_at h' p = byte_at h p).
  { intros p Hpp. unfold h', __bth_set_psn, __bth_set_se, __bth_set_pad, __bth_set_qpn, __bth_set_opcode, store_be32,
      store_u8. cbn. by rewrite !byte_at_store by lia. }
  split.
  { unfold h', __bth_set_psn, store_be32. rewrite length_store_be.
    by rewrite (proj2 (proj2 (proj2 (L _ _)))), (proj1 (proj2 (proj2 (L _ _)))),
      (proj1 (proj2 (L _ _))), (proj1 (L _ _)). }
  clearbody h'. pose proof (f_equal f_opcode E) as E1. pose proof (f_equal f_psn E) as E2.
  pose proof (f_equal f_pad E) as E3. pose proof (f_equal f_qpn E) as E4.
  pose proof (f_equal f_tver E) as E5. pose proof (f_equal f_pkey E) as E6. cbn in E1, E2, E3, E4, E5, E6.
  rewrite E1, E2, E3, E4. unfold u8. by rewrite (Z.mod_small op), (Z.mod_small pad) by lia.
Qed.

(** The extension headers of an answer lie behind the base transport header. *)
Lemma ack_aeth_spec ack syndrome msn :
  shaped op x ack →
  let ack' := if_hdr ack RXE_AETH_MASK (λ ack, aeth_set_msn (aeth_set_syn ack syndrome) msn) in
  above (pkt_offset ack + 12) ack ack' ∧
  (flag_set (opcode_mask op) RXE_AETH_MASK = true →
     aeth_syn ack' = u8 syndrome ∧ aeth_msn ack' = msn mod 2 ^ 24).
Proof using Hop Hx.
  intros [Hsop Hsm Hso Hsr]. pose proof (answer_opcode_spec op Hop) as [].
  cbn zeta. unfold if_hdr. rewrite Hsm, link_mask_flag by done.
  destruct (flag_set (opcode_mask op) RXE_AETH_MASK); [|split; [apply above_refl|done]].
  destruct ao_aeth0 as [Ho Hl]; [done|].
  unfold aeth_set_msn, aeth_set_syn, aeth_syn, aeth_msn. rewrite !ext_offset_upd.
  unfold ext_offset. rewrite Hsop, Ho.
  unfold __aeth_syn, __aeth_msn, __aeth_set_syn, __aeth_set_msn, u8, store_be32, load_be32.
  cbn [pkt_hdr upd_field pkt_opcode pkt_offset].
  split.
  - eapply above_trans; [apply above_store|apply above_store]; lia.
  - intros _. mem_simpl. change AETH_SYN_MASK with (fmask 8 24). change AETH_MSN_MASK with (fmask 24 0).
    split; zbits.
Qed.

Lemma ack_atmack_spec ack orig :
  shaped op x ack →
  let ack' := if_hdr ack RXE_ATMACK_MASK (λ ack, atmack_set_orig ack orig) in
  above (pkt_offset ack + 16) ack ack' ∧
  (flag_set (opcode_mask op) RXE_ATMACK_MASK = true → atmack_orig ack' = u64 orig).
Proof using Hop Hx.
  intros [Hsop Hsm Hso Hsr]. pose proof (answer_opcode_spec op Hop) as [].
  cbn zeta. unfold if_hdr. rewrite Hsm, link_mask_flag by done.
  destruct (flag_set (opcode_mask op) RXE_ATMACK_MASK); [|split; [apply above_refl|done]].
  destruct ao_atmack0 as [Ho Hl]; [done|].
  unfold atmack_set_orig, atmack_orig, __atmack_set_orig, __atmack_orig, store_be64, load_be64.
  rewrite !ext_offset_upd. unfold ext_offset. rewrite Hsop, Ho. cbn [pkt_hdr upd_field pkt_offset].
  split; [apply above_store; lia|]. intros _. by rewrite load_store_eq by lia.
Qed.

Lemma ack_bth_meta ack qpn pad psn :
  let o := pkt_offset ack in
  bth_set_psn (bth_set_se (bth_set_pad (bth_set_qpn (bth_set_opcode ack op) qpn) pad) 0) psn
    <| pkt_psn := psn |>
  = ack <| pkt_psn := psn |> <| pkt_hdr := __bth_set_psn (__bth_set_se (__bth_set_pad (__bth_set_qpn
      (__bth_set_opcode (pkt_hdr ack) o op) o qpn) o pad) o 0) o psn |>.
Proof using Type. by destruct ack. Qed.

Lemma ack_transport_spec q ack pad psn syndrome :
  shaped op x ack → 0 ≤ pad < 4 →
  let ack' := ack_transport ack q op pad psn syndrome in
  ack' = ack <| pkt_psn := psn |> <| pkt_hdr := pkt_hdr ack' |> ∧
  length (pkt_hdr ack') = length (pkt_hdr ack) ∧
  (bth_opcode ack' = op ∧ bth_psn ack' = psn mod 2 ^ 24 ∧ bth_pad ack' = pad ∧
   bth_qpn ack' = qa_dest_qp_num (qp_attr q) mod 2 ^ 24) ∧
  (flag_set (opcode_mask op) RXE_AETH_MASK = true →
     aeth_syn ack' = u8 syndrome ∧ aeth_msn ack' = resp_msn (qp_resp q) mod 2 ^ 24) ∧
  (flag_set (opcode_mask op) RXE_ATMACK_MASK = true →
     atmack_orig ack' = u64 (resp_atomic_orig (qp_resp q))) ∧
  bth_tver ack' = bth_tver ack ∧ bth_pkey ack' = bth_pkey ack ∧
  ∀ p, 0 ≤ p < pkt_offset ack → byte_at (pkt_hdr ack') p = byte_at (pkt_hdr ack) p.
Proof using Hop Hx.
  intros Hs Hp ack'. pose proof (answer_opcode_spec op Hop) as Hf. pose proof (sh_room _ _ _ Hs).
  pose proof (sh_offset _ _ _ Hs).
  unfold ack', ack_transport. rewrite ack_bth_meta.
  destruct (ack_bth_spec (pkt_hdr ack) (pkt_offset ack) (qa_dest_qp_num (qp_attr q)) pad psn)
    as (L1 & B1); [lia|destruct Hf; lia|done|].
  set (h1 := __bth_set_psn _ _ _) in *. clearbody h1. clear ack'.
  set (p1 := ack <| pkt_psn := psn |> <| pkt_hdr := h1 |>).
  assert (E1 : p1 = ack <| pkt_psn := psn |> <| pkt_hdr := pkt_hdr p1 |>) by done.
  change h1 with (pkt_hdr p1) in L1, B1. clearbody p1.
  assert (Hs1 : shaped op x p1) by (destruct Hs; rewrite E1; split; cbn; [done..|by rewrite L1]).
  destruct (ack_aeth_spec p1 syndrome (resp_msn (qp_resp q)) Hs1) as [Ha1 Hae]. cbn zeta in Ha1, Hae.
  set (p2 := if_hdr p1 RXE_AETH_MASK _) in *. clearbody p2. pose proof (shaped_above _ _ _ _ _ Hs1 Ha1) as Hs2.
  destruct (ack_atmack_spec p2 (resp_atomic_orig (qp_resp q)) Hs2) as [Ha2 Hat]. cbn zeta in Ha2, Hat.
  set (p3 := if_hdr p2 RXE_ATMACK_MASK _) in *. clearbody p3.
  pose proof (above_meta _ _ _ Ha1) as E2. pose proof (above_meta _ _ _ Ha2) as E3.
  assert (O1 : pkt_offset p1 = pkt_offset ack) by (by rewrite E1).
  assert (O2 : pkt_offset p2 = pkt_offset ack) by (by rewrite E2, E1).
  assert (O3 : pkt_offset p3 = pkt_offset ack) by (by rewrite E3, E2, E1).
  split; [by rewrite E3, E2, E1|].
  assert (E : bth_view (pkt_hdr p3) (pkt_offset ack) = bth_view (pkt_hdr p1) (pkt_offset ack)).
  { apply bth_view_frame. unfold RXE_BTH_BYTES. intros p Hpp.
    rewrite (above_byte _ _ _ Ha2), (above_byte _ _ _ Ha1) by lia. done. }
  destruct B1 as (B1 & B2 & B3 & B4 & B5 & B6 & B7).
  split; [by rewrite (above_length _ _ _ Ha2), (above_length _ _ _ Ha1)|]. split; [|split; [|split; [done|]]].
  - unfold bth_opcode, bth_psn, bth_pad, bth_qpn. rewrite O3. injection E as -> _ _ -> _ _ -> _ _ _ _ ->. done.
  - intros Hfl. destruct (Hae Hfl) as [<- <-]. destruct (ao_aeth _ Hf Hfl) as [Ho Hl].
    unfold aeth_syn, aeth_msn, __aeth_syn, __aeth_msn, load_be32, ext_offset.
    rewrite (sh_opcode _ _ _ Hs2), (sh_opcode _ _ _ (shaped_above _ _ _ _ _ Hs2 Ha2)), O2, O3, Ho.
    rewrite (load_be_frame 4 (pkt_hdr p3) (pkt_hdr p2)); [done|].
    intros p Hpp. apply (above_byte _ _ _ Ha2). lia.
  - unfold bth_tver, bth_pkey. rewrite O3, <- B5, <- B6. injection E as _ _ _ _ -> -> _ _ _ _ _ _.
    split; [done|]. split; [done|]. intros p Hpp. rewrite (above_byte _ _ _ Ha2), (above_byte _ _ _ Ha1) by lia.
    by apply B7.
Qed.
End transport.

(** ** Sending an answer *)

(** What no step of the responder changes. *)
Record unmoved (s s' : eng_state) : Prop := {
  um_alloc : es_alloc s' = es_alloc s;
  um_ports : rdev_ports (es_dev s') = rdev_ports (es_dev s);
  um_valid : qp_valid (es_qp s') = qp_valid (es_qp s);
  um_type : qp_qp_type (es_qp s') = qp_qp_type (es_qp s);
  um_attr : qp_attr (es_qp s') = qp_attr (es_qp s);
  um_mtu : qp_mtu_bytes (es_qp s') = qp_mtu_bytes (es_qp s);
  um_pd : qp_pd (es_qp s') = qp_pd (es_qp s);
  um_srq : qp_srq (es_qp s') = qp_srq (es_qp s);
  um_rcq : qp_rcq (es_qp s') = qp_rcq (es_qp s);
  um_av : qp_pri_av (es_qp s') = qp_pri_av (es_qp s);
  um_num : qp_qp_num (es_qp s') = qp_qp_num (es_qp s);
  um_send : es_send s' = es_send s;
  um_listed : listed s → listed s'
}.

Lemma unmoved_trans s1 s2 s3 : unmoved s1 s2 → unmoved s2 s3 → unmoved s1 s3.
Proof. intros [] []. split; [congruence..|auto]. Qed.

(** [s'] is [s] up to the packets waiting to be sent, the counters of outgoing
    packets, the arbiter and the events. *)
Record quiet (s s' : eng_state) : Prop := {
  qt_unmoved : unmoved s s';
  qt_mem : rdev_mem (es_dev s') = rdev_mem (es_dev s);
  qt_cqs : rdev_cqs (es_dev s') = rdev_cqs (es_dev s);
  qt_rq : qp_rq (es_qp s') = qp_rq (es_qp s);
  qt_ref : qp_ref (es_qp s') = qp_ref (es_qp s);
  qt_pkts : qp_req_pkts (es_qp s') = qp_req_pkts (es_qp s);
  qt_resp : qp_resp (es_qp s') = qp_resp (es_qp s)
}.

Lemma quiet_refl s : quiet s s.
Proof. done. Qed.

Lemma quiet_trans s1 s2 s3 : quiet s1 s2 → quiet s2 s3 → quiet s1 s3.
Proof. intros [U1] [U2]. split; [by eapply unmoved_trans|congruence..]. Qed.

(** The device has an address to send from; a request that can be answered. *)
Definition answerable (d : rxe_dev) (pkt : rxe_pkt_info) : Prop :=
  (∃ port guid, rdev_ports d !! 0%nat = Some port ∧ port_guid_tbl port !! 0%nat = Some guid) ∧
  pkt_offset pkt = RXE_GRH_BYTES ∧ RXE_GRH_BYTES + RXE_BTH_BYTES ≤ Z.of_nat (length (pkt_hdr pkt)).

Lemma ack_link_shape ack pkt paylen :
  let ack' := ack_link ack pkt paylen in
  ack' = ack <| pkt_hdr := pkt_hdr ack' |> ∧ length (pkt_hdr ack') = length (pkt_hdr ack).
Proof.
  unfold ack_link, if_hdr, grh_set_sgid, grh_set_dgid, grh_set_paylen, __grh_set_sgid, __grh_set_dgid,
    __grh_set_paylen, __lrh_set_slid, __lrh_set_dlid, store_be64, store_be16.
  cbn zeta. destruct (flag_set _ RXE_LRH_MASK); cbn [pkt_mask upd_field];
    destruct (flag_set _ RXE_GRH_MASK); cbn; rewrite ?length_store_be; (split; [|done]);
    by destruct ack.
Qed.

(** The route of an answer is that of the request, backwards. *)
Lemma ack_link_view ack pkt paylen :
  flag_set (pkt_mask ack) RXE_LRH_MASK = false → flag_set (pkt_mask ack) RXE_GRH_MASK = true →
  pkt_offset ack = RXE_GRH_BYTES → pkt_offset pkt = RXE_GRH_BYTES →
  RXE_GRH_BYTES ≤ Z.of_nat (length (pkt_hdr ack)) →
  (∀ p, 0 ≤ p < RXE_GRH_BYTES → byte_at (pkt_hdr ack) p = byte_at (pkt_hdr pkt) p) →
  let ack' := ack_link ack pkt paylen in
  grh_view (pkt_hdr ack') = way_back (grh_view (pkt_hdr pkt)) (u16 paylen) ∧
  ∀ p, RXE_GRH_BYTES ≤ p → byte_at (pkt_hdr ack') p = byte_at (pkt_hdr ack) p.
Proof.
  intros Hl Hg Ho Ho' Hr Hb ack'. unfold ack', ack_link, if_hdr. rewrite Hl. cbn iota. rewrite Hg.
  unfold grh_set_sgid, grh_set_dgid, grh_set_paylen, grh_sgid, grh_dgid, grh_offset.
  cbn [pkt_hdr pkt_offset upd_field]. rewrite Ho, Ho'. unfold RXE_GRH_BYTES in *. cbn [Z.add Z.sub].
  unfold __grh_set_sgid, __grh_set_dgid, __grh_set_paylen, __grh_sgid, __grh_dgid, store_be64, store_be16. split.
  - rewrite <- (grh_view_frame _ _ Hb). unfold way_back, grh_view, __grh_ipver, __grh_next_hdr, __grh_paylen.
    cbn [g_ipver g_next_hdr g_dgid_prefix g_dgid_guid g_sgid_prefix g_sgid_guid].
    assert (HF : ∀ o, 0 ≤ o ≤ 32 → load_be 8 (pkt_hdr pkt) o = load_be 8 (pkt_hdr ack) o).
    { intros o Hoo. apply load_be_frame. intros p Hp. symmetry. apply Hb. unfold RXE_GRH_BYTES. lia. }
    mem_simpl. rewrite load_store_top by (rewrite ?length_store_be; lia). cbn [Z.add]. by rewrite !HF by lia.
  - intros p Hp. by rewrite !byte_at_store by lia.
Qed.

(** Writing behind the headers of an answer leaves them alone. *)
Lemma answer_above q req op payload psn syndrome ack ack' :
  op ∈ answer_opcodes → answer q req op payload psn syndrome ack → above (payload_addr ack) ack ack' →
  answer q req op payload psn syndrome ack'.
Proof.
  intros Hop [Hc Hm Ho Hp Hpl Hlen Hb Hae Hat (Ht & Hk & Hg)] Ha. pose proof (answer_opcode_spec op Hop) as Hf.
  pose proof Ha as [E L B]. unfold payload_addr, ext_offset in B. rewrite Hc, (ao_payload _ Hf), Ho in B.
  assert (Hc' : pkt_opcode ack' = op) by (by rewrite E). assert (Ho' : pkt_offset ack' = RXE_GRH_BYTES) by (by rewrite E).
  assert (Hl : ∀ n o, 0 ≤ o → o + Z.of_nat n ≤ opcode_length op →
    load_be n (pkt_hdr ack') (RXE_GRH_BYTES + o) = load_be n (pkt_hdr ack) (RXE_GRH_BYTES + o)).
  { intros n o Hn0 Hn. apply load_be_frame. unfold RXE_GRH_BYTES. intros p Hpp. apply B. unfold RXE_GRH_BYTES. lia. }
  assert (Ev : bth_view (pkt_hdr ack') RXE_GRH_BYTES = bth_view (pkt_hdr ack) RXE_GRH_BYTES).
  { apply bth_view_frame. intros p Hpp. destruct Hf. unfold RXE_BTH_BYTES, RXE_GRH_BYTES in *. apply B. lia. }
  split; [done|destruct Hm as (x & ? & ?); exists x; by rewrite E|done|by rewrite E|by rewrite E
    |rewrite L, Hlen; by rewrite E| | | |].
  - unfold bth_opcode, bth_psn, bth_pad, bth_qpn in *. rewrite Ho'. rewrite Ho in Hb.
    injection Ev as -> _ _ -> _ _ -> _ _ _ _ ->. done.
  - intros Hfl. destruct (Hae Hfl) as [<- <-]. destruct (ao_aeth _ Hf Hfl) as [Hx Hy].
    unfold aeth_syn, aeth_msn, __aeth_syn, __aeth_msn, load_be32, ext_offset.
    rewrite Hc, Hc', Ho, Ho', Hx, Hl by lia. done.
  - intros Hfl. rewrite <- (Hat Hfl). destruct (ao_atmack _ Hf Hfl) as [Hx Hy].
    unfold atmack_orig, __atmack_orig, load_be64, ext_offset. rewrite Hc, Hc', Ho, Ho', Hx, Hl by lia. done.
  - rewrite <- Ht, <- Hk. unfold bth_tver, bth_pkey. rewrite Ho, Ho'. injection Ev as _ _ _ _ -> -> _ _ _ _ _ _.
    split; [done|]. split; [done|]. replace (pkt_paylen ack') with (pkt_paylen ack) by by rewrite E.
    rewrite <- Hg. apply grh_view_frame. unfold RXE_GRH_BYTES in *. intros p Hpp. destruct Hf. apply B. lia.
Qed.

Section send.
Context `{Params} (Hbypass : rxe_bypass_arbiter = false) (F : Prop).

Lemma wp_prepare_ack s pkt op payload psn syndrome Q :
  op ∈ answer_opcodes → 0 ≤ payload ≤ 2 ^ 13 → es_alloc s = [] → answerable (es_dev s) pkt →
  (∀ ack s', answer (es_qp s) pkt op payload psn syndrome ack → quiet s s' →
     qp_send_pkts (es_qp s') = qp_send_pkts (es_qp s) → Q (Some ack) s') →
  wp F (prepare_ack_packet pkt op payload psn syndrome) Q s.
Proof using Type.
  intros Hop Hpay Hal ((port & guid & Hport & Hguid) & Ho & Hl) HQ.
  pose proof (answer_opcode_spec op Hop) as Hf. pose proof (pad_range payload) as Hpad.
  unfold prepare_ack_packet, init_packet. wp_run. unfold next_alloc, wp at 1. rewrite Hal. cbv beta match.
  wp_run. rewrite Hport. wp_run. rewrite Hguid. wp_run.
  set (x := if guid =? _ then _ else _). assert (Hx : link_mask x) by (unfold x, link_mask; case_match; auto).
  cbn [pkt_hdr pkt_offset upd_field].
  set (paylen := opcode_length op + payload + pad_bytes payload + RXE_ICRC_SIZE).
  set (junk := map skb_junk _). assert (Hj : Z.of_nat (length junk) = RXE_GRH_BYTES + paylen).
  { unfold junk. rewrite length_map, length_seqZ. destruct Hf. unfold paylen, RXE_ICRC_SIZE, RXE_GRH_BYTES. lia. }
  rewrite Ho. destruct (Z.gtb_spec (RXE_GRH_BYTES + RXE_BTH_BYTES) (Z.of_nat (length junk))).
  { exfalso. destruct Hf. unfold paylen, RXE_ICRC_SIZE, RXE_BTH_BYTES in *. lia. }
  unfold pkt_read. rewrite Z.add_0_l.
  destruct (Z.gtb_spec (RXE_GRH_BYTES + RXE_BTH_BYTES) (Z.of_nat (length (pkt_hdr pkt)))); [lia|]. wp_run.
  set (ack0 := (_ <| pkt_hdr ::= _ |> : rxe_pkt_info)).
  assert (L0 : length (pkt_hdr ack0) = length junk) by apply length_put.
  assert (B0 : ∀ p, 0 ≤ p < RXE_GRH_BYTES + RXE_BTH_BYTES → byte_at (pkt_hdr ack0) p = byte_at (pkt_hdr pkt) p).
  { intros p Hp. unfold ack0. cbn [pkt_hdr upd_field]. apply byte_at_copy; lia. }
  assert (Hu : u16 paylen = paylen).
  { unfold u16. rewrite Z.mod_small; [done|]. unfold paylen, RXE_ICRC_SIZE. destruct Hf. lia. }
  destruct (ack_link_shape ack0 pkt paylen) as [E1 L1].
  destruct (ack_link_view ack0 pkt paylen) as [V1 B1];
    [unfold ack0; cbn [pkt_mask upd_field]; rewrite link_mask_flag by done; apply Hf
    |unfold ack0; cbn [pkt_mask upd_field]; rewrite flag_set_lor; by destruct Hx as [-> | ->]|done|done
    |rewrite L0, Hj; destruct Hf; unfold paylen, RXE_ICRC_SIZE; lia
    |intros p Hp; apply B0; unfold RXE_BTH_BYTES; lia|].
  set (ack1 := ack_link ack0 pkt paylen) in *.
  assert (Hs : shaped op x ack1).
  { rewrite E1. split; cbn [pkt_opcode pkt_mask pkt_offset pkt_hdr upd_field]; [done..|rewrite L1, L0, Hj].
    destruct Hf. unfold paylen, RXE_ICRC_SIZE, ack0. cbn [pkt_offset upd_field]. lia. }
  destruct (ack_transport_spec op x Hop Hx (es_qp s) ack1 (pad_bytes payload) psn syndrome Hs Hpad)
    as (E2 & L2 & Hb & Hae & Hat & Ht & Hk & B2).
  set (ack2 := ack_transport ack1 (es_qp s) op (pad_bytes payload) psn syndrome) in *. clearbody ack2.
  assert (Epl : pkt_paylen ack2 = paylen) by (rewrite E2, E1; exact Hu).
  assert (O1 : pkt_offset ack1 = RXE_GRH_BYTES) by (by rewrite E1).
  apply HQ; [split|..]; [by rewrite E2, E1|exists x; split; [done|by rewrite E2, E1]|by rewrite E2, E1
    |by rewrite E2|by rewrite Epl|by rewrite L2, L1, L0, Hj, Epl|done|done|done| |split; done|done].
  assert (Ev : bth_view (pkt_hdr ack1) RXE_GRH_BYTES = bth_view (pkt_hdr pkt) RXE_GRH_BYTES).
  { apply bth_view_frame. intros p Hp. rewrite B1 by (unfold RXE_GRH_BYTES in *; lia). apply B0.
    unfold RXE_GRH_BYTES, RXE_BTH_BYTES in *. lia. }
  rewrite Ht, Hk. unfold bth_tver, bth_pkey. rewrite O1, Ho. injection Ev as _ _ _ _ -> -> _ _ _ _ _ _.
  split; [done|]. split; [done|]. rewrite Epl, <- Hu, <- V1. apply grh_view_frame. rewrite <- O1. exact B2.
Qed.

Lemma wp_send_answer s pkt Q :
  (∀ s', quiet s s' → qp_send_pkts (es_qp s') = qp_send_pkts (es_qp s) ++ [pkt] → Q tt s') →
  wp F (send_packet pkt) Q s.
Proof using Hbypass.
  intros HQ. unfold send_packet. rewrite Hbypass. apply wp_skb_queue. intros l on ev s' -> Hl. by apply HQ.
Qed.

Lemma ack_crc_answer q req op payload psn syndrome ack :
  op ∈ answer_opcodes → answer q req op payload psn syndrome ack → answer q req op payload psn syndrome (ack_crc ack).
Proof using Type.
  intros Hop Ha. eapply answer_above; [done|done|]. unfold ack_crc. destruct rxe_crc_disable; [apply above_refl|].
  apply above_put. split; [|lia]. unfold payload_addr, ext_offset.
  rewrite (an_opcode _ _ _ _ _ _ _ Ha), (an_offset _ _ _ _ _ _ _ Ha). pose proof (answer_opcode_spec op Hop) as Hf.
  rewrite (ao_payload _ Hf). destruct Hf. unfold RXE_GRH_BYTES. lia.
Qed.

(** An acknowledgement is made and queued. *)
Lemma wp_send_ack s pkt syndrome psn Q :
  es_alloc s = [] → answerable (es_dev s) pkt → 0 ≤ syndrome < 2 ^ 8 →
  (∀ ack s', answer (es_qp s) pkt IB_OPCODE_RC_ACKNOWLEDGE 0 psn syndrome ack → quiet s s' →
     qp_send_pkts (es_qp s') = qp_send_pkts (es_qp s) ++ [ack] → Q (Ok tt) s') →
  wp F (send_ack pkt syndrome psn) Q s.
Proof using Hbypass.
  intros Hal Han Hsyn HQ. unfold send_ack. wp_run. unfold u8. rewrite (Z.mod_small syndrome) by lia.
  apply wp_prepare_ack; [apply elem_of_cons; by left|lia|done|done|].
  intros ack s1 Ha Hq1 Hs1. wp_run. apply wp_send_answer. intros s2 Hq2 Hs2. wp_run.
  eapply HQ; [apply ack_crc_answer; [apply elem_of_cons; by left|exact Ha]|by eapply quiet_trans|by rewrite Hs2, Hs1].
Qed.
End send.
