(* ===== verification/RespSteps.v ===== *)
(** * The steps of the responder on a reliable connection

    The checks a request that arrives in order passes, the lookup of its
    region, and the removal of the packet: rules for the loop of
    [rxe_responder], used for every kind of request. *)

From stdpp Require Import gmap.
From S2P Require Import Prelude Bits Queue Opcode Hdr Verbs Icrc Mr Sge Cq State Comp Arbiter Req ReqPacket.
From S2P Require Import Resp Ack.

(** A state with the responder's information and the device's memory replaced. *)
Definition with_rm (s : eng_state) (r : rxe_resp_info) (m : mem_dev) : eng_state :=
  Es (es_dev s <| rdev_mem := m |>) (es_qp s <| qp_resp := r |>) (es_alloc s) (es_send s)
    (es_jiffies s) (es_ev s).

Lemma with_rm_id s : with_rm s (qp_resp (es_qp s)) (rdev_mem (es_dev s)) = s.
Proof. destruct s as [[] [] ???]. done. Qed.

Lemma with_rm_resp s r m f :
  with_rm s r m <| es_qp ::= λ q, q <| qp_resp ::= f |> |> = with_rm s (f r) m.
Proof. done. Qed.

Lemma with_rm_mem s r m f :
  with_rm s r m <| es_dev ::= λ d, d <| rdev_mem ::= f |> |> = with_rm s r (f m).
Proof. done. Qed.

Lemma with_rm_rm s r m r' m' : with_rm (with_rm s r m) r' m' = with_rm s r' m'.
Proof. done. Qed.

(** An update of the responder's information alone. *)
Lemma upd_resp_rm s f :
  s <| es_qp ::= λ q, q <| qp_resp ::= f |> |> = with_rm s (f (qp_resp (es_qp s))) (rdev_mem (es_dev s)).
Proof. destruct s as [[] [] ???]. done. Qed.

Section steps.
Context `{Params} (F : Prop) (qe : eng unit).

(** One iteration. *)
Lemma wp_resp_step fuel st pkt Q s :
  wp F (resp_step qe st pkt) (λ n s', match n with
    | RespGoto st pkt => wp F (resp_loop qe fuel st pkt) Q s'
    | RespExit => Q (Err EAGAIN) s'
    | RespDone => Q (Ok tt) s'
    end) s →
  wp F (resp_loop qe (S fuel) st pkt) Q s.
Proof using Type.
  intros Hs. cbn [resp_loop]. apply wp_bind. eapply wp_mono; [exact Hs|].
  intros [st' pkt'| |] s' Hn; exact Hn.
Qed.

(** The next request of a reliable connection: it has the sequence number and
    an opcode the responder expects. *)
Record in_order (s : eng_state) (pkt : rxe_pkt_info) : Prop := {
  io_valid : qp_valid (es_qp s) = true;
  io_type : qp_qp_type (es_qp s) = IB_QPT_RC;
  io_state : resp_state (qp_resp (es_qp s)) = QP_STATE_READY;
  io_res : resp_cur_res (qp_resp (es_qp s)) = None;
  io_head : head (qp_req_pkts (es_qp s)) = Some pkt;
  io_psn : pkt_psn pkt = resp_psn (qp_resp (es_qp s));
  io_seq : check_op_seq_rc (resp_opcode (qp_resp (es_qp s))) (pkt_opcode pkt) = RESPST_CHK_OP_VALID
}.

Lemma psn_compare_same a : psn_compare a a = 0.
Proof. unfold psn_compare. by rewrite Z.sub_diag. Qed.

(** The states up to the check of the opcode sequence. *)
Lemma wp_in_order_seq fuel pkt Q s :
  in_order s pkt →
  wp F (resp_loop qe fuel RESPST_CHK_OP_VALID (Some pkt)) Q
    (with_rm s (qp_resp (es_qp s) <| resp_sent_psn_nak := false |>) (rdev_mem (es_dev s))) →
  wp F (resp_loop qe (3 + fuel) RESPST_GET_REQ None) Q s.
Proof using Type.
  intros [Hv Hty Hst Hres Hhd Hpsn Hseq] HQ.
  apply wp_resp_step. cbn [resp_step]. unfold get_req. wp_run. rewrite Hst, bool_decide_eq_false_2 by done.
  destruct (qp_req_pkts (es_qp s)) as [|p l]; [done|]. injection Hhd as ->. rewrite Hres. wp_run.
  apply wp_resp_step. cbn [resp_step]. wp_run. unfold check_psn, qp_type. wp_run.
  rewrite Hty, Hpsn, psn_compare_same. change (IB_QPT_RC =? IB_QPT_RC) with true. cbv iota beta.
  cbn [Z.gtb Z.ltb Z.compare]. wp_run.
  set (s1 := with_rm _ _ _) in *.
  assert (HQ' : wp F (resp_loop qe (1 + fuel) RESPST_CHK_OP_SEQ (Some pkt)) Q s1).
  { apply wp_resp_step. cbn [resp_step]. wp_run. unfold check_op_seq, qp_type. wp_run.
    change (qp_qp_type (es_qp s1)) with (qp_qp_type (es_qp s)). rewrite Hty.
    change (IB_QPT_RC =? IB_QPT_RC) with true. cbv iota beta. wp_run.
    change (resp_opcode (qp_resp (es_qp s1))) with (resp_opcode (qp_resp (es_qp s))). by rewrite Hseq. }
  apply wp_when; intros Hn; wp_run; [rewrite upd_resp_rm; exact HQ'|].
  replace s with s1; [exact HQ'|]. transitivity (with_rm s (qp_resp (es_qp s)) (rdev_mem (es_dev s)));
    [unfold s1; f_equal|apply with_rm_id].
  destruct (qp_resp (es_qp s)). cbn in Hn. by subst.
Qed.

(** The opcode is one of the table, and the queue pair permits it. *)
Definition op_permitted (q : rxe_qp) (pkt : rxe_pkt_info) : bool :=
  let allows m a := negb (flag_set (pkt_mask pkt) m) || flag_set (qa_qp_access_flags (qp_attr q)) a in
  negb (pkt_mask pkt =? 0) && allows RXE_READ_MASK IB_ACCESS_REMOTE_READ
  && allows RXE_WRITE_MASK IB_ACCESS_REMOTE_WRITE && allows RXE_ATOMIC_MASK IB_ACCESS_REMOTE_ATOMIC.

Lemma wp_op_valid fuel pkt Q s :
  qp_qp_type (es_qp s) = IB_QPT_RC → op_permitted (es_qp s) pkt = true →
  wp F (resp_loop qe fuel RESPST_CHK_RESOURCE (Some pkt)) Q s →
  wp F (resp_loop qe (S fuel) RESPST_CHK_OP_VALID (Some pkt)) Q s.
Proof using Type.
  intros Hty Hp HQ. apply wp_resp_step. cbn [resp_step]. wp_run. unfold check_op_valid, qp_type. wp_run.
  rewrite Hty. change (IB_QPT_RC =? IB_QPT_RC) with true. cbv iota beta.
  unfold op_permitted in Hp. rewrite !andb_true_iff, negb_true_iff in Hp. destruct Hp as [[[H0 H1] H2] H3].
  rewrite H0. destruct (flag_set (pkt_mask pkt) RXE_READ_MASK), (flag_set (pkt_mask pkt) RXE_WRITE_MASK),
    (flag_set (pkt_mask pkt) RXE_ATOMIC_MASK); cbn [negb orb] in H1, H2, H3; rewrite ?H1, ?H2, ?H3; cbn;
    wp_run; exact HQ.
Qed.

(** What the request needs is there: the responder's information with the
    receive element it uses. *)
Definition resourced (s : eng_state) (pkt : rxe_pkt_info) (r : rxe_resp_info) : Prop :=
  if flag_set (pkt_mask pkt) RXE_READ_OR_ATOMIC then
    0 < qa_max_rd_atomic (qp_attr (es_qp s)) ∧ r = qp_resp (es_qp s)
  else if flag_set (pkt_mask pkt) RXE_RWR_MASK then
    qp_srq (es_qp s) = None ∧ ∃ rq a, qp_rq (es_qp s) = Some rq ∧ queue_head rq = Some a ∧
      r = qp_resp (es_qp s) <| resp_wqe := Some (rwqe_rq a) |>
  else r = qp_resp (es_qp s).

Lemma wp_resource fuel pkt Q s r :
  resp_state (qp_resp (es_qp s)) = QP_STATE_READY → resourced s pkt r →
  wp F (resp_loop qe fuel RESPST_CHK_RKEY (Some pkt)) Q (with_rm s r (rdev_mem (es_dev s))) →
  wp F (resp_loop qe (2 + fuel) RESPST_CHK_RESOURCE (Some pkt)) Q s.
Proof using Type.
  intros Hst Hr HQ.
  assert (HL : wp F (resp_loop qe (1 + fuel) RESPST_CHK_LENGTH (Some pkt)) Q (with_rm s r (rdev_mem (es_dev s)))).
  { apply wp_resp_step. cbn [resp_step]. wp_run. unfold check_length. by wp_run. }
  apply wp_resp_step. cbn [resp_step]. wp_run. unfold check_resource. wp_run.
  rewrite Hst, bool_decide_eq_false_2 by done. wp_run. unfold resourced in Hr.
  destruct (flag_set (pkt_mask pkt) RXE_READ_OR_ATOMIC).
  { destruct Hr as [Hm ->]. rewrite with_rm_id in HL. wp_run. destruct (Z.gtb_spec (qa_max_rd_atomic (qp_attr (es_qp s))) 0); [done|lia]. }
  destruct (flag_set (pkt_mask pkt) RXE_RWR_MASK).
  - destruct Hr as (-> & rq & a & Hrq & Ha & ->). unfold head_rq. wp_run. rewrite Hrq. wp_run.
    rewrite Ha, bool_decide_eq_true_2 by by eexists. by rewrite upd_resp_rm.
  - rewrite Hr, with_rm_id in HL. by wp_run.
Qed.

(** The range a request names in its own headers. *)
Definition addressed (pkt : rxe_pkt_info) (r : rxe_resp_info) : rxe_resp_info :=
  if flag_set (pkt_mask pkt) (RXE_READ_MASK .| RXE_WRITE_MASK) then
    if flag_set (pkt_mask pkt) RXE_RETH_MASK then
      r <| resp_va := reth_va pkt |> <| resp_rkey := reth_rkey pkt |> <| resp_resid := reth_len pkt |>
    else r
  else r <| resp_va := atmeth_va pkt |> <| resp_rkey := atmeth_rkey pkt |> <| resp_resid := 8 |>.

Lemma addressed_fields pkt r :
  let r' := addressed pkt r in
  resp_state r' = resp_state r ∧ resp_goto_error r' = resp_goto_error r ∧
  resp_cur_res r' = resp_cur_res r ∧ resp_aeth_syndrome r' = resp_aeth_syndrome r ∧
  resp_wqe r' = resp_wqe r ∧ resp_mr r' = resp_mr r ∧ resp_psn r' = resp_psn r.
Proof using Type. unfold addressed. by repeat case_match. Qed.

(** The access to the region a request needs. *)
Definition pkt_access (pkt : rxe_pkt_info) : Z :=
  if flag_set (pkt_mask pkt) (RXE_READ_MASK .| RXE_WRITE_MASK) then
    if flag_set (pkt_mask pkt) RXE_READ_MASK then IB_ACCESS_REMOTE_READ else IB_ACCESS_REMOTE_WRITE
  else IB_ACCESS_REMOTE_ATOMIC.

Lemma wp_rkey fuel pkt Q s md h mem :
  flag_set (pkt_mask pkt) (RXE_READ_MASK .| RXE_WRITE_MASK) || flag_set (pkt_mask pkt) RXE_ATOMIC_MASK = true →
  let r := addressed pkt (qp_resp (es_qp s)) in
  lookup_mem (rdev_mem (es_dev s)) (qp_pd (es_qp s)) (pkt_access pkt) (resp_rkey r) lookup_remote
    = (md, Some (h, mem)) →
  mem_check_range mem (resp_va r) (resp_resid r) = Ok tt →
  (flag_set (pkt_mask pkt) RXE_WRITE_MASK = true →
     write_length_ok pkt (resp_resid r) (qp_mtu_bytes (es_qp s)) = true) →
  wp F (resp_loop qe fuel RESPST_EXECUTE (Some pkt)) Q (with_rm s (r <| resp_mr := Some h |>) md) →
  wp F (resp_loop qe (S fuel) RESPST_CHK_RKEY (Some pkt)) Q s.
Proof using Type.
  intros Hn r Hl Hc Hw HQ. apply wp_resp_step. cbn [resp_step]. wp_run.
  assert (Hm : wp F (check_rkey_mem pkt (pkt_access pkt)) (λ st s',
    wp F (resp_loop qe fuel st (Some pkt)) Q s') (with_rm s r (rdev_mem (es_dev s)))).
  { unfold check_rkey_mem. wp_run. cbn [es_qp es_dev with_rm qp_resp qp_pd qp_mtu_bytes rdev_mem upd_field].
    rewrite Hl. wp_run. rewrite Hc. replace (flag_set _ _ && negb _) with false.
    { wp_run. by rewrite with_rm_mem, with_rm_resp. }
    destruct (flag_set (pkt_mask pkt) RXE_WRITE_MASK); [by rewrite Hw|done]. }
  unfold check_rkey. unfold r, addressed, pkt_access in Hm.
  destruct (flag_set (pkt_mask pkt) (RXE_READ_MASK .| RXE_WRITE_MASK)).
  - wp_run. apply wp_when; intros Hre; rewrite Hre in Hm; wp_run.
    + rewrite upd_resp_rm. eapply wp_mono; [exact Hm|]. intros. by wp_run.
    + rewrite with_rm_id in Hm. eapply wp_mono; [exact Hm|]. intros. by wp_run.
  - cbn [orb] in Hn. rewrite Hn. wp_run. rewrite upd_resp_rm. eapply wp_mono; [exact Hm|]. intros. by wp_run.
Qed.

Lemma wp_rkey_none fuel pkt Q s :
  flag_set (pkt_mask pkt) (RXE_READ_MASK .| RXE_WRITE_MASK) = false →
  flag_set (pkt_mask pkt) RXE_ATOMIC_MASK = false →
  wp F (resp_loop qe fuel RESPST_EXECUTE (Some pkt)) Q s →
  wp F (resp_loop qe (S fuel) RESPST_CHK_RKEY (Some pkt)) Q s.
Proof using Type.
  intros H1 H2 HQ. apply wp_resp_step. cbn [resp_step]. wp_run. unfold check_rkey. rewrite H1, H2. by wp_run.
Qed.

(** The responder's information after a request was executed. *)
Definition executed (pkt : rxe_pkt_info) (r : rxe_resp_info) : rxe_resp_info :=
  r <| resp_msn ::= (λ n, u32 (n + 1)) |> <| resp_psn := u32 (pkt_psn pkt + 1) .& BTH_PSN_MASK |>
    <| resp_opcode := pkt_opcode pkt |> <| resp_status := IB_WC_SUCCESS |>.

Lemma wp_execute fuel pkt Q s :
  wp F (execute_op pkt) (λ st s', st = RESPST_NONE ∧ qp_qp_type (es_qp s') = IB_QPT_RC ∧
    wp F (resp_loop qe fuel (if flag_set (pkt_mask pkt) RXE_COMP_MASK then RESPST_COMPLETE
                             else RESPST_ACKNOWLEDGE) (Some pkt)) Q
      (with_rm s' (executed pkt (qp_resp (es_qp s'))) (rdev_mem (es_dev s')))) s →
  wp F (resp_loop qe (S fuel) RESPST_EXECUTE (Some pkt)) Q s.
Proof using Type.
  intros Hx. apply wp_resp_step. cbn [resp_step]. wp_run. unfold execute. wp_run.
  eapply wp_mono; [exact Hx|]. intros st s' (-> & Hty & HQ). rewrite bool_decide_eq_true_2 by done. cbn [negb].
  wp_run. unfold qp_type. cbn [es_qp qp_qp_type upd_field]. rewrite Hty, Z.eqb_refl.
  rewrite upd_resp_rm. destruct (flag_set (pkt_mask pkt) RXE_COMP_MASK); exact HQ.
Qed.

(** The packet is removed and the region is released. *)
Record retired (s s' : eng_state) : Prop := {
  rt_unmoved : unmoved s s';
  rt_mem : rdev_mem (es_dev s') = match resp_mr (qp_resp (es_qp s)) with
    | Some h => mem_drop_ref (rdev_mem (es_dev s)) h | None => rdev_mem (es_dev s) end;
  rt_cqs : rdev_cqs (es_dev s') = rdev_cqs (es_dev s);
  rt_rq : qp_rq (es_qp s') = qp_rq (es_qp s);
  rt_ref : qp_ref (es_qp s') = qp_ref (es_qp s) - 1;
  rt_pkts : qp_req_pkts (es_qp s') = tail (qp_req_pkts (es_qp s));
  rt_resp : qp_resp (es_qp s') = qp_resp (es_qp s) <| resp_mr := None |>;
  rt_send : qp_send_pkts (es_qp s') = qp_send_pkts (es_qp s)
}.

Lemma wp_cleanup fuel pkt Q s :
  qp_req_pkts (es_qp s) ≠ [] → resp_goto_error (qp_resp (es_qp s)) = false →
  (∀ s', retired s s' → Q (Ok tt) s') →
  wp F (resp_loop qe (2 + fuel) RESPST_CLEANUP (Some pkt)) Q s.
Proof using Type.
  intros Hp He HQ. apply wp_resp_step. cbn [resp_step]. wp_run. unfold cleanup, dequeue_req_pkt. wp_run.
  destruct (qp_req_pkts (es_qp s)) as [|p l] eqn:El; [done|]. wp_run.
  unfold free_req_pkt, qp_drop_ref, drop_resp_mr. wp_run. cbn [es_qp qp_resp upd_field].
  destruct (resp_mr (qp_resp (es_qp s))) as [h|] eqn:Em; unfold mem_unref; wp_run;
    apply wp_resp_step; cbn [resp_step]; wp_run; cbn [es_qp qp_resp upd_field resp_goto_error]; rewrite He; wp_run;
    apply HQ; split; cbn; rewrite ?El, ?Em; try done.
  destruct (qp_resp (es_qp s)); cbn in *; by subst.
Qed.

(** The acknowledgement a request asks for. *)
Definition acks_for (q : rxe_qp) (pkt : rxe_pkt_info) (acks : list rxe_pkt_info) : Prop :=
  if bth_ack pkt =? 0 then acks = []
  else ∃ ack, acks = [ack] ∧ answer q pkt IB_OPCODE_RC_ACKNOWLEDGE 0 (pkt_psn pkt) AETH_ACK_UNLIMITED ack.

Lemma wp_acknowledge (Hbypass : rxe_bypass_arbiter = false) fuel pkt Q s :
  qp_qp_type (es_qp s) = IB_QPT_RC → resp_aeth_syndrome (qp_resp (es_qp s)) = AETH_ACK_UNLIMITED →
  flag_set (pkt_mask pkt) RXE_ATOMIC_MASK = false → es_alloc s = [] → answerable (es_dev s) pkt →
  (∀ acks s', acks_for (es_qp s) pkt acks → quiet s s' →
     qp_send_pkts (es_qp s') = qp_send_pkts (es_qp s) ++ acks →
     wp F (resp_loop qe fuel RESPST_CLEANUP (Some pkt)) Q s') →
  wp F (resp_loop qe (S fuel) RESPST_ACKNOWLEDGE (Some pkt)) Q s.
Proof using Type.
  intros Hty Hsy Hat Hal Han HQ. apply wp_resp_step. cbn [resp_step]. wp_run.
  unfold acknowledge, qp_type. wp_run. rewrite Hty, Hsy, Hat, !Z.eqb_refl. cbn [negb]. wp_run.
  unfold acks_for in HQ. destruct (bth_ack pkt =? 0); cbn [negb]; wp_run.
  - apply (HQ []); [done|apply quiet_refl|by rewrite app_nil_r].
  - unfold when. cbv iota. wp_run. apply wp_send_ack; [done..|]. intros ack s' Ha Hq Hs. wp_run. apply (HQ [ack]); [by exists ack|done..].
Qed.
End steps.

(** The checks up to the remote key. *)
Lemma wp_front `{Params} F depth cfuel fuel pkt Q s r :
  in_order s pkt → op_permitted (es_qp s) pkt = true →
  resourced (with_rm s (qp_resp (es_qp s) <| resp_aeth_syndrome := AETH_ACK_UNLIMITED |>
                                          <| resp_sent_psn_nak := false |>) (rdev_mem (es_dev s))) pkt r →
  (∀ qe, wp F (resp_loop qe fuel RESPST_CHK_RKEY (Some pkt)) Q (with_rm s r (rdev_mem (es_dev s)))) →
  wp F (rxe_responder depth cfuel (6 + fuel)) Q s.
Proof.
  intros Hio Hop Hr HQ. unfold rxe_responder. wp_run. rewrite upd_resp_rm.
  cbn [es_qp with_rm qp_valid qp_resp upd_field resp_state]. rewrite (io_valid _ _ Hio). cbn [negb].
  rewrite (io_state _ _ Hio), bool_decide_eq_false_2 by done. specialize (HQ (rxe_qp_error
    (__rxe_do_task (rxe_completer depth cfuel) cfuel))). set (qe' := rxe_qp_error _) in *. clearbody qe'.
  apply (wp_in_order_seq _ _ (3 + fuel) pkt); [by destruct Hio; split|].
  apply (wp_op_valid _ _ (2 + fuel)); [apply Hio|exact Hop|].
  eapply wp_resource; [apply Hio|exact Hr|exact HQ].
Qed.

(** A responder with nothing to do stops. *)
Lemma wp_responder_idle `{Params} F depth cfuel fuel s Q :
  qp_valid (es_qp s) = true → resp_state (qp_resp (es_qp s)) = QP_STATE_READY →
  qp_req_pkts (es_qp s) = [] → resp_goto_error (qp_resp (es_qp s)) = false →
  Q (Err EAGAIN) (with_rm s (qp_resp (es_qp s) <| resp_aeth_syndrome := AETH_ACK_UNLIMITED |>)
                    (rdev_mem (es_dev s))) →
  wp F (rxe_responder depth cfuel (2 + fuel)) Q s.
Proof.
  intros Hv Hs Hp He HQ. unfold rxe_responder. wp_run. rewrite upd_resp_rm.
  cbn [es_qp with_rm qp_valid qp_resp upd_field resp_state]. rewrite Hv, Hs. cbn [negb].
  rewrite bool_decide_eq_false_2 by done. apply wp_resp_step. cbn [resp_step]. unfold get_req. wp_run.
  cbn [es_qp with_rm qp_resp qp_req_pkts upd_field resp_state]. rewrite Hs, Hp, bool_decide_eq_false_2 by done.
  wp_run. apply wp_resp_step. cbn [resp_step]. wp_run.
  cbn [es_qp with_rm qp_resp upd_field resp_goto_error]. rewrite He. wp_run. exact HQ.
Qed.

(** A task that does [n] rounds of work and then stops. *)
Lemma wp_do_task (func : eng (result unit)) (I : nat → eng_state → Prop) (n i : nat) Q s :
  (∀ j s, (j < n)%nat → I j s → wp False func (λ r s', r = Ok tt ∧ I (S j) s') s) →
  (∀ s, I n s → wp False func (λ r s', (∃ e, r = Err e) ∧ Q tt s') s) →
  (i ≤ n)%nat → I i s → wp False (__rxe_do_task func (S (n - i))) Q s.
Proof.
  intros Hw He Hi HI. remember (n - i)%nat as k eqn:Hk. revert i s Hi HI Hk.
  induction k as [|k IH]; intros i s Hi HI Hk; cbn [__rxe_do_task]; wp_run.
  - replace i with n in HI by lia. eapply wp_mono; [by apply He|]. intros r s' [[e ->] HQ]. by wp_run.
  - eapply wp_mono; [apply (Hw i); [lia|done]|]. intros r s' [-> HI']. apply (IH (S i)); [lia|done|lia].
Qed.
