(* ===== verification/Deliver.v ===== *)
(** * Messages at the responder (rxe_resp.c)

    What the packets of a message that arrive in order have in common, whether
    they are those of an RDMA write or of a send: each is executed, answered if
    it asks for it, and freed, and the responder expects the next one. *)

From stdpp Require Import gmap.
From S2P Require Import Prelude Bits Queue Opcode Hdr Verbs Icrc Mr Sge Cq State Comp Arbiter Req ReqPacket.
From S2P Require Import Message Resp Ack RespSteps.

(** A request packet as the receiver has it. *)
Record incoming (op psn : Z) (payload : list Z) (pkt : rxe_pkt_info) : Prop := {
  ic_opcode : pkt_opcode pkt = op;
  ic_mask : ∃ x, link_mask x ∧ pkt_mask pkt = x .| opcode_mask op;
  ic_psn : pkt_psn pkt = psn;
  ic_offset : pkt_offset pkt = RXE_GRH_BYTES;
  ic_size : payload_size pkt = Z.of_nat (length payload);
  ic_pad : bth_pad pkt = pad_bytes (Z.of_nat (length payload));
  ic_room : payload_addr pkt + payload_size pkt ≤ Z.of_nat (length (pkt_hdr pkt));
  ic_bytes : pkt_bytes pkt (payload_addr pkt) (payload_size pkt) = payload
}.

Lemma incoming_flag op psn payload pkt m :
  incoming op psn payload pkt → (RXE_GRH_MASK .| RXE_LOOPBACK_MASK) .& m = 0 →
  flag_set (pkt_mask pkt) m = flag_set (opcode_mask op) m.
Proof. intros [_ (x & Hx & ->)] Hm. by apply link_mask_flag. Qed.

Lemma incoming_read op psn payload pkt F Q s :
  incoming op psn payload pkt → Q payload s →
  wp F (pkt_read pkt (payload_addr pkt) (payload_size pkt)) Q s.
Proof.
  intros Hi HQ. unfold pkt_read. pose proof (ic_room _ _ _ _ Hi).
  destruct (Z.gtb_spec (payload_addr pkt + payload_size pkt) (Z.of_nat (length (pkt_hdr pkt)))); [lia|].
  wp_run. by rewrite (ic_bytes _ _ _ _ Hi).
Qed.

Lemma incoming_answerable op psn payload pkt d :
  op ∈ rc_message_opcodes → incoming op psn payload pkt →
  (∃ port guid, rdev_ports d !! 0%nat = Some port ∧ port_guid_tbl port !! 0%nat = Some guid) →
  answerable d pkt.
Proof.
  intros Hop Hi Hd. pose proof (message_opcode_spec op Hop) as Hf. destruct Hi. split; [done|].
  split; [done|]. unfold payload_addr, ext_offset in ic_room0. rewrite ic_opcode0, (mo_payload _ Hf) in ic_room0.
  destruct Hf. unfold RXE_BTH_BYTES. lia.
Qed.

Lemma pad_bytes_mod n : pad_bytes n = (- n) mod 4.
Proof. unfold pad_bytes. change 0x3 with (2 ^ 2 - 1). by rewrite land_mask by lia. Qed.

(** ** One packet *)

(** The packet is executed but not yet answered: its payload is at [addrs]. *)
Record staged (addrs payload : list Z) (pkt : rxe_pkt_info) (s0 s : eng_state) : Prop := {
  sg_unmoved : unmoved s0 s;
  sg_mem : match resp_mr (qp_resp (es_qp s)) with
           | Some h => mem_drop_ref (rdev_mem (es_dev s)) h | None => rdev_mem (es_dev s) end
    = with_phys (rdev_mem (es_dev s0))
        (mwrite (dev_phys (rdev_mem (es_dev s0))) (take (length payload) addrs) payload);
  sg_ref : qp_ref (es_qp s) = qp_ref (es_qp s0);
  sg_pkts : qp_req_pkts (es_qp s) = qp_req_pkts (es_qp s0);
  sg_send : qp_send_pkts (es_qp s) = qp_send_pkts (es_qp s0);
  sg_state : resp_state (qp_resp (es_qp s)) = QP_STATE_READY;
  sg_error : resp_goto_error (qp_resp (es_qp s)) = false;
  sg_res : resp_cur_res (qp_resp (es_qp s)) = None;
  sg_syndrome : resp_aeth_syndrome (qp_resp (es_qp s)) = AETH_ACK_UNLIMITED;
  sg_psn : resp_psn (qp_resp (es_qp s)) = (pkt_psn pkt + 1) mod 2 ^ 24;
  sg_opcode : resp_opcode (qp_resp (es_qp s)) = pkt_opcode pkt
}.

(** The packet is gone, and answered if it asks for it; the responder expects
    the next one. *)
Record took (addrs payload : list Z) (pkt : rxe_pkt_info) (s s' : eng_state) : Prop := {
  tk_unmoved : unmoved s s';
  tk_mem : rdev_mem (es_dev s') = with_phys (rdev_mem (es_dev s))
    (mwrite (dev_phys (rdev_mem (es_dev s))) (take (length payload) addrs) payload);
  tk_ref : qp_ref (es_qp s') = qp_ref (es_qp s) - 1;
  tk_pkts : qp_req_pkts (es_qp s') = tail (qp_req_pkts (es_qp s));
  tk_send : ∃ acks, acks_for (es_qp s') pkt acks ∧
    qp_send_pkts (es_qp s') = qp_send_pkts (es_qp s) ++ acks;
  tk_state : resp_state (qp_resp (es_qp s')) = QP_STATE_READY;
  tk_error : resp_goto_error (qp_resp (es_qp s')) = false;
  tk_res : resp_cur_res (qp_resp (es_qp s')) = None;
  tk_psn : resp_psn (qp_resp (es_qp s')) = (pkt_psn pkt + 1) mod 2 ^ 24;
  tk_opcode : resp_opcode (qp_resp (es_qp s')) = pkt_opcode pkt
}.

Lemma answer_ext q q' req op payload psn syndrome ack :
  qp_attr q' = qp_attr q → resp_msn (qp_resp q') = resp_msn (qp_resp q) →
  resp_atomic_orig (qp_resp q') = resp_atomic_orig (qp_resp q) →
  answer q req op payload psn syndrome ack → answer q' req op payload psn syndrome ack.
Proof. intros E1 E2 E3 []. split; try done; by rewrite ?E1, ?E2, ?E3. Qed.

Lemma staged_took addrs payload pkt s0 s s1 s2 acks :
  staged addrs payload pkt s0 s → quiet s s1 → retired s1 s2 → acks_for (es_qp s1) pkt acks →
  qp_send_pkts (es_qp s1) = qp_send_pkts (es_qp s) ++ acks → took addrs payload pkt s0 s2.
Proof.
  intros [] [Uq Q1 Q2 Q3 Q4 Q5 Q6] [Ur R1 R2 R3 R4 R5 R6 R7] Ha Hs.
  split; rewrite ?R6, ?Q6; try done.
  - eapply unmoved_trans; [|done]. by eapply unmoved_trans.
  - by rewrite R1, Q6, Q1.
  - by rewrite R4, Q4, sg_ref0.
  - by rewrite R5, Q5, sg_pkts0.
  - exists acks. rewrite R7, Hs, sg_send0. split; [|done]. unfold acks_for in *.
    destruct (bth_ack pkt =? 0); [done|]. destruct Ha as (ack & -> & Ha). exists ack. split; [done|].
    eapply answer_ext; [| | |exact Ha]; [apply Ur|by rewrite R6..].
Qed.

(** The acknowledgement and the removal of an executed packet. *)
Lemma wp_finish `{Params} (Hbypass : rxe_bypass_arbiter = false) qe fuel addrs payload op psn pkt Q s0 s :
  staged addrs payload pkt s0 s → incoming op psn payload pkt → op ∈ rc_message_opcodes →
  qp_qp_type (es_qp s0) = IB_QPT_RC → flag_set (opcode_mask op) RXE_ATOMIC_MASK = false → es_alloc s0 = [] →
  (∃ port guid, rdev_ports (es_dev s0) !! 0%nat = Some port ∧ port_guid_tbl port !! 0%nat = Some guid) →
  qp_req_pkts (es_qp s0) ≠ [] →
  (∀ s', took addrs payload pkt s0 s' → rdev_cqs (es_dev s') = rdev_cqs (es_dev s) →
     qp_rq (es_qp s') = qp_rq (es_qp s) → qp_resp (es_qp s') = qp_resp (es_qp s) <| resp_mr := None |> →
     Q (Ok tt) s') →
  wp False (resp_loop qe (3 + fuel) RESPST_ACKNOWLEDGE (Some pkt)) Q s.
Proof.
  intros Hsg Hi Hop Hty Hat Hal Hport Hp HQ. pose proof (sg_unmoved _ _ _ _ _ Hsg) as Hu.
  apply wp_acknowledge; [done|by rewrite (um_type _ _ Hu)|apply Hsg|by rewrite (incoming_flag _ _ _ _ _ Hi)|
    by rewrite (um_alloc _ _ Hu)|eapply incoming_answerable; [done..|by rewrite (um_ports _ _ Hu)]|].
  intros acks s1 Ha Hq Hs. pose proof (qt_resp _ _ Hq) as Er.
  apply wp_cleanup; [by rewrite (qt_pkts _ _ Hq), (sg_pkts _ _ _ _ _ Hsg)|by rewrite Er; apply Hsg|].
  intros s2 Hr. apply HQ.
  - eapply staged_took; [done..| |done]. unfold acks_for in *. destruct (bth_ack pkt =? 0); [done|].
    destruct Ha as (ack & -> & Ha). exists ack. split; [done|].
    eapply answer_ext; [| | |exact Ha]; [apply Hq|by rewrite Er..].
  - by rewrite (rt_cqs _ _ Hr), (qt_cqs _ _ Hq).
  - by rewrite (rt_rq _ _ Hr), (qt_rq _ _ Hq).
  - by rewrite (rt_resp _ _ Hr), Er.
Qed.

Lemma psn_succ p : 0 ≤ p < 2 ^ 24 → u32 (p + 1) .& BTH_PSN_MASK = (p + 1) mod 2 ^ 24.
Proof. intros. rewrite u32_small by lia. by apply (Z.land_ones _ 24). Qed.

(** ** A message *)

(** An opcode after which a message is still going on. *)
Definition mid_message (op : Z) : bool :=
  one_of op [IB_OPCODE_RC_SEND_FIRST; IB_OPCODE_RC_SEND_MIDDLE; IB_OPCODE_RC_RDMA_WRITE_FIRST;
             IB_OPCODE_RC_RDMA_WRITE_MIDDLE].

(** The opcodes of a message are in sequence. *)
Lemma check_op_seq_message wr ops prev i n :
  rc_opcodes wr = Some ops → (i < n)%nat →
  (if (i =? 0)%nat then mid_message prev = false else prev = message_opcode ops (i - 1) n) →
  check_op_seq_rc prev (message_opcode ops i n) = RESPST_CHK_OP_VALID.
Proof.
  intros Hops Hi Hp. unfold message_opcode in *. unfold rc_opcodes in Hops.
  destruct (Nat.eqb_spec i 0) as [->|Hz].
  - assert (E : check_op_seq_rc prev = check_op_seq_rc (-1)).
    { unfold mid_message, one_of in Hp. cbn [existsb] in Hp. rewrite !orb_false_r, !orb_false_iff in Hp.
      destruct Hp as (P1 & P2 & P3 & P4). unfold check_op_seq_rc, one_of. cbn [existsb]. by rewrite P1, P2, P3, P4. }
    rewrite E. destruct (Nat.eqb_spec n 1); cbn [Nat.eqb];
    repeat match type of Hops with context [wr =? ?c] => destruct (wr =? c); [by injection Hops as <-|] end; done.
  - destruct (Nat.eqb_spec n 1); [lia|]. destruct (Nat.eqb_spec (i - 1) 0), (Nat.eqb_spec (S (i - 1)) n); try lia;
      subst prev; destruct (Nat.eqb_spec (S i) n);
      repeat match type of Hops with context [wr =? ?c] => destruct (wr =? c); [by injection Hops as <-|] end; done.
Qed.

(** The acknowledgements the packets asked for. *)
Definition acknowledged (attr : ib_qp_attr) (pkts acks : list rxe_pkt_info) : Prop :=
  ∃ ls, acks = concat ls ∧ Forall2 (λ pkt l, ∃ q, qp_attr q = attr ∧ acks_for q pkt l) pkts ls.

Lemma acknowledged_snoc attr pkts acks pkt l q :
  acknowledged attr pkts acks → qp_attr q = attr → acks_for q pkt l →
  acknowledged attr (pkts ++ [pkt]) (acks ++ l).
Proof.
  intros (ls & -> & Hf) Hq Hl. exists (ls ++ [l]). split; [by rewrite concat_app; cbn; rewrite app_nil_r|].
  apply Forall2_app; [done|]. constructor; [by exists q|constructor].
Qed.

Lemma mwrite_step ph addrs data off n :
  length addrs = length data → (off ≤ length data)%nat →
  mwrite (mwrite ph (take off addrs) (take off data)) (take n (drop off addrs)) (take n (drop off data))
  = mwrite ph (take (off + n) addrs) (take (off + n) data).
Proof.
  intros Hl Ho. rewrite <- mwrite_app by (rewrite !length_take; lia).
  by rewrite !take_take_drop.
Qed.

(** Writing one more chunk of a message. *)
Lemma mwrite_chunk ph addrs data mtu i :
  length addrs = length data → (i * Z.to_nat mtu ≤ length data)%nat →
  mwrite (mwrite ph (take (i * Z.to_nat mtu) addrs) (take (i * Z.to_nat mtu) data))
    (take (length (chunk mtu data i)) (drop (i * Z.to_nat mtu) addrs)) (chunk mtu data i)
  = mwrite ph (take (S i * Z.to_nat mtu) addrs) (take (S i * Z.to_nat mtu) data).
Proof.
  intros Hl Ho. replace (S i * Z.to_nat mtu)%nat with (i * Z.to_nat mtu + Z.to_nat mtu)%nat by lia.
  rewrite <- mwrite_step by lia. f_equal. unfold chunk. rewrite length_take, length_drop.
  destruct (Nat.le_ge_cases (Z.to_nat mtu) (length data - i * Z.to_nat mtu)); [by rewrite Nat.min_l|].
  by rewrite !take_ge by (rewrite length_drop; lia).
Qed.

Lemma chunk_length mtu data i :
  0 < mtu → (i < packets (Z.of_nat (length data)) mtu)%nat →
  Z.of_nat (length (chunk mtu data i)) = Z.min (Z.of_nat (length data) - Z.of_nat i * mtu) mtu ∧
  (data ≠ [] → chunk mtu data i ≠ []) ∧ 0 ≤ Z.of_nat i * mtu ≤ Z.of_nat (length data).
Proof.
  intros Hm Hi. set (total := Z.of_nat (length data)) in *.
  assert (Hlt : Z.of_nat i * mtu ≤ total ∧ (0 < total → Z.of_nat i * mtu < total)).
  { assert (0 ≤ total) by lia. unfold packets in Hi. pose proof (Z.mul_div_le (total + mtu - 1) mtu).
    destruct (Z.le_gt_cases 1 ((total + mtu - 1) / mtu)); [nia|]. assert (i = 0%nat) as -> by lia. lia. }
  assert (E : Z.of_nat (length (chunk mtu data i)) = Z.min (total - Z.of_nat i * mtu) mtu).
  { unfold chunk. rewrite length_take, length_drop. unfold total in *. nia. }
  split; [done|]. split; [|lia]. intros Hd E0. rewrite E0 in E. cbn in E.
  assert (0 < total) by (unfold total; destruct data; [done|cbn [length]; lia]). lia.
Qed.

Lemma with_phys_id d : with_phys d (dev_phys d) = d.
Proof. by destruct d. Qed.

Section message.
Context (s0 : eng_state) (wr : Z) (ops : Z * Z * Z * Z) (psn0 : Z) (addrs data : list Z).
Context (pkts : list rxe_pkt_info).

Local Abbreviation dev0 := (rdev_mem (es_dev s0)).
Local Abbreviation mtu := (qp_mtu_bytes (es_qp s0)).
Local Abbreviation total := (Z.of_nat (length data)).
Local Abbreviation n := (packets total mtu).
Local Abbreviation psn i := ((psn0 + Z.of_nat i) mod 2 ^ 24).

(** The packets of the message, as they arrive. *)
Definition message_packets : Prop :=
  length pkts = n ∧ ∀ i pkt, pkts !! i = Some pkt →
    incoming (message_opcode ops i n) (psn i) (chunk mtu data i) pkt.

(** The queue pair works and can answer. *)
Record receptive : Prop := {
  rc_valid : qp_valid (es_qp s0) = true;
  rc_type : qp_qp_type (es_qp s0) = IB_QPT_RC;
  rc_mtu : 0 < mtu ≤ 2 ^ 13;
  rc_alloc : es_alloc s0 = [];
  rc_refs : refs_pos dev0;
  rc_port : ∃ port guid, rdev_ports (es_dev s0) !! 0%nat = Some port ∧ port_guid_tbl port !! 0%nat = Some guid
}.

(** The responder waits for the first packet of the message. *)
Record awaiting : Prop := {
  aw_pkts : qp_req_pkts (es_qp s0) = pkts;
  aw_state : resp_state (qp_resp (es_qp s0)) = QP_STATE_READY;
  aw_error : resp_goto_error (qp_resp (es_qp s0)) = false;
  aw_res : resp_cur_res (qp_resp (es_qp s0)) = None;
  aw_psn : resp_psn (qp_resp (es_qp s0)) = psn 0;
  aw_opcode : mid_message (resp_opcode (qp_resp (es_qp s0))) = false
}.

(** The first [i] packets have been taken. *)
Record delivered (i : nat) (s : eng_state) : Prop := {
  dl_unmoved : unmoved s0 s;
  dl_mem : rdev_mem (es_dev s) = with_phys dev0 (mwrite (dev_phys dev0) (take (i * Z.to_nat mtu) addrs)
                                                     (take (i * Z.to_nat mtu) data));
  dl_ref : qp_ref (es_qp s) = qp_ref (es_qp s0) - Z.of_nat i;
  dl_pkts : qp_req_pkts (es_qp s) = drop i pkts;
  dl_acks : ∃ acks, acknowledged (qp_attr (es_qp s0)) (take i pkts) acks ∧
    qp_send_pkts (es_qp s) = qp_send_pkts (es_qp s0) ++ acks;
  dl_state : resp_state (qp_resp (es_qp s)) = QP_STATE_READY;
  dl_error : resp_goto_error (qp_resp (es_qp s)) = false;
  dl_res : resp_cur_res (qp_resp (es_qp s)) = None;
  dl_psn : resp_psn (qp_resp (es_qp s)) = psn i;
  dl_opcode : if (i =? 0)%nat then mid_message (resp_opcode (qp_resp (es_qp s))) = false
              else resp_opcode (qp_resp (es_qp s)) = message_opcode ops (i - 1) n
}.

Lemma awaiting_delivered : awaiting → delivered 0 s0.
Proof using Type.
  intros []. split; try done; [symmetry; apply with_phys_id|by rewrite Z.sub_0_r|].
  exists []. by rewrite app_nil_r; split; [exists []|].
Qed.

Context (Hops : rc_opcodes wr = Some ops) (Hpk : message_packets) (Hrc : receptive).
Context (Haddrs : length addrs = length data).

Lemma delivered_in_order i s pkt :
  pkts !! i = Some pkt → delivered i s → in_order s pkt.
Proof using Hops Hpk Hrc Haddrs.
  intros Hpkt Hw. destruct Hpk as [Hn Hall]. pose proof (Hall _ _ Hpkt) as Hin.
  apply lookup_lt_Some in Hpkt as Hi. destruct Hw as [Hu _ _ Hp _ Hst _ Hrs Hps Hop].
  split; [by rewrite (um_valid _ _ Hu), (rc_valid Hrc)|by rewrite (um_type _ _ Hu), (rc_type Hrc)|done|done| | |].
  - by rewrite Hp, (drop_S _ _ _ Hpkt).
  - by rewrite (ic_psn _ _ _ _ Hin), Hps.
  - rewrite (ic_opcode _ _ _ _ Hin). apply (check_op_seq_message wr); [done|lia|done].
Qed.

Lemma took_delivered i s s' pkt :
  pkts !! i = Some pkt → delivered i s →
  took (drop (i * Z.to_nat mtu) addrs) (chunk mtu data i) pkt s s' → delivered (S i) s'.
Proof using Hpk Hrc Haddrs.
  intros Hpkt [Hu Hm Hrf Hp (acks & Hak & Hsd) Hst He Hrs Hps Hop]
    [W1 W2 W5 W6 (l & W7 & W7') W8 W9 W10 W11 W12].
  destruct Hpk as [Hn Hall]. pose proof (Hall _ _ Hpkt) as Hin.
  apply lookup_lt_Some in Hpkt as Hi. rewrite Hn in Hi. pose proof (rc_mtu Hrc) as Hmt.
  destruct (chunk_length mtu data i ltac:(lia) Hi) as (Hcl & _ & Hoff).
  split; try congruence.
  - by eapply unmoved_trans.
  - rewrite W2, Hm. cbn [dev_phys with_phys upd_field]. f_equal. apply mwrite_chunk; lia.
  - lia.
  - by rewrite W6, Hp, (drop_S _ _ _ Hpkt).
  - exists (acks ++ l). rewrite (take_S_r _ _ _ Hpkt), W7', Hsd, app_assoc. split; [|done].
    eapply acknowledged_snoc; [done| |done]. by rewrite (um_attr _ _ W1), (um_attr _ _ Hu).
  - rewrite W11, (ic_psn _ _ _ _ Hin). rewrite Zplus_mod_idemp_l. f_equal. lia.
  - cbn [Nat.eqb]. rewrite W12, (ic_opcode _ _ _ _ Hin). f_equal. lia.
Qed.

(** The whole message is taken. *)
Record message_done (s' : eng_state) (acks : list rxe_pkt_info) : Prop := {
  md_mem : rdev_mem (es_dev s') = dev0 <| dev_phys := mwrite (dev_phys dev0) addrs data |>;
  md_pkts : qp_req_pkts (es_qp s') = [];
  md_ref : qp_ref (es_qp s') = qp_ref (es_qp s0) - Z.of_nat n;
  md_psn : resp_psn (qp_resp (es_qp s')) = psn n;
  md_state : resp_state (qp_resp (es_qp s')) = QP_STATE_READY;
  md_send : qp_send_pkts (es_qp s') = qp_send_pkts (es_qp s0) ++ acks;
  md_acks : acknowledged (qp_attr (es_qp s0)) pkts acks;
  md_unmoved : unmoved s0 s'
}.

Lemma delivered_done s :
  delivered n s → ∃ acks, message_done
    (with_rm s (qp_resp (es_qp s) <| resp_aeth_syndrome := AETH_ACK_UNLIMITED |>) (rdev_mem (es_dev s))) acks.
Proof using Hpk Hrc Haddrs.
  intros [Hu Hm Hrf Hp (acks & Hak & Hsd) Hst _ _ Hps _]. pose proof Hpk as [Hn _]. pose proof (rc_mtu Hrc).
  assert (Hall : total ≤ Z.of_nat n * mtu).
  { unfold packets. pose proof (Z.mod_pos_bound (total + mtu - 1) mtu). pose proof (Z.div_mod (total + mtu - 1) mtu). nia. }
  exists acks. rewrite (take_ge pkts) in Hak by lia. rewrite (drop_ge pkts) in Hp by lia.
  rewrite (take_ge addrs), (take_ge data) in Hm by nia. split; try done. destruct Hu. by split.
Qed.

(** A run of the task over the whole message, from what one packet does. *)
Lemma task_delivers `{Params} depth cfuel fuel (I : nat → eng_state → Prop) :
  (∀ i s, I i s → delivered i s) →
  (∀ i s, (i < n)%nat → I i s →
     wp False (rxe_responder depth cfuel (2 + fuel)) (λ r s', r = Ok tt ∧ I (S i) s') s) →
  I 0%nat s0 →
  ∃ s s' acks, __rxe_do_task (rxe_responder depth cfuel (2 + fuel)) (S n) s0 = Some (tt, s') ∧
    message_done s' acks ∧ I n s ∧
    s' = with_rm s (qp_resp (es_qp s) <| resp_aeth_syndrome := AETH_ACK_UNLIMITED |>) (rdev_mem (es_dev s)).
Proof using Hpk Hrc Haddrs.
  intros Hd Hstep H0. replace (S n) with (S (n - 0)) by lia.
  refine (_ (wp_total _ _ _ (wp_do_task (rxe_responder depth cfuel (2 + fuel)) I n 0 (λ _ s', ∃ s1,
    I n s1 ∧ s' = with_rm s1 (qp_resp (es_qp s1) <| resp_aeth_syndrome := AETH_ACK_UNLIMITED |>)
      (rdev_mem (es_dev s1))) s0 Hstep _ _ H0))).
  - intros ([] & s' & E & s1 & HI & ->). destruct (delivered_done s1 (Hd _ _ HI)) as [acks Hm].
    eexists s1, _, acks. split; [exact E|]. by split.
  - intros s HI. pose proof (Hd _ _ HI) as Hdl. pose proof Hpk as [Hn _]. apply wp_responder_idle; try apply Hdl.
    + rewrite (um_valid _ _ (dl_unmoved _ _ Hdl)). apply Hrc.
    + rewrite (dl_pkts _ _ Hdl). apply drop_ge. lia.
    + split; [by eexists|]. by exists s.
  - lia.
Qed.
End message.

(** ** Requests and queue pairs of the examples *)

(** A request as it arrives, with [ext] filling in the extension headers. *)
Definition example_request (op psn ack : Z) (ext : rxe_pkt_info → rxe_pkt_info) (payload : list Z)
    : rxe_pkt_info :=
  let len := Z.of_nat (length payload) in
  let paylen := opcode_length op + len + pad_bytes len + RXE_ICRC_SIZE in
  let pkt := PktInfo (replicate (Z.to_nat (RXE_GRH_BYTES + paylen)) 0) (RXE_GRH_MASK .| opcode_mask op) psn 0
               paylen 1 op RXE_GRH_BYTES in
  let pkt := ext (bth_init pkt op 0 0 (pad_bytes len) 0xffff 16 ack psn) in
  pkt <| pkt_hdr ::= (λ h, put_bytes h (payload_addr pkt) payload) |>.

Definition example_responder (pkts : list rxe_pkt_info) (psn : Z) : rxe_qp :=
  example_qp (example_sq 0 0 []) [] 0 0 <| qp_mtu_bytes := 4 |> <| qp_req_pkts := pkts |>
    <| qp_resp ::= λ r, r <| resp_psn := psn |> |>.

