(* ===== verification/DeliverWrite.v ===== *)
(** * RDMA writes at the responder (rxe_resp.c)

    The packets of an RDMA write that arrive in order put the data where the
    remote key and address of the first one say. *)

From stdpp Require Import gmap.
From S2P Require Import Prelude Bits Queue Opcode Hdr Verbs Icrc Mr Sge Cq State Comp Arbiter Req ReqPacket.
From S2P Require Import Message Resp Ack RespSteps Deliver.

(** A packet of the right size passes the length check of a write. *)
Lemma write_length_fits op psn payload pkt resid mtu :
  incoming op psn payload pkt → 0 < mtu ≤ 2 ^ 13 → mtu mod 4 = 0 → 0 ≤ resid < 2 ^ 31 →
  Z.of_nat (length payload) = Z.min resid mtu → write_length_ok pkt resid mtu = true.
Proof.
  intros Hi Hm H4 Hr Hl. unfold write_length_ok. rewrite (ic_size _ _ _ _ Hi), (ic_pad _ _ _ _ Hi), Hl.
  rewrite u32_small by lia. rewrite pad_bytes_mod.
  assert (E : 0x3 .& u32 (- resid) = (- resid) mod 4).
  { rewrite Z.land_comm. change 0x3 with (2 ^ 2 - 1). rewrite land_mask by lia. unfold u32.
    Z.div_mod_to_equations. lia. }
  rewrite E. destruct (Z.gtb_spec resid mtu).
  - rewrite Z.min_r by lia. rewrite Z.eqb_refl. cbn [andb]. apply Z.eqb_eq. Z.div_mod_to_equations. lia.
  - rewrite Z.min_l by lia. by rewrite !Z.eqb_refl.
Qed.

(** ** The range a remote key and address name

    [addrs] are the addresses of the [total] bytes from [va] on of the region
    [rkey] names, which permits [access]. *)
Definition key_target (dev : mem_dev) (pd access rkey va total : Z) (addrs : list Z) : Prop :=
  ∃ p m mp bs, key_pool (Z.shiftr rkey 8) = Some p ∧ pool_of dev p !! Z.shiftr rkey 8 = Some m ∧
    mem_permits m pd access rkey lookup_remote ∧ mem_region m mp bs ∧
    mem_iova m ≤ va ∧ va + total ≤ mem_iova m + mem_length m ∧
    addrs = take (Z.to_nat total) (region_addrs m bs va).

Lemma region_addrs_drop m bs va off :
  0 ≤ off → mem_iova m ≤ va → 0 ≤ mem_offset m →
  region_addrs m bs (va + off) = drop (Z.to_nat off) (region_addrs m bs va).
Proof. intros. unfold region_addrs. rewrite drop_drop. f_equal. lia. Qed.

(** The region in use: copies go to or come from [addrs]. *)
Record in_use (va total : Z) (addrs : list Z) (m : rxe_mem) : Prop := {
  iu_range off : 0 ≤ off ≤ total → mem_check_range m (va + off) (total - off) = Ok tt;
  iu_copy dir off buf len ph : 0 ≤ off → 0 < len → off + len ≤ total → len ≤ Z.of_nat (length buf) →
    rxe_mem_copy m (va + off) ph buf len dir None =
      let '(ph', buf', crc) := copy_spec dir ph (drop (Z.to_nat off) addrs) len buf None in
      Some (ph', buf', crc, Ok tt)
}.

(** The key leads to the region; returning the reference undoes the lookup. *)
Lemma target_lookup dev0 pd access rkey va total addrs ph :
  refs_pos dev0 → key_target dev0 pd access rkey va total addrs → 0 ≤ total →
  ∃ dev' h m, lookup_mem (with_phys dev0 ph) pd access rkey lookup_remote = (dev', Some (h, m)) ∧
    pool_of dev' h.1 !! h.2 = Some m ∧ dev_phys dev' = ph ∧
    (∀ ph', mem_drop_ref (with_phys dev' ph') h = with_phys dev0 ph') ∧ in_use va total addrs m.
Proof.
  intros Hpos (p & m & mp & bs & Hk & Hm & Hp & Hr & Hlo & Hhi & ->) Htotal.
  destruct (lookup_mem_cases (with_phys dev0 ph) pd access rkey lookup_remote)
    as [[El Hn]|(p' & m0 & m1 & d & El & Hk' & Hm' & _ & Hd)]; [by apply refs_pos_phys| |].
  { exfalso. apply (Hn p m Hk); [by destruct p|done]. }
  rewrite Hk in Hk'. injection Hk' as <-. assert (m0 = m) as -> by (destruct p; cbn in *; congruence).
  pose proof Hd as (m2 & Hm2 & E1 & E2). cbn in Hm2. rewrite Hm' in Hm2. injection Hm2 as <-.
  assert (Hr1 : mem_region m1 mp bs) by (rewrite E1; destruct Hr; by split).
  assert (Ei : mem_iova m1 = mem_iova m ∧ mem_length m1 = mem_length m ∧ region_addrs m1 bs = region_addrs m bs)
    by (by rewrite E1). destruct Ei as (Ei & Ell & Er).
  pose proof Hr1 as [_ _ _ _ _ Hnn _ _ Hnw _].
  exists d, (p, Z.shiftr rkey 8), m1. split; [done|]. split; [rewrite E2; cbn; by rewrite pool_of_upd, lookup_insert_eq|].
  split; [rewrite E2; by destruct p|]. split.
  { intros ph'. apply (held_drop (with_phys dev0 ph') (p, Z.shiftr rkey 8) m1); [by apply refs_pos_phys|].
    exists m. rewrite E2. destruct p; cbn in *; done. }
  split.
  { intros off Ho. apply (mem_check_range_iff m1 mp bs); [done|destruct Hr1; lia|destruct Hr1; unfold bufs_size in *; lia|].
    split; [lia|left; lia]. }
  intros dir off buf len ph0 Ho Hl Hfit Hbuf. rewrite (rxe_mem_copy_region m1 mp bs) by (done || lia).
  rewrite (region_addrs_drop m1), Er by lia.
  rewrite (copy_spec_take dir ph0 (drop (Z.to_nat off) (region_addrs m bs va))
    (drop (Z.to_nat off) (take (Z.to_nat total) (region_addrs m bs va)))); [done|].
  rewrite (take_drop_commute (take _ _)), take_take, Nat.min_l by lia. by rewrite <- take_drop_commute.
Qed.

(** ** RDMA write *)

Definition rc_write_opcodes : list Z :=
  [IB_OPCODE_RC_RDMA_WRITE_FIRST; IB_OPCODE_RC_RDMA_WRITE_MIDDLE; IB_OPCODE_RC_RDMA_WRITE_LAST;
   IB_OPCODE_RC_RDMA_WRITE_ONLY].

Record write_opcode_facts (op : Z) : Prop := {
  wo_message : op ∈ rc_message_opcodes;
  wo_rw : flag_set (opcode_mask op) (RXE_READ_MASK .| RXE_WRITE_MASK) = true;
  wo_write : flag_set (opcode_mask op) RXE_WRITE_MASK = true;
  wo_read : flag_set (opcode_mask op) RXE_READ_MASK = false;
  wo_send : flag_set (opcode_mask op) RXE_SEND_MASK = false;
  wo_atomic : flag_set (opcode_mask op) RXE_ATOMIC_MASK = false;
  wo_rdatm : flag_set (opcode_mask op) RXE_READ_OR_ATOMIC = false;
  wo_rwr : flag_set (opcode_mask op) RXE_RWR_MASK = false;
  wo_comp : flag_set (opcode_mask op) RXE_COMP_MASK = false;
  wo_reth : flag_set (opcode_mask op) RXE_RETH_MASK =
    one_of op [IB_OPCODE_RC_RDMA_WRITE_FIRST; IB_OPCODE_RC_RDMA_WRITE_ONLY]
}.

Lemma write_opcode_spec op : op ∈ rc_write_opcodes → write_opcode_facts op.
Proof.
  intros Hop. repeat (apply elem_of_cons in Hop as [->|Hop]); [..|by apply not_elem_of_nil in Hop].
  all: split; first [apply list_elem_of_In; vm_compute; tauto|vm_compute; reflexivity].
Qed.

Lemma target_length dev pd access rkey va total addrs :
  key_target dev pd access rkey va total addrs → 0 ≤ total → Z.of_nat (length addrs) = total.
Proof.
  intros (p & m & mp & bs & _ & _ & _ & Hr & Hlo & Hhi & ->) Ht. destruct Hr.
  rewrite length_take. unfold region_addrs. rewrite length_drop. unfold bufs_size in *. lia.
Qed.

Definition write_ops : Z * Z * Z * Z :=
  (IB_OPCODE_RC_RDMA_WRITE_FIRST, IB_OPCODE_RC_RDMA_WRITE_MIDDLE, IB_OPCODE_RC_RDMA_WRITE_LAST,
   IB_OPCODE_RC_RDMA_WRITE_ONLY).

Lemma write_ops_opcode i n :
  (i < n)%nat → message_opcode write_ops i n ∈ rc_write_opcodes ∧
  one_of (message_opcode write_ops i n) [IB_OPCODE_RC_RDMA_WRITE_FIRST; IB_OPCODE_RC_RDMA_WRITE_ONLY]
    = (i =? 0)%nat.
Proof.
  intros Hi. unfold message_opcode, write_ops.
  destruct (Nat.eqb_spec n 1), (Nat.eqb_spec i 0), (Nat.eqb_spec (S i) n); try lia;
    (split; [apply list_elem_of_In; vm_compute; tauto|reflexivity]).
Qed.

Section write.
Context `{Params} (Hbypass : rxe_bypass_arbiter = false).
Context (dev0 : mem_dev) (Hpos : refs_pos dev0) (pd rkey va total : Z) (addrs : list Z).
Context (Ht : key_target dev0 pd IB_ACCESS_REMOTE_WRITE rkey va total addrs) (Htotal : 0 ≤ total < 2 ^ 31).

Lemma wp_write_data_in off ph pkt payload s h m Q :
  incoming (pkt_opcode pkt) (pkt_psn pkt) payload pkt → 0 ≤ off → payload ≠ [] →
  off + Z.of_nat (length payload) ≤ total → 0 ≤ va → va + total < 2 ^ 64 →
  resp_mr (qp_resp (es_qp s)) = Some h → pool_of (rdev_mem (es_dev s)) h.1 !! h.2 = Some m →
  dev_phys (rdev_mem (es_dev s)) = ph → resp_va (qp_resp (es_qp s)) = va + off →
  resp_resid (qp_resp (es_qp s)) = total - off →
  rxe_mem_copy m (va + off) ph payload (Z.of_nat (length payload)) direction_in None
    = Some (mwrite ph (take (length payload) (drop (Z.to_nat off) addrs)) payload, payload, None, Ok tt) →
  (∀ s', s' = with_rm s (qp_resp (es_qp s) <| resp_va := va + off + Z.of_nat (length payload) |>
                                           <| resp_resid := total - off - Z.of_nat (length payload) |>)
                (with_phys (rdev_mem (es_dev s))
                   (mwrite ph (take (length payload) (drop (Z.to_nat off) addrs)) payload)) →
     Q RESPST_NONE s') →
  wp False (write_data_in pkt) Q s.
Proof using Htotal.
  intros Hi Ho Hne Hfit Hva Hvt Hmr Hm Hph Hrva Hrr Hcp HQ. unfold write_data_in. wp_run.
  rewrite Hmr. wp_run. rewrite (s32_small (payload_size pkt)) by (rewrite (ic_size _ _ _ _ Hi); lia).
  eapply incoming_read; [done|]. unfold eng_mem_copy, mem_get. wp_run. rewrite Hm. wp_run.
  rewrite Hrva, Hph, (ic_size _ _ _ _ Hi), Hcp. wp_run. apply HQ.
  rewrite <- (with_rm_id s) at 1. rewrite with_rm_mem, with_rm_resp. f_equal.
  rewrite <- (u64_small (va + off + _)), <- (u32_small (total - off - _)) by lia.
  by rewrite <- Hrva, <- Hrr.
Qed.

(** A write packet at [off] that arrives in order. *)
Record write_arrives (off : Z) (payload : list Z) (pkt : rxe_pkt_info) (s : eng_state) : Prop := {
  wa_opcode : pkt_opcode pkt ∈ rc_write_opcodes;
  wa_order : in_order s pkt;
  wa_incoming : incoming (pkt_opcode pkt) (pkt_psn pkt) payload pkt;
  wa_psn : 0 ≤ pkt_psn pkt < 2 ^ 24;
  wa_mem : ∃ ph, rdev_mem (es_dev s) = with_phys dev0 ph;
  wa_pd : qp_pd (es_qp s) = pd;
  wa_access : flag_set (qa_qp_access_flags (qp_attr (es_qp s))) IB_ACCESS_REMOTE_WRITE = true;
  wa_mtu : 0 < qp_mtu_bytes (es_qp s) ≤ 2 ^ 13 ∧ qp_mtu_bytes (es_qp s) mod 4 = 0;
  wa_length : Z.of_nat (length payload) = Z.min (total - off) (qp_mtu_bytes (es_qp s)) ∧ payload ≠ [] ∧ 0 ≤ off;
  wa_va : 0 ≤ va ∧ va + total < 2 ^ 64;
  wa_error : resp_goto_error (qp_resp (es_qp s)) = false;
  wa_alloc : es_alloc s = [];
  wa_port : ∃ port guid, rdev_ports (es_dev s) !! 0%nat = Some port ∧ port_guid_tbl port !! 0%nat = Some guid;
  wa_addressed : let r := addressed pkt (qp_resp (es_qp s)) in
    resp_rkey r = rkey ∧ resp_va r = va + off ∧ resp_resid r = total - off
}.

(** The responder's information once such a packet is executed. *)
Definition write_executed (off : Z) (payload : list Z) (pkt : rxe_pkt_info) (r : rxe_resp_info)
    (h : mem_handle) : rxe_resp_info :=
  executed pkt (addressed pkt (r <| resp_aeth_syndrome := AETH_ACK_UNLIMITED |> <| resp_sent_psn_nak := false |>)
    <| resp_mr := Some h |> <| resp_va := va + off + Z.of_nat (length payload) |>
    <| resp_resid := total - off - Z.of_nat (length payload) |>).

Lemma addressed_front pkt r :
  addressed pkt (r <| resp_aeth_syndrome := AETH_ACK_UNLIMITED |> <| resp_sent_psn_nak := false |>)
  = addressed pkt r <| resp_aeth_syndrome := AETH_ACK_UNLIMITED |> <| resp_sent_psn_nak := false |>.
Proof using Type. unfold addressed. by repeat case_match. Qed.

(** The checks of the packet succeed and its payload is stored. *)
Lemma wp_write_front depth cfuel fuel off payload pkt s Q :
  write_arrives off payload pkt s →
  (∀ qe h dev', let ph' := mwrite (dev_phys (rdev_mem (es_dev s)))
                     (take (length payload) (drop (Z.to_nat off) addrs)) payload in
     mem_drop_ref dev' h = with_phys (rdev_mem (es_dev s)) ph' →
     wp False (resp_loop qe (3 + fuel) RESPST_ACKNOWLEDGE (Some pkt)) Q
       (with_rm s (write_executed off payload pkt (qp_resp (es_qp s)) h) dev')) →
  wp False (rxe_responder depth cfuel (11 + fuel)) Q s.
Proof using Hpos Ht Htotal.
  intros [Hop Hio Hi Hpsn [ph Hmem] Hpd Hacc [Hmtu Hm4] (Hlen & Hne & Ho) [Hva Hvt] He Hal Hport (Hrk & Hrva & Hrr)] HQ.
  pose proof (write_opcode_spec _ Hop) as Hf. assert (Hfl := λ m, incoming_flag _ _ _ _ m Hi).
  assert (Hperm : op_permitted (es_qp s) pkt = true).
  { unfold op_permitted. rewrite !Hfl, (wo_read _ Hf), (wo_write _ Hf), (wo_atomic _ Hf), Hacc by done.
    cbn [negb orb]. rewrite !andb_true_r. apply negb_true_iff, Z.eqb_neq. intros E.
    pose proof (Hfl RXE_WRITE_MASK eq_refl) as Ew. rewrite (wo_write _ Hf), E in Ew. discriminate. }
  eapply (wp_front False depth cfuel (5 + fuel)); [done|done|unfold resourced; by rewrite !Hfl, (wo_rdatm _ Hf), (wo_rwr _ Hf) by done|].
  intros qe. destruct (target_lookup dev0 pd _ rkey va total addrs ph Hpos Ht ltac:(lia))
    as (dev' & h & m & Hl & Hm & Hph & Hdrop & [Hrange Hcopy]).
  cbn [es_qp es_dev with_rm qp_resp rdev_mem upd_field].
  pose proof (addressed_front pkt (qp_resp (es_qp s))) as Er. rewrite Hmem in HQ.
  eapply (wp_rkey False qe (4 + fuel)); cbn [es_qp es_dev with_rm qp_resp qp_pd qp_mtu_bytes rdev_mem upd_field].
  - by rewrite !Hfl, (wo_rw _ Hf) by done.
  - rewrite Er. unfold pkt_access. rewrite !Hfl, (wo_rw _ Hf), (wo_read _ Hf), Hmem, Hpd by done.
    cbn [resp_rkey upd_field]. rewrite Hrk. exact Hl.
  - rewrite Er. cbn [resp_va resp_resid upd_field]. rewrite Hrva, Hrr. apply Hrange. lia.
  - intros _. rewrite Er. cbn [resp_resid upd_field]. rewrite Hrr. eapply write_length_fits; [done..|lia|lia].
  - apply wp_execute. unfold execute_op. wp_run. rewrite !Hfl, (wo_send _ Hf), (wo_write _ Hf) by done.
    rewrite with_rm_rm. eapply (wp_write_data_in off ph pkt payload _ h m); [done|done|done|lia|done|done|done|exact Hm|exact Hph|..].
    + rewrite Er. exact Hrva.
    + rewrite Er. exact Hrr.
    + rewrite (Hcopy direction_in off payload) by (done || lia || (destruct payload; [done|cbn [length]; lia])).
      unfold copy_spec. by rewrite Nat2Z.id, (take_ge payload), drop_all, app_nil_r by done.
    + intros s1 ->. split; [done|]. split; [apply (io_type _ _ Hio)|]. rewrite (wo_comp _ Hf), !with_rm_rm.
      apply (HQ qe h). apply Hdrop.
Qed.

(** What one write packet does. *)
Lemma wp_write_packet depth cfuel fuel off payload pkt s :
  write_arrives off payload pkt s →
  wp False (rxe_responder depth cfuel (11 + fuel)) (λ r s', r = Ok tt ∧
    took (drop (Z.to_nat off) addrs) payload pkt s s' ∧
    rdev_cqs (es_dev s') = rdev_cqs (es_dev s) ∧ qp_rq (es_qp s') = qp_rq (es_qp s) ∧
    resp_rkey (qp_resp (es_qp s')) = rkey ∧
    resp_va (qp_resp (es_qp s')) = va + off + Z.of_nat (length payload) ∧
    resp_resid (qp_resp (es_qp s')) = total - off - Z.of_nat (length payload)) s.
Proof using Hbypass Hpos Ht Htotal.
  intros Ha. apply (wp_write_front depth cfuel fuel off payload pkt); [done|]. intros qe h dev' ph' Hd.
  destruct Ha as [Hop Hio Hi Hpsn _ _ _ _ _ _ He Hal Hport (Hrk & _)].
  destruct (addressed_fields pkt (qp_resp (es_qp s))) as (F1 & F2 & F3 & _).
  pose proof (write_opcode_spec _ Hop) as Hf.
  eapply (wp_finish Hbypass qe fuel (drop (Z.to_nat off) addrs) payload _ _ pkt _ s).
  - split; cbn [es_qp es_dev with_rm qp_resp rdev_mem upd_field]; try done;
      unfold write_executed, executed; rewrite addressed_front; cbn;
      first [reflexivity|exact Hd|by apply psn_succ|by rewrite ?F1, ?F2, ?F3; apply Hio|by rewrite F2].
  - exact Hi.
  - apply Hf.
  - apply Hio.
  - apply Hf.
  - done.
  - done.
  - pose proof (io_head _ _ Hio) as Hh. by intros E; rewrite E in Hh.
  - intros s' Htk Hc Hr Hrs. split; [done|]. split; [exact Htk|]. split; [exact Hc|]. split; [exact Hr|].
    rewrite Hrs. cbn [es_qp with_rm qp_resp upd_field]. unfold write_executed, executed. rewrite addressed_front.
    by split.
Qed.
End write.

(** ** A message of RDMA writes *)

Section write_message.
Context `{Params} (Hbypass : rxe_bypass_arbiter = false).
Context (s0 : eng_state) (rkey va psn0 : Z) (addrs data : list Z) (pkts : list rxe_pkt_info).

Local Abbreviation dev0 := (rdev_mem (es_dev s0)).
Local Abbreviation mtu := (qp_mtu_bytes (es_qp s0)).
Local Abbreviation total := (Z.of_nat (length data)).
Local Abbreviation n := (packets total mtu).

(** The first packet says where the data goes. *)
Definition write_request : Prop :=
  ∀ pkt, pkts !! 0%nat = Some pkt → reth_va pkt = va ∧ reth_rkey pkt = rkey ∧ reth_len pkt = total.

(** The queue pair may be written to. *)
Record writable : Prop := {
  wt_receptive : receptive s0;
  wt_access : flag_set (qa_qp_access_flags (qp_attr (es_qp s0))) IB_ACCESS_REMOTE_WRITE = true;
  wt_mtu : mtu mod 4 = 0
}.

(** The first [i] packets of the write are in memory. *)
Record writing (i : nat) (s : eng_state) : Prop := {
  wg_delivered : delivered s0 write_ops psn0 addrs data pkts i s;
  wg_cqs : rdev_cqs (es_dev s) = rdev_cqs (es_dev s0);
  wg_rq : qp_rq (es_qp s) = qp_rq (es_qp s0);
  wg_range : i ≠ 0%nat → (i < n)%nat → resp_rkey (qp_resp (es_qp s)) = rkey ∧
    resp_va (qp_resp (es_qp s)) = va + Z.of_nat i * mtu ∧
    resp_resid (qp_resp (es_qp s)) = total - Z.of_nat i * mtu
}.

Context (Hpk : message_packets s0 write_ops psn0 data pkts) (Hrq : write_request) (Hwt : writable).
Context (Hdata : data ≠ []) (Hlen : total < 2 ^ 31) (Hva : 0 ≤ va) (Hvt : va + total < 2 ^ 64).
Context (Ht : key_target dev0 (qp_pd (es_qp s0)) IB_ACCESS_REMOTE_WRITE rkey va total addrs).

Lemma writing_addressed i s pkt :
  pkts !! i = Some pkt → writing i s →
  let r := addressed pkt (qp_resp (es_qp s)) in
  resp_rkey r = rkey ∧ resp_va r = va + Z.of_nat i * mtu ∧ resp_resid r = total - Z.of_nat i * mtu.
Proof using Hpk Hrq.
  intros Hpkt Hw. destruct Hpk as [Hn Hall]. pose proof (Hall _ _ Hpkt) as Hin.
  apply lookup_lt_Some in Hpkt as Hi. rewrite Hn in Hi. destruct (write_ops_opcode i n Hi) as [Hwo Hone].
  pose proof (write_opcode_spec _ Hwo) as Hf. cbn zeta. unfold addressed.
  rewrite !(incoming_flag _ _ _ _ _ Hin), (wo_rw _ Hf), (wo_reth _ Hf), Hone by done.
  destruct (Nat.eqb_spec i 0) as [->|Hz].
  - destruct (Hrq _ Hpkt) as (-> & -> & ->). cbn. split; [done|]. split; lia.
  - by apply (wg_range _ _ Hw).
Qed.

Lemma target_addrs : length addrs = length data.
Proof using Ht. pose proof (target_length _ _ _ _ _ _ _ Ht ltac:(lia)). lia. Qed.

Lemma writing_arrives i s pkt :
  pkts !! i = Some pkt → writing i s →
  write_arrives dev0 (qp_pd (es_qp s0)) rkey va total (Z.of_nat i * mtu) (chunk mtu data i) pkt s.
Proof using Hpk Hrq Hwt Hdata Hva Hvt Ht.
  intros Hpkt Hw. pose proof Hpk as [Hn Hall]. pose proof (Hall _ _ Hpkt) as Hin.
  apply lookup_lt_Some in Hpkt as Hi. rewrite Hn in Hi. destruct Hwt as [Hrc Hacc Hm4].
  destruct (chunk_length mtu data i ltac:(apply Hrc) Hi) as (Hcl & Hcn & Hoff).
  destruct (write_ops_opcode i n Hi) as [Hwo _].
  pose proof (ic_opcode _ _ _ _ Hin) as Eo. pose proof (ic_psn _ _ _ _ Hin) as Ep.
  pose proof (wg_delivered _ _ Hw) as Hdl. pose proof (dl_unmoved _ _ _ _ _ _ _ _ Hdl) as [U1 U2 U3 U4 U5 U6 U7].
  split; rewrite ?Eo, ?Ep, ?U1, ?U2, ?U5, ?U6, ?U7; try (done || apply Hrc || apply Hdl).
  - eapply (delivered_in_order s0 IB_WR_RDMA_WRITE write_ops); [done|done|done|apply target_addrs|done|done].
  - apply Z.mod_pos_bound. lia.
  - rewrite (dl_mem _ _ _ _ _ _ _ _ Hdl). by eexists.
  - split; [apply Hrc|done].
  - split; [done|]. split; [by apply Hcn|lia].
  - by apply writing_addressed.
Qed.

Lemma write_step depth cfuel fuel i s :
  (i < n)%nat → writing i s →
  wp False (rxe_responder depth cfuel (11 + fuel)) (λ r s', r = Ok tt ∧ writing (S i) s') s.
Proof using Hbypass Hpk Hrq Hwt Hdata Hlen Hva Hvt Ht.
  intros Hi Hw. pose proof Hpk as [Hn Hall]. destruct (lookup_lt_is_Some_2 pkts i) as [pkt Hpkt]; [lia|].
  pose proof (wt_receptive Hwt) as Hrc. pose proof (rc_mtu _ Hrc).
  eapply wp_mono; [eapply (wp_write_packet Hbypass dev0 (rc_refs _ Hrc) _ rkey va total addrs Ht); [lia|]; by apply writing_arrives|].
  intros r s' (-> & Htk & Hc & Hr & Hk & Hv & Hrs). split; [done|]. split.
  - eapply took_delivered; [done|done|apply target_addrs|done|apply Hw|].
    by replace (Z.to_nat (Z.of_nat i * mtu)) with (i * Z.to_nat mtu)%nat in Htk by lia.
  - by rewrite Hc, (wg_cqs _ _ Hw).
  - by rewrite Hr, (wg_rq _ _ Hw).
  - intros _ Hmore. split; [done|]. destruct (chunk_length mtu data i ltac:(lia) Hi) as (Hcl & _).
    destruct (packets_last total mtu ltac:(lia) ltac:(lia) i Hi) as [Hl _]. lia.
Qed.

End write_message.

Lemma write_taken `{Params} s0 rkey va psn0 addrs data pkts depth cfuel fuel :
  let total := Z.of_nat (length data) in
  let n := packets total (qp_mtu_bytes (es_qp s0)) in
  rxe_bypass_arbiter = false → writable s0 → data ≠ [] → total < 2 ^ 31 → 0 ≤ va → va + total < 2 ^ 64 →
  key_target (rdev_mem (es_dev s0)) (qp_pd (es_qp s0)) IB_ACCESS_REMOTE_WRITE rkey va total addrs →
  message_packets s0 write_ops psn0 data pkts → write_request rkey va data pkts → awaiting s0 psn0 pkts →
  ∃ s' acks, __rxe_do_task (rxe_responder depth cfuel (11 + fuel)) (S n) s0 = Some (tt, s') ∧
    message_done s0 psn0 addrs data pkts s' acks ∧
    qp_rq (es_qp s') = qp_rq (es_qp s0) ∧ rdev_cqs (es_dev s') = rdev_cqs (es_dev s0).
Proof.
  intros total n Hb Hwt Hd Hlen Hva Hvt Ht Hpk Hrq Haw.
  destruct (task_delivers s0 write_ops psn0 addrs data pkts Hpk (wt_receptive _ Hwt)
    (target_addrs _ _ _ _ _ Ht) depth cfuel (9 + fuel) (writing s0 rkey va psn0 addrs data pkts))
    as (s & s' & acks & E & Hm & Hw & ->).
  - intros i s. apply wg_delivered.
  - intros i s. by apply write_step.
  - by split; [apply awaiting_delivered|..].
  - eexists _, acks. split; [exact E|]. split; [exact Hm|]. split; [apply Hw|apply Hw].
Qed.

(** C5: the packets of an RDMA write on a reliable connection that arrive in
    order are all taken by one run of the responder's task, which then stops:
    the data of the message is in memory at the addresses the remote key and
    address name and no other byte has changed, no reference to the region is
    kept, every packet is freed, the receive queue and the completion queues
    are as before, the responder expects the next sequence number, and the
    packets that asked for an acknowledgement got one with their sequence
    number. *)
Theorem responder_write `{Params} s0 rkey va psn0 addrs data pkts depth cfuel fuel :
  let total := Z.of_nat (length data) in
  let n := packets total (qp_mtu_bytes (es_qp s0)) in
  rxe_bypass_arbiter = false → writable s0 → data ≠ [] → total < 2 ^ 31 → 0 ≤ va → va + total < 2 ^ 64 →
  key_target (rdev_mem (es_dev s0)) (qp_pd (es_qp s0)) IB_ACCESS_REMOTE_WRITE rkey va total addrs →
  message_packets s0 write_ops psn0 data pkts → write_request rkey va data pkts → awaiting s0 psn0 pkts →
  ∃ s' acks, __rxe_do_task (rxe_responder depth cfuel (11 + fuel)) (S n) s0 = Some (tt, s') ∧
    message_done s0 psn0 addrs data pkts s' acks ∧
    qp_rq (es_qp s') = qp_rq (es_qp s0) ∧ rdev_cqs (es_dev s') = rdev_cqs (es_dev s0).
Proof. intros total n. apply write_taken. Qed.


(** ** Example: a write of six bytes in two packets *)

Definition example_write_packets : list rxe_pkt_info :=
  [example_request IB_OPCODE_RC_RDMA_WRITE_FIRST 0xffffff 0
     (λ p, reth_set_len (reth_set_rkey (reth_set_va p 1000) 0x102) 6) [11; 12; 13; 14];
   example_request IB_OPCODE_RC_RDMA_WRITE_LAST 0 1 id [15; 16]].

Lemma example_target : key_target example_dev 5 IB_ACCESS_REMOTE_WRITE 0x102 1000 6 [101; 102; 103; 200; 201; 202].
Proof.
  exists mr_pool, example_mem, [example_bufs ++ replicate 254 (PhysBuf 0 0)], example_bufs.
  split; [reflexivity|]. split; [reflexivity|]. split; [repeat split; try reflexivity; discriminate|].
  split; [apply example_region|]. split; [cbn; lia|]. split; [cbn; lia|]. reflexivity.
Qed.

Lemma responder_write_witness :
  let s0 := example_es (example_responder example_write_packets 0xffffff) in
  ∃ s' acks, __rxe_do_task (rxe_responder (H := example_params) 0 0 11) 3 s0 = Some (tt, s') ∧
    mread (dev_phys (rdev_mem (es_dev s'))) <$> [101; 102; 103; 200; 201; 202; 203]
      = [11; 12; 13; 14; 15; 16; 8] ∧
    resp_psn (qp_resp (es_qp s')) = 1 ∧ qp_send_pkts (es_qp s') = acks ∧
    acknowledged example_attr example_write_packets acks.
Proof.
  intros s0.
  destruct (responder_write (H := example_params) s0 0x102 1000 0xffffff [101; 102; 103; 200; 201; 202]
    [11; 12; 13; 14; 15; 16] example_write_packets 0 0 0) as (s' & acks & E & [Hm _ _ Hp _ Hs Ha] & _).
  - done.
  - split; [|reflexivity..]. split; try reflexivity; [cbn; lia|apply example_refs_pos|eexists _, _; done].
  - done.
  - done.
  - done.
  - done.
  - apply example_target.
  - split; [reflexivity|]. intros [|[|i]] pkt Hi; [injection Hi as <-..|done];
      (split; try (vm_compute; (reflexivity || discriminate)); eexists; split; [by left|vm_compute; reflexivity]).
  - intros pkt Hi. injection Hi as <-. repeat split; vm_compute; reflexivity.
  - by split.
  - exists s', acks. split; [exact E|]. rewrite Hm. split; [vm_compute; reflexivity|].
    split; [exact Hp|]. split; [exact Hs|exact Ha].
Defined.
