(* ===== verification/DeliverSend.v ===== *)
(** * Sends at the responder (rxe_resp.c)

    The packets of a send that arrive in order fill the buffers of the oldest
    receive work request, across packets, entries and pages, and the last one
    completes it. *)

From stdpp Require Import gmap.
From S2P Require Import Prelude Bits Queue Opcode Hdr Verbs Icrc Mr Sge Cq State Comp Arbiter Req ReqPacket.
From S2P Require Import Message Resp Ack RespSteps Deliver.

Definition rc_send_opcodes : list Z :=
  [IB_OPCODE_RC_SEND_FIRST; IB_OPCODE_RC_SEND_MIDDLE; IB_OPCODE_RC_SEND_LAST;
   IB_OPCODE_RC_SEND_LAST_WITH_IMMEDIATE; IB_OPCODE_RC_SEND_ONLY; IB_OPCODE_RC_SEND_ONLY_WITH_IMMEDIATE].

Record send_opcode_facts (op : Z) : Prop := {
  so_message : op ∈ rc_message_opcodes;
  so_rw : flag_set (opcode_mask op) (RXE_READ_MASK .| RXE_WRITE_MASK) = false;
  so_write : flag_set (opcode_mask op) RXE_WRITE_MASK = false;
  so_read : flag_set (opcode_mask op) RXE_READ_MASK = false;
  so_send : flag_set (opcode_mask op) RXE_SEND_MASK = true;
  so_atomic : flag_set (opcode_mask op) RXE_ATOMIC_MASK = false;
  so_rdatm : flag_set (opcode_mask op) RXE_READ_OR_ATOMIC = false;
  so_rwr : flag_set (opcode_mask op) RXE_RWR_MASK = flag_set (opcode_mask op) RXE_START_MASK;
  so_comp : flag_set (opcode_mask op) RXE_COMP_MASK = flag_set (opcode_mask op) RXE_END_MASK
}.

Lemma send_opcode_spec op : op ∈ rc_send_opcodes → send_opcode_facts op.
Proof.
  intros Hop. repeat (apply elem_of_cons in Hop as [->|Hop]); [..|by apply not_elem_of_nil in Hop].
  all: split; first [apply list_elem_of_In; vm_compute; tauto|vm_compute; reflexivity].
Qed.

(** [s'] is [s] with another receive queue, memory, completion queues and
    responder's information. *)
Record became (s s' : eng_state) (r : rxe_resp_info) (m : mem_dev) (rq : option (rxe_queue rxe_recv_wqe))
    (cqs : gmap Z rxe_cq) : Prop := {
  bc_unmoved : unmoved s s';
  bc_mem : rdev_mem (es_dev s') = m;
  bc_cqs : rdev_cqs (es_dev s') = cqs;
  bc_rq : qp_rq (es_qp s') = rq;
  bc_ref : qp_ref (es_qp s') = qp_ref (es_qp s);
  bc_pkts : qp_req_pkts (es_qp s') = qp_req_pkts (es_qp s);
  bc_resp : qp_resp (es_qp s') = r;
  bc_send : qp_send_pkts (es_qp s') = qp_send_pkts (es_qp s)
}.

(** The oldest receive work request: [w], with [later] behind it. *)
Definition oldest (k : Z) (s : eng_state) (rq : rxe_queue rxe_recv_wqe) (w : rxe_recv_wqe)
    (later : list rxe_recv_wqe) : Prop :=
  qp_rq (es_qp s) = Some rq ∧ queue_wf k rq ∧ queue_list rq = w :: later.

Lemma stream_phys dev pd access dma off addrs ph :
  stream dev pd access dma off addrs → stream (with_phys dev ph) pd access dma off addrs.
Proof.
  intros (Hc & Hn & a & rest & Hf & Ho & ->). split; [done|]. split; [done|]. exists a, rest.
  split; [|done]. eapply Forall2_impl; [|exact Hf]. intros sge l [Hl Hs]. split; [done|]. intros Hz.
  destruct (Hs Hz) as (p & m & Hk & Hm & ?). exists p, m. by destruct p.
Qed.

Section send.
Context `{Params} (F : Prop).

Lemma wp_recv_wqe k s rq w later Q :
  oldest k s rq w later → Q w s → wp F (recv_wqe (rwqe_rq (consumer_addr rq))) Q s.
Proof using Type.
  intros (Hrq & Hwf & Hl) HQ. unfold recv_wqe. wp_run. rewrite Hrq. wp_run.
  destruct (queue_head_cons k rq w later Hwf Hl) as (_ & -> & _). by wp_run.
Qed.

(** The payload of a send goes to the next bytes of the receive buffers. *)
Lemma wp_send_data_in k s pkt payload rq w later addrs Q :
  incoming (pkt_opcode pkt) (pkt_psn pkt) payload pkt → Z.of_nat (length payload) < 2 ^ 31 →
  resp_wqe (qp_resp (es_qp s)) = Some (rwqe_rq (consumer_addr rq)) → oldest k s rq w later →
  refs_pos (rdev_mem (es_dev s)) →
  stream (rdev_mem (es_dev s)) (qp_pd (es_qp s)) IB_ACCESS_LOCAL_WRITE (rwqe_dma w)
    (dma_sge_offset (rwqe_dma w)) addrs →
  (length payload ≤ length addrs)%nat → Z.of_nat (length payload) ≤ dma_resid (rwqe_dma w) < 2 ^ 31 →
  (∀ s' rq' w', became s s' (qp_resp (es_qp s)) (with_phys (rdev_mem (es_dev s))
       (mwrite (dev_phys (rdev_mem (es_dev s))) (take (length payload) addrs) payload)) (Some rq')
       (rdev_cqs (es_dev s)) →
     oldest k s' rq' w' later → consumer_addr rq' = consumer_addr rq →
     rwqe_wr_id w' = rwqe_wr_id w → dma_length (rwqe_dma w') = dma_length (rwqe_dma w) →
     dma_resid (rwqe_dma w') = dma_resid (rwqe_dma w) - Z.of_nat (length payload) →
     stream (rdev_mem (es_dev s)) (qp_pd (es_qp s)) IB_ACCESS_LOCAL_WRITE (rwqe_dma w')
       (dma_sge_offset (rwqe_dma w')) (drop (length payload) addrs) → Q RESPST_NONE s') →
  wp F (send_data_in pkt (payload_addr pkt) (s32 (payload_size pkt))) Q s.
Proof using Type.
  intros Hi Hlp Hw Hold Hpos Hst Hla Hres HQ. unfold send_data_in. wp_run. rewrite Hw. wp_run.
  eapply wp_recv_wqe; [done|]. rewrite (s32_small (payload_size pkt)) by (rewrite (ic_size _ _ _ _ Hi); lia).
  wp_run. eapply incoming_read; [done|]. rewrite (ic_size _ _ _ _ Hi). unfold eng_copy_data. wp_run.
  destruct (copy_data_copied (rdev_mem (es_dev s)) (qp_pd (es_qp s)) IB_ACCESS_LOCAL_WRITE (rwqe_dma w) addrs
    payload (Z.of_nat (length payload)) direction_in None) as (o & -> & Ho & [ph Hh] & Hc & Hs & c & f & Hd);
    [done|done|lia|lia|lia|].
  wp_run. rewrite Ho. cbv beta match. unfold upd_recv_wqe. wp_run. destruct Hold as (Hrq & Hwf & Hl).
  unfold copy_spec in Hc. rewrite Nat2Z.id, (take_ge payload), drop_all, app_nil_r in Hc by done.
  injection Hc as Hc _ _.
  eapply wp_recv_wqe; [split; [exact Hrq|by split]|]. wp_run. rewrite Nat2Z.id in Hs.
  apply (HQ _ (store_at rq (consumer_addr rq) (w <| rwqe_dma := co_dma o |>)) (w <| rwqe_dma := co_dma o |>)).
  - split; try done; cbn; [|by rewrite Hrq]. rewrite Hh, <- Hc. rewrite Hh. done.
  - split; [cbn; by rewrite Hrq|]. split; [by apply store_at_wf|]. by eapply queue_update_head.
  - done.
  - done.
  - cbn. by rewrite Hd.
  - cbn. by rewrite Hd.
  - exact Hs.
Qed.
(** The completion of the oldest receive work request. *)
Lemma wp_complete k nc qe fuel s pkt rq w later cq Q :
  oldest k s rq w later → qp_srq (es_qp s) = None → qp_qp_type (es_qp s) = IB_QPT_RC →
  resp_wqe (qp_resp (es_qp s)) = Some (rwqe_rq (consumer_addr rq)) →
  resp_status (qp_resp (es_qp s)) = IB_WC_SUCCESS → resp_state (qp_resp (es_qp s)) = QP_STATE_READY →
  rdev_cqs (es_dev s) !! qp_rcq (es_qp s) = Some cq → cq_wf nc cq → Z.of_nat (length (cq_list cq)) < nc →
  (∀ s' cq', became s s' (qp_resp (es_qp s) <| resp_wqe := None |>) (rdev_mem (es_dev s))
       (Some (advance_consumer rq)) (<[qp_rcq (es_qp s) := cq']> (rdev_cqs (es_dev s))) →
     cq_wf nc cq' → cq_list cq' = cq_list cq ++ [recv_wc (es_qp s) w pkt] →
     wp F (resp_loop qe fuel RESPST_ACKNOWLEDGE (Some pkt)) Q s') →
  wp F (resp_loop qe (S fuel) RESPST_COMPLETE (Some pkt)) Q s.
Proof using Type.
  intros Hold Hsrq Hty Hw Hst Hrs Hcq Hcwf Hroom HQ. apply wp_resp_step. cbn [resp_step]. wp_run.
  unfold do_complete. wp_run. rewrite Hw. wp_run. eapply wp_recv_wqe; [done|]. wp_run.
  rewrite Hst. change (IB_WC_SUCCESS =? IB_WC_SUCCESS) with true. cbv iota beta. wp_run. rewrite Hsrq. wp_run.
  destruct Hold as (Hrq & Hwf & Hl). rewrite Hrq. wp_run. unfold cq_post. wp_run.
  cbn [es_dev upd_field]. rewrite Hcq. wp_run.
  match goal with |- context [rxe_cq_post cq ?wc ?sol] =>
    destruct (rxe_cq_post_room nc cq wc sol Hcwf Hroom) as (cq' & ev & -> & Hwf' & Hl' & _) end.
  wp_run. apply wp_emit_cq. intros s' E1 E2 E3 E4. wp_run.
  rewrite Hrs, bool_decide_eq_false_2 by done. unfold qp_type. rewrite Hty, Z.eqb_refl.
  eapply (HQ s' cq'); [|exact Hwf'|exact Hl']. split; rewrite ?E1, ?E2; try done. split; unfold listed; rewrite ?E1, ?E2, ?E3, ?E4; done.
Qed.

(** The packet of a send that arrives in order. *)
Record send_arrives (k : Z) (rq : rxe_queue rxe_recv_wqe) (w : rxe_recv_wqe) (later : list rxe_recv_wqe)
    (addrs payload : list Z) (pkt : rxe_pkt_info) (s : eng_state) : Prop := {
  sa_opcode : pkt_opcode pkt ∈ rc_send_opcodes;
  sa_order : in_order s pkt;
  sa_incoming : incoming (pkt_opcode pkt) (pkt_psn pkt) payload pkt;
  sa_psn : 0 ≤ pkt_psn pkt < 2 ^ 24;
  sa_refs : refs_pos (rdev_mem (es_dev s));
  sa_srq : qp_srq (es_qp s) = None;
  sa_oldest : oldest k s rq w later;
  sa_wqe : flag_set (opcode_mask (pkt_opcode pkt)) RXE_START_MASK = false →
    resp_wqe (qp_resp (es_qp s)) = Some (rwqe_rq (consumer_addr rq));
  sa_mr : resp_mr (qp_resp (es_qp s)) = None;
  sa_stream : stream (rdev_mem (es_dev s)) (qp_pd (es_qp s)) IB_ACCESS_LOCAL_WRITE (rwqe_dma w)
    (dma_sge_offset (rwqe_dma w)) addrs;
  sa_fits : (length payload ≤ length addrs)%nat ∧ Z.of_nat (length payload) ≤ dma_resid (rwqe_dma w) < 2 ^ 31;
  sa_error : resp_goto_error (qp_resp (es_qp s)) = false;
  sa_alloc : es_alloc s = [];
  sa_port : ∃ port guid, rdev_ports (es_dev s) !! 0%nat = Some port ∧ port_guid_tbl port !! 0%nat = Some guid
}.

(** [len] more bytes of the receive buffers are used. *)
Record filled (len : Z) (w w' : rxe_recv_wqe) : Prop := {
  fd_id : rwqe_wr_id w' = rwqe_wr_id w;
  fd_length : dma_length (rwqe_dma w') = dma_length (rwqe_dma w);
  fd_resid : dma_resid (rwqe_dma w') = dma_resid (rwqe_dma w) - len
}.

(** The responder's information once the packet is executed. *)
Definition send_executed (pkt : rxe_pkt_info) (r : rxe_resp_info) (a : Z) : rxe_resp_info :=
  executed pkt (r <| resp_aeth_syndrome := AETH_ACK_UNLIMITED |> <| resp_sent_psn_nak := false |>
                  <| resp_wqe := Some (rwqe_rq a) |>).

(** The receive work request a packet uses. *)
Lemma send_resourced k rq w later addrs payload pkt s :
  send_arrives k rq w later addrs payload pkt s →
  let r := qp_resp (es_qp s) <| resp_aeth_syndrome := AETH_ACK_UNLIMITED |> <| resp_sent_psn_nak := false |> in
  resourced (with_rm s r (rdev_mem (es_dev s))) pkt (r <| resp_wqe := Some (rwqe_rq (consumer_addr rq)) |>).
Proof using Type.
  intros [Hop Hio Hi _ _ Hsrq (Hrq & Hwf & Hl) Hw _ _ _ _ _ _] r. pose proof (send_opcode_spec _ Hop) as Hf.
  unfold resourced. rewrite !(incoming_flag _ _ _ _ _ Hi), (so_rdatm _ Hf), (so_rwr _ Hf) by done.
  destruct (flag_set (opcode_mask (pkt_opcode pkt)) RXE_START_MASK).
  - split; [exact Hsrq|]. exists rq, (consumer_addr rq). split; [exact Hrq|]. split; [|done].
    apply (queue_head_cons k rq w later Hwf Hl).
  - specialize (Hw eq_refl). subst r. cbn [es_qp with_rm qp_resp upd_field].
    destruct (qp_resp (es_qp s)). cbn in *. by rewrite Hw.
Qed.

(** The checks of the packet succeed and its payload is stored. *)
Lemma wp_send_front depth cfuel fuel k rq w later addrs payload pkt s Q :
  send_arrives k rq w later addrs payload pkt s →
  (∀ qe s1 rq' w', became s s1 (send_executed pkt (qp_resp (es_qp s)) (consumer_addr rq))
       (with_phys (rdev_mem (es_dev s))
          (mwrite (dev_phys (rdev_mem (es_dev s))) (take (length payload) addrs) payload)) (Some rq')
       (rdev_cqs (es_dev s)) →
     oldest k s1 rq' w' later → consumer_addr rq' = consumer_addr rq →
     filled (Z.of_nat (length payload)) w w' →
     stream (rdev_mem (es_dev s)) (qp_pd (es_qp s)) IB_ACCESS_LOCAL_WRITE (rwqe_dma w')
       (dma_sge_offset (rwqe_dma w')) (drop (length payload) addrs) →
     wp F (resp_loop qe (4 + fuel) (if flag_set (opcode_mask (pkt_opcode pkt)) RXE_END_MASK
                                    then RESPST_COMPLETE else RESPST_ACKNOWLEDGE) (Some pkt)) Q s1) →
  wp F (rxe_responder depth cfuel (12 + fuel)) Q s.
Proof using Type.
  intros Ha HQ. pose proof (send_resourced _ _ _ _ _ _ _ _ Ha) as Hres.
  destruct Ha as [Hop Hio Hi Hpsn Hpos Hsrq Hold Hw Hmr Hst [Hfit Hrs] He Hal Hport].
  pose proof (send_opcode_spec _ Hop) as Hf. assert (Hfl := λ m, incoming_flag _ _ _ _ m Hi).
  assert (Hperm : op_permitted (es_qp s) pkt = true).
  { unfold op_permitted. rewrite !Hfl, (so_read _ Hf), (so_write _ Hf), (so_atomic _ Hf) by done.
    cbn [negb orb]. rewrite !andb_true_r. apply negb_true_iff, Z.eqb_neq. intros E.
    pose proof (Hfl RXE_SEND_MASK eq_refl) as Ew. rewrite (so_send _ Hf), E in Ew. discriminate. }
  eapply (wp_front F depth cfuel (6 + fuel)); [done|done|exact Hres|]. intros qe.
  apply (wp_rkey_none F qe (5 + fuel)); [by rewrite Hfl, (so_rw _ Hf)|by rewrite Hfl, (so_atomic _ Hf)|].
  apply wp_execute. unfold execute_op. wp_run. rewrite !Hfl, (so_send _ Hf) by done.
  unfold qp_type. cbn [es_qp with_rm qp_qp_type upd_field]. rewrite (io_type _ _ Hio).
  change (one_of IB_QPT_RC [IB_QPT_UD; IB_QPT_SMI; IB_QPT_GSI]) with false. cbv iota. wp_run.
  rewrite bool_decide_eq_true_2 by done.
  eapply (wp_send_data_in k _ pkt payload rq w later addrs); [done|lia|done|exact Hold|exact Hpos|exact Hst|exact Hfit|exact Hrs|].
  intros s1 rq' w' [Hu B1 B2 B3 B4 B5 B6 B7] Hold' Hca Hid Hdl Hdr Hstr. split; [done|].
  split; [rewrite (um_type _ _ Hu); apply Hio|]. rewrite (so_comp _ Hf), B6.
  eapply (HQ qe _ rq' w'); [|exact Hold'|exact Hca|by split|exact Hstr]. split; try done.
  destruct Hu. by split.
Qed.

Lemma became_staged s s1 addrs payload pkt a rq cqs :
  in_order s pkt → 0 ≤ pkt_psn pkt < 2 ^ 24 → resp_mr (qp_resp (es_qp s)) = None →
  resp_goto_error (qp_resp (es_qp s)) = false →
  became s s1 (send_executed pkt (qp_resp (es_qp s)) a)
    (with_phys (rdev_mem (es_dev s))
       (mwrite (dev_phys (rdev_mem (es_dev s))) (take (length payload) addrs) payload)) rq cqs →
  staged addrs payload pkt s s1.
Proof using Type.
  intros Hio Hp Hmr He [Hu B1 B2 B3 B4 B5 B6 B7]. split; rewrite ?B6, ?B1; try done; cbn; try apply Hio; try done.
  - by rewrite Hmr.
  - by apply psn_succ.
Qed.
End send.

(** ** One packet *)

(** The completion stage leaves what execution did. *)
Lemma staged_complete addrs payload pkt s s1 s2 rq cqs :
  staged addrs payload pkt s s1 →
  became s1 s2 (qp_resp (es_qp s1) <| resp_wqe := None |>) (rdev_mem (es_dev s1)) rq cqs →
  staged addrs payload pkt s s2.
Proof.
  intros [] [Hu B1 B2 B3 B4 B5 B6 B7]. split; rewrite ?B6, ?B1, ?B4, ?B5, ?B7; try done.
  by eapply unmoved_trans.
Qed.

(** The completion of a receive of [len] bytes that [pkt] ends. *)
Record received (q : rxe_qp) (wr_id len : Z) (pkt : rxe_pkt_info) (wc : ib_wc) : Prop := {
  rv_id : wc_wr_id wc = wr_id;
  rv_status : wc_status wc = IB_WC_SUCCESS;
  rv_opcode : wc_opcode wc = IB_WC_RECV;
  rv_len : wc_byte_len wc = len;
  rv_qp : wc_qp_num wc = qp_qp_num q;
  rv_port : wc_port_num wc = qa_port_num (qp_attr q);
  rv_imm : flag_set (opcode_mask (pkt_opcode pkt)) RXE_IMMDT_MASK = true →
    flag_set (wc_flags wc) IB_WC_WITH_IMM = true ∧ wc_imm_data wc = immdt_imm pkt
}.

Lemma recv_wc_received op psn payload pkt q w :
  incoming op psn payload pkt → op ∈ rc_send_opcodes →
  received q (rwqe_wr_id w) (u32 (dma_length (rwqe_dma w) - dma_resid (rwqe_dma w))) pkt (recv_wc q w pkt).
Proof.
  intros Hi Hop. pose proof (send_opcode_spec _ Hop) as Hf.
  assert (E : recv_wc q w pkt = recv_wc q w (pkt <| pkt_mask := opcode_mask op |>)).
  { unfold recv_wc. cbn [pkt_mask upd_field]. by rewrite !(incoming_flag _ _ _ _ _ Hi) by done. }
  rewrite E. unfold recv_wc. cbn [pkt_mask upd_field].
  rewrite (so_read _ Hf), andb_false_r. destruct Hi as [Ho _]. rewrite <- Ho in *.
  destruct (flag_set (opcode_mask (pkt_opcode pkt)) RXE_IMMDT_MASK) eqn:Em,
    (flag_set (opcode_mask (pkt_opcode pkt)) RXE_IETH_MASK) eqn:Ei,
    (flag_set (opcode_mask (pkt_opcode pkt)) RXE_DETH_MASK); split; cbn; try done.
  all: try (by rewrite Em). all: by intros _.
Qed.

Section send_packet.
Context `{Params} (Hbypass : rxe_bypass_arbiter = false) (k nc : Z).

(** The receive work request after a packet: the last one of a message
    completes it, another one leaves it for the next packet. *)
Definition after_send (w : rxe_recv_wqe) (later : list rxe_recv_wqe) (addrs payload : list Z)
    (pkt : rxe_pkt_info) (cq : rxe_cq) (s s' : eng_state) : Prop :=
  ∃ w', filled (Z.of_nat (length payload)) w w' ∧
  if flag_set (opcode_mask (pkt_opcode pkt)) RXE_END_MASK then
    ∃ rq' cq' wc, qp_rq (es_qp s') = Some rq' ∧ queue_wf k rq' ∧ queue_list rq' = later ∧
      rdev_cqs (es_dev s') = <[qp_rcq (es_qp s) := cq']> (rdev_cqs (es_dev s)) ∧ cq_wf nc cq' ∧
      cq_list cq' = cq_list cq ++ [wc] ∧
      received (es_qp s) (rwqe_wr_id w) (u32 (dma_length (rwqe_dma w') - dma_resid (rwqe_dma w'))) pkt wc ∧
      resp_wqe (qp_resp (es_qp s')) = None
  else
    ∃ rq', oldest k s' rq' w' later ∧ rdev_cqs (es_dev s') = rdev_cqs (es_dev s) ∧
      resp_wqe (qp_resp (es_qp s')) = Some (rwqe_rq (consumer_addr rq')) ∧
      stream (rdev_mem (es_dev s)) (qp_pd (es_qp s)) IB_ACCESS_LOCAL_WRITE (rwqe_dma w')
        (dma_sge_offset (rwqe_dma w')) (drop (length payload) addrs).

Lemma wp_send_arrival depth cfuel fuel rq w later addrs payload pkt cq s :
  send_arrives k rq w later addrs payload pkt s →
  rdev_cqs (es_dev s) !! qp_rcq (es_qp s) = Some cq → cq_wf nc cq → Z.of_nat (length (cq_list cq)) < nc →
  wp False (rxe_responder depth cfuel (12 + fuel)) (λ r s', r = Ok tt ∧ took addrs payload pkt s s' ∧
    resp_mr (qp_resp (es_qp s')) = None ∧ after_send w later addrs payload pkt cq s s') s.
Proof using Hbypass.
  intros Ha Hcq Hcwf Hroom. apply (wp_send_front False depth cfuel fuel k rq w later addrs payload pkt); [done|].
  intros qe s1 rq' w' Hb Hold Hca Hfd Hstr.
  destruct Ha as [Hop Hio Hi Hpsn _ Hsrq _ _ Hmr _ _ He Hal Hport]. pose proof (send_opcode_spec _ Hop) as Hf.
  pose proof (became_staged _ _ _ _ _ _ _ _ Hio Hpsn Hmr He Hb) as Hsg.
  assert (Hne : qp_req_pkts (es_qp s) ≠ []).
  { pose proof (io_head _ _ Hio) as Hh. by intros E; rewrite E in Hh. }
  destruct Hb as [Hu B1 B2 B3 B4 B5 B6 B7]. unfold after_send.
  destruct (flag_set (opcode_mask (pkt_opcode pkt)) RXE_END_MASK).
  - eapply (wp_complete False k nc qe (3 + fuel) s1 pkt rq' w' later cq); [done|..].
    + by rewrite (um_srq _ _ Hu).
    + rewrite (um_type _ _ Hu). apply Hio.
    + by rewrite B6, Hca.
    + by rewrite B6.
    + rewrite B6. apply Hio.
    + by rewrite (um_rcq _ _ Hu), B2.
    + done.
    + done.
    + intros s2 cq' Hb2 Hwf' Hl'. pose proof (staged_complete _ _ _ _ _ _ _ _ Hsg Hb2) as Hsg2.
      destruct Hb2 as [Hu2 C1 C2 C3 C4 C5 C6 C7].
      eapply (wp_finish Hbypass qe fuel addrs payload _ _ pkt _ s); [done|done|apply Hf|apply Hio|apply Hf|done..|].
      intros s' Htk Ec Er Ers. split; [done|]. split; [done|]. split; [by rewrite Ers|].
      exists w'. split; [done|]. exists (advance_consumer rq'), cq', (recv_wc (es_qp s1) w' pkt).
      destruct Hold as (_ & Hwf & Hl). destruct (queue_head_cons k rq' w' later Hwf Hl) as (_ & _ & Hwa & Hla).
      rewrite Er, Ec, C3, C2, B2, (um_rcq _ _ Hu), Ers, C6. do 6 (split; [done|]). split; [|done].
      destruct (recv_wc_received _ _ _ _ (es_qp s1) w' Hi Hop) as [R1 R2 R3 R4 R5 R6 R7].
      split; try done; [by rewrite R1; apply Hfd|by rewrite R5; apply Hu|by rewrite R6; rewrite (um_attr _ _ Hu)].
  - eapply (wp_finish Hbypass qe (1 + fuel) addrs payload _ _ pkt _ s); [done|done|apply Hf|apply Hio|apply Hf|done..|].
    intros s' Htk Ec Er Ers. split; [done|]. split; [done|]. split; [by rewrite Ers|].
    exists w'. split; [done|]. exists rq'. split; [destruct Hold; split; [by rewrite Er|done]|].
    rewrite Ec, B2, Ers, B6, Hca. split; [done|]. split; [done|]. exact Hstr.
Qed.
End send_packet.

(** ** A send *)

Lemma send_ops_opcode wr ops i n :
  one_of wr [IB_WR_SEND; IB_WR_SEND_WITH_IMM] = true → rc_opcodes wr = Some ops → (i < n)%nat →
  message_opcode ops i n ∈ rc_send_opcodes ∧
  flag_set (opcode_mask (message_opcode ops i n)) RXE_START_MASK = (i =? 0)%nat ∧
  flag_set (opcode_mask (message_opcode ops i n)) RXE_END_MASK = (S i =? n)%nat ∧
  flag_set (opcode_mask (message_opcode ops (n - 1) n)) RXE_IMMDT_MASK = (wr =? IB_WR_SEND_WITH_IMM).
Proof.
  intros Hwr Hops Hi. unfold one_of in Hwr. cbn [existsb] in Hwr. rewrite orb_false_r, orb_true_iff, !Z.eqb_eq in Hwr.
  unfold message_opcode.
  destruct Hwr as [-> | ->]; injection Hops as <-;
    destruct (Nat.eqb_spec n 1), (Nat.eqb_spec i 0), (Nat.eqb_spec (S i) n), (Nat.eqb_spec (n - 1) 0),
      (Nat.eqb_spec (S (n - 1)) n); try lia;
    (split; [apply list_elem_of_In; vm_compute; tauto|vm_compute; done]).
Qed.

Lemma took_ext addrs addrs' payload pkt s s' :
  take (length payload) addrs = take (length payload) addrs' →
  took addrs payload pkt s s' → took addrs' payload pkt s s'.
Proof. intros E []. split; try done. by rewrite <- E. Qed.

Section send_message.
Context `{Params} (Hbypass : rxe_bypass_arbiter = false).
Context (s0 : eng_state) (wr : Z) (ops : Z * Z * Z * Z) (psn0 k nc : Z) (addrs spare data : list Z).
Context (pkts : list rxe_pkt_info) (rq0 : rxe_queue rxe_recv_wqe) (w0 : rxe_recv_wqe).
Context (later : list rxe_recv_wqe) (cq0 : rxe_cq).

Local Abbreviation dev0 := (rdev_mem (es_dev s0)).
Local Abbreviation mtu := (qp_mtu_bytes (es_qp s0)).
Local Abbreviation total := (Z.of_nat (length data)).
Local Abbreviation n := (packets total mtu).

(** The oldest receive work request has room for the message, and so has the
    receive completion queue: [addrs] are the first bytes of its buffers. *)
Record ready_to_receive : Prop := {
  rr_receptive : receptive s0;
  rr_srq : qp_srq (es_qp s0) = None;
  rr_mr : resp_mr (qp_resp (es_qp s0)) = None;
  rr_oldest : oldest k s0 rq0 w0 later;
  rr_stream : stream dev0 (qp_pd (es_qp s0)) IB_ACCESS_LOCAL_WRITE (rwqe_dma w0)
    (dma_sge_offset (rwqe_dma w0)) (addrs ++ spare);
  rr_resid : total ≤ dma_resid (rwqe_dma w0) < 2 ^ 31;
  rr_fresh : dma_length (rwqe_dma w0) = dma_resid (rwqe_dma w0);
  rr_cq : rdev_cqs (es_dev s0) !! qp_rcq (es_qp s0) = Some cq0;
  rr_cq_wf : cq_wf nc cq0;
  rr_room : Z.of_nat (length (cq_list cq0)) < nc
}.

(** The receive work request is complete. *)
Record send_done (s : eng_state) (wc : ib_wc) : Prop := {
  sd_rq : ∃ rq, qp_rq (es_qp s) = Some rq ∧ queue_wf k rq ∧ queue_list rq = later;
  sd_cqs : ∃ cq, rdev_cqs (es_dev s) = <[qp_rcq (es_qp s0) := cq]> (rdev_cqs (es_dev s0)) ∧
    cq_wf nc cq ∧ cq_list cq = cq_list cq0 ++ [wc];
  sd_wc : ∃ pkt, pkts !! (n - 1)%nat = Some pkt ∧ received (es_qp s0) (rwqe_wr_id w0) total pkt wc;
  sd_wqe : resp_wqe (qp_resp (es_qp s)) = None
}.

(** The first [i] packets are in the receive buffers. *)
Record receiving (i : nat) (s : eng_state) : Prop := {
  rg_delivered : delivered s0 ops psn0 addrs data pkts i s;
  rg_mr : resp_mr (qp_resp (es_qp s)) = None;
  rg_wqe : if (i <? n)%nat then
      ∃ rq w, oldest k s rq w later ∧ rdev_cqs (es_dev s) = rdev_cqs (es_dev s0) ∧
        filled (Z.of_nat i * mtu) w0 w ∧
        (i ≠ 0%nat → resp_wqe (qp_resp (es_qp s)) = Some (rwqe_rq (consumer_addr rq))) ∧
        stream dev0 (qp_pd (es_qp s0)) IB_ACCESS_LOCAL_WRITE (rwqe_dma w) (dma_sge_offset (rwqe_dma w))
          (drop (i * Z.to_nat mtu) addrs ++ spare)
    else ∃ wc, send_done s wc
}.

Context (Hops : rc_opcodes wr = Some ops) (Hwr : one_of wr [IB_WR_SEND; IB_WR_SEND_WITH_IMM] = true).
Context (Hpk : message_packets s0 ops psn0 data pkts) (Hrr : ready_to_receive).
Context (Haddrs : length addrs = length data).

Lemma receiving_arrives i s pkt rq w :
  pkts !! i = Some pkt → delivered s0 ops psn0 addrs data pkts i s → resp_mr (qp_resp (es_qp s)) = None →
  oldest k s rq w later → filled (Z.of_nat i * mtu) w0 w →
  (i ≠ 0%nat → resp_wqe (qp_resp (es_qp s)) = Some (rwqe_rq (consumer_addr rq))) →
  stream dev0 (qp_pd (es_qp s0)) IB_ACCESS_LOCAL_WRITE (rwqe_dma w) (dma_sge_offset (rwqe_dma w))
    (drop (i * Z.to_nat mtu) addrs ++ spare) →
  send_arrives k rq w later (drop (i * Z.to_nat mtu) addrs ++ spare) (chunk mtu data i) pkt s.
Proof using Hops Hwr Hpk Hrr Haddrs.
  intros Hpkt Hdl Hmr Hold Hfd Hw Hst. pose proof Hpk as [Hn Hall]. pose proof (Hall _ _ Hpkt) as Hin.
  apply lookup_lt_Some in Hpkt as Hi. rewrite Hn in Hi. pose proof (rr_receptive Hrr) as Hrc.
  pose proof (rc_mtu _ Hrc) as Hmt.
  destruct (chunk_length mtu data i ltac:(lia) Hi) as (Hcl & _ & Hoff).
  destruct (send_ops_opcode wr ops i n Hwr Hops Hi) as (Hso & Hstart & _ & _).
  pose proof (ic_opcode _ _ _ _ Hin) as Eo. pose proof (ic_psn _ _ _ _ Hin) as Ep.
  pose proof (dl_unmoved _ _ _ _ _ _ _ _ Hdl) as [U1 U2 U3 U4 U5 U6 U7 U8].
  split; rewrite ?Eo, ?Ep, ?U1, ?U2, ?U7, ?U8; try (done || apply Hrc || apply Hdl || apply Hrr).
  - eapply (delivered_in_order s0 wr ops); done.
  - apply Z.mod_pos_bound. lia.
  - rewrite (dl_mem _ _ _ _ _ _ _ _ Hdl). apply refs_pos_phys, Hrc.
  - rewrite Hstart. intros Hz%Nat.eqb_neq. by apply Hw.
  - rewrite (dl_mem _ _ _ _ _ _ _ _ Hdl). by apply stream_phys.
  - pose proof (rr_resid Hrr). rewrite (fd_resid _ _ _ Hfd), length_app, length_drop.
    assert (Z.of_nat (i * Z.to_nat mtu) = Z.of_nat i * mtu) by lia. lia.
Qed.

(** What the packet leaves is what the next one needs. *)
Lemma after_receiving i s s' pkt rq w :
  pkts !! i = Some pkt → delivered s0 ops psn0 addrs data pkts i s →
  oldest k s rq w later → rdev_cqs (es_dev s) = rdev_cqs (es_dev s0) → filled (Z.of_nat i * mtu) w0 w →
  delivered s0 ops psn0 addrs data pkts (S i) s' → resp_mr (qp_resp (es_qp s')) = None →
  after_send k nc w later (drop (i * Z.to_nat mtu) addrs ++ spare) (chunk mtu data i) pkt cq0 s s' →
  receiving (S i) s'.
Proof using Hops Hwr Hpk Hrr Haddrs.
  intros Hpkt Hdl Hold Hcqs Hfd Hdl' Hmr' (w' & Hfd' & Haf). split; [done|done|].
  pose proof Hpk as [Hn Hall]. pose proof (Hall _ _ Hpkt) as Hin.
  apply lookup_lt_Some in Hpkt as Hi. rewrite Hn in Hi. pose proof (rc_mtu _ (rr_receptive Hrr)) as Hmt.
  destruct (chunk_length mtu data i ltac:(lia) Hi) as (Hcl & _ & Hoff).
  destruct (send_ops_opcode wr ops i n Hwr Hops Hi) as (_ & _ & Hend & _).
  rewrite (ic_opcode _ _ _ _ Hin), Hend in Haf. pose proof (rr_resid Hrr).
  destruct (packets_last total mtu ltac:(lia) ltac:(lia) i Hi) as [Hlast _].
  pose proof (dl_unmoved _ _ _ _ _ _ _ _ Hdl) as [U1 U2 U3 U4 U5 U6 U7 U8 U9 U10 U11].
  destruct Hfd as [G1 G2 G3], Hfd' as [D1 D2 D3].
  destruct (Nat.eqb_spec (S i) n) as [He|He]; destruct (Nat.ltb_spec (S i) n); try lia.
  - destruct Haf as (rq' & cq' & wc & Hrq' & Hwf' & Hl' & Hc' & Hcw' & Hcl' & [R1 R2 R3 R4 R5 R6 R7] & Hwq').
    exists wc. split; [by exists rq'|exists cq'; by rewrite Hc', Hcqs, U9| |done].
    exists pkt. split; [by replace (n - 1)%nat with i by lia|]. split; try done; try congruence.
    rewrite R4, D2, G2, D3, G3, (rr_fresh Hrr), Hcl. rewrite u32_small; lia.
  - destruct Haf as (rq' & Hold' & Hc' & Hwq' & Hst').
    assert (Hfull : Z.of_nat (length (chunk mtu data i)) = mtu) by lia.
    exists rq', w'. split; [done|]. split; [congruence|]. split; [split; [congruence..|lia]|].
    split; [done|]. rewrite (dl_mem _ _ _ _ _ _ _ _ Hdl), U7, drop_app_le, drop_drop in Hst'
      by (rewrite length_drop; lia).
    apply (stream_phys _ _ _ _ _ _ (dev_phys dev0)) in Hst'.
    replace (S i * Z.to_nat mtu)%nat with (i * Z.to_nat mtu + length (chunk mtu data i))%nat by lia.
    by rewrite <- (with_phys_id dev0).
Qed.

Lemma send_step depth cfuel fuel i s :
  (i < n)%nat → receiving i s →
  wp False (rxe_responder depth cfuel (12 + fuel)) (λ r s', r = Ok tt ∧ receiving (S i) s') s.
Proof using Hbypass Hops Hwr Hpk Hrr Haddrs.
  intros Hi [Hdl Hmr Hw]. pose proof Hpk as [Hn Hall]. destruct (lookup_lt_is_Some_2 pkts i) as [pkt Hpkt]; [lia|].
  apply Nat.ltb_lt in Hi as Hib. rewrite Hib in Hw. destruct Hw as (rq & w & Hold & Hcqs & Hfd & Hwq & Hst).
  pose proof (receiving_arrives i s pkt rq w Hpkt Hdl Hmr Hold Hfd Hwq Hst) as Ha.
  pose proof (rr_receptive Hrr) as Hrc. pose proof (rc_mtu _ Hrc) as Hmt.
  destruct (chunk_length mtu data i ltac:(lia) Hi) as (Hcl & _ & Hoff).
  pose proof (dl_unmoved _ _ _ _ _ _ _ _ Hdl) as Hu.
  eapply wp_mono; [eapply (wp_send_arrival Hbypass k nc depth cfuel fuel rq w later); [exact Ha| |apply Hrr|apply Hrr]|].
  - rewrite Hcqs, (um_rcq _ _ Hu). apply Hrr.
  - intros r s' (-> & Htk & Hmr' & Haf). split; [done|]. eapply after_receiving; try done.
    eapply took_delivered; try done. eapply took_ext; [|exact Htk].
    apply take_app_le. rewrite length_drop. lia.
Qed.

Lemma send_taken depth cfuel fuel :
  awaiting s0 psn0 pkts →
  ∃ s' acks wc, __rxe_do_task (rxe_responder depth cfuel (12 + fuel)) (S n) s0 = Some (tt, s') ∧
    message_done s0 psn0 addrs data pkts s' acks ∧ send_done s' wc ∧
    (wr = IB_WR_SEND_WITH_IMM → flag_set (wc_flags wc) IB_WC_WITH_IMM = true ∧
       immdt_imm <$> pkts !! (n - 1)%nat = Some (wc_imm_data wc)).
Proof using Hbypass Hops Hwr Hpk Hrr Haddrs.
  intros Haw. pose proof Hrr as [Hrc _ Hmr Hold Hst _ _ _ _ _]. pose proof (packets_pos total mtu) as Hpos.
  destruct (task_delivers s0 ops psn0 addrs data pkts Hpk Hrc Haddrs depth cfuel (10 + fuel) receiving)
    as (s & s' & acks & E & Hd & [_ _ Hw] & ->).
  - intros i s. apply rg_delivered.
  - intros i s. apply send_step.
  - split; [by apply awaiting_delivered|done|]. apply Nat.ltb_lt in Hpos. rewrite Hpos. exists rq0, w0.
    split; [done|]. split; [done|]. split; [split; try done; lia|]. split; [done|]. exact Hst.
  - rewrite Nat.ltb_irrefl in Hw. destruct Hw as [wc Hw]. eexists _, acks, wc.
    split; [exact E|]. split; [exact Hd|]. split; [destruct Hw; by split|].
    intros ->. destruct Hw as [_ _ (pkt & Hl & Hrv) _]. rewrite Hl. cbn [fmap option_fmap option_map].
    pose proof Hpk as [_ Hall].
    destruct (send_ops_opcode _ ops 0 n Hwr Hops Hpos) as (_ & _ & _ & Him).
    destruct (rv_imm _ _ _ _ _ Hrv) as [F1 F2]; [by rewrite (ic_opcode _ _ _ _ (Hall _ _ Hl)), Him|].
    split; [exact F1|]. by rewrite F2.
Qed.

(** C6: the packets of a send on a reliable connection that arrive in order
    are all taken by one run of the responder's task, which then stops: the
    data fills the buffers of the oldest receive work request from their start,
    across scatter entries and pages, and no other byte of memory has changed;
    that request is removed from the receive queue, the next ones wait in
    order, and exactly one completion is appended to the receive completion
    queue, with the request's identifier, the length of the message and the
    immediate data of a send that has some; the packets that asked for an
    acknowledgement got one. *)
Theorem responder_send depth cfuel fuel :
  awaiting s0 psn0 pkts →
  ∃ s' acks wc, __rxe_do_task (rxe_responder depth cfuel (12 + fuel)) (S n) s0 = Some (tt, s') ∧
    message_done s0 psn0 addrs data pkts s' acks ∧ send_done s' wc ∧
    (wr = IB_WR_SEND_WITH_IMM → flag_set (wc_flags wc) IB_WC_WITH_IMM = true ∧
       immdt_imm <$> pkts !! (n - 1)%nat = Some (wc_imm_data wc)).
Proof using Hbypass Hops Hwr Hpk Hrr Haddrs. apply send_taken. Qed.
End send_message.

(** ** Example: a send of five bytes with immediate data, in two packets *)

Definition example_send_packets : list rxe_pkt_info :=
  [example_request IB_OPCODE_RC_SEND_FIRST 7 0 id [11; 12; 13; 14];
   example_request IB_OPCODE_RC_SEND_LAST_WITH_IMMEDIATE 8 1 (λ p, immdt_set_imm p 0xabcd) [15]].

Definition example_rwqe (id : Z) : rxe_recv_wqe := RecvWqe id 3 example_dma.

Definition example_rq : rxe_queue rxe_recv_wqe :=
  Queue (QueueBuf 8 3 2 0 (example_rwqe <$> [70; 71; 0; 0])) 9 None 1408 200 8 3.

Lemma responder_send_witness :
  let s0 := example_es (example_responder example_send_packets 7 <| qp_rq := Some example_rq |>) in
  ∃ s' wc, __rxe_do_task (rxe_responder (H := example_params) 0 0 12) 3 s0 = Some (tt, s') ∧
    mread (dev_phys (rdev_mem (es_dev s'))) <$> [101; 102; 103; 200; 201; 202; 203]
      = [11; 12; 4; 13; 14; 15; 8] ∧
    (∃ cq, rdev_cqs (es_dev s') = <[1 := cq]> {[1 := example_cq 0]} ∧ cq_list cq = [wc]) ∧
    wc_wr_id wc = 70 ∧ wc_byte_len wc = 5 ∧ wc_imm_data wc = 0xabcd ∧
    (∃ rq, qp_rq (es_qp s') = Some rq ∧ queue_list rq = [example_rwqe 71]).
Proof.
  intros s0.
  destruct (responder_send (H := example_params) eq_refl s0 IB_WR_SEND_WITH_IMM
    (IB_OPCODE_RC_SEND_FIRST, IB_OPCODE_RC_SEND_MIDDLE, IB_OPCODE_RC_SEND_LAST_WITH_IMMEDIATE,
     IB_OPCODE_RC_SEND_ONLY_WITH_IMMEDIATE) 7 2 3 [101; 102; 200; 201; 202] [203] [11; 12; 13; 14; 15]
    example_send_packets example_rq (example_rwqe 70) [example_rwqe 71] (example_cq 0))
    with (depth := 0%nat) (cfuel := 0%nat) (fuel := 0%nat)
    as (s' & acks & wc & E & [Hm _ _ _ _ _ _] & [(rq & Hrq & _ & Hrl) (cq & Hcq & _ & Hcl) (pkt & _ & Hwc) _] & Himm).
  - reflexivity.
  - reflexivity.
  - split; [reflexivity|]. intros [|[|i]] pkt Hi; [injection Hi as <-..|done];
      (split; try (vm_compute; (reflexivity || discriminate)); eexists; split; [by left|vm_compute; reflexivity]).
  - split; try reflexivity.
    + split; try reflexivity; [cbn; lia|apply example_refs_pos|eexists _, _; done].
    + split; [reflexivity|]. split; [|reflexivity]. repeat split; cbn; lia.
    + apply example_stream. by right.
    + done.
    + apply example_cq_wf.
  - reflexivity.
  - by split.
  - exists s', wc. split; [exact E|]. rewrite Hm. split; [vm_compute; reflexivity|].
    split; [exists cq; split; [exact Hcq|exact Hcl]|]. destruct Hwc as [W1 _ _ W4 _ _ _].
    split; [exact W1|]. split; [exact W4|]. destruct (Himm eq_refl) as [_ Hi]. injection Hi as Hi.
    split; [rewrite <- Hi; vm_compute; reflexivity|]. exists rq. split; [exact Hrq|exact Hrl].
Defined.
