(* ===== verification/DeliverRead.v ===== *)
(** * RDMA reads at the responder (rxe_resp.c)

    A read request that arrives in order is answered with the bytes of the
    range it names, one response packet per call of the task function. *)

From stdpp Require Import gmap.
From S2P Require Import Prelude Bits Queue Opcode Hdr Verbs Icrc Mr Sge Cq State Comp Arbiter Req ReqPacket.
From S2P Require Import Message Resp Ack RespSteps Deliver DeliverWrite.

(** ** Response packets *)

Definition read_ops : Z * Z * Z * Z :=
  (IB_OPCODE_RC_RDMA_READ_RESPONSE_FIRST, IB_OPCODE_RC_RDMA_READ_RESPONSE_MIDDLE,
   IB_OPCODE_RC_RDMA_READ_RESPONSE_LAST, IB_OPCODE_RC_RDMA_READ_RESPONSE_ONLY).

Lemma read_ops_answer i n : message_opcode read_ops i n ∈ answer_opcodes.
Proof. unfold message_opcode, read_ops. repeat case_match; apply list_elem_of_In; vm_compute; tauto. Qed.

(** A response to [req] with the sequence number [psn] that carries [bytes]. *)
Record reply (q : rxe_qp) (req : rxe_pkt_info) (op psn : Z) (bytes : list Z) (pkt : rxe_pkt_info) : Prop := {
  rp_answer : answer q req op (Z.of_nat (length bytes)) psn AETH_ACK_UNLIMITED pkt;
  rp_bytes : pkt_bytes pkt (payload_addr pkt) (Z.of_nat (length bytes)) = bytes
}.

Lemma fill_read_above `{Params} pkt bytes payload :
  0 ≤ payload → 0 ≤ payload_addr pkt →
  let pkt1 := pkt <| pkt_hdr ::= (λ h, put_bytes h (payload_addr pkt) bytes) |> in
  above (payload_addr pkt) pkt (fill_read_packet pkt bytes payload) ∧
  above (payload_addr pkt + payload) pkt1 (fill_read_packet pkt bytes payload).
Proof.
  intros Hp Ho pkt1. pose proof (pad_range payload) as Hpad.
  assert (Ha : above (payload_addr pkt + payload) pkt1 (fill_read_packet pkt bytes payload)).
  { unfold fill_read_packet. fold pkt1. set (pkt2 := pkt1 <| pkt_hdr ::= _ |>).
    eapply (above_trans _ _ pkt2); [apply above_put; lia|].
    destruct rxe_crc_disable; [apply above_refl|]. unfold store_u8. apply above_store. lia. }
  split; [|done]. eapply (above_trans _ _ pkt1); [apply above_put; lia|]. eapply above_weaken; [|exact Ha]. lia.
Qed.

Lemma fill_read_reply `{Params} q req op psn bytes pkt :
  op ∈ answer_opcodes → answer q req op (Z.of_nat (length bytes)) psn AETH_ACK_UNLIMITED pkt →
  reply q req op psn bytes (fill_read_packet pkt bytes (Z.of_nat (length bytes))).
Proof.
  intros Hop Ha. pose proof (answer_opcode_spec op Hop) as Hf.
  assert (Epa : payload_addr pkt = RXE_GRH_BYTES + opcode_length op).
  { unfold payload_addr, ext_offset. by rewrite (an_opcode _ _ _ _ _ _ _ Ha), (an_offset _ _ _ _ _ _ _ Ha), (ao_payload _ Hf). }
  assert (Hpa : 0 ≤ payload_addr pkt) by (rewrite Epa; destruct Hf; unfold RXE_GRH_BYTES; lia).
  destruct (fill_read_above pkt bytes (Z.of_nat (length bytes))) as [A1 A2]; [lia|done|].
  set (pkt' := fill_read_packet _ _ _) in *. split; [by eapply answer_above|].
  assert (Hpa' : payload_addr pkt' = payload_addr pkt) by (by rewrite (above_meta _ _ _ A1)).
  unfold pkt_bytes. rewrite Hpa', Nat2Z.id.
  rewrite (take_drop_frame _ (put_bytes (pkt_hdr pkt) (payload_addr pkt) bytes)).
  - apply put_bytes_get; [done|]. pose proof (an_length _ _ _ _ _ _ _ Ha) as Hl. rewrite (an_paylen _ _ _ _ _ _ _ Ha) in Hl.
    pose proof (pad_range (Z.of_nat (length bytes))). unfold RXE_ICRC_SIZE in Hl. rewrite Epa. lia.
  - done.
  - exact (above_length _ _ _ A2).
  - intros p Hp. apply (above_byte _ _ _ A2). lia.
Qed.

(** ** One response *)

(** [s'] is [s] up to the responder's information, the packets waiting to be
    sent and what goes with them. *)
Record kept (s s' : eng_state) (r : rxe_resp_info) : Prop := {
  kp_unmoved : unmoved s s';
  kp_mem : rdev_mem (es_dev s') = rdev_mem (es_dev s);
  kp_cqs : rdev_cqs (es_dev s') = rdev_cqs (es_dev s);
  kp_rq : qp_rq (es_qp s') = qp_rq (es_qp s);
  kp_ref : qp_ref (es_qp s') = qp_ref (es_qp s);
  kp_pkts : qp_req_pkts (es_qp s') = qp_req_pkts (es_qp s);
  kp_resp : qp_resp (es_qp s') = r
}.

Lemma kept_refl s : kept s s (qp_resp (es_qp s)).
Proof. done. Qed.

Lemma kept_upd s s' r f :
  kept s s' r → kept s (s' <| es_qp ::= λ q, q <| qp_resp ::= f |> |>) (f r).
Proof. intros [U ? ? ? ? ? <-]. split; try done. destruct U. by split. Qed.

Lemma kept_quiet s s1 s2 r : kept s s1 r → quiet s1 s2 → kept s s2 r.
Proof. intros [] []. split; try congruence. by eapply unmoved_trans. Qed.

Lemma kept_phys s s' r :
  kept s s' r → kept s (s' <| es_dev ::= λ d, d <| rdev_mem ::= λ md,
    md <| dev_phys := dev_phys (rdev_mem (es_dev s)) |> |> |>) r.
Proof.
  intros [U Hm ? ? ? ? ?]. split; try done; [destruct U; by split|]. cbn. rewrite Hm. by destruct (rdev_mem (es_dev s)).
Qed.

(** An answer has room for its payload. *)
Lemma answer_room q req op payload psn syndrome ack :
  op ∈ answer_opcodes → 0 ≤ payload → answer q req op payload psn syndrome ack →
  Z.of_nat (length (pkt_bytes ack (payload_addr ack) payload)) = payload.
Proof.
  intros Hop Hp Ha. pose proof (answer_opcode_spec op Hop) as Hf. pose proof (pad_range payload).
  pose proof (an_length _ _ _ _ _ _ _ Ha) as Hl. rewrite (an_paylen _ _ _ _ _ _ _ Ha) in Hl.
  unfold pkt_bytes, payload_addr, ext_offset.
  rewrite (an_opcode _ _ _ _ _ _ _ Ha), (an_offset _ _ _ _ _ _ _ Ha), (ao_payload _ Hf), length_take, length_drop.
  destruct Hf. unfold RXE_ICRC_SIZE, RXE_GRH_BYTES in *. lia.
Qed.

(** Two updates of one resource. *)
Lemma upd_resources_twice (r : rxe_resp_info) i l res f g :
  resp_resources r = Some l → l !! i = Some res →
  r <| resp_resources ::= option_map (alter f i) |> <| resp_resources ::= option_map (alter g i) |>
  = r <| resp_resources := Some (<[i := g (f res)]> l) |>.
Proof.
  intros Hl Hi. destruct r. cbn in *. subst. unfold upd_field. cbn. do 2 f_equal.
  revert i Hi. induction l as [|x l IH]; intros [|i] Hi; cbn in *; [done..|by injection Hi as ->|]. f_equal. by apply IH.
Qed.

Section read.
Context `{Params} (Hbypass : rxe_bypass_arbiter = false).

Lemma wp_get_res F i l res Q s :
  resp_resources (qp_resp (es_qp s)) = Some l → l !! i = Some res → Q res s → wp F (get_res i) Q s.
Proof using Type. intros Hl Hi HQ. unfold get_res. wp_run. rewrite Hl. wp_run. rewrite Hi. by wp_run. Qed.

(** A resource that answers a read of [total] bytes at [va], of which [off]
    have been sent. *)
Record answering (i : nat) (h : mem_handle) (va total off psn : Z) (addrs : list Z) (r : rxe_resp_info)
    (dev : mem_dev) (l : list resp_res) (res : resp_res) : Prop := {
  rs_cur : resp_cur_res r = Some i;
  rs_list : resp_resources r = Some l;
  rs_res : l !! i = Some res;
  rs_ptr : res_ptr res = res_mr h;
  rs_va : res_va res = va + off;
  rs_resid : res_resid res = total - off;
  rs_cur_psn : res_cur_psn res = psn;
  rs_psn_range : 0 ≤ psn < 2 ^ 24;
  rs_region : ∃ m, pool_of dev h.1 !! h.2 = Some m ∧ in_use va total addrs m;
  rs_addrs : Z.of_nat (length addrs) = total;
  rs_range : 0 ≤ va ∧ va + total < 2 ^ 64 ∧ 0 ≤ off < total ∧ total < 2 ^ 31
}.

Definition reply_length (total off mtu : Z) : Z := Z.min (total - off) mtu.

(** The resource and the responder's information after a response. *)
Definition reply_res (va total off mtu : Z) (res : resp_res) : resp_res :=
  let len := reply_length total off mtu in
  res <| res_state := rdatm_res_state_next |> <| res_va := va + off + len |>
      <| res_resid := total - off - len |> <| res_cur_psn := (res_cur_psn res + 1) mod 2 ^ 24 |>.

Definition reply_resp (i : nat) (l : list resp_res) (va total off mtu : Z) (res : resp_res) (r : rxe_resp_info)
    : rxe_resp_info :=
  let res := reply_res va total off mtu res in
  let r := r <| resp_resources := Some (<[i := res]> l) |> in
  if off + reply_length total off mtu <? total then r
  else r <| resp_cur_res := None |> <| resp_opcode := -1 |> <| resp_psn := res_cur_psn res |>.

Lemma wp_read_reply F i h va total off psn addrs l res req s Q :
  answering i h va total off psn addrs (qp_resp (es_qp s)) (rdev_mem (es_dev s)) l res →
  let mtu := qp_mtu_bytes (es_qp s) in
  let len := reply_length total off mtu in
  0 < mtu ≤ 2 ^ 13 → es_alloc s = [] → answerable (es_dev s) req →
  read_opcode res mtu ∈ answer_opcodes →
  (∀ s' pkt, kept s s' (reply_resp i l va total off mtu res (qp_resp (es_qp s))) →
     qp_send_pkts (es_qp s') = qp_send_pkts (es_qp s) ++ [pkt] →
     reply (es_qp s) req (read_opcode res mtu) psn
       (mread (dev_phys (rdev_mem (es_dev s))) <$> take (Z.to_nat len) (drop (Z.to_nat off) addrs)) pkt →
     Q (if off + len <? total then RESPST_DONE else RESPST_CLEANUP) s') →
  wp F (read_reply req) Q s.
Proof using Hbypass.
  intros [Hcur Hl Hres Hptr Hva Hrs Hps Hpr (m & Hm & [_ Hcp]) Hla (Hv0 & Hvt & Ho & Ht)] mtu len Hmtu Hal Han Hop HQ.
  unfold read_reply. wp_run. rewrite Hcur. wp_run. eapply wp_get_res; [done|done|]. wp_run.
  unfold upd_res at 1. wp_run.
  set (s1 := s <| es_qp ::= _ |>). pose proof (kept_upd s s _ (λ r, r <| resp_resources ::=
    option_map (alter (λ res, res <| res_state := rdatm_res_state_next |>) i) |>) (kept_refl s)) as K1. fold s1 in K1.
  rewrite Hrs, (s32_small (total - off)) by lia. fold mtu. change (Z.min (total - off) mtu) with len.
  assert (Hlen : 0 < len ∧ off + len ≤ total ∧ len ≤ 2 ^ 13) by (unfold len, reply_length; lia).
  destruct (Z.ltb_spec len 0); [lia|]. wp_run.
  apply wp_prepare_ack; [exact Hop|lia|exact Hal|exact Han|]. intros ack s2 Ha Hq2 Hs2. wp_run. rewrite Hptr. wp_run.
  pose proof (kept_quiet _ _ _ _ K1 Hq2) as K2. unfold eng_mem_copy, mem_get. wp_run.
  rewrite (kp_mem _ _ _ K2), Hm. wp_run. rewrite (kp_mem _ _ _ K2), Hva.
  set (data := mread _ <$> take (Z.to_nat len) (drop (Z.to_nat off) addrs)) in HQ.
  pose proof (answer_room _ _ _ len _ _ _ Hop ltac:(lia) Ha) as Hroom.
  rewrite (Hcp direction_out off (pkt_bytes ack (payload_addr ack) len) len) by lia. unfold copy_spec. rewrite (drop_ge (pkt_bytes _ _ _)), app_nil_r by lia.
  wp_run. pose proof (kept_phys _ _ _ K2) as K3. set (s3 := s2 <| es_dev ::= _ |>) in *.
  unfold upd_res. wp_run. pose proof (kept_upd _ _ _ (λ r, r <| resp_resources ::= option_map (alter (λ res0,
    res0 <| res_va ::= (λ n, u64 (n + len)) |> <| res_resid ::= (λ n, u32 (n - len)) |>
         <| res_cur_psn ::= (λ n, u32 (n + 1) .& BTH_PSN_MASK) |>) i) |>) K3) as K4.
  set (s4 := s3 <| es_qp ::= _ |>) in *.
  assert (Hs4 : qp_send_pkts (es_qp s4) = qp_send_pkts (es_qp s)).
  { unfold s4, s3. cbn. rewrite Hs2. done. }
  clearbody s4. apply (wp_send_answer Hbypass). intros s5 Hq5 Hs5. pose proof (kept_quiet _ _ _ _ K4 Hq5) as K5. wp_run.
  cbv beta in K5. rewrite (upd_resources_twice _ i l res) in K5 by done. cbv beta in K5.
  match type of K5 with context [<[i := ?x]> l] => replace x with (reply_res va total off mtu res) in K5 end.
  2: { unfold reply_res, len. destruct res. cbn in *. subst. unfold upd_field. cbn. f_equal.
       - by rewrite psn_succ.
       - rewrite u64_small; lia.
       - rewrite u32_small; lia. }
  eapply wp_get_res; [by rewrite (kp_resp _ _ _ K5)|by apply list_lookup_insert_eq, lookup_lt_Some with res|].
  rewrite Hs4 in Hs5. change (res_resid (reply_res va total off mtu res)) with (total - off - len).
  assert (Hd : Z.of_nat (length data) = len) by (unfold data; rewrite length_fmap, length_take, length_drop; lia).
  assert (Hrep : reply (es_qp s) req (read_opcode res mtu) psn data (fill_read_packet ack data len)).
  { rewrite <- Hd. apply fill_read_reply; [done|]. rewrite Hd, <- Hps. eapply answer_ext; [| | |exact Ha]; done. }
  unfold reply_resp in HQ. fold len in HQ.
  destruct (Z.gtb_spec (total - off - len) 0), (Z.ltb_spec (off + len) total); try lia; wp_run.
  - by eapply HQ.
  - eapply HQ; [|exact Hs5|exact Hrep]. by apply (kept_upd _ _ _ (λ r, r <| resp_cur_res := None |> <| resp_opcode := -1 |>
      <| resp_psn := res_cur_psn (reply_res va total off mtu res) |>)) in K5.
Qed.

(** The first call takes a resource and goes on as the later ones. *)
Lemma wp_read_reply_new F req Q s :
  resp_cur_res (qp_resp (es_qp s)) = None →
  wp F (new_read_res req) (λ i s', resp_cur_res (qp_resp (es_qp s')) = Some i ∧
    qp_mtu_bytes (es_qp s') = qp_mtu_bytes (es_qp s) ∧ wp F (read_reply req) Q s') s →
  wp F (read_reply req) Q s.
Proof using Type.
  intros Hc Hw. unfold read_reply at 1. wp_run. rewrite Hc. wp_run. eapply wp_mono; [exact Hw|].
  intros i s' (Hi & Em & Hr). unfold read_reply, wp, mbind, eng_bind, get_qp, gets in Hr. rewrite Hi in Hr.
  rewrite <- Em. exact Hr.
Qed.

(** The resource of a new read. *)
Definition fresh_res (req : rxe_pkt_info) (mtu : Z) (h : mem_handle) (r : rxe_resp_info) (res : resp_res) : resp_res :=
  res <| res_type := RXE_READ_MASK |> <| res_va := resp_va r |> <| res_va_org := resp_va r |>
      <| res_first_psn := pkt_psn req |>
      <| res_last_psn := u32 (pkt_psn req + u32 (reth_len req + mtu - 1) / mtu - 1) |>
      <| res_cur_psn := pkt_psn req |> <| res_resid := resp_resid r |> <| res_length := resp_resid r |>
      <| res_rkey := resp_rkey r |> <| res_ptr := res_mr h |> <| res_state := rdatm_res_state_new |>.

Lemma wp_new_read_res F req h l res Q s :
  let r := qp_resp (es_qp s) in
  let i := Z.to_nat (resp_res_head r) in
  resp_resources r = Some l → l !! i = Some res → res_type res = 0 → resp_mr r = Some h →
  (∀ head, Q i (with_rm s (r <| resp_resources := Some (<[i := fresh_res req (qp_mtu_bytes (es_qp s)) h r res]> l) |>
                  <| resp_res_head := head |> <| resp_mr := None |> <| resp_cur_res := Some i |>)
                (rdev_mem (es_dev s)))) →
  wp F (new_read_res req) Q s.
Proof using Type.
  intros r i Hl Hi Hty Hmr HQ. rewrite <- (with_rm_id s). fold r. unfold new_read_res, take_resource, free_rd_atomic_resource. wp_run.
  eapply wp_get_res; [exact Hl|exact Hi|]. rewrite Hty. change (0 =? RXE_ATOMIC_MASK) with false.
  change (0 =? RXE_READ_MASK) with false. unfold when, upd_res, rxe_advance_resp_resource. cbv iota. wp_run.
  rewrite !with_rm_resp. cbn [es_qp with_rm qp_resp qp_mtu_bytes qp_attr upd_field].
  set (head := if _ =? _ then _ else _). specialize (HQ head). clearbody head.
  match goal with |- Q _ (with_rm _ ?r' _) => replace r' with
    (r <| resp_resources := Some (<[i := fresh_res req (qp_mtu_bytes (es_qp s)) h r res]> l) |>
       <| resp_res_head := head |> <| resp_mr := None |> <| resp_cur_res := Some i |>); [exact HQ|] end.
  rewrite <- (upd_resources_twice r i l res (λ r, r <| res_type := 0 |>) (fresh_res req (qp_mtu_bytes (es_qp s)) h r)) by done.
  fold i. clearbody i. unfold fresh_res. clearbody r. destruct r. cbn in Hmr. subst. reflexivity.
Qed.
End read.

(** ** A read *)

(** The request, as it arrives. *)
Record read_request (psn va rkey total : Z) (pkt : rxe_pkt_info) : Prop := {
  rq_opcode : pkt_opcode pkt = IB_OPCODE_RC_RDMA_READ_REQUEST;
  rq_mask : ∃ x, link_mask x ∧ pkt_mask pkt = x .| opcode_mask IB_OPCODE_RC_RDMA_READ_REQUEST;
  rq_psn : pkt_psn pkt = psn;
  rq_offset : pkt_offset pkt = RXE_GRH_BYTES;
  rq_room : RXE_GRH_BYTES + RXE_BTH_BYTES ≤ Z.of_nat (length (pkt_hdr pkt));
  rq_va : reth_va pkt = va;
  rq_rkey : reth_rkey pkt = rkey;
  rq_len : reth_len pkt = total
}.

Lemma read_request_flag psn va rkey total pkt m :
  read_request psn va rkey total pkt → (RXE_GRH_MASK .| RXE_LOOPBACK_MASK) .& m = 0 →
  flag_set (pkt_mask pkt) m = flag_set (opcode_mask IB_OPCODE_RC_RDMA_READ_REQUEST) m.
Proof. intros [_ (x & Hx & ->)] Hm. by apply link_mask_flag. Qed.

Section read_message.
Context `{Params} (Hbypass : rxe_bypass_arbiter = false).
Context (s0 : eng_state) (rkey va psn0 : Z) (addrs : list Z) (pkt : rxe_pkt_info).

Local Abbreviation dev0 := (rdev_mem (es_dev s0)).
Local Abbreviation mtu := (qp_mtu_bytes (es_qp s0)).
Local Abbreviation total := (Z.of_nat (length addrs)).
Local Abbreviation n := (packets total mtu).
Local Abbreviation psn i := ((psn0 + Z.of_nat i) mod 2 ^ 24).
Local Abbreviation slot_index := (Z.to_nat (resp_res_head (qp_resp (es_qp s0)))).

(** The queue pair may be read from and has a free resource. *)
Record readable : Prop := {
  rd_receptive : receptive s0;
  rd_access : flag_set (qa_qp_access_flags (qp_attr (es_qp s0))) IB_ACCESS_REMOTE_READ = true;
  rd_max : 0 < qa_max_rd_atomic (qp_attr (es_qp s0));
  rd_mr : resp_mr (qp_resp (es_qp s0)) = None;
  rd_slot : ∃ l res, resp_resources (qp_resp (es_qp s0)) = Some l ∧ l !! slot_index = Some res ∧ res_type res = 0
}.

(** The first [k] responses. *)
Definition replies (k : nat) (sent : list rxe_pkt_info) : Prop :=
  length sent = k ∧ ∀ i p, sent !! i = Some p → ∃ q, qp_attr q = qp_attr (es_qp s0) ∧
    resp_msn (qp_resp q) = u32 (resp_msn (qp_resp (es_qp s0)) + 1) ∧
    reply q pkt (message_opcode read_ops i n) (psn i) (chunk mtu (mread (dev_phys dev0) <$> addrs) i) p.

(** What the resource of the read keeps for a retry. *)
Record read_record (h : mem_handle) (res : resp_res) : Prop := {
  rr_type : res_type res = RXE_READ_MASK;
  rr_ptr : res_ptr res = res_mr h;
  rr_first : res_first_psn res = psn 0;
  rr_last : res_last_psn res = u32 (psn 0 + Z.of_nat n - 1);
  rr_va : res_va_org res = va;
  rr_length : res_length res = total;
  rr_rkey : res_rkey res = rkey
}.

(** The first [k] responses are on their way; [h] is the region in use. *)
Record reading (k : nat) (s : eng_state) : Prop := {
  rg_unmoved : unmoved s0 s;
  rg_cqs : rdev_cqs (es_dev s) = rdev_cqs (es_dev s0);
  rg_rq : qp_rq (es_qp s) = qp_rq (es_qp s0);
  rg_state : resp_state (qp_resp (es_qp s)) = QP_STATE_READY;
  rg_error : resp_goto_error (qp_resp (es_qp s)) = false;
  rg_mr : resp_mr (qp_resp (es_qp s)) = None;
  rg_msn : resp_msn (qp_resp (es_qp s)) = u32 (resp_msn (qp_resp (es_qp s0)) + 1);
  rg_sent : ∃ sent, replies k sent ∧ qp_send_pkts (es_qp s) = qp_send_pkts (es_qp s0) ++ sent;
  rg_region : ∃ h l res, mem_drop_ref (rdev_mem (es_dev s)) h = dev0 ∧
    dev_phys (rdev_mem (es_dev s)) = dev_phys dev0 ∧
    resp_resources (qp_resp (es_qp s)) = Some l ∧ l !! slot_index = Some res ∧ read_record h res ∧
    if (k <? n)%nat then
      qp_req_pkts (es_qp s) = [pkt] ∧ qp_ref (es_qp s) = qp_ref (es_qp s0) ∧
      res_state res = (if (k =? 0)%nat then rdatm_res_state_new else rdatm_res_state_next) ∧
      answering slot_index h va total (Z.of_nat k * mtu) (psn k) addrs (qp_resp (es_qp s)) (rdev_mem (es_dev s)) l res
    else
      qp_req_pkts (es_qp s) = [] ∧ qp_ref (es_qp s) = qp_ref (es_qp s0) - 1 ∧
      resp_cur_res (qp_resp (es_qp s)) = None ∧ resp_psn (qp_resp (es_qp s)) = psn n ∧
      resp_opcode (qp_resp (es_qp s)) = -1
}.

Lemma read_chunk k :
  readable → addrs ≠ [] → (k < n)%nat →
  let len := reply_length total (Z.of_nat k * mtu) mtu in
  mread (dev_phys dev0) <$> take (Z.to_nat len) (drop (Z.to_nat (Z.of_nat k * mtu)) addrs)
    = chunk mtu (mread (dev_phys dev0) <$> addrs) k ∧
  0 ≤ Z.of_nat k * mtu < total ∧ (Z.of_nat k * mtu + len <? total) = (S k <? n)%nat ∧
  ((S k < n)%nat → len = mtu).
Proof using Type.
  intros Hrd Haddrs Hk len. pose proof (rc_mtu _ (rd_receptive Hrd)) as Hmt. set (data := mread (dev_phys dev0) <$> addrs).
  assert (Hd : length data = length addrs) by apply length_fmap.
  assert (Hdn : data ≠ []) by (unfold data; by destruct addrs).
  destruct (chunk_length mtu data k ltac:(lia)) as (Hcl & Hcn & Hoff); [by rewrite Hd|]. rewrite Hd in Hcl, Hoff.
  specialize (Hcn Hdn). assert (0 < Z.of_nat (length (chunk mtu data k))) by (destruct (chunk mtu data k); [done|cbn; lia]).
  destruct (packets_last total mtu ltac:(lia) ltac:(lia) k Hk) as [Hlast _].
  split; [|split; [lia|split]].
  - unfold data, chunk. rewrite <- fmap_drop, <- fmap_take. f_equal.
    replace (Z.to_nat (Z.of_nat k * mtu)) with (k * Z.to_nat mtu)%nat by lia.
    destruct (decide (Z.to_nat len = Z.to_nat mtu)) as [->|Hne]; [done|].
    rewrite !take_ge; [done|rewrite length_drop; unfold len, reply_length in *; lia..].
  - unfold len, reply_length. destruct (Z.ltb_spec (Z.of_nat k * mtu + Z.min (total - Z.of_nat k * mtu) mtu) total),
      (Nat.ltb_spec (S k) n); lia.
  - unfold len, reply_length. lia.
Qed.
Context (Hrq : read_request (psn 0) va rkey total pkt) (Hrd : readable) (Haddrs : addrs ≠ []).
Context (Hlen : total < 2 ^ 31) (Hva : 0 ≤ va) (Hvt : va + total < 2 ^ 64).
Context (Ht : key_target dev0 (qp_pd (es_qp s0)) IB_ACCESS_REMOTE_READ rkey va total addrs).

Lemma read_opcode_message k res :
  (k < n)%nat → res_resid res = total - Z.of_nat k * mtu →
  res_state res = (if (k =? 0)%nat then rdatm_res_state_new else rdatm_res_state_next) →
  read_opcode res mtu = message_opcode read_ops k n.
Proof using Hrd Haddrs Hlen.
  intros Hk Hr Hs. pose proof (rc_mtu _ (rd_receptive Hrd)) as Hmt.
  destruct (packets_last total mtu ltac:(lia) ltac:(lia) k Hk) as [Hlast _].
  unfold read_opcode, message_opcode, read_ops. rewrite Hs, Hr.
  destruct (Nat.eqb_spec k 0) as [->|Hz].
  - rewrite bool_decide_eq_true_2 by done. destruct (Nat.eqb_spec n 1) as [Hn|Hn], (Z.leb_spec (total - Z.of_nat 0 * mtu) mtu); lia || done.
  - rewrite bool_decide_eq_false_2 by done. destruct (Nat.eqb_spec n 1) as [Hn|Hn]; [lia|].
    destruct (Nat.eqb_spec (S k) n) as [He|He], (Z.gtb_spec (total - Z.of_nat k * mtu) mtu); lia || done.
Qed.

(** What the next response needs is what the last one leaves. *)
Lemma answering_next k s s' h l res :
  (k < n)%nat → (S k < n)%nat → unmoved s0 s → resp_cur_res (qp_resp (es_qp s)) = Some slot_index →
  answering slot_index h va total (Z.of_nat k * mtu) (psn k) addrs (qp_resp (es_qp s)) (rdev_mem (es_dev s)) l res →
  rdev_mem (es_dev s') = rdev_mem (es_dev s) →
  qp_resp (es_qp s') = qp_resp (es_qp s) <| resp_resources :=
    Some (<[slot_index := reply_res va total (Z.of_nat k * mtu) mtu res]> l) |> →
  answering slot_index h va total (Z.of_nat (S k) * mtu) (psn (S k)) addrs (qp_resp (es_qp s'))
    (rdev_mem (es_dev s')) (<[slot_index := reply_res va total (Z.of_nat k * mtu) mtu res]> l)
    (reply_res va total (Z.of_nat k * mtu) mtu res).
Proof using Hrd Haddrs Hlen Hva Hvt.
  intros Hk Hk' Hu Hc [_ Hl Hres Hptr Hv Hrs Hps Hpr Hreg Ha Hrange] Em Er.
  destruct (read_chunk k Hrd Haddrs Hk) as (_ & Hoff & _ & Hfull). specialize (Hfull Hk').
  destruct (read_chunk (S k) Hrd Haddrs Hk') as (_ & Hoff' & _).
  split; rewrite ?Em, ?Er; try done.
  - by apply list_lookup_insert_eq, lookup_lt_Some with res.
  - unfold reply_res. cbn. rewrite Hfull. lia.
  - unfold reply_res. cbn. rewrite Hfull. lia.
  - unfold reply_res. cbn. rewrite Hps, Zplus_mod_idemp_l. f_equal. lia.
  - apply Z.mod_pos_bound. lia.
Qed.

Lemma replies_snoc k sent q p :
  replies k sent → qp_attr q = qp_attr (es_qp s0) →
  resp_msn (qp_resp q) = u32 (resp_msn (qp_resp (es_qp s0)) + 1) →
  reply q pkt (message_opcode read_ops k n) (psn k) (chunk mtu (mread (dev_phys dev0) <$> addrs) k) p →
  replies (S k) (sent ++ [p]).
Proof using Type.
  intros [Hl Hall] Hq Hm Hr. split; [rewrite length_app; cbn; lia|]. intros i x Hi.
  destruct (decide (i < k)%nat).
  - rewrite lookup_app_l in Hi by lia. by apply Hall.
  - rewrite lookup_app_r in Hi by lia. destruct (i - length sent)%nat as [|j] eqn:E; [|done].
    injection Hi as <-. replace i with k by lia. by exists q.
Qed.

(** One response. *)
Lemma reading_reply qe fuel k s :
  (k < n)%nat → reading k s →
  wp False (read_reply pkt) (λ st s', wp False (resp_loop qe (2 + fuel) st (Some pkt))
    (λ r s', r = Ok tt ∧ reading (S k) s') s') s.
Proof using Hbypass Hrq Hrd Haddrs Hlen Hva Hvt.
  intros Hk [Hu Hcq Hrqq Hst He Hmr Hmsn (sent & Hrep & Hsd) (h & l & res & Hd & Hph & Hl & Hres & Hrec & Hpart)].
  apply Nat.ltb_lt in Hk as Hkb. rewrite Hkb in Hpart. destruct Hpart as (Hp & Href & Hrst & Ha).
  destruct (read_chunk k Hrd Haddrs Hk) as (Hch & Hoff & Hmore & Hfull).
  pose proof (rd_receptive Hrd) as Hrc. pose proof (rc_mtu _ Hrc) as Hmt.
  pose proof (read_opcode_message k res Hk (rs_resid _ _ _ _ _ _ _ _ _ _ _ Ha) Hrst) as Hop.
  apply (wp_read_reply Hbypass False slot_index h va total (Z.of_nat k * mtu) (psn k) addrs l res); [done|..];
    rewrite ?(um_mtu _ _ Hu); [done|by rewrite (um_alloc _ _ Hu), (rc_alloc _ Hrc)| |rewrite Hop; apply read_ops_answer|].
  { split; [rewrite (um_ports _ _ Hu); apply Hrc|]. split; apply Hrq. }
  intros s' p [Ku K1 K2 K3 K4 K5 K6] Hsend Hreply. rewrite Hmore. rewrite Hop, Hph, Hch in Hreply.
  assert (Hrec' : read_record h (reply_res va total (Z.of_nat k * mtu) mtu res)) by (destruct Hrec; by split).
  assert (Hins : <[slot_index := reply_res va total (Z.of_nat k * mtu) mtu res]> l !! slot_index
    = Some (reply_res va total (Z.of_nat k * mtu) mtu res)) by (by apply list_lookup_insert_eq, lookup_lt_Some with res).
  assert (Hsent : ∃ sent, replies (S k) sent ∧ qp_send_pkts (es_qp s') = qp_send_pkts (es_qp s0) ++ sent).
  { exists (sent ++ [p]). rewrite Hsend, Hsd, app_assoc. split; [|done].
    by eapply replies_snoc; [done|apply (um_attr _ _ Hu)|done|]. }
  unfold reply_resp in K6. rewrite Hmore in K6. destruct (Nat.ltb_spec (S k) n) as [Hk'|Hk'].
  - apply wp_resp_step. cbn [resp_step]. wp_run. rewrite K6. cbn [resp_goto_error upd_field]. rewrite He. wp_run.
    split; [done|]. split; rewrite ?K6; try done; try congruence; [by eapply unmoved_trans|].
    eexists h, _, _. rewrite K1. split; [done|]. split; [done|]. split; [done|]. split; [exact Hins|]. split; [done|].
    apply Nat.ltb_lt in Hk' as Hkt. rewrite Hkt. split; [congruence|]. split; [congruence|]. split; [done|].
    rewrite <- K6, <- K1. eapply (answering_next k s); try done. apply Ha.
  - apply wp_cleanup; [by rewrite K5, Hp|rewrite K6; done|]. intros s2 [Ru R1 R2 R3 R4 R5 R6 R7]. rewrite K6 in R1, R6.
    cbn in R1. rewrite Hmr in R1. split; [done|].
    split; rewrite ?R6; try done; try congruence; [eapply unmoved_trans; [|done]; by eapply unmoved_trans|by rewrite R7|].
    eexists h, _, _. rewrite R1, K1. split; [done|]. split; [done|]. split; [done|]. split; [exact Hins|]. split; [done|].
    apply Nat.ltb_ge in Hk' as Hk''. rewrite Hk''. split; [by rewrite R5, K5, Hp|]. split; [lia|]. split; [done|]. split; [|done].
    cbn. rewrite (rs_cur_psn _ _ _ _ _ _ _ _ _ _ _ Ha), Zplus_mod_idemp_l. f_equal. lia.
Qed.
(** The responder's information when the request reaches [read_reply]. *)
Definition read_front (h : mem_handle) (r : rxe_resp_info) : rxe_resp_info :=
  addressed pkt (r <| resp_aeth_syndrome := AETH_ACK_UNLIMITED |> <| resp_sent_psn_nak := false |>)
    <| resp_mr := Some h |> <| resp_msn ::= (λ n, u32 (n + 1)) |>.

(** The resource is taken. *)
Lemma reading_fresh h dev' m head l res :
  awaiting s0 psn0 [pkt] → pool_of dev' h.1 !! h.2 = Some m → in_use va total addrs m →
  mem_drop_ref dev' h = dev0 → dev_phys dev' = dev_phys dev0 →
  resp_resources (qp_resp (es_qp s0)) = Some l → l !! slot_index = Some res →
  let r := read_front h (qp_resp (es_qp s0)) in
  reading 0 (with_rm s0 (r <| resp_resources := Some (<[slot_index := fresh_res pkt mtu h r res]> l) |>
    <| resp_res_head := head |> <| resp_mr := None |> <| resp_cur_res := Some slot_index |>) dev').
Proof using Hrq Hrd Haddrs Hlen Hva Hvt Ht.
  intros [] Hm Hu Hd Hph Hl Hres r. pose proof (rc_mtu _ (rd_receptive Hrd)) as Hmt.
  assert (Er : resp_va r = va ∧ resp_rkey r = rkey ∧ resp_resid r = total).
  { unfold r, read_front, addressed. rewrite !(read_request_flag _ _ _ _ _ _ Hrq) by done.
    change (flag_set (opcode_mask IB_OPCODE_RC_RDMA_READ_REQUEST) (RXE_READ_MASK .| RXE_WRITE_MASK)) with true.
    change (flag_set (opcode_mask IB_OPCODE_RC_RDMA_READ_REQUEST) RXE_RETH_MASK) with true. cbn.
    split; [apply Hrq|]. split; apply Hrq. }
  destruct Er as (Ev & Ek & Es).
  assert (Hins : <[slot_index := fresh_res pkt mtu h r res]> l !! slot_index = Some (fresh_res pkt mtu h r res))
    by (by apply list_lookup_insert_eq, lookup_lt_Some with res).
  assert (Hnp : Z.of_nat n = u32 (total + mtu - 1) / mtu).
  { rewrite u32_small by lia. unfold packets. assert (0 < total) by (destruct addrs; [done|cbn [length]; lia]).
    assert (1 ≤ (total + mtu - 1) / mtu) by (apply Z.div_le_lower_bound; lia). lia. }
  destruct (addressed_fields pkt (qp_resp (es_qp s0))) as (F1 & F2 & _).
  split; cbn [es_qp es_dev with_rm qp_resp upd_field rdev_mem]; try done.
  - unfold r, read_front. rewrite addressed_front. cbn. by rewrite F1.
  - unfold r, read_front. rewrite addressed_front. cbn. by rewrite F2.
  - unfold r, read_front. rewrite addressed_front. cbn. unfold addressed. by repeat case_match.
  - exists []. split; [split; [done|by intros []]|by rewrite app_nil_r].
  - eexists h, _, (fresh_res pkt mtu h r res). split; [done|]. split; [done|]. split; [reflexivity|]. split; [exact Hins|].
    split.
    { split; unfold fresh_res; cbn; rewrite ?Ev, ?Ek, ?Es, ?(rq_psn _ _ _ _ _ Hrq), ?(rq_len _ _ _ _ _ Hrq); try done.
      by rewrite Hnp. }
    pose proof (packets_pos total mtu) as Hpos. apply Nat.ltb_lt in Hpos as Hpb. rewrite Hpb.
    split; [done|]. split; [done|]. split; [done|].
    split; [done|done|exact Hins|done|etransitivity; [exact Ev|lia]|etransitivity; [exact Es|lia]|apply Hrq|apply Z.mod_pos_bound; lia
      |by exists m|done|]. destruct addrs; [done|cbn [length] in *; lia].
Qed.
Lemma read_in_order : awaiting s0 psn0 [pkt] → in_order s0 pkt ∧ op_permitted (es_qp s0) pkt = true.
Proof using Hrq Hrd.
  intros Haw. pose proof (rd_receptive Hrd) as Hrc. assert (Hfl := λ m, read_request_flag _ _ _ _ _ m Hrq). split.
  - split; try apply Hrc; try apply Haw; [by rewrite (aw_pkts _ _ _ Haw)|by rewrite (rq_psn _ _ _ _ _ Hrq), (aw_psn _ _ _ Haw)|].
    rewrite (rq_opcode _ _ _ _ _ Hrq). pose proof (aw_opcode _ _ _ Haw) as Ho. unfold mid_message, one_of in Ho.
    cbn [existsb] in Ho. rewrite !orb_false_r, !orb_false_iff in Ho. destruct Ho as (P1 & P2 & P3 & P4).
    unfold check_op_seq_rc, one_of. cbn [existsb]. by rewrite P1, P2, P3, P4.
  - unfold op_permitted. rewrite !Hfl, (rd_access Hrd) by done. cbn. rewrite !andb_true_r.
    apply negb_true_iff, Z.eqb_neq. intros E. pose proof (Hfl RXE_READ_MASK eq_refl) as Ew. rewrite E in Ew. discriminate.
Qed.

Lemma read_addressed r :
  addressed pkt r = r <| resp_va := va |> <| resp_rkey := rkey |> <| resp_resid := total |>.
Proof using Hrq.
  unfold addressed. rewrite !(read_request_flag _ _ _ _ _ _ Hrq) by done. cbn [flag_set].
  by rewrite (rq_va _ _ _ _ _ Hrq), (rq_rkey _ _ _ _ _ Hrq), (rq_len _ _ _ _ _ Hrq).
Qed.

(** The checks of the request succeed. *)
Lemma wp_read_front depth cfuel fuel Q :
  awaiting s0 psn0 [pkt] →
  (∀ qe h dev' m, pool_of dev' h.1 !! h.2 = Some m → in_use va total addrs m → mem_drop_ref dev' h = dev0 →
     dev_phys dev' = dev_phys dev0 →
     wp False (resp_loop qe (3 + fuel) RESPST_READ_REPLY (Some pkt)) Q
       (with_rm s0 (read_front h (qp_resp (es_qp s0))) dev')) →
  wp False (rxe_responder depth cfuel (11 + fuel)) Q s0.
Proof using Hrq Hrd Ht.
  intros Haw HQ. pose proof (rd_receptive Hrd) as Hrc. assert (Hfl := λ m, read_request_flag _ _ _ _ _ m Hrq).
  destruct (read_in_order Haw) as [Hio Hperm]. eapply (wp_front False depth cfuel (5 + fuel)); [done|done| |].
  { unfold resourced. rewrite Hfl by done.
    change (flag_set (opcode_mask IB_OPCODE_RC_RDMA_READ_REQUEST) RXE_READ_OR_ATOMIC) with true. cbv iota.
    split; [apply Hrd|reflexivity]. }
  intros qe. destruct (target_lookup dev0 (qp_pd (es_qp s0)) _ rkey va total addrs (dev_phys dev0) (rc_refs _ Hrc) Ht ltac:(lia))
    as (dev' & h & m & Hl & Hm & Hph & Hdrop & Hiu). rewrite with_phys_id in Hl.
  pose proof (iu_range _ _ _ _ Hiu 0 ltac:(lia)) as Hrange. rewrite Z.add_0_r, Z.sub_0_r in Hrange.
  specialize (Hdrop (dev_phys dev')). rewrite with_phys_id, Hph, with_phys_id in Hdrop.
  cbn [es_qp es_dev with_rm qp_resp rdev_mem upd_field].
  eapply (wp_rkey False qe (4 + fuel)); cbn [es_qp es_dev with_rm qp_resp qp_pd qp_mtu_bytes rdev_mem upd_field].
  - by rewrite !Hfl by done.
  - rewrite read_addressed. unfold pkt_access. rewrite !Hfl by done. exact Hl.
  - rewrite read_addressed. exact Hrange.
  - by rewrite Hfl by done.
  - apply wp_resp_step. cbn [resp_step]. wp_run. unfold execute, execute_op. wp_run. rewrite !Hfl by done.
    change (flag_set (opcode_mask IB_OPCODE_RC_RDMA_READ_REQUEST) RXE_SEND_MASK) with false.
    change (flag_set (opcode_mask IB_OPCODE_RC_RDMA_READ_REQUEST) RXE_WRITE_MASK) with false.
    change (flag_set (opcode_mask IB_OPCODE_RC_RDMA_READ_REQUEST) RXE_READ_MASK) with true. cbv iota. wp_run.
    rewrite bool_decide_eq_false_2 by done. cbn [negb]. wp_run. rewrite with_rm_rm, with_rm_resp. by apply (HQ qe h dev' m).
Qed.

(** The request is checked and the first response sent. *)
Lemma read_start depth cfuel fuel :
  awaiting s0 psn0 [pkt] →
  wp False (rxe_responder depth cfuel (11 + fuel)) (λ r s', r = Ok tt ∧ reading 1 s') s0.
Proof using Hbypass Hrq Hrd Haddrs Hlen Hva Hvt Ht.
  intros Haw. apply wp_read_front; [done|]. intros qe h dev' m Hm Hiu Hd Hph.
  set (r := read_front h (qp_resp (es_qp s0))).
  assert (Er : resp_res_head r = resp_res_head (qp_resp (es_qp s0)) ∧ resp_cur_res r = None ∧
    resp_resources r = resp_resources (qp_resp (es_qp s0))).
  { unfold r, read_front. rewrite read_addressed. cbn. split; [done|]. split; [apply Haw|done]. }
  destruct Er as (Eh & Ec & El). destruct (rd_slot Hrd) as (l & res & Hrl & Hri & Hrt).
  pose proof (λ head, reading_fresh h dev' m head l res Haw Hm Hiu Hd Hph Hrl Hri) as Hfr. fold r in Hfr.
  apply wp_resp_step. cbn [resp_step]. wp_run. apply wp_read_reply_new; [exact Ec|].
  eapply (wp_new_read_res False pkt h l res); cbn [es_qp es_dev with_rm qp_resp rdev_mem upd_field];
    [by rewrite El|by rewrite Eh|exact Hrt|done|].
  intros head. split; [done|]. split; [done|]. rewrite Eh, with_rm_rm.
  eapply wp_mono; [apply (reading_reply qe fuel 0); [apply packets_pos|exact (Hfr head)]|]. intros st s' Hs. exact Hs.
Qed.

Lemma reading_syndrome k s :
  reading k s → reading k (with_rm s (qp_resp (es_qp s) <| resp_aeth_syndrome := AETH_ACK_UNLIMITED |>)
    (rdev_mem (es_dev s))).
Proof using Type.
  intros [Hu Hcq Hrqq Hst He Hmr Hmsn Hsent (h & l & res & Hd & Hph & Hl & Hres & Hrec & Hpart)].
  split; try done; [by destruct Hu|]. exists h, l, res. do 5 (split; [done|]).
  destruct (k <? n)%nat; [|done]. destruct Hpart as (? & ? & ? & []). do 3 (split; [done|]). by split.
Qed.

(** Each further call sends one more response. *)
Lemma read_continue depth cfuel fuel k s :
  k ≠ 0%nat → (k < n)%nat → reading k s →
  wp False (rxe_responder depth cfuel (4 + fuel)) (λ r s', r = Ok tt ∧ reading (S k) s') s.
Proof using Hbypass Hrq Hrd Haddrs Hlen Hva Hvt.
  intros Hz Hk Hr%reading_syndrome. unfold rxe_responder. wp_run. rewrite upd_resp_rm.
  set (s1 := with_rm s _ _) in *. pose proof Hr as [Hu _ _ Hst _ _ _ _ (h & l & res & _ & _ & _ & _ & _ & Hpart)].
  apply Nat.ltb_lt in Hk as Hkb. rewrite Hkb in Hpart. destruct Hpart as (Hp & _ & _ & Ha).
  rewrite (um_valid _ _ Hu), (rc_valid _ (rd_receptive Hrd)), Hst, bool_decide_eq_false_2 by done. cbn [negb].
  set (qe := rxe_qp_error _). clearbody qe.
  apply wp_resp_step. cbn [resp_step]. unfold get_req. wp_run. rewrite Hst, bool_decide_eq_false_2, Hp by done. wp_run.
  rewrite (rs_cur _ _ _ _ _ _ _ _ _ _ _ Ha). apply wp_resp_step. cbn [resp_step]. wp_run.
  eapply wp_mono; [by apply (reading_reply qe fuel k)|]. intros st s' Hs. exact Hs.
Qed.

(** What a read leaves: the responses, and the resource that holds the region
    for a retry; no byte of memory changes. *)
Record read_done (s' : eng_state) (sent : list rxe_pkt_info) : Prop := {
  rdn_sent : replies n sent;
  rdn_send : qp_send_pkts (es_qp s') = qp_send_pkts (es_qp s0) ++ sent;
  rdn_phys : dev_phys (rdev_mem (es_dev s')) = dev_phys dev0;
  rdn_record : ∃ h l res, mem_drop_ref (rdev_mem (es_dev s')) h = dev0 ∧
    resp_resources (qp_resp (es_qp s')) = Some l ∧ l !! slot_index = Some res ∧ read_record h res;
  rdn_pkts : qp_req_pkts (es_qp s') = [];
  rdn_ref : qp_ref (es_qp s') = qp_ref (es_qp s0) - 1;
  rdn_psn : resp_psn (qp_resp (es_qp s')) = psn n;
  rdn_state : resp_state (qp_resp (es_qp s')) = QP_STATE_READY ∧ resp_cur_res (qp_resp (es_qp s')) = None;
  rdn_rq : qp_rq (es_qp s') = qp_rq (es_qp s0) ∧ rdev_cqs (es_dev s') = rdev_cqs (es_dev s0)
}.

Lemma task_reads depth cfuel fuel :
  awaiting s0 psn0 [pkt] →
  ∃ s' sent, __rxe_do_task (rxe_responder depth cfuel (11 + fuel)) (S n) s0 = Some (tt, s') ∧ read_done s' sent.
Proof using Hbypass Hrq Hrd Haddrs Hlen Hva Hvt Ht.
  intros Haw. pose proof (packets_pos total mtu) as Hpos. replace (S n) with (S (n - 0)) by lia.
  refine (_ (wp_total _ _ _ (wp_do_task (rxe_responder depth cfuel (11 + fuel))
    (λ k s, if (k =? 0)%nat then s = s0 else reading k s) n 0 (λ _ s', ∃ sent, read_done s' sent) s0 _ _ _ eq_refl))).
  - intros ([] & s' & E & sent & Hd). by exists s', sent.
  - intros j s Hj HI. destruct (Nat.eqb_spec j 0) as [->|Hz]; [subst s; by apply read_start|].
    cbn [Nat.eqb]. by apply (read_continue depth cfuel (7 + fuel)).
  - intros s HI. destruct (Nat.eqb_spec n 0) as [?|_]; [lia|]. pose proof HI as
      [Hu Hcq Hrqq Hst He Hmr Hmsn (sent & Hs & Hsd) (h & l & res & Hd & Hph & Hl & Hres & Hrec & Hpart)].
    rewrite Nat.ltb_irrefl in Hpart. destruct Hpart as (Hp & Hf & Hc & Hps & _).
    apply wp_responder_idle; [by rewrite (um_valid _ _ Hu), (rc_valid _ (rd_receptive Hrd))|done..|].
    split; [by eexists|]. exists sent. split; try done. by exists h, l, res.
  - lia.
Qed.
End read_message.


(** ** Example: a read of six bytes in two packets *)

Definition example_read : rxe_pkt_info :=
  example_request IB_OPCODE_RC_RDMA_READ_REQUEST 0xffffff 1
    (λ p, reth_set_len (reth_set_rkey (reth_set_va p 1000) 0x102) 6) [].

Definition example_resources : list resp_res := replicate 4 (RespRes 0 0 0 0 rdatm_res_state_new res_null 0 0 0 0 0).

