(* ===== verification/RespOrder.v ===== *)
(** * Packets out of order at the responder (rxe_resp.c)

    A request whose sequence number is not the expected one executes nothing:
    after a gap the responder asks once for the missing packet, and a send or
    write that was executed before is acknowledged again. On an unreliable
    connection a message that starts inside another one can stop the task from
    ever returning. *)

From stdpp Require Import gmap.
From S2P Require Import Prelude Bits Queue Opcode Hdr Verbs Icrc Mr Sge Cq State Comp Arbiter Req ReqPacket.
From S2P Require Import Message Resp Ack RespSteps Deliver DeliverWrite.

(** A request with another sequence number than the expected one. *)
Record out_of_order (s : eng_state) (pkt : rxe_pkt_info) : Prop := {
  oo_valid : qp_valid (es_qp s) = true;
  oo_type : qp_qp_type (es_qp s) = IB_QPT_RC;
  oo_state : resp_state (qp_resp (es_qp s)) = QP_STATE_READY;
  oo_res : resp_cur_res (qp_resp (es_qp s)) = None;
  oo_mr : resp_mr (qp_resp (es_qp s)) = None;
  oo_error : resp_goto_error (qp_resp (es_qp s)) = false;
  oo_head : head (qp_req_pkts (es_qp s)) = Some pkt;
  oo_alloc : es_alloc s = [];
  oo_answer : answerable (es_dev s) pkt;
  oo_psn : psn_compare (pkt_psn pkt) (resp_psn (qp_resp (es_qp s))) ≠ 0
}.

(** The acknowledgement of such a request: after a gap the expected sequence
    number is asked for, once; a duplicate that asks for an answer is told the
    last sequence number that was executed. *)
Definition order_acks (q : rxe_qp) (pkt : rxe_pkt_info) (acks : list rxe_pkt_info) : Prop :=
  let psn := resp_psn (qp_resp q) in
  let one psn syndrome := ∃ ack, acks = [ack] ∧ answer q pkt IB_OPCODE_RC_ACKNOWLEDGE 0 psn syndrome ack in
  if psn_compare (pkt_psn pkt) psn >? 0 then
    if resp_sent_psn_nak (qp_resp q) then acks = [] else one psn AETH_NAK_PSN_SEQ_ERROR
  else if bth_ack pkt =? 0 then acks = [] else one (u32 (psn - 1)) AETH_ACK_UNLIMITED.

Section order.
Context `{Params} (Hbypass : rxe_bypass_arbiter = false).

(** The packet is dropped with nothing executed. *)
Record dropped (pkt : rxe_pkt_info) (s s' : eng_state) (acks : list rxe_pkt_info) : Prop := {
  dr_mem : rdev_mem (es_dev s') = rdev_mem (es_dev s);
  dr_cqs : rdev_cqs (es_dev s') = rdev_cqs (es_dev s);
  dr_rq : qp_rq (es_qp s') = qp_rq (es_qp s);
  dr_ref : qp_ref (es_qp s') = qp_ref (es_qp s) - 1;
  dr_pkts : qp_req_pkts (es_qp s') = tail (qp_req_pkts (es_qp s));
  dr_resp : qp_resp (es_qp s') = qp_resp (es_qp s)
    <| resp_aeth_syndrome := AETH_ACK_UNLIMITED |>
    <| resp_sent_psn_nak := (psn_compare (pkt_psn pkt) (resp_psn (qp_resp (es_qp s))) >? 0)
                            || resp_sent_psn_nak (qp_resp (es_qp s)) |>;
  dr_send : qp_send_pkts (es_qp s') = qp_send_pkts (es_qp s) ++ acks
}.

(** Whatever was answered, the packet is removed. *)
Lemma wp_drop qe fuel pkt s r s1 acks Q :
  out_of_order s pkt → quiet (with_rm s r (rdev_mem (es_dev s))) s1 →
  r = qp_resp (es_qp s) <| resp_aeth_syndrome := AETH_ACK_UNLIMITED |>
        <| resp_sent_psn_nak := (psn_compare (pkt_psn pkt) (resp_psn (qp_resp (es_qp s))) >? 0)
                                || resp_sent_psn_nak (qp_resp (es_qp s)) |> →
  qp_send_pkts (es_qp s1) = qp_send_pkts (es_qp s) ++ acks →
  (∀ s', dropped pkt s s' acks → Q (Ok tt) s') →
  wp False (resp_loop qe (2 + fuel) RESPST_CLEANUP (Some pkt)) Q s1.
Proof using Type.
  intros Ho [_ Q1 Q2 Q3 Q4 Q5 Q6] -> Hs HQ. apply wp_cleanup.
  - rewrite Q5. pose proof (oo_head _ _ Ho) as Hh. intros E. cbn in E. by rewrite E in Hh.
  - rewrite Q6. apply Ho.
  - intros s' [_ R1 R2 R3 R4 R5 R6 R7]. apply HQ. rewrite Q6 in R1, R6. cbn in R1. rewrite (oo_mr _ _ Ho) in R1.
    split; [by rewrite R1, Q1|by rewrite R2, Q2|by rewrite R3, Q3|by rewrite R4, Q4|by rewrite R5, Q5| |by rewrite R7, Hs].
    rewrite R6. cbn. pose proof (oo_mr _ _ Ho) as Hm. destruct (qp_resp (es_qp s)). cbn in *. by rewrite Hm.
Qed.

(** The responder's information when the sequence number is checked. *)
Definition fetched (r : rxe_resp_info) : rxe_resp_info := r <| resp_aeth_syndrome := AETH_ACK_UNLIMITED |>.

(** The request is fetched. *)
Lemma wp_fetch F depth cfuel fuel s pkt Q :
  out_of_order s pkt →
  (∀ qe, wp F (resp_loop qe fuel RESPST_CHK_PSN (Some pkt)) Q
     (with_rm s (fetched (qp_resp (es_qp s))) (rdev_mem (es_dev s)))) →
  wp F (rxe_responder depth cfuel (1 + fuel)) Q s.
Proof using Type.
  intros Ho HQ. unfold rxe_responder. wp_run. rewrite upd_resp_rm.
  cbn [es_qp with_rm qp_valid qp_resp upd_field resp_state]. rewrite (oo_valid _ _ Ho). cbn [negb].
  rewrite (oo_state _ _ Ho), bool_decide_eq_false_2 by done.
  set (r1 := qp_resp (es_qp s) <| resp_aeth_syndrome := _ |>).
  apply wp_resp_step. cbn [resp_step]. unfold get_req. wp_run. cbn [es_qp with_rm qp_req_pkts qp_resp upd_field].
  change (resp_state r1) with (resp_state (qp_resp (es_qp s))).
  change (resp_cur_res r1) with (resp_cur_res (qp_resp (es_qp s))).
  rewrite (oo_state _ _ Ho), bool_decide_eq_false_2, (oo_res _ _ Ho) by done.
  pose proof (oo_head _ _ Ho) as Hh. destruct (qp_req_pkts (es_qp s)) as [|p l]; [done|]. injection Hh as ->.
  wp_run. apply HQ.
Qed.

(** A sequence number that has been executed. *)
Lemma wp_duplicate F depth cfuel fuel s pkt Q :
  out_of_order s pkt → psn_compare (pkt_psn pkt) (resp_psn (qp_resp (es_qp s))) < 0 →
  (∀ qe, wp F (resp_loop qe fuel RESPST_DUPLICATE_REQUEST (Some pkt)) Q
     (with_rm s (fetched (qp_resp (es_qp s))) (rdev_mem (es_dev s)))) →
  wp F (rxe_responder depth cfuel (2 + fuel)) Q s.
Proof using Type.
  intros Ho Hd HQ. apply (wp_fetch F depth cfuel (1 + fuel) s pkt); [done|]. intros qe.
  apply wp_resp_step. cbn [resp_step]. wp_run. unfold check_psn, qp_type. wp_run.
  cbn [es_qp with_rm qp_qp_type qp_resp upd_field]. rewrite (oo_type _ _ Ho).
  change (resp_psn (fetched (qp_resp (es_qp s)))) with (resp_psn (qp_resp (es_qp s))).
  change (IB_QPT_RC =? IB_QPT_RC) with true. cbv iota beta.
  destruct (Z.gtb_spec (psn_compare (pkt_psn pkt) (resp_psn (qp_resp (es_qp s)))) 0); [lia|].
  destruct (Z.ltb_spec (psn_compare (pkt_psn pkt) (resp_psn (qp_resp (es_qp s)))) 0); [|lia]. wp_run. apply HQ.
Qed.

(** A duplicate leaves the record of the gap alone. *)
Lemma fetched_duplicate s pkt :
  psn_compare (pkt_psn pkt) (resp_psn (qp_resp (es_qp s))) < 0 →
  fetched (qp_resp (es_qp s)) = qp_resp (es_qp s) <| resp_aeth_syndrome := AETH_ACK_UNLIMITED |>
    <| resp_sent_psn_nak := (psn_compare (pkt_psn pkt) (resp_psn (qp_resp (es_qp s))) >? 0)
                            || resp_sent_psn_nak (qp_resp (es_qp s)) |>.
Proof using Type.
  intros Hd. destruct (Z.gtb_spec (psn_compare (pkt_psn pkt) (resp_psn (qp_resp (es_qp s)))) 0); [lia|].
  unfold fetched. by destruct (qp_resp (es_qp s)).
Qed.

Lemma wp_out_of_order depth cfuel fuel s pkt :
  out_of_order s pkt →
  psn_compare (pkt_psn pkt) (resp_psn (qp_resp (es_qp s))) > 0 ∨
    flag_set (pkt_mask pkt) RXE_SEND_MASK || flag_set (pkt_mask pkt) RXE_WRITE_MASK = true →
  wp False (rxe_responder depth cfuel (5 + fuel)) (λ r s', r = Ok tt ∧
    ∃ acks, order_acks (es_qp s) pkt acks ∧ dropped pkt s s' acks) s.
Proof using Hbypass.
  intros Ho Hk. pose proof (oo_psn _ _ Ho) as Hne. unfold order_acks.
  destruct (Z.lt_ge_cases (psn_compare (pkt_psn pkt) (resp_psn (qp_resp (es_qp s)))) 0) as [Hd|Hd].
  - destruct (Z.gtb_spec (psn_compare (pkt_psn pkt) (resp_psn (qp_resp (es_qp s)))) 0); [lia|].
    apply (wp_duplicate False depth cfuel (3 + fuel) s pkt); [done|done|]. intros qe. destruct Hk as [?|Hk]; [lia|].
    apply wp_resp_step. cbn [resp_step]. wp_run. unfold duplicate_request. wp_run. rewrite Hk.
    pose proof (fetched_duplicate s pkt Hd) as Er.
    destruct (bth_ack pkt =? 0); cbn [negb]; unfold when; cbv iota; wp_run.
    + eapply (wp_drop qe fuel pkt s _ _ []); [done|apply quiet_refl|exact Er|by rewrite app_nil_r|].
      intros s' Hdr. split; [done|]. by exists [].
    + apply (wp_send_ack Hbypass); [apply Ho|apply Ho|done|]. intros ack s1 Ha Hq Hs. wp_run.
      eapply (wp_drop qe fuel pkt s _ s1 [ack]); [done|exact Hq|exact Er|exact Hs|].
      intros s' Hdr. split; [done|]. exists [ack]. split; [|done]. exists ack. split; [done|].
      eapply answer_ext; [| | |exact Ha]; done.
  - apply (wp_fetch False depth cfuel (4 + fuel) s pkt); [done|]. intros qe.
    apply wp_resp_step. cbn [resp_step]. wp_run. unfold check_psn, qp_type. wp_run.
    cbn [es_qp with_rm qp_qp_type qp_resp upd_field]. rewrite (oo_type _ _ Ho).
    change (resp_psn (fetched (qp_resp (es_qp s)))) with (resp_psn (qp_resp (es_qp s))).
    change (resp_sent_psn_nak (fetched (qp_resp (es_qp s)))) with (resp_sent_psn_nak (qp_resp (es_qp s))).
    change (IB_QPT_RC =? IB_QPT_RC) with true. cbv iota beta.
    destruct (Z.gtb_spec (psn_compare (pkt_psn pkt) (resp_psn (qp_resp (es_qp s)))) 0) as [Hg|]; [|lia].
    destruct (resp_sent_psn_nak (qp_resp (es_qp s))) eqn:Hn; wp_run.
    + eapply (wp_drop qe (1 + fuel) pkt s _ _ []); [done|apply quiet_refl| |by rewrite app_nil_r|].
      * apply Z.gtb_lt in Hg. rewrite Hg. unfold fetched. destruct (qp_resp (es_qp s)). cbn in Hn. by subst.
      * intros s' Hdr. split; [done|]. by exists [].
    + apply wp_resp_step. cbn [resp_step]. wp_run. rewrite with_rm_resp.
      apply (wp_send_ack Hbypass); [apply Ho|apply Ho|done|]. intros ack s1 Ha Hq Hs. wp_run.
      eapply (wp_drop qe fuel pkt s _ s1 [ack]); [done|exact Hq| |exact Hs|].
      * apply Z.gtb_lt in Hg. by rewrite Hg.
      * intros s' Hdr. split; [done|]. exists [ack]. split; [|done]. exists ack. split; [done|].
        eapply answer_ext; [| | |exact Ha]; done.
Qed.

(** C15: two kinds of requests of a reliable connection that do not have the
    expected sequence number: any request after a gap, and a send or write with a
    number that was executed before. The queue pair is ready to receive, with no
    read reply or region in progress, and memory for an answer is available. The
    responder executes nothing: it removes the packet, leaves memory, the receive
    queue, the completion queues and the expected sequence number alone, and
    answers as follows. The first packet after a gap gets a negative
    acknowledgement with the expected sequence number, later ones get nothing
    until the gap is closed, and a duplicate send or write is acknowledged again
    with the last executed sequence number if it asks for it. Repeated reads and
    atomic operations are not among these: the responder replays them. *)
Theorem responder_out_of_order depth cfuel fuel s pkt :
  out_of_order s pkt →
  psn_compare (pkt_psn pkt) (resp_psn (qp_resp (es_qp s))) > 0 ∨
    flag_set (pkt_mask pkt) RXE_SEND_MASK || flag_set (pkt_mask pkt) RXE_WRITE_MASK = true →
  ∃ s' acks, rxe_responder depth cfuel (5 + fuel) s = Some (Ok tt, s') ∧
    order_acks (es_qp s) pkt acks ∧ dropped pkt s s' acks.
Proof using Hbypass.
  intros Ho Hk. destruct (wp_total _ _ _ (wp_out_of_order depth cfuel fuel s pkt Ho Hk))
    as (r & s' & E & -> & acks & Ha & Hd). by exists s', acks.
Qed.
End order.

(** A packet that repeats the last one of the write of the examples, and one
    that skips a sequence number. *)
Lemma responder_out_of_order_witness :
  let dup := example_request IB_OPCODE_RC_RDMA_WRITE_LAST 0 1 id [15; 16] in
  let late := example_request IB_OPCODE_RC_SEND_ONLY 3 1 id [1; 2; 3] in
  let s0 := example_es (example_responder [dup; late] 1) in
  ∃ s1 s2 acks1 acks2,
    rxe_responder (H := example_params) 0 0 5 s0 = Some (Ok tt, s1) ∧
    rxe_responder (H := example_params) 0 0 5 s1 = Some (Ok tt, s2) ∧
    order_acks (es_qp s0) dup acks1 ∧ order_acks (es_qp s1) late acks2 ∧
    dropped dup s0 s1 acks1 ∧ dropped late s1 s2 acks2.
Proof.
  intros dup late s0.
  destruct (responder_out_of_order (H := example_params) eq_refl 0 0 0 s0 dup) as (s1 & acks1 & E1 & A1 & D1).
  { split; try (vm_compute; reflexivity); [split; [by eexists _, _|vm_compute; split; congruence]|vm_compute; discriminate]. }
  { right. reflexivity. }
  destruct (responder_out_of_order (H := example_params) eq_refl 0 0 0 s1 late) as (s2 & acks2 & E2 & A2 & D2).
  { vm_compute in E1. injection E1 as <-.
    split; try (vm_compute; reflexivity); [split; [by eexists _, _|vm_compute; split; congruence]|vm_compute; discriminate]. }
  { left. vm_compute in E1. injection E1 as <-. vm_compute. reflexivity. }
  exists s1, s2, acks1, acks2. split; [exact E1|]. split; [exact E2|]. split; [exact A1|]. split; [exact A2|].
  split; [exact D1|exact D2].
Defined.

(** ** A message inside a message on an unreliable connection *)

(** A write of several packets was begun, and the next packet starts another
    message. *)
Record interrupted (s : eng_state) (pkt : rxe_pkt_info) : Prop := {
  ir_valid : qp_valid (es_qp s) = true;
  ir_type : qp_qp_type (es_qp s) = IB_QPT_UC;
  ir_srq : qp_srq (es_qp s) = None;
  ir_state : resp_state (qp_resp (es_qp s)) = QP_STATE_READY;
  ir_res : resp_cur_res (qp_resp (es_qp s)) = None;
  ir_wqe : resp_wqe (qp_resp (es_qp s)) = None;
  ir_mr : resp_mr (qp_resp (es_qp s)) = None;
  ir_opcode : one_of (resp_opcode (qp_resp (es_qp s)))
    [IB_OPCODE_UC_RDMA_WRITE_FIRST; IB_OPCODE_UC_RDMA_WRITE_MIDDLE] = true;
  ir_head : head (qp_req_pkts (es_qp s)) = Some pkt;
  ir_start : flag_set (pkt_mask pkt) RXE_START_MASK = true;
  ir_new : one_of (pkt_opcode pkt) [IB_OPCODE_UC_RDMA_WRITE_MIDDLE; IB_OPCODE_UC_RDMA_WRITE_LAST;
    IB_OPCODE_UC_RDMA_WRITE_LAST_WITH_IMMEDIATE] = false
}.

Section livelock.
Context `{Params} (qe : eng unit).

Lemma check_op_seq_uc_interrupted prev opcode :
  one_of prev [IB_OPCODE_UC_RDMA_WRITE_FIRST; IB_OPCODE_UC_RDMA_WRITE_MIDDLE] = true →
  one_of opcode [IB_OPCODE_UC_RDMA_WRITE_MIDDLE; IB_OPCODE_UC_RDMA_WRITE_LAST;
                 IB_OPCODE_UC_RDMA_WRITE_LAST_WITH_IMMEDIATE] = false →
  check_op_seq_uc prev opcode = RESPST_ERR_MISSING_OPCODE_LAST_D1E.
Proof using Type.
  intros Hp Hn. unfold check_op_seq_uc. rewrite Hn, Hp.
  unfold one_of in Hp. cbn [existsb] in Hp. rewrite orb_false_r, orb_true_iff, !Z.eqb_eq in Hp.
  by destruct Hp as [-> | ->].
Qed.

(** The check of the opcode sequence and the state for a missing last packet
    lead to each other and change nothing. *)
Lemma livelock_cycle s pkt :
  interrupted s pkt →
  resp_step qe RESPST_CHK_OP_SEQ (Some pkt) s
    = Some (RespGoto RESPST_ERR_MISSING_OPCODE_LAST_D1E (Some pkt), s) ∧
  resp_step qe RESPST_ERR_MISSING_OPCODE_LAST_D1E (Some pkt) s
    = Some (RespGoto RESPST_CHK_OP_SEQ (Some pkt), s).
Proof using Type.
  intros []. unfold resp_step, check_op_seq, do_class_d1e_error, drop_resp_mr, deref, when, qp_type, get_qp, gets.
  unfold mbind, eng_bind, mret, eng_ret. cbv beta iota.
  rewrite ir_type0, check_op_seq_uc_interrupted, ir_srq0, ir_wqe0 by done. cbv beta iota. by rewrite ir_mr0.
Qed.

Lemma livelock_loop s pkt fuel :
  interrupted s pkt →
  resp_loop qe (2 + fuel) RESPST_CHK_OP_SEQ (Some pkt) s = resp_loop qe fuel RESPST_CHK_OP_SEQ (Some pkt) s ∧
  resp_loop qe fuel RESPST_CHK_OP_SEQ (Some pkt) s = None.
Proof using Type.
  intros Hi. destruct (livelock_cycle s pkt Hi) as [E1 E2].
  assert (L : ∀ f, resp_loop qe (2 + f) RESPST_CHK_OP_SEQ (Some pkt) s = resp_loop qe f RESPST_CHK_OP_SEQ (Some pkt) s).
  { intros f. cbn [Nat.add resp_loop]. unfold mbind, eng_bind at 1. rewrite E1.
    unfold eng_bind. by rewrite E2. }
  split; [apply L|]. induction fuel as [fuel IH] using lt_wf_ind.
  destruct fuel as [|[|fuel]]; [done| |change (S (S fuel)) with (2 + fuel)%nat; rewrite (L fuel); apply IH; lia].
  cbn [resp_loop]. unfold mbind, eng_bind. by rewrite E1.
Qed.

(** More iterations do not change a result. *)
Lemma resp_loop_more fuel fuel' st pkt s x :
  (fuel ≤ fuel')%nat → resp_loop qe fuel st pkt s = Some x → resp_loop qe fuel' st pkt s = Some x.
Proof using Type.
  revert fuel' st pkt s. induction fuel as [|fuel IH]; intros fuel' st pkt s Hle E; [done|].
  destruct fuel' as [|fuel']; [lia|]. cbn [resp_loop] in *. unfold mbind, eng_bind in *.
  destruct (resp_step qe st pkt s) as [[[st' pkt'| |] s']|]; [|done..]. apply IH; [lia|done].
Qed.
End livelock.

(** The iterations before the opcode sequence is checked. *)
Lemma livelock_enter `{Params} depth cfuel s pkt :
  interrupted s pkt →
  ∃ s' qe, interrupted s' pkt ∧ rdev_mem (es_dev s') = rdev_mem (es_dev s) ∧
    ∀ fuel, rxe_responder depth cfuel (2 + fuel) s = resp_loop qe fuel RESPST_CHK_OP_SEQ (Some pkt) s'.
Proof.
  intros []. set (qe := rxe_qp_error (__rxe_do_task (rxe_completer depth cfuel) cfuel)).
  set (s1 := with_rm s (qp_resp (es_qp s) <| resp_aeth_syndrome := AETH_ACK_UNLIMITED |>) (rdev_mem (es_dev s))).
  exists (if resp_drop_msg (qp_resp (es_qp s)) || negb (psn_compare (pkt_psn pkt) (resp_psn (qp_resp (es_qp s))) =? 0)
    then with_rm s1 (qp_resp (es_qp s1) <| resp_drop_msg := false |>) (rdev_mem (es_dev s1)) else s1), qe.
  split; [case_match; split; done|]. split; [by case_match|]. intros fuel.
  unfold rxe_responder, mod_resp, mod_qp, modify, get_qp, gets, mbind, eng_bind. rewrite upd_resp_rm. fold s1.
  change (qp_valid (es_qp s1)) with (qp_valid (es_qp s)). rewrite ir_valid0. cbn [negb].
  change (resp_state (qp_resp (es_qp s1))) with (resp_state (qp_resp (es_qp s))).
  rewrite ir_state0, bool_decide_eq_false_2 by done. fold qe.
  cbn [Nat.add resp_loop resp_step]. unfold get_req, deref, get_qp, gets, mbind, eng_bind, mret, eng_ret.
  change (resp_state (qp_resp (es_qp s1))) with (resp_state (qp_resp (es_qp s))).
  change (qp_req_pkts (es_qp s1)) with (qp_req_pkts (es_qp s)).
  change (resp_cur_res (qp_resp (es_qp s1))) with (resp_cur_res (qp_resp (es_qp s))).
  rewrite ir_state0, bool_decide_eq_false_2, ir_res0 by done. destruct (qp_req_pkts (es_qp s)) as [|p l]; [done|].
  injection ir_head0 as ->. cbv beta iota.
  cbn [resp_step]. unfold deref, check_psn, qp_type, get_qp, gets, mbind, eng_bind, mret, eng_ret.
  change (qp_qp_type (es_qp s1)) with (qp_qp_type (es_qp s)). rewrite ir_type0.
  change (IB_QPT_UC =? IB_QPT_RC) with false. change (IB_QPT_UC =? IB_QPT_UC) with true. cbv beta iota.
  change (resp_drop_msg (qp_resp (es_qp s1))) with (resp_drop_msg (qp_resp (es_qp s))).
  change (resp_psn (qp_resp (es_qp s1))) with (resp_psn (qp_resp (es_qp s))).
  destruct (resp_drop_msg (qp_resp (es_qp s)) || _); [|done]. rewrite ir_start0.
  unfold mod_resp, mod_qp, modify. by rewrite upd_resp_rm.
Qed.

(** On an unreliable connection without a shared receive queue, a packet
    that starts a message while an RDMA write of several packets is going on
    sends the responder into a loop that no number of iterations ends: the
    check of the opcode sequence and the handling of the missing last packet
    lead to each other without changing the state, since the recorded opcode is
    only reset when a receive work request is in use. *)
Theorem responder_uc_livelock `{Params} depth cfuel s pkt :
  interrupted s pkt →
  (∀ fuel, rxe_responder depth cfuel fuel s = None) ∧
  ∃ s' qe, rdev_mem (es_dev s') = rdev_mem (es_dev s) ∧
    (∀ fuel, resp_loop qe (2 + fuel) RESPST_CHK_OP_SEQ (Some pkt) s'
       = resp_loop qe fuel RESPST_CHK_OP_SEQ (Some pkt) s') ∧
    resp_step qe RESPST_CHK_OP_SEQ (Some pkt) s'
      = Some (RespGoto RESPST_ERR_MISSING_OPCODE_LAST_D1E (Some pkt), s') ∧
    resp_step qe RESPST_ERR_MISSING_OPCODE_LAST_D1E (Some pkt) s'
      = Some (RespGoto RESPST_CHK_OP_SEQ (Some pkt), s').
Proof.
  intros Hi. destruct (livelock_enter depth cfuel s pkt Hi) as (s' & qe & Hi' & Hm & E). split.
  - intros fuel. destruct (rxe_responder depth cfuel fuel s) as [x|] eqn:Ex; [|done]. exfalso.
    assert (Ey : rxe_responder depth cfuel (2 + fuel) s = Some x).
    { unfold rxe_responder, mod_resp, mod_qp, modify, get_qp, gets, mbind, eng_bind in Ex |- *.
      destruct (negb _); [done|]. eapply resp_loop_more; [|exact Ex]. lia. }
    rewrite E, (proj2 (livelock_loop qe s' pkt fuel Hi')) in Ey. discriminate.
  - exists s', qe. split; [done|]. split; [intros fuel; by apply livelock_loop|]. by apply livelock_cycle.
Qed.

(** A queue pair of the unreliable service gets the first packet of a write and
    then a packet that is a write of its own. *)
Lemma responder_uc_livelock_witness :
  let first := example_request IB_OPCODE_UC_RDMA_WRITE_FIRST 7 0
    (λ p, reth_set_len (reth_set_rkey (reth_set_va p 1000) 0x102) 6) [11; 12; 13; 14] in
  let only := example_request IB_OPCODE_UC_RDMA_WRITE_ONLY 8 0
    (λ p, reth_set_len (reth_set_rkey (reth_set_va p 1000) 0x102) 2) [21; 22] in
  let s0 := example_es (example_responder [first; only] 7 <| qp_qp_type := IB_QPT_UC |>) in
  ∃ s1, rxe_responder (H := example_params) 0 0 20 s0 = Some (Ok tt, s1) ∧
    qp_req_pkts (es_qp s1) = [only] ∧ ∀ fuel, rxe_responder (H := example_params) 0 0 fuel s1 = None.
Proof.
  intros first only s0. eexists. split; [vm_compute; reflexivity|]. split; [vm_compute; reflexivity|].
  refine (proj1 (responder_uc_livelock (H := example_params) 0 0 _ only _)).
  split; vm_compute; reflexivity.
Defined.
