(* ===== verification/RespRefuse.v ===== *)
(** * Requests the responder refuses (rxe_resp.c)

    A request whose remote key does not name a region that permits the access
    and contains the range touches no memory. *)

From stdpp Require Import gmap.
From S2P Require Import Prelude Bits Queue Opcode Hdr Verbs Icrc Mr Sge Cq State Comp Arbiter Req ReqPacket.
From S2P Require Import Message Resp Ack RespSteps Deliver DeliverWrite.

(** The request in [pkt] asks for access to memory it may not have: no region
    of its key permits the access and contains the range, or the packet of a
    write has the wrong length. *)
Definition no_access (s : eng_state) (pkt : rxe_pkt_info) : Prop :=
  let r := addressed pkt (qp_resp (es_qp s)) in
  ∀ p m, key_pool (Z.shiftr (resp_rkey r) 8) = Some p →
    pool_of (rdev_mem (es_dev s)) p !! Z.shiftr (resp_rkey r) 8 = Some m →
    mem_permits m (qp_pd (es_qp s)) (pkt_access pkt) (resp_rkey r) lookup_remote →
    mem_check_range m (resp_va r) (resp_resid r) ≠ Ok tt ∨
    (flag_set (pkt_mask pkt) RXE_WRITE_MASK = true ∧
     write_length_ok pkt (resp_resid r) (qp_mtu_bytes (es_qp s)) = false).

(** A read, atomic operation or write that arrives in order on a reliable
    connection and takes no receive request. *)
Record memory_request (s : eng_state) (pkt : rxe_pkt_info) : Prop := {
  mq_order : in_order s pkt;
  mq_permitted : op_permitted (es_qp s) pkt = true;
  mq_access : flag_set (pkt_mask pkt) (RXE_READ_MASK .| RXE_WRITE_MASK)
    || flag_set (pkt_mask pkt) RXE_ATOMIC_MASK = true;
  mq_rdatm : flag_set (pkt_mask pkt) RXE_READ_OR_ATOMIC = true → 0 < qa_max_rd_atomic (qp_attr (es_qp s));
  mq_rwr : flag_set (pkt_mask pkt) RXE_READ_OR_ATOMIC = false → flag_set (pkt_mask pkt) RXE_RWR_MASK = false;
  mq_refs : refs_pos (rdev_mem (es_dev s));
  mq_wqe : resp_wqe (qp_resp (es_qp s)) = None;
  mq_mr : resp_mr (qp_resp (es_qp s)) = None
}.

(** The request is gone, with nothing else changed but the state of the queue
    pair. *)
Record refused (s s' : eng_state) : Prop := {
  rf_mem : rdev_mem (es_dev s') = rdev_mem (es_dev s);
  rf_cqs : rdev_cqs (es_dev s') = rdev_cqs (es_dev s);
  rf_rq : qp_rq (es_qp s') = qp_rq (es_qp s);
  rf_ref : qp_ref (es_qp s') = qp_ref (es_qp s) - 1;
  rf_pkts : qp_req_pkts (es_qp s') = tail (qp_req_pkts (es_qp s));
  rf_send : qp_send_pkts (es_qp s') = qp_send_pkts (es_qp s);
  rf_psn : resp_psn (qp_resp (es_qp s')) = resp_psn (qp_resp (es_qp s));
  rf_req : req_state (qp_req (es_qp s')) = QP_STATE_ERROR;
  rf_resp : resp_state (qp_resp (es_qp s')) = QP_STATE_ERROR
}.

Section refuse.
Context `{Params}.

(** The lookup fails or is undone. *)
Lemma wp_check_rkey_refused F s pkt Q :
  flag_set (pkt_mask pkt) (RXE_READ_MASK .| RXE_WRITE_MASK) || flag_set (pkt_mask pkt) RXE_ATOMIC_MASK = true →
  refs_pos (rdev_mem (es_dev s)) → no_access s pkt →
  (∀ st, st = RESPST_ERR_RKEY_VIOLATION ∨ st = RESPST_ERR_LENGTH →
     Q st (with_rm s (addressed pkt (qp_resp (es_qp s))) (rdev_mem (es_dev s)))) →
  wp F (check_rkey pkt) Q s.
Proof using Type.
  intros Hn Hpos Hno HQ. set (r := addressed pkt (qp_resp (es_qp s))) in *.
  assert (Hm : wp F (check_rkey_mem pkt (pkt_access pkt)) Q (with_rm s r (rdev_mem (es_dev s)))).
  { unfold check_rkey_mem. wp_run. cbn [es_qp es_dev with_rm qp_resp qp_pd qp_mtu_bytes rdev_mem upd_field].
    destruct (lookup_mem_cases (rdev_mem (es_dev s)) (qp_pd (es_qp s)) (pkt_access pkt) (resp_rkey r) lookup_remote)
      as [[-> _]|(p & m & m1 & d & -> & Hk & Hm & Hp & Hh)]; [done| |]; wp_run; rewrite with_rm_mem.
    { apply HQ. by left. }
    pose proof (held_drop _ _ _ _ Hpos Hh) as Hd.
    assert (E : mem_check_range m1 (resp_va r) (resp_resid r) = mem_check_range m (resp_va r) (resp_resid r)).
    { destruct Hh as (m2 & Hm2 & -> & _). cbn in Hm2. by simplify_eq. }
    specialize (Hno p m Hk Hm Hp). fold r in Hno. rewrite E.
    destruct (mem_check_range m (resp_va r) (resp_resid r)) as [[]|]; [|unfold mem_unref; wp_run].
    - destruct Hno as [?|[-> ->]]; [done|]. cbn [andb negb]. unfold mem_unref. wp_run. rewrite with_rm_mem, Hd.
      apply HQ. by right.
    - rewrite with_rm_mem, Hd. apply HQ. by left. }
  unfold check_rkey. unfold r, addressed, pkt_access in Hm.
  destruct (flag_set (pkt_mask pkt) (RXE_READ_MASK .| RXE_WRITE_MASK)).
  - wp_run. apply wp_when; intros Hre; rewrite Hre in Hm; wp_run; [by rewrite upd_resp_rm|].
    by rewrite with_rm_id in Hm.
  - cbn [orb] in Hn. rewrite Hn. wp_run. by rewrite upd_resp_rm.
Qed.
(** An error of class C when no receive work request is in use: the packet is
    removed and the queue pair moves to the error state. *)
Lemma wp_class_c F comp_task fuel pkt s Q :
  let qe := rxe_qp_error comp_task in
  qp_qp_type (es_qp s) = IB_QPT_RC → qp_req_pkts (es_qp s) ≠ [] →
  resp_wqe (qp_resp (es_qp s)) = None → resp_mr (qp_resp (es_qp s)) = None →
  resp_goto_error (qp_resp (es_qp s)) = true →
  (∀ s', refused s s' → Q (Err EAGAIN) s') →
  wp F (resp_loop qe (4 + fuel) RESPST_COMPLETE (Some pkt)) Q s.
Proof using Type.
  intros qe Hty Hp Hw Hm He HQ. apply wp_resp_step. cbn [resp_step]. wp_run. unfold do_complete. wp_run.
  rewrite Hw. wp_run. apply wp_resp_step. cbn [resp_step]. wp_run. unfold cleanup, dequeue_req_pkt. wp_run.
  destruct (qp_req_pkts (es_qp s)) as [|p l] eqn:El; [done|]. wp_run.
  unfold free_req_pkt, qp_drop_ref, drop_resp_mr. wp_run. cbn [es_qp qp_resp upd_field]. rewrite Hm. wp_run.
  apply wp_resp_step. cbn [resp_step]. wp_run. cbn [es_qp qp_resp upd_field]. rewrite He. wp_run.
  apply wp_resp_step. cbn [resp_step]. wp_run. unfold qe, rxe_qp_error, qp_type. wp_run.
  cbn [es_qp qp_qp_type upd_field]. rewrite Hty, Z.eqb_refl. wp_run.
  apply HQ. split; cbn; rewrite ?El; done.
Qed.

Lemma memory_request_resourced s pkt r :
  memory_request s pkt →
  resourced (with_rm s r (rdev_mem (es_dev s))) pkt r.
Proof using Type.
  intros Hq. unfold resourced.
  destruct (flag_set (pkt_mask pkt) RXE_READ_OR_ATOMIC) eqn:Ha; [by split; [apply (mq_rdatm _ _ Hq)|]|].
  by rewrite (mq_rwr _ _ Hq).
Qed.

Lemma wp_refused F depth cfuel fuel s pkt :
  memory_request s pkt → no_access s pkt →
  wp F (rxe_responder depth cfuel (12 + fuel)) (λ r s', r = Err EAGAIN ∧ refused s s') s.
Proof using Type.
  intros Hq Hno. pose proof (mq_order _ _ Hq) as Hio. unfold rxe_responder. wp_run. rewrite upd_resp_rm.
  cbn [es_qp with_rm qp_valid qp_resp upd_field resp_state]. rewrite (io_valid _ _ Hio). cbn [negb].
  rewrite (io_state _ _ Hio), bool_decide_eq_false_2 by done.
  set (r1 := qp_resp (es_qp s) <| resp_aeth_syndrome := AETH_ACK_UNLIMITED |>).
  apply (wp_in_order_seq _ _ (9 + fuel) pkt); [by destruct Hio; split|]. rewrite with_rm_rm.
  set (r2 := qp_resp (es_qp (with_rm s r1 (rdev_mem (es_dev s)))) <| resp_sent_psn_nak := false |>).
  change (rdev_mem (es_dev (with_rm s r1 (rdev_mem (es_dev s))))) with (rdev_mem (es_dev s)).
  apply (wp_op_valid _ _ (8 + fuel)); [apply Hio|apply Hq|].
  eapply (wp_resource _ _ (6 + fuel) _ _ _ r2); [apply Hio|by apply (memory_request_resourced s)|].
  rewrite with_rm_rm. apply wp_resp_step. cbn [resp_step]. wp_run.
  assert (Er : addressed pkt r2 = addressed pkt (qp_resp (es_qp s))
    <| resp_aeth_syndrome := AETH_ACK_UNLIMITED |> <| resp_sent_psn_nak := false |>) by apply addressed_front.
  assert (Hno' : no_access (with_rm s r2 (rdev_mem (es_dev s))) pkt).
  { unfold no_access. cbn [es_qp es_dev with_rm qp_resp qp_pd qp_mtu_bytes rdev_mem upd_field]. rewrite Er. exact Hno. }
  apply wp_check_rkey_refused; [apply Hq|apply Hq|exact Hno'|]. intros st Hst. wp_run. rewrite with_rm_rm.
  cbn [es_qp es_dev with_rm qp_resp rdev_mem upd_field]. rewrite Er.
  destruct (addressed_fields pkt (qp_resp (es_qp s))) as (_ & _ & _ & _ & F5 & F6 & F7).
  apply wp_resp_step. destruct Hst as [-> | ->]; cbn [resp_step]; unfold resp_err_rkey, resp_err_length, qp_type;
    wp_run; cbn [es_qp with_rm qp_qp_type upd_field]; rewrite (io_type _ _ Hio), Z.eqb_refl;
    unfold do_class_ac_error; wp_run; rewrite with_rm_resp;
    (apply wp_class_c; [apply Hio|pose proof (io_head _ _ Hio) as Hh; by intros E; cbn in E; rewrite E in Hh
      |cbn; by rewrite F5, (mq_wqe _ _ Hq)|cbn; by rewrite F6, (mq_mr _ _ Hq)|done|]);
    intros s' []; (split; [done|]); split; try done; rewrite rf_psn0; cbn; by rewrite F7.
Qed.

(** C17: on a reliable connection, a read, atomic operation or write without
    immediate data that arrives in order and is permitted, while no receive
    request is in use, but whose remote key names no region that permits the
    access in the protection domain of the queue pair and contains the range, or
    whose length does not fit the write it belongs to, changes no byte of memory,
    keeps no reference to a region, posts no completion and leaves the expected
    sequence number alone; its packet is freed and the queue pair moves to the
    error state. No packet is sent: the negative acknowledgement the error path
    prepares never leaves, because no receive request is in use. A write with
    immediate data takes a receive request first and is not covered, nor is an
    unreliable connection. *)
Theorem responder_refuses depth cfuel fuel s pkt :
  memory_request s pkt → no_access s pkt →
  ∃ s', rxe_responder depth cfuel (12 + fuel) s = Some (Err EAGAIN, s') ∧ refused s s'.
Proof using Type.
  intros Hq Hno. destruct (wp_total _ _ _ (wp_refused False depth cfuel fuel s pkt Hq Hno)) as (r & s' & E & -> & Hr).
  by exists s'.
Qed.
End refuse.

(** A write through a key whose low byte is wrong, and one that reaches one byte
    past the region. *)
Lemma responder_refuses_witness :
  let write key len := example_request IB_OPCODE_RC_RDMA_WRITE_ONLY 7 1
    (λ p, reth_set_len (reth_set_rkey (reth_set_va p 1004) key) len) (replicate (Z.to_nat len) 9) in
  let s0 key len := example_es (example_responder [write key len] 7) in
  (∃ s', rxe_responder (H := example_params) 0 0 12 (s0 0x103 3) = Some (Err EAGAIN, s') ∧ refused (s0 0x103 3) s') ∧
  (∃ s', rxe_responder (H := example_params) 0 0 12 (s0 0x102 4) = Some (Err EAGAIN, s') ∧ refused (s0 0x102 4) s').
Proof.
  intros write s0.
  assert (Hq : ∀ key len, (key, len) = (0x103, 3) ∨ (key, len) = (0x102, 4) → memory_request (s0 key len) (write key len)).
  { intros key len [[= -> ->]|[= -> ->]]; split; try (vm_compute; (reflexivity || discriminate));
      [split; vm_compute; reflexivity|apply example_refs_pos|split; vm_compute; reflexivity|apply example_refs_pos]. }
  split.
  - apply (responder_refuses (H := example_params) 0 0 0 (s0 0x103 3) (write 0x103 3)); [apply Hq; by left|].
    intros p m Hk Hm (Hkey & _). exfalso. vm_compute in Hk. injection Hk as <-. vm_compute in Hm. injection Hm as <-.
    vm_compute in Hkey. discriminate.
  - apply (responder_refuses (H := example_params) 0 0 0 (s0 0x102 4) (write 0x102 4)); [apply Hq; by right|].
    intros p m Hk Hm _. left. vm_compute in Hk. injection Hk as <-. vm_compute in Hm. injection Hm as <-.
    vm_compute. discriminate.
Defined.
