(* ===== verification/RespAtomic.v ===== *)
(** * Atomic operations at the responder (rxe_resp.c)

    A compare-and-swap or fetch-and-add that arrives in order is executed and
    answered with the old value. The answer is kept for retries, but under the
    wrong sequence number. *)

From stdpp Require Import gmap.
From S2P Require Import Prelude Bits Queue Opcode Hdr Verbs Icrc Mr Sge Cq State Comp Arbiter Req ReqPacket.
From S2P Require Import Message Resp Ack RespSteps Deliver DeliverWrite DeliverRead RespOrder.

Definition rc_atomic_requests : list Z := [IB_OPCODE_RC_COMPARE_SWAP; IB_OPCODE_RC_FETCH_ADD].

(** An atomic request, as it arrives. *)
Record atomic_request (psn va rkey : Z) (pkt : rxe_pkt_info) : Prop := {
  aq_opcode : pkt_opcode pkt ∈ rc_atomic_requests;
  aq_mask : ∃ x, link_mask x ∧ pkt_mask pkt = x .| opcode_mask (pkt_opcode pkt);
  aq_psn : pkt_psn pkt = psn;
  aq_offset : pkt_offset pkt = RXE_GRH_BYTES;
  aq_room : RXE_GRH_BYTES + RXE_BTH_BYTES ≤ Z.of_nat (length (pkt_hdr pkt));
  aq_va : atmeth_va pkt = va;
  aq_rkey : atmeth_rkey pkt = rkey
}.

Record atomic_opcode_facts (op : Z) : Prop := {
  af_rw : flag_set (opcode_mask op) (RXE_READ_MASK .| RXE_WRITE_MASK) = false;
  af_atomic : flag_set (opcode_mask op) RXE_ATOMIC_MASK = true;
  af_read : flag_set (opcode_mask op) RXE_READ_MASK = false;
  af_write : flag_set (opcode_mask op) RXE_WRITE_MASK = false;
  af_send : flag_set (opcode_mask op) RXE_SEND_MASK = false;
  af_rdatm : flag_set (opcode_mask op) RXE_READ_OR_ATOMIC = true;
  af_comp : flag_set (opcode_mask op) RXE_COMP_MASK = false
}.

Lemma atomic_opcode_spec op : op ∈ rc_atomic_requests → atomic_opcode_facts op.
Proof.
  intros Hop. repeat (apply elem_of_cons in Hop as [->|Hop]); [..|by apply not_elem_of_nil in Hop].
  all: split; vm_compute; reflexivity.
Qed.

Lemma atomic_request_flag psn va rkey pkt m :
  atomic_request psn va rkey pkt → (RXE_GRH_MASK .| RXE_LOOPBACK_MASK) .& m = 0 →
  flag_set (pkt_mask pkt) m = flag_set (opcode_mask (pkt_opcode pkt)) m.
Proof. intros [_ (x & Hx & ->)] Hm. by apply link_mask_flag. Qed.

(** The eight bytes at [va] of the region lie in one of its buffers, at [a]. *)
Definition word_at (m : rxe_mem) (va a : Z) : Prop :=
  ∃ mp bs k off b, mem_region m mp bs ∧ mem_iova m ≤ va ∧ va + 8 ≤ mem_iova m + mem_length m ∧
    locate bs (va - mem_iova m + mem_offset m) = Some (k, off) ∧ bs !! Z.to_nat k = Some b ∧
    off + 8 ≤ pb_size b ∧ a = pb_addr b + off.

(** The code finds the word, and it is where the region maps the range. *)
Lemma word_at_found m va a :
  word_at m va a → mem_state m = RXE_MEM_STATE_VALID →
  mem_check_range m va 8 = Ok tt ∧ iova_to_vaddr m va 8 = Some (Some a) ∧
  ∃ mp bs, mem_region m mp bs ∧ take 8 (region_addrs m bs va) = seqZ a 8.
Proof.
  intros (mp & bs & k & off & b & Hr & Hlo & Hhi & Hloc & Hb & Hoff & ->) Hst.
  pose proof Hr as [Hmp Hfull [un Hun] Hok Hty Hnn Hfit Hsz Hnw Hpg].
  assert (Hc : mem_check_range m va 8 = Ok tt).
  { apply (mem_check_range_iff m mp bs); [done|lia|lia|]. split; [lia|left; lia]. }
  destruct (lookup_iova_locate _ _ _ va Hr) as (k1 & off1 & Hloc1 & Hlk); [lia|].
  rewrite Hloc in Hloc1. injection Hloc1 as <- <-.
  destruct (locate_spec bs (va - mem_iova m + mem_offset m) Hok)
    as (k' & off' & Hloc' & Hk & Ho & Hd & b' & Hb' & Hbo); [lia|].
  rewrite Hloc in Hloc'. injection Hloc' as <- <-. rewrite Hb in Hb'. injection Hb' as <-.
  split; [done|]. split.
  - unfold iova_to_vaddr. rewrite bool_decide_eq_true_2, Hmp, Hc, Hlk by done. cbn [negb mbind option_bind].
    rewrite (buf_at_flat m mp) by done. rewrite Hun, lookup_app_l, Hb by (by eapply lookup_lt_Some).
    cbn [mbind option_bind]. destruct (Z.gtb_spec (off + 8) (pb_size b)); [lia|done].
  - exists mp, bs. split; [done|]. unfold region_addrs. rewrite Hd, (drop_S _ _ _ Hb). unfold bufs_addrs. cbn [map concat].
    unfold buf_addrs at 1. change 8%nat with (Z.to_nat 8). rewrite drop_app_le by (rewrite length_seqZ; lia).
    rewrite drop_seqZ, take_app_le by (rewrite ?length_seqZ; lia). by rewrite take_seqZ by lia.
Qed.

(** The remote key and address name the aligned word at [a]. *)
Definition word_target (dev : mem_dev) (pd rkey va a : Z) : Prop :=
  ∃ p m, key_pool (Z.shiftr rkey 8) = Some p ∧ pool_of dev p !! Z.shiftr rkey 8 = Some m ∧
    mem_permits m pd IB_ACCESS_REMOTE_ATOMIC rkey lookup_remote ∧ word_at m va a ∧ a ≠ 0 ∧ a .& 7 = 0.

(** ** The answer *)

(** The answer of an atomic operation as its resource keeps it. *)
Definition stored_res (psn : Z) (ack : rxe_pkt_info) (res : resp_res) : resp_res :=
  res <| res_type := RXE_ATOMIC_MASK |> <| res_ptr := res_skb ack |>
      <| res_first_psn := psn |> <| res_last_psn := psn |> <| res_cur_psn := psn |>.

(** The answer is queued and stored; the resource has a reference. *)
Record atomic_acked (s s' : eng_state) (l : list resp_res) (res : resp_res) (ack : rxe_pkt_info) : Prop := {
  aa_unmoved : unmoved s s';
  aa_mem : rdev_mem (es_dev s') = rdev_mem (es_dev s);
  aa_cqs : rdev_cqs (es_dev s') = rdev_cqs (es_dev s);
  aa_rq : qp_rq (es_qp s') = qp_rq (es_qp s);
  aa_ref : qp_ref (es_qp s') = qp_ref (es_qp s) + 1;
  aa_pkts : qp_req_pkts (es_qp s') = qp_req_pkts (es_qp s);
  aa_send : qp_send_pkts (es_qp s') = qp_send_pkts (es_qp s) ++ [ack];
  aa_resp : ∃ head, qp_resp (es_qp s') = qp_resp (es_qp s)
    <| resp_resources := Some (<[Z.to_nat (resp_res_head (qp_resp (es_qp s))) :=
         stored_res (resp_psn (qp_resp (es_qp s))) ack res]> l) |> <| resp_res_head := head |>
}.

Section atomic.
Context `{Params} (Hbypass : rxe_bypass_arbiter = false).

(** A resource that is free is taken. *)
Lemma wp_take_resource F l res Q s :
  let r := qp_resp (es_qp s) in
  let i := Z.to_nat (resp_res_head r) in
  resp_resources r = Some l → l !! i = Some res → res_type res = 0 →
  (∀ head, Q i (with_rm s (r <| resp_resources ::= option_map (alter (λ r, r <| res_type := 0 |>) i) |>
                             <| resp_res_head := head |>) (rdev_mem (es_dev s)))) →
  wp F take_resource Q s.
Proof using Type.
  intros r i Hl Hi Hty HQ. rewrite <- (with_rm_id s). fold r. unfold take_resource, free_rd_atomic_resource. wp_run.
  eapply wp_get_res; [exact Hl|exact Hi|]. rewrite Hty. change (0 =? RXE_ATOMIC_MASK) with false.
  change (0 =? RXE_READ_MASK) with false. unfold when, upd_res, rxe_advance_resp_resource. cbv iota. wp_run.
  rewrite !with_rm_resp. apply HQ.
Qed.

(** A clone is queued, and counted by a reference. *)
Lemma wp_send_clone F skb Q s :
  es_alloc s = [] →
  (∀ s1 s', s1 = s <| es_qp ::= λ q, q <| qp_ref ::= (λ n, n + 1) |> |> → quiet s1 s' →
     qp_send_pkts (es_qp s') = qp_send_pkts (es_qp s) ++ [skb] → Q tt s') →
  wp F (send_clone skb) Q s.
Proof using Hbypass.
  intros Hal HQ. unfold send_clone. wp_run. unfold next_alloc, wp at 1. rewrite Hal. cbv beta match.
  unfold qp_add_ref. wp_run. apply (wp_send_answer Hbypass). intros s' [] Hs.
  eapply HQ; [done| |exact Hs]. split; try done. destruct qt_unmoved. by split.
Qed.

Lemma wp_send_atomic_ack F s pkt l res Q :
  es_alloc s = [] → answerable (es_dev s) pkt → resp_resources (qp_resp (es_qp s)) = Some l →
  l !! Z.to_nat (resp_res_head (qp_resp (es_qp s))) = Some res → res_type res = 0 →
  (∀ ack s', answer (es_qp s) pkt IB_OPCODE_RC_ATOMIC_ACKNOWLEDGE 0 (pkt_psn pkt) AETH_ACK_UNLIMITED ack →
     atomic_acked s s' l res ack → Q (Ok tt) s') →
  wp F (send_atomic_ack pkt AETH_ACK_UNLIMITED) Q s.
Proof using Hbypass.
  intros Hal Han Hl Hi Hty HQ. unfold send_atomic_ack. wp_run.
  assert (Hop : IB_OPCODE_RC_ATOMIC_ACKNOWLEDGE ∈ answer_opcodes) by (apply list_elem_of_In; vm_compute; tauto).
  apply wp_prepare_ack; [exact Hop|lia|done|done|]. intros ack0 s1 Ha Hq1 Hs1. wp_run.
  pose proof (kept_quiet _ _ _ _ (kept_refl s) Hq1) as K1. pose proof (kp_resp _ _ _ K1) as E1.
  apply (ack_crc_answer _ _ _ _ _ _ _ Hop) in Ha. set (ack := ack_crc ack0) in *. clearbody ack.
  eapply (wp_take_resource F l res); rewrite ?E1; [done|done|done|]. intros head. wp_run. unfold upd_res. wp_run.
  rewrite with_rm_resp. match goal with |- wp _ _ _ (with_rm _ ?r _) => set (r2 := r) end.
  set (i := Z.to_nat (resp_res_head (qp_resp (es_qp s)))) in *.
  assert (E2 : r2 = qp_resp (es_qp s) <| resp_resources := Some (<[i := stored_res (resp_psn (qp_resp (es_qp s))) ack res]> l) |>
    <| resp_res_head := head |>).
  { change (stored_res (resp_psn (qp_resp (es_qp s))) ack res)
      with (stored_res (resp_psn (qp_resp (es_qp s))) ack (res <| res_type := 0 |>)).
    rewrite <- (upd_resources_twice (qp_resp (es_qp s)) i l res (λ r, r <| res_type := 0 |>)
      (stored_res (resp_psn (qp_resp (es_qp s))) ack)) by done.
    unfold r2, stored_res. clearbody i. by destruct (qp_resp (es_qp s)). }
  clearbody r2. apply wp_send_clone; [by cbn; rewrite (um_alloc _ _ (kp_unmoved _ _ _ K1))|].
  intros s2 s3 -> [U3 Q1 Q2 Q3 Q4 Q5 Q6] Hs3. wp_run. apply (HQ ack s3 Ha). destruct K1 as [U1 L1 L2 L3 L4 L5 L6].
  split; [eapply unmoved_trans; [exact U1|]; destruct U3; by split|by rewrite Q1|by rewrite Q2|by rewrite Q3
    |rewrite Q4; cbn; by rewrite L4|by rewrite Q5|rewrite Hs3; cbn; by rewrite Hs1|].
  exists head. by rewrite Q6.
Qed.
End atomic.

(** ** The operation *)

Lemma word_lookup dev pd rkey va a :
  refs_pos dev → word_target dev pd rkey va a →
  ∃ dev' h m, lookup_mem dev pd IB_ACCESS_REMOTE_ATOMIC rkey lookup_remote = (dev', Some (h, m)) ∧
    pool_of dev' h.1 !! h.2 = Some m ∧ dev_phys dev' = dev_phys dev ∧
    (∀ ph, mem_drop_ref (with_phys dev' ph) h = with_phys dev ph) ∧
    mem_state m = RXE_MEM_STATE_VALID ∧ mem_check_range m va 8 = Ok tt ∧ iova_to_vaddr m va 8 = Some (Some a).
Proof.
  intros Hpos (p & m & Hk & Hm & Hp & Hw & _).
  destruct (lookup_mem_cases dev pd IB_ACCESS_REMOTE_ATOMIC rkey lookup_remote)
    as [[El Hn]|(p' & m0 & m1 & d & El & Hk' & Hm' & _ & Hd)]; [done|exfalso; by apply (Hn p m)|].
  rewrite Hk in Hk'. injection Hk' as <-. rewrite Hm in Hm'. injection Hm' as <-.
  pose proof Hd as (m2 & Hm2 & E1 & E2). cbn in Hm2. rewrite Hm in Hm2. injection Hm2 as <-.
  exists d, (p, Z.shiftr rkey 8), m1. split; [done|]. split; [rewrite E2; cbn; by rewrite pool_of_upd, lookup_insert_eq|].
  split; [rewrite E2; by destruct p|]. split.
  { intros ph. apply (held_drop (with_phys dev ph) (p, Z.shiftr rkey 8) m1); [by apply refs_pos_phys|].
    exists m. rewrite E2. destruct p; cbn in *; done. }
  destruct Hp as (_ & _ & _ & Hst). assert (Hst1 : mem_state m1 = RXE_MEM_STATE_VALID) by (by rewrite E1).
  destruct (word_at_found m1 va a) as (? & ? & _); [|done..].
  destruct Hw as (mp & bs & k & off & b & Hr & Hw). exists mp, bs, k, off, b. rewrite E1.
  split; [destruct Hr; by split|exact Hw].
Qed.

(** What each of the two operations leaves in a word. *)
Definition atomic_value (pkt : rxe_pkt_info) (old : Z) : Z :=
  if pkt_opcode pkt =? IB_OPCODE_RC_FETCH_ADD then (old + atmeth_swap_add pkt) mod 2 ^ 64
  else if bool_decide (old = atmeth_comp pkt) then atmeth_swap_add pkt else old.

Lemma atomic_result_value pkt old : pkt_opcode pkt ∈ rc_atomic_requests → atomic_result pkt old = atomic_value pkt old.
Proof.
  intros Hop. unfold atomic_result, atomic_value.
  repeat (apply elem_of_cons in Hop as [->|Hop]); [..|by apply not_elem_of_nil in Hop].
  - cbn. by destruct (Z.eqb_spec old (atmeth_comp pkt)), (decide (old = atmeth_comp pkt)); cbn; case_bool_decide.
  - reflexivity.
Qed.

Section atomic_message.
Context `{Params} (Hbypass : rxe_bypass_arbiter = false).
Context (s0 : eng_state) (rkey va psn0 a : Z) (pkt : rxe_pkt_info) (rest : list rxe_pkt_info).
Context (l : list resp_res) (res : resp_res).

Local Abbreviation dev0 := (rdev_mem (es_dev s0)).
Local Abbreviation slot_index := (Z.to_nat (resp_res_head (qp_resp (es_qp s0)))).
Local Abbreviation old := (read_u64 (dev_phys dev0) a).
Local Abbreviation next := ((psn0 mod 2 ^ 24 + 1) mod 2 ^ 24).

(** The queue pair permits atomic operations and has a free resource. *)
Record atomic_ready : Prop := {
  ar_receptive : receptive s0;
  ar_access : flag_set (qa_qp_access_flags (qp_attr (es_qp s0))) IB_ACCESS_REMOTE_ATOMIC = true;
  ar_max : 0 < qa_max_rd_atomic (qp_attr (es_qp s0));
  ar_mr : resp_mr (qp_resp (es_qp s0)) = None;
  ar_list : resp_resources (qp_resp (es_qp s0)) = Some l;
  ar_slot : l !! slot_index = Some res;
  ar_free : res_type res = 0;
  ar_target : word_target dev0 (qp_pd (es_qp s0)) rkey va a
}.

(** The operation is done, answered and recorded. *)
Record atomic_done (s' : eng_state) (ack : rxe_pkt_info) : Prop := {
  ad_unmoved : unmoved s0 s';
  ad_mem : rdev_mem (es_dev s') = dev0 <| dev_phys := write_u64 (dev_phys dev0) a (atomic_value pkt old) |>;
  ad_cqs : rdev_cqs (es_dev s') = rdev_cqs (es_dev s0);
  ad_rq : qp_rq (es_qp s') = qp_rq (es_qp s0);
  ad_ref : qp_ref (es_qp s') = qp_ref (es_qp s0);
  ad_pkts : qp_req_pkts (es_qp s') = rest;
  ad_send : qp_send_pkts (es_qp s') = qp_send_pkts (es_qp s0) ++ [ack];
  ad_ack : bth_opcode ack = IB_OPCODE_RC_ATOMIC_ACKNOWLEDGE ∧ bth_psn ack = psn0 mod 2 ^ 24 ∧
    bth_qpn ack = qa_dest_qp_num (qp_attr (es_qp s0)) mod 2 ^ 24 ∧ aeth_syn ack = AETH_ACK_UNLIMITED ∧
    atmack_orig ack = u64 old;
  ad_psn : resp_psn (qp_resp (es_qp s')) = next;
  ad_state : resp_state (qp_resp (es_qp s')) = QP_STATE_READY;
  ad_error : resp_goto_error (qp_resp (es_qp s')) = false;
  ad_res : resp_cur_res (qp_resp (es_qp s')) = None;
  ad_mr : resp_mr (qp_resp (es_qp s')) = None;
  ad_list : resp_resources (qp_resp (es_qp s')) = Some (<[slot_index := stored_res next ack res]> l)
}.

Context (Haq : atomic_request (psn0 mod 2 ^ 24) va rkey pkt) (Har : atomic_ready).
Context (Haw : awaiting s0 psn0 (pkt :: rest)).

Lemma atomic_in_order : in_order s0 pkt ∧ op_permitted (es_qp s0) pkt = true.
Proof using Haq Har Haw.
  pose proof (ar_receptive Har) as Hrc. pose proof (atomic_opcode_spec _ (aq_opcode _ _ _ _ Haq)) as Hf.
  assert (Hfl := λ m, atomic_request_flag _ _ _ _ m Haq). split.
  - split; try apply Hrc; try apply Haw; [by rewrite (aw_pkts _ _ _ Haw)|by rewrite (aq_psn _ _ _ _ Haq), (aw_psn _ _ _ Haw), Z.add_0_r|].
    pose proof (aw_opcode _ _ _ Haw) as Ho. unfold mid_message, one_of in Ho.
    cbn [existsb] in Ho. rewrite !orb_false_r, !orb_false_iff in Ho. destruct Ho as (P1 & P2 & P3 & P4).
    pose proof (aq_opcode _ _ _ _ Haq) as Hop. unfold check_op_seq_rc, one_of. cbn [existsb]. rewrite P1, P2, P3, P4.
    repeat (apply elem_of_cons in Hop as [->|Hop]); [done|done|by apply not_elem_of_nil in Hop].
  - unfold op_permitted. rewrite !Hfl, (ar_access Har), (af_read _ Hf), (af_write _ Hf), (af_atomic _ Hf) by done.
    cbn. rewrite !andb_true_r. apply negb_true_iff, Z.eqb_neq. intros E.
    pose proof (Hfl RXE_ATOMIC_MASK eq_refl) as Ew. rewrite (af_atomic _ Hf), E in Ew. discriminate.
Qed.

(** The responder's information once the operation is done. *)
Definition atomic_executed (h : mem_handle) : rxe_resp_info :=
  executed pkt (addressed pkt (qp_resp (es_qp s0) <| resp_aeth_syndrome := AETH_ACK_UNLIMITED |>
    <| resp_sent_psn_nak := false |>) <| resp_mr := Some h |> <| resp_atomic_orig := old |>).

Lemma wp_atomic_front depth cfuel fuel Q :
  (∀ qe h dev', (let ph := write_u64 (dev_phys dev0) a (atomic_result pkt old) in
     mem_drop_ref dev' h = with_phys dev0 ph) →
     wp False (resp_loop qe (3 + fuel) RESPST_ACKNOWLEDGE (Some pkt)) Q (with_rm s0 (atomic_executed h) dev')) →
  wp False (rxe_responder depth cfuel (11 + fuel)) Q s0.
Proof using Haq Har Haw.
  intros HQ. pose proof (ar_receptive Har) as Hrc. pose proof (atomic_opcode_spec _ (aq_opcode _ _ _ _ Haq)) as Hf.
  assert (Hfl := λ m, atomic_request_flag _ _ _ _ m Haq). destruct atomic_in_order as [Hio Hperm].
  eapply (wp_front False depth cfuel (5 + fuel)); [done|done| |].
  { unfold resourced. rewrite Hfl, (af_rdatm _ Hf) by done. split; [apply Har|reflexivity]. }
  intros qe. destruct (ar_target Har) as (p & m0 & _ & _ & _ & _ & Ha0 & Ha7).
  destruct (word_lookup dev0 (qp_pd (es_qp s0)) rkey va a (rc_refs _ Hrc) (ar_target Har))
    as (dev' & h & m & Hl & Hm & Hph & Hdrop & Hst & Hrange & Hv).
  cbn [es_qp es_dev with_rm qp_resp rdev_mem upd_field].
  assert (Ea : ∀ r, addressed pkt r = r <| resp_va := va |> <| resp_rkey := rkey |> <| resp_resid := 8 |>).
  { intros r. unfold addressed. by rewrite !Hfl, (af_rw _ Hf), (aq_va _ _ _ _ Haq), (aq_rkey _ _ _ _ Haq) by done. }
  eapply (wp_rkey False qe (4 + fuel)); cbn [es_qp es_dev with_rm qp_resp qp_pd qp_mtu_bytes rdev_mem upd_field].
  - by rewrite !Hfl, (af_rw _ Hf), (af_atomic _ Hf) by done.
  - rewrite Ea. unfold pkt_access. rewrite !Hfl, (af_rw _ Hf) by done. exact Hl.
  - rewrite Ea. exact Hrange.
  - by rewrite Hfl, (af_write _ Hf) by done.
  - apply wp_execute. unfold execute_op. wp_run.
    rewrite !Hfl, (af_send _ Hf), (af_write _ Hf), (af_read _ Hf), (af_atomic _ Hf), (af_comp _ Hf) by done.
    unfold process_atomic, mem_get. wp_run. cbn [es_qp es_dev with_rm qp_resp resp_mr rdev_mem upd_field]. wp_run.
    cbn [es_dev with_rm rdev_mem upd_field]. rewrite Hm. wp_run. rewrite Hst, bool_decide_eq_true_2 by done. cbn [negb].
    rewrite (aq_va _ _ _ _ Haq), Hv. wp_run. destruct (Z.eqb_spec a 0); [done|]. rewrite Ha7.
    change (negb (0 =? 0)) with false. cbn [orb]. wp_run. rewrite with_rm_rm, with_rm_resp, with_rm_mem.
    cbn [es_qp es_dev with_rm qp_resp rdev_mem upd_field]. rewrite Hph. split; [done|]. split; [apply Hrc|].
    rewrite with_rm_rm. eapply (HQ qe h). specialize (Hdrop (write_u64 (dev_phys dev0) a (atomic_result pkt old))).
    rewrite <- Hph in Hdrop at 1. exact Hdrop.
Qed.

Lemma wp_atomic depth cfuel fuel :
  wp False (rxe_responder depth cfuel (11 + fuel)) (λ r s', r = Ok tt ∧ ∃ ack, atomic_done s' ack) s0.
Proof using Hbypass Haq Har Haw.
  apply wp_atomic_front. intros qe h dev' Hd. pose proof (ar_receptive Har) as Hrc.
  pose proof (atomic_opcode_spec _ (aq_opcode _ _ _ _ Haq)) as Hf.
  assert (Er : ∃ r, atomic_executed h = executed pkt r ∧ resp_aeth_syndrome r = AETH_ACK_UNLIMITED ∧
    resp_resources r = Some l ∧ resp_res_head r = resp_res_head (qp_resp (es_qp s0)) ∧ resp_mr r = Some h ∧
    resp_atomic_orig r = old ∧ resp_state r = QP_STATE_READY ∧ resp_goto_error r = false ∧ resp_cur_res r = None).
  { eexists. split; [reflexivity|]. rewrite addressed_front. unfold addressed.
    repeat case_match; cbn; (split; [done|]); (split; [apply Har|]); do 3 (split; [done|]);
      (split; [apply Haw|]); (split; [apply Haw|]); apply Haw. }
  destruct Er as (r & -> & R1 & R2 & R3 & R4 & R5 & R6 & R7 & R8).
  apply wp_resp_step. cbn [resp_step]. wp_run. unfold acknowledge, qp_type. wp_run.
  cbn [es_qp with_rm qp_resp qp_qp_type upd_field]. rewrite (rc_type _ Hrc), Z.eqb_refl. cbn [negb].
  change (resp_aeth_syndrome (executed pkt r)) with (resp_aeth_syndrome r). rewrite R1, Z.eqb_refl. cbn [negb].
  rewrite (atomic_request_flag _ _ _ _ _ Haq), (af_atomic _ Hf) by done. wp_run.
  eapply (wp_send_atomic_ack Hbypass False _ pkt l res); cbn [es_qp es_dev es_alloc with_rm qp_resp rdev_ports upd_field].
  - apply Hrc.
  - split; [apply Hrc|]. split; apply Haq.
  - exact R2.
  - change (resp_res_head (executed pkt r)) with (resp_res_head r). rewrite R3. apply Har.
  - apply Har.
  - intros ack s1 Ha [U1 L1 L2 L3 L4 L5 L6 (head & L7)]. wp_run.
    apply wp_cleanup; [rewrite L5; cbn; by rewrite (aw_pkts _ _ _ Haw)|rewrite L7; exact R7|].
    intros s2 [U2 T1 T2 T3 T4 T5 T6 T7]. split; [done|]. exists ack. rewrite L7 in T1, T6. cbn in T1, T6.
    assert (Ep : u32 (pkt_psn pkt + 1) .& BTH_PSN_MASK = next).
    { rewrite (aq_psn _ _ _ _ Haq). apply psn_succ, Z.mod_pos_bound. lia. }
    destruct Ha as [_ _ _ _ _ _ (B1 & B2 & _ & B3) Hae Hat].
    destruct Hae as [Hsy _]; [done|]. specialize (Hat eq_refl).
    split; rewrite ?T6; try done.
    + eapply unmoved_trans; [|exact U2]. destruct U1. by split.
    + rewrite T1. cbn in R4. rewrite R4, L1. rewrite <- atomic_result_value by apply Haq. exact Hd.
    + by rewrite T2, L2.
    + by rewrite T3, L3.
    + rewrite T4, L4. cbn. lia.
    + rewrite T5, L5. cbn. by rewrite (aw_pkts _ _ _ Haw).
    + by rewrite T7, L6.
    + rewrite B2, (aq_psn _ _ _ _ Haq), Z.mod_mod by done. split; [done|]. split; [done|]. split; [exact B3|].
      split; [exact Hsy|]. rewrite Hat. cbn. by rewrite R5.
    + cbn. by rewrite R3, Ep.
Qed.
End atomic_message.

(** ** A retry *)

Section retry.
Context `{Params} (Hbypass : rxe_bypass_arbiter = false).

(** No resource answers for the sequence number. *)
Lemma wp_find_none F psn l i k Q s :
  Forall (λ res, res_covers psn res = false) l → (i + k ≤ length l)%nat → Q None s → wp F (find_res l psn i k) Q s.
Proof using Type.
  intros Hc. revert i. induction k as [|k IH]; intros i Hl HQ; cbn [find_res]; [by wp_run|].
  destruct (lookup_lt_is_Some_2 l i) as [res Hi]; [lia|]. rewrite Hi. wp_run.
  rewrite (Forall_lookup_1 _ _ _ _ Hc Hi). apply IH; [lia|done].
Qed.

(** A repeated atomic request no resource answers for is dropped. *)
Lemma wp_atomic_retry depth cfuel fuel s dup psn va rkey l :
  out_of_order s dup → psn_compare (pkt_psn dup) (resp_psn (qp_resp (es_qp s))) < 0 →
  atomic_request psn va rkey dup → resp_resources (qp_resp (es_qp s)) = Some l →
  Z.of_nat (length l) = qa_max_rd_atomic (qp_attr (es_qp s)) →
  Forall (λ res, res_covers psn res = false) l →
  wp False (rxe_responder depth cfuel (5 + fuel)) (λ r s', r = Ok tt ∧ dropped dup s s' []) s.
Proof using Type.
  intros Ho Hd Haq Hl Hlen Hc. pose proof (atomic_opcode_spec _ (aq_opcode _ _ _ _ Haq)) as Hf.
  apply (wp_duplicate False depth cfuel (3 + fuel) s dup); [done|done|]. intros qe.
  apply wp_resp_step. cbn [resp_step]. wp_run. unfold duplicate_request. wp_run.
  rewrite !(atomic_request_flag _ _ _ _ _ Haq), (af_send _ Hf), (af_write _ Hf), (af_read _ Hf) by done. cbn [orb].
  unfold find_resource. wp_run. cbn [es_qp with_rm qp_attr upd_field].
  rewrite (aq_psn _ _ _ _ Haq). rewrite <- Hlen, Nat2Z.id.
  assert (HD : wp False (resp_loop qe (2 + fuel) RESPST_CLEANUP (Some dup)) (λ r s', r = Ok tt ∧ dropped dup s s' [])
    (with_rm s (fetched (qp_resp (es_qp s))) (rdev_mem (es_dev s)))).
  { eapply (wp_drop qe fuel dup s _ _ []); [done|apply quiet_refl|by apply fetched_duplicate|by rewrite app_nil_r|by split]. }
  destruct (length l =? 0)%nat; wp_run; [exact HD|].
  change (resp_resources (qp_resp (es_qp s <| qp_resp := fetched (qp_resp (es_qp s)) |>)))
    with (resp_resources (qp_resp (es_qp s))). rewrite Hl. wp_run. apply wp_find_none; [done|lia|]. by wp_run.
Qed.
End retry.

(** The resource of an atomic operation does not answer for it. *)
Lemma stored_misses psn ack res :
  0 ≤ psn < 2 ^ 24 → res_covers psn (stored_res ((psn + 1) mod 2 ^ 24) ack res) = false.
Proof.
  intros Hp. unfold res_covers. cbn. rewrite psn_compare_dist. unfold psn_dist.
  apply andb_false_iff. left. apply andb_false_iff. right. rewrite Z.geb_leb. apply Z.leb_gt. Z.div_mod_to_equations. lia.
Qed.

(** C16: a compare-and-swap or fetch-and-add that arrives in order, on a queue
    pair that permits it and has its next resource free, is executed: the word
    the key and address name gets the new value and no other byte changes, and
    the answer carries the old value and the sequence number of the request. But
    the answer is filed under the next sequence number. So a retry that comes
    next, when no other resource covers the sequence number of the request, finds
    no answer: it executes nothing, nothing is sent, and the requester does not
    get the answer it asks for. (Where a resource does cover the number, because
    the operation before was atomic too, the retry is answered with the value of
    that operation: [atomic_retry_wrong_answer].) *)
Theorem responder_atomic `{Params} depth cfuel fuel s0 rkey va psn0 a pkt dup l res :
  rxe_bypass_arbiter = false → atomic_ready s0 rkey va a l res →
  atomic_request (psn0 mod 2 ^ 24) va rkey pkt → atomic_request (psn0 mod 2 ^ 24) va rkey dup →
  awaiting s0 psn0 [pkt; dup] → Forall (λ res, res_covers (psn0 mod 2 ^ 24) res = false) l →
  Z.of_nat (length l) = qa_max_rd_atomic (qp_attr (es_qp s0)) →
  ∃ s1 s2 ack, rxe_responder depth cfuel (11 + fuel) s0 = Some (Ok tt, s1) ∧
    rxe_responder depth cfuel (11 + fuel) s1 = Some (Ok tt, s2) ∧
    atomic_done s0 psn0 a pkt [dup] l res s1 ack ∧ dropped dup s1 s2 [].
Proof.
  intros Hb Har Haq Haq' Haw Hfree Hlen.
  destruct (wp_total _ _ _ (wp_atomic Hb s0 rkey va psn0 a pkt [dup] l res Haq Har Haw depth cfuel fuel))
    as (r1 & s1 & E1 & -> & ack & Hd). pose proof Hd as [U _ _ _ _ Hp _ _ Hps Hst He Hcr Hmr Hl].
  pose proof (ar_receptive _ _ _ _ _ _ Har) as Hrc.
  pose proof (Z.mod_pos_bound psn0 (2 ^ 24) ltac:(lia)) as Hrange.
  assert (Hneg : psn_compare (pkt_psn dup) (resp_psn (qp_resp (es_qp s1))) < 0).
  { rewrite Hps, (aq_psn _ _ _ _ Haq'), psn_compare_dist. unfold psn_dist. Z.div_mod_to_equations. lia. }
  assert (Hoo : out_of_order s1 dup).
  { split; [by rewrite (um_valid _ _ U), (rc_valid _ Hrc)|by rewrite (um_type _ _ U), (rc_type _ Hrc)|done|done|done|done
      |by rewrite Hp|by rewrite (um_alloc _ _ U), (rc_alloc _ Hrc)| |lia].
    split; [rewrite (um_ports _ _ U); apply Hrc|]. split; apply Haq'. }
  assert (Hmiss : Forall (λ res, res_covers (psn0 mod 2 ^ 24) res = false)
    (<[Z.to_nat (resp_res_head (qp_resp (es_qp s0))) := stored_res ((psn0 mod 2 ^ 24 + 1) mod 2 ^ 24) ack res]> l)).
  { by apply Forall_insert; [|apply stored_misses]. }
  destruct (wp_total _ _ _ (wp_atomic_retry depth cfuel (6 + fuel) s1 dup _ va rkey _ Hoo Hneg Haq' Hl
    ltac:(by rewrite length_insert, (um_attr _ _ U)) Hmiss)) as (r2 & s2 & E2 & -> & Hdr).
  by exists s1, s2, ack.
Qed.

(** A fetch-and-add of three to a word that holds five, and its retry. *)
Definition example_word_bufs : list ib_phys_buf := [PhysBuf 104 8; PhysBuf 200 8].

Definition example_word_mem : rxe_mem :=
  example_mem <| mem_offset := 0 |> <| mem_length := 16 |> <| mem_access := 15 |> <| mem_page_shift := 3 |>
    <| mem_page_mask := 7 |> <| mem_map := Some [example_word_bufs ++ replicate 254 (PhysBuf 0 0)] |>.

Definition example_word_dev : mem_dev :=
  MemDev {[1 := example_word_mem]} ∅ ∅ (list_to_map (zip (seqZ 104 8) [5; 0; 0; 0; 0; 0; 0; 0])).

Definition example_fetch_add : rxe_pkt_info :=
  example_request IB_OPCODE_RC_FETCH_ADD 0xffffff 1
    (λ p, atmeth_set_swap_add (atmeth_set_rkey (atmeth_set_va p 1000) 0x102) 3) [].

Definition example_adder : eng_state :=
  example_es (example_responder [example_fetch_add; example_fetch_add] 0xffffff
    <| qp_resp ::= λ r, r <| resp_resources := Some example_resources |> |>
    <| qp_attr ::= λ a, a <| qa_qp_access_flags := 15 |> |>)
    <| es_dev ::= λ d, d <| rdev_mem := example_word_dev |> |>.

Lemma example_word_region :
  mem_region example_word_mem [example_word_bufs ++ replicate 254 (PhysBuf 0 0)] example_word_bufs.
Proof.
  split; try done.
  - by repeat constructor.
  - exists (replicate 254 (PhysBuf 0 0)). cbn [concat]. by rewrite app_nil_r.
  - repeat constructor; cbn; lia.
  - by left.
  - intros _. repeat split; try done. by repeat constructor.
Qed.

Lemma example_word_refs : refs_pos example_word_dev.
Proof.
  intros p i mem Hm. destruct p; cbn in Hm; [|by rewrite lookup_empty in Hm..].
  apply lookup_singleton_Some in Hm as [_ <-]. done.
Qed.

Lemma responder_atomic_witness :
  ∃ s1 s2 ack, rxe_responder (H := example_params) 0 0 11 example_adder = Some (Ok tt, s1) ∧
    rxe_responder (H := example_params) 0 0 11 s1 = Some (Ok tt, s2) ∧
    read_u64 (dev_phys (rdev_mem (es_dev s2))) 104 = 8 ∧
    qp_send_pkts (es_qp s2) = [ack] ∧ atmack_orig ack = 5 ∧ bth_psn ack = 0xffffff.
Proof.
  destruct (responder_atomic (H := example_params) 0 0 0 example_adder 0x102 1000 0xffffff 104
    example_fetch_add example_fetch_add example_resources (RespRes 0 0 0 0 rdatm_res_state_new res_null 0 0 0 0 0))
    as (s1 & s2 & ack & E1 & E2 & [_ Hm _ _ _ _ Hs (_ & Hp & _ & _ & Ho) _ _ _ _ _ _] & [Dm _ _ _ _ _ Ds]).
  - done.
  - split; try reflexivity.
    + split; try reflexivity; [cbn; lia|apply example_word_refs|eexists _, _; done].
    + exists mr_pool, example_word_mem. split; [reflexivity|]. split; [reflexivity|].
      split; [repeat split; try reflexivity; discriminate|]. split; [|done].
      eexists _, _, 0, 0, _. split; [apply example_word_region|]. by repeat split.
  - split; try (vm_compute; (reflexivity || discriminate)); [by right; left|].
    eexists. split; [by left|vm_compute; reflexivity].
  - split; try (vm_compute; (reflexivity || discriminate)); [by right; left|].
    eexists. split; [by left|vm_compute; reflexivity].
  - by split.
  - by repeat constructor.
  - reflexivity.
  - exists s1, s2, ack. split; [exact E1|]. split; [exact E2|]. split; [rewrite Dm, Hm; vm_compute; reflexivity|].
    split; [rewrite Ds, Hs; reflexivity|]. split; [exact Ho|exact Hp].
Defined.

(** Two fetch-and-adds in a row, and a retry of the second: the responder
    answers with the value the first one found, under the number of the second.
    The clone shares its headers with the first answer, which gets that number
    too while it waits to be sent. *)
Lemma atomic_retry_wrong_answer :
  let pkt psn n := example_request IB_OPCODE_RC_FETCH_ADD psn 1
    (λ p, atmeth_set_swap_add (atmeth_set_rkey (atmeth_set_va p 1000) 0x102) n) [] in
  let s := example_es (example_responder [pkt 0xffffff 3; pkt 0 4; pkt 0 4] 0xffffff
      <| qp_resp ::= λ r, r <| resp_resources := Some example_resources |> |>
      <| qp_attr ::= λ a, a <| qa_qp_access_flags := 15 |> |>)
    <| es_dev ::= λ d, d <| rdev_mem := example_word_dev |> |> in
  ∃ s1 s2 s3, rxe_responder (H := example_params) 0 0 11 s = Some (Ok tt, s1) ∧
    rxe_responder (H := example_params) 0 0 11 s1 = Some (Ok tt, s2) ∧
    rxe_responder (H := example_params) 0 0 11 s2 = Some (Ok tt, s3) ∧
    (λ p, (bth_psn p, atmack_orig p)) <$> qp_send_pkts (es_qp s3) = [(0, 5); (0, 8); (0, 5)] ∧
    read_u64 (dev_phys (rdev_mem (es_dev s3))) 104 = 12.
Proof.
  eexists _, _, _. do 3 (split; [vm_compute; reflexivity|]). split; vm_compute; reflexivity.
Qed.
