(* ===== verification/Host.v ===== *)
(** * The device with all its queue pairs

    The engines of the other files work on one queue pair. A host is the device
    with its queue pairs by index, its multicast groups by GID, and what has
    left it so far; [on_qp] runs the code of an engine on one of the queue
    pairs. A lookup in a pool is a lookup in the map of its elements. *)

From stdpp Require Import gmap.
From S2P Require Import Prelude Hdr Verbs Mr Cq State.

(** [mcg_qp_list] names the members by their index, in the order of the list. *)
Record rxe_mc_grp := McGrp {
  mcg_ref : Z;
  mcg_mlid : Z;
  mcg_num_qp : Z;
  mcg_qp_list : list Z
}.

#[export] Instance eta_rxe_mc_grp : Eta rxe_mc_grp := fun r =>
  McGrp (mcg_ref r) (mcg_mlid r) (mcg_num_qp r) (mcg_qp_list r).

(** An event of a queue pair, or a packet freed that belongs to none. *)
Inductive host_event : Type :=
  | HQp (i : Z) (e : qp_event)
  | HFree (pkt : rxe_pkt_info).

Record host := Host {
  h_dev : rxe_dev;
  h_qps : gmap Z rxe_qp;
  h_mcgs : gmap (Z * Z) rxe_mc_grp;
  h_alloc : list bool;
  h_send : list Z;
  h_jiffies : Z;
  h_ev : list host_event
}.

#[export] Instance eta_host : Eta host := fun r =>
  Host (h_dev r) (h_qps r) (h_mcgs r) (h_alloc r) (h_send r) (h_jiffies r) (h_ev r).

(** The engine state of one queue pair, and the host after an engine ran. *)
Definition at_qp (h : host) (q : rxe_qp) : eng_state :=
  Es (h_dev h) q (h_alloc h) (h_send h) (h_jiffies h) [].

Definition back (h : host) (i : Z) (s : eng_state) : host :=
  h <| h_dev := es_dev s |> <| h_qps ::= <[i := es_qp s]> |> <| h_alloc := es_alloc s |>
    <| h_send := es_send s |> <| h_ev ::= (λ l, l ++ (HQp i <$> es_ev s)) |>.

Definition on_qp {A} (i : Z) (m : eng A) (h : host) : option (A * host) :=
  match h_qps h !! i with
  | None => None
  | Some q => match m (at_qp h q) with
              | Some (a, s) => Some (a, back h i s)
              | None => None
              end
  end.

Definition h_upd_qp (i : Z) (f : rxe_qp → rxe_qp) (h : host) : host := h <| h_qps ::= alter f i |>.
Definition h_free (pkt : rxe_pkt_info) (h : host) : host := h <| h_ev ::= (λ l, l ++ [HFree pkt]) |>.

(** References to a queue pair. An element found in a pool has the reference
    of its creation besides the one dropped here, so that the count of a queue
    pair that is in the pool does not get to zero. *)
Definition h_add_ref (i : Z) : host → host := h_upd_qp i (λ q, q <| qp_ref ::= (λ n, n + 1) |>).
Definition h_drop_ref (i : Z) : host → host := h_upd_qp i (λ q, q <| qp_ref ::= (λ n, n - 1) |>).

Lemma on_qp_total {A} (m : eng A) Q h i q :
  h_qps h !! i = Some q → wp False m Q (at_qp h q) →
  ∃ a s, on_qp i m h = Some (a, back h i s) ∧ Q a s.
Proof.
  intros Hq Hw. destruct (wp_total m Q _ Hw) as (a & s & E & HQ). exists a, s. split; [|done].
  unfold on_qp. by rewrite Hq, E.
Qed.

Lemma insert_over_alter {A} (m : gmap Z A) i f x : <[i := x]> (alter f i m) = <[i := x]> m.
Proof.
  apply map_eq. intros j. destruct (decide (i = j)) as [->|Hj]; [by rewrite !lookup_insert_eq|].
  by rewrite !lookup_insert_ne, lookup_alter_ne.
Qed.

Lemma back_lookup h i s : h_qps (back h i s) !! i = Some (es_qp s).
Proof. apply lookup_insert_eq. Qed.

Lemma back_other h i j s : i ≠ j → h_qps (back h i s) !! j = h_qps h !! j.
Proof. apply lookup_insert_ne. Qed.
