(* ===== verification/Recv.v ===== *)
(** * Incoming packets (rxe_recv.c, rxe_net.c)

    What the network interface hands over is checked against the queue pair it
    is addressed to and queued for its responder or its completer, or dropped.
    A packet for a multicast group goes to every member that accepts it. *)

From stdpp Require Import gmap.
From S2P Require Import Prelude Bits Opcode Hdr Verbs State Comp Req Resp Host.

Definition IB_MULTICAST_QPN : Z := 0xffffff.
Definition LRH_LNH_IBA_LOC : Z := 2.
Definition LRH_LNH_IBA_GBL : Z := 3.

(** ** The checks *)

Definition check_type_state (pkt : rxe_pkt_info) (qp : rxe_qp) : result unit :=
  if negb (qp_valid qp) then Err EINVAL
  else
    let transport := Z.shiftr (pkt_opcode pkt) 5 in
    let type_ok :=
      if qp_type qp =? IB_QPT_RC then transport =? 0
      else if qp_type qp =? IB_QPT_UC then transport =? 1
      else if one_of (qp_type qp) [IB_QPT_UD; IB_QPT_SMI; IB_QPT_GSI] then transport =? 3
      else false in
    if negb type_ok then Err EINVAL
    else if flag_set (pkt_mask pkt) RXE_REQ_MASK then
      if bool_decide (resp_state (qp_resp qp) = QP_STATE_READY) then Ok tt else Err EINVAL
    else
      match req_state (qp_req qp) with
      | QP_STATE_RESET | QP_STATE_INIT | QP_STATE_ERROR => Err EINVAL
      | QP_STATE_READY | QP_STATE_DRAIN | QP_STATE_DRAINED => Ok tt
      end.

(** A counter that stays at its maximum. *)
Definition count_up (n : Z) : Z := if n >=? 0xffff then 0xffff else n + 1.

Fixpoint find_pkey (tbl : list Z) (pkey i : Z) : option Z :=
  match tbl with
  | [] => None
  | k :: tbl => if pkey_match pkey k then Some i else find_pkey tbl pkey (i + 1)
  end.

(** The table entry the partition key of the packet matches: any for the
    general service interface, the one of the queue pair otherwise. An index
    past the end of the table is a wild access. *)
Definition pkey_entry (port : rxe_port) (pkey qpn : Z) (qp : rxe_qp) : option (result Z) :=
  if qpn =? 1 then
    Some (match find_pkey (port_pkey_tbl port) pkey 0 with Some i => Ok i | None => Err EINVAL end)
  else if negb (qpn =? 0) then
    let i := qa_pkey_index (qp_attr qp) in
    k ← port_pkey_tbl port !! Z.to_nat i;
    Some (if pkey_match pkey k then Ok i else Err EINVAL)
  else Some (Ok 0).

Definition check_keys (port : rxe_port) (pkt : rxe_pkt_info) (qpn : Z) (qp : rxe_qp)
    : option (rxe_port * rxe_pkt_info * result unit) :=
  e ← pkey_entry port (bth_pkey pkt) qpn qp;
  Some (match e with
  | Err _ => (port <| port_bad_pkey_cntr ::= count_up |>, pkt <| pkt_pkey_index := 0 |>, Err EINVAL)
  | Ok i =>
      let pkt := pkt <| pkt_pkey_index := i |> in
      if (qp_type qp =? IB_QPT_UD) && negb (qpn =? 0) && negb (pkt_mask pkt =? 0)
         && negb (deth_qkey pkt =? if qpn =? 1 then GSI_QKEY else qa_qkey (qp_attr qp))
      then (port <| port_qkey_viol_cntr ::= count_up |>, pkt, Err EINVAL)
      else (port, pkt, Ok tt)
  end).

(** The two halves of a GID in the packet. *)
Definition gid_prefix (pkt : rxe_pkt_info) (o : Z) : Z := load_be64 (pkt_hdr pkt) o.
Definition gid_guid (pkt : rxe_pkt_info) (o : Z) : Z := load_be64 (pkt_hdr pkt) (o + 8).
Definition gid_local (pkt : rxe_pkt_info) (o : Z) : bool := (gid_prefix pkt o =? 0) && (gid_guid pkt o <=? 1).

Definition check_addr (port : rxe_port) (pkt : rxe_pkt_info) (qp : rxe_qp) : option (result unit) :=
  let av := av_attr (qp_pri_av qp) in
  let global := flag_set (ah_ah_flags av) IB_AH_GRH in
  if negb (qp_type qp =? IB_QPT_RC) && negb (qp_type qp =? IB_QPT_UC) then Some (Ok tt)
  else if negb (pkt_port_num pkt =? qa_port_num (qp_attr qp)) then Some (Err EINVAL)
  else if negb (flag_set (pkt_mask pkt) RXE_GRH_MASK) then Some (if global then Err EINVAL else Ok tt)
  else
    let sgid := grh_sgid pkt in
    let dgid := grh_dgid pkt in
    if negb global then Some (Err EINVAL)
    else if gid_local pkt dgid then Some (Err EINVAL)
    else if load_u8 (pkt_hdr pkt) sgid =? 0xff then Some (Err EINVAL)
    else if gid_local pkt sgid then Some (Err EINVAL)
    else
      guid ← port_guid_tbl port !! Z.to_nat (ah_sgid_index av);
      if negb (gid_guid pkt dgid =? guid) then Some (Err EINVAL)
      else if negb (gid_guid pkt sgid =? ah_dgid_guid av) then Some (Err EINVAL)
      else Some (Ok tt).

(** ** Dispatch *)

Definition port_of (h : host) (pkt : rxe_pkt_info) : option rxe_port :=
  rdev_ports (h_dev h) !! Z.to_nat (pkt_port_num pkt - 1).

Definition set_port (pkt : rxe_pkt_info) (port : rxe_port) (h : host) : host :=
  h <| h_dev ::= λ d, d <| rdev_ports ::= <[Z.to_nat (pkt_port_num pkt - 1) := port]> |> |>.

Definition grh_ok (pkt : rxe_pkt_info) : bool :=
  negb (flag_set (pkt_mask pkt) RXE_GRH_MASK)
  || (grh_next_hdr pkt =? GRH_RXE_NEXT_HDR) && (grh_ipver pkt =? GRH_IPV6).

(** The checks of a packet to one queue pair; the reference is dropped when
    one fails. *)
Definition unicast_check (pkt : rxe_pkt_info) (qpn i : Z) (qp : rxe_qp) (h : host)
    : option (host * rxe_pkt_info * result unit) :=
  let failed pkt h := Some (h_drop_ref i h, pkt, Err EINVAL) in
  match check_type_state pkt qp with
  | Err _ => failed pkt h
  | Ok _ =>
      if negb (grh_ok pkt) then failed pkt h
      else
        port ← port_of h pkt;
        r ← check_addr port pkt qp;
        match r with
        | Err _ => failed pkt h
        | Ok _ =>
            '(port, pkt, r) ← check_keys port pkt qpn qp;
            let h := set_port pkt port h in
            match r with Err _ => failed pkt h | Ok _ => Some (h, pkt, Ok tt) end
        end
  end.

(** The result names the queue pair found, none for a multicast packet. *)
Definition hdr_check (pkt : rxe_pkt_info) (h : host) : option (host * rxe_pkt_info * result (option Z)) :=
  let qpn := bth_qpn pkt in
  if negb (bth_tver pkt =? BTH_TVER) then Some (h, pkt, Err EINVAL)
  else if negb (qpn =? IB_MULTICAST_QPN) then
    index ← (if qpn =? 0 then port_qp_smi_index <$> port_of h pkt
             else if qpn =? 1 then port_qp_gsi_index <$> port_of h pkt
             else Some qpn);
    match h_qps h !! index with
    | None => Some (h, pkt, Err EINVAL)
    | Some qp =>
        '(h, pkt, r) ← unicast_check pkt qpn index qp (h_add_ref index h);
        Some (h, pkt, match r with Ok _ => Ok (Some index) | Err e => Err e end)
    end
  else if negb (grh_ok pkt) then Some (h, pkt, Err EINVAL)
  else if negb (flag_set (pkt_mask pkt) RXE_GRH_MASK) then Some (h, pkt, Err EINVAL)
  else if negb (load_u8 (pkt_hdr pkt) (grh_dgid pkt) =? 0xff) then Some (h, pkt, Err EINVAL)
  else Some (h, pkt, Ok None).

Definition rxe_rcv_pkt (i : Z) (pkt : rxe_pkt_info) (h : host) : option host :=
  '(_, h) ← on_qp i (if flag_set (pkt_mask pkt) RXE_REQ_MASK then rxe_resp_queue_pkt pkt
                     else rxe_comp_queue_pkt pkt) h;
  Some h.

(** [skb_clone]: the next answer of the allocator. *)
Definition h_next_alloc (h : host) : bool * host :=
  match h_alloc h with
  | [] => (true, h)
  | b :: l => (b, h <| h_alloc := l |>)
  end.

(** The members from some point of the list on; what is left over of the
    packet is returned. *)
Fixpoint mcast_members (l : list Z) (pkt : rxe_pkt_info) (h : host) : option (host * option rxe_pkt_info) :=
  match l with
  | [] => Some (h, Some pkt)
  | i :: l =>
      qp ← h_qps h !! i;
      match check_type_state pkt qp with
      | Err _ => mcast_members l pkt h
      | Ok _ =>
          port ← port_of h pkt;
          '(port, pkt, r) ← check_keys port pkt (bth_qpn pkt) qp;
          let h := set_port pkt port h in
          match r with
          | Err _ => mcast_members l pkt h
          | Ok _ =>
              let '(copy, h) := match l with [] => (false, h) | _ => h_next_alloc h end in
              h ← rxe_rcv_pkt i pkt (h_add_ref i h);
              if copy then mcast_members l pkt h else Some (h, None)
          end
      end
  end.

(** The reference to the group is dropped again at the end. *)
Definition rxe_rcv_mcast_pkt (pkt : rxe_pkt_info) (h : host) : option host :=
  match h_mcgs h !! (gid_prefix pkt (grh_dgid pkt), gid_guid pkt (grh_dgid pkt)) with
  | None => Some (h_free pkt h)
  | Some mcg =>
      '(h, skb) ← mcast_members (mcg_qp_list mcg) pkt h;
      Some (match skb with Some pkt => h_free pkt h | None => h end)
  end.

(** [len] is [skb->len]; [stale] says whether [pkt->qp], which nothing has set
    yet, is a pointer other than null: the drop path dereferences it. *)
Definition rxe_rcv (stale : bool) (len : Z) (pkt : rxe_pkt_info) (h : host) : option host :=
  let early_drop pkt := if stale then None else Some (h_free pkt h) in
  let pkt := pkt <| pkt_offset := 0 |> in
  let lnh := __lrh_lnh (pkt_hdr pkt) 0 in
  let lrh := flag_set (pkt_mask pkt) RXE_LRH_MASK in
  if lrh && ((len <? RXE_LRH_BYTES) || (lnh <? LRH_LNH_IBA_LOC)) then early_drop pkt
  else
    let pkt := if lrh then
        pkt <| pkt_paylen := u16 (4 * __lrh_length (pkt_hdr pkt) 0 - RXE_LRH_BYTES) |>
            <| pkt_offset := RXE_LRH_BYTES |>
            <| pkt_mask ::= (λ m, if lnh =? LRH_LNH_IBA_GBL then m .| RXE_GRH_MASK else m) |>
      else pkt in
    let grh := flag_set (pkt_mask pkt) RXE_GRH_MASK in
    if grh && (len <? pkt_offset pkt + RXE_GRH_BYTES) then early_drop pkt
    else
      let pkt := if grh then
          pkt <| pkt_paylen := __grh_paylen (pkt_hdr pkt) 0 |> <| pkt_offset ::= (λ o, o + RXE_GRH_BYTES) |>
        else pkt in
      if len <? pkt_offset pkt + RXE_BTH_BYTES then early_drop pkt
      else
        let opcode := bth_opcode pkt in
        let pkt := pkt <| pkt_opcode := opcode |> <| pkt_psn := bth_psn pkt |>
                       <| pkt_mask ::= (λ m, m .| opcode_mask opcode) |> in
        if len <? header_size pkt then Some (h_free pkt h)
        else
          '(h, pkt, r) ← hdr_check pkt h;
          match r with
          | Err _ => Some (h_free pkt h)
          | Ok None => rxe_rcv_mcast_pkt pkt h
          | Ok (Some i) => rxe_rcv_pkt i pkt h
          end.

(** A packet from the network. The fields of the packet information are set
    through a pointer taken before [skb_share_check]: when the buffer is shared,
    the copy that goes on does not have them. *)
Definition rxe_net_rcv (rxe linear shared cloned stale : bool) (len port_num : Z) (bytes : list Z)
    (junk : rxe_pkt_info) (h : host) : option host :=
  if negb rxe || negb linear then Some (h_free junk h)
  else if shared then if cloned then None else Some h
  else rxe_rcv stale len (junk <| pkt_port_num := port_num |> <| pkt_hdr := bytes |> <| pkt_mask := RXE_GRH_MASK |>) h.

(** ** Which packets are accepted *)

(** The packet information of a packet with a GRH, as [rxe_rcv] fills it in. *)
Definition parsed (pkt : rxe_pkt_info) : rxe_pkt_info :=
  let pkt := pkt <| pkt_offset := RXE_GRH_BYTES |> <| pkt_paylen := __grh_paylen (pkt_hdr pkt) 0 |> in
  pkt <| pkt_opcode := bth_opcode pkt |> <| pkt_psn := bth_psn pkt |>
      <| pkt_mask := RXE_GRH_MASK .| opcode_mask (bth_opcode pkt) |>.

Definition is_request (pkt : rxe_pkt_info) : bool := flag_set (pkt_mask pkt) RXE_REQ_MASK.

(** The transport that the high bits of an opcode name. *)
Definition transport (type : Z) : option Z :=
  if type =? IB_QPT_RC then Some 0 else if type =? IB_QPT_UC then Some 1
  else if one_of type [IB_QPT_UD; IB_QPT_SMI; IB_QPT_GSI] then Some 3 else None.

(** The address of a connected queue pair is that of the packet, backwards. *)
Record connected (port : rxe_port) (pkt : rxe_pkt_info) (qp : rxe_qp) : Prop := {
  cn_port : pkt_port_num pkt = qa_port_num (qp_attr qp);
  cn_global : flag_set (ah_ah_flags (av_attr (qp_pri_av qp))) IB_AH_GRH = true;
  cn_proper : gid_local pkt (grh_dgid pkt) = false ∧ gid_local pkt (grh_sgid pkt) = false ∧
    load_u8 (pkt_hdr pkt) (grh_sgid pkt) ≠ 0xff;
  cn_to : port_guid_tbl port !! Z.to_nat (ah_sgid_index (av_attr (qp_pri_av qp))) = Some (gid_guid pkt (grh_dgid pkt));
  cn_from : gid_guid pkt (grh_sgid pkt) = ah_dgid_guid (av_attr (qp_pri_av qp))
}.

Definition keys_match (port : rxe_port) (pkt : rxe_pkt_info) (qpn : Z) (qp : rxe_qp) (k : Z) : Prop :=
  pkey_entry port (bth_pkey pkt) qpn qp = Some (Ok k) ∧
  (qp_type qp = IB_QPT_UD → qpn ≠ 0 → deth_qkey pkt = if qpn =? 1 then GSI_QKEY else qa_qkey (qp_attr qp)).

(** A queue pair takes the packet; its partition key is the entry [k]. *)
Record accepts (port : rxe_port) (pkt : rxe_pkt_info) (qp : rxe_qp) (k : Z) : Prop := {
  ac_valid : qp_valid qp = true;
  ac_transport : transport (qp_type qp) = Some (Z.shiftr (pkt_opcode pkt) 5);
  ac_state : if is_request pkt then resp_state (qp_resp qp) = QP_STATE_READY
             else req_state (qp_req qp) ∈ [QP_STATE_READY; QP_STATE_DRAIN; QP_STATE_DRAINED];
  ac_grh : grh_next_hdr pkt = GRH_RXE_NEXT_HDR ∧ grh_ipver pkt = GRH_IPV6;
  ac_addr : qp_type qp ∈ [IB_QPT_RC; IB_QPT_UC] → connected port pkt qp;
  ac_keys : keys_match port pkt (bth_qpn pkt) qp k
}.

(** The index of the queue pair the packet names. *)
Definition dest_index (port : rxe_port) (pkt : rxe_pkt_info) : Z :=
  let qpn := bth_qpn pkt in
  if qpn =? 0 then port_qp_smi_index port else if qpn =? 1 then port_qp_gsi_index port else qpn.

Definition admits (h : host) (port : rxe_port) (pkt : rxe_pkt_info) (qp : rxe_qp) (k : Z) : Prop :=
  bth_tver pkt = BTH_TVER ∧ h_qps h !! dest_index port pkt = Some qp ∧ accepts port pkt qp k.

(** The tables of the port have the entries a queue pair refers to. *)
Definition in_tables (port : rxe_port) (qp : rxe_qp) : Prop :=
  is_Some (port_pkey_tbl port !! Z.to_nat (qa_pkey_index (qp_attr qp))) ∧
  is_Some (port_guid_tbl port !! Z.to_nat (ah_sgid_index (av_attr (qp_pri_av qp)))).

Definition tables_ok (h : host) (port : rxe_port) : Prop := ∀ i qp, h_qps h !! i = Some qp → in_tables port qp.

Lemma check_type_state_spec pkt qp :
  check_type_state pkt qp = Ok tt ↔
  qp_valid qp = true ∧ transport (qp_type qp) = Some (Z.shiftr (pkt_opcode pkt) 5) ∧
  if is_request pkt then resp_state (qp_resp qp) = QP_STATE_READY
  else req_state (qp_req qp) ∈ [QP_STATE_READY; QP_STATE_DRAIN; QP_STATE_DRAINED].
Proof.
  unfold check_type_state, transport, is_request. set (t := Z.shiftr (pkt_opcode pkt) 5).
  assert (Hb : ∀ c : Z, Some c = Some t ↔ (t =? c) = true) by (intros c; rewrite Z.eqb_eq; split; congruence).
  destruct (qp_valid qp); cbn [negb]; [|split; [done|by intros [? _]]].
  assert (Hrest : ∀ b : bool, (if negb b then Err EINVAL else
      if flag_set (pkt_mask pkt) RXE_REQ_MASK then
        if bool_decide (resp_state (qp_resp qp) = QP_STATE_READY) then Ok tt else Err EINVAL
      else match req_state (qp_req qp) with
           | QP_STATE_RESET | QP_STATE_INIT | QP_STATE_ERROR => Err EINVAL
           | QP_STATE_READY | QP_STATE_DRAIN | QP_STATE_DRAINED => Ok tt end) = Ok tt ↔
    b = true ∧ if flag_set (pkt_mask pkt) RXE_REQ_MASK then resp_state (qp_resp qp) = QP_STATE_READY
      else req_state (qp_req qp) ∈ [QP_STATE_READY; QP_STATE_DRAIN; QP_STATE_DRAINED]).
  { intros [|]; cbn [negb]; [|split; [done|by intros [? _]]]. destruct (flag_set _ _).
    - case_bool_decide; split; try done; by intros [_ ?].
    - destruct (req_state (qp_req qp)); split; try done; try (by intros [_ Hs]; repeat (apply elem_of_cons in Hs as [?|Hs]; try done); apply not_elem_of_nil in Hs);
        intros _; split; [done|set_solver|done|set_solver|done|set_solver]. }
  rewrite Hrest. repeat case_match; rewrite ?Hb; naive_solver.
Qed.

Lemma check_addr_spec port pkt qp :
  flag_set (pkt_mask pkt) RXE_GRH_MASK = true →
  is_Some (port_guid_tbl port !! Z.to_nat (ah_sgid_index (av_attr (qp_pri_av qp)))) →
  ∃ r, check_addr port pkt qp = Some r ∧
    (r = Ok tt ↔ (qp_type qp ∈ [IB_QPT_RC; IB_QPT_UC] → connected port pkt qp)).
Proof.
  intros Hg [guid Hguid]. unfold check_addr. rewrite Hg, Hguid. cbn [negb mbind option_bind].
  assert (Hin : qp_type qp ∈ [IB_QPT_RC; IB_QPT_UC] ↔ (negb (qp_type qp =? IB_QPT_RC) && negb (qp_type qp =? IB_QPT_UC)) = false).
  { rewrite andb_false_iff, !negb_false_iff, !Z.eqb_eq. set_solver. }
  destruct (negb (qp_type qp =? IB_QPT_RC) && negb (qp_type qp =? IB_QPT_UC)).
  { exists (Ok tt). split; [done|]. split; [|done]. intros _ Hi. by apply Hin in Hi. }
  assert (Hc : (qp_type qp ∈ [IB_QPT_RC; IB_QPT_UC] → connected port pkt qp) ↔ connected port pkt qp).
  { split; [|done]. intros Hi. by apply Hi, Hin. }
  setoid_rewrite Hc. clear Hc Hin.
  assert (Hno : ∀ P : Prop, ¬ P → ∃ r : result unit, Some (Err EINVAL) = Some r ∧ (r = Ok tt ↔ P)).
  { intros P HP. exists (Err EINVAL). split; [done|]. split; [done|]. by intros ?. }
  destruct (Z.eqb_spec (pkt_port_num pkt) (qa_port_num (qp_attr qp))) as [Hp|Hp]; cbn [negb];
    [|apply Hno; by intros [? _ _ _ _]].
  destruct (flag_set (ah_ah_flags _) IB_AH_GRH) eqn:Hf; cbn [negb]; [|apply Hno; intros [_ ? _ _ _]; congruence].
  destruct (gid_local pkt (grh_dgid pkt)) eqn:H1; [apply Hno; intros [_ _ (? & _) _ _]; congruence|].
  destruct (Z.eqb_spec (load_u8 (pkt_hdr pkt) (grh_sgid pkt)) 0xff) as [H2|H2];
    [apply Hno; by intros [_ _ (_ & _ & ?) _ _]|].
  destruct (gid_local pkt (grh_sgid pkt)) eqn:H3; [apply Hno; intros [_ _ (_ & ? & _) _ _]; congruence|].
  destruct (Z.eqb_spec (gid_guid pkt (grh_dgid pkt)) guid) as [H4|H4]; cbn [negb];
    [|apply Hno; intros [_ _ _ ? _]; congruence].
  destruct (Z.eqb_spec (gid_guid pkt (grh_sgid pkt)) (ah_dgid_guid (av_attr (qp_pri_av qp)))) as [H5|H5]; cbn [negb];
    [|apply Hno; by intros [_ _ _ _ ?]].
  exists (Ok tt). split; [done|]. split; [|done]. intros _. by split; [..|rewrite Hguid, H4|].
Qed.

(** Two ports that differ in their error counters only. *)
Definition same_port (port port' : rxe_port) : Prop :=
  port' = port <| port_bad_pkey_cntr := port_bad_pkey_cntr port' |> <| port_qkey_viol_cntr := port_qkey_viol_cntr port' |>.

Lemma check_keys_spec port pkt qpn qp :
  pkt_mask pkt ≠ 0 → is_Some (port_pkey_tbl port !! Z.to_nat (qa_pkey_index (qp_attr qp))) →
  ∃ port' k r, check_keys port pkt qpn qp = Some (port', pkt <| pkt_pkey_index := k |>, r) ∧
    match r with
    | Ok _ => port' = port ∧ keys_match port pkt qpn qp k
    | Err _ => same_port port port' ∧ ∀ k', ¬ keys_match port pkt qpn qp k'
    end.
Proof.
  intros Hm [e He]. unfold check_keys, keys_match.
  assert (Hpe : ∃ r, pkey_entry port (bth_pkey pkt) qpn qp = Some r).
  { unfold pkey_entry. destruct (qpn =? 1); [eauto|]. destruct (qpn =? 0); cbn [negb]; [eauto|].
    rewrite He. cbn. eauto. }
  destruct Hpe as [[k|err] Hr]; rewrite Hr; cbn [mbind option_bind].
  - cbn [pkt_mask upd_field]. destruct (Z.eqb_spec (pkt_mask pkt) 0); [done|]. cbn [negb]. rewrite andb_true_r.
    change (deth_qkey (pkt <| pkt_pkey_index := k |>)) with (deth_qkey pkt).
    destruct (Z.eqb_spec (qp_type qp) IB_QPT_UD) as [Ht|Ht]; cbn [andb];
      [|eexists _, _, _; split; [done|]; cbn; split; [done|]; split; [done|]; by intros].
    destruct (Z.eqb_spec qpn 0) as [Hq|Hq]; cbn [negb andb];
      [eexists _, _, _; split; [done|]; cbn; split; [done|]; split; [done|]; by intros|].
    destruct (Z.eqb_spec (deth_qkey pkt) (if qpn =? 1 then GSI_QKEY else qa_qkey (qp_attr qp))) as [Hd|Hd]; cbn [negb].
    + eexists _, _, _. split; [done|]. cbn. split; [done|]. split; [done|]. done.
    + eexists _, _, _. split; [done|]. cbn. split; [by destruct port|]. intros k' [_ Hd']. by apply Hd, Hd'.
  - eexists _, _, _. split; [done|]. cbn. split; [by destruct port|]. by intros k' [? _].
Qed.

(** ** Delivery *)

(** The packet is queued for the responder or the completer of [i]. *)
Definition queued_on (i : Z) (qp : rxe_qp) (pkt : rxe_pkt_info) (h : host) : host :=
  let sched l := bool_decide (1 < length (l : list rxe_pkt_info))%nat in
  if is_request pkt then
    let l := qp_req_pkts qp ++ [pkt] in
    h <| h_dev ::= λ d, d <| rdev_req_skb_in ::= (λ n, n + 1) |> |>
      <| h_qps ::= <[i := qp <| qp_ref ::= (λ n, n + 1) |> <| qp_req_skb_in ::= (λ n, n + 1) |> <| qp_req_pkts := l |>]> |>
      <| h_ev ::= (λ e, e ++ [HQp i (EvTask task_resp ((pkt_opcode pkt =? IB_OPCODE_RC_RDMA_READ_REQUEST) || sched l))]) |>
  else
    let l := qp_resp_pkts qp ++ [pkt] in
    h <| h_dev ::= λ d, d <| rdev_resp_skb_in ::= (λ n, n + 1) |> |>
      <| h_qps ::= <[i := qp <| qp_ref ::= (λ n, n + 1) |> <| qp_resp_pkts := l |>]> |>
      <| h_ev ::= (λ e, e ++ [HQp i (EvTask task_comp (sched l))]) |>.

Lemma rcv_pkt_queued i qp pkt h :
  h_qps h !! i = Some qp → rxe_rcv_pkt i pkt (h_add_ref i h) = Some (queued_on i qp pkt h).
Proof.
  intros Hq. unfold rxe_rcv_pkt, on_qp, h_add_ref, h_upd_qp, queued_on, is_request. cbn [h_qps upd_field].
  rewrite lookup_alter_eq, Hq. cbn [fmap option_fmap option_map].
  destruct (flag_set (pkt_mask pkt) RXE_REQ_MASK).
  all: exact (f_equal (λ m, Some (Host _ m _ _ _ _ _)) (insert_over_alter (h_qps h) i _ _)).
Qed.

Lemma add_drop_ref i h : h_drop_ref i (h_add_ref i h) = h.
Proof.
  unfold h_drop_ref, h_add_ref, h_upd_qp. destruct h as [d qps g al se j ev]. unfold upd_field. cbn.
  f_equal. apply map_eq. intros k. destruct (decide (i = k)) as [<-|Hk].
  - rewrite !lookup_alter_eq. destruct (qps !! i) as [q|]; [|done]. destruct q. cbn. unfold upd_field. cbn. do 2 f_equal. lia.
  - by rewrite !lookup_alter_ne.
Qed.

Lemma set_port_id h pkt port : port_of h pkt = Some port → set_port pkt port h = h.
Proof.
  intros Hp. unfold port_of in Hp. unfold set_port. destruct h as [[] qps g al se j ev]. unfold upd_field. cbn in *.
  by rewrite list_insert_id.
Qed.

Lemma unicast_check_spec h port pkt qp i :
  flag_set (pkt_mask pkt) RXE_GRH_MASK = true → port_of h pkt = Some port → h_qps h !! i = Some qp →
  in_tables port qp →
  ∃ h' pkt' r, unicast_check pkt (bth_qpn pkt) i qp (h_add_ref i h) = Some (h', pkt', r) ∧
    match r with
    | Ok _ => ∃ k, pkt' = pkt <| pkt_pkey_index := k |> ∧ h' = h_add_ref i h ∧ accepts port pkt qp k
    | Err _ => (∀ k, ¬ accepts port pkt qp k) ∧ ∃ port', same_port port port' ∧ h' = set_port pkt port' h
    end.
Proof.
  intros Hg Hp Hq [Hpk Hgu]. unfold unicast_check.
  assert (Hm : pkt_mask pkt ≠ 0) by (intros E; by rewrite E in Hg).
  assert (Hfail : ∀ p : rxe_pkt_info, (∀ k, ¬ accepts port pkt qp k) →
    ∃ h' pkt' r, Some (h_drop_ref i (h_add_ref i h), p, Err EINVAL : result unit) = Some (h', pkt', r) ∧
    match r with
    | Ok _ => ∃ k, pkt' = pkt <| pkt_pkey_index := k |> ∧ h' = h_add_ref i h ∧ accepts port pkt qp k
    | Err _ => (∀ k, ¬ accepts port pkt qp k) ∧ ∃ port', same_port port port' ∧ h' = set_port pkt port' h
    end).
  { intros p Hn. eexists _, _, _. split; [done|]. cbn. split; [done|]. exists port. split; [by destruct port|].
    by rewrite add_drop_ref, set_port_id. }
  destruct (check_type_state pkt qp) as [[]|e] eqn:Hts.
  2: { apply Hfail. intros k [? ? ? _ _ _]. assert (check_type_state pkt qp = Ok tt) by by apply check_type_state_spec. congruence. }
  apply check_type_state_spec in Hts as (H1 & H2 & H3).
  destruct (grh_ok pkt) eqn:Hgo; cbn [negb].
  2: { apply Hfail. intros k [_ _ _ [E1 E2] _ _]. unfold grh_ok in Hgo. by rewrite Hg, E1, E2 in Hgo. }
  unfold grh_ok in Hgo. rewrite Hg in Hgo. cbn [negb orb] in Hgo. apply andb_true_iff in Hgo as [E1%Z.eqb_eq E2%Z.eqb_eq].
  change (port_of (h_add_ref i h) pkt) with (port_of h pkt). rewrite Hp. cbn [mbind option_bind].
  destruct (check_addr_spec port pkt qp Hg Hgu) as (r & -> & Hr). cbn [mbind option_bind].
  destruct r as [[]|e]; [|apply Hfail; intros k [_ _ _ _ Ha _]; by apply Hr in Ha].
  destruct (check_keys_spec port pkt (bth_qpn pkt) qp Hm Hpk) as (port' & k & r & -> & Hk). cbn [mbind option_bind].
  destruct r as [[]|e].
  - destruct Hk as [-> Hk]. eexists _, _, _. split; [done|]. exists k. split; [done|].
    split; [|by split; try done; apply Hr]. by apply (set_port_id (h_add_ref i h) pkt).
  - destruct Hk as [Hs Hk]. eexists _, _, _. split; [done|]. cbn. split; [intros k' [_ _ _ _ _ Hk']; by apply Hk in Hk'|].
    exists port'. split; [done|]. transitivity (set_port pkt port' (h_drop_ref i (h_add_ref i h))); [done|]. by rewrite add_drop_ref.
Qed.

(** Whether the buffer holds the headers of the packet. *)
Definition whole (len : Z) (pkt : rxe_pkt_info) : Prop :=
  RXE_GRH_BYTES + RXE_BTH_BYTES ≤ len ∧ header_size (parsed pkt) ≤ len.

Lemma rxe_rcv_parsed stale len pkt h :
  pkt_mask pkt = RXE_GRH_MASK → whole len pkt →
  rxe_rcv stale len pkt h =
  '(h, pkt, r) ← hdr_check (parsed pkt) h;
  match r with
  | Err _ => Some (h_free pkt h)
  | Ok None => rxe_rcv_mcast_pkt pkt h
  | Ok (Some i) => rxe_rcv_pkt i pkt h
  end.
Proof.
  destruct pkt as [hdr mask psn pk pl pn op off]. cbn. intros -> [Hl Hh]. unfold rxe_rcv. cbn zeta.
  cbn [pkt_mask pkt_hdr pkt_offset upd_field].
  change (flag_set RXE_GRH_MASK RXE_LRH_MASK) with false. cbn [andb]. cbv iota.
  cbn [pkt_mask pkt_hdr pkt_offset upd_field].
  change (flag_set RXE_GRH_MASK RXE_GRH_MASK) with true. cbn [andb].
  cbn [pkt_mask pkt_hdr pkt_offset upd_field]. unfold RXE_GRH_BYTES, RXE_BTH_BYTES in *.
  destruct (Z.ltb_spec len (0 + 40)); [lia|]. cbv iota. cbn [pkt_mask pkt_hdr pkt_offset upd_field].
  destruct (Z.ltb_spec len (0 + 40 + 12)); [lia|].
  match goal with |- (if len <? header_size ?p then _ else _) = _ =>
    change p with (parsed (PktInfo hdr RXE_GRH_MASK psn pk pl pn op off)) end.
  by destruct (Z.ltb_spec len (header_size (parsed (PktInfo hdr RXE_GRH_MASK psn pk pl pn op off)))); [lia|].
Qed.

Lemma rxe_rcv_short stale len pkt h :
  pkt_mask pkt = RXE_GRH_MASK → stale = false ∨ RXE_GRH_BYTES + RXE_BTH_BYTES ≤ len → ¬ whole len pkt →
  ∃ p, rxe_rcv stale len pkt h = Some (h_free p h).
Proof.
  destruct pkt as [hdr mask psn pk pl pn op off]. cbn. intros -> Hs Hw. unfold rxe_rcv. cbn zeta.
  cbn [pkt_mask pkt_hdr pkt_offset upd_field].
  change (flag_set RXE_GRH_MASK RXE_LRH_MASK) with false. cbn [andb]. cbv iota.
  cbn [pkt_mask pkt_hdr pkt_offset upd_field].
  change (flag_set RXE_GRH_MASK RXE_GRH_MASK) with true. cbn [andb].
  cbn [pkt_mask pkt_hdr pkt_offset upd_field]. unfold whole, RXE_GRH_BYTES, RXE_BTH_BYTES in *.
  destruct (Z.ltb_spec len (0 + 40)); cbv iota; [destruct Hs as [-> |?]; [eauto|lia]|].
  cbn [pkt_mask pkt_hdr pkt_offset upd_field].
  destruct (Z.ltb_spec len (0 + 40 + 12)); [destruct Hs as [-> |?]; [eauto|lia]|].
  match goal with |- ∃ _, (if len <? header_size ?p then _ else _) = _ =>
    change p with (parsed (PktInfo hdr RXE_GRH_MASK psn pk pl pn op off)) end.
  destruct (Z.ltb_spec len (header_size (parsed (PktInfo hdr RXE_GRH_MASK psn pk pl pn op off)))); [eauto|].
  exfalso. apply Hw. split; [lia|done].
Qed.

(** The buffer still has the pointer of somebody else where the one to the queue
    pair belongs, and is too short to get so far that it is cleared. *)
Definition follows_stale (stale : bool) (len : Z) : bool := stale && (len <? RXE_GRH_BYTES + RXE_BTH_BYTES).

Lemma rxe_rcv_stale len pkt h :
  pkt_mask pkt = RXE_GRH_MASK → follows_stale true len = true → rxe_rcv true len pkt h = None.
Proof.
  destruct pkt as [hdr mask psn pk pl pn op off]. cbn. intros -> Hs. apply Z.ltb_lt in Hs. unfold rxe_rcv. cbn zeta.
  cbn [pkt_mask pkt_hdr pkt_offset upd_field].
  change (flag_set RXE_GRH_MASK RXE_LRH_MASK) with false. cbn [andb]. cbv iota.
  cbn [pkt_mask pkt_hdr pkt_offset upd_field].
  change (flag_set RXE_GRH_MASK RXE_GRH_MASK) with true. cbn [andb].
  cbn [pkt_mask pkt_hdr pkt_offset upd_field]. unfold RXE_GRH_BYTES, RXE_BTH_BYTES in *.
  destruct (Z.ltb_spec len (0 + 40)); cbv iota; [done|]. cbn [pkt_mask pkt_hdr pkt_offset upd_field].
  destruct (Z.ltb_spec len (0 + 40 + 12)); [done|lia].
Qed.

Lemma not_stale stale len : follows_stale stale len = false → stale = false ∨ RXE_GRH_BYTES + RXE_BTH_BYTES ≤ len.
Proof. unfold follows_stale. destruct stale; [|by left]. cbn [andb]. intros H%Z.ltb_ge. by right. Qed.

Lemma parsed_grh pkt : flag_set (pkt_mask (parsed pkt)) RXE_GRH_MASK = true.
Proof. cbn. rewrite flag_set_lor. done. Qed.

Lemma dest_index_found h port pkt :
  port_of h pkt = Some port →
  (if bth_qpn pkt =? 0 then port_qp_smi_index <$> port_of h pkt
   else if bth_qpn pkt =? 1 then port_qp_gsi_index <$> port_of h pkt else Some (bth_qpn pkt)) = Some (dest_index port pkt).
Proof. intros ->. unfold dest_index. by repeat case_match. Qed.

Lemma hdr_check_spec h port pkt :
  port_of h pkt = Some port → tables_ok h port → flag_set (pkt_mask pkt) RXE_GRH_MASK = true →
  bth_qpn pkt ≠ IB_MULTICAST_QPN →
  ∃ h' pkt' r, hdr_check pkt h = Some (h', pkt', r) ∧
    match r with
    | Ok (Some i) => ∃ qp k, i = dest_index port pkt ∧ pkt' = pkt <| pkt_pkey_index := k |> ∧ h' = h_add_ref i h ∧
        admits h port pkt qp k
    | Ok None => False
    | Err _ => (∀ qp k, ¬ admits h port pkt qp k) ∧ ∃ port', same_port port port' ∧ h' = set_port pkt port' h
    end.
Proof.
  intros Hp Ht Hg Hm. unfold hdr_check, admits.
  assert (Hsame : same_port port port ∧ h = set_port pkt port h).
  { split; [by destruct port|]. by rewrite set_port_id. }
  destruct (Z.eqb_spec (bth_tver pkt) BTH_TVER) as [Hv|Hv]; cbn [negb].
  2: { eexists _, _, _. split; [done|]. cbn. split; [intros qp k [? _]; congruence|by exists port]. }
  destruct (Z.eqb_spec (bth_qpn pkt) IB_MULTICAST_QPN); [done|]. cbn [negb].
  rewrite (dest_index_found h port pkt Hp). cbn [mbind option_bind]. set (i := dest_index port pkt). destruct (h_qps h !! i) as [qp|] eqn:Hq.
  2: { eexists _, _, _. split; [done|]. cbn. split; [intros qp k (_ & ? & _); congruence|by exists port]. }
  destruct (unicast_check_spec h port pkt qp i Hg Hp Hq (Ht i qp Hq)) as (h' & pkt' & r & -> & Hr). cbn [mbind option_bind].
  destruct r as [[]|e].
  - destruct Hr as (k & -> & -> & Ha). eexists _, _, _. split; [done|]. cbn. by exists qp, k.
  - destruct Hr as [Hn Hs]. eexists _, _, _. split; [done|]. cbn. split; [|exact Hs].
    intros qp' k (_ & Hq' & Ha). assert (qp' = qp) as -> by congruence. by apply Hn in Ha.
Qed.

(** A packet that is admitted is queued. *)
Lemma rcv_admitted stale len pkt h port qp k :
  pkt_mask pkt = RXE_GRH_MASK → whole len pkt → port_of h pkt = Some port → in_tables port qp →
  bth_qpn (parsed pkt) ≠ IB_MULTICAST_QPN → admits h port (parsed pkt) qp k →
  rxe_rcv stale len pkt h = Some (queued_on (dest_index port (parsed pkt)) qp (parsed pkt <| pkt_pkey_index := k |>) h).
Proof.
  intros Hm Hw Hp Ht Hmc (Hv & Hq & Ha). rewrite rxe_rcv_parsed by done. set (p := parsed pkt) in *. unfold hdr_check.
  rewrite Hv, Z.eqb_refl, (proj2 (Z.eqb_neq _ _) Hmc). cbn [negb].
  rewrite (dest_index_found h port p Hp). cbn [mbind option_bind]. rewrite Hq.
  destruct (unicast_check_spec h port p qp _ (parsed_grh pkt) Hp Hq Ht) as (h' & pkt' & r & -> & Hr).
  destruct r as [[]|e]; [|by destruct (proj1 Hr k)]. destruct Hr as (k' & -> & -> & Ha'). cbn [mbind option_bind].
  assert (k' = k) as -> by (destruct (ac_keys _ _ _ _ Ha), (ac_keys _ _ _ _ Ha'); congruence).
  by apply rcv_pkt_queued.
Qed.

(** A packet that the queue pair it names does not accept is freed. *)
Lemma rcv_refused stale len pkt h port qp :
  pkt_mask pkt = RXE_GRH_MASK → whole len pkt → port_of h pkt = Some port → in_tables port qp →
  bth_qpn (parsed pkt) ≠ IB_MULTICAST_QPN → h_qps h !! dest_index port (parsed pkt) = Some qp →
  (∀ k, ¬ accepts port (parsed pkt) qp k) →
  ∃ freed port', rxe_rcv stale len pkt h = Some (h_free freed (set_port pkt port' h)).
Proof.
  intros Hm Hw Hp Ht Hmc Hq Ha. rewrite rxe_rcv_parsed by done. set (p := parsed pkt) in *. unfold hdr_check.
  destruct (bth_tver p =? BTH_TVER); cbn [negb mbind option_bind].
  2: { exists p, port. by rewrite set_port_id. }
  rewrite (proj2 (Z.eqb_neq _ _) Hmc). cbn [negb].
  rewrite (dest_index_found h port p Hp). cbn [mbind option_bind]. rewrite Hq.
  destruct (unicast_check_spec h port p qp _ (parsed_grh pkt) Hp Hq Ht) as (h' & pkt' & r & -> & Hr).
  destruct r as [[]|e]; [destruct Hr as (k & _ & _ & Hk); by destruct (Ha k)|].
  destruct Hr as (_ & port' & _ & ->). cbn. by exists pkt', port'.
Qed.

(** C9: a packet with a global route header that is not for a multicast group
    and comes from a port of the device. It is queued exactly when its headers
    are complete and the queue pair it names exists, is of the transport of the
    opcode, is in a state to receive it, has the partition key and, for
    datagrams, the queue key, and, when connected, the addresses of the packet
    backwards. It is then appended to the requests or the responses of that
    queue pair, which holds one more reference, and the responder or the
    completer is started; nothing else changes. Every other packet is freed, and
    at most an error counter of the port changes, but for one case: a packet that
    is too short for its base header, in a buffer whose control block still has a
    pointer of an earlier user, makes the code drop a reference through it. *)
Theorem rcv_dispatch stale len pkt h port :
  pkt_mask pkt = RXE_GRH_MASK → port_of h pkt = Some port → tables_ok h port → bth_qpn (parsed pkt) ≠ IB_MULTICAST_QPN →
  let p := parsed pkt in
  if follows_stale stale len then rxe_rcv stale len pkt h = None
  else ∃ h', rxe_rcv stale len pkt h = Some h' ∧
    ((∃ qp k, whole len pkt ∧ admits h port p qp k ∧
        h' = queued_on (dest_index port p) qp (p <| pkt_pkey_index := k |>) h) ∨
     (∀ qp k, ¬ (whole len pkt ∧ admits h port p qp k)) ∧
       ∃ freed port', same_port port port' ∧ h' = h_free freed (set_port p port' h)).
Proof.
  intros Hm Hp Ht Hmc p. destruct (follows_stale stale len) eqn:Hst.
  { pose proof Hst as [-> _]%andb_true_iff. by apply rxe_rcv_stale. }
  apply not_stale in Hst as Hs.
  assert (Hw : whole len pkt ∨ ¬ whole len pkt) by (unfold whole; lia).
  destruct Hw as [Hw|Hw].
  - rewrite rxe_rcv_parsed by done.
    destruct (hdr_check_spec h port p Hp Ht (parsed_grh pkt) Hmc) as (h' & pkt' & r & E & Hr).
    fold p. rewrite E. cbn [mbind option_bind]. destruct r as [[i|]|e]; [|done|].
    + destruct Hr as (qp & k & -> & -> & -> & Ha). pose proof Ha as (_ & Hq & _).
      eexists. split; [by apply rcv_pkt_queued|]. left. by exists qp, k.
    + destruct Hr as (Hn & port' & Hs' & ->). eexists. split; [done|]. right.
      split; [intros qp k [_ Ha]; by apply Hn in Ha|]. by exists pkt', port'.
  - destruct (rxe_rcv_short stale len pkt h Hm Hs Hw) as [q ->]. eexists. split; [done|]. right.
    split; [by intros qp k [? _]|]. exists q, port. split; [by destruct port|]. by rewrite set_port_id.
Qed.

(** ** The packets in the queues *)

(** The information about a packet is what its headers say, and the buffer holds
    the headers. *)
Record packet_typed (pkt : rxe_pkt_info) : Prop := {
  ty_offset : pkt_offset pkt = RXE_GRH_BYTES;
  ty_opcode : pkt_opcode pkt = bth_opcode pkt;
  ty_psn : pkt_psn pkt = bth_psn pkt;
  ty_mask : pkt_mask pkt = RXE_GRH_MASK .| opcode_mask (pkt_opcode pkt);
  ty_paylen : pkt_paylen pkt = __grh_paylen (pkt_hdr pkt) 0;
  ty_bth : RXE_GRH_BYTES + RXE_BTH_BYTES ≤ Z.of_nat (length (pkt_hdr pkt));
  ty_room : header_size pkt ≤ Z.of_nat (length (pkt_hdr pkt))
}.

Definition qp_typed (q : rxe_qp) : Prop :=
  Forall (λ p, packet_typed p ∧ is_request p = true) (qp_req_pkts q) ∧
  Forall (λ p, packet_typed p ∧ is_request p = false) (qp_resp_pkts q).

(** The queues hold well-formed packets, and the tables and groups of the host
    the entries its code looks up. *)
Record host_typed (h : host) : Prop := {
  ht_qps : map_Forall (λ _ q, qp_typed q) (h_qps h);
  ht_tables : Forall (tables_ok h) (rdev_ports (h_dev h));
  ht_groups : map_Forall (λ _ g, Forall (λ i, is_Some (h_qps h !! i)) (mcg_qp_list g)) (h_mcgs h)
}.

Lemma parsed_typed len pkt k :
  whole len pkt → len ≤ Z.of_nat (length (pkt_hdr pkt)) → packet_typed (parsed pkt <| pkt_pkey_index := k |>).
Proof. intros [Hl Hw] Hlen. split; try done; unfold header_size in *; cbn in *; lia. Qed.

(** A queue pair as the checks see it. *)
Definition same_keys (q q' : rxe_qp) : Prop :=
  qa_pkey_index (qp_attr q') = qa_pkey_index (qp_attr q) ∧ qp_pri_av q' = qp_pri_av q.

Lemma typed_update h h' i q q' :
  host_typed h → h_qps h !! i = Some q → h_qps h' = <[i := q']> (h_qps h) →
  h_mcgs h' = h_mcgs h → rdev_ports (h_dev h') = rdev_ports (h_dev h) →
  same_keys q q' → qp_typed q' → host_typed h'.
Proof.
  intros [Hq Ht Hg] Hi E1 E2 E3 [K1 K2] Hty. split.
  - rewrite E1. by apply map_Forall_insert_2.
  - rewrite E3. eapply Forall_impl; [|exact Ht]. intros port Hp j qp. rewrite E1. intros [[<- <-]|[? Hj]]%lookup_insert_Some.
    + unfold in_tables. rewrite K1, K2. by eapply Hp.
    + by eapply Hp.
  - rewrite E1, E2. intros m g Hm. eapply Forall_impl; [|exact (Hg m g Hm)]. intros j Hj. cbn in *.
    destruct (decide (i = j)) as [->|Hij]; [rewrite lookup_insert_eq; by eexists|by rewrite lookup_insert_ne].
Qed.

Lemma queued_typed h i q pkt :
  host_typed h → h_qps h !! i = Some q → packet_typed pkt → host_typed (queued_on i q pkt h).
Proof.
  intros Hh Hi Hp. pose proof (ht_qps _ Hh i q Hi) as [H1 H2]. unfold queued_on.
  destruct (is_request pkt) eqn:Hr; eapply (typed_update h _ i q); try done; split; cbn; try done;
    (apply Forall_app; split; [done|]); by constructor.
Qed.

Lemma set_port_typed h pkt port port' :
  host_typed h → port_of h pkt = Some port → same_port port port' → host_typed (set_port pkt port' h).
Proof.
  intros [Hq Ht Hg] Hp Hs. split; [exact Hq| |exact Hg]. cbn. apply Forall_insert; [exact Ht|].
  unfold port_of in Hp. pose proof (Forall_lookup_1 _ _ _ _ Ht Hp) as Ho. intros j qp Hj.
  rewrite Hs. by apply (Ho j).
Qed.

Lemma port_tables h pkt port : host_typed h → port_of h pkt = Some port → tables_ok h port.
Proof. intros Hh Hp. exact (Forall_lookup_1 _ _ _ _ (ht_tables _ Hh) Hp). Qed.

(** ** Multicast *)

(** A member of a group takes the packet. *)
Definition takes (port : rxe_port) (pkt : rxe_pkt_info) (qp : rxe_qp) : Prop :=
  check_type_state pkt qp = Ok tt ∧ ∃ k, keys_match port pkt (bth_qpn pkt) qp k.

(** The queue pair with the packet. *)
Definition got (qp : rxe_qp) (pkt : rxe_pkt_info) : rxe_qp :=
  if is_request pkt then qp <| qp_ref ::= (λ n, n + 1) |> <| qp_req_skb_in ::= (λ n, n + 1) |>
                            <| qp_req_pkts ::= (λ l, l ++ [pkt]) |>
  else qp <| qp_ref ::= (λ n, n + 1) |> <| qp_resp_pkts ::= (λ l, l ++ [pkt]) |>.

Lemma queued_on_qps i qp pkt h : h_qps (queued_on i qp pkt h) = <[i := got qp pkt]> (h_qps h).
Proof. unfold queued_on, got. by destruct (is_request pkt). Qed.

Lemma queued_on_rest i qp pkt h :
  h_mcgs (queued_on i qp pkt h) = h_mcgs h ∧ h_alloc (queued_on i qp pkt h) = h_alloc h ∧
  rdev_ports (h_dev (queued_on i qp pkt h)) = rdev_ports (h_dev h).
Proof. unfold queued_on. by destruct (is_request pkt). Qed.

(** Every member of [l] that takes the packet gets it, and nobody else. *)
Definition shared (l : list Z) (port : rxe_port) (pkt : rxe_pkt_info) (h h' : host) : Prop :=
  ∀ i qp, h_qps h !! i = Some qp →
    i ∈ l ∧ takes port pkt qp ∧ (∃ k, h_qps h' !! i = Some (got qp (pkt <| pkt_pkey_index := k |>))) ∨
    ¬ (i ∈ l ∧ takes port pkt qp) ∧ h_qps h' !! i = Some qp.

Lemma shared_skip i l port pkt h h' qp :
  h_qps h !! i = Some qp → ¬ takes port pkt qp → shared l port pkt h h' → shared (i :: l) port pkt h h'.
Proof.
  intros Hi Hn Hs j qj Hj. destruct (Hs j qj Hj) as [(Hl & Ht & Hg)|(Hl & Hg)]; [left|right].
  - split; [by apply elem_of_cons; right|done].
  - split; [|done]. intros [[->|?]%elem_of_cons Ht]; [|by apply Hl]. assert (qj = qp) as -> by congruence. done.
Qed.

Lemma shared_take i l port pkt h h1 h' qp k :
  h_qps h !! i = Some qp → takes port pkt qp → i ∉ l → h_qps h1 = <[i := got qp (pkt <| pkt_pkey_index := k |>)]> (h_qps h) →
  shared l port pkt h1 h' → shared (i :: l) port pkt h h'.
Proof.
  intros Hi Ht Hl E Hs j qj Hj. destruct (decide (i = j)) as [<-|Hij].
  - assert (qj = qp) as -> by congruence. left. split; [by apply elem_of_cons; left|]. split; [done|]. exists k.
    destruct (Hs i (got qp (pkt <| pkt_pkey_index := k |>))) as [(? & _)|(_ & ?)]; [by rewrite E, lookup_insert_eq|done|done].
  - destruct (Hs j qj) as [(? & ? & ?)|(Hn & ?)]; [by rewrite E, lookup_insert_ne|left|right].
    + split; [by apply elem_of_cons; right|done].
    + split; [|done]. intros [[->|?]%elem_of_cons ?]; [done|by apply Hn].
Qed.

(** Neither the counters of the port nor the entry of the key in the packet
    matter. *)
Lemma keys_match_ext port port' pkt k0 qpn qp k :
  same_port port port' → keys_match port' (pkt <| pkt_pkey_index := k0 |>) qpn qp k ↔ keys_match port pkt qpn qp k.
Proof. intros ->. done. Qed.

Lemma shared_ext l port port' pkt k0 h h' :
  same_port port port' → shared l port' (pkt <| pkt_pkey_index := k0 |>) h h' → shared l port pkt h h'.
Proof.
  intros Hs Hsh i qp Hi. assert (Ht : takes port' (pkt <| pkt_pkey_index := k0 |>) qp ↔ takes port pkt qp).
  { unfold takes. change (bth_qpn (pkt <| pkt_pkey_index := k0 |>)) with (bth_qpn pkt).
    setoid_rewrite (keys_match_ext port port' pkt k0); done. }
  destruct (Hsh i qp Hi) as [(? & ? & ?)|(? & ?)]; [left|right]; rewrite <- Ht; done.
Qed.

Lemma shared_nil port pkt h h' : h_qps h' = h_qps h → shared [] port pkt h h'.
Proof. intros E i qp Hi. right. split; [by intros [?%not_elem_of_nil _]|by rewrite E]. Qed.

Lemma port_of_set h pkt port port' :
  port_of h pkt = Some port → port_of (set_port pkt port' h) pkt = Some port'.
Proof. intros Hp. unfold port_of, set_port in *. cbn. apply list_lookup_insert_eq. by eapply lookup_lt_Some. Qed.

(** The host has as many ports as before. *)
Definition same_ports (h h' : host) : Prop := length (rdev_ports (h_dev h')) = length (rdev_ports (h_dev h)).

Lemma same_ports_set pkt port h : length (rdev_ports (h_dev (set_port pkt port h))) = length (rdev_ports (h_dev h)).
Proof. apply length_insert. Qed.

Lemma typed_alloc h al : host_typed h → host_typed (h <| h_alloc := al |>).
Proof. intros []. by split. Qed.

Lemma mcast_members_spec l : ∀ pkt h port,
  host_typed h → Forall (λ i, is_Some (h_qps h !! i)) l → port_of h pkt = Some port → pkt_mask pkt ≠ 0 →
  (∀ k, packet_typed (pkt <| pkt_pkey_index := k |>)) →
  ∃ h' rest, mcast_members l pkt h = Some (h', rest) ∧ host_typed h' ∧ same_ports h h' ∧
    (NoDup l → h_alloc h = [] → shared l port pkt h h').
Proof.
  induction l as [|i l IH]; intros pkt h port Hh Hl Hp Hm Hk; cbn [mcast_members].
  { exists h, (Some pkt). do 3 (split; [done|]). intros _ _. by apply shared_nil. }
  apply Forall_cons_1 in Hl as [[qp Hi] Hl]. rewrite Hi. cbn [mbind option_bind].
  destruct (check_type_state pkt qp) as [[]|e] eqn:Hts.
  2: { destruct (IH pkt h port Hh Hl Hp Hm Hk) as (h' & rest & -> & Ht & Hn & Hs). exists h', rest.
       do 3 (split; [done|]). intros [_ Hnd]%list.NoDup_cons Ha. eapply shared_skip; [done|intros [? _]; congruence|by apply Hs]. }
  rewrite Hp. cbn [mbind option_bind].
  destruct (port_tables _ _ _ Hh Hp i qp Hi) as [Hpk _].
  destruct (check_keys_spec port pkt (bth_qpn pkt) qp Hm Hpk) as (port' & k & r & -> & Hr). cbn [mbind option_bind].
  set (pkt' := pkt <| pkt_pkey_index := k |>). destruct r as [[]|e].
  2: { destruct Hr as [Hsp Hn].
       destruct (IH pkt' (set_port pkt' port' h) port') as (h' & rest & -> & Ht & Hn' & Hs);
         [by eapply set_port_typed|done|by eapply (port_of_set _ pkt')|done|exact Hk|].
       exists h', rest. do 2 (split; [done|]). split; [unfold same_ports; by rewrite Hn', same_ports_set|]. intros [_ Hnd]%list.NoDup_cons Ha.
       eapply shared_skip; [done|intros [_ [k' ?]]; by eapply Hn|]. by eapply shared_ext, Hs. }
  destruct Hr as [-> Hkm]. assert (Ht : takes port pkt qp) by (split; [done|by exists k]).
  rewrite (set_port_id h pkt' port Hp).
  pose proof (queued_typed h i qp pkt' Hh Hi (Hk k)) as Hty. destruct (queued_on_rest i qp pkt' h) as (Q1 & Q2 & Q3).
  assert (Hstep : ∀ h1, host_typed h1 → h_qps h1 = h_qps h → rdev_ports (h_dev h1) = rdev_ports (h_dev h) →
    ∃ h' rest, mcast_members l pkt' (queued_on i qp pkt' h1) = Some (h', rest) ∧ host_typed h' ∧ same_ports h h' ∧
      (NoDup (i :: l) → h_alloc h1 = [] → shared (i :: l) port pkt h h')).
  { intros h1 Hh1 E1 E2. destruct (queued_on_rest i qp pkt' h1) as (R1 & R2 & R3).
    assert (Hi1 : h_qps h1 !! i = Some qp) by (by rewrite E1).
    destruct (IH pkt' (queued_on i qp pkt' h1) port) as (h' & rest & -> & Ht' & Hn & Hs);
      [apply queued_typed; [done|done|apply Hk]| |unfold port_of; by rewrite R3, E2|done|exact Hk|].
    { rewrite queued_on_qps, E1. eapply Forall_impl; [|exact Hl]. intros j Hj. cbn in *.
      destruct (decide (i = j)) as [->|?]; [rewrite lookup_insert_eq; by eexists|by rewrite lookup_insert_ne]. }
    exists h', rest. do 2 (split; [done|]). split; [unfold same_ports; by rewrite Hn, R3, E2|]. intros [Hni Hnd]%list.NoDup_cons Ha.
    eapply (shared_take i l port pkt h (queued_on i qp pkt' h1)); [done|done|done|by rewrite queued_on_qps, E1|].
    apply (shared_ext l port port pkt k); [by destruct port|]. apply Hs; [done|by rewrite R2]. }
  destruct l as [|j l'].
  - rewrite (rcv_pkt_queued i qp) by done. cbn [mbind option_bind]. eexists _, None. do 2 (split; [done|]).
    split; [unfold same_ports; by rewrite Q3|]. intros _ _. eapply (shared_take i [] port pkt h (queued_on i qp pkt' h)); [done|done|by apply not_elem_of_nil
      |apply queued_on_qps|by apply shared_nil].
  - unfold h_next_alloc. destruct (h_alloc h) as [|b al] eqn:Hal.
    + rewrite (rcv_pkt_queued i qp) by done. cbn [mbind option_bind].
      destruct (Hstep h) as (h' & rest & E & Ht' & Hn & Hs); [done..|]. exists h', rest. split; [exact E|]. do 2 (split; [done|]).
      intros Hnd _. by apply Hs.
    + rewrite (rcv_pkt_queued i qp) by done. cbn [mbind option_bind]. destruct b.
      * destruct (Hstep (h <| h_alloc := al |>)) as (h' & rest & E & Ht' & Hn & Hs); [by apply typed_alloc|done..|].
        exists h', rest. split; [exact E|]. split; [done|]. by split.
      * eexists _, None. split; [done|]. split; [apply queued_typed; [by apply typed_alloc|done|apply Hk]|].
        split; [|done]. destruct (queued_on_rest i qp pkt' (h <| h_alloc := al |>)) as (_ & _ & R). unfold same_ports. by rewrite R.
Qed.

Lemma hdr_check_mcast h pkt :
  bth_qpn pkt = IB_MULTICAST_QPN → ∃ r, hdr_check pkt h = Some (h, pkt, r) ∧ ∀ i, r ≠ Ok (Some i).
Proof.
  intros Hq. unfold hdr_check. rewrite Hq, Z.eqb_refl. cbn [negb].
  destruct (bth_tver pkt =? BTH_TVER), (grh_ok pkt), (flag_set (pkt_mask pkt) RXE_GRH_MASK),
    (load_u8 (pkt_hdr pkt) (grh_dgid pkt) =? 0xff); eexists; (split; [reflexivity|done]).
Qed.

Lemma typed_free h pkt : host_typed h → host_typed (h_free pkt h).
Proof. intros []. by split. Qed.

(** One packet from the network, whatever its bytes. *)
Lemma rcv_typed stale len pkt h :
  host_typed h → pkt_mask pkt = RXE_GRH_MASK → is_Some (port_of h pkt) → len ≤ Z.of_nat (length (pkt_hdr pkt)) →
  stale = false ∨ RXE_GRH_BYTES + RXE_BTH_BYTES ≤ len →
  ∃ h', rxe_rcv stale len pkt h = Some h' ∧ host_typed h' ∧ same_ports h h'.
Proof.
  intros Hh Hm [port Hp] Hlen Hs. pose proof (port_tables _ _ _ Hh Hp) as Ht.
  assert (Hw : whole len pkt ∨ ¬ whole len pkt) by (unfold whole; lia).
  destruct Hw as [Hw|Hw]; [|destruct (rxe_rcv_short stale len pkt h Hm Hs Hw) as [q ->];
    eexists; split; [done|]; split; [by apply typed_free|done]].
  rewrite rxe_rcv_parsed by done. set (p := parsed pkt). destruct (decide (bth_qpn p = IB_MULTICAST_QPN)) as [Hq|Hq].
  - destruct (hdr_check_mcast h p Hq) as (r & -> & Hr). cbn [mbind option_bind].
    destruct r as [[i|]|e]; [by destruct (Hr i)| |eexists; split; [done|]; split; [by apply typed_free|done]].
    unfold rxe_rcv_mcast_pkt. destruct (h_mcgs h !! _) as [g|] eqn:Hg;
      [|eexists; split; [done|]; split; [by apply typed_free|done]].
    destruct (mcast_members_spec (mcg_qp_list g) p h port) as (h' & rest & -> & Hty & Hn & _);
      [done|exact (ht_groups _ Hh _ _ Hg)|done|intros E; pose proof (parsed_grh pkt) as Hf; fold p in Hf; by rewrite E in Hf
      |intros k; by eapply parsed_typed|].
    cbn [mbind option_bind]. eexists. split; [done|]. destruct rest; [split; [by apply typed_free|done]|done].
  - destruct (hdr_check_spec h port p Hp Ht (parsed_grh pkt) Hq) as (h' & pkt' & r & -> & Hr). cbn [mbind option_bind].
    destruct r as [[i|]|e]; [|done|].
    + destruct Hr as (qp & k & -> & -> & -> & _ & Hqp & _). eexists. split; [by apply rcv_pkt_queued|].
      split; [apply queued_typed; [done|done|by eapply parsed_typed]|]. unfold same_ports. by rewrite (proj2 (proj2 (queued_on_rest _ _ _ _))).
    + destruct Hr as (_ & port' & Hs' & ->). eexists. split; [done|].
      split; [by eapply typed_free, set_port_typed|]. apply same_ports_set.
Qed.

(** What the network hands over: a device that knows the port or not, a buffer that
    can be made linear or not, that is shared with somebody (and can be copied or
    not), whose control block has an old pointer or not. *)
Record frame := Frame {
  fr_rxe : bool;
  fr_linear : bool;
  fr_shared : bool;
  fr_cloned : bool;
  fr_stale : bool;
  fr_port_num : Z;
  fr_bytes : list Z;
  fr_junk : rxe_pkt_info
}.

Definition rcv_frame (f : frame) (h : host) : option host :=
  rxe_net_rcv (fr_rxe f) (fr_linear f) (fr_shared f) (fr_cloned f) (fr_stale f) (Z.of_nat (length (fr_bytes f)))
    (fr_port_num f) (fr_bytes f) (fr_junk f) h.

Fixpoint rcv_all (l : list frame) (h : host) : option host :=
  match l with
  | [] => Some h
  | f :: l => h ← rcv_frame f h; rcv_all l h
  end.

(** The two buffers the code does not survive: one that was shared and has been
    copied, because the fields are then set in the wrong one, and a short one with
    an old pointer. *)
Definition frame_faults (f : frame) : bool :=
  fr_rxe f && fr_linear f &&
  (if fr_shared f then fr_cloned f else follows_stale (fr_stale f) (Z.of_nat (length (fr_bytes f)))).

Lemma rcv_frame_typed f h :
  host_typed h → is_Some (rdev_ports (h_dev h) !! Z.to_nat (fr_port_num f - 1)) →
  if frame_faults f then rcv_frame f h = None
  else ∃ h', rcv_frame f h = Some h' ∧ host_typed h' ∧ length (rdev_ports (h_dev h')) = length (rdev_ports (h_dev h)).
Proof.
  destruct f as [rxe lin sh cl st pn bytes junk]. cbn. intros Hh Hpn. unfold frame_faults, rcv_frame, rxe_net_rcv. cbn.
  assert (Hfree : ∃ h', Some (h_free junk h) = Some h' ∧ host_typed h' ∧ length (rdev_ports (h_dev h')) = length (rdev_ports (h_dev h))).
  { eexists. split; [done|]. split; [by destruct Hh; split|done]. }
  destruct rxe, lin; cbn [negb orb andb]; try exact Hfree.
  destruct sh; [destruct cl; [done|by exists h]|].
  set (p := junk <| pkt_port_num := pn |> <| pkt_hdr := bytes |> <| pkt_mask := RXE_GRH_MASK |>).
  destruct (follows_stale st (Z.of_nat (length bytes))) eqn:Hst.
  { pose proof Hst as [-> _]%andb_true_iff. by apply rxe_rcv_stale. }
  destruct (rcv_typed st (Z.of_nat (length bytes)) p h) as (h1 & E & Hty & Hn); [done|done|exact Hpn|cbn; lia|by apply not_stale|].
  by exists h1.
Qed.


(** A packet for a multicast group is given to every member of the group
    that is in a state to receive it and has its keys, once each, and to no
    other queue pair, as long as the allocator provides the copies. *)
Theorem rcv_multicast stale len pkt h port g :
  let p := parsed pkt in
  pkt_mask pkt = RXE_GRH_MASK → whole len pkt → len ≤ Z.of_nat (length (pkt_hdr pkt)) →
  host_typed h → port_of h pkt = Some port → h_alloc h = [] →
  bth_qpn p = IB_MULTICAST_QPN → bth_tver p = BTH_TVER → grh_ok p = true → load_u8 (pkt_hdr p) (grh_dgid p) = 0xff →
  h_mcgs h !! (gid_prefix p (grh_dgid p), gid_guid p (grh_dgid p)) = Some g → NoDup (mcg_qp_list g) →
  ∃ h', rxe_rcv stale len pkt h = Some h' ∧ shared (mcg_qp_list g) port p h h'.
Proof.
  intros p Hm Hw Hlen Hh Hp Hal Hq Hv Hgo Hff Hg Hnd. rewrite rxe_rcv_parsed by done. fold p.
  unfold hdr_check. rewrite Hq, Hv, Hgo, (parsed_grh pkt : flag_set (pkt_mask p) RXE_GRH_MASK = true), Hff, !Z.eqb_refl.
  cbn [negb mbind option_bind]. unfold rxe_rcv_mcast_pkt. rewrite Hg.
  destruct (mcast_members_spec (mcg_qp_list g) p h port) as (h' & rest & -> & _ & _ & Hs);
    [done|exact (ht_groups _ Hh _ _ Hg)|done|intros E; pose proof (parsed_grh pkt) as Hf; fold p in Hf; by rewrite E in Hf
    |intros k; by eapply parsed_typed|].
  cbn [mbind option_bind]. eexists. split; [done|]. specialize (Hs Hnd Hal). by destruct rest.
Qed.

(** ** Examples *)

(** A packet with the headers of [op] and a route from 0x33 to [guid]. *)
Definition example_frame (op psn qpn prefix guid qkey : Z) (payload : list Z) : list Z :=
  let len := Z.of_nat (length payload) in
  let paylen := opcode_length op + len + pad_bytes len + RXE_ICRC_SIZE in
  let pkt := PktInfo (replicate (Z.to_nat (RXE_GRH_BYTES + paylen)) 0) 0 psn 0 paylen 1 op RXE_GRH_BYTES in
  let pkt := grh_set_dgid (grh_set_sgid (grh_init pkt 0 0 paylen 0) 0x11 0x33) prefix guid in
  let pkt := bth_init pkt op 0 0 (pad_bytes len) 0xffff qpn 1 psn in
  pkt_hdr (if flag_set (opcode_mask op) RXE_DETH_MASK then deth_set_qkey pkt qkey else pkt).

Definition example_peer_av : rxe_av := Av (AhAttr 0x11 0x33 0 0 0 0 0 0 0 0 1 1) [].

Definition example_peer_qp (type qkey : Z) : rxe_qp :=
  example_qp (example_sq 0 0 []) [] 0 0 <| qp_qp_type := type |> <| qp_pri_av := example_peer_av |>
    <| qp_attr ::= λ a, a <| qa_qkey := qkey |> |>.

(** The host of the other side, with a connected queue pair and two for
    datagrams that are members of a group. *)
Definition example_host : host :=
  Host (example_rdev <| rdev_ports := [Port 0 3 [0xffff] [0x22] 0x11 4096 0 1 0 0] |>)
    (<[16 := example_peer_qp IB_QPT_RC 0]> (<[17 := example_peer_qp IB_QPT_UD 5]> {[18 := example_peer_qp IB_QPT_UD 6]}))
    {[(0xff11000000000000, 0x44) := McGrp 2 0 2 [17; 18]]} [] [] 1000 [].

Definition example_junk : rxe_pkt_info := PktInfo [] 0 7 7 7 1 7 7.

Definition example_in (bytes : list Z) : rxe_pkt_info := example_junk <| pkt_hdr := bytes |> <| pkt_mask := RXE_GRH_MASK |>.

Lemma example_host_tables port : tables_ok example_host (Port 0 3 [0xffff] [0x22] 0x11 4096 0 1 0 port).
Proof.
  intros i qp Hi. cbn in Hi. apply lookup_insert_Some in Hi as [[_ <-]|[_ Hi]]; [split; by eexists|].
  apply lookup_insert_Some in Hi as [[_ <-]|[_ Hi]]; [split; by eexists|].
  apply lookup_singleton_Some in Hi as [_ <-]. split; by eexists.
Qed.

Lemma example_host_typed : host_typed example_host.
Proof.
  split.
  - intros i qp Hi. cbn in Hi. apply lookup_insert_Some in Hi as [[_ <-]|[_ Hi]]; [split; constructor|].
    apply lookup_insert_Some in Hi as [[_ <-]|[_ Hi]]; [split; constructor|].
    apply lookup_singleton_Some in Hi as [_ <-]. split; constructor.
  - constructor; [apply example_host_tables|constructor].
  - intros m g Hg. cbn in Hg. apply lookup_singleton_Some in Hg as [_ <-]. repeat constructor; by eexists.
Qed.

Lemma rcv_dispatch_witness :
  ∃ h' q, rxe_rcv true 72 (example_in (example_frame IB_OPCODE_RC_SEND_ONLY 5 16 0x11 0x22 0 [1; 2; 3])) example_host
    = Some h' ∧ h_qps h' !! 16 = Some q ∧ (∃ p, qp_req_pkts q = [p] ∧ pkt_psn p = 5 ∧ payload_size p = 3).
Proof.
  set (pkt := example_in _).
  destruct (rcv_dispatch true 72 pkt example_host (Port 0 3 [0xffff] [0x22] 0x11 4096 0 1 0 0))
    as (h' & E & [(qp & k & _ & (_ & Hq & _) & Eh)|[Hn _]]).
  - reflexivity.
  - reflexivity.
  - apply example_host_tables.
  - vm_compute. discriminate.
  - exists h'. change (dest_index _ _) with 16 in Hq, Eh. injection Hq as <-. eexists. split; [exact E|].
    split; [rewrite Eh, queued_on_qps; apply lookup_insert_eq|].
    eexists. split; [vm_compute; reflexivity|]. split; vm_compute; reflexivity.
  - exfalso. apply (Hn (example_peer_qp IB_QPT_RC 0) 0). split; [split; vm_compute; discriminate|].
    split; [vm_compute; reflexivity|]. split; [vm_compute; reflexivity|].
    split; try (vm_compute; reflexivity); [split; vm_compute; reflexivity| |split; [vm_compute; reflexivity|vm_compute; discriminate]].
    intros _. split; try (vm_compute; reflexivity). repeat split; vm_compute; (reflexivity || discriminate).
Defined.


Lemma rcv_multicast_witness :
  let bytes := example_frame IB_OPCODE_UD_SEND_ONLY 5 IB_MULTICAST_QPN 0xff11000000000000 0x44 6 [1; 2; 3] in
  ∃ h' q17 q18, rxe_rcv true (Z.of_nat (length bytes)) (example_in bytes) example_host = Some h' ∧
    h_qps h' !! 17 = Some q17 ∧ qp_req_pkts q17 = [] ∧ h_qps h' !! 18 = Some q18 ∧ length (qp_req_pkts q18) = 1%nat.
Proof.
  intros bytes.
  destruct (rcv_multicast true (Z.of_nat (length bytes)) (example_in bytes) example_host
    (Port 0 3 [0xffff] [0x22] 0x11 4096 0 1 0 0) (McGrp 2 0 2 [17; 18])) as (h' & E & Hs).
  - reflexivity.
  - split; vm_compute; discriminate.
  - reflexivity.
  - apply example_host_typed.
  - reflexivity.
  - reflexivity.
  - vm_compute. reflexivity.
  - vm_compute. reflexivity.
  - vm_compute. reflexivity.
  - vm_compute. reflexivity.
  - vm_compute. reflexivity.
  - repeat constructor; set_solver.
  - destruct (Hs 17 (example_peer_qp IB_QPT_UD 5)) as [(_ & (_ & k & _ & Hk) & _)|(_ & H17)]; [reflexivity| |].
    { exfalso. specialize (Hk eq_refl). vm_compute in Hk. discriminate (Hk ltac:(discriminate)). }
    destruct (Hs 18 (example_peer_qp IB_QPT_UD 6)) as [(_ & _ & k & H18)|(Hn & _)]; [reflexivity| |].
    + exists h'. eexists _, _. split; [exact E|]. split; [exact H17|]. split; [reflexivity|]. split; [exact H18|].
      vm_compute. reflexivity.
    + exfalso. apply Hn. split; [by right; left|]. unfold takes, keys_match. split; [vm_compute; reflexivity|]. exists 0.
      split; [vm_compute; reflexivity|]. intros _ _. vm_compute. reflexivity.
Defined.

(** A write of four bytes whose buffer ends behind its headers. *)
Definition example_truncated : list Z :=
  let pkt := PktInfo (example_frame IB_OPCODE_RC_RDMA_WRITE_ONLY 0 16 0x11 0x22 0 [1; 2; 3; 4]) 0 0 0 0 1
               IB_OPCODE_RC_RDMA_WRITE_ONLY RXE_GRH_BYTES in
  take 68 (pkt_hdr (reth_set_len (reth_set_rkey (reth_set_va pkt 1000) 0x102) 4)).

(** The length field of the global route header is not compared with the
    length of the buffer: a write whose buffer ends behind its headers is
    queued, with a payload size larger than what is left of the buffer, and the
    responder, whatever its fuel, goes on to read behind the end of the
    buffer. *)
Theorem rcv_trusts_length :
  ∃ h' q p, rxe_rcv false (Z.of_nat (length example_truncated)) (example_in example_truncated) example_host = Some h' ∧
    h_qps h' !! 16 = Some q ∧ qp_req_pkts q = [p] ∧ payload_size p = 4 ∧
    payload_addr p = Z.of_nat (length (pkt_hdr p)) ∧
    (∀ s, pkt_read p (payload_addr p) (payload_size p) s = None) ∧
    ∀ depth cfuel fuel, on_qp 16 (rxe_responder (H := example_params) depth cfuel (8 + fuel)) h' = None.
Proof.
  eexists _, _, _. split; [vm_compute; reflexivity|]. split; [vm_compute; reflexivity|].
  split; [vm_compute; reflexivity|]. split; [vm_compute; reflexivity|]. split; [vm_compute; reflexivity|].
  split; [intros s; reflexivity|]. intros depth cfuel fuel. vm_compute. reflexivity.
Qed.
