(* ===== verification/Mcast.v ===== *)
(** * Multicast groups (rxe_mcast.c, and the attach and detach verbs)

    The groups of a host are found by their GID in the search tree of their
    pool, and each queue pair lists the groups it is a member of. The interface
    has a filter of the Ethernet addresses it listens to, which counts how many
    times each was added. The theorem of the file is a refinement: whatever is
    attached, detached and destroyed, the two lists, the counts and the filter
    implement one set of memberships. *)

From stdpp Require Import gmap.
From S2P Require Import Prelude Bits Opcode Hdr Verbs Mr Cq State Av QpState Host Recv.

(** ** The state

    [mc_filter] has an address once for every time it was added;
    [mc_add_err] are the answers of the interface that are still to come, an
    error or success, which is the answer when the list is empty. *)
Record mc_state := Mc {
  mc_host : host;
  mc_filter : list (list Z);
  mc_add_err : list (option errno)
}.

#[export] Instance eta_mc_state : Eta mc_state := fun r => Mc (mc_host r) (mc_filter r) (mc_add_err r).

(** The first occurrence is taken out, as [list_del] takes out one element. *)
Fixpoint unlink {A} `{EqDecision A} (x : A) (l : list A) : list A :=
  match l with
  | [] => []
  | y :: l => if decide (x = y) then l else y :: unlink x l
  end.

Definition ipv6_eth_mc_map (mgid : Z * Z) : list Z :=
  [0x33; 0x33] ++ (s6_addr mgid.1 mgid.2 <$> [12; 13; 14; 15]).

(** ** The interface *)

Definition dev_mc_add (addr : list Z) (m : mc_state) : result unit * mc_state :=
  match mc_add_err m with
  | [] => (Ok tt, m <| mc_filter ::= cons addr |>)
  | None :: l => (Ok tt, m <| mc_filter ::= cons addr |> <| mc_add_err := l |>)
  | Some err :: l => (Err err, m <| mc_add_err := l |>)
  end.

Definition dev_mc_del (addr : list Z) (m : mc_state) : mc_state := m <| mc_filter ::= unlink addr |>.

Definition mcast_add (mgid : Z * Z) : mc_state → result unit * mc_state := dev_mc_add (ipv6_eth_mc_map mgid).

Definition mcast_delete (mgid : Z * Z) : mc_state → mc_state := dev_mc_del (ipv6_eth_mc_map mgid).

(** ** References to a group *)

Definition upd_host (f : host → host) (m : mc_state) : mc_state := m <| mc_host ::= f |>.

Definition upd_grp (mgid : Z * Z) (f : rxe_mc_grp → rxe_mc_grp) : mc_state → mc_state :=
  upd_host (λ h, h <| h_mcgs ::= alter f mgid |>).

Definition rxe_mc_cleanup (mgid : Z * Z) (m : mc_state) : mc_state :=
  mcast_delete mgid (upd_host (λ h, h <| h_mcgs ::= delete mgid |>) m).

Definition grp_add_ref (mgid : Z * Z) : mc_state → mc_state := upd_grp mgid (λ g, g <| mcg_ref ::= (λ n, n + 1) |>).

(** A group that is not there cannot be dropped. *)
Definition grp_drop_ref (mgid : Z * Z) (m : mc_state) : option mc_state :=
  g ← h_mcgs (mc_host m) !! mgid;
  if mcg_ref g =? 1 then Some (rxe_mc_cleanup mgid m)
  else Some (upd_grp mgid (λ g, g <| mcg_ref ::= (λ n, n - 1) |>) m).

(** The last reference to a group that was never put into the tree is dropped:
    the clean up runs all the same. The node is all zero, it has no parent and
    no children, so that [rb_erase] takes it for the root and sets the root to
    its child, which is null; and the address that is deleted is that of the
    GID zero, since the key was never stored. *)
Definition drop_unlinked (m : mc_state) : mc_state :=
  mcast_delete (0, 0) (upd_host (λ h, h <| h_mcgs := ∅ |>) m).

(** ** The operations *)

Definition mc_next_alloc (m : mc_state) : bool * mc_state :=
  let '(ok, h) := h_next_alloc (mc_host m) in (ok, m <| mc_host := h |>).

Definition max_mcast_qp_attach (m : mc_state) : Z := da_max_mcast_qp_attach (rdev_attr (h_dev (mc_host m))).

(** The group is named by its GID; the caller has a reference to it. *)
Definition rxe_mcast_get_grp (mgid : Z * Z) (mlid : Z) (m : mc_state) : result unit * mc_state :=
  if max_mcast_qp_attach m =? 0 then (Err EINVAL, m)
  else match h_mcgs (mc_host m) !! mgid with
       | Some _ => (Ok tt, grp_add_ref mgid m)
       | None =>
           let '(ok, m) := mc_next_alloc m in
           if negb ok then (Err ENOMEM, m)
           else match mcast_add mgid m with
                | (Err err, m) => (Err err, drop_unlinked m)
                | (Ok _, m) =>
                    (Ok tt, upd_host (λ h, h <| h_mcgs ::= <[mgid := McGrp 1 mlid 0 []]> |>) m)
                end
       end.

Definition rxe_mcast_add_grp_elem (i : Z) (mgid : Z * Z) (m : mc_state) : option (result unit * mc_state) :=
  grp ← h_mcgs (mc_host m) !! mgid;
  if bool_decide (i ∈ mcg_qp_list grp) then Some (Ok tt, m)
  else if max_mcast_qp_attach m <=? mcg_num_qp grp then Some (Err ENOMEM, m)
  else
    let '(ok, m) := mc_next_alloc m in
    if negb ok then Some (Err ENOMEM, m)
    else
      let m := grp_add_ref mgid m in
      let m := upd_grp mgid (λ g, g <| mcg_num_qp ::= (λ n, n + 1) |> <| mcg_qp_list ::= cons i |>) m in
      Some (Ok tt, upd_host (h_upd_qp i (λ q, q <| qp_grp_list ::= cons mgid |>)) m).

(** The element is taken out of both of its lists. *)
Definition unlink_elem (i : Z) (mgid : Z * Z) (m : mc_state) : mc_state :=
  upd_host (h_upd_qp i (λ q, q <| qp_grp_list ::= unlink mgid |>))
    (upd_grp mgid (λ g, g <| mcg_num_qp ::= (λ n, n - 1) |> <| mcg_qp_list ::= unlink i |>) m).

Definition rxe_mcast_drop_grp_elem (i : Z) (mgid : Z * Z) (mlid : Z) (m : mc_state) : option (result unit * mc_state) :=
  match h_mcgs (mc_host m) !! mgid with
  | None => Some (Err EINVAL, m)
  | Some grp =>
      let m := grp_add_ref mgid m in
      if bool_decide (i ∈ mcg_qp_list grp) then
        m ← grp_drop_ref mgid (unlink_elem i mgid m);
        m ← grp_drop_ref mgid m;
        Some (Ok tt, m)
      else
        m ← grp_drop_ref mgid m;
        Some (Err EINVAL, m)
  end.

(** The loop takes the first group off the list of the queue pair until the
    list is empty. *)
Fixpoint drop_groups (fuel : nat) (i : Z) (m : mc_state) : option mc_state :=
  match fuel with
  | O => None
  | S fuel =>
      qp ← h_qps (mc_host m) !! i;
      match qp_grp_list qp with
      | [] => Some m
      | mgid :: _ =>
          _ ← h_mcgs (mc_host m) !! mgid;
          m ← grp_drop_ref mgid (unlink_elem i mgid m);
          drop_groups fuel i m
      end
  end.

Definition rxe_drop_all_mcast_groups (i : Z) (m : mc_state) : option mc_state :=
  qp ← h_qps (mc_host m) !! i;
  drop_groups (S (length (qp_grp_list qp))) i m.

Definition rxe_attach_mcast (i : Z) (mgid : Z * Z) (mlid : Z) (m : mc_state) : option (result unit * mc_state) :=
  match rxe_mcast_get_grp mgid mlid m with
  | (Err err, m) => Some (Err err, m)
  | (Ok _, m) =>
      '(err, m) ← rxe_mcast_add_grp_elem i mgid m;
      m ← grp_drop_ref mgid m;
      Some (err, m)
  end.

Definition rxe_detach_mcast (i : Z) (mgid : Z * Z) (mlid : Z) (m : mc_state) : option (result unit * mc_state) :=
  rxe_mcast_drop_grp_elem i mgid mlid m.

(** ** Sequences of them *)

Inductive mc_op : Type :=
  | Attach (i : Z) (mgid : Z * Z) (mlid : Z)
  | Detach (i : Z) (mgid : Z * Z) (mlid : Z)
  | DropAll (i : Z).

Definition mc_exec (op : mc_op) (m : mc_state) : option (result unit * mc_state) :=
  match op with
  | Attach i mgid mlid => rxe_attach_mcast i mgid mlid m
  | Detach i mgid mlid => rxe_detach_mcast i mgid mlid m
  | DropAll i => m ← rxe_drop_all_mcast_groups i m; Some (Ok tt, m)
  end.

Fixpoint mc_run (ops : list mc_op) (m : mc_state) : option (list (result unit) * mc_state) :=
  match ops with
  | [] => Some ([], m)
  | op :: ops =>
      '(r, m) ← mc_exec op m;
      '(rs, m) ← mc_run ops m;
      Some (r :: rs, m)
  end.

(** ** What they implement: a set of memberships *)

Notation membership := (gset (Z * (Z * Z))).

Definition group_of (mgid : Z * Z) (M : membership) : membership := filter (λ e, e.2 = mgid) M.

Definition spec_step (max : Z) (op : mc_op) (M : membership) : result unit * membership :=
  match op with
  | Attach i mgid _ =>
      if max =? 0 then (Err EINVAL, M)
      else if bool_decide ((i, mgid) ∈ M) then (Ok tt, M)
      else if max <=? Z.of_nat (size (group_of mgid M)) then (Err ENOMEM, M)
      else (Ok tt, {[(i, mgid)]} ∪ M)
  | Detach i mgid _ =>
      if bool_decide ((i, mgid) ∈ M) then (Ok tt, M ∖ {[(i, mgid)]}) else (Err EINVAL, M)
  | DropAll i => (Ok tt, filter (λ e, e.1 ≠ i) M)
  end.

Definition attaches (op : mc_op) : bool := match op with Attach _ _ _ => true | _ => false end.

Fixpoint spec_run (max : Z) (ops : list mc_op) (M : membership) : list (result unit) * membership :=
  match ops with
  | [] => ([], M)
  | op :: ops => let '(r, M) := spec_step max op M in
                 let '(rs, M) := spec_run max ops M in (r :: rs, M)
  end.

(** ** The relation between the two

    [x] counts the references to each group that no member holds. *)
Record mc_rel (x : Z * Z → Z) (M : membership) (m : mc_state) : Prop := {
  rel_qp : ∀ i q, h_qps (mc_host m) !! i = Some q →
    NoDup (qp_grp_list q) ∧ ∀ g, g ∈ qp_grp_list q ↔ (i, g) ∈ M;
  rel_exists : ∀ i g, (i, g) ∈ M → is_Some (h_qps (mc_host m) !! i);
  rel_grp : ∀ g c, h_mcgs (mc_host m) !! g = Some c →
    NoDup (mcg_qp_list c) ∧ (∀ i, i ∈ mcg_qp_list c ↔ (i, g) ∈ M) ∧
    mcg_num_qp c = Z.of_nat (length (mcg_qp_list c)) ∧ mcg_ref c = mcg_num_qp c + x g ∧ 0 < mcg_ref c ∧ 0 ≤ x g;
  rel_none : ∀ g, h_mcgs (mc_host m) !! g = None → x g = 0 ∧ ∀ i, (i, g) ∉ M;
  rel_filter : mc_filter m ≡ₚ ipv6_eth_mc_map <$> (map_to_list (h_mcgs (mc_host m))).*1
}.

Definition bump (g : Z * Z) (k : Z) (x : Z * Z → Z) : Z * Z → Z := λ g', if decide (g' = g) then x g' + k else x g'.

(** At rest only the members hold references. *)
Notation at_rest := (λ _ : Z * Z, 0).

(** A queue pair without its groups. *)
Definition bare (q : rxe_qp) : rxe_qp := q <| qp_grp_list := [] |>.

(** What no operation changes. *)
Record mc_same (m m' : mc_state) : Prop := {
  same_dev : h_dev (mc_host m') = h_dev (mc_host m);
  same_bare : bare <$> h_qps (mc_host m') = bare <$> h_qps (mc_host m);
  same_alloc : h_alloc (mc_host m) = [] → h_alloc (mc_host m') = [];
  same_err : mc_add_err m = [] → mc_add_err m' = []
}.

#[local] Instance mc_same_refl : Reflexive mc_same.
Proof. by split. Qed.

#[local] Instance mc_same_trans : Transitive mc_same.
Proof. intros m1 m2 m3 [] []. split; auto; congruence. Qed.

Lemma bump_eq g k x : bump g k x g = x g + k.
Proof. unfold bump. by rewrite decide_True. Qed.

Lemma bump_ne g g' k x : g' ≠ g → bump g k x g' = x g'.
Proof. intros. unfold bump. by rewrite decide_False. Qed.

Lemma rel_ext x y M m : (∀ g, x g = y g) → mc_rel x M m → mc_rel y M m.
Proof.
  intros E [H1 H2 H3 H4 H5]. split; try done.
  - intros g c Hc. rewrite <- E. by apply H3.
  - intros g Hg. rewrite <- E. by apply H4.
Qed.

Lemma rel_bump0 g k x M m : mc_rel (bump g (- k) (bump g k x)) M m → mc_rel x M m.
Proof. apply rel_ext. intros g'. unfold bump. repeat case_decide; subst; try done; lia. Qed.

Lemma unlink_head {A} `{EqDecision A} (x : A) l : unlink x (x :: l) = l.
Proof. cbn. by rewrite decide_True. Qed.

Lemma elem_of_unlink {A} `{EqDecision A} (x y : A) l : NoDup l → y ∈ unlink x l ↔ y ∈ l ∧ y ≠ x.
Proof.
  induction 1 as [|z l Hz Hl IH]; cbn; [set_solver|]. case_decide; subst; set_solver.
Qed.

Lemma nodup_unlink {A} `{EqDecision A} (x : A) l : NoDup l → NoDup (unlink x l).
Proof.
  induction 1 as [|z l Hz Hl IH]; cbn; [constructor|]. case_decide; [done|]. constructor; [|done].
  rewrite elem_of_unlink by done. by intros [? _].
Qed.

Lemma length_unlink {A} `{EqDecision A} (x : A) l : x ∈ l → S (length (unlink x l)) = length l.
Proof.
  induction l as [|y l IH]; intros Hx; [by apply not_elem_of_nil in Hx|]. cbn. case_decide; [done|]. cbn. rewrite IH; set_solver.
Qed.

Lemma unlink_permutation {A} `{EqDecision A} (x : A) l k : l ≡ₚ x :: k → unlink x l ≡ₚ k.
Proof.
  intros E. enough (H : x :: unlink x l ≡ₚ l) by (apply (Permutation_cons_inv (a := x)); by rewrite H).
  assert (Hx : x ∈ l) by (rewrite E; set_solver). clear E. induction l as [|y l IH]; [by apply not_elem_of_nil in Hx|].
  cbn. case_decide; [by subst|]. rewrite Permutation_swap, IH; [done|set_solver].
Qed.

(** ** References *)

Lemma grp_alter_filter (f : rxe_mc_grp → rxe_mc_grp) (g : Z * Z) (G : gmap (Z * Z) rxe_mc_grp) :
  (map_to_list (alter f g G)).*1 ≡ₚ (map_to_list G).*1.
Proof.
  destruct (G !! g) as [c|] eqn:E; [|by rewrite (alter_id f) by (intros ?; congruence)].
  rewrite <- (insert_delete_id (alter f g G) g (f c)) by (by rewrite lookup_alter_eq, E).
  rewrite <- (insert_delete_id G g c E) at 2.
  rewrite !map_to_list_insert by apply lookup_delete_eq. by rewrite delete_alter_eq.
Qed.

(** A change to a group that keeps the relation for it keeps it for all. *)
Lemma rel_upd_grp f g c x y M m :
  mc_rel x M m → h_mcgs (mc_host m) !! g = Some c → (∀ g', g' ≠ g → y g' = x g') →
  mcg_qp_list (f c) = mcg_qp_list c → mcg_num_qp (f c) = mcg_num_qp c →
  mcg_ref (f c) = mcg_num_qp c + y g → 0 < mcg_ref (f c) → 0 ≤ y g → mc_rel y M (upd_grp g f m).
Proof.
  intros [H1 H2 H3 H4 H5] Hc Hy El En Er Hr Hy0. split; cbn; try done.
  - intros g' c'. rewrite lookup_alter_Some. intros [(-> & c0 & Hc0 & ->)|[Hne Hc']].
    + assert (c0 = c) as -> by congruence. destruct (H3 _ _ Hc) as (K1 & K2 & K3 & _). by rewrite El, En.
    + rewrite Hy by done. by apply H3.
  - intros g'. rewrite lookup_alter_None. intros Hg'. rewrite Hy by congruence. by apply H4.
  - rewrite grp_alter_filter. exact H5.
Qed.

Lemma add_ref_rel g x M m :
  mc_rel x M m → is_Some (h_mcgs (mc_host m) !! g) → mc_rel (bump g 1 x) M (grp_add_ref g m).
Proof.
  intros Hr [c Hc]. destruct (rel_grp _ _ _ Hr _ _ Hc) as (_ & _ & _ & K4 & K5 & K6).
  eapply rel_upd_grp; try done; [intros; by apply bump_ne|rewrite ?bump_eq; cbn; lia..].
Qed.

Lemma drop_ref_rel g x M m :
  mc_rel x M m → is_Some (h_mcgs (mc_host m) !! g) → 1 ≤ x g →
  ∃ m', grp_drop_ref g m = Some m' ∧ mc_rel (bump g (-1) x) M m' ∧ mc_same m m' ∧
    h_qps (mc_host m') = h_qps (mc_host m).
Proof.
  intros Hr [c Hc] Hx. destruct (rel_grp _ _ _ Hr _ _ Hc) as (K1 & K2 & K3 & K4 & K5 & K6).
  unfold grp_drop_ref. rewrite Hc. cbn [mbind option_bind]. destruct (Z.eqb_spec (mcg_ref c) 1) as [E|E].
  - eexists. split; [done|]. split; [|done]. destruct Hr as [H1 H2 H3 H4 H5]. split; cbn; try done.
    + intros g' c'. rewrite lookup_delete_Some. intros [Hne Hc']. rewrite bump_ne by done. by apply H3.
    + intros g'. rewrite lookup_delete_None. intros [<-|Hg'].
      * rewrite bump_eq. assert (length (mcg_qp_list c) = 0)%nat as E0%nil_length_inv by lia. split; [lia|].
        intros i. rewrite <- K2, E0. apply not_elem_of_nil.
      * rewrite bump_ne by congruence. by apply H4.
    + apply unlink_permutation. rewrite H5. rewrite <- (insert_delete_id _ _ _ Hc) at 1.
      by rewrite map_to_list_insert by apply lookup_delete_eq.
  - eexists. split; [done|]. split; [|done].
    eapply rel_upd_grp; try done; [intros; by apply bump_ne|rewrite ?bump_eq; cbn; lia..].
Qed.

(** ** Members *)

(** The member [i] of [g] comes or goes: its list and that of the group
    change, and the reference is accounted for by [y]. *)
Lemma rel_member f1 f2 i q g c x y M M' m :
  mc_rel x M m → h_qps (mc_host m) !! i = Some q → h_mcgs (mc_host m) !! g = Some c →
  (∀ i' g', (i', g') ≠ (i, g) → (i', g') ∈ M' ↔ (i', g') ∈ M) →
  NoDup (qp_grp_list (f1 q)) → (∀ g', g' ∈ qp_grp_list (f1 q) ↔ (i, g') ∈ M') →
  NoDup (mcg_qp_list (f2 c)) → (∀ i', i' ∈ mcg_qp_list (f2 c) ↔ (i', g) ∈ M') →
  mcg_num_qp (f2 c) = Z.of_nat (length (mcg_qp_list (f2 c))) → (∀ g', g' ≠ g → y g' = x g') →
  mcg_ref (f2 c) = mcg_num_qp (f2 c) + y g → 0 < mcg_ref (f2 c) → 0 ≤ y g →
  mc_rel y M' (upd_host (h_upd_qp i f1) (upd_grp g f2 m)).
Proof.
  intros [H1 H2 H3 H4 H5] Hq Hc HM D1 E1 D2 E2 En Hy Er Hr Hy0. split; cbn; try done.
  - intros i' q'. rewrite lookup_alter_Some. intros [(-> & q0 & Hq0 & ->)|[Hne Hq']].
    + assert (q0 = q) as -> by congruence. done.
    + destruct (H1 _ _ Hq') as [D E]. split; [done|]. intros g'. rewrite E, HM; [done|congruence].
  - intros i' g' Hin. apply lookup_alter_is_Some. destruct (decide ((i', g') = (i, g))) as [[= -> ->]|Hne].
    + by eexists. + by eapply H2, HM.
  - intros g' c'. rewrite lookup_alter_Some. intros [(-> & c0 & Hc0 & ->)|[Hne Hc']].
    + assert (c0 = c) as -> by congruence. done.
    + rewrite Hy by done. destruct (H3 _ _ Hc') as (K1 & K2 & K). split; [done|]. split; [|done].
      intros i'. rewrite K2, HM; [done|congruence].
  - intros g'. rewrite lookup_alter_None. intros Hg'. assert (g' ≠ g) by congruence. rewrite Hy by done.
    destruct (H4 _ Hg') as [K1 K2]. split; [done|]. intros i'. rewrite HM by congruence. apply K2.
  - rewrite grp_alter_filter. exact H5.
Qed.

Lemma bare_alter f i (Q : gmap Z rxe_qp) : (∀ q, bare (f q) = bare q) → bare <$> alter f i Q = bare <$> Q.
Proof.
  intros Hf. apply map_eq. intros j. rewrite !lookup_fmap, lookup_alter. case_decide; [|done]. subst.
  destruct (Q !! j); cbn; [by rewrite Hf|done].
Qed.

Lemma same_member f1 f2 i g m :
  (∀ q, bare (f1 q) = bare q) → mc_same m (upd_host (h_upd_qp i f1) (upd_grp g f2 m)).
Proof. intros Hf. split; cbn; try done. by apply bare_alter. Qed.

Lemma same_exists m m' i : mc_same m m' → is_Some (h_qps (mc_host m) !! i) → is_Some (h_qps (mc_host m') !! i).
Proof.
  intros Hs. rewrite <- !elem_of_dom, <- (dom_fmap_L bare (h_qps (mc_host m))), <- (same_bare _ _ Hs), dom_fmap_L. done.
Qed.

Lemma unlink_rel i g x M m :
  mc_rel x M m → (i, g) ∈ M →
  mc_rel (bump g 1 x) (M ∖ {[(i, g)]}) (unlink_elem i g m) ∧ mc_same m (unlink_elem i g m) ∧
    is_Some (h_mcgs (mc_host (unlink_elem i g m)) !! g).
Proof.
  intros Hr Hin. destruct (rel_exists _ _ _ Hr _ _ Hin) as [q Hq]. destruct (rel_qp _ _ _ Hr _ _ Hq) as [D E].
  destruct (h_mcgs (mc_host m) !! g) as [c|] eqn:Hc; [|by destruct (proj2 (rel_none _ _ _ Hr _ Hc) i)].
  destruct (rel_grp _ _ _ Hr _ _ Hc) as (K1 & K2 & K3 & K4 & K5 & K6).
  assert (Hl : S (length (unlink i (mcg_qp_list c))) = length (mcg_qp_list c)) by (apply length_unlink; by apply K2).
  split; [|split; [by apply same_member|cbn; rewrite lookup_alter_eq, Hc; by eexists]].
  eapply rel_member; try done; cbn; rewrite ?bump_eq; try lia.
  - intros i' g' Hne. set_solver.
  - by apply nodup_unlink.
  - intros g'. rewrite elem_of_unlink, E by done. set_solver.
  - by apply nodup_unlink.
  - intros i'. rewrite elem_of_unlink, K2 by done. set_solver.
  - intros. by apply bump_ne.
Qed.

(** ** The operations *)

(** Unlinking a member and dropping its reference. *)
Lemma remove_rel i g x M m :
  mc_rel x M m → (∀ g', 0 ≤ x g') → (i, g) ∈ M →
  ∃ m', grp_drop_ref g (unlink_elem i g m) = Some m' ∧ mc_rel x (M ∖ {[(i, g)]}) m' ∧ mc_same m m' ∧
    h_qps (mc_host m') = alter (λ q, q <| qp_grp_list ::= unlink g |>) i (h_qps (mc_host m)).
Proof.
  intros Hr Hx Hin. destruct (unlink_rel i g x M m Hr Hin) as (Hu & Hs & Hg).
  destruct (drop_ref_rel g _ _ _ Hu Hg) as (m' & -> & Hd & Hs' & Hq); [rewrite bump_eq; specialize (Hx g); lia|].
  exists m'. split; [done|]. split; [by apply (rel_bump0 g 1)|]. split; [by etrans|]. by rewrite Hq.
Qed.

Lemma group_size x M m g c :
  mc_rel x M m → h_mcgs (mc_host m) !! g = Some c → Z.of_nat (size (group_of g M)) = mcg_num_qp c.
Proof.
  intros Hr Hc. destruct (rel_grp _ _ _ Hr _ _ Hc) as (K1 & K2 & -> & _). f_equal.
  assert (E : group_of g M = list_to_set ((λ i, (i, g)) <$> mcg_qp_list c)).
  { apply set_eq. intros [i g']. unfold group_of. rewrite elem_of_filter, elem_of_list_to_set, list_elem_of_fmap. cbn.
    setoid_rewrite K2. naive_solver. }
  rewrite E, size_list_to_set, length_fmap; [done|]. apply NoDup_fmap; [by intros ?? [=]|done].
Qed.

Lemma next_alloc_rel x M m :
  mc_rel x M m → ∃ ok m', mc_next_alloc m = (ok, m') ∧ mc_rel x M m' ∧ mc_same m m' ∧
    (h_alloc (mc_host m) = [] → ok = true) ∧ h_mcgs (mc_host m') = h_mcgs (mc_host m) ∧
    h_qps (mc_host m') = h_qps (mc_host m) ∧ mc_add_err m' = mc_add_err m.
Proof.
  intros Hr. unfold mc_next_alloc, h_next_alloc. destruct m as [h f e]; cbn in *.
  destruct (h_alloc h) as [|b l] eqn:Ha; (eexists _, _; split; [done|]); cbn; (split; [by destruct Hr|]); split_and!; try done.
  all: split; cbn; try done. all: by rewrite Ha.
Qed.

(** What is specified, or a refusal of the allocator. *)
Definition outcome (op : mc_op) (M : membership) (m : mc_state) (r : result unit) (M' : membership) : Prop :=
  (r, M') = spec_step (max_mcast_qp_attach m) op M ∨
  (h_alloc (mc_host m) ≠ [] ∧ attaches op = true ∧ r = Err ENOMEM ∧ M' = M).

Lemma add_elem_rel i g x M m :
  mc_rel x M m → is_Some (h_qps (mc_host m) !! i) → is_Some (h_mcgs (mc_host m) !! g) → max_mcast_qp_attach m ≠ 0 →
  ∃ r M' m', rxe_mcast_add_grp_elem i g m = Some (r, m') ∧ mc_rel x M' m' ∧ mc_same m m' ∧
    is_Some (h_mcgs (mc_host m') !! g) ∧
    outcome (Attach i g 0) M m r M'.
Proof.
  intros Hr [q Hq] [c Hc] Hmax. destruct (rel_grp _ _ _ Hr _ _ Hc) as (K1 & K2 & K3 & K4 & K5 & K6).
  destruct (rel_qp _ _ _ Hr _ _ Hq) as [D E].
  unfold outcome. cbn. rewrite (group_size _ _ _ _ _ Hr Hc). apply Z.eqb_neq in Hmax. rewrite Hmax.
  unfold rxe_mcast_add_grp_elem. rewrite Hc. cbn [mbind option_bind].
  rewrite (bool_decide_ext _ _ (K2 i)). case_bool_decide as Hin.
  { eexists _, M, m. split; [done|]. split; [done|]. split; [done|]. split; [by eexists|by left]. }
  destruct (max_mcast_qp_attach m <=? mcg_num_qp c).
  { eexists _, M, m. split; [done|]. split; [done|]. split; [done|]. split; [by eexists|by left]. }
  destruct (next_alloc_rel _ _ _ Hr) as (ok & m1 & -> & Hr1 & Hs1 & Hok & E1 & E2 & _).
  rewrite <- E1 in Hc. rewrite <- E2 in Hq. destruct ok; cbn [negb].
  2: { eexists _, M, m1. split; [done|]. split; [done|]. split; [done|]. split; [by eexists|]. right.
       split; [intros Ea; by specialize (Hok Ea)|done]. }
  eexists _, ({[(i, g)]} ∪ M), _. split; [done|]. split; [|split; [|split; [|by left]]].
  - set (f1 := λ q, _). set (f2 := λ g, _).
    apply (rel_member f1 f2 i q g (c <| mcg_ref ::= (λ n, n + 1) |>) (bump g 1 x) x M); try done; [by apply add_ref_rel; [|eexists]|cbn; by rewrite lookup_alter_eq, Hc|..]; cbn; try lia.
    + intros i' g' Hne. set_solver.
    + constructor; [by rewrite E|done].
    + intros g'. rewrite list.elem_of_cons, E. set_solver.
    + constructor; [by rewrite K2|done].
    + intros i'. rewrite list.elem_of_cons, K2. set_solver.
    + intros g' Hg. by rewrite bump_ne.
  - etrans; [exact Hs1|split; cbn; try done; by apply bare_alter].
  - cbn. rewrite !lookup_alter_eq, Hc. by eexists.
Qed.

Lemma rel_new_grp g mlid M m :
  mc_rel at_rest M m → h_mcgs (mc_host m) !! g = None →
  mc_rel (bump g 1 at_rest) M
    (upd_host (λ h, h <| h_mcgs ::= <[g := McGrp 1 mlid 0 []]> |>) (m <| mc_filter ::= cons (ipv6_eth_mc_map g) |>)).
Proof.
  intros [H1 H2 H3 H4 H5] Hn. split; cbn; try done.
  - intros g' c. rewrite lookup_insert_Some. intros [[<- <-]|[Hne Hc]]; cbn.
    + rewrite bump_eq. split; [constructor|]. split; [|lia]. intros i. split; [by intros ?%not_elem_of_nil|].
      intros Hi. by destruct (proj2 (H4 _ Hn) i).
    + rewrite bump_ne by done. by apply H3.
  - intros g'. rewrite lookup_insert_None. intros [Hg' Hne]. rewrite bump_ne by done. by apply H4.
  - rewrite map_to_list_insert by done. cbn. by rewrite H5.
Qed.

Lemma get_grp_rel g mlid M m :
  mc_rel at_rest M m → mc_add_err m = [] → max_mcast_qp_attach m ≠ 0 →
  ∃ r m', rxe_mcast_get_grp g mlid m = (r, m') ∧ mc_same m m' ∧ h_qps (mc_host m') = h_qps (mc_host m) ∧
    match r with
    | Ok _ => mc_rel (bump g 1 at_rest) M m' ∧ is_Some (h_mcgs (mc_host m') !! g)
    | Err e => e = ENOMEM ∧ h_alloc (mc_host m) ≠ [] ∧ mc_rel at_rest M m'
    end.
Proof.
  intros Hr He Hmax. unfold rxe_mcast_get_grp. rewrite (proj2 (Z.eqb_neq _ _) Hmax).
  destruct (h_mcgs (mc_host m) !! g) as [c|] eqn:Hc.
  { eexists _, _. split; [done|]. split; [done|]. split; [done|]. split; [by apply add_ref_rel; [|eexists]|].
    cbn. rewrite lookup_alter_eq, Hc. by eexists. }
  destruct (next_alloc_rel _ _ _ Hr) as (ok & m1 & -> & Hr1 & Hs1 & Hok & E1 & E2 & E3). destruct ok; cbn [negb].
  2: { eexists _, _. split; [done|]. split; [done|]. split; [done|]. split; [done|]. split; [|done]. intros E. by specialize (Hok E). }
  unfold mcast_add, dev_mc_add. rewrite E3, He. eexists _, _. split; [done|]. split; [by destruct Hs1|]. split; [done|].
  split; [apply rel_new_grp; [done|by rewrite E1]|]. cbn. rewrite lookup_insert_eq. by eexists.
Qed.

Lemma attach_rel i g mlid M m :
  mc_rel at_rest M m → mc_add_err m = [] → is_Some (h_qps (mc_host m) !! i) →
  ∃ r M' m', rxe_attach_mcast i g mlid m = Some (r, m') ∧ mc_rel at_rest M' m' ∧ mc_same m m' ∧
    outcome (Attach i g mlid) M m r M'.
Proof.
  intros Hr He Hi. unfold rxe_attach_mcast. destruct (decide (max_mcast_qp_attach m = 0)) as [E0|E0].
  { unfold rxe_mcast_get_grp, outcome, spec_step. rewrite E0. cbn. eexists _, M, _. split; [done|]. split; [done|].
    split; [done|by left]. }
  destruct (get_grp_rel g mlid M m Hr He E0) as (r & m1 & -> & Hs & Hq & Hm). destruct r as [[]|e].
  2: { destruct Hm as (-> & Ha & Hm). eexists _, M, _. split; [done|]. split; [done|]. split; [done|by right]. }
  destruct Hm as [Hm Hg]. assert (Emax : max_mcast_qp_attach m1 = max_mcast_qp_attach m)
    by (unfold max_mcast_qp_attach; by rewrite (same_dev _ _ Hs)).
  destruct (add_elem_rel i g _ M m1 Hm) as (r & M' & m2 & -> & Hr2 & Hs2 & Hg2 & Ho); [by rewrite Hq|done|by rewrite Emax|].
  cbn [mbind option_bind]. destruct (drop_ref_rel g _ _ _ Hr2 Hg2) as (m3 & -> & Hr3 & Hs3 & _); [by rewrite bump_eq|].
  eexists _, M', m3. split; [done|]. split; [by apply (rel_bump0 g 1)|]. split; [by do 2 (etrans; [|done])|].
  unfold outcome in Ho. rewrite Emax in Ho. destruct Ho as [Ho|(Ha & Ho)]; [by left|]. right. split; [|done]. intros E. by apply Ha, (same_alloc _ _ Hs).
Qed.

Lemma detach_rel i g mlid M m :
  mc_rel at_rest M m →
  ∃ m', rxe_detach_mcast i g mlid m = Some ((spec_step 0 (Detach i g mlid) M).1, m') ∧
    mc_rel at_rest (spec_step 0 (Detach i g mlid) M).2 m' ∧ mc_same m m'.
Proof.
  intros Hr. unfold rxe_detach_mcast, rxe_mcast_drop_grp_elem. cbn [spec_step].
  destruct (h_mcgs (mc_host m) !! g) as [c|] eqn:Hc.
  2: { rewrite bool_decide_eq_false_2 by apply (rel_none _ _ _ Hr _ Hc). by exists m. }
  destruct (rel_grp _ _ _ Hr _ _ Hc) as (K1 & K2 & _). rewrite (bool_decide_ext _ _ (K2 i)).
  assert (Ha : mc_rel (bump g 1 at_rest) M (grp_add_ref g m)) by (by apply add_ref_rel; [|eexists]).
  assert (Hs : mc_same m (grp_add_ref g m)) by done.
  assert (Hg : is_Some (h_mcgs (mc_host (grp_add_ref g m)) !! g)) by (cbn; rewrite lookup_alter_eq, Hc; by eexists).
  case_bool_decide as Hin; cbn [fst snd].
  - destruct (remove_rel i g _ _ _ Ha) as (m2 & -> & Hr2 & Hs2 & _); [intros g'; unfold bump; by case_decide|done|].
    cbn [mbind option_bind]. destruct (h_mcgs (mc_host m2) !! g) as [c2|] eqn:Hc2.
    2: { destruct (rel_none _ _ _ Hr2 _ Hc2) as [Hx _]. by rewrite bump_eq in Hx. }
    destruct (drop_ref_rel g _ _ _ Hr2) as (m3 & -> & Hr3 & Hs3 & _); [by eexists|by rewrite bump_eq|].
    exists m3. split; [done|]. split; [by apply (rel_bump0 g 1)|]. by do 2 (etrans; [|done]).
  - destruct (drop_ref_rel g _ _ _ Ha Hg) as (m3 & -> & Hr3 & Hs3 & _); [by rewrite bump_eq|].
    exists m3. split; [done|]. split; [by apply (rel_bump0 g 1)|]. by etrans.
Qed.

Lemma drop_groups_step fuel i m :
  drop_groups (S fuel) i m =
    qp ← h_qps (mc_host m) !! i;
    match qp_grp_list qp with
    | [] => Some m
    | mgid :: _ => _ ← h_mcgs (mc_host m) !! mgid; m ← grp_drop_ref mgid (unlink_elem i mgid m); drop_groups fuel i m
    end.
Proof. done. Qed.

Lemma drop_groups_rel n : ∀ i q M m,
  mc_rel at_rest M m → h_qps (mc_host m) !! i = Some q → length (qp_grp_list q) = n →
  ∃ m', drop_groups (S n) i m = Some m' ∧ mc_rel at_rest (filter (λ e, e.1 ≠ i) M) m' ∧ mc_same m m'.
Proof.
  induction n as [|n IH]; intros i q M m Hr Hq Hn; rewrite drop_groups_step, Hq; cbn [mbind option_bind];
    destruct (rel_qp _ _ _ Hr _ _ Hq) as [D E].
  - apply nil_length_inv in Hn. rewrite Hn in *. exists m. split; [done|]. split; [|done].
    assert (filter (λ e, e.1 ≠ i) M = M) as ->; [|done]. apply set_eq. intros [i' g']. rewrite elem_of_filter. cbn.
    split; [by intros [_ ?]|]. intros Hin. split; [|done]. intros ->. by apply E, not_elem_of_nil in Hin.
  - destruct (qp_grp_list q) as [|g l] eqn:El; [done|]. assert (Hin : (i, g) ∈ M) by (apply E; set_solver).
    destruct (h_mcgs (mc_host m) !! g) as [c|] eqn:Hc; [|by destruct (proj2 (rel_none _ _ _ Hr _ Hc) i)].
    cbn [mbind option_bind]. destruct (remove_rel i g _ M m Hr) as (m1 & -> & Hr1 & Hs1 & Hq1); [done..|]. cbn [mbind option_bind].
    destruct (IH i (q <| qp_grp_list := l |>) _ m1 Hr1) as (m' & -> & Hr' & Hs'); [|cbn in *; lia|].
    { rewrite Hq1, lookup_alter_eq, Hq. cbn [fmap option_fmap option_map]. f_equal. transitivity (q <| qp_grp_list := unlink g (qp_grp_list q) |>); [done|]. by rewrite El, unlink_head. }
    exists m'. split; [done|]. split; [|by etrans].
    assert (filter (λ e, e.1 ≠ i) M = filter (λ e, e.1 ≠ i) (M ∖ {[(i, g)]})) as ->; [|done].
    apply set_eq. intros [i' g']. rewrite !elem_of_filter. cbn. set_solver.
Qed.

Definition subject (op : mc_op) : Z := match op with Attach i _ _ | Detach i _ _ | DropAll i => i end.

Lemma exec_rel op M m :
  mc_rel at_rest M m → mc_add_err m = [] → is_Some (h_qps (mc_host m) !! subject op) →
  ∃ r M' m', mc_exec op m = Some (r, m') ∧ mc_rel at_rest M' m' ∧ mc_same m m' ∧
    outcome op M m r M'.
Proof.
  intros Hr He Hi. destruct op as [i g mlid|i g mlid|i]; cbn [mc_exec subject] in *.
  - by apply attach_rel.
  - destruct (detach_rel i g mlid M m Hr) as (m' & -> & Hr' & Hs). eexists _, _, m'. split; [done|]. split; [done|].
    split; [done|]. left. cbn. by case_bool_decide.
  - destruct Hi as [q Hq]. unfold rxe_drop_all_mcast_groups. rewrite Hq. cbn [mbind option_bind].
    destruct (drop_groups_rel _ i q M m Hr Hq eq_refl) as (m' & -> & Hr' & Hs). eexists _, _, m'. split; [done|].
    split; [done|]. split; [done|by left].
Qed.

(** The specification with an allocator that may refuse an attachment. *)
Inductive spec_path (max : Z) (refusing : bool) : list mc_op → membership → list (result unit) → membership → Prop :=
  | path_nil M : spec_path max refusing [] M [] M
  | path_step op ops M rs M' :
      spec_path max refusing ops (spec_step max op M).2 rs M' →
      spec_path max refusing (op :: ops) M ((spec_step max op M).1 :: rs) M'
  | path_refused op ops M rs M' :
      refusing = true → attaches op = true → spec_path max refusing ops M rs M' →
      spec_path max refusing (op :: ops) M (Err ENOMEM :: rs) M'.

Lemma path_weaken max ops M rs M' : spec_path max false ops M rs M' → spec_path max true ops M rs M'.
Proof. induction 1; [constructor..|done]; done. Qed.

Lemma path_spec_run max ops M rs M' : spec_path max false ops M rs M' → spec_run max ops M = (rs, M').
Proof.
  induction 1 as [|op ops M rs M' _ IH|]; [done| |done]. cbn [spec_run]. destruct (spec_step max op M). cbn in *. by rewrite IH.
Qed.

Lemma run_rel ops : ∀ M m,
  mc_rel at_rest M m → mc_add_err m = [] → Forall (λ op, is_Some (h_qps (mc_host m) !! subject op)) ops →
  ∃ rs M' m', mc_run ops m = Some (rs, m') ∧ mc_rel at_rest M' m' ∧ mc_same m m' ∧
    spec_path (max_mcast_qp_attach m) (bool_decide (h_alloc (mc_host m) ≠ [])) ops M rs M'.
Proof.
  induction ops as [|op ops IH]; intros M m Hr He Hops; cbn [mc_run].
  { eexists [], M, m. split; [done|]. split; [done|]. split; [done|constructor]. }
  apply Forall_cons_1 in Hops as [Hop Hops]. destruct (exec_rel op M m Hr He Hop) as (r & M1 & m1 & -> & Hr1 & Hs1 & Ho).
  cbn [mbind option_bind]. destruct (IH M1 m1 Hr1) as (rs & M' & m' & -> & Hr' & Hs' & Hp); [by apply (same_err _ _ Hs1)| |].
  { eapply Forall_impl; [|exact Hops]. intros op'. by apply same_exists. }
  cbn [mbind option_bind]. eexists (r :: rs), M', m'. split; [done|]. split; [done|]. split; [by etrans|].
  assert (Emax : max_mcast_qp_attach m1 = max_mcast_qp_attach m) by (unfold max_mcast_qp_attach; by rewrite (same_dev _ _ Hs1)).
  rewrite Emax in Hp.
  assert (Hp' : spec_path (max_mcast_qp_attach m) (bool_decide (h_alloc (mc_host m) ≠ [])) ops M1 rs M').
  { pose proof (same_alloc _ _ Hs1) as Ha. do 2 case_bool_decide; try done; [naive_solver|by apply path_weaken]. }
  destruct Ho as [Ho|(Ha & Hat & -> & ->)].
  - destruct (spec_step (max_mcast_qp_attach m) op M) as [r0 M0] eqn:Es. injection Ho as -> ->.
    pose proof (path_step (max_mcast_qp_attach m) (bool_decide (h_alloc (mc_host m) ≠ [])) op ops M rs M') as Hst.
    rewrite Es in Hst. by apply Hst.
  - apply path_refused; [by apply bool_decide_eq_true_2|done|done].
Qed.

(** ** The theorems *)

(** C28: whatever is attached, detached and destroyed, and whatever the
    allocator refuses, as long as the interface accepts the addresses: every
    call returns, with the result that the set of memberships prescribes; the
    lists of the groups and those of the queue pairs are that set, a group is
    in the tree exactly when it has members, its reference count is their
    number, and the filter of the interface has the address of each group once. *)
Theorem mcast_refines ops M m :
  mc_rel at_rest M m → mc_add_err m = [] → Forall (λ op, is_Some (h_qps (mc_host m) !! subject op)) ops →
  ∃ rs M' m', mc_run ops m = Some (rs, m') ∧ mc_rel at_rest M' m' ∧
    spec_path (max_mcast_qp_attach m) (bool_decide (h_alloc (mc_host m) ≠ [])) ops M rs M' ∧
    (h_alloc (mc_host m) = [] → spec_run (max_mcast_qp_attach m) ops M = (rs, M')).
Proof.
  intros Hr He Hops. destruct (run_rel ops M m Hr He Hops) as (rs & M' & m' & E & Hr' & _ & Hp).
  exists rs, M', m'. split; [done|]. split; [done|]. split; [done|]. intros Ha. apply path_spec_run.
  by rewrite bool_decide_eq_false_2 in Hp by naive_solver.
Qed.

Lemma same_lookup m m' i q' : mc_same m m' → h_qps (mc_host m') !! i = Some q' →
  ∃ q, h_qps (mc_host m) !! i = Some q ∧ bare q' = bare q.
Proof.
  intros Hs Hi. assert (E : (bare <$> h_qps (mc_host m)) !! i = Some (bare q'))
    by (by rewrite <- (same_bare _ _ Hs), lookup_fmap, Hi).
  rewrite lookup_fmap in E. apply fmap_Some in E as (q & Hq & E). by exists q.
Qed.

Lemma same_typed x M m m' :
  host_typed (mc_host m) → mc_same m m' → mc_rel x M m' → host_typed (mc_host m').
Proof.
  intros [Hq Ht Hg] Hs Hr. split.
  - intros i q' Hi. destruct (same_lookup _ _ _ _ Hs Hi) as (q & Hi0 & E).
    pose proof (Hq i q Hi0) as [Q1 Q2]. pose proof (f_equal qp_req_pkts E) as E1. pose proof (f_equal qp_resp_pkts E) as E2. cbn in E1, E2.
    unfold qp_typed. by rewrite E1, E2.
  - rewrite (same_dev _ _ Hs). eapply Forall_impl; [|exact Ht]. intros port Hp i q' Hi.
    destruct (same_lookup _ _ _ _ Hs Hi) as (q & Hi0 & E). pose proof (Hp i q Hi0) as Hin.
    pose proof (f_equal qp_attr E) as E1. pose proof (f_equal qp_pri_av E) as E2. cbn in E1, E2.
    unfold in_tables in *. by rewrite E1, E2.
  - intros g c Hc. apply list.Forall_forall. intros i Hi. eapply (rel_exists _ _ _ Hr). by apply (rel_grp _ _ _ Hr _ _ Hc).
Qed.

(** A packet from the network that is addressed to the group [g]. *)
Record for_group (len : Z) (pkt : rxe_pkt_info) (g : Z * Z) : Prop := {
  fg_mask : pkt_mask pkt = RXE_GRH_MASK;
  fg_whole : whole len pkt;
  fg_len : len ≤ Z.of_nat (length (pkt_hdr pkt));
  fg_qpn : bth_qpn (parsed pkt) = IB_MULTICAST_QPN;
  fg_tver : bth_tver (parsed pkt) = BTH_TVER;
  fg_grh : grh_ok (parsed pkt) = true;
  fg_gid : load_u8 (pkt_hdr (parsed pkt)) (grh_dgid (parsed pkt)) = 0xff;
  fg_dgid : (gid_prefix (parsed pkt) (grh_dgid (parsed pkt)), gid_guid (parsed pkt) (grh_dgid (parsed pkt))) = g
}.

(** The packet is for the members of [l] when the group has them. *)
Lemma rcv_for_group stale len pkt g h port x M m :
  for_group len pkt g → mc_host m = h → mc_rel x M m → host_typed h → port_of h pkt = Some port → h_alloc h = [] →
  ∃ h' l, rxe_rcv stale len pkt h = Some h' ∧ (∀ i, i ∈ l ↔ (i, g) ∈ M) ∧ shared l port (parsed pkt) h h'.
Proof.
  intros Hf <- Hr Hh Hp Ha. destruct Hf as [F1 F2 F3 F4 F5 F6 F7 F8].
  destruct (h_mcgs (mc_host m) !! g) as [c|] eqn:Hc.
  - destruct (rel_grp _ _ _ Hr _ _ Hc) as (K1 & K2 & _).
    destruct (rcv_multicast stale len pkt (mc_host m) port c) as (h' & E & Hs); try done; [by rewrite F8|].
    by exists h', (mcg_qp_list c).
  - destruct (rel_none _ _ _ Hr _ Hc) as [_ Hn]. exists (h_free (parsed pkt) (mc_host m)), []. split; [|split; [|by apply shared_nil]].
    + rewrite rxe_rcv_parsed by done. unfold hdr_check.
      rewrite F4, F5, F6, F7, (parsed_grh pkt), !Z.eqb_refl. cbn [negb mbind option_bind].
      unfold rxe_rcv_mcast_pkt. by rewrite F8, Hc.
    + intros i. split; [by intros ?%not_elem_of_nil|]. intros Hi. by destruct (Hn i).
Qed.

(** C12: after any sequence of calls that attach and detach queue pairs and
    destroy them, a packet for a group is given to exactly the queue pairs that
    are members then and accept its state and keys, once each; the others are
    as before. *)
Theorem mcast_delivers stale len pkt g ops M m port :
  mc_rel at_rest M m → mc_add_err m = [] → Forall (λ op, is_Some (h_qps (mc_host m) !! subject op)) ops →
  h_alloc (mc_host m) = [] → host_typed (mc_host m) → port_of (mc_host m) pkt = Some port → for_group len pkt g →
  ∃ rs M' m' h', mc_run ops m = Some (rs, m') ∧ spec_run (max_mcast_qp_attach m) ops M = (rs, M') ∧
    rxe_rcv stale len pkt (mc_host m') = Some h' ∧
    ∀ i q, h_qps (mc_host m') !! i = Some q →
      (i, g) ∈ M' ∧ takes port (parsed pkt) q ∧
        (∃ k, h_qps h' !! i = Some (got q (parsed pkt <| pkt_pkey_index := k |>))) ∨
      ¬ ((i, g) ∈ M' ∧ takes port (parsed pkt) q) ∧ h_qps h' !! i = Some q.
Proof.
  intros Hr He Hops Ha Hh Hp Hf. destruct (run_rel ops M m Hr He Hops) as (rs & M' & m' & E & Hr' & Hs & Hpath).
  rewrite bool_decide_eq_false_2 in Hpath by naive_solver. apply path_spec_run in Hpath.
  destruct (rcv_for_group stale len pkt g _ port _ M' m' Hf eq_refl Hr') as (h' & l & Ercv & Hl & Hsh);
    [by eapply same_typed|unfold port_of in *; by rewrite (same_dev _ _ Hs)|by apply (same_alloc _ _ Hs)|].
  exists rs, M', m', h'. do 3 (split; [done|]). intros i q Hi. rewrite <- Hl. by apply Hsh.
Qed.

Lemma rcv_no_groups pkt h : h_mcgs h = ∅ → rxe_rcv_mcast_pkt pkt h = Some (h_free pkt h).
Proof. intros E. unfold rxe_rcv_mcast_pkt. by rewrite E. Qed.

Lemma detach_no_groups i g mlid m : h_mcgs (mc_host m) = ∅ → rxe_detach_mcast i g mlid m = Some (Err EINVAL, m).
Proof. intros E. unfold rxe_detach_mcast, rxe_mcast_drop_grp_elem. by rewrite E. Qed.

(** When the interface refuses the address of a new group, the clean up of
    the group takes the whole tree away: the call fails, the queue pairs are as
    before, but no group of the device is found any more. Every packet for a
    group is dropped and no queue pair can leave one. *)
Theorem failed_join_loses_groups i g mlid e l m :
  max_mcast_qp_attach m ≠ 0 → h_mcgs (mc_host m) !! g = None → h_alloc (mc_host m) = [] → mc_add_err m = Some e :: l →
  ∃ m', rxe_attach_mcast i g mlid m = Some (Err e, m') ∧ h_qps (mc_host m') = h_qps (mc_host m) ∧
    (∀ pkt, rxe_rcv_mcast_pkt pkt (mc_host m') = Some (h_free pkt (mc_host m'))) ∧
    (∀ j g' mlid', rxe_detach_mcast j g' mlid' m' = Some (Err EINVAL, m')).
Proof.
  intros Hmax Hg Ha He. destruct m as [h f er]. cbn [mc_host mc_add_err] in *. subst er.
  unfold rxe_attach_mcast, rxe_mcast_get_grp. cbn [mc_host].
  rewrite (proj2 (Z.eqb_neq _ _) Hmax), Hg. unfold mc_next_alloc, h_next_alloc. cbn [mc_host]. rewrite Ha.
  eexists. split; [reflexivity|]. split; [done|]. split; intros; [by apply rcv_no_groups|by apply detach_no_groups].
Qed.

(** ** Examples *)

Definition example_gid : Z * Z := (0xff11000000000000, 0x44).

(** A host with two queue pairs for datagrams and no group. *)
Definition example_mc : mc_state :=
  Mc (example_host <| h_mcgs := ∅ |>
        <| h_qps := <[17 := example_peer_qp IB_QPT_UD 6]> {[18 := example_peer_qp IB_QPT_UD 6]} |>) [] [].

Definition example_ops : list mc_op :=
  [Attach 17 example_gid 0; Attach 18 example_gid 0; Attach 17 (0xff11000000000000, 0x45) 0; Detach 18 (0, 0) 0; DropAll 17].

Lemma example_mc_rel : mc_rel at_rest ∅ example_mc.
Proof.
  split; [|set_solver| | |].
  - intros i q Hq. assert (E : qp_grp_list q = []).
    { cbn in Hq. apply lookup_insert_Some in Hq as [[_ <-]|[_ [_ <-]%lookup_singleton_Some]]; reflexivity. }
    rewrite E. split; [constructor|]. set_solver.
  - intros g c Hc. cbn in Hc. by rewrite lookup_empty in Hc.
  - intros g _. split; [done|set_solver].
  - cbn. by rewrite map_to_list_empty.
Qed.

Lemma example_mc_subjects : Forall (λ op, is_Some (h_qps (mc_host example_mc) !! subject op)) example_ops.
Proof. repeat (constructor; [by eexists|]). constructor. Qed.

Lemma example_spec :
  spec_run (max_mcast_qp_attach example_mc) example_ops ∅ = ([Ok tt; Ok tt; Ok tt; Err EINVAL; Ok tt], {[(18, example_gid)]}).
Proof.
  apply injective_projections; [vm_compute; reflexivity|]. apply (bool_decide_eq_true_1 (_ = _)). vm_compute. reflexivity.
Qed.

Lemma mcast_refines_witness :
  ∃ m', mc_run example_ops example_mc = Some ([Ok tt; Ok tt; Ok tt; Err EINVAL; Ok tt], m') ∧
    mc_rel at_rest {[(18, example_gid)]} m' ∧ mc_filter m' = [[0x33; 0x33; 0; 0; 0; 0x44]].
Proof.
  destruct (mcast_refines example_ops ∅ example_mc) as (rs & M' & m' & E & Hr & _ & Hs);
    [apply example_mc_rel|reflexivity|apply example_mc_subjects|]. specialize (Hs eq_refl).
  rewrite example_spec in Hs. injection Hs as <- <-. exists m'. split; [exact E|]. split; [exact Hr|].
  assert (Ef : (mc_filter ∘ snd) <$> mc_run example_ops example_mc = Some [[0x33; 0x33; 0; 0; 0; 0x44]]) by (vm_compute; reflexivity).
  rewrite E in Ef. by injection Ef.
Defined.

Lemma example_mc_typed : host_typed (mc_host example_mc).
Proof.
  assert (Hq : ∀ i q, h_qps (mc_host example_mc) !! i = Some q → q = example_peer_qp IB_QPT_UD 6).
  { intros i q Hi. cbn in Hi. by apply lookup_insert_Some in Hi as [[_ <-]|[_ [_ <-]%lookup_singleton_Some]]. }
  split.
  - intros i q ->%Hq. split; constructor.
  - constructor; [|constructor]. intros i q ->%Hq. split; by eexists.
  - intros g c Hc. cbn in Hc. by rewrite lookup_empty in Hc.
Qed.

Lemma mcast_delivers_witness :
  let bytes := example_frame IB_OPCODE_UD_SEND_ONLY 5 IB_MULTICAST_QPN 0xff11000000000000 0x44 6 [1; 2; 3] in
  ∃ rs m' h', mc_run example_ops example_mc = Some (rs, m') ∧
    rxe_rcv true (Z.of_nat (length bytes)) (example_in bytes) (mc_host m') = Some h' ∧
    (λ q, length (qp_req_pkts q)) <$> h_qps h' !! 17 = Some 0%nat ∧
    (λ q, length (qp_req_pkts q)) <$> h_qps h' !! 18 = Some 1%nat.
Proof.
  intros bytes.
  destruct (mcast_delivers true (Z.of_nat (length bytes)) (example_in bytes) example_gid example_ops ∅ example_mc
    (Port 0 3 [0xffff] [0x22] 0x11 4096 0 1 0 0)) as (rs & M' & m' & h' & E & Es & Er & H).
  - apply example_mc_rel.
  - reflexivity.
  - apply example_mc_subjects.
  - reflexivity.
  - apply example_mc_typed.
  - reflexivity.
  - split; first [vm_compute; reflexivity|split; vm_compute; discriminate|vm_compute; discriminate].
  - exists rs, m', h'. split; [exact E|]. split; [exact Er|].
    rewrite example_spec in Es. injection Es as _ <-. clear Er.
    assert (Eq : (λ p, h_qps (mc_host (snd p))) <$> mc_run example_ops example_mc =
      Some (<[17 := example_peer_qp IB_QPT_UD 6]> {[18 := example_peer_qp IB_QPT_UD 6 <| qp_grp_list := [example_gid] |>]}))
      by (vm_compute; reflexivity).
    rewrite E in Eq. injection Eq as Eq. cbn [snd] in Eq. rewrite Eq in H. split.
    + destruct (H 17 _ eq_refl) as [(Hin & _)|(_ & ->)]; [|reflexivity]. apply elem_of_singleton in Hin. discriminate Hin.
    + destruct (H 18 _ eq_refl) as [(_ & _ & k & ->)|(Hn & _)]; [vm_compute; reflexivity|]. exfalso. apply Hn.
      split; [by apply elem_of_singleton|]. split; [vm_compute; reflexivity|]. exists 0. split; [vm_compute; reflexivity|].
      intros _ _. vm_compute. reflexivity.
Defined.

(** A queue pair joins a group; a second group is refused by the interface. *)
Lemma failed_join_loses_groups_witness :
  ∃ m', rxe_attach_mcast 16 (0xff11000000000000, 0x45) 0 (Mc example_host [ipv6_eth_mc_map example_gid] [Some ENOMEM])
      = Some (Err ENOMEM, m') ∧
    ∀ j g mlid, rxe_detach_mcast j g mlid m' = Some (Err EINVAL, m').
Proof.
  destruct (failed_join_loses_groups 16 (0xff11000000000000, 0x45) 0 ENOMEM []
    (Mc example_host [ipv6_eth_mc_map example_gid] [Some ENOMEM])) as (m' & E & _ & _ & H);
    [vm_compute; discriminate|reflexivity..|]. by exists m'.
Defined.
