(* ===== verification/CompTask.v ===== *)
(** * The acknowledgements of a message at the completer (rxe_comp.c)

    The responder may acknowledge packets inside a message. The completer takes
    such an acknowledgement as progress; the one of the last packet completes
    the element, and the task stops. *)

From stdpp Require Import gmap.
From S2P Require Import Prelude Queue Opcode Hdr Verbs Mr Cq State Comp.

(** An acknowledgement of the packet with sequence number [psn]. *)
Record acknowledges (psn : Z) (p : rxe_pkt_info) : Prop := {
  ak_opcode : pkt_opcode p = IB_OPCODE_RC_ACKNOWLEDGE;
  ak_start : flag_set (pkt_mask p) RXE_START_MASK = true;
  ak_end : flag_set (pkt_mask p) RXE_END_MASK = true;
  ak_syndrome : aeth_syn p .& AETH_TYPE_MASK = AETH_ACK;
  ak_psn : pkt_psn p = psn
}.

Ltac comp_next := apply wp_comp_loop; cbn [comp_step]; wp_run.

Section task.
Context `{Params} (F : Prop) (k n : Z).

(** An acknowledgement before the last packet of the element. *)
Lemma wp_midway qe fuel s w wl cl p psn a Q :
  view k n s (w :: wl) cl → waiting w → acknowledges psn p → psn_compare psn (wqe_last_psn w) < 0 →
  0 ≤ psn_compare psn (comp_psn (qp_comp (es_qp s))) → comp_opcode (qp_comp (es_qp s)) = -1 →
  (∀ s', view k n s' (w :: wl) cl → fixed s' = fixed s → comp_opcode (qp_comp (es_qp s')) = -1 →
     comp_psn (qp_comp (es_qp s')) = (psn + 1) mod 2 ^ 24 → Q (Ok tt) s') →
  wp F (comp_loop qe (6 + fuel)%nat COMPST_GET_WQE (Some p) a) Q s.
Proof.
  intros Hv (Hst & Hm & Hrd) [Hack Hstart Hend Hsyn <-] Hlt Hge Hop HQ. cbn [Nat.add]. comp_next.
  eapply wp_get_wqe; [done..|]. wp_run. comp_next. unfold check_psn. wp_run.
  eapply wp_sq_wqe_head; [done|done|]. wp_run.
  destruct (Z.gtb_spec (psn_compare (pkt_psn p) (wqe_last_psn w)) 0); [lia|].
  destruct (Z.ltb_spec (psn_compare (pkt_psn p) (comp_psn (qp_comp (es_qp s)))) 0); [lia|].
  rewrite Hm, andb_false_r. wp_run. comp_next. unfold check_ack. wp_run. eapply wp_sq_wqe_head; [done|done|].
  unfold ack_out_of_sequence. rewrite Hop, Hack, Hstart, Hsyn. cbn -[comp_loop]. wp_run.
  unfold reset_retry_counters. wp_run. comp_next. eapply (wp_sq_wqe_head _ k n); [done|done|]. wp_run.
  assert (Hne : (wqe_last_psn w =? pkt_psn p) = false).
  { apply Z.eqb_neq. intros E. rewrite E, psn_compare_refl in Hlt. lia. }
  rewrite Hne, andb_false_r. comp_next. rewrite Hend. unfold advance_comp_psn. wp_run. cbn -[comp_loop comp_free_pkt wake_wait_psn].
  destruct (Z.geb_spec (psn_compare (pkt_psn p) (comp_psn (qp_comp (es_qp s)))) 0); [|lia].
  unfold when at 1. wp_run. unfold wake_wait_psn. wp_run.
  apply (wp_mono _ _ (λ _ s2, view k n s2 (w :: wl) cl ∧ fixed s2 = fixed s ∧
    comp_opcode (qp_comp (es_qp s2)) = -1 ∧ comp_psn (qp_comp (es_qp s2)) = next_psn p)).
  { apply wp_when; intros _; by wp_run. }
  intros _ s2 (Hv2 & Hf2 & Ho2 & Hp2). wp_run. comp_next. unfold comp_free_pkt, qp_drop_ref. wp_run.
  apply HQ; try done. transitivity (next_psn p); [exact Hp2|]. unfold next_psn, BTH_PSN_MASK.
  change 0x00ffffff with (2 ^ 24 - 1). apply land_u32_mask. lia.
Qed.

(** A call without anything to do. *)
Lemma wp_completer_idle depth fuel s cl Q :
  alive (es_qp s) = true → req_need_retry (qp_req (es_qp s)) = false → qp_resp_pkts (es_qp s) = [] →
  view k n s [] cl →
  (∀ s', view k n s' [] cl → fixed s' = fixed s → comp_psn (qp_comp (es_qp s')) = comp_psn (qp_comp (es_qp s)) →
     Q (Err EAGAIN) s') →
  wp F (rxe_completer (S depth) (3 + fuel)) Q s.
Proof.
  intros Ha Hr Hp Hv HQ. cbn [rxe_completer]. unfold completer_body. wp_run. unfold alive in Ha.
  apply andb_true_iff in Ha as [[Hva He%negb_true_iff]%andb_true_iff Hre%negb_true_iff].
  rewrite Hva, He, Hre, Hr. cbn [negb]. wp_run. set (qe := rxe_qp_error _). clearbody qe.
  apply (wp_mono _ _ (λ _ s1, ∃ c, s1 = s <| es_qp ::= λ q, q <| qp_comp := c |> |> ∧
    comp_psn c = comp_psn (qp_comp (es_qp s)))).
  { apply wp_if; intros _; wp_run; by eexists. }
  intros _ s1 (c & -> & Hc). cbn [Nat.add]. comp_next. unfold dequeue_resp_pkt. wp_run. cbn -[comp_loop].
  rewrite Hp. wp_run. comp_next. unfold get_wqe. wp_run. cbn -[comp_loop]. pose proof Hv as (Hwf & Hl & _).
  rewrite (queue_head_nil k _ Hwf Hl). wp_run. comp_next. unfold comp_exit. wp_run.
  unfold comp_rearm_timer. wp_run. apply wp_when; intros _; wp_run; by apply HQ.
Qed.
End task.

(** ** The acknowledgements of one message *)

Section message.
Context `{Params} (k nc psn0 : Z) (q0 : rxe_qp) (w : rxe_send_wqe) (cl : list ib_wc).

Local Abbreviation psn i := ((psn0 + Z.of_nat i) mod 2 ^ 24).

Lemma psn_ahead i j :
  (i ≤ j)%nat → Z.of_nat (j - i) < 2 ^ 23 →
  psn_compare (psn j) (psn i) = 2 ^ 8 * Z.of_nat (j - i) ∧ psn_compare (psn i) (psn j) = - 2 ^ 8 * Z.of_nat (j - i).
Proof.
  intros Hi Hd. rewrite !psn_compare_dist. unfold psn_dist. split; Z.div_mod_to_equations; lia.
Qed.

(** What is sent back for each packet from [i] on: an acknowledgement or
    nothing, and an acknowledgement for the last one. *)
Fixpoint answered (i : nat) (ls : list (list rxe_pkt_info)) : Prop :=
  match ls with
  | [] => False
  | l :: ls => (l = [] ∧ ls ≠ [] ∨ ∃ ack, l = [ack] ∧ acknowledges (psn i) ack) ∧ (ls = [] ∨ answered (S i) ls)
  end.

Lemma answered_length ls : ∀ i, answered i ls → (length (concat ls) ≤ length ls)%nat.
Proof.
  induction ls as [|l ls IH]; intros i Ha; [done|]. cbn [answered concat length] in *. rewrite length_app.
  destruct Ha as [Hl [->|Ha]]; [destruct Hl as [[-> _]|(ack & -> & _)]; cbn; lia|]. specialize (IH _ Ha).
  destruct Hl as [[-> _]|(ack & -> & _)]; cbn; lia.
Qed.

(** The acknowledgements in [ls] have arrived, and those of the packets before
    [i] are taken. *)
Record underway (i : nat) (ls : list (list rxe_pkt_info)) (s : eng_state) : Prop := {
  uw_alive : alive (es_qp s) = true;
  uw_drain : req_state (qp_req (es_qp s)) ≠ QP_STATE_DRAIN;
  uw_retry : req_need_retry (qp_req (es_qp s)) = false;
  uw_pkts : qp_resp_pkts (es_qp s) = concat ls;
  uw_view : view k nc s [w] cl;
  uw_opcode : comp_opcode (qp_comp (es_qp s)) = -1;
  uw_psn : ∃ c, (c ≤ i)%nat ∧ comp_psn (qp_comp (es_qp s)) = psn c;
  uw_same : completions (es_qp s) = completions q0 ∧ qp_scq (es_qp s) = qp_scq q0
}.

(** Everything is acknowledged. *)
Record settled (n : nat) (s : eng_state) : Prop := {
  st_view : view k nc s [] (cl ++ completions q0 [w]);
  st_pkts : qp_resp_pkts (es_qp s) = [];
  st_psn : comp_psn (qp_comp (es_qp s)) = psn n;
  st_scq : qp_scq (es_qp s) = qp_scq q0
}.

Context (Hw : waiting w) (Hroom : Z.of_nat (length cl + length (completions q0 [w])) ≤ nc).

Lemma completer_midway depth fuel i ls l n s ack :
  l = [ack] → acknowledges (psn i) ack → underway i (l :: ls) s → (i + length ls)%nat = n → ls ≠ [] →
  Z.of_nat n < 2 ^ 23 → wqe_last_psn w = psn n →
  wp False (rxe_completer (S depth) (8 + fuel)) (λ r s', r = Ok tt ∧ underway (S i) ls s') s.
Proof using Hw Hroom.
  intros -> Hack [Ha Hd Hr Hp Hv Ho (c & Hc & Hps) [Hsm Hscq]] Hn Hne Hsz Hlast. cbn [concat app] in Hp.
  assert (Hlen : (0 < length ls)%nat) by (destruct ls; [done|cbn; lia]).
  eapply wp_completer_pkt; [done..|]. intros qe c' s1 -> Hc1 Hc2.
  eapply (wp_midway _ k nc qe (1 + fuel) _ w [] cl ack (psn i)); [done|done|done| | | |].
  - rewrite Hlast. destruct (psn_ahead i n) as [_ ->]; lia.
  - cbn. rewrite Hc1, Hps. destruct (psn_ahead c i) as [-> _]; lia.
  - cbn. congruence.
  - intros s' Hv' Hf' Ho' Hp'. split; [done|]. pose proof (completions_fixed _ _ Hf') as Hcf.
    unfold fixed in Hf'. cbn in Hf'. injection Hf' as _ F2 _ F4 _ F6 _ F8 F9.
    split; try congruence.
    + unfold alive in *. by rewrite F8, F6.
    + exists (S i). split; [lia|]. rewrite Hp'. rewrite Zplus_mod_idemp_l. f_equal. lia.
    + split; [rewrite Hcf; exact Hsm|congruence].
Qed.

Lemma completer_last depth fuel i s ack n :
  acknowledges (psn i) ack → underway i [[ack]] s → S i = n → Z.of_nat n < 2 ^ 23 → wqe_last_psn w = psn i →
  wp False (rxe_completer (S depth) (8 + fuel)) (λ r s', r = Ok tt ∧ settled n s' ∧ alive (es_qp s') = true ∧
    req_need_retry (qp_req (es_qp s')) = false) s.
Proof using Hw Hroom.
  intros Hack [Ha Hd Hr Hp Hv Ho (c & Hc & Hps) [Hsm Hscq]] <- Hsz Hlast. cbn [concat app] in Hp.
  eapply wp_completer_pkt; [done..|]. intros qe c' s1 -> Hc1 Hc2.
  eapply (wp_last _ qe fuel k nc _ w [] cl ack); [done|done|by rewrite Hlast, (ak_psn _ _ Hack)|done| | |].
  - change (completions (es_qp _)) with (completions (es_qp s)). rewrite Hsm. done.
  - right. rewrite (ak_psn _ _ Hack). cbn. split; [rewrite Hc1, Hps; destruct (psn_ahead c i) as [-> _]; lia|].
    split; [congruence|]. split; [apply Hack|]. split; apply Hack.
  - intros s' Hv' Hf' Hp'. change (completions (es_qp _)) with (completions (es_qp s)) in Hv'. rewrite Hsm in Hv'.
    unfold fixed in Hf'. cbn in Hf'. injection Hf' as _ F2 _ F4 _ F6 _ F8 F9. split; [done|]. split; [split|split].
    + done.
    + done.
    + rewrite Hp'. unfold next_psn, BTH_PSN_MASK. change 0x00ffffff with (2 ^ 24 - 1). rewrite land_u32_mask by lia.
      rewrite (ak_psn _ _ Hack), Zplus_mod_idemp_l. f_equal. lia.
    + congruence.
    + unfold alive in *. by rewrite F8, F6.
    + congruence.
Qed.

(** One run of the task takes all of them, completes the element and stops. *)
Lemma completer_answered depth fuel n ls : ∀ i s,
  answered i ls → underway i ls s → (i + length ls)%nat = n → Z.of_nat n < 2 ^ 23 → wqe_last_psn w = psn (n - 1) →
  wp False (__rxe_do_task (rxe_completer (S depth) (8 + fuel)) (S (length (concat ls)))) (λ _ s', settled n s') s.
Proof using Hw Hroom.
  induction ls as [|l ls IH]; intros i s Han Hu Hn Hsz Hlast; [done|]. cbn [answered length] in *.
  destruct ls as [|l' ls].
  - destruct Han as [[[_ []]|(ack & -> & Hack)] _]; [done|].
    change (S (length (concat [[ack]]))) with 2%nat. cbn [__rxe_do_task]. cbn [length] in Hn. wp_run. eapply wp_mono.
    { apply (completer_last _ _ i s ack n); try done; [lia|]. rewrite Hlast. do 2 f_equal. lia. }
    intros r s1 (-> & Hst & Ha & Hr). wp_run. eapply (wp_completer_idle _ k nc _ (5 + fuel)); try done; try apply Hst.
    intros s' Hv Hf Hps. wp_run. unfold fixed in Hf. injection Hf as _ F2 _ F4 _ _ _ _ _. destruct Hst as [Hv1 Hp1 Hps1 Hs1].
    split; congruence.
  - destruct Han as [[[-> _]|(ack & -> & Hack)] [Hz|Han]]; try done.
    + apply (IH (S i)); try done; [|cbn [length] in *; lia]. destruct Hu as [? ? ? ? ? ? (c & ? & ?) ?]. split; try done.
      exists c. split; [lia|done].
    + set (m := S (length (concat (l' :: ls)))). change (S (length (concat ([ack] :: l' :: ls)))) with (S m).
      cbn [__rxe_do_task]. wp_run. eapply wp_mono.
      { apply (completer_midway _ _ i (l' :: ls) [ack] (n - 1) s ack); try done; cbn [length] in *; lia. }
      intros r s1 [-> Hu1]. wp_run. apply (IH (S i)); try done. cbn [length] in *. lia.
Qed.
End message.
