(* ===== verification/Wire.v ===== *)
(** * From one host to another (rxe_arbiter.c, rxe_net.c, rxe_recv.c)

    The arbiter's task hands the packets of the queue pairs to the network
    interface one after the other; [rxe_net_rcv] of another host receives them.
    This file follows a list of packets out of one host and into another. *)

From stdpp Require Import gmap.
From S2P Require Import Prelude Bits Queue Opcode Hdr Verbs Mr Cq State Comp Arbiter Req ReqPacket Message.
From S2P Require Import Resp Ack RespSteps Deliver Host Recv CompTask.

(** ** Sending *)

(** One call of the arbiter's task function on a host. *)
Definition host_arbiter `{Params} (h : host) : option (Z * host) :=
  '(ret, s) ← rxe_arbiter (Arb (h_dev h) (h_qps h) (h_send h) []);
  let id := default 0 (head (rdev_arbiter (h_dev h))) in
  Some (ret, h <| h_dev := arb_dev s |> <| h_qps := arb_qps s |> <| h_send := arb_send s |>
               <| h_ev ::= (λ l, l ++ (HQp id <$> arb_ev s)) |>).

(** [__rxe_do_task] for the arbiter. *)
Fixpoint arbiter_task `{Params} (fuel : nat) (h : host) : option host :=
  match fuel with
  | O => None
  | S fuel => '(ret, h) ← host_arbiter h; if ret =? 0 then arbiter_task fuel h else Some h
  end.

(** The packets given to the network interface. *)
Definition on_wire (e : host_event) : option rxe_pkt_info :=
  match e with HQp _ (EvSent pkt) => Some pkt | _ => None end.

Definition sent_by (h h' : host) : list rxe_pkt_info :=
  omap on_wire (drop (length (h_ev h)) (h_ev h')).

(** [h'] is [h] after queue pair [i], which was [q], has sent all its packets. *)
Record flushed_out (i : Z) (q : rxe_qp) (h h' : host) : Prop := {
  fo_qps : ∃ a b, h_qps h' = <[i := q <| qp_send_pkts := [] |> <| qp_on_arbiter := false |>
    <| qp_req_skb_out := a |> <| qp_resp_skb_out := b |>]> (h_qps h);
  fo_dev : ∃ a b, h_dev h' = h_dev h <| rdev_arbiter := [] |> <| rdev_req_skb_out := a |> <| rdev_resp_skb_out := b |>;
  fo_rest : h_mcgs h' = h_mcgs h ∧ h_alloc h' = h_alloc h ∧ h_send h' = [] ∧ h_jiffies h' = h_jiffies h;
  fo_ev : ∃ l, h_ev h' = h_ev h ++ l ∧ omap on_wire l = qp_send_pkts q
}.

Section sending.
Context `{Params}.

Definition ready_for (q : rxe_qp) (pkt : rxe_pkt_info) : Prop :=
  (if flag_set (pkt_mask pkt) RXE_REQ_MASK then req_state (qp_req q) else resp_state (qp_resp q)) = QP_STATE_READY.

(** A packet that leaves. *)
Lemma xmit_one_sent pkt s :
  qp_valid (es_qp s) = true → es_send s = [] → ready_for (es_qp s) pkt →
  ∃ a b c d l, xmit_one_packet pkt s = Some (0, s
    <| es_dev ::= λ x, x <| rdev_req_skb_out := a |> <| rdev_resp_skb_out := b |> |>
    <| es_qp ::= λ q, q <| qp_req_skb_out := c |> <| qp_resp_skb_out := d |> |> <| es_ev := es_ev s ++ EvSent pkt :: l |>) ∧
    ∀ i, omap on_wire (HQp i <$> l) = [].
Proof.
  intros Hv Hs Hr.
  enough (Hw : wp False (xmit_one_packet pkt) (λ r s', r = 0 ∧ ∃ a b c d l, s' = s
    <| es_dev ::= λ x, x <| rdev_req_skb_out := a |> <| rdev_resp_skb_out := b |> |>
    <| es_qp ::= λ q, q <| qp_req_skb_out := c |> <| qp_resp_skb_out := d |> |> <| es_ev := es_ev s ++ EvSent pkt :: l |> ∧
    ∀ i, omap on_wire (HQp i <$> l) = []) s).
  { apply wp_total in Hw as (r & s' & E & -> & a & b & c & d & l & -> & Hw). by exists a, b, c, d, l. }
  unfold xmit_one_packet, ready_for in *. wp_run. rewrite Hv, Hr, bool_decide_eq_true_2 by done. cbn [negb orb].
  wp_run. unfold next_send, wp at 1. rewrite Hs. change (0 =? RXE_QUEUE_STOPPED) with false. cbv iota. wp_run.
  unfold when at 1. cbn [Z.eqb negb]. wp_run. unfold account_skb. destruct (flag_set (pkt_mask pkt) RXE_REQ_MASK); wp_run.
  - apply wp_when; intros _; wp_run; (split; [done|]).
    + exists (rdev_req_skb_out (es_dev s) - 1), (rdev_resp_skb_out (es_dev s)), (qp_req_skb_out (es_qp s) - 1),
        (qp_resp_skb_out (es_qp s)), [EvTask task_req true]. split; [|done].
      change (es_ev s ++ [EvSent pkt; EvTask task_req true]) with (es_ev s ++ [EvSent pkt] ++ [EvTask task_req true]).
      rewrite app_assoc. by destruct s as [[] [] al se j ev].
    + exists (rdev_req_skb_out (es_dev s) - 1), (rdev_resp_skb_out (es_dev s)), (qp_req_skb_out (es_qp s) - 1),
        (qp_resp_skb_out (es_qp s)), []. split; [|done]. by destruct s as [[] [] al se j ev].
  - split; [done|]. exists (rdev_req_skb_out (es_dev s)), (rdev_resp_skb_out (es_dev s) - 1), (qp_req_skb_out (es_qp s)),
      (qp_resp_skb_out (es_qp s) - 1), []. split; [|done]. by destruct s as [[] [] al se j ev].
Qed.

(** One call of the arbiter. *)
Lemma host_arbiter_sends h i q pkt pkts :
  rdev_arbiter (h_dev h) = [i] → h_qps h !! i = Some q → qp_send_pkts q = pkt :: pkts → h_send h = [] →
  qp_valid q = true → ready_for q pkt →
  ∃ a b c d l, let on := negb (bool_decide (pkts = [])) in
    host_arbiter h = Some (0, h
      <| h_dev ::= λ x, x <| rdev_arbiter := if on then [i] else [] |> <| rdev_req_skb_out := a |> <| rdev_resp_skb_out := b |> |>
      <| h_qps ::= <[i := q <| qp_send_pkts := pkts |> <| qp_on_arbiter := on |>
                            <| qp_req_skb_out := c |> <| qp_resp_skb_out := d |>]> |>
      <| h_ev ::= (λ e, e ++ (HQp i <$> EvSent pkt :: l)) |>) ∧
    omap on_wire (HQp i <$> l) = [].
Proof.
  intros Hl Hq Hp Hs Hv Hr. unfold host_arbiter, rxe_arbiter. cbn [arb_dev arb_qps arb_send arb_ev]. rewrite Hl, Hq.
  cbn [mbind option_bind head default]. cbn [qp_send_pkts upd_field]. rewrite Hp.
  destruct (xmit_one_sent pkt (Es (h_dev h <| rdev_arbiter := [] |>)
    (q <| qp_on_arbiter := false |> <| qp_send_pkts := pkts |>) [] (h_send h) 0 [])) as (a & b & c & d & l & -> & Hw);
    [done..|].
  exists a, b, c, d, l. cbn [mbind option_bind Z.eqb]. split; [|apply Hw].
  destruct h as [[] qps g al se j ev], q. cbn in *. subst. destruct (bool_decide (pkts = [])); reflexivity.
Qed.

(** All packets leave in the order they were queued, and the task stops. *)
Lemma arbiter_sends i pkts : ∀ h q,
  h_qps h !! i = Some q → qp_send_pkts q = pkts →
  rdev_arbiter (h_dev h) = (if bool_decide (pkts = []) then [] else [i]) →
  qp_on_arbiter q = negb (bool_decide (pkts = [])) →
  h_send h = [] → qp_valid q = true → Forall (ready_for q) pkts →
  ∃ h', arbiter_task (S (length pkts)) h = Some h' ∧ flushed_out i q h h'.
Proof.
  induction pkts as [|pkt pkts IH]; intros h q Hq Hp Hl Hon Hs Hv Hr.
  - cbn [length arbiter_task]. unfold host_arbiter, rxe_arbiter. cbn [arb_dev]. rewrite Hl. cbn.
    eexists. split; [reflexivity|]. split.
    + exists (qp_req_skb_out q), (qp_resp_skb_out q). cbn. symmetry. apply insert_id. rewrite Hq. f_equal.
      cbn in Hon. destruct q. cbn in *. by subst.
    + exists (rdev_req_skb_out (h_dev h)), (rdev_resp_skb_out (h_dev h)). cbn in *. destruct (h_dev h). cbn in *. by subst.
    + done.
    + exists []. cbn. by rewrite app_nil_r.
  - cbn [bool_decide] in *. apply Forall_cons_1 in Hr as [Hr1 Hr].
    destruct (host_arbiter_sends h i q pkt pkts) as (a & b & c & d & l & E & Hw); [done..|].
    set (h1 := h <| h_dev ::= _ |> <| h_qps ::= _ |> <| h_ev ::= _ |>) in E.
    set (q1 := q <| qp_send_pkts := pkts |> <| qp_on_arbiter := _ |> <| qp_req_skb_out := c |> <| qp_resp_skb_out := d |>) in h1.
    destruct (IH h1 q1) as (h' & E' & [(a1 & b1 & F1) (a2 & b2 & F2) F3 (l' & F4 & F5)]).
    + apply lookup_insert_eq.
    + done.
    + cbn. by destruct (bool_decide (pkts = [])).
    + done.
    + exact Hs.
    + exact Hv.
    + exact Hr.
    + exists h'. split.
      { change (arbiter_task (S (length (pkt :: pkts))) h) with
          ('(ret, h) ← host_arbiter h; if ret =? 0 then arbiter_task (S (length pkts)) h else Some h).
        rewrite E. exact E'. }
      split.
      * exists a1, b1. rewrite F1. unfold h1. cbn [h_qps upd_field]. rewrite insert_insert_eq. done.
      * exists a2, b2. rewrite F2. done.
      * exact F3.
      * eexists. split; [rewrite F4; unfold h1; cbn [h_ev upd_field]; by rewrite <- app_assoc|].
        rewrite omap_app, F5, Hp. change (omap on_wire (HQp i <$> EvSent pkt :: l)) with (pkt :: omap on_wire (HQp i <$> l)).
        by rewrite Hw.
Qed.
End sending.

(** ** Addresses *)

(** One side of a connection: the number of the queue pair, its GID and its
    partition key. *)
Record endpoint := Endpoint { ep_qpn : Z; ep_prefix : Z; ep_guid : Z; ep_pkey : Z }.

(** Neither a special queue pair nor a reserved or multicast GID. *)
Record endpoint_ok (e : endpoint) : Prop := {
  eo_qpn : 1 < ep_qpn e < IB_MULTICAST_QPN;
  eo_prefix : 0 ≤ ep_prefix e < 0xff * 2 ^ 56;
  eo_guid : 0 ≤ ep_guid e < 2 ^ 64;
  eo_global : ep_prefix e ≠ 0 ∨ 1 < ep_guid e;
  eo_pkey : 0 ≤ ep_pkey e < 2 ^ 16
}.

(** The queue pair [q], on port [num], is [self] and connected to [peer]. *)
Record attached (num : Z) (d : rxe_dev) (q : rxe_qp) (self peer : endpoint) : Prop := {
  at_valid : qp_valid q = true;
  at_type : qp_qp_type q = IB_QPT_RC;
  at_qpn : qp_qp_num q = ep_qpn self;
  at_dest : qa_dest_qp_num (qp_attr q) = ep_qpn peer;
  at_num : qa_port_num (qp_attr q) = num;
  at_port : ∃ port, rdev_ports d !! Z.to_nat (num - 1) = Some port ∧ port_subnet_prefix port = ep_prefix self ∧
    port_guid_tbl port !! Z.to_nat (ah_sgid_index (av_attr (qp_pri_av q))) = Some (ep_guid self) ∧
    port_pkey_tbl port !! Z.to_nat (qa_pkey_index (qp_attr q)) = Some (ep_pkey self);
  at_global : flag_set (ah_ah_flags (av_attr (qp_pri_av q))) IB_AH_GRH = true;
  at_gid : ah_dgid_prefix (av_attr (qp_pri_av q)) = ep_prefix peer ∧ ah_dgid_guid (av_attr (qp_pri_av q)) = ep_guid peer
}.

(** The route from one to the other. *)
Definition between (src dst : endpoint) (paylen : Z) : grh_fields :=
  GrhFields GRH_IPV6 GRH_RXE_NEXT_HDR paylen (ep_prefix src) (ep_guid src) (ep_prefix dst) (ep_guid dst)
    (ep_prefix src / 2 ^ 56).

(** A packet of a reliable connection on its way from [src] to [dst]. *)
Record on_the_way (src dst : endpoint) (key op : Z) (pkt : rxe_pkt_info) : Prop := {
  ow_reliable : 0 ≤ op < 2 ^ 5;
  ow_opcode : pkt_opcode pkt = op ∧ bth_opcode pkt = op;
  ow_offset : pkt_offset pkt = RXE_GRH_BYTES;
  ow_grh : grh_view (pkt_hdr pkt) = between src dst (pkt_paylen pkt);
  ow_tver : bth_tver pkt = BTH_TVER;
  ow_qpn : bth_qpn pkt = ep_qpn dst;
  ow_pkey : bth_pkey pkt = key;
  ow_length : RXE_GRH_BYTES + opcode_length op ≤ Z.of_nat (length (pkt_hdr pkt))
}.

(** ** Receiving *)

(** The packet after [rxe_rcv] has filled in what it knows about it. *)
Definition arrived (num k : Z) (pkt : rxe_pkt_info) : rxe_pkt_info :=
  pkt <| pkt_mask := RXE_GRH_MASK .| opcode_mask (bth_opcode pkt) |> <| pkt_psn := bth_psn pkt |>
      <| pkt_port_num := num |> <| pkt_pkey_index := k |>.

(** The bytes of a packet come in on port [num]; [junk] and [stale] are what
    the control block of the new buffer happens to contain. *)
Definition arrive (num : Z) (stale : bool) (junk pkt : rxe_pkt_info) (h : host) : option host :=
  rxe_net_rcv true true false false stale (Z.of_nat (length (pkt_hdr pkt))) num (pkt_hdr pkt) junk h.

Fixpoint arrive_all (num : Z) (stale : bool) (junk : rxe_pkt_info) (pkts : list rxe_pkt_info) (h : host) : option host :=
  match pkts with
  | [] => Some h
  | pkt :: pkts => h ← arrive num stale junk pkt h; arrive_all num stale junk pkts h
  end.

Lemma arrived_parsed src dst key op num junk pkt k :
  on_the_way src dst key op pkt →
  parsed (junk <| pkt_port_num := num |> <| pkt_hdr := pkt_hdr pkt |> <| pkt_mask := RXE_GRH_MASK |>)
    <| pkt_pkey_index := k |> = arrived num k pkt.
Proof.
  intros [_ [E1 E2] Ho Hg _ _ _ _]. apply (f_equal g_paylen) in Hg. cbn in Hg. destruct pkt as [hd ma ps pk pl pn opc off].
  unfold bth_opcode in E2. cbn in *. subst opc off pl. rewrite <- E2. reflexivity.
Qed.

Lemma arrive_facts src dst key op num junk pkt port :
  endpoint_ok dst → on_the_way src dst key op pkt → RXE_BTH_BYTES ≤ opcode_length op →
  let p := junk <| pkt_port_num := num |> <| pkt_hdr := pkt_hdr pkt |> <| pkt_mask := RXE_GRH_MASK |> in
  whole (Z.of_nat (length (pkt_hdr pkt))) p ∧ bth_qpn (parsed p) = ep_qpn dst ∧
  dest_index port (parsed p) = ep_qpn dst ∧ bth_pkey (parsed p) = key ∧ bth_tver (parsed p) = BTH_TVER.
Proof.
  intros Hok Hw Hln p. pose proof (arrived_parsed src dst key op num junk pkt 0 Hw) as E0. fold p in E0.
  set (pp := parsed p) in *. destruct Hw as [_ [Eo1 _] Hof _ Ht Hq Hk Hl].
  assert (Hqn : bth_qpn pp = ep_qpn dst).
  { rewrite <- Hq. change (bth_qpn pp) with (bth_qpn (pp <| pkt_pkey_index := 0 |>)). by rewrite E0. }
  split.
  { split; [unfold RXE_GRH_BYTES, RXE_BTH_BYTES in *; lia|]. fold pp. unfold header_size.
    replace (pkt_offset pp) with (pkt_offset (arrived num 0 pkt)) by by rewrite <- E0.
    replace (pkt_opcode pp) with (pkt_opcode (arrived num 0 pkt)) by by rewrite <- E0.
    cbn [pkt_offset pkt_opcode arrived upd_field]. by rewrite Eo1, Hof. }
  split; [exact Hqn|]. split.
  { unfold dest_index. rewrite Hqn. pose proof (eo_qpn _ Hok). destruct (Z.eqb_spec (ep_qpn dst) 0); [lia|].
    destruct (Z.eqb_spec (ep_qpn dst) 1); [lia|]. done. }
  split.
  - rewrite <- Hk. change (bth_pkey pp) with (bth_pkey (pp <| pkt_pkey_index := 0 |>)). by rewrite E0.
  - rewrite <- Ht. change (bth_tver pp) with (bth_tver (pp <| pkt_pkey_index := 0 |>)). by rewrite E0.
Qed.

Lemma attached_ext num d d' q q' self peer :
  rdev_ports d' = rdev_ports d → qp_valid q' = qp_valid q → qp_qp_type q' = qp_qp_type q → qp_qp_num q' = qp_qp_num q →
  qp_attr q' = qp_attr q → qp_pri_av q' = qp_pri_av q → attached num d q self peer → attached num d' q' self peer.
Proof. intros E1 E2 E3 E4 E5 E6 []. split; rewrite ?E1, ?E2, ?E3, ?E4, ?E5, ?E6; done. Qed.

(** The queue pair with packets that came in. *)
Definition with_rx (q : rxe_qp) (reqs resps : list rxe_pkt_info) (n : Z) : rxe_qp :=
  q <| qp_ref := qp_ref q + Z.of_nat (length reqs + length resps) |> <| qp_req_skb_in := n |>
    <| qp_req_pkts := qp_req_pkts q ++ reqs |> <| qp_resp_pkts := qp_resp_pkts q ++ resps |>.

Record taken_in (i : Z) (q : rxe_qp) (reqs resps : list rxe_pkt_info) (h h' : host) : Prop := {
  ti_qps : ∃ n, h_qps h' = <[i := with_rx q reqs resps n]> (h_qps h);
  ti_dev : ∃ a b, h_dev h' = h_dev h <| rdev_req_skb_in := a |> <| rdev_resp_skb_in := b |>;
  ti_rest : h_mcgs h' = h_mcgs h ∧ h_alloc h' = h_alloc h ∧ h_send h' = h_send h ∧ h_jiffies h' = h_jiffies h;
  ti_ev : ∃ l, h_ev h' = h_ev h ++ l ∧ omap on_wire l = []
}.

Lemma taken_nil i q h : h_qps h !! i = Some q → taken_in i q [] [] h h.
Proof.
  intros Hq. split.
  - exists (qp_req_skb_in q). symmetry. apply insert_id. rewrite Hq. f_equal. unfold with_rx.
    rewrite !app_nil_r. change (Z.of_nat _) with 0. rewrite Z.add_0_r. by destruct q.
  - exists (rdev_req_skb_in (h_dev h)), (rdev_resp_skb_in (h_dev h)). destruct h as [[] qps g al se j ev]. reflexivity.
  - done.
  - exists []. by rewrite app_nil_r.
Qed.

Lemma queued_taken i q pkt h :
  taken_in i q (if is_request pkt then [pkt] else []) (if is_request pkt then [] else [pkt]) h (queued_on i q pkt h).
Proof.
  unfold queued_on. destruct (is_request pkt); split.
  - exists (qp_req_skb_in q + 1). unfold with_rx. rewrite app_nil_r. by destruct q.
  - exists (rdev_req_skb_in (h_dev h) + 1), (rdev_resp_skb_in (h_dev h)). destruct h as [[] qps g al se j ev]. reflexivity.
  - done.
  - by eexists.
  - exists (qp_req_skb_in q). unfold with_rx. rewrite app_nil_r. by destruct q.
  - exists (rdev_req_skb_in (h_dev h)), (rdev_resp_skb_in (h_dev h) + 1). destruct h as [[] qps g al se j ev]. reflexivity.
  - done.
  - by eexists.
Qed.

Lemma taken_trans i q n r1 s1 r2 s2 h h1 h2 :
  h_qps h1 = <[i := with_rx q r1 s1 n]> (h_qps h) → taken_in i q r1 s1 h h1 →
  taken_in i (with_rx q r1 s1 n) r2 s2 h1 h2 → taken_in i q (r1 ++ r2) (s1 ++ s2) h h2.
Proof.
  intros E [_ (a1 & b1 & D1) (R1 & R2 & R3 & R4) (l1 & V1 & W1)] [(n2 & Q2) (a2 & b2 & D2) (R1' & R2' & R3' & R4') (l2 & V2 & W2)].
  split.
  - exists n2. rewrite Q2, E, insert_insert_eq. f_equal. unfold with_rx at 1 3.
    change (qp_ref (with_rx q r1 s1 n)) with (qp_ref q + Z.of_nat (length r1 + length s1)).
    change (qp_req_pkts (with_rx q r1 s1 n)) with (qp_req_pkts q ++ r1).
    change (qp_resp_pkts (with_rx q r1 s1 n)) with (qp_resp_pkts q ++ s1).
    rewrite <- !app_assoc. replace (qp_ref q + Z.of_nat (length r1 + length s1) + Z.of_nat (length r2 + length s2))
      with (qp_ref q + Z.of_nat (length (r1 ++ r2) + length (s1 ++ s2))) by (rewrite !length_app; lia).
    by destruct q.
  - exists a2, b2. rewrite D2, D1. by destruct (h_dev h).
  - split; [congruence|]. split; [congruence|]. split; congruence.
  - exists (l1 ++ l2). rewrite V2, V1, app_assoc, omap_app, W1, W2. done.
Qed.

Section receiving.
Context (num : Z) (self peer : endpoint) (Hself : endpoint_ok self) (Hpeer : endpoint_ok peer).
Context (key : Z) (Hkey : pkey_match key (ep_pkey self) = true).

(** A packet from the other side is accepted. *)
Lemma arrived_accepted d q port pkt op k :
  attached num d q self peer → rdev_ports d !! Z.to_nat (num - 1) = Some port → on_the_way peer self key op pkt →
  k = qa_pkey_index (qp_attr q) →
  (if flag_set (opcode_mask op) RXE_REQ_MASK then resp_state (qp_resp q) else req_state (qp_req q)) = QP_STATE_READY →
  accepts port (arrived num 0 pkt) q k.
Proof using Hself Hpeer Hkey.
  intros [Hv Hty _ Hdest Hnum (port' & Hp & Hpre & Hguid & Hpk) Hgl [Hgp Hgg]] Hport [Hrc [Eo1 Eo2] Hof Hg Htv Hq Hke Hln] -> Hst.
  assert (port' = port) as -> by congruence. clear Hp.
  pose proof (f_equal g_ipver Hg) as G1. pose proof (f_equal g_next_hdr Hg) as G2. pose proof (f_equal g_sgid_prefix Hg) as G4.
  pose proof (f_equal g_sgid_guid Hg) as G5. pose proof (f_equal g_dgid_prefix Hg) as G6.
  pose proof (f_equal g_dgid_guid Hg) as G7. pose proof (f_equal g_sgid_top Hg) as G8. cbn in G1, G2, G4, G5, G6, G7, G8.
  assert (Hgo : grh_offset (arrived num 0 pkt) = 0) by (unfold grh_offset; cbn; by rewrite Hof).
  destruct Hself as [S1 S2 S3 S4 S5], Hpeer as [P1 P2 P3 P4 P5].
  assert (Hlocal : ∀ e o, 0 ≤ ep_guid e → ep_prefix e ≠ 0 ∨ 1 < ep_guid e →
    load_be64 (pkt_hdr pkt) o = ep_prefix e → load_be64 (pkt_hdr pkt) (o + 8) = ep_guid e →
    gid_local (arrived num 0 pkt) o = false).
  { intros e o H0 Hgl' E1 E2. unfold gid_local, gid_prefix, gid_guid. cbn. rewrite E1, E2.
    destruct (Z.eqb_spec (ep_prefix e) 0); [|done]. cbn. apply Z.leb_gt. lia. }
  split.
  - done.
  - unfold transport, qp_type. rewrite Hty. change (IB_QPT_RC =? IB_QPT_RC) with true. cbn [pkt_opcode arrived upd_field].
    rewrite Eo1, Z.shiftr_div_pow2, Z.div_small by lia. done.
  - unfold is_request. cbn [pkt_mask arrived upd_field]. rewrite Eo2, flag_set_lor.
    change (flag_set RXE_GRH_MASK RXE_REQ_MASK) with false. cbn [orb].
    destruct (flag_set (opcode_mask op) RXE_REQ_MASK); [done|]. rewrite Hst. by left.
  - unfold grh_next_hdr, grh_ipver. rewrite Hgo. done.
  - intros _. split; unfold grh_sgid, grh_dgid, __grh_sgid, __grh_dgid; rewrite ?Hgo; cbn [Z.add].
    + done.
    + done.
    + split; [eapply (Hlocal self); [lia|done|done|done]|]. split; [eapply (Hlocal peer); [lia|done|done|done]|].
      intros E. change (load_u8 (pkt_hdr pkt) 8 = 0xff) in E. rewrite G8 in E. assert (ep_prefix peer / 2 ^ 56 < 0xff); [|lia].
      apply Z.div_lt_upper_bound; lia.
    + rewrite Hguid. f_equal. symmetry. exact G7.
    + rewrite Hgg. exact G5.
  - assert (Hqn : bth_qpn (arrived num 0 pkt) = ep_qpn self) by exact Hq.
    assert (Hkn : bth_pkey (arrived num 0 pkt) = key) by exact Hke. rewrite Hqn. split.
    + unfold pkey_entry. rewrite Hkn. destruct (Z.eqb_spec (ep_qpn self) 1); [lia|].
      destruct (Z.eqb_spec (ep_qpn self) 0); [lia|]. cbn [negb]. rewrite Hpk. cbn. by rewrite Hkey.
    + unfold qp_type. rewrite Hty. done.
Qed.

(** Every packet from the other side ends up in the right queue. *)
Lemma arrive_queued stale junk h q pkt op :
  attached num (h_dev h) q self peer → h_qps h !! ep_qpn self = Some q → on_the_way peer self key op pkt →
  RXE_BTH_BYTES ≤ opcode_length op →
  (if flag_set (opcode_mask op) RXE_REQ_MASK then resp_state (qp_resp q) else req_state (qp_req q)) = QP_STATE_READY →
  arrive num stale junk pkt h =
    Some (queued_on (ep_qpn self) q (arrived num (qa_pkey_index (qp_attr q)) pkt) h).
Proof using Hself Hpeer Hkey.
  intros Ha Hq Hw Hln Hst. pose proof (at_port _ _ _ _ _ Ha) as (port & Hport & _ & Hguid & Hpk).
  set (p := junk <| pkt_port_num := num |> <| pkt_hdr := pkt_hdr pkt |> <| pkt_mask := RXE_GRH_MASK |>).
  pose proof (arrived_accepted _ q port pkt op _ Ha Hport Hw eq_refl Hst) as Hacc.
  assert (Eq : ∀ k, parsed p <| pkt_pkey_index := k |> = arrived num k pkt) by (intros k; eapply arrived_parsed, Hw).
  destruct (arrive_facts peer self key op num junk pkt port Hself Hw Hln) as (Hwh & Hqn & Hdi & _ & Htv).
  pose proof (Eq 0) as E0. fold p in Hwh, Hqn, Hdi, Htv.
  unfold arrive, rxe_net_rcv. cbn [negb orb]. fold p.
  rewrite (rcv_admitted stale _ p h port q (qa_pkey_index (qp_attr q))).
  - by rewrite Hdi, Eq.
  - done.
  - exact Hwh.
  - exact Hport.
  - split; [by rewrite Hpk|by rewrite Hguid].
  - rewrite Hqn. pose proof (eo_qpn _ Hself). lia.
  - split; [exact Htv|]. split; [by rewrite Hdi|].
    rewrite <- E0 in Hacc. destruct Hacc as [A1 A2 A3 A4 A5 A6]. split; [exact A1|exact A2|exact A3|exact A4| |exact A6].
    intros Hty. destruct (A5 Hty) as [C1 C2 C3 C4 C5]. split; [exact C1|exact C2|exact C3|exact C4|exact C5].
Qed.

(** The packets of one kind from the other side, in the order they arrive. *)
Lemma arrive_all_queued stale junk req pkts : ∀ h q,
  attached num (h_dev h) q self peer → h_qps h !! ep_qpn self = Some q →
  Forall (λ pkt, ∃ op, on_the_way peer self key op pkt ∧ RXE_BTH_BYTES ≤ opcode_length op ∧
    flag_set (opcode_mask op) RXE_REQ_MASK = req) pkts →
  (if req : bool then resp_state (qp_resp q) else req_state (qp_req q)) = QP_STATE_READY →
  let l := arrived num (qa_pkey_index (qp_attr q)) <$> pkts in
  ∃ h', arrive_all num stale junk pkts h = Some h' ∧
    taken_in (ep_qpn self) q (if req then l else []) (if req then [] else l) h h'.
Proof using Hself Hpeer Hkey.
  induction pkts as [|pkt pkts IH]; intros h q Ha Hq Hall Hst l.
  { exists h. split; [done|]. unfold l. destruct req; by apply taken_nil. }
  apply Forall_cons_1 in Hall as [(op & Hw & Hln & Hrq) Hall]. cbn [arrive_all].
  rewrite (arrive_queued stale junk h q pkt op) by (try done; by rewrite Hrq). cbn [mbind option_bind].
  set (p := arrived num (qa_pkey_index (qp_attr q)) pkt) in *.
  assert (Hisr : is_request p = req).
  { unfold is_request, p, arrived. cbn. by rewrite (proj2 (ow_opcode _ _ _ _ _ Hw)), flag_set_lor, Hrq. }
  pose proof (queued_taken (ep_qpn self) q p h) as Ht. rewrite Hisr in Ht.
  pose proof (ti_qps _ _ _ _ _ _ Ht) as (n & Eq). pose proof (ti_dev _ _ _ _ _ _ Ht) as (a & b & Ed).
  destruct (IH (queued_on (ep_qpn self) q p h) (with_rx q (if req then [p] else []) (if req then [] else [p]) n))
    as (h' & E & Ht').
  - eapply attached_ext; [..|exact Ha]; try done. by rewrite Ed.
  - rewrite Eq. apply lookup_insert_eq.
  - done.
  - by destruct req.
  - exists h'. split; [exact E|]. pose proof (taken_trans _ _ _ _ _ _ _ _ _ _ Eq Ht Ht') as H. by destruct req.
Qed.
End receiving.
