(* ===== verification/Path.v ===== *)
(** * A message from one host to another and back

    Two queue pairs of two hosts are connected to each other. This file follows
    a work request through all parts of the program: the requester and the
    arbiter of the first host, the network, the reception and the responder of
    the second one, and the acknowledgements back to the completer. *)

From stdpp Require Import gmap.
From S2P Require Import Prelude Bits Queue Opcode Hdr Verbs Mr Cq State Comp Arbiter Req ReqPacket Message.
From S2P Require Import Resp Ack RespSteps Deliver DeliverWrite DeliverSend Host Recv CompTask Wire.

(** ** Tasks *)

Lemma do_task_more func n m s r :
  __rxe_do_task func n s = Some r → (n ≤ m)%nat → __rxe_do_task func m s = Some r.
Proof.
  revert m s. induction n as [|n IH]; intros m s E Hm; [done|]. destruct m as [|m]; [lia|].
  cbn [__rxe_do_task] in *. unfold mbind, eng_bind in *. destruct (func s) as [[[u|e] s1]|]; [|done..].
  apply IH; [done|lia].
Qed.

Section path.
Context `{Params}.

Lemma arbiter_task_more n m h h' : arbiter_task n h = Some h' → (n ≤ m)%nat → arbiter_task m h = Some h'.
Proof.
  revert m h. induction n as [|n IH]; intros m h E Hm; [done|]. destruct m as [|m]; [lia|].
  cbn [arbiter_task] in *. destruct (host_arbiter h) as [[ret h1]|]; [|done]. cbn in *.
  destruct (ret =? 0); [|done]. apply IH; [done|lia].
Qed.

(** The requester's task: the calls that send, and the one that finds no more
    to do. *)
Lemma requester_task depth fuel e n : ∀ s s' s'',
  requester_calls depth fuel n s = Some (Ok tt, s') → rxe_requester depth fuel s' = Some (Err e, s'') →
  __rxe_do_task (rxe_requester depth fuel) (S n) s = Some (tt, s'').
Proof.
  induction n as [|n IH]; intros s s' s'' E E'.
  - cbn in E. injection E as <-. cbn [__rxe_do_task]. unfold mbind, eng_bind. by rewrite E'.
  - cbn [requester_calls] in E. unfold mbind, eng_bind in E. destruct (rxe_requester depth fuel s) as [[[[]|] s1]|] eqn:E1; try done.
    change (__rxe_do_task (rxe_requester depth fuel) (S (S n)) s) with
      ((r ← rxe_requester depth fuel; match r with Ok _ => __rxe_do_task (rxe_requester depth fuel) (S n) | Err _ => mret tt end) s).
    unfold mbind, eng_bind. rewrite E1. by eapply IH.
Qed.

Lemma requester_idle depth fuel s :
  qp_valid (es_qp s) = true → req_state (qp_req (es_qp s)) = QP_STATE_READY →
  req_need_retry (qp_req (es_qp s)) = false → req_wqe_index (qp_req (es_qp s)) = producer_index (qp_sq (es_qp s)) →
  rxe_requester depth fuel s = Some (Err EAGAIN, s).
Proof.
  intros Hv Hst Hr Hi. destruct (wp_total (rxe_requester depth fuel) (λ r s', r = Err EAGAIN ∧ s' = s) s) as (r & s' & E & -> & ->); [|done].
  unfold rxe_requester. wp_run. rewrite Hv, Hst. cbn [negb orb]. rewrite !bool_decide_eq_false_2 by done. wp_run.
  rewrite Hr. wp_run. unfold req_next_wqe, req_check_drained. wp_run. rewrite Hst, bool_decide_eq_false_2 by done.
  wp_run. rewrite Hi, Z.eqb_refl. by wp_run.
Qed.
End path.

(** ** Packets on the way *)

Definition as_sender (e : endpoint) : sender := Sender (ep_pkey e) (ep_prefix e) (ep_guid e).

Section packets_there.
Context (A B : endpoint) (HA : endpoint_ok A) (HB : endpoint_ok B) (num : Z) (d : rxe_dev) (q : rxe_qp).
Context (Hat : attached num d q A B).
Context (wr : ib_send_wr) (ops : Z * Z * Z * Z) (iova psn0 : Z) (data : list Z).
Context (Hops : rc_opcodes (wr_opcode wr) = Some ops) (Hmtu : 0 < qp_mtu_bytes q ≤ 2 ^ 13).

Local Abbreviation mtu := (qp_mtu_bytes q).
Local Abbreviation total := (Z.of_nat (length data)).
Local Abbreviation n := (packets total mtu).
Local Abbreviation psn i := ((psn0 + Z.of_nat i) mod 2 ^ 24).

Lemma route_between paylen : route (as_sender A) (av_attr (qp_pri_av q)) paylen = between A B paylen.
Proof using HA HB Hat.
  destruct HA as [_ A2 A3 _ _], HB as [_ B2 B3 _ _]. destruct Hat as [_ _ _ _ _ _ _ [G1 G2]].
  unfold route, between, as_sender. cbn [snd_prefix snd_guid]. rewrite G1, G2. unfold u64, u8.
  assert (0 ≤ ep_prefix A / 2 ^ 56 < 2 ^ 8) by (split; [apply Z.div_pos; lia|apply Z.div_lt_upper_bound; lia]).
  by rewrite (Z.mod_small (ep_prefix A)), (Z.mod_small (ep_guid A)), (Z.mod_small (ep_prefix B)), (Z.mod_small (ep_guid B)),
    (Z.mod_small (_ / _)) by lia.
Qed.

Lemma carries_on_the_way i pkt :
  (i < n)%nat → carries q wr ops iova (as_sender A) psn0 data i pkt →
  on_the_way A B (ep_pkey A) (message_opcode ops i n) pkt ∧
  RXE_BTH_BYTES ≤ opcode_length (message_opcode ops i n) ∧
  flag_set (opcode_mask (message_opcode ops i n)) RXE_REQ_MASK = true.
Proof using HA HB Hat Hops Hmtu.
  intros Hi (Ho & Hp & Hq & Hk & _ & _ & _ & _ & _ & [F1 F2 F3 F4 F5 F6 F7]).
  destruct (message_opcode_flags _ _ Hops n (packets_pos _ _) i Hi) as (Hop & _).
  pose proof (message_opcode_spec _ Hop) as Hf. rewrite route_between in F7.
  assert (Hrc : 0 ≤ message_opcode ops i n < 2 ^ 5 ∧ flag_set (opcode_mask (message_opcode ops i n)) RXE_REQ_MASK = true).
  { repeat (apply elem_of_cons in Hop as [->|Hop]; [vm_compute; split; [split; congruence|done]|]). by apply not_elem_of_nil in Hop. }
  destruct Hrc as [Hrc Hrq]. split; [split|split; [|done]]; try done.
  - rewrite Hq, (at_dest _ _ _ _ _ Hat). apply Z.mod_small. pose proof (eo_qpn _ HB). unfold IB_MULTICAST_QPN in *. lia.
  - rewrite Hk. unfold u16. cbn. apply Z.mod_small. apply HA.
  - rewrite F4, F3. pose proof (pad_range (Z.of_nat (length (chunk mtu data i)))). unfold RXE_ICRC_SIZE. lia.
  - destruct Hf. unfold RXE_BTH_BYTES. lia.
Qed.

(** What arrives is a packet of the message. *)
Lemma carries_incoming i k numB pkt :
  (i < n)%nat → carries q wr ops iova (as_sender A) psn0 data i pkt →
  incoming (message_opcode ops i n) (psn i) (chunk mtu data i) (arrived numB k pkt).
Proof using HA HB Hat Hops Hmtu.
  intros Hi Hc. pose proof Hc as (Ho & Hp & Hq & Hk & _ & _ & _ & Hsz & Hby & [F1 F2 F3 F4 F5 F6 F7]).
  split.
  - exact F1.
  - exists RXE_GRH_MASK. split; [by left|]. cbn. by rewrite Ho.
  - exact Hp.
  - exact F2.
  - exact Hsz.
  - exact F6.
  - change (payload_addr pkt + payload_size pkt ≤ Z.of_nat (length (pkt_hdr pkt))).
    destruct (message_opcode_flags _ _ Hops n (packets_pos _ _) i Hi) as (Hop & _).
    rewrite Hsz, F4, F3. unfold payload_addr, ext_offset. rewrite F1, F2, (mo_payload _ (message_opcode_spec _ Hop)).
    pose proof (pad_range (Z.of_nat (length (chunk mtu data i)))). unfold RXE_ICRC_SIZE. lia.
  - exact Hby.
Qed.
End packets_there.

(** ** The way back *)

Section packets_back.
Context (A B : endpoint) (HA : endpoint_ok A) (HB : endpoint_ok B) (numB kB : Z).

Lemma answer_back q key op req psn ack :
  on_the_way A B key op req → qa_dest_qp_num (qp_attr q) = ep_qpn A → 0 ≤ psn < 2 ^ 24 →
  answer q (arrived numB kB req) IB_OPCODE_RC_ACKNOWLEDGE 0 psn AETH_ACK_UNLIMITED ack →
  on_the_way B A key IB_OPCODE_RC_ACKNOWLEDGE ack ∧ flag_set (pkt_mask ack) RXE_REQ_MASK = false ∧
  ∀ num k, acknowledges psn (arrived num k ack).
Proof using HA HB.
  intros [_ _ _ Hg Htv _ Hk _] Hd Hp [N1 (x & Hx & N2) N3 N4 N5 N6 (B1 & B2 & B3 & B4) Nae _ (T1 & T2 & T3)].
  pose proof (eo_qpn _ HA) as Hq. destruct HA as [_ A2 A3 _ _], HB as [_ B5 B6 _ _].
  assert (Hback : way_back (grh_view (pkt_hdr req)) (pkt_paylen ack) = between B A (pkt_paylen ack)).
  { rewrite Hg. unfold way_back, between. cbn [g_ipver g_next_hdr g_dgid_prefix g_dgid_guid g_sgid_prefix g_sgid_guid].
    assert (0 ≤ ep_prefix B / 2 ^ 56 < 2 ^ 8) by (split; [apply Z.div_pos; lia|apply Z.div_lt_upper_bound; lia]).
    unfold u64, u8.
    by rewrite (Z.mod_small (ep_prefix A)), (Z.mod_small (ep_guid A)), (Z.mod_small (ep_prefix B)), (Z.mod_small (ep_guid B)),
      (Z.mod_small (_ / _)) by lia. }
  split; [|split].
  - split; try done.
    + by rewrite T3.
    + rewrite T1. exact Htv.
    + rewrite B4, Hd. apply Z.mod_small. unfold IB_MULTICAST_QPN in *. lia.
    + rewrite T2. exact Hk.
    + rewrite N6, N5. pose proof (pad_range 0). unfold RXE_ICRC_SIZE. lia.
  - rewrite N2, link_mask_flag by done. reflexivity.
  - intros num k. destruct Nae as [Hs _]; [reflexivity|]. split.
    + exact N1.
    + cbn. by rewrite B1.
    + cbn. by rewrite B1.
    + change (aeth_syn (arrived num k ack)) with (aeth_syn ack). by rewrite Hs.
    + change (bth_psn ack = psn). rewrite B2. by apply Z.mod_small.
Qed.

(** The acknowledgements of a message. *)
Lemma acknowledged_back key attr psn0 num k : ∀ (pkts : list rxe_pkt_info) (i : nat) (acks : list rxe_pkt_info),
  qa_dest_qp_num attr = ep_qpn A → pkts ≠ [] →
  (∀ j pkt, pkts !! j = Some pkt → (∃ op, on_the_way A B key op pkt) ∧
     pkt_psn (arrived numB kB pkt) = (psn0 + Z.of_nat (i + j)) mod 2 ^ 24 ∧ (S j = length pkts → bth_ack pkt = 1)) →
  acknowledged attr (arrived numB kB <$> pkts) acks →
  Forall (λ ack, on_the_way B A key IB_OPCODE_RC_ACKNOWLEDGE ack ∧ flag_set (pkt_mask ack) RXE_REQ_MASK = false) acks ∧
  acks ≠ [] ∧ ∃ ls : list (list rxe_pkt_info), acks = concat ls ∧ length ls = length pkts ∧ answered psn0 i (map (map (arrived num k)) ls).
Proof using HA HB.
  induction pkts as [|pkt pkts IH]; intros i acks Hd Hne Hall (ls & -> & Hf); [done|].
  cbn [fmap list_fmap] in Hf. inversion Hf as [|p l ps ls' (q & Hq & Hl) Hf']; subst. clear Hf.
  destruct (Hall 0%nat pkt eq_refl) as ((op & Hw) & Hps & Hlast). rewrite Nat.add_0_r in Hps.
  assert (Hhead : Forall (λ ack, on_the_way B A key IB_OPCODE_RC_ACKNOWLEDGE ack ∧ flag_set (pkt_mask ack) RXE_REQ_MASK = false) l ∧
    (l = [] ∧ pkts ≠ [] ∨ ∃ ack, l = [ack] ∧ acknowledges ((psn0 + Z.of_nat i) mod 2 ^ 24) (arrived num k ack))).
  { unfold acks_for in Hl. change (bth_ack (arrived numB kB pkt)) with (bth_ack pkt) in Hl.
    destruct (Z.eqb_spec (bth_ack pkt) 0) as [Hz|Hz].
    - subst l. split; [done|]. left. split; [done|]. intros ->. rewrite (Hlast eq_refl) in Hz. done.
    - destruct Hl as (ack & -> & Ha). rewrite Hps in Ha.
      destruct (answer_back q key op pkt ((psn0 + Z.of_nat i) mod 2 ^ 24) ack Hw) as (H1 & H1' & H2); [congruence|apply Z.mod_pos_bound; lia|exact Ha|].
      split; [constructor; [done|constructor]|]. right. by exists ack. }
  destruct Hhead as [Hh1 Hh2]. destruct pkts as [|pkt' pkts].
  - inversion Hf'; subst. split; [by rewrite concat_cons, app_nil_r|].
    split; [destruct Hh2 as [[_ []]|(ack & -> & _)]; done|]. exists [l]. split; [done|]. split; [done|].
    cbn [map answered]. split; [|by left]. destruct Hh2 as [[_ []]|(ack & -> & Hk)]; [done|]. right. by exists (arrived num k ack).
  - destruct (IH (S i) (concat ls')) as (Hr1 & Hr0 & ls2 & E2 & L2 & Hr2); [done|done| |by exists ls'|].
    { intros j p Hj. destruct (Hall (S j) p Hj) as (G1 & G2 & G3). split; [done|].
      split; [by rewrite G2; do 3 f_equal; lia|]. intros Hl'. apply G3. cbn [length] in *. lia. }
    split; [rewrite concat_cons; by apply Forall_app|]. split; [rewrite concat_cons; intros [_ ?]%app_nil; done|]. exists (l :: ls2). split; [by rewrite !concat_cons, E2|].
    split; [cbn [length] in *; lia|]. cbn [map answered]. split; [|by right].
    destruct Hh2 as [[-> _]|(ack & -> & Hk)]; [left|right; by exists (arrived num k ack)].
    split; [done|]. intros E. apply (f_equal length) in E. rewrite length_map, L2 in E. done.
Qed.
End packets_back.

(** *** Limited members of a partition

    A limited member may talk to full members only. *)

Lemma limited_pkey key : 0 ≤ key < 2 ^ 15 → pkey_match key key = false.
Proof.
  intros Hk. unfold pkey_match. change 0x8000 with (2 ^ 15). rewrite flag_set_pow2 by lia.
  assert (E : Z.testbit key 15 = false) by (apply Z.bits_above_log2; [lia|]; destruct (decide (key = 0)) as [->|]; [done|]; apply Z.log2_lt_pow2; lia).
  by rewrite E, andb_false_r.
Qed.

(** The acknowledgement of a request has the partition key of the request,
    not the one of the queue pair that sends it. To a limited member of a
    partition, whose requests a full member accepts, no acknowledgement ever
    gets through: whatever acknowledgement of its own packet arrives is freed,
    and no queue pair has it. *)
Theorem limited_member_unanswered stale junk num h q qB A B numB kB op req psn ack :
  endpoint_ok A → endpoint_ok B → attached num (h_dev h) q A B → h_qps h !! ep_qpn A = Some q → ep_pkey A < 2 ^ 15 →
  on_the_way A B (ep_pkey A) op req → qa_dest_qp_num (qp_attr qB) = ep_qpn A → 0 ≤ psn < 2 ^ 24 →
  answer qB (arrived numB kB req) IB_OPCODE_RC_ACKNOWLEDGE 0 psn AETH_ACK_UNLIMITED ack →
  ∃ h' freed, arrive num stale junk ack h = Some h' ∧ h_qps h' = h_qps h ∧ h_ev h' = h_ev h ++ [HFree freed].
Proof.
  intros HA HB Hat Hq Hlim Hreq Hd Hp Ha.
  destruct (answer_back A B HA HB numB kB qB (ep_pkey A) op req psn ack Hreq Hd Hp Ha) as (Hw & _ & _).
  pose proof (at_port _ _ _ _ _ Hat) as (port & Hport & _ & Hguid & Hpk).
  destruct (arrive_facts B A (ep_pkey A) IB_OPCODE_RC_ACKNOWLEDGE num junk ack port HA Hw) as (Hwh & Hqn & Hdi & Hke & _); [done|].
  destruct (rcv_refused stale (Z.of_nat (length (pkt_hdr ack))) (junk <| pkt_port_num := num |> <| pkt_hdr := pkt_hdr ack |> <| pkt_mask := RXE_GRH_MASK |>)
    h port q) as (freed & port' & E).
  - done.
  - exact Hwh.
  - exact Hport.
  - split; [by rewrite Hpk|by rewrite Hguid].
  - rewrite Hqn. pose proof (eo_qpn _ HA). lia.
  - by rewrite Hdi.
  - intros k [_ _ _ _ _ [Hk _]]. rewrite Hqn, Hke in Hk. unfold pkey_entry in Hk. pose proof (eo_qpn _ HA).
    destruct (Z.eqb_spec (ep_qpn A) 1); [lia|]. destruct (Z.eqb_spec (ep_qpn A) 0); [lia|]. cbn [negb] in Hk.
    rewrite Hpk in Hk. cbn in Hk. rewrite limited_pkey in Hk; [done|]. pose proof (eo_pkey _ HA). lia.
  - eexists _, freed. split; [exact E|]. by split.
Qed.

(** A limited member with key 0x7fff, and the acknowledgement of one of its
    packets. *)
Definition example_limited : rxe_pkt_info :=
  let op := IB_OPCODE_RC_SEND_ONLY in
  let pkt := PktInfo (example_frame op 5 17 0x11 0x22 0 [1; 2; 3]) (RXE_GRH_MASK .| opcode_mask op) 5 0 20 1 op RXE_GRH_BYTES in
  bth_set_pkey pkt 0x7fff.

Definition example_limited_ack : rxe_pkt_info :=
  let q := example_qp (example_sq 0 0 []) [] 0 0 <| qp_attr ::= λ a, a <| qa_dest_qp_num := 16 |> |> in
  match send_ack (H := example_params) (arrived 1 0 example_limited) AETH_ACK_UNLIMITED 5 (example_es q) with
  | Some (_, s) => default example_limited (head (qp_send_pkts (es_qp s)))
  | None => example_limited
  end.

Lemma limited_member_unanswered_witness :
  let q := example_qp (example_sq 0 0 []) [] 0 0 in
  let h := Host (example_rdev <| rdev_ports := [Port 0 3 [0x7fff] [0x33] 0x11 4096 0 1 0 0] |>) {[16 := q]} ∅ [] [] 1000 [] in
  ∃ h' freed, arrive 1 true example_junk example_limited_ack h = Some h' ∧ h_qps h' = {[16 := q]} ∧ h_ev h' = [HFree freed].
Proof.
  intros q h.
  apply (limited_member_unanswered true example_junk 1 h q (q <| qp_attr ::= λ a, a <| qa_dest_qp_num := 16 |> |>)
    (Endpoint 16 0x11 0x33 0x7fff) (Endpoint 17 0x11 0x22 0xffff) 1 0 IB_OPCODE_RC_SEND_ONLY example_limited 5 example_limited_ack).
  - split; unfold IB_MULTICAST_QPN; cbn; lia.
  - split; unfold IB_MULTICAST_QPN; cbn; lia.
  - split; try reflexivity; [|by split]. eexists. repeat split; reflexivity.
  - reflexivity.
  - cbn. lia.
  - split; try (vm_compute; reflexivity); [split; vm_compute; congruence|split; vm_compute; reflexivity|vm_compute; discriminate].
  - reflexivity.
  - lia.
  - split; try (vm_compute; reflexivity).
    + exists RXE_GRH_MASK. split; [by left|vm_compute; reflexivity].
    + repeat split; vm_compute; reflexivity.
    + intros _. split; vm_compute; reflexivity.
    + vm_compute. discriminate.
    + repeat split; vm_compute; reflexivity.
Defined.

(** ** The sender *)

Section sender.
Context `{Params} (Hbypass : rxe_bypass_arbiter = false).
Context (A : endpoint) (k nc psn0 iova : Z) (wr : ib_send_wr) (ops : Z * Z * Z * Z) (data : list Z).
Context (w : rxe_send_wqe) (cl : list ib_wc).

Local Abbreviation total := (Z.of_nat (length data)).
Local Abbreviation psn i := ((psn0 + Z.of_nat i) mod 2 ^ 24).

(** The work request [w] is alone in the send queue and has not started; all
    earlier ones are acknowledged, and there is room for its completion. *)
Record posted (s : eng_state) : Prop := {
  po_midway : let sq := qp_sq (es_qp s) in
    midway (es_qp s) wr ops iova (as_sender A) psn0 (consumer_index sq) (consumer_addr sq) data 0 s;
  po_view : view k nc s [w] cl;
  po_credit : wqe_has_rd_atomic w = false;
  po_comp : comp_psn (qp_comp (es_qp s)) = psn 0 ∧ comp_opcode (qp_comp (es_qp s)) = -1;
  po_room : Z.of_nat (length cl + length (completions (es_qp s) [w])) ≤ nc;
  po_queues : qp_send_pkts (es_qp s) = [] ∧ qp_resp_pkts (es_qp s) = [];
  po_resp : resp_state (qp_resp (es_qp s)) = QP_STATE_READY;
  po_listed : listed s;
  po_wire : es_send s = [];
  po_mask : buf_index_mask (q_buf (qp_sq (es_qp s))) = q_index_mask (qp_sq (es_qp s))
}.

(** The message is out, the work request waits for its acknowledgement. *)
Record sent_out (s s' : eng_state) (pkts : list rxe_pkt_info) (w' : rxe_send_wqe) : Prop := {
  so_pkts : qp_send_pkts (es_qp s') = pkts;
  so_count : length pkts = packets total (qp_mtu_bytes (es_qp s));
  so_carries i pkt : pkts !! i = Some pkt → carries (es_qp s) wr ops iova (as_sender A) psn0 data i pkt;
  so_held : held (consumer_addr (qp_sq (es_qp s))) s s';
  so_view : view k nc s' [w'] cl;
  so_waiting : waiting w' ∧ wqe_last_psn w' = psn (packets total (qp_mtu_bytes (es_qp s)) - 1);
  so_same : wqe_ibwr w' = wr ∧ completions (es_qp s) [w'] = completions (es_qp s) [w]
}.

Lemma posted_ready s :
  posted s → req_state (qp_req (es_qp s)) = QP_STATE_READY ∧ req_need_retry (qp_req (es_qp s)) = false.
Proof using Type. intros Hp. by destruct (po_midway _ Hp) as [[] _ _ _]. Qed.

Context (Hops : rc_opcodes (wr_opcode wr) = Some ops) (Htotal : total < 2 ^ 31) (Hpsn0 : 0 ≤ psn0 < 2 ^ 24).

Lemma one_element q :
  queue_wf k q → buf_index_mask (q_buf q) = q_index_mask q → queue_list q = [w] →
  next_index q (consumer_index q) = producer_index q.
Proof using Type.
  clear Hops Htotal Hpsn0. intros Hwf Hb Hl. pose proof (queue_list_length k q Hwf) as Hc. rewrite Hl, (queue_count_mod k) in Hc by apply Hwf.
  pose proof Hwf as [Hg Hp Hco]. unfold next_index, consumer_index, producer_index in *. pose proof (geom_pow _ _ Hg).
  rewrite Hb, (geom_mask _ _ Hg), land_u32_mask by (destruct Hg; lia). cbn [length] in Hc.
  set (c := buf_consumer_index (q_buf q)) in *. set (p := buf_producer_index (q_buf q)) in *. set (m := 2 ^ k) in *.
  rewrite <- (Z.mod_small p m) by lia. replace p with (c + (p - c)) by lia.
  rewrite <- (Zplus_mod_idemp_r (p - c)). by rewrite <- Hc.
Qed.

(** The elements of the message are no atomic operations. *)
Lemma message_mask q : qp_qp_type q = IB_QPT_RC →
  flag_set (wr_opcode_mask (wr_opcode wr) q) WR_ATOMIC_OR_READ_MASK = false.
Proof using Hops.
  intros Ht. unfold wr_opcode_mask. rewrite Ht. unfold rc_opcodes in Hops.
  repeat match type of Hops with context [wr_opcode wr =? ?c] =>
    destruct (Z.eqb_spec (wr_opcode wr) c) as [->|_]; [vm_compute; reflexivity|] end. done.
Qed.

Lemma sender_out depth fuel s :
  posted s → 0 < qp_mtu_bytes (es_qp s) ≤ 2 ^ 13 →
  let n := packets total (qp_mtu_bytes (es_qp s)) in
  ∃ s' pkts w', __rxe_do_task (rxe_requester depth fuel) (S n) s = Some (tt, s') ∧ sent_out s s' pkts w'.
Proof using Hbypass Hops Htotal Hpsn0.
  intros [Hm Hv Hcr _ _ [Hsp _] _ _ _ Hmk] Hmtu n. cbn zeta in Hm.
  destruct (wp_total _ _ _ (requester_tail Hbypass (es_qp s) wr ops iova (as_sender A) psn0 _ _ data Hops Hmtu Htotal Hpsn0
    depth fuel n 0 s ltac:(lia) (packets_pos _ _) Hm)) as (r & s' & E & -> & Hf & Hh & pkts & Hp & Hl & Hc & _).
  pose proof Hv as (Hwf & Hql & cq & Hcq & Hcwf & Hcl).
  destruct (queue_head_cons k _ _ _ Hwf Hql) as (_ & Hsl & _).
  destruct Hm as [[Hval Hrs Hnr (Hty & _) _ _ _ _ _ _ _ _] _ _ (w0 & Hw0 & Hwr & _)].
  assert (w0 = w) as -> by (unfold slot in Hw0; congruence).
  destruct (hd_elem _ _ _ Hh w Hsl) as (w' & Hw' & I1 & I2 & I3 & I4 & I5).
  pose proof (hd_ring _ _ _ Hh) as [w1 Hst].
  assert (w1 = w') as ->.
  { unfold slot in Hw'. rewrite Hst, elem_at_store_eq in Hw' by by eexists. congruence. }
  pose proof (hd_stable _ _ _ Hh) as Hs. unfold stable in Hs. injection Hs as S1 S2 S3 S4 S5 S6 S7 S8 S9 S10 S11 S12 S13 S14 S15 S16 S17.
  destruct Hf as [_ Fi (w2 & Hw2 & F1 & F2 & F3 & F4 & _)]. assert (w2 = w') as -> by (unfold slot in *; congruence).
  exists s', pkts, w'. split.
  - eapply requester_task; [exact E|]. apply requester_idle; [congruence|by rewrite (hd_state _ _ _ Hh)|by rewrite (hd_retry _ _ _ Hh)|].
    rewrite Fi, Hst. exact (one_element _ Hwf Hmk Hql).
  - split.
    + by rewrite Hp, Hsp.
    + by rewrite Hl, Nat.sub_0_r.
    + exact Hc.
    + exact Hh.
    + unfold view. rewrite Hst, S12, S13. split; [by apply store_at_wf|]. split; [by eapply queue_update_head|].
      exists cq. done.
    + split; [|exact F4]. split; [done|]. split; [rewrite I5, Hwr; by apply message_mask|congruence].
    + split; [done|].
      assert (Em : make_send_cqe (es_qp s) w' = make_send_cqe (es_qp s) w) by (unfold make_send_cqe; by rewrite I1, I2, I4).
      assert (Es : signaled (es_qp s) w' = signaled (es_qp s) w) by (unfold signaled; by rewrite I1).
      unfold completions. cbn [filter list_filter]. rewrite Es. case_decide; [|done]. cbn. by rewrite Em.
Qed.
End sender.
