(* ===== verification/Exchange.v ===== *)
(** * The exchange of a message between two hosts

    [exchange] runs the tasks of two hosts on one message: the requester and the
    arbiter of the sender, the reception, the responder and the arbiter of the
    receiver, and the reception and the completer of the sender. A send or an
    RDMA write that is posted ends up in the memory of the other host, and its
    completion in the completion queue of the sender. *)

From stdpp Require Import gmap.
From S2P Require Import Prelude Bits Queue Opcode Hdr Verbs Mr Sge Cq State Comp Arbiter Req ReqPacket Message.
From S2P Require Import Resp Ack RespSteps Deliver DeliverWrite DeliverSend Host Recv CompTask Wire Path.

(** A task is called at most [n] times, and each call makes at most [fuel]
    steps; the network delivers all packets in order. *)
Definition exchange `{Params} (numA numB : Z) (stale : bool) (junk : rxe_pkt_info) (iA iB : Z) (depth fuel n : nat)
    (hA hB : host) : option (host * host) :=
  '(_, hA1) ← on_qp iA (__rxe_do_task (rxe_requester depth fuel) n) hA;
  hA2 ← arbiter_task n hA1;
  hB1 ← arrive_all numB stale junk (sent_by hA1 hA2) hB;
  '(_, hB2) ← on_qp iB (__rxe_do_task (rxe_responder depth fuel fuel) n) hB1;
  hB3 ← arbiter_task n hB2;
  hA3 ← arrive_all numA stale junk (sent_by hB2 hB3) hA2;
  '(_, hA4) ← on_qp iA (__rxe_do_task (rxe_completer depth fuel) n) hA3;
  Some (hA4, hB3).

Section steps.
Context `{Params}.

Lemma on_qp_run {B} i (m : eng B) h q x s : h_qps h !! i = Some q → m (at_qp h q) = Some (x, s) → on_qp i m h = Some (x, back h i s).
Proof. intros Hq E. unfold on_qp. by rewrite Hq, E. Qed.

Lemma on_qp_more i f a b h r :
  on_qp i (__rxe_do_task f a) h = Some r → (a ≤ b)%nat → on_qp i (__rxe_do_task f b) h = Some r.
Proof.
  unfold on_qp. intros E Hab. destruct (h_qps h !! i) as [q|]; [|done].
  destruct (__rxe_do_task f a (at_qp h q)) as [[u s]|] eqn:E1; [|done]. by rewrite (do_task_more _ _ _ _ _ E1 Hab).
Qed.

(** The steps of an exchange, with as many calls as each needs. *)
Lemma exchange_steps numA numB stale junk iA iB depth fuel a b calls hA hB hA1 hA2 hA3 hA4 hB1 hB2 hB3 :
  on_qp iA (__rxe_do_task (rxe_requester depth fuel) a) hA = Some (tt, hA1) → arbiter_task a hA1 = Some hA2 →
  arrive_all numB stale junk (sent_by hA1 hA2) hB = Some hB1 →
  on_qp iB (__rxe_do_task (rxe_responder depth fuel fuel) a) hB1 = Some (tt, hB2) → arbiter_task b hB2 = Some hB3 →
  arrive_all numA stale junk (sent_by hB2 hB3) hA2 = Some hA3 →
  on_qp iA (__rxe_do_task (rxe_completer depth fuel) b) hA3 = Some (tt, hA4) → (a ≤ calls)%nat → (b ≤ calls)%nat →
  exchange numA numB stale junk iA iB depth fuel calls hA hB = Some (hA4, hB3).
Proof.
  intros E1 E2 E3 E4 E5 E6 E7 Ha Hb. unfold exchange. rewrite (on_qp_more _ _ _ _ _ _ E1 Ha). cbn [mbind option_bind].
  rewrite (arbiter_task_more _ _ _ _ E2 Ha). cbn [mbind option_bind]. rewrite E3. cbn [mbind option_bind].
  rewrite (on_qp_more _ _ _ _ _ _ E4 Ha). cbn [mbind option_bind]. rewrite (arbiter_task_more _ _ _ _ E5 Hb).
  cbn [mbind option_bind]. rewrite E6. cbn [mbind option_bind]. by rewrite (on_qp_more _ _ _ _ _ _ E7 Hb).
Qed.

(** What an engine has queued goes out. *)
Lemma sends_out h i s pkts :
  qp_send_pkts (es_qp s) = pkts → pkts ≠ [] → qp_qp_num (es_qp s) = i → listed s → es_send s = [] →
  qp_valid (es_qp s) = true → Forall (ready_for (es_qp s)) pkts →
  ∃ h', arbiter_task (S (length pkts)) (back h i s) = Some h' ∧ flushed_out i (es_qp s) (back h i s) h' ∧
    sent_by (back h i s) h' = pkts.
Proof.
  intros Hp Hne Hi [Hl Hon] Hs Hv Hr. rewrite Hp in Hon. specialize (Hon Hne). rewrite Hon, Hi in Hl.
  destruct (arbiter_sends i pkts (back h i s) (es_qp s)) as (h' & E & Hf); try done.
  - apply back_lookup.
  - by rewrite bool_decide_eq_false_2.
  - by rewrite bool_decide_eq_false_2.
  - exists h'. split; [done|]. split; [done|]. destruct (fo_ev _ _ _ _ Hf) as (l & El & Hw).
    unfold sent_by. rewrite El, drop_app_length. congruence.
Qed.
End steps.

(** The receiver after the packets [reqs] came in. *)
Definition loaded (s0 : eng_state) (reqs : list rxe_pkt_info) (s : eng_state) : Prop :=
  ∃ m a b, s = s0 <| es_dev ::= λ d, d <| rdev_req_skb_in := a |> <| rdev_resp_skb_in := b |> |>
                  <| es_qp := with_rx (es_qp s0) reqs [] m |>.

(** A connection between queue pairs of two hosts. The partition keys match, and
    the one of the sender allows it to receive its own packets. *)
Record connection (numA numB : Z) (hA hB : host) (qA qB : rxe_qp) (A B : endpoint) : Prop := {
  co_A : endpoint_ok A ∧ attached numA (h_dev hA) qA A B ∧ h_qps hA !! ep_qpn A = Some qA;
  co_B : endpoint_ok B ∧ attached numB (h_dev hB) qB B A ∧ h_qps hB !! ep_qpn B = Some qB;
  co_keys : pkey_match (ep_pkey A) (ep_pkey B) = true ∧ pkey_match (ep_pkey A) (ep_pkey A) = true
}.

(** The receiver has nothing to do. *)
Record quiescent (s : eng_state) : Prop := {
  qu_send : qp_send_pkts (es_qp s) = [];
  qu_listed : listed s;
  qu_wire : es_send s = []
}.

Section run.
Context `{Params} (Hbypass : rxe_bypass_arbiter = false).
Context (numA numB : Z) (stale : bool) (junk : rxe_pkt_info) (hA hB : host) (qA qB : rxe_qp) (A B : endpoint).
Context (Hco : connection numA numB hA hB qA qB A B).
Context (k nc psn0 iova : Z) (wr : ib_send_wr) (ops : Z * Z * Z * Z) (addrs data : list Z) (w : rxe_send_wqe) (cl : list ib_wc).
Context (Hpo : posted A k nc psn0 iova wr ops data w cl (at_qp hA qA)) (Hqu : quiescent (at_qp hB qB)).
Context (Hops : rc_opcodes (wr_opcode wr) = Some ops) (Hmtu : 0 < qp_mtu_bytes qA ≤ 2 ^ 13).
Context (HmtuB : qp_mtu_bytes qB = qp_mtu_bytes qA) (Hready : resp_state (qp_resp qB) = QP_STATE_READY).
Context (Htotal : Z.of_nat (length data) < 2 ^ 31) (Hpsn0 : 0 ≤ psn0 < 2 ^ 24).

Local Abbreviation total := (Z.of_nat (length data)).
Local Abbreviation n := (packets total (qp_mtu_bytes qA)).
Local Abbreviation psn i := ((psn0 + Z.of_nat i) mod 2 ^ 24).
Local Abbreviation iA := (ep_qpn A).
Local Abbreviation iB := (ep_qpn B).
Local Abbreviation request i := (carries qA wr ops iova (as_sender A) psn0 data i).

Context (Hn : Z.of_nat n < 2 ^ 23).

(** The message leaves the sender. *)
Record departed (hA1 hA2 : host) (s1 : eng_state) (pkts : list rxe_pkt_info) (w1 : rxe_send_wqe) : Prop := {
  dp_out : sent_out A k nc psn0 iova wr ops data w cl (at_qp hA qA) s1 pkts w1;
  dp_back : hA1 = back hA iA s1;
  dp_flushed : flushed_out iA (es_qp s1) hA1 hA2;
  dp_sent : sent_by hA1 hA2 = pkts
}.

Lemma message_departs depth fuel :
  ∃ hA1 hA2 s1 pkts w1, on_qp iA (__rxe_do_task (rxe_requester depth fuel) (S n)) hA = Some (tt, hA1) ∧
    arbiter_task (S n) hA1 = Some hA2 ∧ departed hA1 hA2 s1 pkts w1.
Proof using Hbypass Hco Hpo Hops Hmtu Htotal Hpsn0.
  destruct Hco as [(HA & Hat & Hq) _ _].
  destruct (sender_out Hbypass A k nc psn0 iova wr ops data w cl Hops Htotal Hpsn0 depth fuel (at_qp hA qA) Hpo Hmtu)
    as (s1 & pkts & w1 & E & Ho). pose proof Ho as [Hp Hc Hca Hh _ _ _].
  pose proof (hd_stable _ _ _ Hh) as Hs. unfold stable in Hs. injection Hs as S1 S2 S3 S4 S5 S6 S7 S8 S9 S10 S11 S12 S13 S14 S15 S16 S17.
  change (es_qp (at_qp hA qA)) with qA in *.
  destruct (sends_out hA iA s1 pkts) as (hA2 & E2 & Hf & Hsb).
  - done.
  - intros ->. pose proof (packets_pos total (qp_mtu_bytes qA)). cbn in Hc. lia.
  - rewrite S15. apply Hat.
  - apply (hd_listed _ _ _ Hh), Hpo.
  - rewrite S11. apply Hpo.
  - rewrite S4. apply Hat.
  - apply Forall_true. intros pkt. unfold ready_for. rewrite S17, (hd_state _ _ _ Hh).
    destruct (flag_set _ _); [by eapply posted_ready|apply Hpo].
  - exists (back hA iA s1), hA2, s1, pkts, w1. split; [by eapply on_qp_run|]. rewrite Hc in E2. split; [exact E2|]. by split.
Qed.

(** The packets come in at the receiver. *)
Lemma message_arrives pkts :
  length pkts = n → (∀ i pkt, pkts !! i = Some pkt → request i pkt) →
  let reqs := arrived numB (qa_pkey_index (qp_attr qB)) <$> pkts in
  ∃ hB1 q1, arrive_all numB stale junk pkts hB = Some hB1 ∧ h_qps hB1 !! iB = Some q1 ∧
    loaded (at_qp hB qB) reqs (at_qp hB1 q1) ∧ message_packets (at_qp hB1 q1) ops psn0 data reqs ∧
    (∀ s, h_qps (back hB1 iB s) = <[iB := es_qp s]> (h_qps hB)) ∧ h_mcgs hB1 = h_mcgs hB.
Proof using Hco Hops Hmtu HmtuB Hready.
  intros Hl Hc reqs. destruct Hco as [(HA & HatA & _) (HB & HatB & HqB) [Hk _]].
  assert (Hall : ∀ i pkt, pkts !! i = Some pkt → (i < n)%nat) by (intros i pkt Hi; apply lookup_lt_Some in Hi; lia).
  destruct (arrive_all_queued numB B A HB HA (ep_pkey A) Hk stale junk true pkts hB qB) as (hB1 & E & [(m & Eq) (a & b & Ed) (R1 & R2 & R3 & R4) _]).
  - exact HatB.
  - exact HqB.
  - apply Forall_lookup_2. intros i pkt Hi. eexists.
    exact (carries_on_the_way A B HA HB numA _ qA HatA wr ops iova psn0 data Hops Hmtu i pkt (Hall _ _ Hi) (Hc _ _ Hi)).
  - exact Hready.
  - exists hB1, (with_rx qB reqs [] m). split; [exact E|]. split; [rewrite Eq; apply lookup_insert_eq|]. split; [|split; [|split]].
    + exists m, a, b. unfold at_qp. rewrite Ed, R2, R3, R4. done.
    + split; [unfold reqs; rewrite length_fmap, Hl; cbn; by rewrite HmtuB|]. intros i pkt Hi. unfold reqs in Hi.
      rewrite list_lookup_fmap in Hi. destruct (pkts !! i) as [p|] eqn:Hp; [|done]. injection Hi as <-. cbn [at_qp es_qp].
      change (qp_mtu_bytes (with_rx qB reqs [] m)) with (qp_mtu_bytes qB). rewrite HmtuB.
      exact (carries_incoming A B HA HB numA _ qA HatA wr ops iova psn0 data Hops Hmtu i _ numB p (Hall _ _ Hp) (Hc _ _ Hp)).
    + intros s. unfold back. cbn [h_qps upd_field]. rewrite Eq. apply insert_insert_eq.
    + exact R1.
Qed.

(** The answers leave the receiver. *)
Lemma answers_depart hB1 q1 reqs s' acks :
  loaded (at_qp hB qB) reqs (at_qp hB1 q1) → message_done (at_qp hB1 q1) psn0 addrs data reqs s' acks →
  acks ≠ [] → Forall (λ ack, flag_set (pkt_mask ack) RXE_REQ_MASK = false) acks →
  ∃ hB3, arbiter_task (S (length acks)) (back hB1 iB s') = Some hB3 ∧
    flushed_out iB (es_qp s') (back hB1 iB s') hB3 ∧ sent_by (back hB1 iB s') hB3 = acks.
Proof using Hco Hqu.
  intros (m & a & b & Hld) [_ _ _ _ Mst Msd _ Mu] Hne Hfl. destruct Hco as [_ (_ & HatB & _) _], Hqu as [Q1 Q2 Q3].
  assert (E1 : q1 = with_rx qB reqs [] m) by exact (f_equal es_qp Hld).
  assert (E2 : h_dev hB1 = h_dev hB <| rdev_req_skb_in := a |> <| rdev_resp_skb_in := b |>) by exact (f_equal es_dev Hld).
  assert (E3 : h_send hB1 = h_send hB) by exact (f_equal es_send Hld).
  apply sends_out.
  - rewrite Msd. cbn. rewrite E1. cbn. cbn in Q1. by rewrite Q1.
  - done.
  - rewrite (um_num _ _ Mu). cbn. rewrite E1. apply HatB.
  - apply (um_listed _ _ Mu). unfold listed in *. cbn. rewrite E1, E2. exact Q2.
  - rewrite (um_send _ _ Mu). cbn. rewrite E3. exact Q3.
  - rewrite (um_valid _ _ Mu). cbn. rewrite E1. apply HatB.
  - eapply Forall_impl; [|exact Hfl]. intros ack Hf. unfold ready_for. cbn in Hf. by rewrite Hf.
Qed.

(** The acknowledgements come back and complete the work request. *)
Lemma answers_complete depth fuel hA1 hA2 s1 pkts w1 acks ls :
  departed hA1 hA2 s1 pkts w1 → acks = concat ls → length ls = n →
  answered psn0 0 (map (map (arrived numA (qa_pkey_index (qp_attr qA)))) ls) →
  Forall (on_the_way B A (ep_pkey A) IB_OPCODE_RC_ACKNOWLEDGE) acks →
  ∃ hA3 hA4 qA', arrive_all numA stale junk acks hA2 = Some hA3 ∧
    on_qp iA (__rxe_do_task (rxe_completer (S depth) (8 + fuel)) (S (length acks))) hA3 = Some (tt, hA4) ∧
    h_qps hA4 = <[iA := qA']> (h_qps hA) ∧ view k nc (at_qp hA4 qA') [] (cl ++ completions qA [w]) ∧
    comp_psn (qp_comp qA') = psn n ∧ qp_scq qA' = qp_scq qA.
Proof using Hco Hpo Hn.
  intros [Ho -> Hf _] -> Hls Han Hall. pose proof Hco as [(HA & HatA & HqA) (HB & _) [_ Hk]].
  pose proof Ho as [_ _ _ Hh Hv [Hwt Hlp] [_ Hcs]]. change (es_qp (at_qp hA qA)) with qA in *.
  pose proof (hd_stable _ _ _ Hh) as Hs. unfold stable in Hs. injection Hs as S1 S2 S3 S4 S5 S6 S7 S8 S9 S10 S11 S12 S13 S14 S15 S16 S17.
  cbn [at_qp es_qp es_dev es_alloc es_send] in *.
  destruct (posted_ready _ _ _ _ _ _ _ _ _ _ _ Hpo) as [Hrd Hnr]. cbn [at_qp es_qp] in Hrd, Hnr.
  assert (Hrd1 : req_state (qp_req (es_qp s1)) = QP_STATE_READY) by (rewrite (hd_state _ _ _ Hh); exact Hrd).
  assert (Hnr1 : req_need_retry (qp_req (es_qp s1)) = false) by (rewrite (hd_retry _ _ _ Hh); exact Hnr).
  destruct Hf as [(x1 & x2 & Fq) (x3 & x4 & Fd) (_ & _ & Fs & _) _].
  set (q2 := es_qp s1 <| qp_send_pkts := [] |> <| qp_on_arbiter := false |> <| qp_req_skb_out := x1 |> <| qp_resp_skb_out := x2 |>) in Fq.
  destruct (arrive_all_queued numA A B HA HB (ep_pkey A) Hk stale junk false (concat ls) hA2 q2) as (hA3 & E & [(m & Eq) (a & b & Ed) _ _]).
  - eapply attached_ext; [..|exact HatA]; try done. by rewrite Fd.
  - rewrite Fq. apply lookup_insert_eq.
  - eapply Forall_impl; [|exact Hall]. intros ack Hw. exists IB_OPCODE_RC_ACKNOWLEDGE. done.
  - exact Hrd1.
  - change (qa_pkey_index (qp_attr q2)) with (qa_pkey_index (qp_attr (es_qp s1))) in Eq. rewrite S6 in Eq.
    set (f := arrived numA (qa_pkey_index (qp_attr qA))) in *. set (q3 := with_rx q2 [] (f <$> concat ls) m) in Eq.
    assert (Hund : underway k nc psn0 qA w1 cl 0 (map (map f) ls) (at_qp hA3 q3)).
    { pose proof Hpo as [_ _ _ [P1 P2] _ [_ P3] _ _ _ _]. split; cbn [at_qp es_qp es_dev].
      - unfold alive, q3, q2, with_rx. cbn. by rewrite S4, Hrd1, (at_valid _ _ _ _ _ HatA).
      - unfold q3, q2, with_rx. cbn. by rewrite Hrd1.
      - unfold q3, q2, with_rx. done.
      - unfold q3, q2, with_rx. cbn. cbn in P3. rewrite S16, P3. apply concat_map.
      - unfold view in *. unfold q3, q2, with_rx. cbn. rewrite Ed, Fd. exact Hv.
      - unfold q3, q2, with_rx. cbn. by rewrite S10.
      - exists 0%nat. split; [done|]. unfold q3, q2, with_rx. cbn. by rewrite S10.
      - unfold completions, signaled, make_send_cqe, q3, q2, with_rx. cbn. rewrite S14, S15. split; [done|exact S13]. }
    pose proof (po_room _ _ _ _ _ _ _ _ _ _ _ Hpo) as Hroom. cbn [at_qp es_qp] in Hroom. rewrite <- Hcs in Hroom.
    pose proof (completer_answered k nc psn0 qA w1 cl Hwt Hroom depth fuel n (map (map f) ls) 0 _ Han Hund) as Hw.
    rewrite length_map in Hw. specialize (Hw Hls Hn Hlp).
    apply wp_total in Hw as ([] & s4 & E4 & [V4 _ P4 Q4]).
    assert (Hlen : length (concat (map (map f) ls)) = length (concat ls)) by (by rewrite <- concat_map, length_map).
    rewrite Hlen in E4. exists hA3, (back hA3 iA s4), (es_qp s4). split; [exact E|]. split; [|split; [|split]].
    + eapply on_qp_run; [|exact E4]. rewrite Eq. apply lookup_insert_eq.
    + unfold back. cbn [h_qps upd_field]. rewrite Eq, insert_insert_eq, Fq, insert_insert_eq. cbn [back h_qps upd_field].
      apply insert_insert_eq.
    + rewrite <- Hcs. exact V4.
    + split; [exact P4|exact Q4].
Qed.

(** What is left at the receiver after the responder has come to [s']. *)
Record received_at (hB' : host) (s' : eng_state) (qB' : rxe_qp) : Prop := {
  ra_qps : h_qps hB' = <[iB := qB']> (h_qps hB);
  ra_mem : rdev_mem (h_dev hB') = rdev_mem (es_dev s');
  ra_cqs : rdev_cqs (h_dev hB') = rdev_cqs (es_dev s');
  ra_rq : qp_rq qB' = qp_rq (es_qp s') ∧ qp_req_pkts qB' = qp_req_pkts (es_qp s') ∧ qp_resp qB' = qp_resp (es_qp s')
}.

(** And at the sender. *)
Record completed_at (hA' : host) (qA' : rxe_qp) : Prop := {
  ca_qps : h_qps hA' = <[iA := qA']> (h_qps hA);
  ca_view : view k nc (at_qp hA' qA') [] (cl ++ completions qA [w]);
  ca_psn : comp_psn (qp_comp qA') = psn n;
  ca_scq : qp_scq qA' = qp_scq qA
}.

(** The whole way, for a responder that takes the message. *)
Lemma exchange_runs depth fuel calls (P : eng_state → eng_state → list rxe_pkt_info → Prop) :
  (∀ s reqs, loaded (at_qp hB qB) reqs s → message_packets s ops psn0 data reqs →
     (∀ i pkt, reqs !! i = Some pkt → ∃ pkt0 k, pkt = arrived numB k pkt0 ∧ request i pkt0) →
     ∃ s' acks, __rxe_do_task (rxe_responder (S depth) (12 + fuel) (12 + fuel)) (S n) s = Some (tt, s') ∧
       message_done s psn0 addrs data reqs s' acks ∧ P s s' reqs) →
  (n < calls)%nat →
  ∃ hA' hB' qA' qB' s s' reqs acks, exchange numA numB stale junk iA iB (S depth) (12 + fuel) calls hA hB = Some (hA', hB') ∧
    completed_at hA' qA' ∧ received_at hB' s' qB' ∧ loaded (at_qp hB qB) reqs s ∧
    message_done s psn0 addrs data reqs s' acks ∧ P s s' reqs.
Proof using All.
  intros Hresp Hcalls. pose proof Hco as [(HA & HatA & _) (HB & HatB & _) _].
  destruct (message_departs (S depth) (12 + fuel)) as (hA1 & hA2 & s1 & pkts & w1 & E1 & E2 & Hdp).
  pose proof Hdp as [[_ Hl Hc _ _ _ _] _ _ Hsb]. change (qp_mtu_bytes (es_qp (at_qp hA qA))) with (qp_mtu_bytes qA) in Hl.
  destruct (message_arrives pkts Hl Hc) as (hB1 & q1 & E3 & Hq1 & Hld & Hmp & Hqs & _).
  set (reqs := arrived numB (qa_pkey_index (qp_attr qB)) <$> pkts) in *.
  destruct (Hresp _ reqs Hld Hmp) as (s' & acks & E4 & Hmd & HP).
  { intros i pkt Hi. unfold reqs in Hi. rewrite list_lookup_fmap in Hi. destruct (pkts !! i) as [p|] eqn:Hp; [|done].
    injection Hi as <-. exists p, (qa_pkey_index (qp_attr qB)). split; [done|]. by apply Hc. }
  assert (Hattr : qp_attr q1 = qp_attr qB) by (destruct Hld as (m & a & b & E); by rewrite (f_equal es_qp E : q1 = _)).
  destruct (acknowledged_back A B HA HB numB (qa_pkey_index (qp_attr qB)) (ep_pkey A) (qp_attr q1) psn0 numA
    (qa_pkey_index (qp_attr qA)) pkts 0 acks) as (Hall & Hne & ls & Hcat & Hlen & Hans).
  { rewrite Hattr. apply HatB. }
  { intros ->. pose proof (packets_pos total (qp_mtu_bytes qA)). cbn in Hl. lia. }
  { intros j pkt Hj. apply lookup_lt_Some in Hj as Hlt. pose proof (Hc _ _ Hj) as Hcj. split; [|split].
    - eexists. apply (carries_on_the_way A B HA HB numA _ qA HatA wr ops iova psn0 data Hops Hmtu j pkt); [lia|exact Hcj].
    - apply Hcj.
    - intros Hj'. apply Hcj. transitivity (length pkts); [exact Hj'|exact Hl]. }
  { exact (md_acks _ _ _ _ _ _ _ Hmd). }
  destruct (answers_depart hB1 q1 reqs s' acks Hld Hmd Hne) as (hB3 & E5 & Hfl & Hsb').
  { eapply Forall_impl; [|exact Hall]. by intros ack [_ ?]. }
  destruct (answers_complete depth (4 + fuel) hA1 hA2 s1 pkts w1 acks ls Hdp Hcat) as (hA3 & hA4 & qA' & E6 & E7 & C1 & C2 & C3 & C4).
  { congruence. }
  { exact Hans. }
  { eapply Forall_impl; [|exact Hall]. by intros ack [? _]. }
  assert (Hac : (length acks ≤ n)%nat).
  { pose proof (answered_length psn0 _ 0 Hans) as Hal. rewrite <- concat_map, !length_map, Hlen in Hal. rewrite Hcat. lia. }
  destruct Hfl as [(x1 & x2 & Fq) (x3 & x4 & Fd) _ _].
  eexists hA4, hB3, qA', _, (at_qp hB1 q1), s', reqs, acks. split; [|split; [by split|split; [split|done]]].
  - rewrite <- Hsb in E3. rewrite <- Hsb' in E6 at 1.
    eapply exchange_steps; [exact E1|exact E2|exact E3|eapply on_qp_run; [exact Hq1|exact E4]|exact E5|exact E6|exact E7|lia|lia].
  - rewrite Fq, Hqs. apply insert_insert_eq.
  - by rewrite Fd.
  - by rewrite Fd.
  - done.
Qed.
End run.

(** ** RDMA writes *)

Lemma loaded_receptive s0 reqs s : loaded s0 reqs s → receptive s0 → receptive s.
Proof. intros (m & a & b & ->) []. by split. Qed.

Lemma loaded_awaiting s0 psn0 reqs s : loaded s0 reqs s → awaiting s0 psn0 [] → awaiting s psn0 reqs.
Proof. intros (m & a & b & ->) []. split; try done. cbn. by rewrite aw_pkts. Qed.

(** A write from one end to the other. *)
Lemma write_exchanged `{Params} numA numB stale junk hA hB qA qB A B k nc psn0 iova wr addrs data w cl depth fuel calls :
  let total := Z.of_nat (length data) in
  let n := packets total (qp_mtu_bytes qA) in
  rxe_bypass_arbiter = false → connection numA numB hA hB qA qB A B → wr_opcode wr = IB_WR_RDMA_WRITE →
  posted A k nc psn0 iova wr write_ops data w cl (at_qp hA qA) →
  quiescent (at_qp hB qB) → writable (at_qp hB qB) → awaiting (at_qp hB qB) psn0 [] →
  qp_mtu_bytes qB = qp_mtu_bytes qA → data ≠ [] → total < 2 ^ 31 → Z.of_nat n < 2 ^ 23 → 0 ≤ psn0 < 2 ^ 24 →
  0 ≤ wr_rkey wr < 2 ^ 32 → 0 ≤ iova → iova + total < 2 ^ 64 → (n < calls)%nat →
  key_target (rdev_mem (h_dev hB)) (qp_pd qB) IB_ACCESS_REMOTE_WRITE (wr_rkey wr) iova total addrs →
  ∃ hA' hB' qA' qB', exchange numA numB stale junk (ep_qpn A) (ep_qpn B) (S depth) (12 + fuel) calls hA hB = Some (hA', hB') ∧
    completed_at hA qA A k nc psn0 data w cl hA' qA' ∧
    rdev_mem (h_dev hB') = rdev_mem (h_dev hB) <| dev_phys := mwrite (dev_phys (rdev_mem (h_dev hB))) addrs data |> ∧
    h_qps hB' = <[ep_qpn B := qB']> (h_qps hB) ∧ qp_rq qB' = qp_rq qB ∧ rdev_cqs (h_dev hB') = rdev_cqs (h_dev hB).
Proof.
  intros total n Hb Hco Hop Hpo Hqu Hwt Haw Hm Hd Htot Hn Hp0 Hrk Hio Hit Hcalls Ht.
  assert (Hops : rc_opcodes (wr_opcode wr) = Some write_ops) by by rewrite Hop.
  destruct (exchange_runs Hb numA numB stale junk hA hB qA qB A B Hco k nc psn0 iova wr write_ops addrs data w cl Hpo Hqu Hops)
    with (P := λ s s' (_ : list rxe_pkt_info), qp_rq (es_qp s') = qp_rq (es_qp s) ∧ rdev_cqs (es_dev s') = rdev_cqs (es_dev s))
      (calls := calls) (depth := depth) (fuel := fuel)
    as (hA' & hB' & qA' & qB' & s & s' & reqs & acks & E & Hca & [R1 R2 R3 (R4 & _)] & (m & a & b & ->) & Hmd & Hq & Hc); try done.
  - rewrite <- Hm. apply (rc_mtu _ (wt_receptive _ Hwt)).
  - apply (aw_state _ _ _ Haw).
  - intros s reqs Hld Hmp Hreq. pose proof (loaded_awaiting _ _ _ _ Hld Haw) as Haw'.
    assert (Hwt' : writable s).
    { destruct Hwt as [Hrc Ha H4]. pose proof (loaded_receptive _ _ _ Hld Hrc). by destruct Hld as (m & a & b & ->). }
    assert (Es : rdev_mem (es_dev s) = rdev_mem (h_dev hB) ∧ qp_pd (es_qp s) = qp_pd qB ∧ qp_mtu_bytes (es_qp s) = qp_mtu_bytes qA).
    { destruct Hld as (m & a & b & ->). by rewrite <- Hm. }
    destruct Es as (Es1 & Es2 & Es3). rewrite <- Es1, <- Es2 in Ht.
    assert (Hrq : write_request (wr_rkey wr) iova data reqs).
    { intros pkt Hi. destruct (Hreq 0%nat pkt Hi) as (p0 & kk & -> & (_ & _ & _ & _ & _ & Hr & _)).
      destruct Hr as (V1 & V2 & V3).
      { destruct (write_ops_opcode 0 n (packets_pos _ _)) as [Hwo Hone]. pose proof (wo_reth _ (write_opcode_spec _ Hwo)) as Hx.
        exact (eq_trans Hx Hone). }
      split; [change (reth_va p0 = iova); rewrite V1; apply Z.mod_small; unfold total in *; lia|].
      split; [change (reth_rkey p0 = wr_rkey wr); rewrite V2; by apply Z.mod_small|exact V3]. }
    pose proof (write_taken s (wr_rkey wr) iova psn0 addrs data reqs (S depth) (12 + fuel) (1 + fuel) Hb Hwt' Hd Htot Hio Hit Ht Hmp Hrq Haw') as Hrun.
    rewrite Es3 in Hrun. exact Hrun.
  - exists hA', hB', qA', qB'. split; [exact E|]. split; [exact Hca|]. rewrite R2, (md_mem _ _ _ _ _ _ _ Hmd). split; [done|].
    split; [exact R1|]. split; [rewrite R4; exact Hq|rewrite R3; exact Hc].
Qed.

(** C2: an RDMA write between connected queue pairs of two hosts. When the tasks
    of both hosts have run and the network has delivered what they sent, the
    data the scatter/gather list of the sender describes is at the remote
    address, no other byte of the memory of the receiver has changed and neither
    have its receive queue and its completion queues; the send queue of the
    sender is empty, its completion queue has one more completion, if the work
    request asked for one, and every other queue pair of the two hosts is as it
    was. *)
Theorem exchange_write `{Params} numA numB stale junk hA hB qA qB A B k nc psn0 iova wr addrs data w cl depth fuel calls :
  let total := Z.of_nat (length data) in
  let n := packets total (qp_mtu_bytes qA) in
  rxe_bypass_arbiter = false → connection numA numB hA hB qA qB A B → wr_opcode wr = IB_WR_RDMA_WRITE →
  posted A k nc psn0 iova wr write_ops data w cl (at_qp hA qA) →
  quiescent (at_qp hB qB) → writable (at_qp hB qB) → awaiting (at_qp hB qB) psn0 [] →
  qp_mtu_bytes qB = qp_mtu_bytes qA → data ≠ [] → total < 2 ^ 31 → Z.of_nat n < 2 ^ 23 → 0 ≤ psn0 < 2 ^ 24 →
  0 ≤ wr_rkey wr < 2 ^ 32 → 0 ≤ iova → iova + total < 2 ^ 64 → (n < calls)%nat →
  key_target (rdev_mem (h_dev hB)) (qp_pd qB) IB_ACCESS_REMOTE_WRITE (wr_rkey wr) iova total addrs →
  ∃ hA' hB' qA' qB', exchange numA numB stale junk (ep_qpn A) (ep_qpn B) (S depth) (12 + fuel) calls hA hB = Some (hA', hB') ∧
    completed_at hA qA A k nc psn0 data w cl hA' qA' ∧
    rdev_mem (h_dev hB') = rdev_mem (h_dev hB) <| dev_phys := mwrite (dev_phys (rdev_mem (h_dev hB))) addrs data |> ∧
    h_qps hB' = <[ep_qpn B := qB']> (h_qps hB) ∧ qp_rq qB' = qp_rq qB ∧ rdev_cqs (h_dev hB') = rdev_cqs (h_dev hB).
Proof. intros total n. by apply write_exchanged. Qed.

(** ** Sends *)

Lemma loaded_receive s0 reqs s k nc addrs spare data rq0 w0 later cq0 :
  loaded s0 reqs s → ready_to_receive s0 k nc addrs spare data rq0 w0 later cq0 →
  ready_to_receive s k nc addrs spare data rq0 w0 later cq0.
Proof.
  intros Hld []. pose proof (loaded_receptive _ _ _ Hld rr_receptive). destruct Hld as (m & a & b & ->). by split.
Qed.

(** The receive completion of a message. *)
Record delivered_to (hB hB' : host) (qB qB' : rxe_qp) (k nc : Z) (wr : ib_send_wr) (w0 : rxe_recv_wqe)
    (later : list rxe_recv_wqe) (cq0 : rxe_cq) (len : Z) (wc : ib_wc) : Prop := {
  dt_qps : h_qps hB' = <[qp_qp_num qB := qB']> (h_qps hB);
  dt_rq : ∃ rq, qp_rq qB' = Some rq ∧ queue_wf k rq ∧ queue_list rq = later;
  dt_cq : ∃ cq, rdev_cqs (h_dev hB') = <[qp_rcq qB := cq]> (rdev_cqs (h_dev hB)) ∧ cq_wf nc cq ∧
    cq_list cq = cq_list cq0 ++ [wc];
  dt_wc : wc_wr_id wc = rwqe_wr_id w0 ∧ wc_status wc = IB_WC_SUCCESS ∧ wc_opcode wc = IB_WC_RECV ∧
    wc_byte_len wc = len ∧ wc_qp_num wc = qp_qp_num qB;
  dt_imm : wr_opcode wr = IB_WR_SEND_WITH_IMM →
    flag_set (wc_flags wc) IB_WC_WITH_IMM = true ∧ wc_imm_data wc = u32 (wr_imm_data wr)
}.


(** ** Two hosts *)

Definition example_A : endpoint := Endpoint 16 0x11 0x33 0xffff.
Definition example_B : endpoint := Endpoint 17 0x11 0x22 0xffff.

(** The sender with one work request of six bytes, an MTU of four and the
    sequence numbers about to wrap around. *)
Definition example_order (opcode : Z) : rxe_send_wqe :=
  SendWqe (SendWr 11 opcode 0 0xabcd 0 1000 0x102 0 0 0 0 0) example_av 0 wqe_state_posted 1000 0 0 0 0 0 false example_dma.

Definition example_qp_A (opcode : Z) : rxe_qp :=
  example_qp (example_sq 0 1 (replicate 4 (example_order opcode))) [] 0xffffff 0xffffff <| qp_mtu_bytes := 4 |>.

Definition example_host_A (opcode : Z) : host := Host example_rdev {[16 := example_qp_A opcode]} ∅ [] [] 1000 [].

(** The receiver, whose memory is zero. *)
Definition example_qp_B : rxe_qp :=
  example_responder [] 0xffffff <| qp_qp_num := 17 |> <| qp_attr ::= λ a, a <| qa_dest_qp_num := 16 |> |>
    <| qp_pri_av := example_peer_av |> <| qp_rq := Some example_rq |>.

Definition example_host_B : host :=
  Host (example_rdev <| rdev_ports := [Port 0 3 [0xffff] [0x22] 0x11 4096 0 1 0 0] |>
          <| rdev_mem ::= λ m, m <| dev_phys := ∅ |> |>)
    {[17 := example_qp_B]} ∅ [] [] 1000 [].

Definition example_data : list Z := mread example_phys <$> [101; 102; 200; 201; 202; 203].

Lemma example_connection opcode :
  connection 1 1 (example_host_A opcode) example_host_B (example_qp_A opcode) example_qp_B example_A example_B.
Proof.
  split.
  - split; [split; unfold IB_MULTICAST_QPN; cbn; lia|]. split; [|reflexivity]. split; try reflexivity; [|by split].
    eexists. repeat split; reflexivity.
  - split; [split; unfold IB_MULTICAST_QPN; cbn; lia|]. split; [|reflexivity]. split; try reflexivity; [|by split].
    eexists. repeat split; reflexivity.
  - split; reflexivity.
Qed.

Lemma example_posted opcode ops :
  rc_opcodes opcode = Some ops → one_of (-1) [ops.1.1.1; ops.1.1.2] = false →
  posted (H := example_params) example_A 2 3 0xffffff 1000 (wqe_ibwr (example_order opcode)) ops example_data (example_order opcode) []
    (at_qp (example_host_A opcode) (example_qp_A opcode)).
Proof.
  intros Hops Hone. split.
  - split; [|reflexivity|exact Hone|].
    + split; try reflexivity; try done; [by left|split; [eexists _, _; done|]; eexists _, _; repeat split; reflexivity|].
      intros [|[|j]] Hj; [vm_compute; discriminate..|]. change (packets _ _) with 2%nat in Hj. lia.
    + exists (example_order opcode). split; [reflexivity|]. do 3 (split; [reflexivity|]). split; [|done].
      split; [reflexivity|]. split; [done|]. split; [apply example_refs_pos|].
      exists [101; 102; 200; 201; 202; 203]. split; [apply example_stream; by left|reflexivity].
  - split; [split; [split|..]; cbn; lia || done|]. split; [reflexivity|]. exists (example_cq 0). split; [reflexivity|].
    split; [apply example_cq_wf|reflexivity].
  - reflexivity.
  - split; reflexivity.
  - vm_compute. discriminate.
  - split; reflexivity.
  - reflexivity.
  - split; [reflexivity|]. by intros [].
  - reflexivity.
  - reflexivity.
Qed.

Lemma example_quiescent : quiescent (at_qp example_host_B example_qp_B).
Proof. split; [reflexivity| |reflexivity]. split; [reflexivity|]. by intros []. Qed.

Lemma example_refs_B : refs_pos (rdev_mem (h_dev example_host_B)).
Proof. apply (refs_pos_phys example_dev), example_refs_pos. Qed.

Lemma exchange_write_witness :
  ∃ hA' hB' qA', exchange (H := example_params) 1 1 true example_junk 16 17 1 12 3 (example_host_A IB_WR_RDMA_WRITE) example_host_B
      = Some (hA', hB') ∧
    mread (dev_phys (rdev_mem (h_dev hB'))) <$> [101; 102; 103; 200; 201; 202; 203] = example_data ++ [0] ∧
    h_qps hA' = {[16 := qA']} ∧ queue_list (qp_sq qA') = [] ∧
    (∃ cq, rdev_cqs (h_dev hA') !! 1 = Some cq ∧ wc_wr_id <$> cq_list cq = [11]).
Proof.
  destruct (exchange_write (H := example_params) 1 1 true example_junk (example_host_A IB_WR_RDMA_WRITE) example_host_B
    (example_qp_A IB_WR_RDMA_WRITE) example_qp_B example_A example_B 2 3 0xffffff 1000 (wqe_ibwr (example_order IB_WR_RDMA_WRITE))
    [101; 102; 103; 200; 201; 202] example_data (example_order IB_WR_RDMA_WRITE) [] 0 0 3)
    as (hA' & hB' & qA' & qB' & E & [C1 (_ & C2 & cq & C3 & _ & C4) _ C5] & Hm & _).
  - reflexivity.
  - apply example_connection.
  - reflexivity.
  - by apply example_posted.
  - apply example_quiescent.
  - split; [|reflexivity|reflexivity]. split; try reflexivity; [cbn; lia|apply example_refs_B|eexists _, _; done].
  - split; reflexivity.
  - reflexivity.
  - discriminate.
  - reflexivity.
  - reflexivity.
  - lia.
  - cbn. lia.
  - lia.
  - reflexivity.
  - vm_compute. lia.
  - destruct example_target as (p & m & mp & bs & H1 & H2 & H3). exists p, m, mp, bs. split; [exact H1|]. split; [|exact H3].
    destruct p; exact H2.
  - exists hA', hB', qA'. split; [exact E|]. rewrite Hm. split; [vm_compute; reflexivity|].
    split; [rewrite C1; apply insert_singleton_eq|]. split; [exact C2|]. exists cq. rewrite C4. split; [|reflexivity].
    cbn in C3. rewrite C5 in C3. exact C3.
Defined.

