(* ===== verification/Session.v ===== *)
(** * A session between two hosts

    From the creation of the queue pairs to the completion: both hosts connect
    their queue pairs with [ib_modify_qp], one of them posts a work request with
    [ib_post_send], and the exchange runs. The states that the other files
    assume are the ones these calls produce. *)

From stdpp Require Import gmap.
From S2P Require Import Prelude Bits Queue Opcode Hdr Verbs Mr Sge Cq State Av QpState Comp Arbiter Req ReqPacket Message.
From S2P Require Import Resp Ack RespSteps Deliver DeliverWrite DeliverSend Host Recv CompTask Wire Path Exchange.
From S2P Require Import Qp QpReset QpInv QpConnect Post.

(** ** A new queue pair *)

(** As it is created, for use by the kernel: nothing is queued anywhere, and the
    slots of its send queue are zero; [st] is the status in them, which is that
    of earlier requests when the queue pair has been used and reset. *)
Record fresh_qp (k st : Z) (q : rxe_qp) : Prop := {
  fq_valid : qp_valid q = true;
  fq_type : qp_qp_type q = IB_QPT_RC;
  fq_kernel : qp_is_user q = false;
  fq_state : qa_qp_state (qp_attr q) = IB_QPS_RESET;
  fq_sq : queue_wf k (qp_sq q) ∧ 0 < k ∧ queue_list (qp_sq q) = [];
  fq_shared : buf_index_mask (q_buf (qp_sq q)) = q_index_mask (qp_sq q) ∧
    buf_log2_elem_size (q_buf (qp_sq q)) = q_log2_elem_size (qp_sq q);
  fq_slots : Forall (λ w, wqe_has_rd_atomic w = false ∧ wqe_status w = st) (buf_data (q_buf (qp_sq q)));
  fq_pkts : qp_req_pkts q = [] ∧ qp_resp_pkts q = [] ∧ qp_send_pkts q = [];
  fq_req : req_wqe_index (qp_req q) = producer_index (qp_sq q) ∧ req_opcode (qp_req q) = -1 ∧ req_need_retry (qp_req q) = false;
  fq_comp : comp_opcode (qp_comp q) = -1;
  fq_resp : resp_goto_error (qp_resp q) = false ∧ resp_cur_res (qp_resp q) = None ∧ resp_opcode (qp_resp q) = -1 ∧
    resp_resources (qp_resp q) = None;
  fq_arbiter : qp_on_arbiter q = false ∧ qp_req_skb_out q = 0
}.

(** ** After the queue pair is connected *)

(** What connecting and posting do not change. *)
Record same_body (q q' : rxe_qp) : Prop := {
  sb_qp_num : qp_qp_num q' = qp_qp_num q;
  sb_qp_type : qp_qp_type q' = qp_qp_type q;
  sb_ref : qp_ref q' = qp_ref q;
  sb_valid : qp_valid q' = qp_valid q;
  sb_is_user : qp_is_user q' = qp_is_user q;
  sb_pd : qp_pd q' = qp_pd q;
  sb_srq : qp_srq q' = qp_srq q;
  sb_scq : qp_scq q' = qp_scq q;
  sb_rcq : qp_rcq q' = qp_rcq q;
  sb_sq_sig_type : qp_sq_sig_type q' = qp_sq_sig_type q;
  sb_rq : qp_rq q' = qp_rq q;
  sb_req_pkts : qp_req_pkts q' = qp_req_pkts q;
  sb_resp_pkts : qp_resp_pkts q' = qp_resp_pkts q;
  sb_send_pkts : qp_send_pkts q' = qp_send_pkts q;
  sb_on_arbiter : qp_on_arbiter q' = qp_on_arbiter q;
  sb_req_skb_out : qp_req_skb_out q' = qp_req_skb_out q;
  sb_cap : qp_cap q' = qp_cap q
}.

(** The queue pair [x] that connecting makes of [q]. *)
Record connects (a1 a2 a3 : qp_attrs) (q x : rxe_qp) : Prop := {
  cn_body : same_body q x;
  cn_sq : qp_sq x = qp_sq q;
  cn_attr : qa_port_num (qp_attr x) = qa_port_num (ma_attr a1) ∧ qa_pkey_index (qp_attr x) = qa_pkey_index (ma_attr a1) ∧
    qa_qp_access_flags (qp_attr x) = qa_qp_access_flags (ma_attr a1) ∧ qa_dest_qp_num (qp_attr x) = qa_dest_qp_num (ma_attr a2);
  cn_route : qp_pri_av x = route_of (qa_port_num (ma_attr a2)) (ma_ah_attr a2) ∧ qp_mtu_bytes x = 2 ^ (7 + qa_path_mtu (ma_attr a2));
  cn_req : qp_req x = qp_req q <| req_rd_atomic := roundup_pow_of_two (qa_max_rd_atomic (ma_attr a3)) |>
    <| req_psn := qa_sq_psn (ma_attr a3) mod 2 ^ 24 |> <| req_state := QP_STATE_READY |>;
  cn_comp : comp_psn (qp_comp x) = qa_sq_psn (ma_attr a3) mod 2 ^ 24 ∧ comp_opcode (qp_comp x) = comp_opcode (qp_comp q);
  cn_resp : resp_state (qp_resp x) = QP_STATE_READY ∧ resp_psn (qp_resp x) = qa_rq_psn (ma_attr a2) mod 2 ^ 24 ∧
    resp_goto_error (qp_resp x) = resp_goto_error (qp_resp q) ∧ resp_cur_res (qp_resp x) = resp_cur_res (qp_resp q) ∧
    resp_opcode (qp_resp x) = resp_opcode (qp_resp q)
}.

Lemma connected_connects `{Params} a1 a2 a3 s : connects a1 a2 a3 (es_qp s) (es_qp (connected a1 a2 a3 s)).
Proof.
  destruct s as [? [? ? ? [] ? ? ? ? ? ? ? ? ? ? ? ? ? ? ? [] [] []] ? ? ? ?].
  split; [split; reflexivity|reflexivity|..]; repeat split; reflexivity.
Qed.

Lemma connected_rest `{Params} a1 a2 a3 s : let s' := connected a1 a2 a3 s in
  es_dev s' = es_dev s ∧ es_alloc s' = es_alloc s ∧ es_send s' = es_send s ∧ es_jiffies s' = es_jiffies s ∧ es_ev s' = es_ev s.
Proof. destruct s. repeat split. Qed.

(** One host of the session and the attributes it connects its queue pair with. *)
Record side (num k st : Z) (self peer : endpoint) (a1 a2 a3 : qp_attrs) (h : host) (q : rxe_qp) : Prop := {
  si_ok : endpoint_ok self;
  si_qp : h_qps h !! ep_qpn self = Some q ∧ qp_qp_num q = ep_qpn self;
  si_fresh : fresh_qp k st q;
  si_supported : supported a1 a2 a3 (at_qp h q);
  si_num : qa_port_num (ma_attr a1) = num;
  si_dest : qa_dest_qp_num (ma_attr a2) = ep_qpn peer;
  si_gid : ah_dgid_prefix (ma_ah_attr a2) = ep_prefix peer ∧ ah_dgid_guid (ma_ah_attr a2) = ep_guid peer;
  si_port : ∃ port, rdev_ports (h_dev h) !! Z.to_nat (num - 1) = Some port ∧ port_subnet_prefix port = ep_prefix self ∧
    port_guid_tbl port !! Z.to_nat (ah_sgid_index (ma_ah_attr a2)) = Some (ep_guid self) ∧
    port_pkey_tbl port !! Z.to_nat (qa_pkey_index (ma_attr a1)) = Some (ep_pkey self);
  si_first : first_port (h_dev h);
  si_idle : rdev_arbiter (h_dev h) = [] ∧ h_send h = []
}.

Section sides.
Context `{Params} (num k st : Z) (self peer : endpoint) (a1 a2 a3 : qp_attrs) (h : host) (q : rxe_qp).
Context (Hside : side num k st self peer a1 a2 a3 h q).

Lemma side_reset : in_reset (at_qp h q).
Proof using Hside.
  destruct (si_fresh _ _ _ _ _ _ _ _ _ _ Hside). split; [done..|]. intros l Hl. cbn in Hl. destruct fq_resp0 as (_ & _ & _ & Hn). congruence.
Qed.

(** Connecting succeeds. *)
Lemma side_connects depth fuel calls : ∃ x, connects a1 a2 a3 q x ∧
  on_qp (ep_qpn self) (connect depth fuel calls a1 a2 a3) h = Some (Ok tt, back h (ep_qpn self) (at_qp h x)).
Proof using Hside.
  destruct (wp_total (connect depth fuel calls a1 a2 a3) (λ r s', r = Ok tt ∧ s' = connected a1 a2 a3 (at_qp h q)) (at_qp h q))
    as (r & s' & E & -> & ->).
  { apply wp_connect; [apply Hside|apply side_reset|done]. }
  pose proof (connected_connects a1 a2 a3 (at_qp h q)) as Hc. pose proof (connected_rest a1 a2 a3 (at_qp h q)) as Hr. cbv zeta in Hr.
  set (s1 := connected a1 a2 a3 (at_qp h q)) in *. clearbody s1. destruct s1 as [d x al se j ev]. destruct Hr as (R1 & R2 & R3 & R4 & R5).
  cbn in R1, R2, R3, R4, R5. subst. exists x. split; [exact Hc|]. eapply on_qp_run; [apply Hside|exact E].
Qed.

Context (x : rxe_qp) (Hx : connects a1 a2 a3 q x).

Lemma side_attached y :
  qp_attr y = qp_attr x → qp_pri_av y = qp_pri_av x → qp_valid y = qp_valid x → qp_qp_type y = qp_qp_type x →
  qp_qp_num y = qp_qp_num x → attached num (h_dev h) y self peer.
Proof using Hside Hx.
  intros Ha Hav Hv Ht Hn. destruct Hx as [Hb _ (A1 & A2 & A3 & A4) [A5 _] _ _ _]. destruct Hside as [_ [_ Hq] Hf Hs Hnum Hd Hg Hp _ _].
  split; rewrite ?Ha, ?Hav, ?Hv, ?Ht, ?Hn, ?A1, ?A2, ?A4, ?A5; try done.
  - rewrite (sb_valid _ _ Hb). apply Hf.
  - rewrite (sb_qp_type _ _ Hb). apply Hf.
  - by rewrite (sb_qp_num _ _ Hb).
  - apply (ro_grh _ _ (ck_route _ _ _ _ Hs)).
Qed.
End sides.

(** ** After a request is posted *)

(** The data of a request: copied inline, or described by its list. *)
Definition request_data (um : umem) (d : mem_dev) (pd : Z) (wr : post_wr) (sge : list ib_sge) (data : list Z) : Prop :=
  sg_length sge = Z.of_nat (length data) ∧ Z.of_nat (length data) < 2 ^ 31 ∧
  if flag_set (wr_send_flags (sw_wr wr)) IB_SEND_INLINE then (copy_inline um false sge).1 = data
  else refs_pos d ∧ ∃ addrs, stream d pd 0 (stored_dma (sg_length sge) (sw_num_sge wr) [] sge) 0 addrs ∧
    mread (dev_phys d) <$> take (length data) addrs = data.

Lemma posted_source um d pd q wr sge w0 data : request_data um d pd wr sge data → source d pd (send_wqe um q wr sge w0) data.
Proof.
  intros (Hl & Hlt & Hd). unfold source, send_wqe. cbn [wqe_dma wqe_ibwr stored_dma dma_resid dma_sge_offset dma_inline_data].
  rewrite Hl. split; [done|]. split; [done|]. destruct (flag_set (wr_send_flags (sw_wr wr)) IB_SEND_INLINE).
  - split; [done|]. split; [lia|]. rewrite Hd. cbn [Z.to_nat drop]. apply firstn_all.
  - destruct Hd as (Hr & addrs & Hs & Hm). split; [done|]. exists addrs. split; [|done]. exact Hs.
Qed.

Lemma psn_in_window psn0 gap j :
  0 ≤ psn0 < 2 ^ 24 → Z.of_nat j ≤ gap < 2 ^ 23 → psn_compare ((psn0 + Z.of_nat j) mod 2 ^ 24) (u32 (psn0 + gap)) ≤ 0.
Proof.
  intros Hp Hj. rewrite psn_compare_dist. unfold psn_dist. rewrite u32_small by lia. Z.div_mod_to_equations; lia.
Qed.

(** A queue with one element. *)
Lemma push_one {A} k (sq : rxe_queue A) w :
  queue_wf k sq → 0 < k → queue_list sq = [] →
  let sq' := advance_producer (store_at sq (producer_addr sq) w) in
  queue_full sq = false ∧ consumer_index sq = producer_index sq ∧ producer_index sq' ≠ producer_index sq ∧ queue_wf k sq' ∧
  queue_list sq' = [w] ∧ elem_at sq' (consumer_addr sq') = Some w.
Proof.
  intros Hwf Hk Hnil sq'. assert (H2 : 2 ≤ 2 ^ k) by (apply (Z.pow_le_mono_r 2 1 k); lia).
  assert (Hf : queue_full sq = false).
  { rewrite (queue_full_list k) by done. rewrite Hnil. cbn. apply Z.eqb_neq. lia. }
  destruct (queue_push k sq w Hwf Hf) as [Hwf' Hl']. rewrite Hnil in Hl'. cbn in Hl'.
  assert (Hc : consumer_index sq = producer_index sq).
  { pose proof (queue_list_length k sq Hwf) as Hl. rewrite Hnil in Hl. cbn in Hl. by rewrite (emptied_id k sq Hwf) by done. }
  split; [done|]. split; [done|]. split; [|split; [done|split; [done|]]].
  - unfold sq', producer_index. destruct Hwf as [[] Hp _]. cbn. rewrite geom_mask, land_u32_mask by lia. intros E.
    destruct (Z.eq_dec (buf_producer_index (q_buf sq) + 1) (2 ^ k)) as [Hw|Hw]; [rewrite Hw, Z.mod_same in E|rewrite Z.mod_small in E]; lia.
  - by destruct (queue_head_cons k sq' w [] Hwf' Hl') as (_ & -> & _).
Qed.

Lemma first_opcodes wr ops : rc_opcodes wr = Some ops → one_of (-1) [ops.1.1.1; ops.1.1.2] = false.
Proof. unfold rc_opcodes. intros E. repeat (destruct (_ =? _); [injection E as <-; reflexivity|]). done. Qed.

Lemma completions_one q w : (length (completions q [w]) ≤ 1)%nat.
Proof. unfold completions. rewrite length_fmap. cbn [filter list_filter]. case_decide; cbn; lia. Qed.

(** The sender with its request. *)
Record order (um : umem) (self : endpoint) (k nc : Z) (h : host) (q : rxe_qp) (wr : post_wr) (sge : list ib_sge) (cl : list ib_wc)
    (ops : Z * Z * Z * Z) (data : list Z) (mtu : Z) `{Params} : Prop := {
  or_ops : rc_opcodes (wr_opcode (sw_wr wr)) = Some ops;
  or_fits : send_fits q wr sge;
  or_data : request_data um (rdev_mem (h_dev h)) (qp_pd q) wr sge data;
  or_window : Z.of_nat (packets (Z.of_nat (length data)) mtu) ≤ rxe_max_req_comp_gap < 2 ^ 23;
  or_skbs : Z.of_nat (packets (Z.of_nat (length data)) mtu) ≤ rxe_max_skb_per_qp;
  or_cq : ∃ cq, rdev_cqs (h_dev h) !! qp_scq q = Some cq ∧ cq_wf nc cq ∧ cq_list cq = cl;
  or_room : Z.of_nat (length cl) < nc
}.

Section posting.
Context `{Params} (num k st : Z) (self peer : endpoint) (a1 a2 a3 : qp_attrs) (h : host) (q x : rxe_qp).
Context (Hside : side num k st self peer a1 a2 a3 h q) (Hx : connects a1 a2 a3 q x).

Local Abbreviation psn0 := (qa_sq_psn (ma_attr a3) mod 2 ^ 24).

(** The queue pair with the request in its queue. *)
Definition with_order (q : rxe_qp) (w : rxe_send_wqe) (n : Z) : rxe_qp :=
  q <| qp_ssn := n |> <| qp_sq := advance_producer (store_at (qp_sq q) (producer_addr (qp_sq q)) w) |>.

Lemma side_orders um nc wr sge cl ops data :
  order um self k nc h q wr sge cl ops data (qp_mtu_bytes x) →
  let h1 := back h (ep_qpn self) (at_qp h x) in
  ∃ w0 n b, wqe_has_rd_atomic w0 = false ∧ wqe_status w0 = st ∧
    on_qp (ep_qpn self) (rxe_post_send um [wr]) h1 = Some (([], Ok tt), back h1 (ep_qpn self)
      (at_qp h (with_order x (send_wqe um x wr sge w0) n) <| es_ev := [EvTask task_req b] |>)).
Proof using Hside Hx.
  intros [Hops Hfit Hdat Hwin Hskb Hcq Hroom] h1. destruct Hx as [Hb B11 _ _ Hrq _ _].
  destruct Hside as [_ _ Hfr _ _ _ _ _ _ _]. destruct (fq_sq _ _ _ Hfr) as (Hwf & Hk & Hnil).
  destruct (producer_elem k (qp_sq x)) as [w0 Hw0]; [by rewrite B11|].
  destruct (push_one k (qp_sq x) (send_wqe um x wr sge w0)) as (Hf & _); [by rewrite B11|done|by rewrite B11|].
  destruct (post_single um wr sge w0 (at_qp h x)) as [b E].
  - change (qp_valid x = true). rewrite (sb_valid _ _ Hb). apply Hfr.
  - change (req_state (qp_req x) = QP_STATE_READY). by rewrite Hrq.
  - change (qp_is_user x = false). rewrite (sb_is_user _ _ Hb). apply Hfr.
  - exact Hf.
  - apply (send_fits_ext q); [apply Hb|apply Hb|done].
  - exact Hw0.
  - pose proof (fq_slots _ _ _ Hfr) as Hs. unfold elem_at in Hw0. rewrite B11 in Hw0. eapply Forall_lookup_1 in Hs as [Hs1 Hs2]; [|exact Hw0].
    exists w0, (s32 (qp_ssn x + 1)), b. split; [exact Hs1|]. split; [exact Hs2|]. eapply on_qp_run; [apply back_lookup|exact E].
Qed.

(** The posted request waits to be sent. *)
Lemma order_posted um nc wr sge cl ops data w0 n s :
  order um self k nc h q wr sge cl ops data (qp_mtu_bytes x) → wqe_has_rd_atomic w0 = false →
  let w := send_wqe um x wr sge w0 in
  es_dev s = h_dev h → es_qp s = with_order x w n → es_alloc s = h_alloc h → es_send s = h_send h →
  posted self k nc psn0 (wr_remote_addr (sw_wr wr)) (sw_wr wr) ops data w cl s.
Proof using Hside Hx.
  intros [Hops Hfit Hdat Hwin Hskb Hcq Hroom] Hrd w Ed Eq Ea Es.
  destruct Hx as [Hb B11 (A1 & A2 & _) [A5 _] Hrq [Hc1 Hc2] [Hr _]].
  pose proof (Z.mod_pos_bound (qa_sq_psn (ma_attr a3)) (2 ^ 24) ltac:(lia)) as Hpsn.
  destruct Hside as [_ _ Hfr Hsup Hnum _ _ Hport (pt & Hpt & Hg) [Harb Hse]].
  destruct Hfr as [F1 F2 F3 F4 (F5 & F6 & F7) F8 _ (F9 & F10 & F11) (F12 & F13 & F14) F15 _ (F16 & F17)].
  destruct (push_one k (qp_sq x) w) as (P1 & P2 & P3 & P4 & P5 & P6); [by rewrite B11|done|by rewrite B11|].
  destruct s as [d qq al se j ev]. cbn in Ed, Eq, Ea, Es. subst d qq al se.
  split; cbn [es_dev es_qp es_alloc es_send with_order]; try done.
  - split; cbn [es_dev es_qp es_alloc].
    + split; cbn [es_dev es_qp es_alloc].
      * change (qp_valid x = true). by rewrite (sb_valid _ _ Hb).
      * change (req_state (qp_req x) = QP_STATE_READY). by rewrite Hrq.
      * change (req_need_retry (qp_req x) = false). by rewrite Hrq.
      * split; [|done]. change (qp_qp_type x = IB_QPT_RC). by rewrite (sb_qp_type _ _ Hb).
      * change (req_wqe_index (qp_req x) = consumer_index (qp_sq x)). rewrite P2, Hrq, B11. exact F12.
      * change (consumer_index (qp_sq x) ≠ producer_index (qp_sq (with_order x w n))). rewrite P2. intros E. by apply P3.
      * unfold addr_from_index, consumer_addr. cbn. by rewrite B11, (proj2 F8).
      * by right.
      * apply (ck_alloc _ _ _ _ Hsup).
      * destruct Hg as [g Hg], Hport as (port & G1 & G2 & G3 & G4). split; [by exists pt, g|].
        cbn. rewrite A1, A2, A5, Hnum. by exists port, (ep_guid self).
      * intros i Hi. cbn. rewrite Hc1. apply psn_in_window; [done|]. cbn in Hi. lia.
      * cbn. rewrite (sb_req_skb_out _ _ Hb), F17. lia.
    + cbn. by rewrite Hrq, Z.add_0_r, Z.mod_mod.
    + cbn. rewrite Hrq. cbn. rewrite F13. by apply (first_opcodes (wr_opcode (sw_wr wr))).
    + exists w. split; [exact P6|]. split; [done|]. split; [apply Hdat|]. split; [done|]. split; [|done].
      change (source (rdev_mem (h_dev h)) (qp_pd x) w data). rewrite (sb_pd _ _ Hb). by apply posted_source.
  - split; [exact P4|]. split; [exact P5|]. cbn. rewrite (sb_scq _ _ Hb). exact Hcq.
  - change (comp_psn (qp_comp x) = (psn0 + 0) mod 2 ^ 24 ∧ comp_opcode (qp_comp x) = -1).
    by rewrite Hc1, Z.add_0_r, Z.mod_mod, Hc2.
  - pose proof (completions_one (with_order x w n) w). lia.
  - change (qp_send_pkts x = [] ∧ qp_resp_pkts x = []). by rewrite (sb_send_pkts _ _ Hb), (sb_resp_pkts _ _ Hb).
  - split; cbn; [|by rewrite (sb_send_pkts _ _ Hb), F11]. by rewrite (sb_on_arbiter _ _ Hb), F16.
  - cbn. rewrite B11. apply F8.
Qed.
End posting.

(** ** The receiver *)

Section receiver.
Context (num k st : Z) (self peer : endpoint) (a1 a2 a3 : qp_attrs) (h : host) (q x : rxe_qp).
Context (Hside : side num k st self peer a1 a2 a3 h q) (Hx : connects a1 a2 a3 q x).

Lemma mtu_of_path m : RXE_MTU_256 ≤ m ≤ RXE_MTU_8192 → 0 < 2 ^ (7 + m) ≤ 2 ^ 13 ∧ 2 ^ (7 + m) mod 4 = 0.
Proof.
  unfold RXE_MTU_256, RXE_MTU_8192. intros Hm. split; [split; [apply Z.pow_pos_nonneg; lia|apply Z.pow_le_mono_r; lia]|].
  replace (7 + m) with ((5 + m) + 2) by lia. rewrite Z.pow_add_r by lia. apply Z_mod_mult.
Qed.

Lemma side_mtu : 0 < qp_mtu_bytes x ≤ 2 ^ 13 ∧ qp_mtu_bytes x mod 4 = 0.
Proof using Hside Hx.
  rewrite (proj2 (cn_route _ _ _ _ _ Hx)). destruct (ck_port _ _ _ _ (si_supported _ _ _ _ _ _ _ _ _ _ Hside)) as (_ & _ & _ & Hm & _).
  by apply mtu_of_path.
Qed.

Lemma side_quiescent : quiescent (at_qp h x).
Proof using Hside Hx.
  destruct Hside as [_ _ Hf _ _ _ _ _ _ [Ha Hs]]. destruct Hx as [Hb _ _ _ _ _ _].
  destruct (fq_pkts _ _ _ Hf) as (_ & _ & Hsp), (fq_arbiter _ _ _ Hf) as [Har _].
  split; [|split|done]; cbn; rewrite ?(sb_send_pkts _ _ Hb), ?(sb_on_arbiter _ _ Hb), ?Hsp, ?Har; done.
Qed.

Lemma side_awaiting : awaiting (at_qp h x) (qa_rq_psn (ma_attr a2) mod 2 ^ 24) [].
Proof using Hside Hx.
  destruct Hside as [_ _ Hf _ _ _ _ _ _ _]. destruct Hx as [Hb _ _ _ _ _ (R1 & R2 & R3 & R4 & R5)].
  destruct (fq_resp _ _ _ Hf) as (G1 & G2 & G3 & _), (fq_pkts _ _ _ Hf) as (Hp & _).
  split; cbn [at_qp es_qp]; [by rewrite (sb_req_pkts _ _ Hb)|done|congruence|congruence| |by rewrite R5, G3].
  by rewrite R2, Z.add_0_r, Z.mod_mod.
Qed.

Lemma side_receptive : refs_pos (rdev_mem (h_dev h)) → receptive (at_qp h x).
Proof using Hside Hx.
  intros Hr. pose proof side_mtu as [Hm _]. destruct Hside as [_ _ Hf Hs _ _ _ _ (port & Hp & g & Hg) _]. destruct Hx as [Hb _ _ _ _ _ _].
  split; [cbn; rewrite (sb_valid _ _ Hb); apply Hf|cbn; rewrite (sb_qp_type _ _ Hb); apply Hf|exact Hm|apply (ck_alloc _ _ _ _ Hs)|done|].
  by exists port, g.
Qed.

Lemma side_writable :
  refs_pos (rdev_mem (h_dev h)) → flag_set (qa_qp_access_flags (ma_attr a1)) IB_ACCESS_REMOTE_WRITE = true → writable (at_qp h x).
Proof using Hside Hx.
  intros Hr Ha. split; [by apply side_receptive| |apply side_mtu]. cbn. by rewrite (proj1 (proj2 (proj2 (cn_attr _ _ _ _ _ Hx)))).
Qed.
End receiver.

(** ** The session *)

(** What the two sides have agreed on. *)
Record agreed (A B : endpoint) (a2 a3 b2 : qp_attrs) : Prop := {
  ag_keys : pkey_match (ep_pkey A) (ep_pkey B) = true ∧ pkey_match (ep_pkey A) (ep_pkey A) = true;
  ag_mtu : qa_path_mtu (ma_attr a2) = qa_path_mtu (ma_attr b2);
  ag_psn : qa_sq_psn (ma_attr a3) mod 2 ^ 24 = qa_rq_psn (ma_attr b2) mod 2 ^ 24
}.

(** The completion of a request. *)
Definition completion_of (wr : post_wr) (st len num : Z) : ib_wc :=
  zero_wc <| wc_wr_id := wr_id (sw_wr wr) |> <| wc_status := st |>
    <| wc_opcode := wr_to_wc_opcode (wr_opcode (sw_wr wr)) |> <| wc_byte_len := len |> <| wc_qp_num := num |>.

Lemma order_completions um q x st wr sge w0 n (data : list Z) :
  qp_qp_num x = qp_qp_num q → flag_set (wr_send_flags (sw_wr wr)) IB_SEND_SIGNALED = true → wqe_status w0 = st →
  sg_length sge = Z.of_nat (length data) →
  completions (with_order x (send_wqe um x wr sge w0) n) [send_wqe um x wr sge w0] = [completion_of wr st (Z.of_nat (length data)) (qp_qp_num q)].
Proof.
  intros Hn Hs Hw Hl. unfold completions. cbn [filter list_filter]. unfold signaled. rewrite decide_True.
  - cbn. unfold make_send_cqe, completion_of. cbn. by rewrite Hn, Hw, Hl.
  - change (wqe_ibwr (send_wqe um x wr sge w0)) with (sw_wr wr). by rewrite Hs, orb_true_r.
Qed.

Section session.
Context `{Params} (numA numB kA kB stA stB : Z) (A B : endpoint) (a1 a2 a3 b1 b2 b3 : qp_attrs) (hA hB : host) (qA qB xA xB : rxe_qp).
Context (HA : side numA kA stA A B a1 a2 a3 hA qA) (HB : side numB kB stB B A b1 b2 b3 hB qB) (Hag : agreed A B a2 a3 b2).
Context (HxA : connects a1 a2 a3 qA xA) (HxB : connects b1 b2 b3 qB xB).

(** The two ends are connected, also after one has a request. *)
Lemma session_connection y h1 :
  qp_attr y = qp_attr xA → qp_pri_av y = qp_pri_av xA → qp_valid y = qp_valid xA → qp_qp_type y = qp_qp_type xA → qp_qp_num y = qp_qp_num xA →
  h_dev h1 = h_dev hA → h_qps h1 !! ep_qpn A = Some y →
  connection numA numB h1 (back hB (ep_qpn B) (at_qp hB xB)) y xB A B.
Proof using HA HB Hag HxA HxB.
  intros E1 E2 E3 E4 E5 E6 E7. split.
  - split; [apply HA|]. split; [|done]. rewrite E6. by apply (side_attached numA kA stA A B a1 a2 a3 hA qA HA xA HxA).
  - split; [apply HB|]. split; [|apply back_lookup]. by apply (side_attached numB kB stB B A b1 b2 b3 hB qB HB xB HxB).
  - apply Hag.
Qed.
End session.

(** C1: a session. Two new queue pairs on two hosts are connected to each other
    by the three calls of [ib_modify_qp] on each side, with attributes the
    devices support and that agree; one side posts an RDMA write with
    [ib_post_send]; the tasks run and the network delivers. Every call succeeds,
    the data of the request is at the remote address and nothing else changed
    in the memory of the receiver, the send queue is empty, and the completion
    queue has one more completion, the one of this request. Its status is the one
    that was in the slot of the send queue: success in a queue of zeros, but in
    a queue pair that was reset, the error with which an earlier request in that
    slot was flushed. *)
Theorem session_write `{Params} numA numB kA kB stA stB nc stale junk um A B a1 a2 a3 b1 b2 b3 hA hB qA qB wr sge cl addrs data depth fuel calls :
  let total := Z.of_nat (length data) in
  let n := packets total (2 ^ (7 + qa_path_mtu (ma_attr a2))) in
  let va := wr_remote_addr (sw_wr wr) in
  rxe_bypass_arbiter = false → side numA kA stA A B a1 a2 a3 hA qA → side numB kB stB B A b1 b2 b3 hB qB → agreed A B a2 a3 b2 →
  order um A kA nc hA qA wr sge cl write_ops data (2 ^ (7 + qa_path_mtu (ma_attr a2))) →
  wr_opcode (sw_wr wr) = IB_WR_RDMA_WRITE → flag_set (wr_send_flags (sw_wr wr)) IB_SEND_SIGNALED = true → data ≠ [] →
  refs_pos (rdev_mem (h_dev hB)) → flag_set (qa_qp_access_flags (ma_attr b1)) IB_ACCESS_REMOTE_WRITE = true →
  0 ≤ wr_rkey (sw_wr wr) < 2 ^ 32 → 0 ≤ va → va + total < 2 ^ 64 → (n < calls)%nat →
  key_target (rdev_mem (h_dev hB)) (qp_pd qB) IB_ACCESS_REMOTE_WRITE (wr_rkey (sw_wr wr)) va total addrs →
  ∃ hA1 hB1 hA2 hA' hB' qA' cq,
    on_qp (ep_qpn A) (connect depth fuel calls a1 a2 a3) hA = Some (Ok tt, hA1) ∧
    on_qp (ep_qpn B) (connect depth fuel calls b1 b2 b3) hB = Some (Ok tt, hB1) ∧
    on_qp (ep_qpn A) (rxe_post_send um [wr]) hA1 = Some (([], Ok tt), hA2) ∧
    exchange numA numB stale junk (ep_qpn A) (ep_qpn B) (S depth) (12 + fuel) calls hA2 hB1 = Some (hA', hB') ∧
    rdev_mem (h_dev hB') = rdev_mem (h_dev hB) <| dev_phys := mwrite (dev_phys (rdev_mem (h_dev hB))) addrs data |> ∧
    h_qps hA' !! ep_qpn A = Some qA' ∧ queue_list (qp_sq qA') = [] ∧ rdev_cqs (h_dev hA') !! qp_scq qA = Some cq ∧
    cq_list cq = cl ++ [completion_of wr stA total (ep_qpn A)].
Proof.
  intros total n va Hb HA HB Hag Hor Hop Hsig Hd Hrf Hacc Hrk Hva Hvt Hcalls Ht.
  destruct (side_connects _ _ _ _ _ _ _ _ _ _ HA depth fuel calls) as (xA & HxA & EA).
  destruct (side_connects _ _ _ _ _ _ _ _ _ _ HB depth fuel calls) as (xB & HxB & EB).
  pose proof (proj2 (cn_route _ _ _ _ _ HxA)) as Hmtu. pose proof (proj2 (cn_route _ _ _ _ _ HxB)) as HmtuB. rewrite <- (ag_mtu _ _ _ _ _ Hag), <- Hmtu in HmtuB.
  rewrite <- Hmtu in Hor. pose proof Hor as [_ _ Hdat Hwin _ _ _].
  destruct (side_orders _ _ _ _ _ _ _ _ _ _ _ HA HxA um nc wr sge cl write_ops data Hor) as (w0 & m & b & Hrd & Hst & EO).
  set (hA1 := back hA (ep_qpn A) (at_qp hA xA)) in *. set (w := send_wqe um xA wr sge w0) in *. set (y := with_order xA w m) in *.
  set (hA2 := back hA1 (ep_qpn A) (at_qp hA y <| es_ev := [EvTask task_req b] |>)) in *. set (hB1 := back hB (ep_qpn B) (at_qp hB xB)) in *.
  pose proof (order_posted _ _ _ _ _ _ _ _ _ _ _ HA HxA um nc wr sge cl write_ops data w0 m (at_qp hA2 y) Hor Hrd eq_refl eq_refl eq_refl eq_refl) as Hpo.
  pose proof (side_awaiting _ _ _ _ _ _ _ _ _ _ _ HB HxB) as Haw. rewrite <- (ag_psn _ _ _ _ _ Hag) in Haw.
  pose proof (order_completions um qA xA stA wr sge w0 m data (sb_qp_num _ _ (cn_body _ _ _ _ _ HxA)) Hsig Hst (proj1 Hdat)) as Hcp.
  assert (Hco : connection numA numB hA2 hB1 y xB A B) by (eapply session_connection; eauto; apply back_lookup).
  destruct (write_exchanged numA numB stale junk hA2 hB1 y xB A B kA nc (qa_sq_psn (ma_attr a3) mod 2 ^ 24) va (sw_wr wr) addrs data w cl depth fuel calls)
    as (hA' & hB' & qA' & qB' & E & [C1 (_ & C2 & cq & C3 & _ & C4) _ C5] & Hm & _); try done.
  - by apply (side_quiescent _ _ _ _ _ _ _ _ _ _ _ HB HxB).
  - by apply (side_writable _ _ _ _ _ _ _ _ _ _ _ HB HxB).
  - apply Hdat.
  - change (qp_mtu_bytes y) with (qp_mtu_bytes xA). lia.
  - apply Z.mod_pos_bound. lia.
  - change (qp_mtu_bytes y) with (qp_mtu_bytes xA). by rewrite Hmtu.
  - by rewrite (sb_pd _ _ (cn_body _ _ _ _ _ HxB)).
  - exists hA1, hB1, hA2, hA', hB', qA', cq. split; [exact EA|]. split; [exact EB|]. split; [exact EO|]. split; [exact E|]. split; [exact Hm|].
    split; [rewrite C1; apply lookup_insert_eq|]. split; [exact C2|]. split.
    + change (qp_scq y) with (qp_scq xA) in C5. rewrite <- (sb_scq _ _ (cn_body _ _ _ _ _ HxA)), <- C5. exact C3.
    + rewrite C4. unfold y, w. rewrite Hcp. by rewrite (proj2 (si_qp _ _ _ _ _ _ _ _ _ _ HA)).
Qed.

(** ** Two hosts on one link *)

Definition link_local : Z := 0xfe80 * 2 ^ 48.
Definition session_A : endpoint := Endpoint 16 link_local 0x33 0xffff.
Definition session_B : endpoint := Endpoint 17 link_local 0x22 0xffff.

(** The attributes to reach [peer], the sequence numbers about to wrap around. *)
Definition session_args (peer : endpoint) (st : Z) : qp_attrs :=
  QpAttrs (example_attr <| qa_qp_state := st |> <| qa_dest_qp_num := ep_qpn peer |> <| qa_rq_psn := 0xffffff |> <| qa_sq_psn := 0xffffff |>)
    (QpCap 3 3 4 4 0) (AhAttr (ep_prefix peer) (ep_guid peer) 0 0 0 0 0 0 0 0 1 1) (AhAttr 0 0 0 0 0 0 0 0 0 0 0 1).

Definition session_qp (self : endpoint) : rxe_qp :=
  example_qp (example_sq 0 0 (replicate 4 example_slot)) [] 0 0 <| qp_qp_num := ep_qpn self |>
    <| qp_attr := example_attr <| qa_qp_state := IB_QPS_RESET |> |>
    <| qp_req ::= λ r, r <| req_state := QP_STATE_RESET |> |> <| qp_resp ::= λ r, r <| resp_state := QP_STATE_RESET |> |>.

Definition session_host (self : endpoint) (phys : gmap Z Z) : host :=
  Host (example_rdev <| rdev_ports := [Port 0 3 [ep_pkey self] [ep_guid self] (ep_prefix self) 4096 0 1 0 0] |>
          <| rdev_mem ::= λ m, m <| dev_phys := phys |> |>)
    {[ep_qpn self := session_qp self]} ∅ [] [] 1000 [].

(** A signaled write of six bytes. *)
Definition session_wr : post_wr :=
  PostWr (SendWr 11 IB_WR_RDMA_WRITE IB_SEND_SIGNALED 0 0 1000 0x102 0 0 0 0 0) 3 [Sge 1000 2 0x102; Sge 0 0 0; Sge 1003 4 0x102] example_av.

Lemma session_side self peer phys :
  (self = session_A ∧ peer = session_B) ∨ (self = session_B ∧ peer = session_A) →
  side 1 2 0 self peer (session_args peer IB_QPS_INIT) (session_args peer IB_QPS_RTR) (session_args peer IB_QPS_RTS)
    (session_host self phys) (session_qp self).
Proof.
  intros [[-> ->]|[-> ->]]; (split;
    [split; vm_compute; intuition discriminate|split; reflexivity| | |reflexivity|reflexivity|split; reflexivity|
     eexists; repeat split; reflexivity|eexists; split; [reflexivity|eexists; reflexivity]|split; reflexivity]).
  1, 3: split; try reflexivity; try (repeat split; reflexivity);
    [split; [split; [split|..]; cbn; lia || done|split; [lia|reflexivity]]|by repeat constructor].
  all: split; try reflexivity; [repeat split|split; [eexists; split; [reflexivity|cbn; lia]|reflexivity|reflexivity]| | |].
  all: vm_compute; try (intuition discriminate).
  all: split; [discriminate|]; eexists; split; [reflexivity|]; intuition discriminate.
Qed.

Lemma session_order :
  order (H := example_params) (Umem (λ _ _, []) (λ _ _, false)) session_A 2 3 (session_host session_A example_phys) (session_qp session_A)
    session_wr (sw_sg_list session_wr) [] write_ops example_data 256.
Proof.
  split.
  - reflexivity.
  - split; [vm_compute; discriminate|cbn; lia|reflexivity|vm_compute; discriminate|vm_compute; discriminate].
  - split; [reflexivity|]. split; [reflexivity|]. split; [apply example_refs_pos|].
    exists [101; 102; 200; 201; 202; 203]. split; [apply (example_stream 0); by left|reflexivity].
  - change (packets _ _) with 1%nat. cbn. lia.
  - change (packets _ _) with 1%nat. cbn. lia.
  - exists (example_cq 0). split; [reflexivity|]. split; [apply example_cq_wf|reflexivity].
  - cbn. lia.
Qed.

Lemma session_write_witness :
  let hA := session_host session_A example_phys in
  let hB := session_host session_B ∅ in
  ∃ hA1 hB1 hA2 hA' hB' cq,
    on_qp 16 (connect (H := example_params) 0 0 2 (session_args session_B IB_QPS_INIT) (session_args session_B IB_QPS_RTR)
      (session_args session_B IB_QPS_RTS)) hA = Some (Ok tt, hA1) ∧
    on_qp 17 (connect (H := example_params) 0 0 2 (session_args session_A IB_QPS_INIT) (session_args session_A IB_QPS_RTR)
      (session_args session_A IB_QPS_RTS)) hB = Some (Ok tt, hB1) ∧
    on_qp 16 (rxe_post_send (Umem (λ _ _, []) (λ _ _, false)) [session_wr]) hA1 = Some (([], Ok tt), hA2) ∧
    exchange (H := example_params) 1 1 true example_junk 16 17 1 12 2 hA2 hB1 = Some (hA', hB') ∧
    mread (dev_phys (rdev_mem (h_dev hB'))) <$> [101; 102; 103; 200; 201; 202; 203] = example_data ++ [0] ∧
    rdev_cqs (h_dev hA') !! 1 = Some cq ∧
    (λ wc, (wc_wr_id wc, wc_status wc)) <$> cq_list cq = [(11, IB_WC_SUCCESS)].
Proof.
  intros hA hB. destruct (session_write (H := example_params) 1 1 2 2 0 0 3 true example_junk (Umem (λ _ _, []) (λ _ _, false)) session_A session_B
    (session_args session_B IB_QPS_INIT) (session_args session_B IB_QPS_RTR) (session_args session_B IB_QPS_RTS)
    (session_args session_A IB_QPS_INIT) (session_args session_A IB_QPS_RTR) (session_args session_A IB_QPS_RTS)
    hA hB (session_qp session_A) (session_qp session_B) session_wr (sw_sg_list session_wr) [] [101; 102; 103; 200; 201; 202] example_data 0 0 2)
    as (hA1 & hB1 & hA2 & hA' & hB' & qA' & cq & E1 & E2 & E3 & E4 & Hm & _ & _ & Hcq & Hl).
  - reflexivity.
  - apply session_side. by left.
  - apply session_side. by right.
  - split; [split; reflexivity|reflexivity|reflexivity].
  - apply session_order.
  - reflexivity.
  - reflexivity.
  - discriminate.
  - apply (refs_pos_phys example_dev), example_refs_pos.
  - reflexivity.
  - cbn. lia.
  - cbn. lia.
  - reflexivity.
  - vm_compute. lia.
  - destruct example_target as (p & m & mp & bs & H1 & H2 & H3). exists p, m, mp, bs. split; [exact H1|]. split; [|exact H3].
    destruct p; exact H2.
  - exists hA1, hB1, hA2, hA', hB', cq. do 4 (split; [assumption|]). rewrite Hm. split; [vm_compute; reflexivity|]. split; [exact Hcq|].
    by rewrite Hl.
Defined.
