(* ===== verification/QpInit.v ===== *)
(** * Creating and destroying queue pairs (rxe_qp.c, rxe_verbs.c, core/verbs.c)

    A queue pair is made in the steps of the code: a zeroed element of the pool,
    its number, the references it takes to the objects it uses, the send and
    the receive queue; and it is taken down by stopping its tasks, emptying its
    queues and giving everything back when the last reference is dropped. *)

From stdpp Require Import gmap.
From S2P Require Import Prelude Opcode Hdr Verbs Mmap Queue Mr Cq State QpState Comp Arbiter Req Resp Qp QpReset Host Mcast Exchange.

(** ** The state

    The objects a queue pair uses are counted twice: by the driver, whose
    counts are those of the pools, and by the core, which refuses to destroy an
    object in use. *)

Inductive obj : Type := OPd (pd : Z) | OCq (cq : Z) | OSrq (srq : Z).

#[export] Instance obj_eq_dec : EqDecision obj.
Proof. solve_decision. Defined.

Record life := Life {
  lf_mc : mc_state;
  lf_mm : mmap_dev;
  lf_refs : obj → Z;
  lf_usecnt : obj → Z
}.

#[export] Instance eta_life : Eta life := fun r => Life (lf_mc r) (lf_mm r) (lf_refs r) (lf_usecnt r).

Definition count (o : obj) (n : Z) (c : obj → Z) : obj → Z := λ o', if decide (o' = o) then c o' + n else c o'.

Definition obj_add_ref (o : obj) (l : life) : life := l <| lf_refs ::= count o 1 |>.
Definition obj_drop_ref (o : obj) (l : life) : life := l <| lf_refs ::= count o (-1) |>.

Definition add_ref_opt (o : option obj) (l : life) : life := match o with Some o => obj_add_ref o l | None => l end.
Definition drop_ref_opt (o : option obj) (l : life) : life := match o with Some o => obj_drop_ref o l | None => l end.

Definition lf_host (l : life) : host := mc_host (lf_mc l).
Definition lf_upd_host (f : host → host) (l : life) : life := l <| lf_mc ::= upd_host f |>.
Definition lf_upd_qp (i : Z) (f : rxe_qp → rxe_qp) : life → life := lf_upd_host (h_upd_qp i f).
Definition lf_qp (i : Z) (l : life) : option rxe_qp := h_qps (lf_host l) !! i.

(** [struct ib_qp_init_attr]; completion queues, protection domains and shared
    receive queues are named by numbers. *)
Record ib_qp_init_attr := QpInitAttr {
  ia_has_event_handler : bool;
  ia_send_cq : option Z;
  ia_recv_cq : option Z;
  ia_srq : option Z;
  ia_cap : ib_qp_cap;
  ia_sq_sig_type : Z;
  ia_qp_type : Z;
  ia_port_num : Z
}.

#[export] Instance eta_ib_qp_init_attr : Eta ib_qp_init_attr := fun r =>
  QpInitAttr (ia_has_event_handler r) (ia_send_cq r) (ia_recv_cq r) (ia_srq r) (ia_cap r) (ia_sq_sig_type r)
    (ia_qp_type r) (ia_port_num r).

(** ** Checks *)

Definition rxe_qp_chk_init (rxe : rxe_dev) (init : ib_qp_init_attr) : option (result unit) :=
  match ia_recv_cq init, ia_send_cq init with
  | Some _, Some _ =>
      match rxe_qp_chk_cap (rdev_attr rxe) (ia_cap init) (bool_decide (is_Some (ia_srq init))) with
      | Err _ => Some (Err EINVAL)
      | Ok _ =>
          if (ia_qp_type init =? IB_QPT_SMI) || (ia_qp_type init =? IB_QPT_GSI) then
            if (ia_port_num init <? 1) || (ia_port_num init >? Z.of_nat (length (rdev_ports rxe))) then Some (Err EINVAL)
            else
              port ← rdev_ports rxe !! Z.to_nat (ia_port_num init - 1);
              if (ia_qp_type init =? IB_QPT_SMI) && negb (port_qp_smi_index port =? 0) then Some (Err EINVAL)
              else if (ia_qp_type init =? IB_QPT_GSI) && negb (port_qp_gsi_index port =? 0) then Some (Err EINVAL)
              else Some (Ok tt)
          else Some (Ok tt)
      end
  | _, _ => Some (Err EINVAL)
  end.

(** ** A new element of the pool

    The memory is zeroed. The record has a send queue in any case; [has_sq]
    below says whether the pointer to it is set. *)

Definition zero_av : rxe_av := Av (AhAttr 0 0 0 0 0 0 0 0 0 0 0 0) (replicate 6 0).
Definition zero_dma : rxe_dma_info := Dma 0 0 0 0 0 [] [].
Definition zero_send_wqe : rxe_send_wqe :=
  SendWqe (SendWr 0 0 0 0 0 0 0 0 0 0 0 0) zero_av 0 wqe_state_posted 0 0 0 0 0 0 false zero_dma.
Definition zero_recv_wqe : rxe_recv_wqe := RecvWqe 0 0 zero_dma.

Definition no_queue {A} : rxe_queue A := Queue (QueueBuf 0 0 0 0 []) 0 None 0 0 0 0.

Definition zero_attr : ib_qp_attr := QpAttr 0 0 0 0 0 0 0 0 0 0 0 false 0 0 0 0 0 0 0 0 0 0.

Definition zero_resp : rxe_resp_info :=
  RespInfo QP_STATE_RESET 0 0 0 false false false 0 0 None 0 None 0 0 0 zero_recv_wqe None 0 0 None.

Definition zero_qp : rxe_qp :=
  Qp 0 0 1 zero_attr false 0 false 0 None 0 0 0 false no_queue None zero_av [] [] []
    (ReqInfo QP_STATE_RESET 0 0 0 0 false false false false 0) (CompInfo 0 0 false false 0 0) zero_resp
    false 0 0 0 0 false None 0 None zero_av [] (QpCap 0 0 0 0 0).

(** ** Creation *)

(** The port is only looked at for the special queue pairs. *)
Definition rxe_qp_init_misc (i : Z) (init : ib_qp_init_attr) (l : life) : option life :=
  let l := lf_upd_qp i (λ q, q <| qp_sq_sig_type := ia_sq_sig_type init |>
                               <| qp_attr ::= λ a, a <| qa_path_mtu := 1 |> |> <| qp_mtu_bytes := 256 |>) l in
  let special (num : Z) (set : rxe_port → rxe_port) :=
    _ ← rdev_ports (h_dev (lf_host l)) !! Z.to_nat (ia_port_num init - 1);
    Some (lf_upd_qp i (λ q, q <| qp_qp_num := num |> <| qp_attr ::= λ a, a <| qa_port_num := ia_port_num init |> |>)
      (lf_upd_host (λ h, h <| h_dev ::= λ d, d <| rdev_ports ::= alter set (Z.to_nat (ia_port_num init - 1)) |> |>) l)) in
  l ← (if ia_qp_type init =? IB_QPT_SMI then special 0 (λ p, p <| port_qp_smi_index := i |>)
       else if ia_qp_type init =? IB_QPT_GSI then special 1 (λ p, p <| port_qp_gsi_index := i |>)
       else Some (lf_upd_qp i (λ q, q <| qp_qp_num := i |>) l));
  Some (lf_upd_qp i (λ q, q <| qp_on_arbiter := false |> <| qp_grp_list := [] |> <| qp_send_pkts := [] |> <| qp_ssn := 0 |>
    <| qp_req_skb_in := 0 |> <| qp_req_skb_out := 0 |> <| qp_resp_skb_out := 0 |>) l).

Definition sizeof_rxe_send_wqe : Z := 200.
Definition sizeof_rxe_recv_wqe : Z := 40.
Definition sizeof_ib_sge : Z := 16.

(** The first component of the result says whether the queue exists. When the
    information for user space cannot be made, the queue is freed and then its
    producer index is read: [None]. *)
Definition rxe_qp_init_req (cache_line_size : Z) (env : alloc_env) (i context : Z) (udata : option Z)
    (init : ib_qp_init_attr) (l : life) : option (bool * life * result unit) :=
  let max_sge := s32 (cap_max_send_sge (ia_cap init)) in
  let max_inline := s32 (cap_max_inline_data (ia_cap init)) in
  let wqe_size := Z.max (s32 (sizeof_rxe_send_wqe + max_sge * sizeof_ib_sge)) (s32 (sizeof_rxe_send_wqe + max_inline)) in
  let l := lf_upd_qp i (λ q, q <| qp_cap ::= λ c, c <| cap_max_send_wr := cap_max_send_wr (ia_cap init) |>
                                    <| cap_max_send_sge := max_sge |> <| cap_max_inline_data := max_inline |> |>) l in
  match rxe_queue_init zero_send_wqe cache_line_size (env_kmalloc_queue env) (env_vmalloc env)
          (cap_max_send_wr (ia_cap init)) wqe_size with
  | None => Some (false, l, Err ENOMEM)
  | Some (queue, max_wr) =>
      match do_mmap_info (env_kmalloc_ip env) (env_copy_to_user env) (lf_mm l) udata sizeof_mminfo context
              (q_buf_ptr queue) (q_buf_size queue) with
      | (_, Err _) => None
      | (mm, Ok ip) =>
          let queue := queue <| q_ip := ip |> in
          Some (true, lf_upd_qp i (λ q, q <| qp_cap ::= λ c, c <| cap_max_send_wr := max_wr |> |> <| qp_sq := queue |>
                  <| qp_req ::= λ r, r <| req_wqe_index := producer_index queue |> <| req_state := QP_STATE_RESET |>
                                       <| req_opcode := -1 |> |>
                  <| qp_comp ::= λ c, c <| comp_opcode := -1 |> |> <| qp_req_pkts := [] |>
                  <| qp_rnr_nak_timer := None |> <| qp_retrans_timer := None |> <| qp_timeout_jiffies := 0 |>)
                (l <| lf_mm := mm |>), Ok tt)
      end
  end.

(** The error of [do_mmap_info] is lost: the queue pair has a receive queue
    that was freed. *)
Definition rxe_qp_init_resp (cache_line_size : Z) (env : alloc_env) (i context : Z) (udata : option Z)
    (init : ib_qp_init_attr) (l : life) : option (life * result unit) :=
  q ← lf_qp i l;
  let start := λ q, q <| qp_resp_pkts := [] |>
    <| qp_resp ::= λ r, r <| resp_opcode := -1 |> <| resp_msn := 0 |> <| resp_state := QP_STATE_RESET |> |> in
  match qp_srq q with
  | Some _ => Some (lf_upd_qp i start l, Ok tt)
  | None =>
      let max_sge := s32 (cap_max_recv_sge (ia_cap init)) in
      let l := lf_upd_qp i (λ q, q <| qp_cap ::= λ c, c <| cap_max_recv_wr := cap_max_recv_wr (ia_cap init) |>
                                        <| cap_max_recv_sge := max_sge |> |>) l in
      match rxe_queue_init zero_recv_wqe cache_line_size (env_kmalloc_queue env) (env_vmalloc env)
              (cap_max_recv_wr (ia_cap init)) (s32 (sizeof_rxe_recv_wqe + max_sge * sizeof_ib_sge)) with
      | None => Some (l, Err ENOMEM)
      | Some (queue, max_wr) =>
          let l := lf_upd_qp i (λ q, q <| qp_cap ::= λ c, c <| cap_max_recv_wr := max_wr |> |>) l in
          match do_mmap_info (env_kmalloc_ip env) (env_copy_to_user env) (lf_mm l) udata 0 context
                  (q_buf_ptr queue) (q_buf_size queue) with
          | (mm, Err _) =>
              let l := l <| lf_mm := mm <| vfreed ::= cons (q_buf_ptr queue) |> |> in
              Some (lf_upd_qp i (start ∘ λ q, q <| qp_rq := Some queue |>) l, Ok tt)
          | (mm, Ok ip) =>
              Some (lf_upd_qp i (start ∘ λ q, q <| qp_rq := Some (queue <| q_ip := ip |>) |>) (l <| lf_mm := mm |>), Ok tt)
          end
      end
  end.

(** [env] and [env'] answer for the send and the receive queue. *)
Definition rxe_qp_from_init (cache_line_size : Z) (env env' : alloc_env) (i pd context : Z) (udata : option Z)
    (init : ib_qp_init_attr) (l : life) : option (bool * life * result unit) :=
  rcq ← ia_recv_cq init;
  scq ← ia_send_cq init;
  let srq := OSrq <$> ia_srq init in
  let l := add_ref_opt srq (obj_add_ref (OCq scq) (obj_add_ref (OCq rcq) (obj_add_ref (OPd pd) l))) in
  let drop_all (l : life) := obj_drop_ref (OPd pd) (obj_drop_ref (OCq rcq) (obj_drop_ref (OCq scq) (drop_ref_opt srq l))) in
  let l := lf_upd_qp i (λ q, q <| qp_pd := pd |> <| qp_rcq := rcq |> <| qp_scq := scq |> <| qp_srq := ia_srq init |>) l in
  l ← rxe_qp_init_misc i init l;
  '(has_sq, l, err) ← rxe_qp_init_req cache_line_size env i context udata init l;
  match err with
  | Err e => Some (has_sq, drop_all l, Err e)
  | Ok _ =>
      '(l, err) ← rxe_qp_init_resp cache_line_size env' i context udata init l;
      match err with
      | Err e =>
          q ← lf_qp i l;
          Some (has_sq, drop_all (l <| lf_mm ::= λ mm, rxe_queue_cleanup mm (qp_sq q) |>), Err e)
      | Ok _ =>
          Some (has_sq, lf_upd_qp i (λ q, q <| qp_attr ::= λ a, a <| qa_qp_state := IB_QPS_RESET |> |> <| qp_valid := true |>) l, Ok tt)
      end
  end.

(** Run when the last reference to the queue pair is dropped. *)
Definition rxe_qp_cleanup `{Params} (has_sq : bool) (i : Z) (l : life) : option life :=
  mc ← rxe_drop_all_mcast_groups i (lf_mc l);
  let l := l <| lf_mc := mc |> in
  q ← lf_qp i l;
  let l := if has_sq then l <| lf_mm ::= λ mm, rxe_queue_cleanup mm (qp_sq q) |> else l in
  let l := drop_ref_opt (OSrq <$> qp_srq q) l in
  let l := match qp_rq q with Some rq => l <| lf_mm ::= λ mm, rxe_queue_cleanup mm rq |> | None => l end in
  let l := obj_drop_ref (OPd (qp_pd q)) (obj_drop_ref (OCq (qp_rcq q)) (obj_drop_ref (OCq (qp_scq q)) l)) in
  '(_, h) ← on_qp i (drop_resp_mr;; free_rd_atomic_resources) (lf_host l);
  Some (lf_upd_host (λ _, h) l).

(** A queue pair that is still referenced is no longer in the tree of the
    pool, but it stays in the map with [qp_valid] false, so that every packet
    that names it is refused as if it was not found. *)
Definition qp_put `{Params} (has_sq : bool) (i : Z) (l : life) : option life :=
  q ← lf_qp i l;
  let l := lf_upd_qp i (λ q, q <| qp_ref ::= (λ n, n - 1) |>) l in
  if qp_ref q =? 1 then
    l ← rxe_qp_cleanup has_sq i l;
    Some (lf_upd_host (λ h, h <| h_qps ::= delete i |>) l)
  else Some l.

(** [slot] is the index the pool gives the new element, [None] when there is
    no element left. *)
Definition rxe_create_qp `{Params} (cache_line_size : Z) (slot : option Z) (env env' : alloc_env) (pd context : Z)
    (udata : option Z) (init : ib_qp_init_attr) (l : life) : option (life * result Z) :=
  err ← rxe_qp_chk_init (h_dev (lf_host l)) init;
  match err with
  | Err e => Some (l, Err e)
  | Ok _ =>
      match slot with
      | None => Some (l, Err ENOMEM)
      | Some i =>
          let q := zero_qp <| qp_is_user := bool_decide (is_Some udata) |> in
          let l := lf_upd_host (λ h, h <| h_qps ::= <[i := q]> |>) l in
          '(has_sq, l, err) ← rxe_qp_from_init cache_line_size env env' i pd context udata init l;
          match err with
          | Err e => l ← qp_put has_sq i l; Some (l, Err e)
          | Ok _ => Some (l, Ok i)
          end
      end
  end.

Definition users (pd : Z) (scq rcq : Z) (srq : option Z) : list obj :=
  [OPd pd; OCq scq; OCq rcq] ++ match srq with Some s => [OSrq s] | None => [] end.

Definition use_all (n : Z) (os : list obj) (l : life) : life := l <| lf_usecnt ::= λ c, foldr (λ o, count o n) c os |>.

(** The core: a kernel client has no user data. *)
Definition ib_create_qp `{Params} (cache_line_size : Z) (slot : option Z) (env env' : alloc_env) (pd : Z)
    (init : ib_qp_init_attr) (l : life) : option (life * result Z) :=
  '(l, r) ← rxe_create_qp cache_line_size slot env env' pd 0 None init l;
  match r with
  | Err e => Some (l, Err e)
  | Ok i =>
      scq ← ia_send_cq init;
      rcq ← ia_recv_cq init;
      Some (use_all 1 (users pd scq rcq (ia_srq init))
        (lf_upd_qp i (λ q, q <| qp_has_event_handler := ia_has_event_handler init |> <| qp_qp_type := ia_qp_type init |>) l), Ok i)
  end.

(** ** Destruction *)

Section destroy.
Context `{Params} (depth fuel calls : nat).

Definition arb_of (h : host) : arb_state := Arb (h_dev h) (h_qps h) (h_send h) [].

(** [__rxe_do_task] of the arbiter. *)
Fixpoint do_arbiter_task (n : nat) (a : arb_state) : option arb_state :=
  match n with
  | O => None
  | S n => '(ret, a) ← rxe_arbiter a; if ret =? 0 then do_arbiter_task n a else Some a
  end.

(** The loop that drains the output queue; it goes on until the queue pair has
    left the list of the arbiter. *)
Fixpoint drain_output (n : nat) (i : Z) (a : arb_state) : option arb_state :=
  match n with
  | O => None
  | S n =>
      q ← arb_qps a !! i;
      if qp_on_arbiter q then a ← do_arbiter_task calls a; drain_output n i a else Some a
  end.

(** The tasks have been stopped: what is left of them are the calls here. *)
Definition destroy_tasks : eng unit :=
  mod_qp (λ q, q <| qp_valid := false |> <| qp_timeout_jiffies := 0 |> <| qp_retrans_timer := None |> <| qp_rnr_nak_timer := None |>);;
  do_req_task depth fuel calls;;
  do_comp_task depth fuel calls;;
  do_req_task depth fuel calls.

Definition rxe_qp_destroy (i : Z) (l : life) : option life :=
  '(_, h) ← on_qp i destroy_tasks (lf_host l);
  a ← drain_output calls i (arb_of h);
  Some (lf_upd_host (λ _, h <| h_dev := arb_dev a |> <| h_qps := arb_qps a |> <| h_send := arb_send a |>
                           <| h_ev ::= (λ ev, ev ++ (HQp i <$> arb_ev a)) |>) l).

Definition rxe_destroy_qp (i : Z) (l : life) : option life := l ← rxe_qp_destroy i l; qp_put true i l.

Definition ib_destroy_qp (i : Z) (l : life) : option life :=
  q ← lf_qp i l;
  l ← rxe_destroy_qp i l;
  Some (use_all (-1) (users (qp_pd q) (qp_scq q) (qp_rcq q) (qp_srq q)) l).
End destroy.

(** ** Attributes (the query verb) *)

(** With a shared receive queue the limits of the receive queue stay what the
    caller had in the structure. *)
Definition rxe_qp_to_init (q : rxe_qp) (init : ib_qp_init_attr) : ib_qp_init_attr :=
  let cap := qp_cap q in
  QpInitAttr (qp_has_event_handler q) (Some (qp_scq q)) (Some (qp_rcq q)) (qp_srq q)
    (match qp_srq q with
     | None => cap
     | Some _ => cap <| cap_max_recv_wr := cap_max_recv_wr (ia_cap init) |>
                     <| cap_max_recv_sge := cap_max_recv_sge (ia_cap init) |>
     end) (qp_sq_sig_type q) (qp_qp_type q) 1.

Definition rxe_query_qp (q : rxe_qp) (init : ib_qp_init_attr) : ib_qp_init_attr * qp_attrs :=
  (rxe_qp_to_init q init, rxe_qp_to_attr q).

(** ** New queues *)

Lemma roundup_le n k : 1 ≤ n ≤ 2 ^ k → 0 ≤ k ≤ 31 → 1 ≤ roundup_pow_of_two n ≤ 2 ^ k.
Proof.
  intros Hn Hk. assert (2 ^ k ≤ 2 ^ 31) by (apply Z.pow_le_mono_r; lia).
  destruct (roundup_pow_of_two_spec n) as (j & Hj & -> & Hb); [lia|]. split; [lia|].
  apply Z.pow_le_mono_r; [lia|]. assert (2 ^ j < 2 ^ (k + 1)) as Hlt%Z.pow_lt_mono_r_iff by (rewrite Z.pow_add_r; lia); lia.
Qed.

(** A queue of at most [0x4000] elements of at most 1024 bytes. *)
Lemma new_queue {A} (zero : A) cache_line_size ptr num_elem elem_size :
  0 ≤ num_elem ≤ 0x4000 → 0 < elem_size ≤ 1024 → cache_line_size ≤ 1024 →
  ∃ q k, rxe_queue_init zero cache_line_size true (Some ptr) num_elem elem_size = Some (q, 2 ^ k - 1) ∧
    queue_wf k q ∧ queue_list q = [] ∧ num_elem ≤ 2 ^ k - 1 ∧ q_ip q = None ∧ q_buf_ptr q = ptr ∧ producer_index q = 0 ∧
    buf_index_mask (q_buf q) = q_index_mask q ∧ buf_log2_elem_size (q_buf q) = q_log2_elem_size q ∧
    Forall (λ x, x = zero) (buf_data (q_buf q)).
Proof.
  intros Hn He Hc.
  destruct (rxe_queue_init_spec zero cache_line_size ptr num_elem elem_size) as (q & n & E & (k & Hk & Hkn) & Hnil & Hcap & _ & Hptr & _);
    [lia..| |].
  { unfold queue_bytes, sizeof_rxe_queue_buf. pose proof (roundup_le (num_elem + 1) 15). pose proof (roundup_le (Z.max elem_size cache_line_size) 10). nia. }
  exists q, k. subst n. split; [done|]. split; [done|]. split; [exact Hnil|]. split; [lia|].
  unfold rxe_queue_init in E. destruct (num_elem <? 0); [done|]. cbn [negb] in E. injection E as <- _. cbn.
  do 5 (split; [done|]). by apply Forall_replicate.
Qed.

(** ** Creation, step by step *)

(** The new queue pair in its place. *)
Definition placed (i : Z) (q : rxe_qp) (l : life) : life := lf_upd_host (λ h, h <| h_qps ::= <[i := q]> |>) l.

Lemma placed_upd i f q l : lf_upd_qp i f (placed i q l) = placed i (f q) l.
Proof.
  destruct l as [[h fl er] mm rf us]. unfold lf_upd_qp, placed, lf_upd_host, upd_host, h_upd_qp, upd_field. cbn.
  do 3 f_equal. apply alter_insert_eq.
Qed.

Lemma placed_lookup i q l : lf_qp i (placed i q l) = Some q.
Proof. apply lookup_insert_eq. Qed.

Lemma placed_deleted i q l :
  lf_qp i l = None → lf_upd_host (λ h, h <| h_qps ::= delete i |>) (placed i q l) = l.
Proof.
  destruct l as [[h fl er] mm rf us]. unfold lf_qp, lf_host. cbn. intros Hi.
  unfold placed, lf_upd_host, upd_host, upd_field. cbn. rewrite delete_insert_id by done. by destruct h.
Qed.

Lemma placed_ports i q l : rdev_ports (h_dev (lf_host (placed i q l))) = rdev_ports (h_dev (lf_host l)).
Proof. done. Qed.

Lemma placed_dev i q f l :
  lf_upd_host (λ h, h <| h_dev ::= f |>) (placed i q l) = placed i q (lf_upd_host (λ h, h <| h_dev ::= f |>) l).
Proof. done. Qed.

Definition special (type : Z) : bool := (type =? IB_QPT_SMI) || (type =? IB_QPT_GSI).

(** The number of the queue pair, and what its port remembers of it. *)
Definition number (i type : Z) : Z := if type =? IB_QPT_SMI then 0 else if type =? IB_QPT_GSI then 1 else i.

Definition mark (i type : Z) (p : rxe_port) : rxe_port :=
  if type =? IB_QPT_SMI then p <| port_qp_smi_index := i |> else p <| port_qp_gsi_index := i |>.

Definition claim_port (i : Z) (init : ib_qp_init_attr) (l : life) : life :=
  if special (ia_qp_type init) then
    lf_upd_host (λ h, h <| h_dev ::= λ d, d <| rdev_ports ::= alter (mark i (ia_qp_type init)) (Z.to_nat (ia_port_num init - 1)) |> |>) l
  else l.

Definition misc (i : Z) (init : ib_qp_init_attr) (q : rxe_qp) : rxe_qp :=
  q <| qp_sq_sig_type := ia_sq_sig_type init |> <| qp_mtu_bytes := 256 |>
    <| qp_attr ::= λ a, a <| qa_path_mtu := 1 |> <| qa_port_num ::= (λ n, if special (ia_qp_type init) then ia_port_num init else n) |> |>
    <| qp_qp_num := number i (ia_qp_type init) |> <| qp_on_arbiter := false |> <| qp_grp_list := [] |> <| qp_send_pkts := [] |>
    <| qp_ssn := 0 |> <| qp_req_skb_in := 0 |> <| qp_req_skb_out := 0 |> <| qp_resp_skb_out := 0 |>.

Lemma init_misc_placed i init q l :
  (special (ia_qp_type init) = true → is_Some (rdev_ports (h_dev (lf_host l)) !! Z.to_nat (ia_port_num init - 1))) →
  rxe_qp_init_misc i init (placed i q l) = Some (placed i (misc i init q) (claim_port i init l)).
Proof.
  unfold rxe_qp_init_misc, claim_port, misc, special, number, mark. rewrite !placed_upd.
  destruct (ia_qp_type init =? IB_QPT_SMI); cbn [orb]; [|destruct (ia_qp_type init =? IB_QPT_GSI)]; intros Hp; cbn [mbind option_bind].
  1, 2: destruct (Hp eq_refl) as [port Hport]; rewrite placed_ports, Hport; cbn [mbind option_bind]; rewrite placed_dev.
  all: rewrite !placed_upd; by destruct q as [? ? ? []].
Qed.

Definition send_wqe_size (init : ib_qp_init_attr) : Z :=
  Z.max (s32 (sizeof_rxe_send_wqe + s32 (cap_max_send_sge (ia_cap init)) * sizeof_ib_sge))
        (s32 (sizeof_rxe_send_wqe + s32 (cap_max_inline_data (ia_cap init)))).

Definition recv_wqe_size (init : ib_qp_init_attr) : Z :=
  s32 (sizeof_rxe_recv_wqe + s32 (cap_max_recv_sge (ia_cap init)) * sizeof_ib_sge).

Definition send_caps (max_wr : Z) (init : ib_qp_init_attr) (q : rxe_qp) : rxe_qp :=
  q <| qp_cap ::= λ c, c <| cap_max_send_wr := max_wr |> <| cap_max_send_sge := s32 (cap_max_send_sge (ia_cap init)) |>
                         <| cap_max_inline_data := s32 (cap_max_inline_data (ia_cap init)) |> |>.

Definition with_sq (queue : rxe_queue rxe_send_wqe) (max_wr : Z) (init : ib_qp_init_attr) (q : rxe_qp) : rxe_qp :=
  send_caps max_wr init q <| qp_sq := queue |>
    <| qp_req ::= λ r, r <| req_wqe_index := producer_index queue |> <| req_state := QP_STATE_RESET |> <| req_opcode := -1 |> |>
    <| qp_comp ::= λ c, c <| comp_opcode := -1 |> |> <| qp_req_pkts := [] |>
    <| qp_rnr_nak_timer := None |> <| qp_retrans_timer := None |> <| qp_timeout_jiffies := 0 |>.

Lemma no_ip {A} (q : rxe_queue A) : q_ip q = None → q <| q_ip := None |> = q.
Proof. destruct q. cbn. by intros ->. Qed.

Lemma same_mm l : l <| lf_mm := lf_mm l |> = l.
Proof. by destruct l. Qed.

Lemma init_req_placed cls env i init q l :
  rxe_qp_init_req cls env i 0 None init (placed i q l) =
    match rxe_queue_init zero_send_wqe cls (env_kmalloc_queue env) (env_vmalloc env) (cap_max_send_wr (ia_cap init)) (send_wqe_size init) with
    | None => Some (false, placed i (send_caps (cap_max_send_wr (ia_cap init)) init q) l, Err ENOMEM)
    | Some (queue, max_wr) => Some (true, placed i (with_sq (queue <| q_ip := None |>) max_wr init q) l, Ok tt)
    end.
Proof.
  unfold rxe_qp_init_req. fold (send_wqe_size init). rewrite placed_upd.
  destruct (rxe_queue_init _ _ _ _ _ _) as [[queue max_wr]|]; [|done]. cbn [do_mmap_info]. rewrite same_mm, placed_upd. done.
Qed.

Definition start_resp (q : rxe_qp) : rxe_qp :=
  q <| qp_resp_pkts := [] |>
    <| qp_resp ::= λ r, r <| resp_opcode := -1 |> <| resp_msn := 0 |> <| resp_state := QP_STATE_RESET |> |>.

Definition recv_caps (max_wr : Z) (init : ib_qp_init_attr) (q : rxe_qp) : rxe_qp :=
  q <| qp_cap ::= λ c, c <| cap_max_recv_wr := max_wr |> <| cap_max_recv_sge := s32 (cap_max_recv_sge (ia_cap init)) |> |>.

Lemma init_resp_placed cls env i init q l :
  rxe_qp_init_resp cls env i 0 None init (placed i q l) =
    match qp_srq q with
    | Some _ => Some (placed i (start_resp q) l, Ok tt)
    | None =>
        match rxe_queue_init zero_recv_wqe cls (env_kmalloc_queue env) (env_vmalloc env) (cap_max_recv_wr (ia_cap init)) (recv_wqe_size init) with
        | None => Some (placed i (recv_caps (cap_max_recv_wr (ia_cap init)) init q) l, Err ENOMEM)
        | Some (queue, max_wr) =>
            Some (placed i (start_resp (recv_caps max_wr init q <| qp_rq := Some (queue <| q_ip := None |>) |>)) l, Ok tt)
        end
    end.
Proof.
  unfold rxe_qp_init_resp. rewrite placed_lookup. cbn [mbind option_bind]. destruct (qp_srq q); [by rewrite placed_upd|].
  fold (recv_wqe_size init). rewrite placed_upd.
  destruct (rxe_queue_init _ _ _ _ _ _) as [[queue max_wr]|]; [|done]. cbn [do_mmap_info]. rewrite placed_upd, same_mm, placed_upd. done.
Qed.

(** ** A created queue pair *)

(** How often an object is on a list. *)
Definition uses (os : list obj) (o : obj) : Z := Z.of_nat (length (filter (λ o', o = o') os)).

Lemma count_at o n c o' : count o n c o' = c o' + (if decide (o' = o) then n else 0).
Proof. unfold count. case_decide; lia. Qed.

Lemma counts_at os n c o : foldr (λ o, count o n) c os o = c o + n * uses os o.
Proof.
  induction os as [|o' os IH]; cbn [foldr]; [unfold uses; cbn; lia|]. rewrite count_at, IH. unfold uses. rewrite filter_cons.
  destruct (decide (o = o')); cbn [length]; lia.
Qed.

Lemma use_all_at n os l o : lf_usecnt (use_all n os l) o = lf_usecnt l o + n * uses os o.
Proof. apply counts_at. Qed.

Lemma uses_cons o' os o : uses (o' :: os) o = (if decide (o = o') then 1 else 0) + uses os o.
Proof. unfold uses. rewrite filter_cons. destruct (decide (o = o')); cbn [length]; lia. Qed.

(** The limits of the device are at most these; [rxe_init_device_param] sets
    0x4000, 27 and 400. *)
Record within_limits (dev : rxe_dev) (cache_line_size : Z) (cap : ib_qp_cap) : Prop := {
  wl_wr : da_max_qp_wr (rdev_attr dev) ≤ 0x4000;
  wl_sge : da_max_sge (rdev_attr dev) ≤ 32;
  wl_inline : da_max_inline_data (rdev_attr dev) ≤ 400;
  wl_line : cache_line_size ≤ 1024;
  wl_cap : 0 ≤ cap_max_send_wr cap ∧ 0 ≤ cap_max_recv_wr cap ∧ 0 ≤ cap_max_send_sge cap ∧ 0 ≤ cap_max_recv_sge cap ∧
    0 ≤ cap_max_inline_data cap
}.

(** An empty queue for at least [n] elements that are all zero; [max_wr] is how
    many it has room for. *)
Definition empty_queue {A} (zero : A) (k n max_wr : Z) (q : rxe_queue A) : Prop :=
  queue_wf k q ∧ queue_list q = [] ∧ n ≤ max_wr ∧ max_wr = 2 ^ k - 1 ∧ q_ip q = None ∧ producer_index q = 0 ∧
  buf_index_mask (q_buf q) = q_index_mask q ∧ buf_log2_elem_size (q_buf q) = q_log2_elem_size q ∧
  Forall (λ x, x = zero) (buf_data (q_buf q)).

(** What the request asks for is what the queue pair is. *)
Record created (k i pd : Z) (init : ib_qp_init_attr) (q : rxe_qp) : Prop := {
  cr_num : qp_qp_num q = number i (ia_qp_type init);
  cr_type : qp_qp_type q = ia_qp_type init;
  cr_pd : qp_pd q = pd;
  cr_cqs : Some (qp_scq q) = ia_send_cq init ∧ Some (qp_rcq q) = ia_recv_cq init ∧ qp_srq q = ia_srq init;
  cr_ref : qp_ref q = 1;
  cr_user : qp_is_user q = false;
  cr_state : qp_valid q = true ∧ qa_qp_state (qp_attr q) = IB_QPS_RESET;
  cr_sq : empty_queue zero_send_wqe k (cap_max_send_wr (ia_cap init)) (cap_max_send_wr (qp_cap q)) (qp_sq q);
  cr_rq : match ia_srq init with
          | Some _ => qp_rq q = None
          | None => ∃ rq k', qp_rq q = Some rq ∧
              empty_queue zero_recv_wqe k' (cap_max_recv_wr (ia_cap init)) (cap_max_recv_wr (qp_cap q)) rq
          end;
  cr_pkts : qp_req_pkts q = [] ∧ qp_resp_pkts q = [] ∧ qp_send_pkts q = [];
  cr_req : qp_req q = ReqInfo QP_STATE_RESET (producer_index (qp_sq q)) 0 (-1) 0 false false false false 0;
  cr_comp : comp_opcode (qp_comp q) = -1;
  cr_resp : qp_resp q = zero_resp <| resp_opcode := -1 |>;
  cr_quiet : qp_on_arbiter q = false ∧ qp_req_skb_out q = 0 ∧ qp_grp_list q = []
}.

Lemma chk_caps dev cap has_srq :
  rxe_qp_chk_cap (rdev_attr dev) cap has_srq = Ok tt →
  cap_max_send_wr cap ≤ da_max_qp_wr (rdev_attr dev) ∧ cap_max_send_sge cap ≤ da_max_sge (rdev_attr dev) ∧
  (has_srq = false → cap_max_recv_wr cap ≤ da_max_qp_wr (rdev_attr dev) ∧ cap_max_recv_sge cap ≤ da_max_sge (rdev_attr dev)) ∧
  cap_max_inline_data cap ≤ da_max_inline_data (rdev_attr dev).
Proof.
  unfold rxe_qp_chk_cap. intros E. destruct has_srq; cbn [negb andb] in E;
    repeat (match type of E with (if ?b then _ else _) = _ => destruct b eqn:?; [done|] end); rewrite !Z.gtb_ltb, !Z.ltb_ge in *;
    split_and!; lia || done.
Qed.

Lemma chk_init_ok dev init :
  rxe_qp_chk_init dev init = Some (Ok tt) →
  rxe_qp_chk_cap (rdev_attr dev) (ia_cap init) (bool_decide (is_Some (ia_srq init))) = Ok tt ∧
  is_Some (ia_send_cq init) ∧ is_Some (ia_recv_cq init) ∧
  (special (ia_qp_type init) = true → is_Some (rdev_ports dev !! Z.to_nat (ia_port_num init - 1))).
Proof.
  unfold rxe_qp_chk_init. destruct (ia_recv_cq init), (ia_send_cq init); try done.
  destruct (rxe_qp_chk_cap _ _ _) as [[]|]; [|done]. fold (special (ia_qp_type init)). intros E. split; [done|].
  split; [by eexists|]. split; [by eexists|]. intros Hs. rewrite Hs in E.
  destruct (_ || _); [done|]. by destruct (rdev_ports dev !! _); [eexists|].
Qed.

Section create.
Context `{Params} (cls : Z) (l : life) (init : ib_qp_init_attr) (i pd scq rcq : Z).
Context (Hchk : rxe_qp_chk_init (h_dev (lf_host l)) init = Some (Ok tt)).
Context (Hlim : within_limits (h_dev (lf_host l)) cls (ia_cap init)).
Context (Hscq : ia_send_cq init = Some scq) (Hrcq : ia_recv_cq init = Some rcq).
Context (Hfree : lf_qp i l = None).

Lemma new_sq p : ∃ q k,
  rxe_queue_init zero_send_wqe cls true (Some p) (cap_max_send_wr (ia_cap init)) (send_wqe_size init) = Some (q, 2 ^ k - 1) ∧
  empty_queue zero_send_wqe k (cap_max_send_wr (ia_cap init)) (2 ^ k - 1) q ∧ q_buf_ptr q = p.
Proof using Hchk Hlim.
  destruct (chk_init_ok _ _ Hchk) as [(C1 & C2 & _ & C4)%chk_caps _]. destruct Hlim as [L1 L2 L3 L4 L5].
  unfold send_wqe_size, sizeof_rxe_send_wqe, sizeof_ib_sge. rewrite !(s32_small (cap_max_send_sge _)), !(s32_small (cap_max_inline_data _)), !s32_small by lia.
  destruct (new_queue zero_send_wqe cls p (cap_max_send_wr (ia_cap init))
    (Z.max (200 + cap_max_send_sge (ia_cap init) * 16) (200 + cap_max_inline_data (ia_cap init)))) as (q & k & E & Q);
    [lia..|]. exists q, k. unfold empty_queue. naive_solver.
Qed.

Lemma new_rq p : ia_srq init = None → ∃ q k,
  rxe_queue_init zero_recv_wqe cls true (Some p) (cap_max_recv_wr (ia_cap init)) (recv_wqe_size init) = Some (q, 2 ^ k - 1) ∧
  empty_queue zero_recv_wqe k (cap_max_recv_wr (ia_cap init)) (2 ^ k - 1) q ∧ q_buf_ptr q = p.
Proof using Hchk Hlim.
  intros Hs. destruct (chk_init_ok _ _ Hchk) as [(_ & _ & C3 & _)%chk_caps _]. destruct Hlim as [L1 L2 L3 L4 L5].
  destruct C3 as [C3 C3']; [by rewrite Hs|].
  unfold recv_wqe_size, sizeof_rxe_recv_wqe, sizeof_ib_sge. rewrite !(s32_small (cap_max_recv_sge _)), !s32_small by lia.
  destruct (new_queue zero_recv_wqe cls p (cap_max_recv_wr (ia_cap init)) (40 + cap_max_recv_sge (ia_cap init) * 16)) as (q & k & E & Q);
    [lia..|]. exists q, k. unfold empty_queue. naive_solver.
Qed.

(** The references a queue pair takes. *)
Definition holding : life :=
  add_ref_opt (OSrq <$> ia_srq init) (obj_add_ref (OCq scq) (obj_add_ref (OCq rcq) (obj_add_ref (OPd pd) l))).

Definition begun : rxe_qp :=
  misc i init (zero_qp <| qp_is_user := false |> <| qp_pd := pd |> <| qp_rcq := rcq |> <| qp_scq := scq |> <| qp_srq := ia_srq init |>).

Definition given_back (l : life) : life :=
  obj_drop_ref (OPd pd) (obj_drop_ref (OCq rcq) (obj_drop_ref (OCq scq) (drop_ref_opt (OSrq <$> ia_srq init) l))).

Lemma holding_refs o : lf_refs holding o = lf_refs l o + uses (users pd scq rcq (ia_srq init)) o.
Proof using.
  unfold holding, add_ref_opt, users. destruct (ia_srq init); cbn; rewrite !count_at, !uses_cons; change (uses [] o) with 0; repeat case_decide; lia.
Qed.

Lemma given_back_refs l0 o : lf_refs (given_back l0) o = lf_refs l0 o - uses (users pd scq rcq (ia_srq init)) o.
Proof using.
  unfold given_back, drop_ref_opt, users. destruct (ia_srq init); cbn; rewrite !count_at, !uses_cons; change (uses [] o) with 0; repeat case_decide; lia.
Qed.

(** The state [rxe_qp_from_init] starts the queues from. *)
Lemma from_init_begins env env' :
  rxe_qp_from_init cls env env' i pd 0 None init (placed i (zero_qp <| qp_is_user := false |>) l) =
    '(has_sq, l, err) ← rxe_qp_init_req cls env i 0 None init (placed i begun (claim_port i init holding));
    match err with
    | Err e => Some (has_sq, given_back l, Err e)
    | Ok _ =>
        '(l, err) ← rxe_qp_init_resp cls env' i 0 None init l;
        match err with
        | Err e => q ← lf_qp i l; Some (has_sq, given_back (l <| lf_mm ::= λ mm, rxe_queue_cleanup mm (qp_sq q) |>), Err e)
        | Ok _ =>
            Some (has_sq, lf_upd_qp i (λ q, q <| qp_attr ::= λ a, a <| qa_qp_state := IB_QPS_RESET |> |> <| qp_valid := true |>) l, Ok tt)
        end
    end.
Proof using Hscq Hrcq Hchk.
  unfold rxe_qp_from_init. rewrite Hscq, Hrcq. cbn [mbind option_bind].
  assert (E : add_ref_opt (OSrq <$> ia_srq init) (obj_add_ref (OCq scq) (obj_add_ref (OCq rcq) (obj_add_ref (OPd pd)
    (placed i (zero_qp <| qp_is_user := false |>) l)))) = placed i (zero_qp <| qp_is_user := false |>) holding).
  { unfold holding. by destruct (ia_srq init). }
  rewrite E, placed_upd, init_misc_placed; [reflexivity|]. unfold holding. destruct (ia_srq init); apply (chk_init_ok _ _ Hchk).
Qed.

Lemma create_ok env env' p p' :
  env_kmalloc_queue env = true → env_vmalloc env = Some p → env_kmalloc_queue env' = true → env_vmalloc env' = Some p' →
  ∃ q k, ib_create_qp cls (Some i) env env' pd init l =
      Some (use_all 1 (users pd scq rcq (ia_srq init)) (placed i q (claim_port i init holding)), Ok i) ∧
    created k i pd init q ∧ q_buf_ptr (qp_sq q) = p ∧ (∀ rq, qp_rq q = Some rq → q_buf_ptr rq = p').
Proof using All.
  intros E1 E2 E3 E4. unfold ib_create_qp, rxe_create_qp. rewrite Hchk. cbn [mbind option_bind].
  change (bool_decide (is_Some None)) with false. fold (placed i (zero_qp <| qp_is_user := false |>) l).
  rewrite from_init_begins, init_req_placed, E1, E2.
  destruct (new_sq p) as (sq & k & -> & Hsq & Hp). rewrite (no_ip sq) by apply Hsq. cbn [mbind option_bind].
  rewrite init_resp_placed, E3, E4. change (qp_srq (with_sq sq (2 ^ k - 1) init begun)) with (ia_srq init).
  destruct (ia_srq init) as [srq|] eqn:Es.
  - cbn [mbind option_bind]. rewrite !placed_upd, Hscq, Hrcq. cbn [mbind option_bind].
    eexists _, k. split; [done|]. split; [|done]. split; try done. by rewrite Es.
  - destruct (new_rq p' Es) as (rq & k' & -> & Hrq & Hp'). rewrite (no_ip rq) by apply Hrq. cbn [mbind option_bind].
    rewrite !placed_upd, Hscq, Hrcq. cbn [mbind option_bind].
    eexists _, k. split; [done|]. split; [|split; [done|]].
    + split; try done. rewrite Es. by exists rq, k'.
    + intros rq' [= <-]. done.
Qed.
End create.

(** ** Destruction, step by step *)

Definition closed (q : rxe_qp) : rxe_qp :=
  q <| qp_valid := false |> <| qp_timeout_jiffies := 0 |> <| qp_retrans_timer := None |> <| qp_rnr_nak_timer := None |>.

(** The queue pair after the tasks have run for the last time: the completer
    has thrown away what was queued for it. *)
Definition gone (q : rxe_qp) : rxe_qp :=
  closed q <| qp_sq ::= emptied |> <| qp_resp_pkts := [] |>
    <| qp_ref ::= (λ n, n - Z.of_nat (length (qp_resp_pkts q))) |>.

(** Only the queue pair [i] changes, and the memory regions and counters of the
    device. *)
Record replaced (i : Z) (q : option rxe_qp) (m : mem_dev) (l l' : life) : Prop := {
  rp_qp : lf_qp i l' = q;
  rp_others : ∀ j, j ≠ i → lf_qp j l' = lf_qp j l;
  rp_mcgs : h_mcgs (lf_host l') = h_mcgs (lf_host l) ∧ mc_filter (lf_mc l') = mc_filter (lf_mc l) ∧
    mc_add_err (lf_mc l') = mc_add_err (lf_mc l);
  rp_mem : rdev_mem (h_dev (lf_host l')) = m;
  rp_dev : rdev_ports (h_dev (lf_host l')) = rdev_ports (h_dev (lf_host l)) ∧
    rdev_cqs (h_dev (lf_host l')) = rdev_cqs (h_dev (lf_host l)) ∧
    rdev_srqs (h_dev (lf_host l')) = rdev_srqs (h_dev (lf_host l)) ∧
    rdev_attr (h_dev (lf_host l')) = rdev_attr (h_dev (lf_host l));
  rp_rest : lf_mm l' = lf_mm l ∧ lf_refs l' = lf_refs l ∧ lf_usecnt l' = lf_usecnt l
}.

Section destruction.
Context `{Params}.

Lemma wp_req_invalid F depth fuel calls s Q :
  qp_valid (es_qp s) = false → Q tt s → wp F (do_req_task depth fuel (S calls)) Q s.
Proof. intros Hv HQ. unfold do_req_task. cbn [__rxe_do_task]. unfold rxe_requester. wp_run. rewrite Hv. by wp_run. Qed.

Lemma wp_comp_invalid F k depth fuel calls s Q :
  qp_valid (es_qp s) = false → queue_wf k (qp_sq (es_qp s)) →
  (∀ r n ev, r = qp_ref (es_qp s) - Z.of_nat (length (qp_resp_pkts (es_qp s))) →
     Q tt (completer_emptied s (emptied (qp_sq (es_qp s))) r n ev)) →
  wp F (do_comp_task (S depth) fuel (S calls)) Q s.
Proof.
  intros Hv Hwf HQ. unfold do_comp_task. cbn [__rxe_do_task rxe_completer]. unfold completer_body. wp_run. rewrite Hv. cbn [negb].
  wp_run. unfold comp_drain. wp_run. apply wp_drain_pkts_exact; [lia|]. intros r n ev Hr. pose proof (queue_count_range k _ Hwf).
  apply (wp_drain_sq_exact _ k); [exact Hwf|cbn; lia|]. wp_run. by apply HQ.
Qed.

Lemma destroy_tasks_ok k depth fuel calls s :
  queue_wf k (qp_sq (es_qp s)) →
  ∃ n ev, destroy_tasks (S depth) fuel (S calls) s =
    Some (tt, s <| es_dev ::= λ d, d <| rdev_resp_skb_in := n |> |> <| es_qp ::= gone |> <| es_ev := ev |>).
Proof.
  intros Hwf. destruct (wp_total (destroy_tasks (S depth) fuel (S calls)) (λ _ s', ∃ n ev,
    s' = s <| es_dev ::= λ d, d <| rdev_resp_skb_in := n |> |> <| es_qp ::= gone |> <| es_ev := ev |>) s) as ([] & s' & E & n & ev & ->).
  - unfold destroy_tasks. wp_run. apply wp_req_invalid; [done|]. wp_run. apply (wp_comp_invalid _ k); [done|exact Hwf|].
    intros r n ev Hr. apply wp_req_invalid; [done|]. exists n, ev. cbn in Hr. subst r. destruct s as [[] [] ? ? ? ?]. vm_compute. reflexivity.
  - by exists n, ev.
Qed.

Lemma qp_destroy_ok k depth fuel calls i l q :
  lf_qp i l = Some q → queue_wf k (qp_sq q) → qp_on_arbiter q = false →
  ∃ l', rxe_qp_destroy (S depth) fuel (S calls) i l = Some l' ∧
    replaced i (Some (gone q)) (rdev_mem (h_dev (lf_host l))) l l'.
Proof.
  intros Hq Hwf Ha. destruct (destroy_tasks_ok k depth fuel calls (at_qp (lf_host l) q) Hwf) as (n & ev & E).
  unfold rxe_qp_destroy. rewrite (on_qp_run i _ _ q _ _ Hq E). cbn [mbind option_bind drain_output].
  unfold arb_of. cbn [arb_qps]. rewrite back_lookup. cbn [mbind option_bind].
  change (qp_on_arbiter (es_qp _)) with (qp_on_arbiter q). rewrite Ha. cbn [mbind option_bind]. eexists. split; [reflexivity|].
  split; cbn; try done; [apply lookup_insert_eq|]. intros j Hj. by apply lookup_insert_ne.
Qed.

(** ** The last reference *)

Definition region_refs (q : rxe_qp) : list mem_handle := option_list (resp_mr (qp_resp q)) ++ omap held_mr (resources_of q).

(** The resources are in order, as in [resettable]. *)
Definition resources_ok (q : rxe_qp) : Prop := ∀ rs, resp_resources (qp_resp q) = Some rs →
  Z.to_nat (qa_max_rd_atomic (qp_attr q)) = length rs ∧ Forall res_ok rs.

Lemma release_regions_ok s :
  resources_ok (es_qp s) → atomics (resources_of (es_qp s)) = 0 →
  ∃ s', (drop_resp_mr;; free_rd_atomic_resources) s = Some (tt, s') ∧
    es_dev s' = es_dev s <| rdev_mem ::= λ m, drop_refs m (region_refs (es_qp s)) |>.
Proof.
  intros Hres Ha. destruct (wp_total (drop_resp_mr;; free_rd_atomic_resources) (λ _ s',
    es_dev s' = es_dev s <| rdev_mem ::= λ m, drop_refs m (region_refs (es_qp s)) |>) s) as ([] & s' & E & Hd); [|by exists s'].
  wp_run. apply wp_drop_resp_mr. unfold free_rd_atomic_resources. wp_run.
  apply wp_cleanup_resources; [exact Hres| |].
  - intros rs Hrs. cbn in Hrs. wp_run. unfold region_refs, resources_of in *. rewrite Hrs in *. cbn in Ha |- *. rewrite Ha, Z.sub_0_r.
    unfold drop_refs, upd_field. cbn. rewrite foldl_app. by destruct s as [[] ? ? ? ? ?].
  - intros Hn. cbn in Hn. wp_run. unfold region_refs, resources_of. rewrite Hn. cbn. rewrite app_nil_r. by destruct s as [[] ? ? ? ? ?].
Qed.
End destruction.

(** The queue pair [i], which is in no group, is forgotten. *)
Lemma rel_forget i x M m m' :
  mc_rel x M m → (∀ g, (i, g) ∉ M) → h_mcgs (mc_host m') = h_mcgs (mc_host m) → mc_filter m' = mc_filter m →
  h_qps (mc_host m') !! i = None → (∀ j, j ≠ i → h_qps (mc_host m') !! j = h_qps (mc_host m) !! j) → mc_rel x M m'.
Proof.
  intros [H1 H2 H3 H4 H5] Hi E1 E2 E3 E4. split.
  - intros j q Hj. destruct (decide (j = i)) as [->|Hne]; [congruence|]. rewrite E4 in Hj by done. by apply H1.
  - intros j g Hin. destruct (decide (j = i)) as [->|Hne]; [by destruct (Hi g)|]. rewrite E4 by done. by eapply H2.
  - rewrite E1. exact H3.
  - rewrite E1. exact H4.
  - by rewrite E1, E2.
Qed.

(** The buffers of the queues go with the queue pair. *)
Definition queues_freed (has_sq : bool) (q : rxe_qp) (mm : mmap_dev) : mmap_dev :=
  let mm := if has_sq then rxe_queue_cleanup mm (qp_sq q) else mm in
  match qp_rq q with Some rq => rxe_queue_cleanup mm rq | None => mm end.

Definition users_of (q : rxe_qp) : list obj := users (qp_pd q) (qp_scq q) (qp_rcq q) (qp_srq q).

(** Everything the queue pair [q] had is given back. *)
Record released (has_sq : bool) (i : Z) (q : rxe_qp) (M : membership) (l l' : life) : Prop := {
  rl_groups : mc_rel at_rest (filter (λ e, e.1 ≠ i) M) (lf_mc l');
  rl_qp : lf_qp i l' = None;
  rl_others : ∀ j, j ≠ i → bare <$> lf_qp j l' = bare <$> lf_qp j l;
  rl_mem : rdev_mem (h_dev (lf_host l')) = drop_refs (rdev_mem (h_dev (lf_host l))) (region_refs q);
  rl_dev : rdev_ports (h_dev (lf_host l')) = rdev_ports (h_dev (lf_host l)) ∧
    rdev_cqs (h_dev (lf_host l')) = rdev_cqs (h_dev (lf_host l)) ∧
    rdev_srqs (h_dev (lf_host l')) = rdev_srqs (h_dev (lf_host l)) ∧
    rdev_attr (h_dev (lf_host l')) = rdev_attr (h_dev (lf_host l));
  rl_mm : lf_mm l' = queues_freed has_sq q (lf_mm l);
  rl_refs : ∀ o, lf_refs l' o = lf_refs l o - uses (users_of q) o
}.

Lemma kept_fields q q' : bare q' = bare q →
  qp_resp q' = qp_resp q ∧ qp_attr q' = qp_attr q ∧ qp_sq q' = qp_sq q ∧ qp_srq q' = qp_srq q ∧ qp_rq q' = qp_rq q ∧
  qp_pd q' = qp_pd q ∧ qp_rcq q' = qp_rcq q ∧ qp_scq q' = qp_scq q.
Proof.
  intros E. split_and!; [apply (f_equal qp_resp E)|apply (f_equal qp_attr E)|apply (f_equal qp_sq E)|apply (f_equal qp_srq E)
    |apply (f_equal qp_rq E)|apply (f_equal qp_pd E)|apply (f_equal qp_rcq E)|apply (f_equal qp_scq E)].
Qed.

Section put.
Context `{Params}.

Lemma put_last has_sq i l q M :
  lf_qp i l = Some q → qp_ref q = 1 → mc_rel at_rest M (lf_mc l) → resources_ok q → atomics (resources_of q) = 0 →
  ∃ l', qp_put has_sq i l = Some l' ∧ released has_sq i q M l l' ∧ lf_usecnt l' = lf_usecnt l.
Proof.
  intros Hq Hr Hrel Hres Hat. unfold qp_put. rewrite Hq. cbn [mbind option_bind]. rewrite Hr, Z.eqb_refl.
  set (l0 := lf_upd_qp i _ l). assert (Hq0 : lf_qp i l0 = Some (q <| qp_ref ::= (λ n, n - 1) |>)).
  { unfold l0, lf_qp, lf_upd_qp, lf_host. cbn. rewrite lookup_alter_eq. unfold lf_qp, lf_host in Hq. by rewrite Hq. }
  assert (Hrel0 : mc_rel at_rest M (lf_mc l0)).
  { destruct Hrel as [H1 H2 H3 H4 H5]. split; try done; unfold l0; cbn.
    - intros j q'. rewrite lookup_alter_Some. intros [(-> & q0 & Hj & ->)|[_ Hj]]; by apply (H1 _ _ Hj).
    - intros j g Hin. apply lookup_alter_is_Some. by eapply H2. }
  assert (Hsame : ∀ j, j ≠ i → lf_qp j l0 = lf_qp j l) by (intros j Hj; unfold l0, lf_qp, lf_host; cbn; by rewrite lookup_alter_ne).
  assert (Hkeep : h_dev (lf_host l0) = h_dev (lf_host l) ∧ lf_mm l0 = lf_mm l ∧ lf_refs l0 = lf_refs l ∧ lf_usecnt l0 = lf_usecnt l) by done.
  clearbody l0. destruct Hkeep as (K1 & K2 & K3 & K4). set (q0 := q <| qp_ref ::= (λ n, n - 1) |>) in *.
  unfold rxe_qp_cleanup, rxe_drop_all_mcast_groups. unfold lf_qp, lf_host in Hq0. rewrite Hq0. cbn [mbind option_bind].
  destruct (drop_groups_rel _ i q0 M (lf_mc l0) Hrel0 Hq0 eq_refl) as (m & -> & Hrm & Hsm). cbn [mbind option_bind].
  destruct (same_exists _ _ i Hsm (mk_is_Some _ _ Hq0)) as [q1 Hq1]. 
  assert (E1 : lf_qp i (l0 <| lf_mc := m |>) = Some q1) by exact Hq1. rewrite E1. clear E1. cbn [mbind option_bind].
  destruct (same_lookup _ _ _ _ Hsm Hq1) as (q0' & Hq0' & Eb). assert (q0' = q0) as -> by congruence. clear Hq0'.
  destruct (kept_fields q0 q1 Eb) as (B1 & B2 & B3 & B4 & B5 & B6 & B7 & B8). rewrite B3, B4, B5, B6, B7, B8.
  destruct (release_regions_ok (at_qp (mc_host m) q1)) as (s' & Es & Hs').
  { unfold resources_ok. cbn. by rewrite B1, B2. } { unfold resources_of. cbn. by rewrite B1. }
  match goal with |- context [lf_host ?x] => assert (Eh : lf_host x = mc_host m) by (by destruct has_sq, (qp_srq q0), (qp_rq q0)) end.
  rewrite Eh, (on_qp_run i _ _ q1 _ _ Hq1 Es). clear Eh. cbn [mbind option_bind]. eexists. split; [reflexivity|].
  assert (Hd : h_dev (mc_host m) = h_dev (lf_host l)) by exact (eq_trans (same_dev _ _ Hsm) K1).
  cbn in Hs'. unfold region_refs, resources_of in Hs'. rewrite B1, Hd in Hs'. clear Es.
  assert (Hot : ∀ j, j ≠ i → bare <$> h_qps (mc_host m) !! j = bare <$> lf_qp j l).
  { intros j Hj. rewrite <- Hsame by done. unfold lf_qp, lf_host. rewrite <- !lookup_fmap. by rewrite (same_bare _ _ Hsm). }
  change (qp_srq q0) with (qp_srq q). change (qp_rq q0) with (qp_rq q). change (qp_sq q0) with (qp_sq q).
  change (qp_pd q0) with (qp_pd q). change (qp_rcq q0) with (qp_rcq q). change (qp_scq q0) with (qp_scq q).
  split; [split|].
  - apply (rel_forget i at_rest _ m); [exact Hrm|by intros g [? _]%elem_of_filter|..]; destruct has_sq, (qp_srq q), (qp_rq q); cbn; try done.
    all: try apply lookup_delete_eq. all: intros j Hj; by rewrite lookup_delete_ne, lookup_insert_ne.
  - apply lookup_delete_eq.
  - intros j Hj. rewrite <- Hot by done. unfold lf_qp, lf_host. destruct has_sq, (qp_srq q), (qp_rq q); cbn; by rewrite lookup_delete_ne, lookup_insert_ne.
  - destruct has_sq, (qp_srq q), (qp_rq q); cbn; by rewrite Hs'.
  - destruct has_sq, (qp_srq q), (qp_rq q); cbn; rewrite Hs'; done.
  - unfold queues_freed. destruct has_sq, (qp_srq q), (qp_rq q); cbn; by rewrite K2.
  - intros o. unfold users_of, users. destruct has_sq, (qp_srq q), (qp_rq q); cbn; rewrite !count_at, !uses_cons, K3; change (uses [] o) with 0; repeat case_decide; lia.
  - destruct has_sq, (qp_srq q), (qp_rq q); cbn; done.
Qed.
End put.
