(* ===== verification/QpLife.v ===== *)
(** * The life of a queue pair

    What creating and destroying a queue pair amounts to: a created queue pair is
    what the theorems on connections start from, a destroyed one has given
    everything back, and where the code fails to do so. *)

From stdpp Require Import gmap.
From S2P Require Import Prelude Opcode Hdr Verbs Mmap Queue Mr Cq State QpState Comp Resp Qp QpReset QpInv Host Recv Mcast Session QpInit.

(** ** Groups *)

Lemma rel_same x M m m' :
  mc_rel x M m → h_mcgs (mc_host m') = h_mcgs (mc_host m) → mc_filter m' = mc_filter m →
  (∀ j, qp_grp_list <$> h_qps (mc_host m') !! j = qp_grp_list <$> h_qps (mc_host m) !! j) → mc_rel x M m'.
Proof.
  intros [H1 H2 H3 H4 H5] E1 E2 E3. split; [| |by rewrite E1..|by rewrite E1, E2].
  - intros j q' Hj. specialize (E3 j). rewrite Hj in E3. destruct (h_qps (mc_host m) !! j) as [q|] eqn:Hq; [|done].
    injection E3 as ->. by apply (H1 _ _ Hq).
  - intros j g Hin. destruct (H2 _ _ Hin) as [q Hq]. specialize (E3 j). rewrite Hq in E3.
    destruct (h_qps (mc_host m') !! j); [by eexists|done].
Qed.

Lemma rel_placed i q x M l :
  mc_rel x M (lf_mc l) → lf_qp i l = None → qp_grp_list q = [] → mc_rel x M (lf_mc (placed i q l)).
Proof.
  intros [H1 H2 H3 H4 H5] Hi Hq. assert (Hn : ∀ g, (i, g) ∉ M).
  { intros g Hin. destruct (H2 _ _ Hin) as [q' Hq']. unfold lf_qp, lf_host in Hi. congruence. }
  split; try done; cbn.
  - intros j q'. rewrite lookup_insert_Some. intros [[<- <-]|[_ Hj]]; [|by apply H1]. rewrite Hq. split; [constructor|]. set_solver.
  - intros j g Hin. rewrite lookup_insert_is_Some. right. split; [|by eapply H2]. intros ->. by destruct (Hn g).
Qed.

(** ** The theorems *)

Section theorems.
Context `{Params}.

(** A queue pair that is not on the list of the arbiter, with its queue and its
    resources in order. *)
Record destroyable (k : Z) (q : rxe_qp) : Prop := {
  ds_sq : queue_wf k (qp_sq q);
  ds_arbiter : qp_on_arbiter q = false;
  ds_resources : resources_ok q
}.

Lemma destroy_ok k depth fuel calls i l q M :
  lf_qp i l = Some q → destroyable k q → mc_rel at_rest M (lf_mc l) →
  qp_ref q = 1 + Z.of_nat (length (qp_resp_pkts q)) → atomics (resources_of q) = 0 →
  ∃ l', ib_destroy_qp (S depth) fuel (S calls) i l = Some l' ∧ released true i q M l l' ∧
    ∀ o, lf_usecnt l' o = lf_usecnt l o - uses (users_of q) o.
Proof.
  intros Hq [Hwf Ha Hres] Hrel Hr Hat. unfold ib_destroy_qp, rxe_destroy_qp. rewrite Hq. cbn [mbind option_bind].
  destruct (qp_destroy_ok k depth fuel calls i l q Hq Hwf Ha) as (l1 & -> & [R1 R2 (R3 & R4 & R5) R6 R7 (R8 & R9 & R10)]).
  cbn [mbind option_bind]. destruct (put_last true i l1 (gone q) M) as (l2 & -> & [Q1 Q2 Q3 Q4 Q5 Q6 Q7] & Q8); [done|cbn; lia| |exact Hres|exact Hat|].
  { apply (rel_same _ _ (lf_mc l)); [done..|]. intros j. destruct (decide (j = i)) as [->|Hj].
    - unfold lf_qp, lf_host in R1, Hq. by rewrite R1, Hq.
    - f_equal. by apply R2. }
  cbn [mbind option_bind]. eexists. split; [done|]. split.
  - split; [exact Q1|exact Q2| | | | |].
    + intros j Hj. rewrite <- R2 by done. by apply Q3.
    + rewrite <- R6. exact Q4.
    + destruct R7 as (<- & <- & <- & <-). exact Q5.
    + rewrite <- R8. exact Q6.
    + intros o. rewrite <- R9. apply Q7.
  - intros o. rewrite use_all_at, Q8, R10. fold (users_of q). lia.
Qed.

(** What a created queue pair offers to the rest of the driver. *)
Lemma created_fresh k i pd init q :
  created k i pd init q → ia_qp_type init = IB_QPT_RC → 0 < cap_max_send_wr (ia_cap init) → fresh_qp k 0 q.
Proof.
  intros [] Ht Hpos. destruct cr_sq as (S1 & S2 & S3 & S4 & S5 & S6 & S7 & S8 & S9). destruct cr_state, cr_pkts as (? & ? & ?), cr_quiet as (? & ? & ?).
  split; try done.
  - congruence.
  - split; [done|]. split; [|done]. destruct (Z.le_gt_cases k 0) as [Hk|]; [|lia]. exfalso.
    assert (k = 0) as -> by (pose proof (geom_k _ _ (wf_geom _ _ S1)); lia). cbn in S4. lia.
  - eapply Forall_impl; [|exact S9]. by intros w ->.
  - by rewrite cr_req.
  - by rewrite cr_resp.
Qed.

Lemma created_destroyable k i pd init q : created k i pd init q → destroyable k q.
Proof.
  intros []. split; [apply cr_sq|apply cr_quiet|]. intros rs. by rewrite cr_resp.
Qed.

(** A request the driver accepts, with a free index. *)
Record acceptable (cls i scq rcq : Z) (init : ib_qp_init_attr) (l : life) : Prop := {
  ac_chk : rxe_qp_chk_init (h_dev (lf_host l)) init = Some (Ok tt);
  ac_limits : within_limits (h_dev (lf_host l)) cls (ia_cap init);
  ac_cqs : ia_send_cq init = Some scq ∧ ia_recv_cq init = Some rcq;
  ac_free : lf_qp i l = None
}.

(** The allocators provide a queue whose buffer is at [p]. *)
Definition provides (env : alloc_env) (p : Z) : Prop := env_kmalloc_queue env = true ∧ env_vmalloc env = Some p.

Lemma claim_keeps i init l :
  h_qps (lf_host (claim_port i init l)) = h_qps (lf_host l) ∧ h_mcgs (lf_host (claim_port i init l)) = h_mcgs (lf_host l) ∧
  mc_filter (lf_mc (claim_port i init l)) = mc_filter (lf_mc l) ∧ lf_refs (claim_port i init l) = lf_refs l ∧
  lf_usecnt (claim_port i init l) = lf_usecnt l ∧ lf_mm (claim_port i init l) = lf_mm l ∧
  rdev_mem (h_dev (lf_host (claim_port i init l))) = rdev_mem (h_dev (lf_host l)).
Proof. unfold claim_port. by destruct (special _). Qed.

Lemma holding_keeps l init pd scq rcq :
  lf_mc (holding l init pd scq rcq) = lf_mc l ∧ lf_mm (holding l init pd scq rcq) = lf_mm l ∧
  lf_usecnt (holding l init pd scq rcq) = lf_usecnt l.
Proof. unfold holding. by destruct (ia_srq init). Qed.

(** The state with the new queue pair. *)
Definition with_new (i : Z) (q : rxe_qp) (init : ib_qp_init_attr) (pd scq rcq : Z) (l : life) : life :=
  use_all 1 (users pd scq rcq (ia_srq init)) (placed i q (claim_port i init (holding l init pd scq rcq))).

Lemma with_new_facts i q init pd scq rcq l :
  lf_qp i (with_new i q init pd scq rcq l) = Some q ∧
  (∀ j, j ≠ i → lf_qp j (with_new i q init pd scq rcq l) = lf_qp j l) ∧
  lf_mm (with_new i q init pd scq rcq l) = lf_mm l ∧
  (∀ o, lf_refs (with_new i q init pd scq rcq l) o = lf_refs l o + uses (users pd scq rcq (ia_srq init)) o) ∧
  (∀ o, lf_usecnt (with_new i q init pd scq rcq l) o = lf_usecnt l o + uses (users pd scq rcq (ia_srq init)) o) ∧
  rdev_mem (h_dev (lf_host (with_new i q init pd scq rcq l))) = rdev_mem (h_dev (lf_host l)).
Proof.
  destruct (claim_keeps i init (holding l init pd scq rcq)) as (C1 & _ & _ & C4 & C5 & C6 & C7).
  destruct (holding_keeps l init pd scq rcq) as (H1 & H2 & H3). unfold with_new. split_and!.
  - apply lookup_insert_eq.
  - intros j Hj. unfold lf_qp. cbn. rewrite lookup_insert_ne by done. change (h_qps (lf_host (claim_port i init (holding l init pd scq rcq))) !! j = h_qps (lf_host l) !! j).
    rewrite C1. unfold lf_host. by rewrite H1.
  - cbn. by rewrite C6.
  - intros o. cbn. rewrite C4. apply holding_refs.
  - intros o. rewrite use_all_at. cbn. rewrite C5, H3. lia.
  - cbn. unfold lf_host in *. by rewrite C7, H1.
Qed.

Lemma with_new_rel i q init pd scq rcq l M :
  mc_rel at_rest M (lf_mc l) → lf_qp i l = None → qp_grp_list q = [] → mc_rel at_rest M (lf_mc (with_new i q init pd scq rcq l)).
Proof.
  intros Hrel Hi Hq. destruct (holding_keeps l init pd scq rcq) as (H1 & _). 
  destruct (claim_keeps i init (holding l init pd scq rcq)) as (C1 & C2 & C3 & _).
  apply (rel_placed i q at_rest M (claim_port i init (holding l init pd scq rcq))); [|unfold lf_qp; rewrite C1; unfold lf_host; by rewrite H1|done].
  unfold lf_host in *. rewrite H1 in *. apply (rel_same _ _ (lf_mc l)); [done..|]. intros j. by rewrite C1.
Qed.

(** What the device remembers of a new queue pair: the port of a special one
    gets its index, and nothing else. *)
Definition device_after (i : Z) (init : ib_qp_init_attr) (d : rxe_dev) : rxe_dev :=
  if special (ia_qp_type init) then d <| rdev_ports ::= alter (mark i (ia_qp_type init)) (Z.to_nat (ia_port_num init - 1)) |> else d.

Lemma with_new_host i q init pd scq rcq l :
  lf_mc (with_new i q init pd scq rcq l) =
    upd_host (λ h, h <| h_qps ::= <[i := q]> |> <| h_dev ::= device_after i init |>) (lf_mc l).
Proof.
  destruct (holding_keeps l init pd scq rcq) as (H1 & _). unfold with_new, claim_port, device_after. cbn.
  destruct (special _); cbn; rewrite H1; [done|]. by destruct (lf_mc l) as [[] ? ?].
Qed.

(** A created queue pair of a reliable connection satisfies the invariant of
    [ib_modify_qp]. *)
Lemma created_inv k i pd init q h :
  created k i pd init q → fresh_qp k 0 q → first_port (h_dev h) → da_max_qp_rd_atom (rdev_attr (h_dev h)) ≤ 128 → qp_inv k (at_qp h q).
Proof.
  intros Hcr Hfr Hfp Hat. destruct Hfr. split; cbn; try done.
  - split; cbn; [done|apply fq_sq|..].
    + intros rq Hrq. pose proof (cr_rq _ _ _ _ _ Hcr) as Q. destruct (ia_srq init); [congruence|].
      destruct Q as (rq' & k' & Hrq' & Q & _). exists k'. congruence.
    + intros rs Hrs. rewrite (cr_resp _ _ _ _ _ Hcr) in Hrs. done.
  - unfold qp_in_step. rewrite fq_state, (cr_req _ _ _ _ _ Hcr), (cr_resp _ _ _ _ _ Hcr). done.
Qed.

(** C24: creating a queue pair. A request that passes the checks, at a free
    index and with memory for the queues, gives the queue pair that was asked
    for: in the reset state, with its number, empty queues for at least as many
    requests as asked for, and one reference. The host is what it was but for the
    new queue pair in its place and, for a special queue pair only, the index in
    its port: the other queue pairs, the completion queues, the shared receive
    queues, the memory and the multicast groups are unchanged, and no buffer is
    freed. Each object the queue pair uses is counted once more, and no other. A
    queue pair of a reliable connection with room for a request is the one the
    connection theorems start from; on a device with the ports and the resource
    limit the driver sets it satisfies the invariant of [ib_modify_qp]. *)
Theorem create_qp_ready cls i scq rcq init l env env' p p' pd M :
  acceptable cls i scq rcq init l → provides env p → provides env' p' → mc_rel at_rest M (lf_mc l) →
  ∃ l' q k, ib_create_qp cls (Some i) env env' pd init l = Some (l', Ok i) ∧ lf_qp i l' = Some q ∧ created k i pd init q ∧
    (ia_qp_type init = IB_QPT_RC → 0 < cap_max_send_wr (ia_cap init) → fresh_qp k 0 q ∧
       (first_port (h_dev (lf_host l)) → da_max_qp_rd_atom (rdev_attr (h_dev (lf_host l))) ≤ 128 → qp_inv k (at_qp (lf_host l') q))) ∧
    lf_mc l' = upd_host (λ h, h <| h_qps ::= <[i := q]> |> <| h_dev ::= device_after i init |>) (lf_mc l) ∧
    mc_rel at_rest M (lf_mc l') ∧ lf_mm l' = lf_mm l ∧
    (∀ o, lf_refs l' o = lf_refs l o + uses (users pd scq rcq (ia_srq init)) o) ∧
    (∀ o, lf_usecnt l' o = lf_usecnt l o + uses (users pd scq rcq (ia_srq init)) o).
Proof.
  intros [Hc Hl [Hs Hr] Hf] [E1 E2] [E3 E4] Hrel.
  destruct (create_ok cls l init i pd scq rcq Hc Hl Hs Hr Hf env env' p p' E1 E2 E3 E4) as (q & k & E & Hcr & _).
  fold (with_new i q init pd scq rcq l) in E. destruct (with_new_facts i q init pd scq rcq l) as (F1 & _ & F3 & F4 & F5 & _).
  pose proof (with_new_host i q init pd scq rcq l) as F6.
  exists (with_new i q init pd scq rcq l), q, k. do 3 (split; [done|]). split; [|split; [done|split; [by apply with_new_rel; [..|apply Hcr]|done]]].
  intros Ht Hpos. pose proof (created_fresh _ _ _ _ _ Hcr Ht Hpos) as Hfr. split; [done|]. intros Hfp Hat.
  assert (Hdev : h_dev (lf_host (with_new i q init pd scq rcq l)) = h_dev (lf_host l)).
  { unfold lf_host. rewrite F6. cbn. unfold device_after. by rewrite Ht. }
  by apply (created_inv _ i pd init); rewrite ?Hdev.
Qed.

(** Destroying a queue pair that nobody else refers to, whatever is in its
    queues, gives everything back: it is gone, it has left its groups, the
    buffers of its queues are freed, the memory regions its responder held and
    the objects it used have one reference less for each, and the other queue
    pairs are as before. *)
Theorem destroy_qp_releases k depth fuel calls i l q M :
  lf_qp i l = Some q → destroyable k q → mc_rel at_rest M (lf_mc l) →
  qp_ref q = 1 + Z.of_nat (length (qp_resp_pkts q)) → atomics (resources_of q) = 0 →
  ∃ l', ib_destroy_qp (S depth) fuel (S calls) i l = Some l' ∧ released true i q M l l' ∧
    ∀ o, lf_usecnt l' o = lf_usecnt l o - uses (users_of q) o.
Proof. apply destroy_ok. Qed.

(** C23: a queue pair that is created and destroyed leaves no trace but the
    memory of a port that a special one exists: every count is what it was, the
    groups and the other queue pairs are as before, and each buffer that was
    allocated is freed once. *)
Theorem create_destroy cls i scq rcq init l env env' p p' pd M depth fuel calls :
  acceptable cls i scq rcq init l → provides env p → provides env' p' → mc_rel at_rest M (lf_mc l) →
  ∃ l1 l2, ib_create_qp cls (Some i) env env' pd init l = Some (l1, Ok i) ∧
    ib_destroy_qp (S depth) fuel (S calls) i l1 = Some l2 ∧ mc_rel at_rest M (lf_mc l2) ∧
    (∀ j, bare <$> lf_qp j l2 = bare <$> lf_qp j l) ∧ (∀ o, lf_refs l2 o = lf_refs l o ∧ lf_usecnt l2 o = lf_usecnt l o) ∧
    rdev_mem (h_dev (lf_host l2)) = rdev_mem (h_dev (lf_host l)) ∧
    lf_mm l2 = lf_mm l <| vfreed ::= λ f, match ia_srq init with Some _ => p :: f | None => p' :: p :: f end |>.
Proof.
  intros [Hc Hl [Hs Hr] Hf] [E1 E2] [E3 E4] Hrel.
  destruct (create_ok cls l init i pd scq rcq Hc Hl Hs Hr Hf env env' p p' E1 E2 E3 E4) as (q & k & E & Hcr & Hp & Hp').
  fold (with_new i q init pd scq rcq l) in E. destruct (with_new_facts i q init pd scq rcq l) as (F1 & F2 & F3 & F4 & F5 & F6).
  assert (Hrel1 : mc_rel at_rest M (lf_mc (with_new i q init pd scq rcq l))) by (by apply with_new_rel; [..|apply Hcr]).
  set (l1 := with_new i q init pd scq rcq l) in *. clearbody l1. exists l1.
  destruct Hcr as [_ _ Hpd (Hq1 & Hq2 & Hq3) Href _ _ Hsq Hrq (_ & Hrp & _) _ _ Hre (Har & _)].
  destruct (destroy_ok k depth fuel calls i l1 q M F1) as (l2 & E5 & [R1 R2 R3 R4 _ R6 R7] & R8); [|done|by rewrite Href, Hrp|by unfold resources_of; rewrite Hre|].
  { split; [apply Hsq|done|]. intros rs. by rewrite Hre. }
  exists l2. split; [done|]. split; [done|]. assert (HM : filter (λ e, e.1 ≠ i) M = M).
  { apply set_eq. intros [j g]. rewrite elem_of_filter. split; [by intros [_ ?]|]. intros Hin. split; [|done]. cbn. intros ->.
    destruct (rel_exists _ _ _ Hrel _ _ Hin) as [q' Hq']. unfold lf_qp, lf_host in Hf. cbn in Hq'. congruence. }
  rewrite HM in R1. split; [done|]. assert (Hu : users_of q = users pd scq rcq (ia_srq init)) by (unfold users_of; congruence).
  split; [|split; [|split]].
  - intros j. destruct (decide (j = i)) as [->|Hj]; [by rewrite R2, Hf|]. rewrite R3, F2 by done. done.
  - intros o. rewrite R7, R8, F4, F5, Hu. lia.
  - rewrite R4, F6. unfold region_refs, resources_of. by rewrite Hre.
  - rewrite R6, F3. unfold queues_freed, rxe_queue_cleanup. destruct Hsq as (_ & _ & _ & _ & -> & _). rewrite Hp.
    destruct (ia_srq init); [by rewrite Hrq|]. destruct Hrq as (rq & k' & Hrq & (_ & _ & _ & _ & Hip & _)).
    rewrite Hrq, Hip, (Hp' rq Hrq). by destruct (lf_mm l).
Qed.

(** C33: destroying a queue pair does not run its responder. When requests wait
    for it, or it keeps the answer to an atomic operation for a retry, they hold
    references: the queue pair is never released. The core has counted its
    objects down as if it was, but they keep the references of the queue pair,
    and its buffers stay allocated. *)
Theorem destroy_qp_leaks k depth fuel calls i l q :
  let kept := Z.of_nat (length (qp_req_pkts q)) + atomics (resources_of q) in
  lf_qp i l = Some q → destroyable k q → qp_ref q = 1 + Z.of_nat (length (qp_resp_pkts q)) + kept → 0 < kept →
  ∃ l' q', ib_destroy_qp (S depth) fuel (S calls) i l = Some l' ∧ lf_qp i l' = Some q' ∧ qp_valid q' = false ∧ qp_ref q' = kept ∧
    qp_req_pkts q' = qp_req_pkts q ∧ resources_of q' = resources_of q ∧ lf_refs l' = lf_refs l ∧ lf_mm l' = lf_mm l ∧
    ∀ o, lf_usecnt l' o = lf_usecnt l o - uses (users_of q) o.
Proof.
  intros kept Hq [Hwf Ha _] Hr Hk. unfold ib_destroy_qp, rxe_destroy_qp. rewrite Hq. cbn [mbind option_bind].
  destruct (qp_destroy_ok k depth fuel calls i l q Hq Hwf Ha) as (l1 & -> & [R1 _ _ _ _ (R8 & R9 & R10)]).
  cbn [mbind option_bind]. unfold qp_put. rewrite R1. cbn [mbind option_bind].
  assert (Hg : qp_ref (gone q) = 1 + kept) by (cbn; lia). rewrite Hg. destruct (Z.eqb_spec (1 + kept) 1) as [|_]; [lia|].
  cbn [mbind option_bind]. eexists _, (gone q <| qp_ref ::= (λ n, n - 1) |>). split; [reflexivity|]. split.
  { unfold lf_qp, lf_host, lf_upd_qp, lf_upd_host. cbn. rewrite lookup_alter_eq. unfold lf_qp, lf_host in R1. rewrite R1. reflexivity. }
  split; [done|]. split; [cbn in Hg |- *; lia|]. split; [reflexivity|]. split; [reflexivity|]. split; [exact R9|]. split; [exact R8|].
  intros o. rewrite use_all_at. cbn. rewrite R10. fold (users_of q). lia.
Qed.

Lemma no_memory {A} (zero : A) cls km n size : rxe_queue_init zero cls km None n size = None.
Proof. unfold rxe_queue_init. by destruct (n <? 0), km. Qed.

(** A creation that has failed is cleaned up. *)
Lemma failed_put has_sq i q l M :
  lf_qp i l = None → mc_rel at_rest M (lf_mc l) → qp_ref q = 1 → qp_grp_list q = [] → qp_resp q = zero_resp →
  ∃ l', qp_put has_sq i (placed i q l) = Some l' ∧ released has_sq i q M (placed i q l) l'.
Proof.
  intros Hf Hrel Hr Hg Hz. destruct (put_last has_sq i (placed i q l) q M) as (l' & E & Hl' & _); [apply placed_lookup|done
    |by apply rel_placed|intros rs; by rewrite Hz|by unfold resources_of; rewrite Hz|]. by exists l'.
Qed.

Lemma claimed_facts i init pd scq rcq l M :
  mc_rel at_rest M (lf_mc l) → let l0 := claim_port i init (holding l init pd scq rcq) in
  (∀ j, lf_qp j l0 = lf_qp j l) ∧ mc_rel at_rest M (lf_mc l0) ∧ lf_mm l0 = lf_mm l ∧
  ∀ o, lf_refs l0 o = lf_refs l o + uses (users pd scq rcq (ia_srq init)) o.
Proof.
  intros Hrel. destruct (claim_keeps i init (holding l init pd scq rcq)) as (C1 & C2 & C3 & C4 & _ & C6 & _).
  destruct (holding_keeps l init pd scq rcq) as (H1 & H2 & _). cbv zeta. unfold lf_qp, lf_host in *. rewrite H1 in *. split_and!.
  - intros j. by rewrite C1.
  - apply (rel_same _ _ (lf_mc l)); [done..|]. intros j. by rewrite C1.
  - by rewrite C6.
  - intros o. rewrite C4. apply holding_refs.
Qed.

Lemma given_back_placed init pd scq rcq i q l : given_back init pd scq rcq (placed i q l) = placed i q (given_back init pd scq rcq l).
Proof. unfold given_back. by destruct (ia_srq init). Qed.

Lemma given_back_mc init pd scq rcq l : lf_mc (given_back init pd scq rcq l) = lf_mc l.
Proof. unfold given_back. by destruct (ia_srq init). Qed.

Lemma given_back_qp init pd scq rcq l i : lf_qp i (given_back init pd scq rcq l) = lf_qp i l.
Proof. unfold lf_qp, lf_host. by rewrite given_back_mc. Qed.

Lemma given_back_mm init pd scq rcq l : lf_mm (given_back init pd scq rcq l) = lf_mm l.
Proof. unfold given_back. by destruct (ia_srq init). Qed.

Lemma placed_mm i q f l : placed i q l <| lf_mm ::= f |> = placed i q (l <| lf_mm ::= f |>).
Proof. done. Qed.

(** Released after everything was given back already. *)
Lemma released_twice has_sq init i pd scq rcq q M l0 l' :
  released has_sq i q M (placed i q (given_back init pd scq rcq l0)) l' → lf_qp i l0 = None →
  users_of q = users pd scq rcq (ia_srq init) →
  (∀ j, bare <$> lf_qp j l' = bare <$> lf_qp j l0) ∧
  (∀ o, lf_refs l' o = lf_refs l0 o - 2 * uses (users pd scq rcq (ia_srq init)) o) ∧ lf_mm l' = queues_freed has_sq q (lf_mm l0).
Proof.
  intros [_ R2 R3 _ _ R6 R7] Hi Hu. split_and!.
  - intros j. destruct (decide (j = i)) as [->|Hj]; [by rewrite R2, Hi|]. rewrite R3 by done. f_equal.
    rewrite <- (given_back_qp init pd scq rcq l0 j). unfold lf_qp. cbn. by rewrite lookup_insert_ne.
  - intros o. rewrite R7, Hu. change (lf_refs (placed i q ?x)) with (lf_refs x). rewrite given_back_refs. lia.
  - rewrite R6. change (lf_mm (placed i q ?x)) with (lf_mm x). by rewrite given_back_mm.
Qed.

(** C34: when there is no memory for the send queue or for the receive queue,
    [rxe_qp_from_init] gives back what it took, and then the clean up of the
    element does it again: every object the queue pair was to use loses a
    reference that belongs to somebody else, and when it was the receive queue
    that failed, the buffer of the send queue is freed twice. *)
Theorem failed_create_drops_twice cls i scq rcq init l env env' pd M :
  acceptable cls i scq rcq init l → mc_rel at_rest M (lf_mc l) →
  env_vmalloc env = None ∨ (is_Some (env_vmalloc env) ∧ env_kmalloc_queue env = true ∧ ia_srq init = None ∧ env_vmalloc env' = None) →
  ∃ l', ib_create_qp cls (Some i) env env' pd init l = Some (l', Err ENOMEM) ∧
    (∀ j, bare <$> lf_qp j l' = bare <$> lf_qp j l) ∧
    (∀ o, lf_refs l' o = lf_refs l o - uses (users pd scq rcq (ia_srq init)) o) ∧
    lf_mm l' = lf_mm l <| vfreed ::= λ f, match env_vmalloc env with Some p => p :: p :: f | None => f end |>.
Proof.
  intros [Hc Hl [Hs Hr] Hf] Hrel Hno. unfold ib_create_qp, rxe_create_qp. rewrite Hc. cbn [mbind option_bind].
  change (bool_decide (is_Some None)) with false. fold (placed i (zero_qp <| qp_is_user := false |>) l).
  rewrite (from_init_begins cls l init i pd scq rcq Hc Hs Hr), init_req_placed.
  destruct (claimed_facts i init pd scq rcq l M Hrel) as (F1 & F2 & F3 & F4).
  set (l0 := claim_port i init (holding l init pd scq rcq)) in *. clearbody l0. destruct Hno as [Hno|([p Hp] & Hk & Hsrq & Hno)].
  - rewrite Hno, no_memory. cbn [mbind option_bind]. rewrite given_back_placed.
    destruct (failed_put false i (send_caps (cap_max_send_wr (ia_cap init)) init (begun init i pd scq rcq)) (given_back init pd scq rcq l0) M)
      as (l' & -> & Hrl); [by rewrite given_back_qp, F1|by rewrite given_back_mc|done..|].
    cbn [mbind option_bind]. exists l'. split; [done|]. apply released_twice in Hrl as (R1 & R2 & R3); [|by rewrite F1|done].
    split; [intros j; by rewrite R1, F1|]. split; [intros o; rewrite R2, F4; lia|]. rewrite R3, F3. by destruct (lf_mm l).
  - destruct (new_sq cls l init Hc Hl p) as (sq & k & Esq & Hsq & Hpsq). rewrite Hk, Hp, Esq. rewrite (no_ip sq) by apply Hsq.
    cbn [mbind option_bind]. rewrite init_resp_placed, Hno, no_memory.
    change (qp_srq (with_sq sq (2 ^ k - 1) init (begun init i pd scq rcq))) with (ia_srq init). rewrite Hsrq. cbn [mbind option_bind].
    rewrite placed_lookup. cbn [mbind option_bind]. rewrite placed_mm, given_back_placed.
    set (q := recv_caps _ init _). set (l1 := l0 <| lf_mm ::= _ |>).
    assert (F1' : ∀ j, lf_qp j l1 = lf_qp j l) by exact F1.
    destruct (failed_put true i q (given_back init pd scq rcq l1) M)
      as (l' & -> & Hrl); [by rewrite given_back_qp, F1'|by rewrite given_back_mc|done..|].
    cbn [mbind option_bind]. exists l'. split; [done|]. apply released_twice in Hrl as (R1 & R2 & R3); [|by rewrite F1'|reflexivity].
    split; [intros j; by rewrite R1, F1'|]. split; [intros o; rewrite R2; change (lf_refs l1 o) with (lf_refs l0 o); rewrite F4, Hsrq; lia|]. rewrite R3. cbn.
    unfold queues_freed, rxe_queue_cleanup. cbn. destruct Hsq as (_ & _ & _ & _ & -> & _). rewrite Hpsq, F3. by destruct (lf_mm l).
Qed.

Lemma with_new_ports i q init pd scq rcq l : special (ia_qp_type init) = true →
  rdev_ports (h_dev (lf_host (with_new i q init pd scq rcq l))) =
    alter (mark i (ia_qp_type init)) (Z.to_nat (ia_port_num init - 1)) (rdev_ports (h_dev (lf_host l))).
Proof. intros Hs. unfold with_new, claim_port. rewrite Hs. unfold holding. by destruct (ia_srq init). Qed.

Lemma chk_init_taken dev init i :
  special (ia_qp_type init) = true → i ≠ 0 →
  (∃ port, rdev_ports dev !! Z.to_nat (ia_port_num init - 1) = Some (mark i (ia_qp_type init) port)) →
  rxe_qp_chk_init dev init = Some (Err EINVAL).
Proof.
  intros Hs Hi [port Hp]. unfold rxe_qp_chk_init. destruct (ia_recv_cq init), (ia_send_cq init); try done.
  destruct (rxe_qp_chk_cap _ _ _); [|done]. fold (special (ia_qp_type init)). rewrite Hs. destruct (_ || _); [done|].
  rewrite Hp. cbn [mbind option_bind]. unfold mark, special in *. apply Z.eqb_neq in Hi.
  destruct (ia_qp_type init =? IB_QPT_SMI); cbn in *; [by rewrite Hi|]. rewrite Hs. cbn. by rewrite Hi.
Qed.

(** A port remembers the index of its special queue pair for ever: once one
    was created, the creation of another is refused, also after the first has
    been destroyed, and packets for it go to the index it had. *)
Theorem special_qp_once cls i scq rcq init l env env' p p' pd M depth fuel calls :
  acceptable cls i scq rcq init l → provides env p → provides env' p' → mc_rel at_rest M (lf_mc l) →
  special (ia_qp_type init) = true → i ≠ 0 →
  ∃ l1 l2, ib_create_qp cls (Some i) env env' pd init l = Some (l1, Ok i) ∧
    ib_destroy_qp (S depth) fuel (S calls) i l1 = Some l2 ∧ lf_qp i l2 = None ∧
    ∀ init' slot e e' pd', ia_qp_type init' = ia_qp_type init → ia_port_num init' = ia_port_num init →
      ib_create_qp cls slot e e' pd' init' l2 = Some (l2, Err EINVAL).
Proof.
  intros [Hc Hl [Hs Hr] Hf] [E1 E2] [E3 E4] Hrel Hsp Hi.
  destruct (create_ok cls l init i pd scq rcq Hc Hl Hs Hr Hf env env' p p' E1 E2 E3 E4) as (q & k & E & Hcr & _).
  fold (with_new i q init pd scq rcq l) in E. destruct (with_new_facts i q init pd scq rcq l) as (F1 & _).
  pose proof (with_new_ports i q init pd scq rcq l Hsp) as Hport.
  assert (Hrel1 : mc_rel at_rest M (lf_mc (with_new i q init pd scq rcq l))) by (by apply with_new_rel; [..|apply Hcr]).
  set (l1 := with_new i q init pd scq rcq l) in *. clearbody l1. pose proof (created_destroyable _ _ _ _ _ Hcr) as Hd.
  destruct (destroy_ok k depth fuel calls i l1 q M F1 Hd Hrel1) as (l2 & E5 & [_ R2 _ _ R5 _ _] & _);
    [by rewrite (cr_ref _ _ _ _ _ Hcr), (proj1 (proj2 (cr_pkts _ _ _ _ _ Hcr)))|by unfold resources_of; rewrite (cr_resp _ _ _ _ _ Hcr)|].
  exists l1, l2. split; [done|]. split; [done|]. split; [done|]. intros init' slot e e' pd' Ht Hpn.
  unfold ib_create_qp, rxe_create_qp. rewrite (chk_init_taken _ init' i); [done|by rewrite Ht|done|].
  destruct R5 as (-> & _). rewrite Hport, Ht, Hpn. destruct (chk_init_ok _ _ Hc) as (_ & _ & _ & Hex). destruct (Hex Hsp) as [port Hpo].
  exists port. by rewrite list_lookup_alter_eq, Hpo.
Qed.
End theorems.

(** ** Examples *)

Definition example_env (p : Z) : alloc_env := AllocEnv true (Some p) None true.
Definition example_no_env : alloc_env := AllocEnv true None None true.

Definition example_init (type : Z) (srq : option Z) : ib_qp_init_attr :=
  QpInitAttr true (Some 1) (Some 2) srq (QpCap 10 5 2 1 32) 0 type 1.

(** A host with three queue pairs, two of them members of a group, and every
    object with the reference of its creator. *)
Definition example_life : life :=
  Life (Mc (example_host <| h_mcgs := ∅ |>) [] []) (MmapDev 0 [] ∅ []) (λ _, 1) (λ _, 0).

Lemma example_life_rel : mc_rel at_rest ∅ (lf_mc example_life).
Proof.
  split; [|set_solver| | |].
  - intros j q Hq. assert (E : qp_grp_list q = []).
    { cbn in Hq. apply lookup_insert_Some in Hq as [[_ <-]|[_ Hq]]; [reflexivity|].
      apply lookup_insert_Some in Hq as [[_ <-]|[_ [_ <-]%lookup_singleton_Some]]; reflexivity. }
    rewrite E. split; [constructor|]. set_solver.
  - intros g c Hc. cbn in Hc. by rewrite lookup_empty in Hc.
  - intros g _. split; [done|set_solver].
  - cbn. by rewrite map_to_list_empty.
Qed.

Lemma example_acceptable type srq :
  rxe_qp_chk_init (h_dev (lf_host example_life)) (example_init type srq) = Some (Ok tt) →
  acceptable 64 20 1 2 (example_init type srq) example_life.
Proof. intros Hc. split; [exact Hc| |done|reflexivity]. split; vm_compute; try (split_and!); discriminate. Qed.

Lemma create_qp_ready_witness :
  ∃ l' q k, ib_create_qp (H := example_params) 64 (Some 20) (example_env 4096) (example_env 8192) 7 (example_init IB_QPT_RC None) example_life
      = Some (l', Ok 20) ∧ lf_qp 20 l' = Some q ∧ fresh_qp k 0 q ∧ lf_refs l' (OCq 1) = 2.
Proof.
  destruct (create_qp_ready (H := example_params) 64 20 1 2 (example_init IB_QPT_RC None) example_life (example_env 4096) (example_env 8192)
    4096 8192 7 ∅) as (l' & q & k & E & Hq & _ & Hfr & _ & _ & _ & Hrf & _).
  - apply example_acceptable. reflexivity.
  - done.
  - done.
  - apply example_life_rel.
  - exists l', q, k. split; [exact E|]. split; [exact Hq|]. split; [by apply Hfr|]. rewrite Hrf. reflexivity.
Defined.

Lemma create_destroy_witness :
  ∃ l1 l2, ib_create_qp (H := example_params) 64 (Some 20) (example_env 4096) (example_env 8192) 7 (example_init IB_QPT_UD None) example_life
      = Some (l1, Ok 20) ∧ ib_destroy_qp (H := example_params) 1 0 1 20 l1 = Some l2 ∧
    lf_refs l2 (OPd 7) = 1 ∧ vfreed (lf_mm l2) = [8192; 4096].
Proof.
  destruct (create_destroy (H := example_params) 64 20 1 2 (example_init IB_QPT_UD None) example_life (example_env 4096) (example_env 8192)
    4096 8192 7 ∅ 0 0 0) as (l1 & l2 & E1 & E2 & _ & _ & Hrf & _ & Hmm).
  - apply example_acceptable. reflexivity.
  - done.
  - done.
  - apply example_life_rel.
  - exists l1, l2. split; [exact E1|]. split; [exact E2|]. split; [exact (proj1 (Hrf (OPd 7)))|]. rewrite Hmm. reflexivity.
Defined.

Lemma special_qp_once_witness :
  ∃ l1 l2, ib_create_qp (H := example_params) 64 (Some 20) (example_env 4096) (example_env 8192) 7 (example_init IB_QPT_SMI None) example_life
      = Some (l1, Ok 20) ∧ ib_destroy_qp (H := example_params) 1 0 1 20 l1 = Some l2 ∧
    ib_create_qp (H := example_params) 64 (Some 21) (example_env 4096) (example_env 8192) 7 (example_init IB_QPT_SMI None) l2
      = Some (l2, Err EINVAL).
Proof.
  destruct (special_qp_once (H := example_params) 64 20 1 2 (example_init IB_QPT_SMI None) example_life (example_env 4096) (example_env 8192)
    4096 8192 7 ∅ 0 0 0) as (l1 & l2 & E1 & E2 & _ & Hno).
  - apply example_acceptable. reflexivity.
  - done.
  - done.
  - apply example_life_rel.
  - reflexivity.
  - discriminate.
  - exists l1, l2. split; [exact E1|]. split; [exact E2|]. by apply Hno.
Defined.

Lemma failed_create_drops_twice_witness :
  ∃ l', ib_create_qp (H := example_params) 64 (Some 20) (example_env 4096) example_no_env 7 (example_init IB_QPT_RC None) example_life
      = Some (l', Err ENOMEM) ∧ lf_refs l' (OPd 7) = 0 ∧ vfreed (lf_mm l') = [4096; 4096].
Proof.
  destruct (failed_create_drops_twice (H := example_params) 64 20 1 2 (example_init IB_QPT_RC None) example_life (example_env 4096)
    example_no_env 7 ∅) as (l' & E & _ & Hrf & Hmm).
  - apply example_acceptable. reflexivity.
  - apply example_life_rel.
  - right. split; [by eexists|]. split; [reflexivity|]. split; reflexivity.
  - exists l'. split; [exact E|]. split; [rewrite Hrf; reflexivity|]. rewrite Hmm. reflexivity.
Defined.

(** The queue pair 16 of the host, with the references its packets hold. *)
Definition example_used (ref : Z) (pkts : list rxe_pkt_info) : life :=
  lf_upd_qp 16 (λ q, q <| qp_ref := ref |> <| qp_req_pkts := pkts |> <| qp_resp_pkts := [] |> <| qp_on_arbiter := false |>
    <| qp_sq := example_sq 0 1 (replicate 4 zero_send_wqe) |>
    <| qp_resp ::= λ r, r <| resp_resources := None |> <| resp_mr := None |> |>) example_life.

Lemma example_used_facts ref pkts : ∃ q, lf_qp 16 (example_used ref pkts) = Some q ∧ destroyable 2 q ∧ qp_ref q = ref ∧
  qp_req_pkts q = pkts ∧ qp_resp_pkts q = [] ∧ resources_of q = [] ∧ users_of q = [OPd 5; OCq 1; OCq 1].
Proof.
  eexists. split; [reflexivity|]. split; [|done]. split; [|done|done]. split; [split|..]; vm_compute; intuition discriminate.
Qed.

Lemma destroy_qp_releases_witness :
  ∃ l', ib_destroy_qp (H := example_params) 1 0 1 16 (example_used 1 []) = Some l' ∧ lf_qp 16 l' = None ∧ lf_refs l' (OPd 5) = 0.
Proof.
  destruct (example_used_facts 1 []) as (q & Hq & Hd & Hr & _ & Hp & Hres & Hu).
  destruct (destroy_qp_releases (H := example_params) 2 0 0 0 16 (example_used 1 []) q ∅) as (l' & E & Hrl & _).
  - exact Hq.
  - exact Hd.
  - apply (rel_same _ _ (lf_mc example_life)); [apply example_life_rel|done..|].
    intros j. cbn. rewrite lookup_alter. case_decide; [subst; reflexivity|done].
  - by rewrite Hr, Hp.
  - by rewrite Hres.
  - exists l'. split; [exact E|]. split; [apply Hrl|]. rewrite (rl_refs _ _ _ _ _ _ Hrl), Hu. reflexivity.
Defined.

Lemma destroy_qp_leaks_witness :
  ∃ l' q', ib_destroy_qp (H := example_params) 1 0 1 16 (example_used 2 [example_junk]) = Some l' ∧ lf_qp 16 l' = Some q' ∧
    qp_ref q' = 1 ∧ qp_req_pkts q' = [example_junk].
Proof.
  destruct (example_used_facts 2 [example_junk]) as (q & Hq & Hd & Hr & Hpk & Hp & Hres & Hu).
  destruct (destroy_qp_leaks (H := example_params) 2 0 0 0 16 (example_used 2 [example_junk]) q) as (l' & q' & E & Hq' & _ & Hr' & Hpk' & _).
  - exact Hq.
  - exact Hd.
  - by rewrite Hr, Hpk, Hp, Hres.
  - by rewrite Hpk, Hres.
  - exists l', q'. split; [exact E|]. split; [exact Hq'|]. rewrite Hr', Hpk', Hpk, Hres. split; reflexivity.
Defined.
