(* ===== verification/Srq.v ===== *)
(** * Shared receive queues (rxe_srq.c, and the verbs for them)

    A shared receive queue is created with a limit below which an event is
    raised, it can be resized while requests are queued, and it is released
    with its last reference. The ones of the device are those in its map; one
    that has lost its queue is not, since every use of it but its release
    follows the null pointer. *)

From stdpp Require Import gmap.
From S2P Require Import Prelude Verbs Mmap Queue State Host Mcast QpInit QpLife.

Definition IB_SRQ_MAX_WR : Z := 1.
Definition IB_SRQ_LIMIT : Z := 2.
Definition IB_SRQ_INIT_MASK : Z := Z.lnot IB_SRQ_LIMIT.
Definition RXE_MIN_SRQ_WR : Z := 1.
Definition RXE_MIN_SRQ_SGE : Z := 1.

Record ib_srq_attr := SrqAttr {
  sa_max_wr : Z;
  sa_max_sge : Z;
  sa_srq_limit : Z
}.

#[export] Instance eta_ib_srq_attr : Eta ib_srq_attr := fun r => SrqAttr (sa_max_wr r) (sa_max_sge r) (sa_srq_limit r).

(** User data: the sizes of the two buffers, and whether copies from and to
    them succeed. *)
Record ib_udata := Udata {
  ud_inlen : Z;
  ud_outlen : Z;
  ud_copy_in : bool;
  ud_copy_out : bool
}.

#[export] Instance eta_ib_udata : Eta ib_udata := fun r => Udata (ud_inlen r) (ud_outlen r) (ud_copy_in r) (ud_copy_out r).

Section srq.
Context (cache_line_size : Z) (srq_resize : bool).

(** [srq_resize] is the capability of the device. The attributes may be
    rounded up. *)
Definition rxe_srq_chk_attr (dev : ib_device_attr) (srq : option rxe_srq) (attr : ib_srq_attr) (mask : Z)
    : option (ib_srq_attr * result unit) :=
  let bad := Some (attr, Err EINVAL) in
  let with_wr := flag_set mask IB_SRQ_MAX_WR in
  let has_limit s := negb (srq_limit s =? 0) && (sa_max_wr attr <? srq_limit s) in
  if match srq with Some s => srq_error s | None => false end then bad
  else if with_wr && (sa_max_wr attr >? da_max_srq_wr dev) then bad
  else if with_wr && (sa_max_wr attr <=? 0) then bad
  else if with_wr && (bool_decide (is_Some srq) && negb srq_resize) then bad
  else if with_wr && match srq with Some s => has_limit s | None => false end then bad
  else
    let attr := if with_wr && (sa_max_wr attr <? RXE_MIN_SRQ_WR) then attr <| sa_max_wr := RXE_MIN_SRQ_WR |> else attr in
    let finish :=
      if mask =? IB_SRQ_INIT_MASK then
        if sa_max_sge attr >? da_max_srq_sge dev then Some (attr, Err EINVAL)
        else Some (if sa_max_sge attr <? RXE_MIN_SRQ_SGE then attr <| sa_max_sge := RXE_MIN_SRQ_SGE |> else attr, Ok tt)
      else Some (attr, Ok tt) in
    if flag_set mask IB_SRQ_LIMIT then
      if sa_srq_limit attr >? da_max_srq_wr dev then Some (attr, Err EINVAL)
      else s ← srq; if sa_srq_limit attr >? buf_index_mask (q_buf (srq_queue s)) then Some (attr, Err EINVAL) else finish
    else finish.

Definition RCV_WQE_SIZE (max_sge : Z) : Z := sizeof_rxe_recv_wqe + max_sge * sizeof_ib_sge.

(** [Ok] is the number of bytes of the index that could not be copied to user
    space, which is returned as it is. *)
Definition rxe_srq_from_init (env : alloc_env) (mm : mmap_dev) (has_handler : bool) (attr : ib_srq_attr)
    (context : Z) (udata : option ib_udata) : mmap_dev * option rxe_srq * result Z :=
  match rxe_queue_init zero_recv_wqe cache_line_size (env_kmalloc_queue env) (env_vmalloc env) (sa_max_wr attr)
          (s32 (RCV_WQE_SIZE (s32 (sa_max_sge attr)))) with
  | None => (mm, None, Err ENOMEM)
  | Some (q, max_wr) =>
      match do_mmap_info (env_kmalloc_ip env) (env_copy_to_user env) mm (ud_outlen <$> udata) 0 context (q_buf_ptr q) (q_buf_size q) with
      | (mm, Err e) => (mm <| vfreed ::= cons (q_buf_ptr q) |>, None, Err e)
      | (mm, Ok ip) =>
          let srq := Srq (q <| q_ip := ip |>) max_wr (s32 (sa_max_sge attr)) (s32 (sa_srq_limit attr)) false has_handler in
          let uncopied := match udata with
            | Some ud => if (sizeof_mminfo + 4 <=? ud_outlen ud) && negb (ud_copy_out ud) then 4 else 0
            | None => 0
            end in
          (mm, Some srq, Ok uncopied)
      end
  end.

(** The second component is [None] when the queue of the shared receive queue
    is gone. *)
Definition rxe_srq_from_attr (env : alloc_env) (mm : mmap_dev) (srq : rxe_srq) (attr : ib_srq_attr) (mask : Z)
    (udata : option ib_udata) : option (mmap_dev * option rxe_srq * ib_srq_attr * result unit) :=
  let q := srq_queue srq in
  let limited srq := if flag_set mask IB_SRQ_LIMIT then srq <| srq_limit := s32 (sa_srq_limit attr) |> else srq in
  if flag_set mask IB_SRQ_MAX_WR then
    let told := match udata with Some ud => 8 <=? ud_inlen ud | None => false end in
    if told && match udata with Some ud => negb (ud_copy_in ud) || negb (ud_copy_out ud) | None => false end
    then Some (mm, Some srq, attr, Err EFAULT)
    else
      let outlen := (λ ud, if told then sizeof_mminfo else ud_outlen ud) <$> udata in
      let context := default 0 (ip_context <$> (q_ip q ≫= λ ip, infos mm !! ip)) in
      match rxe_queue_resize zero_recv_wqe cache_line_size env mm q (sa_max_wr attr) (RCV_WQE_SIZE (srq_max_sge srq)) context outlen with
      | None => None
      | Some (mm, q, max_wr, Err e) => Some (rxe_queue_cleanup mm q, None, attr <| sa_max_wr := max_wr |>, Err e)
      | Some (mm, q, max_wr, Ok _) => Some (mm, Some (limited (srq <| srq_queue := q |>)), attr <| sa_max_wr := max_wr |>, Ok tt)
      end
  else Some (mm, Some (limited srq), attr, Ok tt).

(** ** The verbs *)

Definition upd_srqs (f : gmap Z rxe_srq → gmap Z rxe_srq) : life → life :=
  lf_upd_host (λ h, h <| h_dev ::= λ d, d <| rdev_srqs ::= f |> |>).

Definition lf_srq (i : Z) (l : life) : option rxe_srq := rdev_srqs (h_dev (lf_host l)) !! i.

(** [rxe_srq_cleanup], run with the last reference. *)
Definition rxe_srq_cleanup (i : Z) (l : life) : life :=
  match lf_srq i l with
  | Some srq => upd_srqs (delete i) (l <| lf_mm ::= λ mm, rxe_queue_cleanup mm (srq_queue srq) |>)
  | None => l
  end.

Definition srq_put (i : Z) (l : life) : life :=
  let last := lf_refs l (OSrq i) =? 1 in
  let l := obj_drop_ref (OSrq i) l in
  if last then rxe_srq_cleanup i l else l.

(** [slot] is the index the pool gives. A count of bytes that were not copied
    is taken for an error, whose encoding as a pointer is not one for the
    caller: [None]. *)
Definition rxe_create_srq (slot : option Z) (env : alloc_env) (pd context : Z) (has_handler : bool) (attr : ib_srq_attr)
    (udata : option ib_udata) (l : life) : option (life * result Z) :=
  '(attr, err) ← rxe_srq_chk_attr (rdev_attr (h_dev (lf_host l))) None attr IB_SRQ_INIT_MASK;
  match err, slot with
  | Err e, _ => Some (l, Err e)
  | Ok _, None => Some (l, Err ENOMEM)
  | Ok _, Some i =>
      let l := obj_add_ref (OPd pd) (obj_add_ref (OSrq i) l) in
      let '(mm, srq, err) := rxe_srq_from_init env (lf_mm l) has_handler attr context udata in
      let l := l <| lf_mm := mm |> in
      let l := match srq with Some srq => upd_srqs <[i := srq]> l | None => l end in
      match err with
      | Err e => Some (srq_put i (obj_drop_ref (OPd pd) l), Err e)
      | Ok uncopied => if uncopied =? 0 then Some (l, Ok i) else None
      end
  end.

Definition rxe_modify_srq (i : Z) (env : alloc_env) (attr : ib_srq_attr) (mask : Z) (udata : option ib_udata) (l : life)
    : option (life * result unit) :=
  srq ← lf_srq i l;
  '(attr, err) ← rxe_srq_chk_attr (rdev_attr (h_dev (lf_host l))) (Some srq) attr mask;
  match err with
  | Err e => Some (l, Err e)
  | Ok _ =>
      '(mm, srq, _, err) ← rxe_srq_from_attr env (lf_mm l) srq attr mask udata;
      let l := l <| lf_mm := mm |> in
      Some (upd_srqs (match srq with Some srq => <[i := srq]> | None => delete i end) l, err)
  end.

Definition rxe_query_srq (srq : rxe_srq) : result ib_srq_attr :=
  if srq_error srq then Err EINVAL
  else Ok (SrqAttr (buf_index_mask (q_buf (srq_queue srq))) (srq_max_sge srq) (srq_limit srq)).

(** The code has no completion queue of a shared receive queue to drop. *)
Definition rxe_destroy_srq (i pd : Z) (l : life) : life := srq_put i (obj_drop_ref (OPd pd) l).
End srq.

(** ** The theorems *)

(** The limits of the device, and a request that respects them. *)
Record srq_request (cls : Z) (dev : ib_device_attr) (attr : ib_srq_attr) : Prop := {
  sr_wr : 0 < sa_max_wr attr ≤ da_max_srq_wr dev ∧ da_max_srq_wr dev ≤ 0x4000;
  sr_sge : 0 ≤ sa_max_sge attr ≤ da_max_srq_sge dev ∧ da_max_srq_sge dev ≤ 32;
  sr_limit : 0 ≤ sa_srq_limit attr < 2 ^ 31;
  sr_line : cls ≤ 1024
}.

Lemma chk_new resize cls dev attr : srq_request cls dev attr →
  rxe_srq_chk_attr resize dev None attr IB_SRQ_INIT_MASK =
    Some (attr <| sa_max_sge := Z.max 1 (sa_max_sge attr) |>, Ok tt).
Proof.
  intros [[Hw Hw'] [Hs Hs'] _ _]. unfold rxe_srq_chk_attr, RXE_MIN_SRQ_WR, RXE_MIN_SRQ_SGE.
  change (flag_set IB_SRQ_INIT_MASK IB_SRQ_MAX_WR) with true. change (flag_set IB_SRQ_INIT_MASK IB_SRQ_LIMIT) with false.
  change (IB_SRQ_INIT_MASK =? IB_SRQ_INIT_MASK) with true. cbn [andb].
  destruct (Z.gtb_spec (sa_max_wr attr) (da_max_srq_wr dev)); [lia|]. destruct (Z.leb_spec (sa_max_wr attr) 0); [lia|].
  change (bool_decide (is_Some None) && negb resize) with false. cbn [andb].
  destruct (Z.ltb_spec (sa_max_wr attr) 1); [lia|]. destruct (Z.gtb_spec (sa_max_sge attr) (da_max_srq_sge dev)); [lia|].
  destruct (Z.ltb_spec (sa_max_sge attr) 1); do 2 f_equal; destruct attr as [w g lim]; unfold upd_field; cbn in *; f_equal; lia.
Qed.

(** Creating a shared receive queue. A request within the limits of the
    device, with memory for the queue, gives an empty one with room for at
    least as many requests as asked for, which is what a query reports, and
    with the limit that was asked for, whatever it is. The protection domain is
    counted once more, and nothing else changes. Destroying it gives everything
    back. *)
Theorem srq_create_ready cls resize i env p pd has_handler attr l :
  let dev := rdev_attr (h_dev (lf_host l)) in
  srq_request cls dev attr → provides env p → lf_srq i l = None → lf_refs l (OSrq i) = 0 →
  ∃ l' srq k n, rxe_create_srq cls resize (Some i) env pd 0 has_handler attr None l = Some (l', Ok i) ∧ lf_srq i l' = Some srq ∧
    empty_queue zero_recv_wqe k (sa_max_wr attr) n (srq_queue srq) ∧
    rxe_query_srq srq = Ok (SrqAttr n (Z.max 1 (sa_max_sge attr)) (sa_srq_limit attr)) ∧
    (∀ j, j ≠ i → lf_srq j l' = lf_srq j l) ∧ lf_mm l' = lf_mm l ∧
    (∀ o, lf_refs l' o = lf_refs l o + uses [OPd pd; OSrq i] o) ∧
    let l2 := rxe_destroy_srq i pd l' in
    (∀ j, lf_srq j l2 = lf_srq j l) ∧ (∀ o, lf_refs l2 o = lf_refs l o) ∧ vfreed (lf_mm l2) = p :: vfreed (lf_mm l).
Proof.
  intros dev Hreq [E1 E2] Hi Hz. unfold rxe_create_srq. rewrite (chk_new resize cls) by done. cbn [mbind option_bind].
  destruct Hreq as [[Hw Hw'] [Hs Hs'] Hlim Hline]. unfold rxe_srq_from_init. cbn [sa_max_wr sa_max_sge upd_field].
  rewrite E1, E2, !(s32_small (Z.max 1 _)) by lia. unfold RCV_WQE_SIZE, sizeof_rxe_recv_wqe, sizeof_ib_sge. rewrite s32_small by lia.
  destruct (new_queue zero_recv_wqe cls p (sa_max_wr attr) (40 + Z.max 1 (sa_max_sge attr) * 16)) as (q & k & -> & Q); [lia..|].
  destruct Q as (Q1 & Q2 & Q3 & Q4 & Q5 & Q6 & Q7 & Q8 & Q9). cbn [do_mmap_info fmap option_fmap option_map]. rewrite (no_ip q) by done.
  eexists _, _, k, (2 ^ k - 1). split; [reflexivity|]. split; [apply lookup_insert_eq|]. split; [done|].
  split. { unfold rxe_query_srq. cbn. rewrite s32_small by (cbn in *; lia). by rewrite Q7, (geom_mask _ _ (wf_geom _ _ Q1)). }
  split; [intros j Hj; by apply lookup_insert_ne|]. split; [done|]. split.
  { intros o. cbn. rewrite !count_at, !uses_cons. change (uses [] o) with 0. lia. }
  cbv zeta. unfold rxe_destroy_srq, srq_put.
  match goal with |- context [if ?b then _ else _] => assert (b = true) as -> by (cbn; rewrite !count_at, Hz; by repeat case_decide) end.
  unfold rxe_srq_cleanup. match goal with |- context [lf_srq i ?x] => set (l1 := x) end.
  assert (lf_srq i l1 = Some (Srq q (2 ^ k - 1) (Z.max 1 (sa_max_sge attr)) (s32 (sa_srq_limit attr)) false has_handler)) as -> by apply lookup_insert_eq.
  split; [|split].
  - intros j. unfold lf_srq. cbn. destruct (decide (i = j)) as [<-|Hj]; [by rewrite lookup_delete_eq|].
    by rewrite lookup_delete_ne, lookup_insert_ne.
  - intros o. cbn. rewrite !count_at. repeat case_decide; lia.
  - cbn. unfold rxe_queue_cleanup. cbn. by rewrite Q4, Q5.
Qed.

(** C35: resizing a shared receive queue. When the request is accepted, the call
    returns. Either it succeeds: the requests that were queued are there in
    order, there is room for at least as many as asked for, and the old buffer
    is freed. Or it fails, which happens only when there is no memory or more
    requests are queued than asked for: then, instead of leaving the queue as
    it was, the code frees it with the requests in it and sets the pointer to
    null, and the next use of the shared receive queue follows it. *)
Theorem srq_resize_keeps_or_loses cls resize i env attr mask l srq k :
  let dev := rdev_attr (h_dev (lf_host l)) in
  lf_srq i l = Some srq → queue_wf k (srq_queue srq) → q_ip (srq_queue srq) = None → 0 ≤ srq_max_sge srq ≤ 32 → cls ≤ 1024 →
  0 ≤ sa_max_wr attr ≤ 0x4000 → flag_set mask IB_SRQ_MAX_WR = true → rxe_srq_chk_attr resize dev (Some srq) attr mask = Some (attr, Ok tt) →
  ∃ l' r, rxe_modify_srq cls resize i env attr mask None l = Some (l', r) ∧
    match r with
    | Ok _ => ∃ srq' n, lf_srq i l' = Some srq' ∧ queue_list (srq_queue srq') = queue_list (srq_queue srq) ∧
        sa_max_wr attr ≤ n ∧ ring_slots n (srq_queue srq') ∧
        srq_limit srq' = (if flag_set mask IB_SRQ_LIMIT then s32 (sa_srq_limit attr) else srq_limit srq) ∧
        vfreed (lf_mm l') = q_buf_ptr (srq_queue srq) :: vfreed (lf_mm l)
    | Err e => (e = ENOMEM ∧ (env_kmalloc_queue env = false ∨ env_vmalloc env = None) ∨
                e = EINVAL ∧ sa_max_wr attr < queue_count (srq_queue srq)) ∧
        lf_srq i l' = None ∧ q_buf_ptr (srq_queue srq) ∈ vfreed (lf_mm l')
    end.
Proof.
  intros dev Hi Hwf Hip Hsge Hline Hmax Hmask Hchk. unfold rxe_modify_srq. rewrite Hi. cbn [mbind option_bind].
  fold dev. rewrite Hchk. cbn [mbind option_bind]. unfold rxe_srq_from_attr. rewrite Hmask. cbn [andb fmap option_fmap option_map]. rewrite Hip.
  cbn [mbind option_bind fmap option_fmap option_map default].
  destruct (env_vmalloc env) as [p|] eqn:Ev.
  - destruct (rxe_queue_resize_spec zero_recv_wqe cls env (lf_mm l) (srq_queue srq) k p (sa_max_wr attr) (RCV_WQE_SIZE (srq_max_sge srq)) 0)
      as (mm & q & n & r & -> & Hl & Hr); [done..|lia|unfold RCV_WQE_SIZE, sizeof_rxe_recv_wqe, sizeof_ib_sge; lia|lia| |].
    { unfold queue_bytes, sizeof_rxe_queue_buf, RCV_WQE_SIZE, sizeof_rxe_recv_wqe, sizeof_ib_sge. pose proof (roundup_le (sa_max_wr attr + 1) 15).
      pose proof (roundup_le (Z.max (40 + srq_max_sge srq * 16) cls) 10). nia. }
    destruct Hr as [(-> & _ & Hn & Hsl & _ & Hv)|[(-> & Hk & _ & -> & ->)|(-> & Hc & _ & -> & Hv)]];
      cbn [mbind option_bind]; eexists _, _; (split; [reflexivity|]).
    + eexists _, n. split; [apply lookup_insert_eq|]. destruct (flag_set mask IB_SRQ_LIMIT); done.
    + split; [left; split; [done|by left]|]. split; [apply lookup_delete_eq|]. cbn. unfold rxe_queue_cleanup. rewrite Hip. cbn. set_solver.
    + split; [by right|]. split; [apply lookup_delete_eq|]. cbn. unfold rxe_queue_cleanup. rewrite Hip. cbn. set_solver.
  - unfold rxe_queue_resize. rewrite Ev, no_memory. cbn [mbind option_bind]. eexists _, _. split; [reflexivity|].
    split; [left; split; [done|by right]|]. split; [apply lookup_delete_eq|]. cbn. unfold rxe_queue_cleanup. rewrite Hip. cbn. set_solver.
Qed.

(** ** Examples *)

Definition example_srq_attr : ib_srq_attr := SrqAttr 5 2 9.

Lemma srq_create_ready_witness :
  ∃ l' srq, rxe_create_srq 64 true (Some 3) (example_env 4096) 7 0 true example_srq_attr None (example_life <| lf_refs := λ _, 0 |>)
      = Some (l', Ok 3) ∧ lf_srq 3 l' = Some srq ∧ srq_limit srq = 9 ∧ queue_list (srq_queue srq) = [].
Proof.
  destruct (srq_create_ready 64 true 3 (example_env 4096) 4096 7 true example_srq_attr (example_life <| lf_refs := λ _, 0 |>))
    as (l' & srq & k & n & E & Hs & Hq & Hqu & _).
  - split; cbn; lia.
  - done.
  - reflexivity.
  - reflexivity.
  - exists l', srq. split; [exact E|]. split; [exact Hs|]. unfold rxe_query_srq in Hqu. destruct (srq_error srq); [done|].
    injection Hqu as _ _ Hlim. split; [exact Hlim|apply Hq].
Defined.

(** Three requests are queued. *)
Definition example_srq_rq : rxe_queue rxe_recv_wqe := Queue (QueueBuf 6 3 3 0 (replicate 4 zero_recv_wqe)) 9 None 640 40 6 3.

Definition example_srq_life : life := upd_srqs <[3 := Srq example_srq_rq 3 1 0 false true]> example_life.

Lemma srq_resize_keeps_or_loses_witness :
  ∃ l' r, rxe_modify_srq 64 true 3 (example_env 4096) (SrqAttr 1 0 0) IB_SRQ_MAX_WR None example_srq_life = Some (l', r) ∧
    match r with Ok _ => True | Err _ => lf_srq 3 l' = None end.
Proof.
  destruct (srq_resize_keeps_or_loses 64 true 3 (example_env 4096) (SrqAttr 1 0 0) IB_SRQ_MAX_WR example_srq_life
    (Srq example_srq_rq 3 1 0 false true) 2) as (l' & r & E & Hr).
  - reflexivity.
  - split; [split|..]; vm_compute; try split; try discriminate; reflexivity.
  - reflexivity.
  - vm_compute. split; discriminate.
  - vm_compute. discriminate.
  - vm_compute. split; discriminate.
  - reflexivity.
  - vm_compute. reflexivity.
  - exists l', r. split; [exact E|]. destruct r; [exact I|apply Hr].
Defined.

(** Asking for room for one request while three are queued loses them. *)
Lemma example_srq_lost :
  (λ p, (lf_srq 3 p.1, p.2)) <$> rxe_modify_srq 64 true 3 (example_env 4096) (SrqAttr 1 0 0) IB_SRQ_MAX_WR None example_srq_life
    = Some (None, Err EINVAL).
Proof. vm_compute. reflexivity. Qed.
