(* ===== verification/Librxe.v ===== *)
(** * The user library: rings and posting (librxe: rxe_queue.h, rxe.c)

    A process maps the buffers of its queues and works on them without a system
    call: it writes its requests into the send and the receive queue itself and
    takes its completions from the completion queue itself. What it knows of a
    queue is the buffer alone; the size and the mask are those in it. After it
    has written send requests, the library calls the kernel once, with an empty
    list, which starts the requester. *)

From stdpp Require Import gmap.
From S2P Require Import Prelude Queue Opcode Hdr Verbs Mr Cq State Av QpState Comp Req Qp Post.

(** ** The ring, on the mapped buffer *)

Module Ring.
Section ops.
Context {A : Type}.
Implicit Types q : rxe_queue_buf A.

Definition queue_empty q : bool :=
  Z.land (u32 (buf_producer_index q - buf_consumer_index q)) (buf_index_mask q) =? 0.

Definition queue_full q : bool :=
  Z.land (u32 (buf_producer_index q + 1 - buf_consumer_index q)) (buf_index_mask q) =? 0.

Definition advance_producer q : rxe_queue_buf A :=
  q <| buf_producer_index := Z.land (u32 (buf_producer_index q + 1)) (buf_index_mask q) |>.

Definition advance_consumer q : rxe_queue_buf A :=
  q <| buf_consumer_index := Z.land (u32 (buf_consumer_index q + 1)) (buf_index_mask q) |>.

Definition producer_addr q : Z :=
  u32 (Z.shiftl (Z.land (buf_producer_index q) (buf_index_mask q)) (buf_log2_elem_size q)).

Definition consumer_addr q : Z :=
  u32 (Z.shiftl (Z.land (buf_consumer_index q) (buf_index_mask q)) (buf_log2_elem_size q)).

(** The element at a byte offset of the data area, read or overwritten. *)
Definition elem_at q (addr : Z) : option A := buf_data q !! Z.to_nat (Z.shiftr addr (buf_log2_elem_size q)).

Definition store_at q (addr : Z) (x : A) : rxe_queue_buf A :=
  q <| buf_data ::= <[Z.to_nat (Z.shiftr addr (buf_log2_elem_size q)) := x]> |>.

(** The queue whose private parameters are those of the buffer. *)
Definition view q : rxe_queue A := Queue q 0 None 0 0 (buf_log2_elem_size q) (buf_index_mask q).
End ops.
End Ring.

#[export] Program Instance user_ring A : RingFifo (rxe_queue_buf A) A := {|
  ring_wf n b := ring_slots n (Ring.view b);
  ring_list b := queue_list (Ring.view b);
  ring_empty := Ring.queue_empty;
  ring_full := Ring.queue_full;
  ring_head b := Ring.elem_at b (Ring.consumer_addr b);
  ring_post b x := Ring.advance_producer (Ring.store_at b (Ring.producer_addr b) x);
  ring_take := Ring.advance_consumer
|}.
Next Obligation. intros A n b. exact (ring_bound n (Ring.view b)). Qed.
Next Obligation. intros A n b. exact (ring_empty_spec n (Ring.view b)). Qed.
Next Obligation. intros A n b. exact (ring_full_spec n (Ring.view b)). Qed.
Next Obligation. intros A n b. exact (ring_head_spec n (Ring.view b)). Qed.
Next Obligation. intros A n b x. exact (ring_post_spec n (Ring.view b) x). Qed.
Next Obligation. intros A n b. exact (ring_take_spec n (Ring.view b)). Qed.

(** ** One buffer, two sides

    The kernel and the process work on one buffer, each with its own code. *)

Inductive side : Type := Kernel | Process.

Definition shared_step {A} (q : rxe_queue A) (who : side) (op : queue_op A) : rxe_queue A * option A :=
  match who with
  | Kernel => ring_step q op
  | Process => let '(b, r) := ring_step (q_buf q) op in (q <| q_buf := b |>, r)
  end.

Fixpoint shared_run {A} (q : rxe_queue A) (ops : list (side * queue_op A)) : rxe_queue A * list (option A) :=
  match ops with
  | [] => (q, [])
  | (who, op) :: ops =>
      let '(q, r) := shared_step q who op in
      let '(q, rs) := shared_run q ops in
      (q, r :: rs)
  end.

Section shared.
Context {A : Type}.
Implicit Types q : rxe_queue A.

Lemma user_producer_addr q : intact q → Ring.producer_addr (q_buf q) = producer_addr q.
Proof. intros [E1 E2]. unfold Ring.producer_addr. by rewrite E1, E2. Qed.

Lemma user_consumer_addr q : intact q → Ring.consumer_addr (q_buf q) = consumer_addr q.
Proof. intros [E1 E2]. unfold Ring.consumer_addr. by rewrite E1, E2. Qed.

Lemma user_full q : intact q → Ring.queue_full (q_buf q) = queue_full q.
Proof. intros [_ E]. unfold Ring.queue_full. by rewrite E. Qed.

Lemma user_empty q : intact q → Ring.queue_empty (q_buf q) = queue_empty q.
Proof. intros [_ E]. unfold Ring.queue_empty. by rewrite E. Qed.

Lemma user_elem q a : intact q → Ring.elem_at (q_buf q) a = elem_at q a.
Proof. intros [E _]. unfold Ring.elem_at. by rewrite E. Qed.

Lemma user_store q a x : intact q → q <| q_buf ::= λ b, Ring.store_at b a x |> = store_at q a x.
Proof. intros [E _]. destruct q as [[]]. cbn in *. subst. reflexivity. Qed.

Lemma user_produce q : intact q → q <| q_buf ::= Ring.advance_producer |> = advance_producer q.
Proof. intros [_ E]. destruct q as [[]]. cbn in *. subst. reflexivity. Qed.

Lemma user_consume q : intact q → q <| q_buf ::= Ring.advance_consumer |> = advance_consumer q.
Proof. intros [_ E]. destruct q as [[]]. cbn in *. subst. reflexivity. Qed.

Lemma intact_step q op : intact q → intact (ring_step q op).1.
Proof. intros H. destruct op; cbn; [destruct (queue_full q)|destruct (queue_empty q)]; exact H. Qed.

(** A step of the process is the step of the kernel. *)
Lemma process_step q op : intact q → shared_step q Process op = ring_step q op.
Proof.
  intros Hi. destruct op as [x|]; cbn.
  - rewrite user_full, user_producer_addr by done. destruct (queue_full q); [by destruct q|].
    unfold queue_post. rewrite <- (user_store q) by done. cbn. rewrite <- (user_produce (q <| q_buf ::= _ |>)); [done|exact Hi].
  - rewrite user_empty, user_consumer_addr, user_elem by done. destruct (queue_empty q); [by destruct q|].
    by rewrite <- (user_consume q).
Qed.

Lemma shared_run_ring ops : ∀ q, intact q → shared_run q ops = run_ops ring_step q (ops.*2).
Proof.
  induction ops as [|[who op] ops IH]; intros q Hi; [done|]. cbn [shared_run fmap list_fmap snd run_ops].
  replace (shared_step q who op) with (ring_step q op) by (destruct who; [done|by rewrite process_step]).
  pose proof (intact_step q op Hi) as Hi'. destruct (ring_step q op) as [q' r]. by rewrite IH.
Qed.

Lemma intact_run ops : ∀ q, intact q → intact (run_ops ring_step q ops).1.
Proof.
  induction ops as [|op ops IH]; intros q Hi; [done|]. cbn [run_ops]. pose proof (intact_step q op Hi) as Hi'.
  destruct (ring_step q op) as [q' r]. specialize (IH q' Hi'). by destruct (run_ops ring_step q' ops).
Qed.

Lemma ring_view n q : intact q → ring_slots n q → ring_slots n (Ring.view (q_buf q)).
Proof.
  intros [E1 E2] (k & [[] ? ?] & ->). exists k. split; [|done]. split; [|done..]. split; cbn; rewrite ?E1, ?E2; done.
Qed.
End shared.

(** ** Work requests of the verbs interface

    The members of the union of an operation are fields of their own; the caller
    has set those of the member its opcode and its service name. [us_ah] is the
    address vector of the address handle of a datagram. *)

Record ibv_send_wr := UserSend {
  us_wr_id : Z;
  us_sg_list : list ib_sge;
  us_num_sge : Z;
  us_opcode : Z;
  us_send_flags : Z;
  us_imm_data : Z;
  us_remote_addr : Z;
  us_rkey : Z;
  us_compare_add : Z;
  us_swap : Z;
  us_remote_qpn : Z;
  us_remote_qkey : Z;
  us_ah : rxe_av
}.

(** [struct rxe_qp] of the library: the limits it was told at creation, and its
    own count of requests. *)
Record user_qp := UserQp {
  uq_qp_type : Z;
  uq_rq_max_sge : Z;
  uq_sq_max_sge : Z;
  uq_sq_max_inline : Z;
  uq_ssn : Z
}.

#[export] Instance eta_user_qp : Eta user_qp := fun r =>
  UserQp (uq_qp_type r) (uq_rq_max_sge r) (uq_sq_max_sge r) (uq_sq_max_inline r) (uq_ssn r).

(** The values of the error numbers; the library returns them negated where it
    copies the kernel and plain elsewhere. *)
Definition errno_no (e : errno) : Z :=
  match e with
  | EPERM => 1 | ENOENT => 2 | EAGAIN => 11 | ENOMEM => 12 | EFAULT => 14 | EBUSY => 16 | EEXIST => 17
  | ENODEV => 19 | EINVAL => 22 | ENOSPC => 28 | ENOSYS => 38 | EMSGSIZE => 90 | EOPNOTSUPP => 95
  end.

(** ** Receive requests *)

(** The number of entries is compared without its sign. *)
Definition rxe_post_one_recv (max_sge : Z) (q : rxe_queue_buf rxe_recv_wqe) (recv_wr : ib_recv_wr)
    : option (rxe_queue_buf rxe_recv_wqe * Z) :=
  let num_sge := rw_num_sge recv_wr in
  if Ring.queue_full q then Some (q, - errno_no ENOMEM)
  else if u32 num_sge >? max_sge then Some (q, - errno_no EINVAL)
  else
    sge ← sg_entries (u32 num_sge) (rw_sg_list recv_wr);
    let addr := Ring.producer_addr q in
    w ← Ring.elem_at q addr;
    let dma := stored_dma (sg_length sge) (u32 num_sge) (dma_inline_data (rwqe_dma w)) sge in
    Some (Ring.advance_producer (Ring.store_at q addr (RecvWqe (rw_wr_id recv_wr) (u32 num_sge) dma)), 0).

Fixpoint post_recv_list (max_sge : Z) (q : rxe_queue_buf rxe_recv_wqe) (recv_wr : list ib_recv_wr)
    : option (rxe_queue_buf rxe_recv_wqe * list ib_recv_wr * Z) :=
  match recv_wr with
  | [] => Some (q, [], 0)
  | wr :: rest =>
      '(q, rc) ← rxe_post_one_recv max_sge q wr;
      if rc =? 0 then post_recv_list max_sge q rest else Some (q, recv_wr, rc)
  end.

(** The buffer, [*bad_wr] and the value returned; a queue pair with a shared
    receive queue has no buffer. *)
Definition rxe_post_recv (qp : user_qp) (queue : option (rxe_queue_buf rxe_recv_wqe)) (recv_wr : list ib_recv_wr)
    : option (option (rxe_queue_buf rxe_recv_wqe) * list ib_recv_wr * Z) :=
  match queue, recv_wr with
  | None, _ | _, [] => Some (queue, [], errno_no EINVAL)
  | Some q, _ =>
      '(q, bad_wr, rc) ← post_recv_list (uq_rq_max_sge qp) q recv_wr;
      Some (Some q, bad_wr, rc)
  end.

Definition rxe_post_srq_recv (max_sge : Z) (q : rxe_queue_buf rxe_recv_wqe) (recv_wr : list ib_recv_wr)
    : option (rxe_queue_buf rxe_recv_wqe * list ib_recv_wr * Z) :=
  post_recv_list max_sge q recv_wr.

(** ** Completions *)

Fixpoint rxe_poll_cq (ne : nat) (q : rxe_queue_buf ib_wc) : option (rxe_queue_buf ib_wc * list ib_wc) :=
  match ne with
  | O => Some (q, [])
  | S n =>
      if Ring.queue_empty q then Some (q, [])
      else
        wc ← Ring.elem_at q (Ring.consumer_addr q);
        '(q, wcs) ← rxe_poll_cq n (Ring.advance_consumer q);
        Some (q, wc :: wcs)
  end.

(** ** Send requests *)

Definition validate_send_wr (qp : user_qp) (ibwr : ibv_send_wr) (length : Z) : Z :=
  if u32 (us_num_sge ibwr) >? uq_sq_max_sge qp then - errno_no EINVAL
  else if one_of (us_opcode ibwr) [IB_WR_ATOMIC_CMP_AND_SWP; IB_WR_ATOMIC_FETCH_AND_ADD]
          && ((length <? 8) || flag_set (us_remote_addr ibwr) 0x7) then - errno_no EINVAL
  else if flag_set (us_send_flags ibwr) IB_SEND_INLINE && (length >? uq_sq_max_inline qp) then - errno_no EINVAL
  else 0.

Definition convert_send_wr (uwr : ibv_send_wr) : ib_send_wr :=
  let kwr := SendWr (us_wr_id uwr) (us_opcode uwr) (us_send_flags uwr) (us_imm_data uwr) (us_imm_data uwr) 0 0 0 0 0 0 0 in
  if one_of (us_opcode uwr) [IB_WR_RDMA_WRITE; IB_WR_RDMA_WRITE_WITH_IMM; IB_WR_RDMA_READ] then
    kwr <| wr_remote_addr := us_remote_addr uwr |> <| wr_rkey := us_rkey uwr |>
  else if one_of (us_opcode uwr) [IB_WR_SEND; IB_WR_SEND_WITH_IMM] then
    kwr <| wr_remote_qpn := us_remote_qpn uwr |> <| wr_remote_qkey := us_remote_qkey uwr |>
  else if one_of (us_opcode uwr) [IB_WR_ATOMIC_CMP_AND_SWP; IB_WR_ATOMIC_FETCH_AND_ADD] then
    kwr <| wr_remote_addr := us_remote_addr uwr |> <| wr_compare_add := us_compare_add uwr |>
        <| wr_swap := us_swap uwr |> <| wr_rkey := us_rkey uwr |>
  else kwr.

(** Inline data is read from the memory of the process, one entry after the other. *)
Definition inline_bytes (mem : Z → Z → list Z) (sge : list ib_sge) : list Z :=
  concat ((λ e, mem (sge_addr e) (sge_length e)) <$> sge).

(** The element [wqe] of the slot is overwritten in part: the mask and the status
    are those of the request it held before. *)
Definition init_send_wqe (mem : Z → Z → list Z) (qp : user_qp) (ibwr : ibv_send_wr) (length : Z) (sge : list ib_sge)
    (wqe : rxe_send_wqe) : user_qp * rxe_send_wqe :=
  let wqe := wqe <| wqe_ibwr := convert_send_wr ibwr |> in
  let wqe := if uq_qp_type qp =? IB_QPT_UD then wqe <| wqe_av := us_ah ibwr |> else wqe in
  let dma := wqe_dma wqe in
  let dma := if flag_set (us_send_flags ibwr) IB_SEND_INLINE then dma <| dma_inline_data := inline_bytes mem sge |>
             else dma <| dma_sge := sge |> in
  (qp <| uq_ssn := u32 (uq_ssn qp + 1) |>,
   wqe <| wqe_iova := us_remote_addr ibwr |>
       <| wqe_dma := stored_dma length (us_num_sge ibwr) (dma_inline_data dma) (dma_sge dma) |>
       <| wqe_st := wqe_state_posted |> <| wqe_ssn := uq_ssn qp |>).

(** The request is written before the queue is looked at. *)
Definition post_one_send (mem : Z → Z → list Z) (qp : user_qp) (q : rxe_queue_buf rxe_send_wqe) (ibwr : ibv_send_wr)
    : option (user_qp * rxe_queue_buf rxe_send_wqe * Z) :=
  sge ← sg_entries (us_num_sge ibwr) (us_sg_list ibwr);
  let length := sg_length sge in
  let err := validate_send_wr qp ibwr length in
  if negb (err =? 0) then Some (qp, q, err)
  else
    let addr := Ring.producer_addr q in
    wqe ← Ring.elem_at q addr;
    let '(qp, wqe) := init_send_wqe mem qp ibwr length sge wqe in
    let q := Ring.store_at q addr wqe in
    if Ring.queue_full q then Some (qp, q, - errno_no ENOMEM)
    else Some (qp, Ring.advance_producer q, 0).

Fixpoint post_send_list (mem : Z → Z → list Z) (qp : user_qp) (q : rxe_queue_buf rxe_send_wqe) (wr_list : list ibv_send_wr)
    : option (user_qp * rxe_queue_buf rxe_send_wqe * list ibv_send_wr * Z) :=
  match wr_list with
  | [] => Some (qp, q, [], 0)
  | wr :: rest =>
      '(qp, q, rc) ← post_one_send mem qp q wr;
      if rc =? 0 then post_send_list mem qp q rest else Some (qp, q, wr_list, rc)
  end.

(** The command that [post_send_db] writes, as the kernel handles it: the element
    size it states is no less than the one expected, and its list is empty. [env]
    is whether there is memory, whether the handle is known and whether the
    response can be written. *)
Record db_env := DbEnv { db_kmalloc : bool; db_found : bool; db_copied : bool }.

Definition sizeof_ibv_send_wr : Z := 64.
Definition sizeof_ib_uverbs_send_wr : Z := 56.

(** What stands before and what stands after the loop over the list. *)
Definition uverbs_check (env : db_env) (wqe_size : Z) : result unit :=
  if wqe_size <? sizeof_ib_uverbs_send_wr then Err EINVAL
  else if negb (db_kmalloc env) then Err ENOMEM
  else if negb (db_found env) then Err EINVAL
  else Ok tt.

Definition ib_uverbs_post_send (env : db_env) (um : umem) (wqe_size : Z) : eng (result unit) :=
  match uverbs_check env wqe_size with
  | Err e => mret (Err e)
  | Ok _ =>
      '(_, ret) ← Post.rxe_post_send um [];
      mret (if db_copied env then ret else Err EFAULT)
  end.

Definition post_send_db (env : db_env) (um : umem) : eng Z :=
  ret ← ib_uverbs_post_send env um sizeof_ibv_send_wr;
  match ret with
  | Ok _ => mret 0
  | Err e => mret (errno_no e)
  end.

(** The buffer is the one of the send queue of the kernel. *)
Definition rxe_post_send (env : db_env) (um : umem) (qp : user_qp) (wr_list : list ibv_send_wr)
    : eng (user_qp * list ibv_send_wr * Z) :=
  match wr_list with
  | [] => mret (qp, [], errno_no EINVAL)
  | _ =>
      q ← get_qp;
      '(qp, b, bad_wr, rc) ← deref (post_send_list (um_read um) qp (q_buf (qp_sq q)) wr_list);
      mod_qp (λ q, q <| qp_sq ::= λ sq, sq <| q_buf := b |> |>);;
      err ← post_send_db env um;
      mret (qp, bad_wr, if err =? 0 then rc else err)
  end.

(** ** The library posts what the kernel posts *)

(** The value the library returns where the kernel returns [r]. *)
Definition rc_of (r : result unit) : Z := match r with Ok _ => 0 | Err e => - errno_no e end.

Lemma errno_no_pos e : 0 < errno_no e.
Proof. by destruct e. Qed.

Section recv.
Context (max_sge : Z).

Lemma intact_post_one_recv q wr q' r : intact q → Post.post_one_recv max_sge q wr = Some (q', r) → intact q'.
Proof.
  intros Hi. unfold Post.post_one_recv.
  destruct (queue_full q); [by intros [= <- _]|]. destruct (_ >? _); [by intros [= <- _]|]. destruct (_ <? 0); [done|].
  destruct (sg_entries _ _); [|done]. cbn. destruct (elem_at _ _); [|done]. cbn. by intros [= <- _].
Qed.

Lemma post_one_recv_same q wr :
  intact q → 0 ≤ rw_num_sge wr < 2 ^ 31 →
  rxe_post_one_recv max_sge (q_buf q) wr = '(q', r) ← Post.post_one_recv max_sge q wr; Some (q_buf q', rc_of r).
Proof.
  intros Hi Hn. unfold rxe_post_one_recv, Post.post_one_recv. rewrite u32_small by lia.
  rewrite user_full, user_producer_addr by done. destruct (queue_full q); [done|].
  destruct (_ >? _); [done|]. destruct (Z.ltb_spec (rw_num_sge wr) 0); [lia|].
  destruct (sg_entries _ _) as [sge|]; [|done]. cbn [mbind option_bind]. rewrite user_elem by done.
  destruct (elem_at _ _) as [w|]; [|done]. cbn [mbind option_bind]. by rewrite <- user_store, <- user_produce.
Qed.

Lemma post_recv_list_same wrs : ∀ q,
  intact q → Forall (λ wr, 0 ≤ rw_num_sge wr < 2 ^ 31) wrs →
  post_recv_list max_sge (q_buf q) wrs = '(q', bad, r) ← post_recvs max_sge q wrs; Some (q_buf q', bad, rc_of r).
Proof.
  induction wrs as [|wr wrs IH]; intros q Hi Hf; [done|]. apply Forall_cons_1 in Hf as [Hwr Hf].
  cbn [post_recv_list post_recvs]. rewrite post_one_recv_same by done.
  destruct (Post.post_one_recv max_sge q wr) as [[q' [[]|e]]|] eqn:E; cbn [mbind option_bind rc_of]; [|..]; try done.
  - cbn [Z.eqb]. apply IH; [|done]. by eapply intact_post_one_recv.
  - pose proof (errno_no_pos e). destruct (Z.eqb_spec (- errno_no e) 0); [lia|done].
Qed.
End recv.

Lemma poll_same n : ∀ cq, intact (cq_queue cq) →
  rxe_poll_cq n (q_buf (cq_queue cq)) = '(cq', wcs) ← Cq.rxe_poll_cq n cq; Some (q_buf (cq_queue cq'), wcs).
Proof.
  induction n as [|n IH]; intros cq Hi; [done|]. cbn [rxe_poll_cq Cq.rxe_poll_cq]. unfold queue_head.
  rewrite user_empty, user_consumer_addr, user_elem by done. destruct (queue_empty (cq_queue cq)); [done|].
  destruct (elem_at _ _) as [wc|]; [|done]. cbn [mbind option_bind].
  set (cq1 := cq <| cq_queue ::= advance_consumer |>).
  assert (E : Ring.advance_consumer (q_buf (cq_queue cq)) = q_buf (cq_queue cq1)).
  { change (q_buf (cq_queue cq1)) with (q_buf (advance_consumer (cq_queue cq))). by rewrite <- user_consume. }
  rewrite E, (IH cq1 Hi). by destruct (Cq.rxe_poll_cq n cq1) as [[]|].
Qed.

(** The elements of a queue changed one by one. *)
Definition qmap {A} (f : A → A) (q : rxe_queue A) : rxe_queue A :=
  q <| q_buf ::= λ b, b <| buf_data ::= fmap f |> |>.

Section qmap.
Context {A : Type} (f : A → A).
Implicit Types q : rxe_queue A.

Lemma qmap_list q : queue_list (qmap f q) = f <$> queue_list q.
Proof. unfold queue_list. change (queue_count (qmap f q)) with (queue_count q). rewrite fmap_take. f_equal.
  unfold rotate. cbn. rewrite fmap_app, fmap_drop, fmap_take, length_fmap. done. Qed.

Lemma qmap_elem q a : elem_at (qmap f q) a = f <$> elem_at q a.
Proof. unfold elem_at. cbn. by rewrite list_lookup_fmap. Qed.

Lemma qmap_store q a x : qmap f (store_at q a x) = store_at (qmap f q) a (f x).
Proof.
  destruct q as [[lg m p c d] ptr ip bs es lq im].
  exact (f_equal (λ d, Queue (QueueBuf lg m p c d) ptr ip bs es lq im) (list_fmap_insert f d _ x)).
Qed.

Lemma qmap_wf k q q' : qmap f q = qmap f q' → queue_wf k q → queue_wf k q'.
Proof.
  destruct q as [[]], q' as [[]]. unfold qmap. cbn. intros [= -> -> -> -> Hd -> -> -> -> -> ->] [[? ? ? ? Hl] ? ?]. cbn in *.
  split; [split|..]; try done. cbn. apply (f_equal length) in Hd. rewrite !length_fmap in Hd. by rewrite <- Hd.
Qed.

Lemma qmap_intact q q' : qmap f q = qmap f q' → intact q → intact q'.
Proof. destruct q as [[]], q' as [[]]. unfold qmap, intact. cbn. by intros [= -> -> -> -> Hd -> -> -> -> -> ->]. Qed.

Lemma qmap_full q q' : qmap f q = qmap f q' → queue_full q = queue_full q'.
Proof. intros E. change (queue_full (qmap f q) = queue_full (qmap f q')). by rewrite E. Qed.

Lemma qmap_producer q q' : qmap f q = qmap f q' → producer_addr q = producer_addr q'.
Proof. intros E. change (producer_addr (qmap f q) = producer_addr (qmap f q')). by rewrite E. Qed.

Lemma qmap_advance q q' : qmap f q = qmap f q' → qmap f (advance_producer q) = qmap f (advance_producer q').
Proof. intros E. change (advance_producer (qmap f q) = advance_producer (qmap f q')). by rewrite E. Qed.
End qmap.

(** The slot behind the newest element can be written without effect. *)
Lemma store_behind {A} k (q : rxe_queue A) x :
  queue_wf k q → queue_list (store_at q (producer_addr q) x) = queue_list q.
Proof.
  intros Hwf. apply (queue_list_ext k); [by apply store_at_wf|rewrite (queue_list_length k) by apply Hwf; reflexivity|].
  change (queue_count (store_at q (producer_addr q) x)) with (queue_count q). intros i Hi.
  rewrite (queue_list_lookup k) by done. rewrite (store_at_producer k) by apply Hwf. cbn. apply list_lookup_insert_ne.
  pose proof (queue_count_mod k q Hwf) as Hcnt. pose proof (geom_pow _ _ Hwf). destruct Hwf as [Hg Hp Hc].
  rewrite Hcnt in Hi. zify_mod; lia.
Qed.

(** The request as a client in the kernel would pass it. *)
Definition to_post (u : ibv_send_wr) : post_wr := PostWr (convert_send_wr u) (us_num_sge u) (us_sg_list u) (us_ah u).

(** What of an element the engine looks at: not the number of the request, not the
    mask, which the requester fills in when it takes the request up, and not the
    remote address of a send, which has none. *)
Definition seen (w : rxe_send_wqe) : rxe_send_wqe :=
  w <| wqe_mask := 0 |> <| wqe_ssn := 0 |>
    <| wqe_iova := if one_of (wr_opcode (wqe_ibwr w)) [IB_WR_SEND; IB_WR_SEND_WITH_IMM] then 0 else wqe_iova w |>.

Definition user_opcodes : list Z :=
  [IB_WR_RDMA_WRITE; IB_WR_RDMA_WRITE_WITH_IMM; IB_WR_SEND; IB_WR_SEND_WITH_IMM; IB_WR_RDMA_READ;
   IB_WR_ATOMIC_CMP_AND_SWP; IB_WR_ATOMIC_FETCH_AND_ADD].

(** The library was told the limits of the queue pair. *)
Record told (u : user_qp) (q : rxe_qp) : Prop := {
  told_type : uq_qp_type u = qp_type q;
  told_kind : qp_type q ∈ [IB_QPT_RC; IB_QPT_UC; IB_QPT_UD];
  told_sge : uq_sq_max_sge u = cap_max_send_sge (qp_cap q);
  told_int : cap_max_send_sge (qp_cap q) < 2 ^ 31;
  told_inline : uq_sq_max_inline u = cap_max_inline_data (qp_cap q)
}.

(** A request of an operation that the service of the queue pair has, inline only
    where it can be, with a list that has the entries it says. *)
Record user_request (q : rxe_qp) (u : ibv_send_wr) : Prop := {
  ur_opcode : us_opcode u ∈ user_opcodes;
  ur_list : 0 ≤ us_num_sge u < 2 ^ 31 ∧ us_num_sge u ≤ Z.of_nat (length (us_sg_list u));
  ur_mask : wr_opcode_mask (us_opcode u) q ≠ 0;
  ur_inline : flag_set (us_send_flags u) IB_SEND_INLINE && negb (flag_set (wr_opcode_mask (us_opcode u) q) WR_INLINE_MASK) = false
}.

Section send.
Context (um : umem).

Lemma inline_same sge : inline_bytes (um_read um) sge = (copy_inline um false sge).1.
Proof.
  induction sge as [|e l IH]; [done|]. unfold inline_bytes in *. cbn. rewrite IH. by destruct (copy_inline um false l).
Qed.

Lemma convert_opcode u : wr_opcode (convert_send_wr u) = us_opcode u ∧ wr_send_flags (convert_send_wr u) = us_send_flags u.
Proof. unfold convert_send_wr. repeat case_match; done. Qed.

Lemma user_listed q u : user_request q u → sg_listed (to_post u).
Proof. intros [_ [? ?] _ _]. split; cbn; lia. Qed.

(** The two checks agree. *)
Lemma user_valid uq q u length :
  told uq q → user_request q u →
  validate_send_wr uq u length = rc_of (Post.validate_send_wr q (to_post u) (wr_opcode_mask (us_opcode u) q) length).
Proof.
  intros [_ _ T3 T4 T5] [Hop [Hn _] Hm _]. destruct (convert_opcode u) as [_ Ef].
  unfold validate_send_wr, Post.validate_send_wr. cbn [to_post sw_wr sw_num_sge]. rewrite Ef, T3, T5, u32_small by lia.
  destruct (us_num_sge u >? _); [done|].
  replace (flag_set (wr_opcode_mask (us_opcode u) q) WR_ATOMIC_MASK && ((length <? 8) || flag_set (wr_remote_addr (convert_send_wr u)) 0x7))
    with (one_of (us_opcode u) [IB_WR_ATOMIC_CMP_AND_SWP; IB_WR_ATOMIC_FETCH_AND_ADD] && ((length <? 8) || flag_set (us_remote_addr u) 0x7)).
  - destruct (_ && _); [done|]. by destruct (_ && _).
  - unfold wr_opcode_mask, rxe_wr_opcode_info, convert_send_wr in *.
    repeat (apply elem_of_cons in Hop as [Hop|Hop]; [rewrite Hop in *|]); [..|by apply elem_of_nil in Hop].
    all: cbn in Hm |- *; repeat case_match; done.
Qed.

Lemma seen_fields w w' : seen w = seen w' →
  wqe_av w = wqe_av w' ∧ wqe_status w = wqe_status w' ∧ wqe_first_psn w = wqe_first_psn w' ∧ wqe_last_psn w = wqe_last_psn w' ∧
  wqe_ack_length w = wqe_ack_length w' ∧ wqe_has_rd_atomic w = wqe_has_rd_atomic w' ∧ wqe_dma w = wqe_dma w'.
Proof. destruct w, w'. unfold seen. cbn. by intros [= -> -> -> -> _ -> -> -> -> ->]. Qed.

Lemma wqe_same uq q u sge w w' :
  told uq q → us_opcode u ∈ user_opcodes → seen w = seen w' →
  seen (init_send_wqe (um_read um) uq u (sg_length sge) sge w).2 = seen (send_wqe um q (to_post u) sge w').
Proof.
  intros [T1 T2 _ _ _] Hop Hs. destruct (seen_fields _ _ Hs) as (E1 & E2 & E3 & E4 & E5 & E6 & E7).
  unfold init_send_wqe, send_wqe. destruct (convert_opcode u) as [Eo Ef]. cbn [to_post sw_wr sw_ah sw_num_sge]. rewrite Ef, T1, inline_same.
  replace (one_of (qp_type q) [IB_QPT_UD; IB_QPT_SMI; IB_QPT_GSI]) with (qp_type q =? IB_QPT_UD).
  2:{ repeat (apply elem_of_cons in T2 as [->|T2]; [done|]). by apply elem_of_nil in T2. }
  assert (Er : one_of (us_opcode u) [IB_WR_SEND; IB_WR_SEND_WITH_IMM] = false → wr_remote_addr (convert_send_wr u) = us_remote_addr u).
  { unfold convert_send_wr. by repeat (apply elem_of_cons in Hop as [->|Hop]; [done|]); apply elem_of_nil in Hop. }
  destruct w, w'. cbn in * |-. subst. destruct (qp_type q =? IB_QPT_UD), (flag_set (us_send_flags u) IB_SEND_INLINE).
  all: unfold seen; cbn -[one_of]; rewrite Eo; destruct (one_of (us_opcode u) [IB_WR_SEND; IB_WR_SEND_WITH_IMM]) eqn:Es; rewrite ?Er by done; done.
Qed.

Lemma post_one_same k uq q qu qk u sge :
  qmap seen qu = qmap seen qk → intact qk → queue_wf k qk → told uq q → user_request q u → send_fits q (to_post u) sge →
  ∃ w w0, elem_at qk (producer_addr qk) = Some w0 ∧ seen w = seen (send_wqe um q (to_post u) sge w0) ∧
    post_one_send (um_read um) uq (q_buf qu) u =
      let uq := uq <| uq_ssn := u32 (uq_ssn uq + 1) |> in
      if queue_full qk then Some (uq, q_buf (store_at qu (producer_addr qu) w), - errno_no ENOMEM)
      else Some (uq, q_buf (queue_post qu w), 0).
Proof.
  intros Hq Hi Hwf Ht Hreq Hf. pose proof (qmap_wf _ _ _ _ (eq_sym Hq) Hwf) as Hwu. pose proof (qmap_intact _ _ _ (eq_sym Hq) Hi) as Hiu.
  pose proof (ur_opcode _ _ Hreq) as Hop.
  destruct (producer_elem k qu Hwu) as [wu Hu]. destruct (producer_elem k qk Hwf) as [w0 Hw0].
  assert (Hs : seen wu = seen w0).
  { apply (inj Some). change (seen <$> Some wu = seen <$> Some w0). rewrite <- Hu, <- Hw0, <- !qmap_elem, Hq.
    by rewrite (qmap_producer _ _ _ Hq). }
  exists (init_send_wqe (um_read um) uq u (sg_length sge) sge wu).2, w0. split; [done|]. split; [by apply wqe_same|].
  unfold post_one_send. change (sg_entries (us_num_sge u) (us_sg_list u)) with (sg_entries (sw_num_sge (to_post u)) (sw_sg_list (to_post u))).
  rewrite (sf_sge _ _ _ Hf). cbn [mbind option_bind]. rewrite (user_valid uq q u) by done.
  pose proof (send_fits_valid _ _ _ Hf) as Hv. cbn [to_post sw_wr] in Hv. rewrite (proj1 (convert_opcode u)) in Hv. rewrite Hv. cbn [rc_of negb Z.eqb].
  rewrite user_producer_addr, user_elem, Hu by done. cbn [mbind option_bind].
  set (w := init_send_wqe (um_read um) uq u (sg_length sge) sge wu).
  assert (Ew : w.1 = uq <| uq_ssn := u32 (uq_ssn uq + 1) |>) by done. destruct w as [uq' w]. cbn [fst snd] in *. subst uq'.
  change (Ring.queue_full (Ring.store_at (q_buf qu) (producer_addr qu) w)) with (Ring.queue_full (q_buf qu)).
  rewrite user_full, (qmap_full _ _ _ Hq) by done. unfold queue_post. rewrite <- user_produce, <- user_store by done.
  by destruct (queue_full qk).
Qed.

Lemma qmap_post q q' w w' : qmap seen q = qmap seen q' → seen w = seen w' → qmap seen (queue_post q w) = qmap seen (queue_post q' w').
Proof.
  intros Hq Hw. unfold queue_post. apply qmap_advance. rewrite !qmap_store, (qmap_producer _ _ _ Hq), Hq, Hw. done.
Qed.

(** A request that the kernel refuses is refused by the library. *)
Lemma post_one_refused uq q qu u :
  told uq q → user_request q u → ¬ accepts_send q (to_post u) → post_one_send (um_read um) uq qu u = Some (uq, qu, - errno_no EINVAL).
Proof.
  intros Ht Hreq Hn. destruct (sg_listed_entries _ (user_listed _ _ Hreq)) as [sge Hsg]. unfold post_one_send.
  change (sg_entries (us_num_sge u) (us_sg_list u)) with (sg_entries (sw_num_sge (to_post u)) (sw_sg_list (to_post u))).
  rewrite Hsg. cbn [mbind option_bind]. rewrite (user_valid uq q u) by done.
  pose proof (user_listed _ _ Hreq) as [H0 _]. destruct (convert_opcode u) as [Eo Ef].
  destruct (send_checked q (to_post u) sge H0 Hsg) as [Hf|Hv].
  - cbn [to_post sw_wr]. rewrite Eo. apply Hreq.
  - cbn [to_post sw_wr]. rewrite Eo, Ef. apply Hreq.
  - destruct Hn. by exists sge.
  - cbn [to_post sw_wr] in Hv. rewrite Eo in Hv. by rewrite Hv.
Qed.

Lemma sends_same k wrs : ∀ uq qu s,
  let qk := qp_sq (es_qp s) in
  qmap seen qu = qmap seen qk → intact qk → queue_wf k qk → qp_is_user (es_qp s) = false → told uq (es_qp s) →
  Forall (user_request (es_qp s)) wrs →
  ∃ uq' qu' bad r s', post_send_list (um_read um) uq (q_buf qu) wrs = Some (uq', q_buf qu', bad, rc_of r) ∧
    post_sends um (to_post <$> wrs) s = Some ((to_post <$> bad, r), s') ∧ qu' = qu <| q_buf := q_buf qu' |> ∧
    queue_wf k qu' ∧ intact qu' ∧ seen <$> queue_list qu' = seen <$> queue_list (qp_sq (es_qp s')).
Proof.
  induction wrs as [|u wrs IH]; intros uq qu s qk Hq Hi Hwf Hu Ht Hf; pose proof (qmap_wf _ _ _ _ (eq_sym Hq) Hwf) as Hwu;
    pose proof (qmap_intact _ _ _ (eq_sym Hq) Hi) as Hiu.
  { exists uq, qu, [], (Ok tt), s. split; [done|]. split; [done|]. split; [by destruct qu|]. split; [done|]. split; [done|].
    by rewrite <- !qmap_list, Hq. }
  apply Forall_cons_1 in Hf as [Hreq Hf]. cbn [post_send_list fmap list_fmap].
  destruct (post_sends_refused um (to_post u) (list_fmap _ _ to_post wrs) s (user_listed _ _ Hreq)) as [[sge Hfit]|[Hn E]].
  2:{ rewrite (post_one_refused uq (es_qp s)) by done. cbn [mbind option_bind].
      exists uq, qu, (u :: wrs), (Err EINVAL), s. split; [done|]. split; [exact E|]. split; [by destruct qu|]. split; [done|]. split; [done|].
      by rewrite <- !qmap_list, Hq. }
  destruct (post_one_same k uq (es_qp s) qu qk u sge) as (w & w0 & Hw0 & Hw & ->); [done..|].
  destruct (queue_full qk) eqn:Hfull; cbn [mbind option_bind].
  - exists (uq <| uq_ssn := u32 (uq_ssn uq + 1) |>), (store_at qu (producer_addr qu) w), (u :: wrs), (Err ENOMEM), s. split; [done|].
    split; [by apply (post_sends_full um _ _ sge)|]. split; [by destruct qu|]. split; [by apply store_at_wf|]. split; [exact Hiu|].
    rewrite (store_behind k) by done. by rewrite <- !qmap_list, Hq.
  - cbn [Z.eqb]. rewrite (post_sends_cons um _ _ sge _ w0) by done.
    set (s1 := with_posted (send_wqe um (es_qp s) (to_post u) sge w0) s).
    destruct (IH (uq <| uq_ssn := u32 (uq_ssn uq + 1) |>) (queue_post qu w) s1) as (uq' & qu' & bad & r & s' & E1 & E2 & E3 & Hrest).
    + by apply qmap_post.
    + exact Hi.
    + by apply queue_push.
    + exact Hu.
    + by destruct Ht.
    + eapply Forall_impl; [|exact Hf]. by intros x [].
    + exists uq', qu', bad, r, s'. split; [exact E1|]. split; [exact E2|]. split; [|done]. rewrite E3. by destruct qu.
Qed.
End send.

(** ** Claims *)

(** C20: one buffer, two sides. Whatever the order in which the kernel and the
    process put elements into a queue and take them out, each with its own code
    and its own view of the size, the buffer they share behaves as one queue of at
    most [2^k - 1] elements, as long as neither writes the size that is stored in
    it. *)
Theorem shared_ring_fifo {A} k (q : rxe_queue A) (ops : list (side * queue_op A)) :
  queue_wf k q → intact q →
  let '(q', rs) := shared_run q ops in
  intact q' ∧ ring_wf (2 ^ k - 1) q' ∧ ring_wf (2 ^ k - 1) (q_buf q') ∧
  run_ops (fifo_step (2 ^ k - 1)) (queue_list q) (ops.*2) = (queue_list q', rs).
Proof.
  intros Hwf Hi. rewrite shared_run_ring by done. destruct (run_ops_refines (2 ^ k - 1) q (ops.*2)) as [Hr E]; [by exists k|].
  pose proof (intact_run (ops.*2) q Hi) as Hi'. destruct (run_ops ring_step q (ops.*2)) as [q' rs]. cbn [fst snd] in *.
  split; [done|]. split; [done|]. split; [by apply ring_view|done].
Qed.

Lemma shared_ring_fifo_witness :
  (shared_run example_queue [(Process, OpPost 14); (Kernel, OpPost 15); (Kernel, OpTake); (Process, OpTake); (Process, OpPost 16)]).2
  = [Some 14; None; Some 13; Some 10; Some 16].
Proof.
  pose proof (shared_ring_fifo 2 example_queue
    [(Process, OpPost 14); (Kernel, OpPost 15); (Kernel, OpTake); (Process, OpTake); (Process, OpPost 16)] example_queue_wf) as H.
  specialize (H (conj eq_refl eq_refl)). vm_compute in H. vm_compute. destruct H as (_ & _ & _ & H). congruence.
Defined.

Lemma post_one_recv_total k max_sge rq wr :
  queue_wf k rq → 0 ≤ rw_num_sge wr ≤ Z.of_nat (length (rw_sg_list wr)) →
  ∃ rq' r, Post.post_one_recv max_sge rq wr = Some (rq', r) ∧ queue_wf k rq'.
Proof.
  intros Hwf Hn. unfold Post.post_one_recv. destruct (queue_full rq) eqn:Hf; [by eexists _, _|].
  destruct (_ >? _); [by eexists _, _|]. destruct (Z.ltb_spec (rw_num_sge wr) 0); [lia|].
  unfold sg_entries. destruct (Z.leb_spec (rw_num_sge wr) (Z.of_nat (length (rw_sg_list wr)))); [|lia]. cbn [mbind option_bind].
  destruct (producer_elem k rq Hwf) as [w ->]. cbn [mbind option_bind]. eexists _, _. split; [done|]. by apply queue_push.
Qed.

Lemma post_recvs_total k max_sge wrs : ∀ rq,
  queue_wf k rq → Forall (λ wr, 0 ≤ rw_num_sge wr ≤ Z.of_nat (length (rw_sg_list wr))) wrs →
  ∃ rq' bad r, post_recvs max_sge rq wrs = Some (rq', bad, r) ∧ queue_wf k rq'.
Proof.
  induction wrs as [|wr wrs IH]; intros rq Hwf Hf; [by eexists _, _, _|]. apply Forall_cons_1 in Hf as [Hwr Hf].
  cbn [post_recvs]. destruct (post_one_recv_total k max_sge rq wr Hwf Hwr) as (rq' & r & -> & Hwf'). cbn [mbind option_bind].
  destruct r; [by apply IH|by eexists _, _, _].
Qed.

(** C31: a process posts receive requests as the kernel would, but for one check. On a
    receive queue whose buffer holds its size, for a list that is not empty and
    whose requests have the entries they say, the library leaves the buffer that
    [rxe_post_recv] of the kernel would leave for a client of its own, refuses the
    same request and returns the same error number, whatever the requests are: too
    many of them, or with too many entries. Only on a queue pair that is not
    initialised or not valid the kernel refuses the call, and the library posts the
    requests nevertheless. *)
Theorem user_recv_same k uq wrs s rq :
  let q := es_qp s in
  qp_srq q = None → qp_is_user q = false → qp_rq q = Some rq →
  queue_wf k rq → intact rq → uq_rq_max_sge uq = cap_max_recv_sge (qp_cap q) → wrs ≠ [] →
  Forall (λ wr, 0 ≤ rw_num_sge wr < 2 ^ 31 ∧ rw_num_sge wr ≤ Z.of_nat (length (rw_sg_list wr))) wrs →
  ∃ rq' bad r, rxe_post_recv uq (Some (q_buf rq)) wrs = Some (Some (q_buf rq'), bad, rc_of r) ∧ queue_wf k rq' ∧
    Post.rxe_post_recv wrs s =
      if (qa_qp_state (qp_attr q) <? IB_QPS_INIT) || negb (qp_valid q) then Some ((wrs, Err EINVAL), s)
      else Some ((bad, r), s <| es_qp ::= λ q, q <| qp_rq := Some rq' |> |>).
Proof.
  intros q Hsrq Hu Hrq Hwf Hi Hm Hne Hf.
  destruct (post_recvs_total k (uq_rq_max_sge uq) wrs rq Hwf) as (rq' & bad & r & E & Hwf').
  { eapply Forall_impl; [|exact Hf]. cbn. lia. }
  exists rq', bad, r. split; [|split; [done|]].
  - destruct wrs as [|wr wrs]; [done|]. unfold rxe_post_recv. rewrite (post_recv_list_same _ _ rq), E; [done..|].
    eapply Forall_impl; [|exact Hf]. cbn. lia.
  - unfold Post.rxe_post_recv, mbind, eng_bind, get_qp, gets. fold q. destruct (_ || _); [done|].
    rewrite Hsrq, Hu, Hrq. cbn [deref mret eng_ret]. rewrite <- Hm, E. done.
Qed.

(** Two requests, with room for one. *)
Lemma user_recv_same_witness :
  ∃ b, rxe_post_recv (UserQp IB_QPT_RC 1 1 0 0) (Some (q_buf example_post_rq)) [example_recv 1; example_recv 2]
    = Some (Some b, [example_recv 2], -12).
Proof.
  set (s := example_es (example_qp (example_sq 0 0 []) [] 0 0 <| qp_rq := Some example_post_rq |>)).
  destruct (user_recv_same 1 (UserQp IB_QPT_RC (cap_max_recv_sge (qp_cap (es_qp s))) 1 0 0)
    [example_recv 1; example_recv 2] s example_post_rq) as (rq' & bad & r & E2 & _).
  - reflexivity.
  - reflexivity.
  - reflexivity.
  - split; [split|..]; cbn; lia || done.
  - split; reflexivity.
  - reflexivity.
  - done.
  - repeat constructor; cbn; lia.
  - vm_compute in E2. eexists. vm_compute. reflexivity.
Defined.

(** The doorbell on a queue pair that sends: the requester is called or scheduled. *)
Lemma doorbell k um s :
  let q := es_qp s in
  qp_valid q = true → req_state (qp_req q) ∈ [QP_STATE_READY; QP_STATE_DRAIN; QP_STATE_DRAINED] → qp_is_user q = true →
  queue_wf k (qp_sq q) → intact (qp_sq q) →
  post_send_db (DbEnv true true true) um s = Some (0, s <| es_ev ::= (λ l, l ++ [EvTask task_req (queue_count (qp_sq q) >? 1)]) |>).
Proof.
  intros q Hv Hst Hu Hwf [Hi _]. unfold post_send_db, ib_uverbs_post_send, Post.rxe_post_send, mbind, eng_bind, get_qp, gets.
  change (uverbs_check (DbEnv true true true) sizeof_ibv_send_wr) with (Ok tt). cbn [db_copied].
  cbv beta. change (es_qp s) with q.
  destruct (sends_state _ Hst) as [-> ->]. rewrite Hv, Hu. cbn [negb orb]. unfold sq_wqe, mbind, eng_bind, get_qp, gets. fold q.
  assert (He : is_Some (elem_at (qp_sq q) (addr_from_index (qp_sq q) (u32 (producer_index (qp_sq q) - 1) .& q_index_mask (qp_sq q))))).
  { unfold elem_at, addr_from_index. destruct Hwf as [[] ? ?]. rewrite Hi, geom_mask, !land_mask, slot_addr by lia.
    apply lookup_lt_is_Some_2. pose proof (Z.mod_pos_bound (u32 (producer_index (qp_sq q) - 1) mod 2 ^ k) (2 ^ k)). lia. }
  destruct He as [w ->]. cbn [deref mret eng_ret post_sends]. reflexivity.
Qed.

(** C11: a process posts send requests as the kernel would. On a queue pair that
    sends, with requests of operations that its service has, the library puts the
    requests into the send queue and rings the doorbell; the kernel, asked by a
    client of its own to post the same requests, leaves a queue with the same
    elements in everything the engine looks at, refuses the same request with the
    same error, be it a limit of the queue pair that is broken or want of room, and
    starts the requester in the same way. Nothing else of the kernel's state
    changes. *)
Theorem user_send_same k um uq wrs s :
  let q := es_qp s in
  qp_valid q = true → req_state (qp_req q) ∈ [QP_STATE_READY; QP_STATE_DRAIN; QP_STATE_DRAINED] → qp_is_user q = true →
  queue_wf k (qp_sq q) → intact (qp_sq q) → told uq q → wrs ≠ [] → Forall (user_request q) wrs →
  ∃ uq' sq' bad r ev s',
    rxe_post_send (DbEnv true true true) um uq wrs s
      = Some ((uq', bad, rc_of r), s <| es_qp ::= λ q, q <| qp_sq := sq' |> |> <| es_ev ::= (λ l, l ++ [ev]) |>) ∧
    Post.rxe_post_send um (to_post <$> wrs) (s <| es_qp ::= λ q, q <| qp_is_user := false |> |>) = Some ((to_post <$> bad, r), s') ∧
    seen <$> queue_list sq' = seen <$> queue_list (qp_sq (es_qp s')) ∧ queue_wf k sq' ∧ es_ev s' = es_ev s ++ [ev].
Proof.
  intros q Hv Hst Hu Hwf Hi Ht Hne Hf. set (s0 := s <| es_qp ::= λ q, q <| qp_is_user := false |> |>).
  assert (Hf0 : Forall (user_request (es_qp s0)) wrs) by (eapply Forall_impl; [|exact Hf]; by intros x []).
  destruct (sends_same um k wrs uq (qp_sq q) s0) as (uq' & sq' & bad & r & s1 & E1 & E2 & E3 & Hwf' & Hi' & El); try done.
  { by destruct Ht. }
  destruct (post_sends_spec um k (to_post <$> wrs) s0) as (n & r' & sq1 & ws & _ & E2' & Hwf1 & _); [done|done| |].
  { apply Forall_fmap. eapply Forall_impl; [|exact Hf0]. intros x. by apply user_listed. }
  rewrite E2 in E2'. injection E2' as _ _ Hs1.
  assert (Hsq : queue_wf k (qp_sq (es_qp s1))) by (by rewrite Hs1). clear Hwf1. rename Hsq into Hwf1.
  exists uq', sq', bad, r, (EvTask task_req (queue_count sq' >? 1)), (s1 <| es_ev ::= (λ l, l ++ [EvTask task_req (queue_count sq' >? 1)]) |>).
  split; [|split; [|split; [exact El|split; [done|by rewrite Hs1]]]].
  - destruct wrs as [|wr wrs']; [done|]. unfold rxe_post_send, mbind, eng_bind, get_qp, gets. fold q. rewrite E1. cbn [deref mret eng_ret].
    unfold mod_qp, modify.
    set (s2 := s <| es_qp ::= λ q, q <| qp_sq := sq' |> |>).
    match goal with |- context [post_send_db _ _ ?x] => replace x with s2 end.
    2:{ unfold s2. rewrite E3. by destruct s as [? [] ? ? ? ?]. }
    pose proof (doorbell k um s2) as Hd. cbv zeta in Hd. rewrite Hd; [|exact Hv|exact Hst|exact Hu|exact Hwf'|exact Hi']. done.
  - assert (Hc : queue_count sq' = queue_count (qp_sq (es_qp s1))).
    { rewrite <- (queue_list_length k sq'), <- (queue_list_length k (qp_sq _)) by (apply Hwf' || apply Hwf1).
      apply (f_equal length) in El. rewrite !length_fmap in El. by rewrite El. }
    unfold Post.rxe_post_send, mbind, eng_bind, get_qp, gets. change (qp_valid (es_qp s0)) with (qp_valid q).
    change (req_state (qp_req (es_qp s0))) with (req_state (qp_req q)). rewrite Hv.
    destruct (sends_state _ Hst) as [-> ->]. cbn [negb orb]. change (qp_is_user (es_qp s0)) with false. cbn [mret eng_ret]. rewrite E2, Hc. done.
Qed.

Definition example_user_send (id : Z) : ibv_send_wr :=
  UserSend id [Sge 1000 16 0x102] 1 IB_WR_SEND 0 0 0 0 0 0 0 0 example_av.

(** Four requests, with room for three: the fourth is refused, the requester is
    scheduled. With too many entries, the second is refused. *)
Lemma user_send_same_witness :
  let um := Umem (λ _ _, []) (λ _ _, false) in
  let slot := example_send 0 0 wqe_state_posted 0 0 0 (Dma 0 0 0 0 0 [] []) in
  let q := example_qp (example_sq 0 0 (replicate 4 slot)) [] 0 0 <| qp_is_user := true |> in
  let uq := UserQp (qp_type q) 1 (cap_max_send_sge (qp_cap q)) (cap_max_inline_data (qp_cap q)) 77 in
  let big := UserSend 2 (replicate 50 (Sge 1000 16 0x102)) 50 IB_WR_SEND 0 0 0 0 0 0 0 0 example_av in
  (∃ uq' s', rxe_post_send (DbEnv true true true) um uq (example_user_send <$> [1; 2; 3; 4]) (example_es q)
      = Some ((uq', [example_user_send 4], -12), s') ∧ uq_ssn uq' = 81 ∧
    (wr_id ∘ wqe_ibwr) <$> queue_list (qp_sq (es_qp s')) = [1; 2; 3] ∧ es_ev s' = [EvTask task_req true]) ∧
  (∃ uq' s', rxe_post_send (DbEnv true true true) um uq [example_user_send 1; big] (example_es q)
      = Some ((uq', [big], -22), s') ∧ (wr_id ∘ wqe_ibwr) <$> queue_list (qp_sq (es_qp s')) = [1]).
Proof.
  intros um slot q uq big.
  assert (Hwf : queue_wf 2 (qp_sq q)) by (split; [split|..]; cbn; lia || done).
  assert (Ht : told uq q) by (split; [reflexivity|left|reflexivity|vm_compute; reflexivity|reflexivity]).
  assert (Hf : ∀ id, user_request q (example_user_send id)).
  { intros id. split; [right; right; left|cbn; lia|vm_compute; discriminate|reflexivity]. }
  split.
  - destruct (user_send_same 2 um uq (example_user_send <$> [1; 2; 3; 4]) (example_es q)) as (uq' & sq' & bad & r & ev & s' & E & _);
      [reflexivity|left|reflexivity|exact Hwf|split; reflexivity|exact Ht|done|by repeat (constructor; [apply Hf|])|].
    eexists _, _. split; [vm_compute; reflexivity|]. split; [reflexivity|]. split; vm_compute; reflexivity.
  - destruct (user_send_same 2 um uq [example_user_send 1; big] (example_es q)) as (uq' & sq' & bad & r & ev & s' & E & _);
      [reflexivity|left|reflexivity|exact Hwf|split; reflexivity|exact Ht|done| |].
    { constructor; [apply Hf|]. constructor; [|done]. split; [right; right; left|cbn; lia|vm_compute; discriminate|reflexivity]. }
    eexists _, _. split; [vm_compute; reflexivity|]. vm_compute; reflexivity.
Defined.

(** An operation that the service does not have: the kernel refuses a read on an
    unreliable connection, the library posts it. *)
Lemma user_send_unchecked :
  let um := Umem (λ _ _, []) (λ _ _, false) in
  let slot := example_send 0 0 wqe_state_posted 0 0 0 (Dma 0 0 0 0 0 [] []) in
  let q := example_qp (example_sq 0 0 (replicate 4 slot)) [] 0 0 <| qp_qp_type := IB_QPT_UC |> in
  let uq := UserQp (qp_type q) 1 (cap_max_send_sge (qp_cap q)) (cap_max_inline_data (qp_cap q)) 77 in
  let rd := UserSend 1 [Sge 1000 16 0x102] 1 IB_WR_RDMA_READ 0 0 0 0 0 0 0 0 example_av in
  (∃ s', Post.rxe_post_send um [to_post rd] (example_es q) = Some (([to_post rd], Err EINVAL), s')) ∧
  (∃ uq' s', rxe_post_send (DbEnv true true true) um uq [rd] (example_es (q <| qp_is_user := true |>)) = Some ((uq', [], 0), s') ∧
     length (queue_list (qp_sq (es_qp s'))) = 1%nat).
Proof. split; [eexists; vm_compute; reflexivity|]. eexists _, _. split; [vm_compute; reflexivity|]. vm_compute; reflexivity. Qed.
