(* ===== verification/LibrxeObj.v ===== *)
(** * The user library: objects of a process (librxe: rxe.c)

    The library allocates an object, asks the kernel to create its counterpart,
    and maps the buffers of its queues, whose place and size the kernel returns.
    The process holds memory, mappings and objects of the kernel; what malloc,
    mmap and the commands of libibverbs return is given with each call. *)

From stdpp Require Import gmap.
From S2P Require Import Prelude Queue Opcode Hdr Verbs State Av Librxe.

(** ** The process *)

(** [pr_heap] are the addresses malloc has handed out, [pr_maps] the mappings with
    their sizes, [pr_kobjs] the handles of the objects of the kernel. *)
Record proc := Proc {
  pr_heap : gset Z;
  pr_maps : gmap Z Z;
  pr_kobjs : gset Z
}.

#[export] Instance eta_proc : Eta proc := fun r => Proc (pr_heap r) (pr_maps r) (pr_kobjs r).

Definition do_malloc (a : Z) (p : proc) : proc := p <| pr_heap ::= λ h, {[ a ]} ∪ h |>.
Definition do_free (a : Z) (p : proc) : proc := p <| pr_heap ::= λ h, h ∖ {[ a ]} |>.
Definition do_mmap (a size : Z) (p : proc) : proc := p <| pr_maps ::= <[a := size]> |>.

(** What of the mapping at [a] lies behind its first [len] bytes stays mapped. *)
Definition do_munmap (a len : Z) (p : proc) : proc :=
  match pr_maps p !! a with
  | Some size =>
      p <| pr_maps ::= λ m, if len <? size then <[a + len := size - len]> (delete a m) else delete a m |>
  | None => p
  end.

Definition k_create (h : Z) (p : proc) : proc := p <| pr_kobjs ::= λ k, {[ h ]} ∪ k |>.
Definition k_destroy (h : Z) (p : proc) : proc := p <| pr_kobjs ::= λ k, k ∖ {[ h ]} |>.

(** [struct mmap_info]. *)
Record mmap_info := MmapInfo { mi_offset : Z; mi_size : Z }.

(** A queue of the process: where it is mapped, and what of it is. *)
Record user_queue := UserQueue { u_queue : option Z; u_mmap_info : mmap_info }.

(** ** Objects without a queue *)

(** Protection domains, memory regions and the like: [malloc], then the command. *)
Definition rxe_alloc_pd (malloc : option Z) (cmd : Z + Z) (p : proc) : option (Z * Z) * proc :=
  match malloc with
  | None => (None, p)
  | Some a =>
      let p := do_malloc a p in
      match cmd with
      | inl _ => (None, do_free a p)
      | inr h => (Some (a, h), k_create h p)
      end
  end.

Definition rxe_dealloc_pd (pd : Z * Z) (ret : Z) (p : proc) : Z * proc :=
  if ret =? 0 then (0, do_free pd.1 (k_destroy pd.2 p)) else (ret, p).

(** [rxe_reg_mr] and [rxe_dereg_mr]. *)
Definition rxe_reg_mr : option Z → Z + Z → proc → option (Z * Z) * proc := rxe_alloc_pd.

Definition rxe_dereg_mr (mr : Z * Z) (ret : Z) (p : proc) : Z * proc :=
  if negb (ret =? 0) then (ret, p) else (0, do_free mr.1 (k_destroy mr.2 p)).

(** Address handles: the address vector is filled in before the kernel is asked.
    The flag for a global route is not looked at. *)
Definition rxe_create_ah (malloc : option Z) (attr : ib_ah_attr) (cmd : Z + Z) (p : proc) : option (Z * Z * rxe_av) * proc :=
  match malloc with
  | None => (None, p)
  | Some a =>
      let p := do_malloc a p in
      let prefix := ah_dgid_prefix attr in
      let guid := ah_dgid_guid attr in
      let ll_addr :=
        if rdma_link_local_addr prefix then Some (rdma_get_ll_mac prefix guid)
        else if rdma_is_multicast_addr prefix guid then Some (rdma_get_mcast_mac prefix guid)
        else None in
      match ll_addr with
      | None => (None, do_free a p)
      | Some ll_addr =>
          match cmd with
          | inl _ => (None, do_free a p)
          | inr h => (Some (a, h, Av attr ll_addr), k_create h p)
          end
      end
  end.

Definition rxe_destroy_ah (ah : Z * Z * rxe_av) (ret : Z) (p : proc) : Z * proc :=
  let '(a, h, _) := ah in
  if negb (ret =? 0) then (ret, p) else (0, do_free a (k_destroy h p)).

(** ** Completion queues *)

Record user_cq := UserCq { ucq_ptr : Z; ucq_handle : Z; ucq_queue : user_queue }.

(** The value returned by a creation command: an error, or the handle and the
    response. [destroy] is whether the kernel destroys the object when asked to
    undo its creation; the library does not look. *)
Definition undo_create (destroy : bool) (h : Z) (p : proc) : proc := if destroy then k_destroy h p else p.

Definition rxe_create_cq (malloc : option Z) (cmd : Z + Z * mmap_info) (mmap : option Z) (destroy : bool) (p : proc)
    : option user_cq * proc :=
  match malloc with
  | None => (None, p)
  | Some a =>
      let p := do_malloc a p in
      match cmd with
      | inl _ => (None, do_free a p)
      | inr (h, mi) =>
          let p := k_create h p in
          match mmap with
          | None => (None, do_free a (undo_create destroy h p))
          | Some m => (Some (UserCq a h (UserQueue (Some m) mi)), do_mmap m (mi_size mi) p)
          end
      end
  end.

(** The old buffer is unmapped before the new one is mapped. *)
Definition remap (q : user_queue) (mi : mmap_info) (mmap : Z + Z) (p : proc) : user_queue * Z * proc :=
  let p := from_option (λ a, do_munmap a (mi_size (u_mmap_info q))) id (u_queue q) p in
  match mmap with
  | inl err => (UserQueue None (MmapInfo (mi_offset (u_mmap_info q)) 0), err, p)
  | inr m => (UserQueue (Some m) mi, 0, do_mmap m (mi_size mi) p)
  end.

Definition rxe_resize_cq (cq : user_cq) (cmd : Z + mmap_info) (mmap : Z + Z) (p : proc) : user_cq * Z * proc :=
  match cmd with
  | inl ret => (cq, ret, p)
  | inr mi =>
      let '(q, ret, p) := remap (ucq_queue cq) mi mmap p in
      (UserCq (ucq_ptr cq) (ucq_handle cq) q, ret, p)
  end.

(** [munmap] with the size recorded, when it is not zero. *)
Definition unmap_queue (q : user_queue) (p : proc) : proc :=
  if mi_size (u_mmap_info q) =? 0 then p
  else from_option (λ a, do_munmap a (mi_size (u_mmap_info q))) id (u_queue q) p.

Definition rxe_destroy_cq (cq : user_cq) (ret : Z) (p : proc) : Z * proc :=
  if negb (ret =? 0) then (ret, p)
  else (0, do_free (ucq_ptr cq) (unmap_queue (ucq_queue cq) (k_destroy (ucq_handle cq) p))).

(** ** Shared receive queues *)

Record user_srq := UserSrq { usrq_ptr : Z; usrq_handle : Z; usrq_queue : user_queue; usrq_max_sge : Z }.

Definition rxe_create_srq (malloc : option Z) (cmd : Z + Z * mmap_info) (mmap : option Z) (destroy : bool) (max_sge : Z) (p : proc)
    : option user_srq * proc :=
  match malloc with
  | None => (None, p)
  | Some a =>
      let p := do_malloc a p in
      match cmd with
      | inl _ => (None, do_free a p)
      | inr (h, mi) =>
          let p := k_create h p in
          match mmap with
          | None => (None, do_free a (undo_create destroy h p))
          | Some m => (Some (UserSrq a h (UserQueue (Some m) mi) max_sge), do_mmap m (mi_size mi) p)
          end
      end
  end.

Definition rxe_modify_srq (srq : user_srq) (max_wr : bool) (cmd : Z + mmap_info) (mmap : Z + Z) (p : proc) : user_srq * Z * proc :=
  match cmd with
  | inl rc => (srq, rc, p)
  | inr mi =>
      if max_wr then
        let '(q, rc, p) := remap (usrq_queue srq) mi mmap p in
        (UserSrq (usrq_ptr srq) (usrq_handle srq) q (usrq_max_sge srq), rc, p)
      else (srq, 0, p)
  end.

Definition rxe_destroy_srq (srq : user_srq) (ret : Z) (p : proc) : Z * proc :=
  if ret =? 0 then (0, do_free (usrq_ptr srq) (unmap_queue (usrq_queue srq) (k_destroy (usrq_handle srq) p)))
  else (ret, p).

(** ** Queue pairs *)

Record user_qp_obj := UserQpObj { uqp_ptr : Z; uqp_handle : Z; uqp_rq : user_queue; uqp_sq : user_queue }.

(** [has_srq] is [attr->srq]; the response has the places of both queues. *)
Definition rxe_create_qp (malloc : option Z) (has_srq : bool) (cmd : Z + Z * mmap_info * mmap_info) (mmap_rq mmap_sq : option Z)
    (destroy : bool) (p : proc) : option user_qp_obj * proc :=
  match malloc with
  | None => (None, p)
  | Some a =>
      let p := do_malloc a p in
      match cmd with
      | inl _ => (None, do_free a p)
      | inr (h, rq_mi, sq_mi) =>
          let p := k_create h p in
          let rq :=
            if has_srq then Some (UserQueue None (MmapInfo 0 0), p)
            else match mmap_rq with
                 | None => None
                 | Some m => Some (UserQueue (Some m) rq_mi, do_mmap m (mi_size rq_mi) p)
                 end in
          match rq with
          | None => (None, do_free a (undo_create destroy h p))
          | Some (rq, p) =>
              match mmap_sq with
              | None => (None, do_free a (undo_create destroy h (unmap_queue rq p)))
              | Some m => (Some (UserQpObj a h rq (UserQueue (Some m) sq_mi)), do_mmap m (mi_size sq_mi) p)
              end
          end
      end
  end.

Definition rxe_destroy_qp (qp : user_qp_obj) (ret : Z) (p : proc) : Z * proc :=
  if ret =? 0 then (0, do_free (uqp_ptr qp) (unmap_queue (uqp_sq qp) (unmap_queue (uqp_rq qp) (k_destroy (uqp_handle qp) p))))
  else (ret, p).

(** ** What a process holds *)

Definition maps_of (q : user_queue) (m : gmap Z Z) : gmap Z Z :=
  match u_queue q with
  | Some a => <[a := mi_size (u_mmap_info q)]> m
  | None => m
  end.

(** A queue whose buffer is mapped outside of [m], or that has none. *)
Definition queue_apart (q : user_queue) (m : gmap Z Z) : Prop :=
  match u_queue q with
  | Some a => m !! a = None ∧ mi_size (u_mmap_info q) ≠ 0
  | None => True
  end.

(** The process [p0] and, on top of it, one object and the buffer of one queue. *)
Definition holds (p0 : proc) (a h : Z) (q : user_queue) (p : proc) : Prop :=
  p = Proc ({[ a ]} ∪ pr_heap p0) (maps_of q (pr_maps p0)) ({[ h ]} ∪ pr_kobjs p0).

Lemma proc_eq p q : pr_heap p = pr_heap q → pr_maps p = pr_maps q → pr_kobjs p = pr_kobjs q → p = q.
Proof. destruct p, q. cbn. congruence. Qed.

Lemma munmap_mapped a size m p :
  m !! a = None → pr_maps p = <[a := size]> m → do_munmap a size p = p <| pr_maps := m |>.
Proof.
  intros Ha Hm. unfold do_munmap. rewrite Hm, lookup_insert_eq, Z.ltb_irrefl. destruct p. cbn in *. subst.
  apply proc_eq; cbn; [done| |done]. by rewrite delete_insert_id.
Qed.

Lemma unmap_maps q p m : queue_apart q m → pr_maps p = maps_of q m →
  unmap_queue q p = p <| pr_maps := m |>.
Proof.
  unfold queue_apart, maps_of, unmap_queue. destruct q as [[a|] mi]; cbn.
  - intros [Ha Hs] Hm. destruct (Z.eqb_spec (mi_size mi) 0); [lia|]. by apply munmap_mapped.
  - intros _ Hm. destruct p. cbn in *. subst. by destruct (_ =? _).
Qed.

Lemma remap_holds p0 a h q mi mmap p q' ret p' :
  holds p0 a h q p → queue_apart q (pr_maps p0) → match mmap with inr m => pr_maps p0 !! m = None ∧ mi_size mi ≠ 0 | inl _ => True end →
  remap q mi mmap p = (q', ret, p') → holds p0 a h q' p' ∧ queue_apart q' (pr_maps p0).
Proof.
  unfold holds, queue_apart, maps_of, remap. intros -> Hq Hm.
  set (p1 := from_option _ id (u_queue q) _).
  assert (Hp1 : p1 = Proc ({[ a ]} ∪ pr_heap p0) (pr_maps p0) ({[ h ]} ∪ pr_kobjs p0)).
  { unfold p1. destruct q as [[x|] ?]; [|done]. by apply (munmap_mapped _ _ (pr_maps p0)); [apply Hq|]. }
  rewrite Hp1. destruct mmap; intros [= <- _ <-]; done.
Qed.

(** The object and the buffer are given back. *)
Lemma release_holds p0 a h q p :
  a ∉ pr_heap p0 → h ∉ pr_kobjs p0 → queue_apart q (pr_maps p0) → holds p0 a h q p →
  do_free a (unmap_queue q (k_destroy h p)) = p0.
Proof.
  intros Ha Hh Hq ->. rewrite (unmap_maps q _ (pr_maps p0)) by done.
  apply proc_eq; cbn; [|done|]; set_solver.
Qed.

(** A sequence of resizes, each with what the kernel and mmap return. *)
Fixpoint resizes (cq : user_cq) (l : list ((Z + mmap_info) * (Z + Z))) (p : proc) : user_cq * proc :=
  match l with
  | [] => (cq, p)
  | (cmd, mmap) :: l => let '(cq, _, p) := rxe_resize_cq cq cmd mmap p in resizes cq l p
  end.

(** What mmap returns is not in use, and the kernel returns no empty buffer. *)
Definition resize_env (p0 : proc) (e : (Z + mmap_info) * (Z + Z)) : Prop :=
  match e with
  | (inr mi, inr m) => pr_maps p0 !! m = None ∧ mi_size mi ≠ 0
  | _ => True
  end.

Lemma resizes_hold p0 l : ∀ cq p,
  Forall (resize_env p0) l → holds p0 (ucq_ptr cq) (ucq_handle cq) (ucq_queue cq) p → queue_apart (ucq_queue cq) (pr_maps p0) →
  let '(cq', p') := resizes cq l p in
  ucq_ptr cq' = ucq_ptr cq ∧ ucq_handle cq' = ucq_handle cq ∧
  holds p0 (ucq_ptr cq') (ucq_handle cq') (ucq_queue cq') p' ∧ queue_apart (ucq_queue cq') (pr_maps p0).
Proof.
  induction l as [|[cmd mmap] l IH]; intros cq p Hl Hh Hq; [done|]. apply Forall_cons_1 in Hl as [He Hl].
  cbn [resizes]. destruct cmd as [err|mi]; cbn [rxe_resize_cq]; [by apply IH|].
  destruct (remap (ucq_queue cq) mi mmap p) as [[q' ret] p'] eqn:E.
  destruct (remap_holds _ _ _ _ _ _ _ _ _ _ Hh Hq He E) as [Hh' Hq'].
  exact (IH (UserCq (ucq_ptr cq) (ucq_handle cq) q') p' Hl Hh' Hq').
Qed.

(** ** Claims *)

(** C39: a completion queue of a process, from its creation to its end. If the
    creation fails, wherever it does, the process holds what it held before; if
    it succeeds, then after any sequence of resizes, including those in which the
    new buffer cannot be mapped, destroying the queue gives back its memory, its
    mapping and the object of the kernel, and nothing else. *)
Theorem user_cq_restored malloc cmd mmap l p :
  match malloc with Some a => a ∉ pr_heap p | None => True end →
  match cmd with inr (h, mi) => h ∉ pr_kobjs p ∧ mi_size mi ≠ 0 | inl _ => True end →
  match mmap with Some m => pr_maps p !! m = None | None => True end →
  Forall (resize_env p) l →
  match rxe_create_cq malloc cmd mmap true p with
  | (None, p') => p' = p
  | (Some cq, p') => let '(cq', p'') := resizes cq l p' in rxe_destroy_cq cq' 0 p'' = (0, p)
  end.
Proof.
  intros Ha Hc Hm Hl. destruct malloc as [a|]; [|done]. unfold rxe_create_cq.
  destruct cmd as [err|[h mi]]; [apply proc_eq; cbn; done || set_solver|]. destruct Hc as [Hh Hs].
  destruct mmap as [m|]; [|apply proc_eq; cbn; done || set_solver].
  pose proof (resizes_hold p l (UserCq a h (UserQueue (Some m) mi)) (do_mmap m (mi_size mi) (k_create h (do_malloc a p))) Hl) as H.
  destruct (resizes _ _ _) as [cq' p'']. destruct H as (E1 & E2 & H3 & H4); [done|done|]. cbn in E1, E2.
  unfold rxe_destroy_cq. cbn [negb Z.eqb]. f_equal. rewrite E1, E2 in *. by apply release_holds.
Qed.

(** Created, resized once with success and once without, destroyed. *)
Lemma user_cq_restored_witness :
  let p := Proc {[ 5 ]} {[ 4096 := 640 ]} {[ 1 ]} in
  match rxe_create_cq (Some 6) (inr (2, MmapInfo 0 1408)) (Some 8192) true p with
  | (None, p') => p' = p
  | (Some cq, p') =>
      let '(cq', p'') := resizes cq [(inr (MmapInfo 8192 2048), inr 8192); (inr (MmapInfo 12288 4096), inl 12)] p' in
      rxe_destroy_cq cq' 0 p'' = (0, p)
  end.
Proof.
  intros p. apply (user_cq_restored (Some 6) (inr (2, MmapInfo 0 1408)) (Some 8192)
    [(inr (MmapInfo 8192 2048), inr 8192); (inr (MmapInfo 12288 4096), inl 12)] p).
  - unfold p. cbn. set_solver.
  - unfold p. cbn. split; [set_solver|done].
  - reflexivity.
  - repeat constructor; done.
Defined.

(** C40: a queue pair of a process. If its creation fails, with the memory, in the
    kernel, or at the mapping of either queue, the process holds what it held
    before; if it succeeds, both queues are mapped (the send queue alone, with a
    shared receive queue), and destroying the queue pair restores the process. *)
Theorem user_qp_restored malloc has_srq cmd mmap_rq mmap_sq p :
  match malloc with Some a => a ∉ pr_heap p | None => True end →
  match cmd with inr (h, rq_mi, sq_mi) => h ∉ pr_kobjs p ∧ mi_size rq_mi ≠ 0 ∧ mi_size sq_mi ≠ 0 | inl _ => True end →
  match mmap_rq with Some m => pr_maps p !! m = None | None => True end →
  match mmap_sq with Some m => pr_maps p !! m = None ∧ mmap_rq ≠ Some m | None => True end →
  match rxe_create_qp malloc has_srq cmd mmap_rq mmap_sq true p with
  | (None, p') => p' = p
  | (Some qp, p') => u_queue (uqp_sq qp) = mmap_sq ∧ u_queue (uqp_rq qp) = (if has_srq then None else mmap_rq) ∧
      pr_maps p' = maps_of (uqp_sq qp) (maps_of (uqp_rq qp) (pr_maps p)) ∧ rxe_destroy_qp qp 0 p' = (0, p)
  end.
Proof.
  intros Ha Hc Hr Hs. destruct malloc as [a|]; [|done]. unfold rxe_create_qp.
  destruct cmd as [err|[[h rq_mi] sq_mi]]; [apply proc_eq; cbn; done || set_solver|]. destruct Hc as (Hh & Hs1 & Hs2).
  set (p1 := k_create h (do_malloc a p)).
  assert (Hend : ∀ q p2, queue_apart q (pr_maps p) → holds p a h q p2 → do_free a (undo_create true h (unmap_queue q p2)) = p).
  { intros q p2 Hq E. rewrite E, (unmap_maps q _ (pr_maps p)) by done. apply proc_eq; cbn; [|done|]; set_solver. }
  assert (Hboth : ∀ rq m, queue_apart rq (pr_maps p) → pr_maps p !! m = None → u_queue rq ≠ Some m →
    let sq := UserQueue (Some m) sq_mi in
    let p3 := Proc ({[ a ]} ∪ pr_heap p) (maps_of sq (maps_of rq (pr_maps p))) ({[ h ]} ∪ pr_kobjs p) in
    rxe_destroy_qp (UserQpObj a h rq sq) 0 p3 = (0, p)).
  { intros rq m Hq Hm Hne. unfold rxe_destroy_qp. cbn -[unmap_queue maps_of]. f_equal.
    rewrite (unmap_maps rq _ (<[m := mi_size sq_mi]> (pr_maps p))).
    - rewrite (unmap_maps (UserQueue (Some m) sq_mi) _ (pr_maps p)); [|done|done]. apply proc_eq; cbn; [|done|]; set_solver.
    - destruct rq as [[x|] mi]; [|done]. cbn in *. rewrite lookup_insert_ne by congruence. done.
    - destruct rq as [[x|] mi]; [|done]. cbn in *. rewrite insert_insert_ne by congruence. done. }
  destruct has_srq; [|destruct mmap_rq as [mr|]].
  all: destruct mmap_sq as [ms|]; try (destruct Hs as [Hs Hne]).
  - split; [done|]. split; [done|]. split; [done|]. by apply (Hboth (UserQueue None (MmapInfo 0 0)) ms).
  - by apply Hend.
  - split; [done|]. split; [done|]. split; [done|]. apply (Hboth (UserQueue (Some mr) rq_mi) ms); [done|done|]. cbn. congruence.
  - by apply Hend.
  - apply (Hend (UserQueue None (MmapInfo 0 0))); done.
  - apply (Hend (UserQueue None (MmapInfo 0 0))); done.
Qed.

(** The send queue cannot be mapped. *)
Lemma user_qp_restored_witness :
  let p := Proc {[ 5 ]} {[ 4096 := 640 ]} {[ 1 ]} in
  (rxe_create_qp (Some 6) false (inr (2, MmapInfo 0 1408, MmapInfo 4096 2048)) (Some 8192) None true p).2 = p.
Proof.
  intros p. refine (user_qp_restored (Some 6) false (inr (2, MmapInfo 0 1408, MmapInfo 4096 2048)) (Some 8192) None p _ _ _ _).
  - unfold p. cbn. set_solver.
  - unfold p. cbn. split; [set_solver|done].
  - reflexivity.
  - exact I.
Defined.

(** ** Shared receive queues *)

(** The same for a shared receive queue: created, changed once in whatever way,
    destroyed. *)
Lemma user_srq_restored malloc cmd mmap max_sge max_wr cmd2 mmap2 p :
  match malloc with Some a => a ∉ pr_heap p | None => True end →
  match cmd with inr (h, mi) => h ∉ pr_kobjs p ∧ mi_size mi ≠ 0 | inl _ => True end →
  match mmap with Some m => pr_maps p !! m = None | None => True end → resize_env p (cmd2, mmap2) →
  match rxe_create_srq malloc cmd mmap true max_sge p with
  | (None, p') => p' = p
  | (Some srq, p') => let '(srq', _, p'') := rxe_modify_srq srq max_wr cmd2 mmap2 p' in rxe_destroy_srq srq' 0 p'' = (0, p)
  end.
Proof.
  intros Ha Hc Hm Hl. destruct malloc as [a|]; [|done]. unfold rxe_create_srq.
  destruct cmd as [err|[h mi]]; [apply proc_eq; cbn; done || set_solver|]. destruct Hc as [Hh Hs].
  destruct mmap as [m|]; [|apply proc_eq; cbn; done || set_solver].
  set (q := UserQueue (Some m) mi). set (p1 := do_mmap m (mi_size mi) (k_create h (do_malloc a p))).
  assert (Hq : queue_apart q (pr_maps p)) by done. assert (H1 : holds p a h q p1) by done.
  unfold rxe_modify_srq, rxe_destroy_srq. cbn [usrq_queue usrq_ptr usrq_handle usrq_max_sge Z.eqb].
  destruct cmd2 as [err|mi2]; [f_equal; by apply release_holds|]. destruct max_wr; [|f_equal; by apply release_holds].
  destruct (remap q mi2 mmap2 p1) as [[q' ret] p'] eqn:E. destruct (remap_holds _ _ _ _ _ _ _ _ _ _ H1 Hq Hl E) as [H2 Hq2].
  cbn [usrq_queue usrq_ptr usrq_handle]. f_equal. by apply release_holds.
Qed.

(** ** Address handles *)

(** The address vector of the library is the one the kernel would make, for a
    route with a global header through the port the attributes name. *)
Lemma user_ah_same `{Params} a h attr p s ah p' :
  flag_set (ah_ah_flags attr) IB_AH_GRH = true → rxe_create_ah (Some a) attr (inr h) p = (Some ah, p') →
  rxe_av_from_attr (ah_port_num attr) attr s = Some ((ah.2, Ok tt), s).
Proof.
  intros Hg. unfold rxe_create_ah, rxe_av_from_attr, init_av, mbind, eng_bind, get_dev, gets. rewrite Hg. cbn [negb andb].
  destruct (rdma_link_local_addr (ah_dgid_prefix attr)) eqn:El; [|destruct (rdma_is_multicast_addr _ _) eqn:Em; [|done]].
  all: intros [= <- <-]; cbn; rewrite El, ?Em; by destruct attr.
Qed.
